(* ===== verification/_CoqProject ===== *)
-Q . S2P
Prelude.v
Bitmap.v
Machine.v
Mips.v
HostFile.v
AddrSpace.v
Coff.v
Lists.v
Interrupt.v
Threads.v
Sched.v
Waiters.v
Wakeups.v
Locks.v
Synch.v
SynchProps.v
Handlers.v
Interleave.v
Drivers.v
Calls.v
Discipline.v
Ksyscall.v
Console.v
Disk.v
NachosFile.v
PBitmap.v
Directory.v
FileSys.v
DiskFile.v
SynchDisk.v
Copy.v
STable.v
PCB.v
PTable.v
Usermem.v
Hash.v
Kernel.v
KernelLaws.v
Exec.v
KernelProps.v
KernelConsole.v
Faults.v
SynchList.v
SelfTests.v
Network.v
Post.v
PostLaws.v
PostProps.v
