(* ===== verification/Prelude.v ===== *)
(** * NachOS-Project: a verification library

    The program is a NachOS 4.0 kernel, extended with system calls, processes
    and semaphores, that runs on a simulated MIPS machine inside one host
    process.  The repository's tree is src/project/nachos/NachOS-4.0/; all file
    names below are relative to its code/ directory, but coff2noff/ lies beside it.
    The build modelled is the
    one of build.linux/Makefile: FILESYS_STUB, RDATA and SIM_FIX defined, USE_TLB
    not, 32-bit host.  The file system that FILESYS_STUB leaves out is modelled
    beside it.

    ** The parts and how they interact

    The processor (machine/mipssim.cc) executes user instructions on registers
    and memory (machine/machine.cc, translate.cc).  After each of them, and
    whenever the kernel enables interrupts, simulated time advances
    (machine/interrupt.cc) and device handlers may run; a handler may ask for
    a context switch (threads/scheduler.cc, thread.cc), on which semaphores,
    locks and conditions (threads/synch.cc) are built.  A system call leaves
    user mode for userprog/exception.cc, which copies arguments from user
    memory and calls userprog/ksyscall.h; that one dispatches to processes and
    their open files (threads/pcb.cc), named semaphores (threads/stable.cc),
    the console, or the file system, which the build keeps on the host
    (lib/sysdep.cc, filesys/openfile.h, filesys/filesys.h).  userprog/addrspace.cc
    loads programs into page frames taken from a bitmap (lib/bitmap.cc); lists
    (lib/list.cc) carry the ready queue and all waiting queues.  Beside these
    there is a disk with a file system of its own, a network with mail boxes
    (network/post.cc), and coff2noff, the host program that makes the executables
    which addrspace.cc loads.

    ** The files of this library

    - [Prelude]: the [result] monad of C++ outcomes, machine integers, arrays,
      counted loops, the lemmas and tactics on them; lib/utility.h.
    - [Bitmap]: lib/bitmap.cc.  The record [Bitmap] has the fields of the class;
      [BitmapLaws] is the interface its clients are proved against.
    - [Machine]: machine/machine.cc, translate.cc.  [Machine] has registers, main
      memory, page table and TLB; [ReadMem], [WriteMem], [Translate], the byte
      order conversions, [RaiseException] (the handler is a parameter).
    - [Mips]: machine/mipssim.cc.  [Decode], [OneInstruction] and an [exec_]
      function for every group of opcodes.
    - [HostFile]: the host's files as POSIX has them ([Host]: names, inodes,
      descriptors), the calls of lib/sysdep.cc, and the stub classes
      [OpenFile] and [FileSystem].
    - [AddrSpace]: userprog/addrspace.cc, noff.h.
    - [Coff]: coff2noff/coff2noff.c, coff.h, on the files of [HostFile].
    - [Lists]: lib/list.cc, linked cells in an explicit heap; the other files use
      lists through the sequences that they are shown to refine.
    - [Interrupt]: machine/interrupt.cc, stats.h.
    - [Threads]: threads/thread.cc, scheduler.cc, synch.cc.  A thread's host stack
      is a list of instructions; [exec] runs the current thread up to its next
      possible context switch.  [Sched], [Waiters], [Wakeups] and [Locks] hold
      invariants of an abstract step relation [micro]; [Synch] proves that
      [exec] is a sequence of such steps, and [SynchProps] states what follows.
    - [Interleave]: threads as the rest of the kernel may think of them
      ([sys_step]: whole operations, taken in turns), and that [exec] implements
      them.  [Drivers]: what this gives for drivers of the form lock, start,
      wait, release, by the interface [DriverLaw].  [Calls]: invariants of a
      kernel's own state that all of its calls keep.  [Discipline]: threads that
      hold at most one lock, the one their code says, so that no release fails.
      Drivers and monitors are proved against these files, not against the scheduler.
    - [Handlers]: the parts that interrupt handlers consist of; threads/alarm.cc.
    - [Ksyscall]: the console calls of userprog/ksyscall.h.
    - [STable]: threads/stable.cc, on [BitmapLaws] and the semaphores of [Threads].
    - [PCB]: threads/pcb.cc, the process and its ten open files.
    - [Usermem]: the copies between user and kernel memory, and the program counter
      step, of userprog/exception.cc.
    - [Hash]: lib/hash.cc.
    - [Console]: machine/console.cc, timer.cc, userprog/synchconsole.cc; their
      handlers, and the instance of [DeviceLaw].
    - [PTable]: threads/ptable.cc, on [BitmapLaws]; what waits is in [Kernel].
    - [Kernel]: ExceptionHandler of userprog/exception.cc, ksyscall.h, the waiting
      operations of ptable.cc and pcb.cc, Kernel::Initialize and main.  Kernel
      code that may lose the processor is cut there: [kcall] has a constructor
      for each point at which it goes on, [client] does what it does there.
      [KernelLaws] proves [UserLaw] and [ClientLaw] for them.
    - [Exec]: what starting a process does; [KernelProps]: the whole system;
      [KernelConsole]: its console as an instance of [DriverLaw].  [Faults]: what
      can fail in the running system, and that no interrupt handler does.
    - [Disk]: machine/disk.cc and filesys/synchdisk.cc: requests and their
      latency, the interrupt at their end, the instance of [DeviceLaw].
      [DiskFile]: the host file behind the sectors.  [SynchDisk]: a machine whose
      threads share the disk.
    - [NachosFile], [PBitmap], [Directory], [FileSys]: the file system that the
      build replaces by the stub of [HostFile]: filesys/filehdr.cc, openfile.cc,
      pbitmap.cc, directory.cc, filesys.cc, one upon the other, over the sectors
      of the disk.  [Copy]: the commands of threads/main.cc that use it.
    - [SynchList]: threads/synchlist.cc.  [SelfTests]: Kernel::ThreadSelfTest with
      the tests of thread.cc, synch.cc and synchlist.cc.  [Network]: machine/network.cc and the
      sockets of lib/sysdep.cc.  [Post]: network/post.cc and the network test of
      threads/kernel.cc, on a machine that has a post office and a timer.
      [PostLaws]: the laws for it, [PostProps]: the theorems.

    ** What the theorems show

    Memory: [Bitmap_refines_set], [Translate_spec], [WriteMem_ReadMem],
    [address_spaces_isolated], [processes_isolated], [Load_image] and
    [Translate_agrees] together say that a process sees its program image and
    what it stored, and nobody else's; [coff2noff_loads] goes from the
    linker's output to this image.  Processor: [OneInstruction_safe] is the
    invariant of the simulator, the others of [Mips] are the results of the
    instructions that are hard to get right.  Concurrency:
    [kernel_never_stuck], [threads_partitioned], [no_lost_wakeup],
    [lock_exclusion], [no_lost_signal], [context_switch_preserves] and
    [round_robin] hold in every state reachable from boot, whatever user
    programs, devices and the rest of the kernel do within the laws
    [UserLaw], [DeviceLaw], [ClientLaw]; [threads_interleave] is the
    refinement of threads that take turns.  Upon it,
    [putchar_finds_display_idle], [synchdisk_serializes] and
    [sends_one_at_a_time] say that no driver disturbs its device,
    [nachos_asserts] that in the whole kernel an [ASSERT] fails only in the code of
    a system call, of the loader or of the process table, or in an instruction
    executed without a page table, and
    [mail_arrives_in_order] that no mail is lost, damaged or overtaken between
    the socket and its receiver.  Time: [OneTick_fires], [clock_sound].
    Services: the refinements of lists ([SortedList_sorts] for sorted ones), hash tables, files, open-file tables and
    named semaphores to sequences, finite maps and files with a position; the
    decimal round trip of the console; the round trip of strings through user
    memory.  Disk: [latency_exact], [disk_file_refines_sectors] and
    [synchdisk_serializes]; upon it a file of the
    Nachos file system is an array of bytes ([OpenFile_refines_bytes]), a
    directory is a finite map ([Directory_refines_map]), and the whole file
    system, through formatting and restarts, a finite map from names to
    contents in which no sector is lost or shared ([FileSystem_refines_map]).
    Errors: the refusals of the file calls, and the places where the
    code reaches memory it should not ([Load_out_of_memory], [console_line],
    [user_kernel_copies], [Allocate_exact], [Copy_fresh_disk]), which are stated as the
    code behaves.

    ** Conventions

    A C++ operation that can fail returns [result]; see [fault] for the ways.
    An [int] is a [Z] in the range of 32 bits; unsigned and wrapping arithmetic
    is written with [u32] and [s32], arithmetic whose overflow is undefined with
    [int_add], [int_sub] and [int_mul]; only the [numInList] of a list is a plain
    [Z], since a 32-bit host has room for fewer than 2^31 cells.  Counted loops are [for_each] and
    [for_ret], without fuel.  Pointer loops get a fuel equal to the count of
    items (lists, hash tables), or the length of the list they consume
    (pending interrupts: a round removes one item, and a handler may only
    schedule in the future); that it is enough is part of the
    theorems, which say that the operation returns.  [Threads.exec] and
    [Mips.OneInstruction] do not loop.

    ** Not modelled

    The Nachos file system is used by one thread at a time, as filesys.cc
    assumes: its disk accesses are single steps, which is what
    [synchdisk_serializes] allows.  [Kernel_Initialize] leaves out the disk and the
    post office, which the system calls never use; [Disk_boot] and [Post_boot]
    are machines that have them.  [RestoreState] copies the page table into the machine,
    where addrspace.cc shares it by a pointer: the use and dirty bits that are set
    while a program runs are gone at its next context switch; no code reads them.  The host's sockets are the list of what they
    answer, the keyboard and the display lists of characters.  Semaphores that the
    code deletes stay in the map of [Threads], while the process that named them is
    [Dead].  Left out for good: SWITCH (threads/switch.S, host assembly),
    represented by its effect on the stacks of instructions; command line
    parsing and tear-down (threads/main.cc, kernel.cc, the destructors of objects
    that live as long as the kernel); debug output; the simulator's debugger; polling and memory protection of
    lib/sysdep.cc; the test programs; vendored headers.
*)

From stdpp Require Export base tactics numbers list list_numbers gmap sets strings.
From Stdlib Require Export ZArith Lia.

(** ** Outcomes of C++ code

    Every operation of the kernel that can stop it returns a [result]:
    [AssertFailed] is a failed [ASSERT] (lib/debug.h), [NullDeref] and
    [OutOfBounds] a memory access the source does not guard, [Undefined] an
    arithmetic operation C++ leaves undefined.  [Blocked] is not an error: the
    calling thread goes to sleep, and what follows belongs to another thread.
    Nor is [Halted]: the simulation ends on purpose.
    [OutOfFuel] is the only fault that belongs to the model: a pointer loop
    given too few iterations.  The theorems state which of these cannot
    happen. *)
Inductive fault := AssertFailed | NullDeref | OutOfBounds | Undefined | Blocked | Halted | OutOfFuel.

Inductive result (A : Type) := Ok (a : A) | Fail (f : fault).
Arguments Ok {A} a.
Arguments Fail {A} f.

Definition rbind {A B} (m : result A) (f : A → result B) : result B :=
  match m with Ok a => f a | Fail e => Fail e end.

#[export] Instance fault_eq_dec : EqDecision fault.
Proof. solve_decision. Defined.
#[export] Instance result_eq_dec `{EqDecision A} : EqDecision (result A).
Proof. solve_decision. Defined.

Declare Scope nachos_scope.
Delimit Scope nachos_scope with nachos.
Notation "'ASSERT' b" := (if b then Ok tt else Fail AssertFailed)
  (at level 20, b at level 9, only parsing) : nachos_scope.
Notation "x ← y ; z" := (rbind y (λ x, z))
  (at level 20, y at level 100, z at level 200, only parsing) : nachos_scope.
Notation "' x ← y ; z" := (rbind y (λ x, z))
  (at level 20, x pattern, y at level 100, z at level 200, only parsing) : nachos_scope.
Notation "y ;; z" := (rbind y (λ _, z))
  (at level 100, z at level 200, only parsing, right associativity) : nachos_scope.
#[global] Open Scope nachos_scope.

(** The value of an operation, [d] when it fails. *)
Definition is_ok {A} (r : result A) : bool := match r with Ok _ => true | Fail _ => false end.
Definition from_ok {A} (d : A) (r : result A) : A := match r with Ok a => a | Fail _ => d end.

Lemma bind_Ok {A B} (m : result A) (f : A → result B) b :
  rbind m f = Ok b ↔ ∃ a, m = Ok a ∧ f a = Ok b.
Proof. destruct m; cbn; naive_solver. Qed.

Lemma bind_Ok_l {A B} (a : A) (f : A → result B) : rbind (Ok a) f = f a.
Proof. reflexivity. Qed.

Lemma bind_Fail_l {A B} e (f : A → result B) : rbind (Fail e) f = Fail e.
Proof. reflexivity. Qed.

Lemma assert_Ok (b : bool) u : (if b then Ok tt else Fail AssertFailed) = Ok u ↔ b = true.
Proof. destruct b, u; naive_solver. Qed.

(** [inv_res]: turn a successful composition into its successful parts. *)
Ltac inv_res :=
  repeat match goal with
  | H : rbind _ _ = Ok _ |- _ =>
      let x := fresh "x" in let H1 := fresh "Hx" in
      apply bind_Ok in H as (x & H1 & H)
  | H : Ok _ = Ok _ |- _ => injection H as H
  | H : Fail _ = Ok _ |- _ => discriminate H
  | H : (if ?b then Ok tt else Fail AssertFailed) = Ok _ |- _ => apply assert_Ok in H
  | x : (_ * _)%type |- _ => destruct x
  | x : unit |- _ => destruct x
  end; subst; cbn beta iota in *.

(** [post B Q r]: [r] either succeeds with a value in [Q] or fails with a fault
    in [B]; the rules follow the code's sequencing. *)
Definition post {A} (B : fault → Prop) (Q : A → Prop) (r : result A) : Prop :=
  match r with Ok a => Q a | Fail e => B e end.

Lemma post_bind {A C} B (P : A → Prop) (Q : C → Prop) m f :
  post B P m → (∀ a, P a → post B Q (f a)) → post B Q (rbind m f).
Proof. destruct m; cbn; auto. Qed.

Lemma post_mono {A} (B B' : fault → Prop) (P Q : A → Prop) r :
  post B P r → (∀ e, B e → B' e) → (∀ a, P a → Q a) → post B' Q r.
Proof. destruct r; cbn; auto. Qed.

(** ** Arrays

    A C array is a list; an index outside it is a fault, never a default. *)
Section arrays.
Context {A : Type}.
Implicit Types (l : list A) (i : Z) (x : A).
Local Open Scope Z_scope.

Definition aget l i : result A :=
  if 0 <=? i then match l !! Z.to_nat i with Some x => Ok x | None => Fail OutOfBounds end
  else Fail OutOfBounds.

Definition aset l i x : result (list A) :=
  if (0 <=? i) && (i <? Z.of_nat (length l)) then Ok (<[Z.to_nat i := x]> l)
  else Fail OutOfBounds.

Lemma aget_Ok l i x : aget l i = Ok x ↔ 0 ≤ i ∧ l !! Z.to_nat i = Some x.
Proof.
  unfold aget. destruct (Z.leb_spec 0 i).
  - destruct (l !! Z.to_nat i); naive_solver.
  - split; [discriminate | lia].
Qed.

Lemma aget_lookup l (i : nat) x : l !! i = Some x → aget l (Z.of_nat i) = Ok x.
Proof. intros H. apply aget_Ok. rewrite Nat2Z.id. split; [lia | done]. Qed.

Lemma aget_is_Ok l i : 0 ≤ i < Z.of_nat (length l) → ∃ x, aget l i = Ok x.
Proof.
  intros H. destruct (lookup_lt_is_Some_2 l (Z.to_nat i)) as [x Hx]; [lia|].
  exists x. apply aget_Ok. split; [lia | done].
Qed.

Lemma aget_bound l i x : aget l i = Ok x → 0 ≤ i < Z.of_nat (length l).
Proof. intros [Hi Hl]%aget_Ok. apply lookup_lt_Some in Hl. lia. Qed.

Lemma aset_Ok l i x l' :
  aset l i x = Ok l' ↔ 0 ≤ i < Z.of_nat (length l) ∧ l' = <[Z.to_nat i := x]> l.
Proof.
  unfold aset. destruct (Z.leb_spec 0 i), (Z.ltb_spec i (Z.of_nat (length l)));
    cbn; split; intros; destruct_and?; try lia; try discriminate; naive_solver.
Qed.

Lemma aset_in l i x :
  0 ≤ i < Z.of_nat (length l) → aset l i x = Ok (<[Z.to_nat i := x]> l).
Proof. intros. by apply aset_Ok. Qed.

Lemma aget_insert l i j x :
  0 ≤ i < Z.of_nat (length l) →
  aget (<[Z.to_nat i := x]> l) j = if decide (i = j) then Ok x else aget l j.
Proof.
  intros Hi. unfold aget. destruct (Z.leb_spec 0 j).
  - destruct (decide (i = j)) as [->|Hne].
    + rewrite list_lookup_insert_eq by lia. done.
    + rewrite list_lookup_insert_ne by lia. done.
  - case_decide; [lia | done].
Qed.
End arrays.

(** ** Counted loops

    [for (i = lo; i < hi; i++) body]: [for_ret] runs a body that may return
    early ([inr]), [for_each] one that always falls through.  Both are total;
    the rules below prove that a loop whose body preserves an invariant ends
    with [Ok]. *)
Section loops.
Context {S R : Type}.
Local Open Scope Z_scope.

Fixpoint for_ret_n (n : nat) (i : Z) (body : Z → S → result (S + R)) (s : S) : result (S + R) :=
  match n with
  | O => Ok (inl s)
  | Datatypes.S n' =>
      r ← body i s;
      match r with
      | inl s' => for_ret_n n' (i + 1) body s'
      | inr x => Ok (inr x)
      end
  end.

Definition for_ret (lo hi : Z) (body : Z → S → result (S + R)) (s : S) : result (S + R) :=
  for_ret_n (Z.to_nat (hi - lo)) lo body s.

Fixpoint for_each_n (n : nat) (i : Z) (body : Z → S → result S) (s : S) : result S :=
  match n with
  | O => Ok s
  | Datatypes.S n' => s' ← body i s; for_each_n n' (i + 1) body s'
  end.

Definition for_each (lo hi : Z) (body : Z → S → result S) (s : S) : result S :=
  for_each_n (Z.to_nat (hi - lo)) lo body s.

Lemma for_ret_rule (I : Z → S → Prop) (Q : R → Prop) lo hi body s :
  lo ≤ hi → I lo s →
  (∀ i s, lo ≤ i < hi → I i s →
     ∃ r, body i s = Ok r ∧ match r with inl s' => I (i + 1) s' | inr x => Q x end) →
  ∃ r, for_ret lo hi body s = Ok r ∧ match r with inl s' => I hi s' | inr x => Q x end.
Proof.
  unfold for_ret. intros Hle HI Hstep.
  remember (Z.to_nat (hi - lo)) as n eqn:Hn.
  revert lo s Hn Hle HI Hstep. induction n as [|n IH]; intros lo s Hn Hle HI Hstep; cbn.
  - exists (inl s). replace hi with lo by lia. done.
  - destruct (Hstep lo s) as ([s'|x] & Hr & Hp); [lia | done | ..]; rewrite Hr; cbn.
    + apply (IH (lo + 1) s'); [lia | lia | done |].
      intros; apply Hstep; [lia | done].
    + by exists (inr x).
Qed.

Lemma for_each_split lo mid hi body s : lo ≤ mid ≤ hi →
  for_each lo hi body s = rbind (for_each lo mid body s) (for_each mid hi body).
Proof.
  intros Hm. unfold for_each. replace (Z.to_nat (hi - lo)) with (Z.to_nat (mid - lo) + Z.to_nat (hi - mid))%nat by lia.
  remember (Z.to_nat (mid - lo)) as n eqn:Hn. revert lo s Hn Hm. induction n as [|n IH]; intros lo s Hn Hm; cbn.
  - replace lo with mid by lia. done.
  - destruct (body lo s) as [s'|e]; cbn; [| done]. apply IH; lia.
Qed.

Lemma for_each_rule (I : Z → S → Prop) lo hi body s :
  lo ≤ hi → I lo s →
  (∀ i s, lo ≤ i < hi → I i s → ∃ s', body i s = Ok s' ∧ I (i + 1) s') →
  ∃ s', for_each lo hi body s = Ok s' ∧ I hi s'.
Proof.
  unfold for_each. intros Hle HI Hstep.
  remember (Z.to_nat (hi - lo)) as n eqn:Hn.
  revert lo s Hn Hle HI Hstep. induction n as [|n IH]; intros lo s Hn Hle HI Hstep; cbn.
  - exists s. replace hi with lo by lia. done.
  - destruct (Hstep lo s) as (s' & Hr & Hp); [lia | done |]; rewrite Hr; cbn.
    apply (IH (lo + 1) s'); [lia | lia | done |].
    intros; apply Hstep; [lia | done].
Qed.

(** What every successful round keeps, a successful loop keeps. *)
Lemma for_each_kept (P : S → Prop) lo hi body s s' :
  (∀ i s s', P s → body i s = Ok s' → P s') → P s → for_each lo hi body s = Ok s' → P s'.
Proof.
  intros Hstep. unfold for_each. generalize (Z.to_nat (hi - lo)) as n. intros n. revert lo s.
  induction n as [|n IH]; intros lo s Hs He; cbn in He; [congruence |].
  apply bind_Ok in He as (s1 & H1 & He). apply (IH (lo + 1) s1); [by eapply Hstep | done].
Qed.

Lemma for_ret_kept (P : S → Prop) (Q : R → Prop) lo hi body s r :
  (∀ i s r, P s → body i s = Ok r → match r with inl s' => P s' | inr x => Q x end) →
  P s → for_ret lo hi body s = Ok r → match r with inl s' => P s' | inr x => Q x end.
Proof.
  intros Hstep. unfold for_ret. generalize (Z.to_nat (hi - lo)) as n. intros n. revert lo s.
  induction n as [|n IH]; intros lo s Hs He; cbn in He; [injection He as <-; done |].
  apply bind_Ok in He as ([s1|x] & H1 & He); pose proof (Hstep _ _ _ Hs H1) as Hp; cbn in Hp.
  - by apply (IH (lo + 1) s1).
  - injection He as <-. done.
Qed.
End loops.

(** ** Machine integers

    A C++ [int] is a [Z] in [-2^31, 2^31), an [unsigned int] a [Z] in
    [0, 2^32); [s32] and [u32] are the conversions, and the wrap-around of the
    32-bit arithmetic the simulated machine relies on. *)
Section words.
Local Open Scope Z_scope.

Definition u32 (z : Z) : Z := z mod 2 ^ 32.
Definition s32 (z : Z) : Z :=
  let u := z mod 2 ^ 32 in if u <? 2 ^ 31 then u else u - 2 ^ 32.

Definition is_u32 (z : Z) : Prop := 0 ≤ z < 2 ^ 32.
Definition is_s32 (z : Z) : Prop := - 2 ^ 31 ≤ z < 2 ^ 31.

#[global] Instance is_u32_dec z : Decision (is_u32 z).
Proof. unfold is_u32. apply _. Defined.
#[global] Instance is_s32_dec z : Decision (is_s32 z).
Proof. unfold is_s32. apply _. Defined.

(** Arithmetic on C++ [int]s where the kernel relies on no overflow. *)
Definition int_add (a b : Z) : result Z :=
  if decide (is_s32 (a + b)) then Ok (a + b) else Fail Undefined.

Lemma int_add_Ok a b c : int_add a b = Ok c ↔ c = a + b ∧ is_s32 (a + b).
Proof. unfold int_add. case_decide; naive_solver. Qed.

Definition int_sub (a b : Z) : result Z := if decide (is_s32 (a - b)) then Ok (a - b) else Fail Undefined.
Definition int_mul (a b : Z) : result Z := if decide (is_s32 (a * b)) then Ok (a * b) else Fail Undefined.

Lemma int_add_in a b : is_s32 (a + b) → int_add a b = Ok (a + b).
Proof. intros. by apply int_add_Ok. Qed.

Lemma int_sub_in a b : is_s32 (a - b) → int_sub a b = Ok (a - b).
Proof. intros. unfold int_sub. by rewrite decide_True. Qed.

Lemma int_mul_in a b : is_s32 (a * b) → int_mul a b = Ok (a * b).
Proof. intros. unfold int_mul. by rewrite decide_True. Qed.

Lemma u32_range z : is_u32 (u32 z).
Proof. apply Z.mod_pos_bound. lia. Qed.

Lemma s32_range z : is_s32 (s32 z).
Proof.
  unfold s32, is_s32. pose proof (Z.mod_pos_bound z (2 ^ 32) ltac:(lia)).
  destruct (Z.ltb_spec (z mod 2 ^ 32) (2 ^ 31)); lia.
Qed.

Lemma u32_id z : is_u32 z → u32 z = z.
Proof. apply Z.mod_small. Qed.

Lemma s32_id z : is_s32 z → s32 z = z.
Proof.
  unfold s32, is_s32. intros Hz.
  destruct (decide (0 ≤ z)).
  - rewrite Z.mod_small by lia. destruct (Z.ltb_spec z (2 ^ 31)); lia.
  - replace (z mod 2 ^ 32) with (z + 2 ^ 32)
      by (symmetry; rewrite <- (Z.mod_add z 1), Z.mod_small; lia).
    destruct (Z.ltb_spec (z + 2 ^ 32) (2 ^ 31)); lia.
Qed.

Lemma u32_mod_eq z : ∃ k, u32 z = z + k * 2 ^ 32.
Proof. exists (- (z / 2 ^ 32)). unfold u32. pose proof (Z.div_mod z (2 ^ 32)). lia. Qed.

Lemma s32_mod_eq z : ∃ k, s32 z = z + k * 2 ^ 32.
Proof.
  unfold s32. pose proof (Z.div_mod z (2 ^ 32)).
  destruct (Z.ltb_spec (z mod 2 ^ 32) (2 ^ 31));
    [exists (- (z / 2 ^ 32)) | exists (- (z / 2 ^ 32) - 1)]; lia.
Qed.

Lemma u32_s32 z : u32 (s32 z) = u32 z.
Proof. destruct (s32_mod_eq z) as [k ->]. unfold u32. by rewrite Z_mod_plus_full. Qed.

Lemma s32_u32 z : s32 (u32 z) = s32 z.
Proof. destruct (u32_mod_eq z) as [k ->]. unfold s32. by rewrite Z_mod_plus_full. Qed.

Lemma s32_s32 z : s32 (s32 z) = s32 z.
Proof. apply s32_id, s32_range. Qed.

Lemma u32_spec z i : 0 ≤ i → Z.testbit (u32 z) i = (i <? 32) && Z.testbit z i.
Proof.
  intros Hi. unfold u32. destruct (Z.ltb_spec i 32).
  - by rewrite Z.mod_pow2_bits_low.
  - by rewrite Z.mod_pow2_bits_high by lia.
Qed.

Lemma u32_high z i : is_u32 z → 32 ≤ i → Z.testbit z i = false.
Proof.
  intros Hz Hi. rewrite <- (u32_id z Hz), u32_spec by lia.
  destruct (Z.ltb_spec i 32); [lia | done].
Qed.

(** A word is below [2^32] when it has no bit from 32 up. *)
Lemma is_u32_bits z : 0 ≤ z → (∀ i, 32 ≤ i → Z.testbit z i = false) → is_u32 z.
Proof.
  intros Hz Hb. rewrite <- (Z.mod_small z (2 ^ 32)); [apply u32_range |].
  split; [done |].
  assert (z = z mod 2 ^ 32) as ->; [|apply Z.mod_pos_bound; lia].
  apply Z.bits_inj'. intros i Hi. fold (u32 z). rewrite u32_spec by done.
  destruct (Z.ltb_spec i 32); [done | by apply Hb].
Qed.
End words.

(** The C test [w & (1 << k)]. *)
Section bit_test.
Local Open Scope Z_scope.
Lemma land_pow2_eqb w k :
  (0 ≤ k → negb (Z.land w (Z.shiftl 1 k) =? 0) = Z.testbit w k)%Z.
Proof.
  intros Hk. rewrite Z.shiftl_1_l.
  destruct (Z.testbit w k) eqn:E.
  - destruct (Z.eqb_spec (Z.land w (2 ^ k)) 0) as [H|]; [exfalso | done].
    assert (Z.testbit (Z.land w (2 ^ k)) k = true) as Hb
      by (by rewrite Z.land_spec, E, Z.pow2_bits_true by lia).
    by rewrite H, Z.bits_0 in Hb.
  - replace (Z.land w (2 ^ k)) with 0; [done |].
    apply Z.bits_inj'. intros j Hj. rewrite Z.bits_0, Z.land_spec, Z.pow2_bits_eqb by lia.
    destruct (Z.eqb_spec k j) as [<-|]; [by rewrite E | by rewrite andb_false_r].
Qed.
End bit_test.

(** [divRoundUp] of lib/utility.h, on a positive divisor. *)
Definition divRoundUp (n s : Z) : Z :=
  (Z.quot n s + (if Z.rem n s >? 0 then 1 else 0))%Z.
Definition divRoundDown (n s : Z) : Z := Z.quot n s.

Lemma divRoundUp_spec n s :
  (0 ≤ n → 0 < s → s * (divRoundUp n s - 1) < n ∧ n ≤ s * divRoundUp n s ∨ n = 0 ∧ divRoundUp n s = 0)%Z.
Proof.
  intros Hn Hs. unfold divRoundUp.
  pose proof (Z.quot_rem' n s). pose proof (Z.rem_bound_pos n s).
  destruct (Z.gtb_spec (Z.rem n s) 0); nia.
Qed.

Create HintDb nachos.
#[export] Hint Resolve u32_range s32_range : nachos.
#[export] Hint Rewrite @length_insert : nachos.

(** ** Blocks of memory

    [blk_get l i n] and [blk_put l i k] are a [bcopy] out of and into the array
    [l]: [n] elements from index [i], or all of [k] to index [i], and a fault
    when the range leaves the array. *)
Section blocks.
Context {A : Type}.
Implicit Types (l k : list A) (i n : Z).
Local Open Scope Z_scope.

Definition blk_get l i n : result (list A) :=
  if (0 <=? i) && (0 <=? n) && (i + n <=? Z.of_nat (length l))
  then Ok (take (Z.to_nat n) (drop (Z.to_nat i) l)) else Fail OutOfBounds.

Definition blk_put l i k : result (list A) :=
  if (0 <=? i) && (i + Z.of_nat (length k) <=? Z.of_nat (length l))
  then Ok (list_inserts (Z.to_nat i) k l) else Fail OutOfBounds.

Lemma blk_get_Ok l i n k : blk_get l i n = Ok k ↔
  0 ≤ i ∧ 0 ≤ n ∧ i + n ≤ Z.of_nat (length l) ∧ k = take (Z.to_nat n) (drop (Z.to_nat i) l).
Proof.
  unfold blk_get.
  destruct (Z.leb_spec 0 i), (Z.leb_spec 0 n), (Z.leb_spec (i + n) (Z.of_nat (length l)));
    cbn; split; try discriminate; try naive_solver lia.
Qed.

Lemma blk_put_Ok l i k l' : blk_put l i k = Ok l' ↔
  0 ≤ i ∧ i + Z.of_nat (length k) ≤ Z.of_nat (length l) ∧ l' = list_inserts (Z.to_nat i) k l.
Proof.
  unfold blk_put.
  destruct (Z.leb_spec 0 i), (Z.leb_spec (i + Z.of_nat (length k)) (Z.of_nat (length l)));
    cbn; split; try discriminate; try naive_solver lia.
Qed.

Lemma blk_get_length l i n k : blk_get l i n = Ok k → Z.of_nat (length k) = n.
Proof. intros (? & ? & ? & ->)%blk_get_Ok. rewrite length_take, length_drop. lia. Qed.

Lemma blk_put_length l i k l' : blk_put l i k = Ok l' → length l' = length l.
Proof. intros (? & ? & ->)%blk_put_Ok. apply length_inserts. Qed.

Lemma blk_get_lookup l i n k j : blk_get l i n = Ok k → 0 ≤ j < n →
  k !! Z.to_nat j = l !! Z.to_nat (i + j).
Proof.
  intros (? & ? & ? & ->)%blk_get_Ok Hj.
  rewrite lookup_take_lt, lookup_drop by lia. f_equal. lia.
Qed.

Lemma blk_put_lookup l i k l' j : blk_put l i k = Ok l' → 0 ≤ j →
  l' !! Z.to_nat j =
    if decide (i ≤ j < i + Z.of_nat (length k)) then k !! Z.to_nat (j - i) else l !! Z.to_nat j.
Proof.
  intros (? & ? & ->)%blk_put_Ok Hj. case_decide.
  - rewrite list_lookup_inserts by lia. f_equal. lia.
  - destruct (decide (j < i)).
    + by rewrite list_lookup_inserts_lt by lia.
    + by rewrite list_lookup_inserts_ge by lia.
Qed.

Lemma blk_get_in l i n : 0 ≤ i → 0 ≤ n → i + n ≤ Z.of_nat (length l) → is_ok (blk_get l i n).
Proof.
  intros. unfold blk_get.
  by destruct (Z.leb_spec 0 i), (Z.leb_spec 0 n), (Z.leb_spec (i + n) (Z.of_nat (length l)));
    try lia.
Qed.

Lemma blk_put_in l i k : 0 ≤ i → i + Z.of_nat (length k) ≤ Z.of_nat (length l) →
  blk_put l i k = Ok (list_inserts (Z.to_nat i) k l).
Proof. intros. by apply blk_put_Ok. Qed.

(** Two blocks of the same length that agree pointwise are equal. *)
Lemma blk_ext k k' n :
  Z.of_nat (length k) = n → Z.of_nat (length k') = n →
  (∀ j, 0 ≤ j < n → k !! Z.to_nat j = k' !! Z.to_nat j) → k = k'.
Proof.
  intros Hk Hk' Heq. apply list_eq_same_length with (length k); [lia | done |].
  intros i x y Hi Hx Hy. specialize (Heq (Z.of_nat i) ltac:(lia)).
  rewrite Nat2Z.id in Heq. congruence.
Qed.

Lemma blk_get_put_same l i k l' :
  blk_put l i k = Ok l' → blk_get l' i (Z.of_nat (length k)) = Ok k.
Proof.
  intros Hp. pose proof Hp as (? & ? & _)%blk_put_Ok.
  pose proof (blk_put_length _ _ _ _ Hp).
  destruct (blk_get l' i (Z.of_nat (length k))) as [k'|] eqn:Hg.
  - f_equal. apply blk_ext with (Z.of_nat (length k));
      [by eapply blk_get_length | done |].
    intros j Hj. rewrite (blk_get_lookup _ _ _ _ _ Hg) by done.
    rewrite (blk_put_lookup _ _ _ _ _ Hp) by lia.
    rewrite decide_True by lia. f_equal. lia.
  - pose proof (blk_get_in l' i (Z.of_nat (length k))). rewrite Hg in *. cbn in *. lia || naive_solver lia.
Qed.

Lemma blk_get_put_disjoint l i k l' j n :
  blk_put l i k = Ok l' → j + n ≤ i ∨ i + Z.of_nat (length k) ≤ j →
  blk_get l' j n = blk_get l j n.
Proof.
  intros Hp Hd. pose proof (blk_put_length _ _ _ _ Hp) as Hlen.
  destruct (blk_get l j n) as [k1|] eqn:Hg.
  - pose proof Hg as (? & ? & ? & _)%blk_get_Ok.
    destruct (blk_get l' j n) as [k2|] eqn:Hg'.
    + f_equal. apply blk_ext with n; [by eapply blk_get_length.. |].
      intros q Hq. rewrite (blk_get_lookup _ _ _ _ _ Hg), (blk_get_lookup _ _ _ _ _ Hg') by done.
      rewrite (blk_put_lookup _ _ _ _ _ Hp) by lia. by rewrite decide_False by lia.
    + pose proof (blk_get_in l' j n). rewrite Hg' in *. cbn in *. naive_solver lia.
  - unfold blk_get in *. rewrite Hlen.
    destruct ((0 <=? j) && (0 <=? n) && (j + n <=? Z.of_nat (length l))); done.
Qed.
End blocks.

(** The bytes of a file from an offset on, at most [n]. *)
Section file_bytes.
Local Open Scope Z_scope.
Implicit Types (f : list Z) (p n j : Z).

Definition bytes_at f p n : list Z := take (Z.to_nat n) (drop (Z.to_nat p) f).

Lemma bytes_at_length f p n : 0 ≤ p → 0 ≤ n → p + n ≤ Z.of_nat (length f) →
  Z.of_nat (length (bytes_at f p n)) = n.
Proof. intros. unfold bytes_at. rewrite length_take, length_drop. lia. Qed.

Lemma bytes_at_lookup f p n j : 0 ≤ p → 0 ≤ j < n → bytes_at f p n !! Z.to_nat j = f !! Z.to_nat (p + j).
Proof. intros. unfold bytes_at. rewrite lookup_take_lt, lookup_drop by lia. f_equal. lia. Qed.

Lemma bytes_at_short f p n : 0 ≤ p → Z.of_nat (length f) ≤ p → bytes_at f p n = [].
Proof. intros. unfold bytes_at. rewrite drop_ge by lia. by rewrite take_nil. Qed.

Lemma bytes_at_clip f p n : 0 ≤ p → p ≤ Z.of_nat (length f) ≤ p + n → bytes_at f p n = bytes_at f p (Z.of_nat (length f) - p).
Proof. intros. unfold bytes_at. by rewrite !take_ge by (rewrite length_drop; lia). Qed.

Lemma bytes_at_all f n : Z.of_nat (length f) ≤ n → bytes_at f 0 n = f.
Proof. intros. unfold bytes_at. cbn. rewrite drop_0. apply take_ge. lia. Qed.

(** Overwriting all of a block. *)
Lemma blk_put_all f k : length k = length f → blk_put f 0 k = Ok k.
Proof.
  intros Hl. destruct (blk_put f 0 k) as [f'|] eqn:Hp; [| rewrite blk_put_in in Hp by lia; done].
  pose proof (blk_put_length _ _ _ _ Hp). f_equal. apply blk_ext with (Z.of_nat (length f)); [lia | lia |].
  intros j Hj. rewrite (blk_put_lookup _ _ _ _ _ Hp), decide_True by lia. f_equal. lia.
Qed.
End file_bytes.

(** C strings: the characters in a buffer, which without a NUL run out of it. *)
Section c_strings.
Local Open Scope Z_scope.

Fixpoint c_str (buffer : list Z) : result (list Z) :=
  match buffer with
  | [] => Fail OutOfBounds
  | c :: buffer => if c =? 0 then Ok [] else s ← c_str buffer; Ok (c :: s)
  end.

(** [buf] holds the C string [name]. *)
Definition c_string (buf name : list Z) : Prop := Forall (λ c, c ≠ 0) name ∧ ∃ rest, buf = name ++ 0 :: rest.

Lemma c_str_spec buf name : c_string buf name → c_str buf = Ok name.
Proof.
  intros [Hn [rest ->]]. induction Hn as [|c name Hc Hn IH]; [done |]. cbn.
  destruct (Z.eqb_spec c 0); [done |]. by rewrite IH.
Qed.
End c_strings.
