(* ===== verification/Bitmap.v ===== *)
(** * Bitmaps (lib/bitmap.h, lib/bitmap.cc)

    [Bitmap] is the bit array behind disk sectors, page frames, process slots
    and semaphore slots.  The class [BitmapLaws] is what it promises to those
    clients: the operations act on a finite set of marked slots.  The
    instance at the end proves that the word-level code keeps the promise. *)

From S2P Require Import Prelude.
Local Open Scope Z_scope.

(** ** The interface *)

Class BitmapOps (B : Type) := {
  bm_Mark : B → Z → result B;
  bm_Clear : B → Z → result B;
  bm_Test : B → Z → result bool;
  bm_FindAndSet : B → result (Z * B);
  bm_NumClear : B → result Z
}.

(** [bm_repr b n s]: [b] is a legal bitmap of [n] slots, those of [s] marked. *)
Class BitmapLaws (B : Type) `{BitmapOps B} := {
  bm_repr : B → Z → gset Z → Prop;
  bm_repr_range b n s i : bm_repr b n s → i ∈ s → 0 ≤ i < n;
  bm_repr_unique b n s s' : bm_repr b n s → bm_repr b n s' → s = s';
  bm_Test_in b n s i : bm_repr b n s → 0 ≤ i < n → bm_Test b i = Ok (bool_decide (i ∈ s));
  bm_Test_out b n s i : bm_repr b n s → ¬ 0 ≤ i < n → bm_Test b i = Fail AssertFailed;
  bm_Mark_in b n s i : bm_repr b n s → 0 ≤ i < n →
    ∃ b', bm_Mark b i = Ok b' ∧ bm_repr b' n ({[i]} ∪ s);
  bm_Mark_out b n s i : bm_repr b n s → ¬ 0 ≤ i < n → bm_Mark b i = Fail AssertFailed;
  bm_Clear_in b n s i : bm_repr b n s → 0 ≤ i < n →
    ∃ b', bm_Clear b i = Ok b' ∧ bm_repr b' n (s ∖ {[i]});
  bm_Clear_out b n s i : bm_repr b n s → ¬ 0 ≤ i < n → bm_Clear b i = Fail AssertFailed;
  bm_FindAndSet_spec b n s : bm_repr b n s →
    (∃ i b', bm_FindAndSet b = Ok (i, b') ∧ 0 ≤ i < n ∧ (i ∉ s) ∧
       (∀ j, 0 ≤ j < i → j ∈ s) ∧ bm_repr b' n ({[i]} ∪ s)) ∨
    (bm_FindAndSet b = Ok ((-1), b) ∧ ∀ j, 0 ≤ j < n → j ∈ s);
  bm_NumClear_spec b n s : bm_repr b n s → bm_NumClear b = Ok (n - Z.of_nat (size s))
}.

(** ** The implementation *)

Definition BitsInByte : Z := 8.
Definition BitsInWord : Z := 4 * BitsInByte.

(** [words] is the member [map]: [numWords] unsigned words. *)
Record Bitmap := mkBitmap { numBits : Z; numWords : Z; words : list Z }.

(** [map[which / BitsInWord] & (1 << (which % BitsInWord))] *)
Definition Test (b : Bitmap) (which : Z) : result bool :=
  ASSERT ((0 <=? which) && (which <? numBits b));;
  w ← aget (words b) (Z.quot which BitsInWord);
  Ok (negb (Z.land w (Z.shiftl 1 (Z.rem which BitsInWord)) =? 0)).

Definition Mark (b : Bitmap) (which : Z) : result Bitmap :=
  ASSERT ((0 <=? which) && (which <? numBits b));;
  w ← aget (words b) (Z.quot which BitsInWord);
  ws ← aset (words b) (Z.quot which BitsInWord)
         (Z.lor w (Z.shiftl 1 (Z.rem which BitsInWord)));
  let b' := mkBitmap (numBits b) (numWords b) ws in
  t ← Test b' which;
  ASSERT t;;
  Ok b'.

(** [~(1 << k)] is an [int] converted to the word's [unsigned] type. *)
Definition Clear (b : Bitmap) (which : Z) : result Bitmap :=
  ASSERT ((0 <=? which) && (which <? numBits b));;
  w ← aget (words b) (Z.quot which BitsInWord);
  ws ← aset (words b) (Z.quot which BitsInWord)
         (Z.land w (u32 (Z.lnot (Z.shiftl 1 (Z.rem which BitsInWord)))));
  let b' := mkBitmap (numBits b) (numWords b) ws in
  t ← Test b' which;
  ASSERT (negb t);;
  Ok b'.

(** The constructor; [raw] is the uninitialised array [new] returns. *)
Definition Bitmap_new (raw : list Z) (numItems : Z) : result Bitmap :=
  ASSERT (0 <? numItems);;
  let nw := divRoundUp numItems BitsInWord in
  ws ← for_each 0 nw (λ i ws, aset ws i 0) raw;
  for_each 0 numItems (λ i b, Clear b i) (mkBitmap numItems nw ws).

Definition FindAndSet (b : Bitmap) : result (Z * Bitmap) :=
  r ← for_ret 0 (numBits b) (λ i b,
        t ← Test b i;
        if negb t then b' ← Mark b i; Ok (inr (i, b')) else Ok (inl b)) b;
  match r with
  | inr ib => Ok ib
  | inl b => Ok (-1, b)
  end.

Definition NumClear (b : Bitmap) : result Z :=
  for_each 0 (numBits b) (λ i count,
    t ← Test b i;
    Ok (if negb t then count + 1 else count)) 0.

(** The numbers [Print] writes, in order. *)
Definition Print (b : Bitmap) : result (list Z) :=
  for_each 0 (numBits b) (λ i out,
    t ← Test b i;
    Ok (if t then out ++ [i] else out)) [].

Definition SelfTest (b : Bitmap) : result Bitmap :=
  ASSERT (BitsInWord <=? numBits b);;
  c ← NumClear b;
  ASSERT (c =? numBits b);;
  '(i, b) ← FindAndSet b;
  ASSERT (i =? 0);;
  b ← Mark b 31;
  t0 ← Test b 0;
  t31 ← Test b 31;
  ASSERT (t0 && t31);;
  '(i, b) ← FindAndSet b;
  ASSERT (i =? 1);;
  b ← Clear b 0;
  b ← Clear b 1;
  b ← Clear b 31;
  b ← for_each 0 (numBits b) (λ i b, Mark b i) b;
  '(i, b) ← FindAndSet b;
  ASSERT (i =? -1);;
  for_each 0 (numBits b) (λ i b, Clear b i) b.

(** ** The word-level view *)

Definition wf (b : Bitmap) : Prop :=
  0 < numBits b ∧ numWords b = divRoundUp (numBits b) BitsInWord ∧
  Z.of_nat (length (words b)) = numWords b ∧ Forall is_u32 (words b).

Definition bit (b : Bitmap) (i : Z) : bool :=
  Z.testbit (words b !!! Z.to_nat (i / BitsInWord)) (i mod BitsInWord).

Definition marks (b : Bitmap) (n : Z) (s : gset Z) : Prop :=
  wf b ∧ numBits b = n ∧ ∀ i, i ∈ s ↔ 0 ≤ i < n ∧ bit b i = true.

Lemma BitsInWord_eq : BitsInWord = 32.
Proof. reflexivity. Qed.

Lemma set_bit_spec w k j : is_u32 w → 0 ≤ k < 32 → 0 ≤ j →
  Z.testbit (Z.lor w (Z.shiftl 1 k)) j = if decide (j = k) then true else Z.testbit w j.
Proof.
  intros Hw Hk Hj. rewrite Z.lor_spec, Z.shiftl_1_l, Z.pow2_bits_eqb by lia.
  case_decide; subst; [by rewrite Z.eqb_refl, orb_true_r |].
  destruct (Z.eqb_spec k j); [lia | by rewrite orb_false_r].
Qed.

Lemma clear_bit_spec w k j : is_u32 w → 0 ≤ k < 32 → 0 ≤ j →
  Z.testbit (Z.land w (u32 (Z.lnot (Z.shiftl 1 k)))) j =
    if decide (j = k) then false else Z.testbit w j.
Proof.
  intros Hw Hk Hj. rewrite Z.land_spec, u32_spec, Z.lnot_spec, Z.shiftl_1_l, Z.pow2_bits_eqb by lia.
  case_decide; subst.
  - by rewrite Z.eqb_refl, andb_false_r, andb_false_r.
  - destruct (Z.eqb_spec k j); [lia |].
    destruct (Z.ltb_spec j 32); cbn; [by rewrite andb_true_r |].
    by rewrite u32_high, andb_false_r by (done || lia).
Qed.

Lemma set_bit_u32 w k : is_u32 w → 0 ≤ k < 32 → is_u32 (Z.lor w (Z.shiftl 1 k)).
Proof.
  intros Hw Hk. apply is_u32_bits.
  - apply Z.lor_nonneg. split; [apply Hw | apply Z.shiftl_nonneg; lia].
  - intros i Hi. rewrite set_bit_spec by (done || lia).
    case_decide; [lia | by apply u32_high].
Qed.

Lemma clear_bit_u32 w k :
  is_u32 w → 0 ≤ k < 32 → is_u32 (Z.land w (u32 (Z.lnot (Z.shiftl 1 k)))).
Proof.
  intros Hw Hk. apply is_u32_bits.
  - apply Z.land_nonneg. left. apply Hw.
  - intros i Hi. rewrite clear_bit_spec by (done || lia).
    case_decide; [done | by apply u32_high].
Qed.

Lemma wf_word b i : wf b → 0 ≤ i < numBits b →
  0 ≤ i / 32 < Z.of_nat (length (words b)) ∧ 0 ≤ i mod 32 < 32 ∧
  Z.quot i BitsInWord = i / 32 ∧ Z.rem i BitsInWord = i mod 32 ∧
  aget (words b) (i / 32) = Ok (words b !!! Z.to_nat (i / 32)) ∧
  is_u32 (words b !!! Z.to_nat (i / 32)).
Proof.
  rewrite BitsInWord_eq. intros (Hn & Hw & Hl & Hu) Hi. rewrite BitsInWord_eq in Hw.
  assert (0 ≤ i / 32 < Z.of_nat (length (words b))) as Hlen.
  { pose proof (divRoundUp_spec (numBits b) 32). split; [apply Z.div_pos; lia |].
    apply Z.div_lt_upper_bound; lia. }
  destruct (lookup_lt_is_Some_2 (words b) (Z.to_nat (i / 32))) as [w Hwi]; [lia |].
  rewrite (list_lookup_total_correct _ _ _ Hwi).
  split_and!; try lia.
  - apply Z.mod_pos_bound; lia.
  - apply Z.mod_pos_bound; lia.
  - apply Z.quot_div_nonneg; lia.
  - apply Z.rem_mod_nonneg; lia.
  - apply aget_Ok. split; [lia | done].
  - eapply Forall_lookup_1; done.
Qed.

Lemma Test_bit b i : wf b → 0 ≤ i < numBits b → Test b i = Ok (bit b i).
Proof.
  intros Hb Hi. destruct (wf_word b i Hb Hi) as (? & ? & Hq & Hr & Hg & ?).
  unfold Test, bit. rewrite Hq, Hr.
  destruct (Z.leb_spec 0 i), (Z.ltb_spec i (numBits b)); try lia. cbn.
  rewrite Hg. cbn. by rewrite land_pow2_eqb by lia.
Qed.

Lemma Test_out b i : ¬ 0 ≤ i < numBits b → Test b i = Fail AssertFailed.
Proof.
  intros Hi. unfold Test.
  destruct (Z.leb_spec 0 i), (Z.ltb_spec i (numBits b)); try lia; done.
Qed.

(** Replacing the word that holds slot [i] by one that differs at its bit only. *)
Lemma update_word b i w' v : wf b → 0 ≤ i < numBits b → is_u32 w' →
  (∀ j, 0 ≤ j < 32 → Z.testbit w' j =
     if decide (j = i mod 32) then v else Z.testbit (words b !!! Z.to_nat (i / 32)) j) →
  let b' := mkBitmap (numBits b) (numWords b) (<[Z.to_nat (i / 32) := w']> (words b)) in
  wf b' ∧ ∀ j, 0 ≤ j < numBits b → bit b' j = if decide (j = i) then v else bit b j.
Proof.
  intros Hb Hi Hu Hw b'. destruct (wf_word b i Hb Hi) as (Hlen & Hm & _).
  split.
  - destruct Hb as (? & ? & ? & ?). unfold wf, b'; cbn. rewrite length_insert.
    split_and!; try done. by apply Forall_insert.
  - intros j Hj. destruct (wf_word b j Hb Hj) as (Hlenj & Hmj & _).
    unfold bit, b'; cbn [words]. rewrite BitsInWord_eq.
    destruct (decide (j / 32 = i / 32)) as [E|E].
    + rewrite E, list_lookup_total_insert_eq by lia. rewrite Hw by lia.
      destruct (decide (j = i)) as [->|Hne].
      * by rewrite decide_True.
      * rewrite decide_False; [done |].
        pose proof (Z.div_mod j 32). pose proof (Z.div_mod i 32). lia.
    + rewrite list_lookup_total_insert_ne by lia.
      rewrite decide_False; [done | naive_solver].
Qed.

Ltac solve_guard := rewrite ?Z.ltb_lt, ?Z.leb_le; lia.

Lemma Mark_spec b i : wf b → 0 ≤ i < numBits b →
  ∃ b', Mark b i = Ok b' ∧ wf b' ∧ numBits b' = numBits b ∧
    ∀ j, 0 ≤ j < numBits b → bit b' j = if decide (j = i) then true else bit b j.
Proof.
  intros Hb Hi. destruct (wf_word b i Hb Hi) as (Hl & Hm & Hq & Hr & Hg & Hu).
  destruct (update_word b i (Z.lor (words b !!! Z.to_nat (i / 32)) (Z.shiftl 1 (i mod 32))) true)
    as [Hb' Hbits]; [done | done | by apply set_bit_u32 | intros; by apply set_bit_spec; try lia |].
  eexists. split_and!; [| exact Hb' | done | exact Hbits].
  unfold Mark. rewrite Hq, Hr.
  assert ((0 <=? i) && (i <? numBits b) = true) as -> by (apply andb_true_iff; split; solve_guard).
  cbn. rewrite Hg. cbn. rewrite aset_in by done. cbn.
  rewrite Test_bit by done. cbn. rewrite Hbits, decide_True by done. done.
Qed.

Lemma Clear_spec b i : wf b → 0 ≤ i < numBits b →
  ∃ b', Clear b i = Ok b' ∧ wf b' ∧ numBits b' = numBits b ∧
    ∀ j, 0 ≤ j < numBits b → bit b' j = if decide (j = i) then false else bit b j.
Proof.
  intros Hb Hi. destruct (wf_word b i Hb Hi) as (Hl & Hm & Hq & Hr & Hg & Hu).
  destruct (update_word b i
    (Z.land (words b !!! Z.to_nat (i / 32)) (u32 (Z.lnot (Z.shiftl 1 (i mod 32))))) false)
    as [Hb' Hbits]; [done | done | by apply clear_bit_u32 | intros; by apply clear_bit_spec; try lia |].
  eexists. split_and!; [| exact Hb' | done | exact Hbits].
  unfold Clear. rewrite Hq, Hr.
  assert ((0 <=? i) && (i <? numBits b) = true) as -> by (apply andb_true_iff; split; solve_guard).
  cbn. rewrite Hg. cbn. rewrite aset_in by done. cbn.
  rewrite Test_bit by done. cbn. rewrite Hbits, decide_True by done. done.
Qed.

(** ** The set view *)

Lemma marks_range b n s i : marks b n s → i ∈ s → 0 ≤ i < n.
Proof. intros (_ & _ & Hs) Hi. by apply Hs in Hi as []. Qed.

Lemma marks_unique b n s s' : marks b n s → marks b n s' → s = s'.
Proof. intros (_ & _ & H1) (_ & _ & H2). apply set_eq. intros i. by rewrite H1, H2. Qed.

Lemma marks_bit b n s i : marks b n s → 0 ≤ i < n → bit b i = bool_decide (i ∈ s).
Proof.
  intros (_ & _ & Hs) Hi. case_bool_decide as H; rewrite Hs in H.
  - by destruct H.
  - destruct (bit b i); [exfalso; auto | done].
Qed.

Lemma marks_Test b n s i : marks b n s → 0 ≤ i < n → Test b i = Ok (bool_decide (i ∈ s)).
Proof.
  intros Hm Hi. pose proof Hm as (Hb & Hn & _). rewrite Test_bit by (done || lia).
  by rewrite (marks_bit b n s).
Qed.

Lemma marks_Mark b n s i : marks b n s → 0 ≤ i < n →
  ∃ b', Mark b i = Ok b' ∧ marks b' n ({[i]} ∪ s).
Proof.
  intros Hm Hi. pose proof Hm as (Hb & Hn & Hs).
  destruct (Mark_spec b i) as (b' & ? & ? & Hn' & Hbits); [done | lia |].
  exists b'. split; [done |]. split_and!; [done | lia |].
  intros j. rewrite elem_of_union, elem_of_singleton, Hs. split.
  - intros [->|[Hj Hjb]]; (split; [lia |]); rewrite Hbits by lia; case_decide; done.
  - intros [Hj Hjb]. rewrite Hbits in Hjb by lia. case_decide; auto.
Qed.

Lemma marks_Clear b n s i : marks b n s → 0 ≤ i < n →
  ∃ b', Clear b i = Ok b' ∧ marks b' n (s ∖ {[i]}).
Proof.
  intros Hm Hi. pose proof Hm as (Hb & Hn & Hs).
  destruct (Clear_spec b i) as (b' & ? & ? & Hn' & Hbits); [done | lia |].
  exists b'. split; [done |]. split_and!; [done | lia |].
  intros j. rewrite elem_of_difference, elem_of_singleton, Hs. split.
  - intros [[Hj Hjb] Hne]. split; [lia |]. rewrite Hbits by lia. by rewrite decide_False.
  - intros [Hj Hjb]. rewrite Hbits in Hjb by lia. case_decide; [done | auto].
Qed.

Lemma marks_FindAndSet b n s : marks b n s →
  (∃ i b', FindAndSet b = Ok (i, b') ∧ 0 ≤ i < n ∧ (i ∉ s) ∧
     (∀ j, 0 ≤ j < i → j ∈ s) ∧ marks b' n ({[i]} ∪ s)) ∨
  (FindAndSet b = Ok ((-1), b) ∧ ∀ j, 0 ≤ j < n → j ∈ s).
Proof.
  intros Hm. pose proof Hm as ((Hpos & _) & Hn & _).
  destruct (for_ret_rule
    (λ i b', b' = b ∧ ∀ j, 0 ≤ j < i → j ∈ s)
    (λ ib : Z * Bitmap, 0 ≤ ib.1 < n ∧ (ib.1 ∉ s) ∧ (∀ j, 0 ≤ j < ib.1 → j ∈ s) ∧
       marks ib.2 n ({[ib.1]} ∪ s))
    0 (numBits b)
    (λ i b, t ← Test b i; if negb t then b' ← Mark b i; Ok (inr (i, b')) else Ok (inl b)) b)
    as ([b'|[i b']] & Hr & HQ); [lia | split; [done | lia] | | |].
  - intros i ? Hi [-> Hall]. rewrite (marks_Test b n s) by (done || lia). cbn.
    case_bool_decide as Hin; cbn.
    + eexists. split; [done |]. split; [done |]. intros j Hj.
      destruct (decide (j = i)) as [->|]; [done | apply Hall; lia].
    + destruct (marks_Mark b n s i) as (b' & -> & Hm'); [done | lia |]. cbn.
      eexists. split; [done |]. cbn. split_and!; try done; lia.
  - right. destruct HQ as [-> Hall]. unfold FindAndSet. rewrite Hr. cbn.
    split; [done | intros; apply Hall; lia].
  - left. exists i, b'. unfold FindAndSet. rewrite Hr. cbn. split; [done | exact HQ].
Qed.

Lemma filter_lt_succ (s : gset Z) i :
  filter (λ j, j < i + 1) s =
    if decide (i ∈ s) then {[i]} ∪ filter (λ j, j < i) s else filter (λ j, j < i) s.
Proof.
  apply set_eq. intros j. rewrite elem_of_filter. case_decide.
  - rewrite elem_of_union, elem_of_singleton, elem_of_filter. split.
    + intros [? ?]. destruct (decide (j = i)); [by left | right; split; [lia | done]].
    + intros [->|[? ?]]; (split; [lia | done]).
  - rewrite elem_of_filter. split; intros [? ?]; (split; [| done]); [|lia].
    destruct (decide (j = i)); [by subst | lia].
Qed.

Lemma marks_NumClear b n s : marks b n s → NumClear b = Ok (n - Z.of_nat (size s)).
Proof.
  intros Hm. pose proof Hm as ((Hpos & _) & Hn & Hs).
  destruct (for_each_rule
    (λ i count, count = i - Z.of_nat (size (filter (λ j, j < i) s)))
    0 (numBits b) (λ i count, t ← Test b i; Ok (if negb t then count + 1 else count)) 0)
    as (c & Hr & ->); [lia | | |].
  - replace (filter (λ j, j < 0) s) with (∅ : gset Z); [by rewrite size_empty |].
    symmetry. apply set_eq. intros j. rewrite elem_of_filter, Hs. set_solver by lia.
  - intros i c Hi ->. rewrite (marks_Test b n s) by (done || lia). cbn. eexists. split; [done |].
    rewrite filter_lt_succ. case_bool_decide; cbn; (case_decide; [| done || lia]); try done.
    rewrite size_union, size_singleton; [lia |].
    intros j. rewrite elem_of_singleton, elem_of_filter. lia.
  - unfold NumClear. rewrite Hr.
    replace (filter (λ j, j < numBits b) s) with s; [by rewrite Hn |].
    apply set_eq. intros j. rewrite elem_of_filter, Hs. naive_solver lia.
Qed.

Lemma marks_new raw n : 0 < n → Z.of_nat (length raw) = divRoundUp n 32 →
  ∃ b, Bitmap_new raw n = Ok b ∧ marks b n ∅.
Proof.
  intros Hn Hraw. unfold Bitmap_new. rewrite BitsInWord_eq.
  destruct (Z.ltb_spec 0 n); [| lia]. cbn.
  pose proof (divRoundUp_spec n 32).
  destruct (for_each_rule
    (λ i ws, length ws = length raw ∧ ∀ j, 0 ≤ j < i → ws !! Z.to_nat j = Some 0)
    0 (divRoundUp n 32) (λ i ws, aset ws i 0) raw)
    as (ws & -> & Hlen & Hz); [lia | split; [done | lia] | |].
  { intros i ws Hi [Hl Hw]. eexists. rewrite aset_in by lia. split; [done |].
    rewrite length_insert. split; [done |]. intros j Hj.
    destruct (decide (j = i)) as [->|].
    - by rewrite list_lookup_insert_eq by lia.
    - rewrite list_lookup_insert_ne by lia. apply Hw; lia. }
  cbn. apply (for_each_rule (λ _ b, marks b n ∅)); [lia | | ].
  - assert (∀ k w, ws !! k = Some w → w = 0) as Hzero.
    { intros k w Hk. pose proof (lookup_lt_Some _ _ _ Hk).
      specialize (Hz (Z.of_nat k) ltac:(lia)). rewrite Nat2Z.id in Hz. congruence. }
    split_and!; [split_and!; cbn; try done; try lia | done |].
    + apply Forall_lookup. intros k w ->%Hzero. by vm_compute.
    + intros i. split; [set_solver |]. intros [Hi Hb]. exfalso. revert Hb. unfold bit. cbn.
      rewrite BitsInWord_eq.
      destruct (lookup_lt_is_Some_2 ws (Z.to_nat (i / 32))) as [w Hw].
      { pose proof (Z.div_lt_upper_bound i 32 (divRoundUp n 32)).
        pose proof (Z.div_pos i 32). lia. }
      rewrite (list_lookup_total_correct _ _ _ Hw), (Hzero _ _ Hw), Z.bits_0. done.
  - intros i b Hi Hb. destruct (marks_Clear b n ∅ i Hb Hi) as (b' & ? & Hm').
    exists b'. split; [done |]. by replace ∅ with (∅ ∖ {[i]} : gset Z) by set_solver.
Qed.

#[export] Instance Bitmap_ops : BitmapOps Bitmap := {|
  bm_Mark := Mark; bm_Clear := Clear; bm_Test := Test;
  bm_FindAndSet := FindAndSet; bm_NumClear := NumClear |}.

#[export] Program Instance Bitmap_laws : BitmapLaws Bitmap := {| bm_repr := marks |}.
Next Obligation. apply marks_range. Qed.
Next Obligation. apply marks_unique. Qed.
Next Obligation. apply marks_Test. Qed.
Next Obligation. intros b n s i (_ & <- & _) Hi. by apply Test_out. Qed.
Next Obligation. apply marks_Mark. Qed.
Next Obligation.
  intros b n s i (_ & <- & _) Hi. cbn. unfold Mark.
  destruct (Z.leb_spec 0 i), (Z.ltb_spec i (numBits b)); try done; lia.
Qed.
Next Obligation. apply marks_Clear. Qed.
Next Obligation.
  intros b n s i (_ & <- & _) Hi. cbn. unfold Clear.
  destruct (Z.leb_spec 0 i), (Z.ltb_spec i (numBits b)); try done; lia.
Qed.
Next Obligation. apply marks_FindAndSet. Qed.
Next Obligation. apply marks_NumClear. Qed.

Lemma marks_Mark_all b n s : marks b n s →
  ∃ b', for_each 0 n (λ i b, Mark b i) b = Ok b' ∧ marks b' n (list_to_set (seqZ 0 n)).
Proof.
  intros Hm. pose proof Hm as ((Hpos & _) & Hn & _).
  destruct (for_each_rule
    (λ i b, ∃ s', marks b n s' ∧ ∀ j, 0 ≤ j < i → j ∈ s') 0 n (λ i b, Mark b i) b)
    as (b' & Hr & s' & Hm' & Hs'); [lia | exists s; split; [done | lia] | |].
  - intros i b' Hi (s' & Hb' & Hs'). destruct (marks_Mark b' n s' i) as (b'' & ? & ?); [done | lia |].
    exists b''. split; [done |]. eexists. split; [done |]. intros j Hj.
    destruct (decide (j = i)) as [->|]; [set_solver |].
    apply elem_of_union_r, Hs'. lia.
  - exists b'. split; [done |]. replace (list_to_set (seqZ 0 n) : gset Z) with s'; [done |].
    apply set_eq. intros j. rewrite elem_of_list_to_set, elem_of_seqZ.
    split; [|intros; apply Hs'; lia]. intros Hj. pose proof (marks_range b' n s' j Hm' Hj). lia.
Qed.

Lemma marks_Clear_all b n s : marks b n s →
  ∃ b', for_each 0 n (λ i b, Clear b i) b = Ok b' ∧ marks b' n ∅.
Proof.
  intros Hm. pose proof Hm as ((Hpos & _) & Hn & _).
  destruct (for_each_rule
    (λ i b, ∃ s', marks b n s' ∧ ∀ j, 0 ≤ j < i → j ∉ s') 0 n (λ i b, Clear b i) b)
    as (b' & Hr & s' & Hm' & Hs'); [lia | exists s; split; [done | lia] | |].
  - intros i b' Hi (s' & Hb' & Hs'). destruct (marks_Clear b' n s' i) as (b'' & ? & ?); [done | lia |].
    exists b''. split; [done |]. eexists. split; [done |]. intros j Hj.
    destruct (decide (j = i)) as [->|]; [set_solver |].
    specialize (Hs' j). set_solver by lia.
  - exists b'. split; [done |]. replace (∅ : gset Z) with s'; [done |].
    apply set_eq. intros j. split; [|set_solver]. intros Hj.
    pose proof (marks_range b' n s' j Hm' Hj). by destruct (Hs' j).
Qed.

(** ** A client of the interface: any sequence of calls *)

Inductive call := CMark (i : Z) | CClear (i : Z) | CTest (i : Z) | CFindAndSet | CNumClear.

Inductive answer := AUnit | ABool (t : bool) | AInt (z : Z).

Section calls.
Context {B : Type} `{BitmapOps B}.

Definition do_call (b : B) (c : call) : result (answer * B) :=
  match c with
  | CMark i => b' ← bm_Mark b i; Ok (AUnit, b')
  | CClear i => b' ← bm_Clear b i; Ok (AUnit, b')
  | CTest i => t ← bm_Test b i; Ok (ABool t, b)
  | CFindAndSet => '(i, b') ← bm_FindAndSet b; Ok (AInt i, b')
  | CNumClear => c ← bm_NumClear b; Ok (AInt c, b)
  end.

Fixpoint do_calls (b : B) (cs : list call) : result (list answer) :=
  match cs with
  | [] => Ok []
  | c :: cs => '(a, b') ← do_call b c; as' ← do_calls b' cs; Ok (a :: as')
  end.
End calls.

(** What the calls must answer: the set of marked slots, first-fit
    allocation, and a failed assertion on any slot outside [0, n). *)
Definition spec_call (n : Z) (s : gset Z) (c : call) : result (answer * gset Z) :=
  let ok i := (0 <=? i) && (i <? n) in
  match c with
  | CMark i => if ok i then Ok (AUnit, {[i]} ∪ s) else Fail AssertFailed
  | CClear i => if ok i then Ok (AUnit, s ∖ {[i]}) else Fail AssertFailed
  | CTest i => if ok i then Ok (ABool (bool_decide (i ∈ s)), s) else Fail AssertFailed
  | CFindAndSet =>
      match filter (λ i, i ∉ s) (seqZ 0 n) with
      | i :: _ => Ok (AInt i, {[i]} ∪ s)
      | [] => Ok (AInt (-1), s)
      end
  | CNumClear => Ok (AInt (n - Z.of_nat (size s)), s)
  end.

Fixpoint spec_calls (n : Z) (s : gset Z) (cs : list call) : result (list answer) :=
  match cs with
  | [] => Ok []
  | c :: cs => '(a, s') ← spec_call n s c; as' ← spec_calls n s' cs; Ok (a :: as')
  end.

Lemma filter_seqZ_first (P : Z → Prop) `{!∀ x, Decision (P x)} n i :
  0 ≤ i < n → P i → (∀ j, 0 ≤ j < i → ¬ P j) → ∃ l, filter P (seqZ 0 n) = i :: l.
Proof.
  intros Hi HP Hn. replace n with (i + (1 + (n - i - 1))) by lia.
  rewrite seqZ_app, filter_app by lia.
  assert (filter P (seqZ 0 i) = []) as ->.
  { apply elem_of_nil_inv. intros j.
    rewrite list_elem_of_filter, elem_of_seqZ. intros [Hj ?]. apply (Hn j); [lia | done]. }
  rewrite seqZ_cons by lia. rewrite filter_cons_True by (by rewrite Z.add_0_l).
  rewrite Z.add_0_l. cbn. eauto.
Qed.

Section laws.
Context {B : Type} `{BitmapLaws B}.

Lemma do_call_spec b n s c : bm_repr b n s →
  match spec_call n s c with
  | Ok (a, s') => ∃ b', do_call b c = Ok (a, b') ∧ bm_repr b' n s'
  | Fail e => do_call b c = Fail e
  end.
Proof.
  intros Hb.
  assert (∀ i, (0 <=? i) && (i <? n) = true ∧ 0 ≤ i < n ∨
               (0 <=? i) && (i <? n) = false ∧ ¬ 0 ≤ i < n) as Hok.
  { intros i. destruct (Z.leb_spec 0 i), (Z.ltb_spec i n); cbn; lia. }
  destruct c as [i|i|i| |]; cbn; try destruct (Hok i) as [[-> Hi]|[-> Hi]].
  - destruct (bm_Mark_in b n s i) as (b' & -> & ?); naive_solver.
  - by rewrite (bm_Mark_out b n s).
  - destruct (bm_Clear_in b n s i) as (b' & -> & ?); naive_solver.
  - by rewrite (bm_Clear_out b n s).
  - rewrite (bm_Test_in b n s) by done. naive_solver.
  - by rewrite (bm_Test_out b n s).
  - destruct (bm_FindAndSet_spec b n s Hb) as [(i & b' & -> & Hi & Hn & Hlt & ?)|[-> Hall]].
    + destruct (filter_seqZ_first (λ i, i ∉ s) n i) as [l ->]; [done..| |]; naive_solver.
    + replace (filter (λ i, i ∉ s) (seqZ 0 n)) with (@nil Z); [naive_solver |].
      symmetry. apply elem_of_nil_inv. intros j.
      rewrite list_elem_of_filter, elem_of_seqZ. intros [Hj ?]. apply Hj, Hall. lia.
  - rewrite (bm_NumClear_spec b n s) by done. naive_solver.
Qed.

Lemma do_calls_spec b n s cs : bm_repr b n s → do_calls b cs = spec_calls n s cs.
Proof.
  revert b s. induction cs as [|c cs IH]; intros b s Hb; cbn; [done |].
  pose proof (do_call_spec b n s c Hb) as Hc.
  destruct (spec_call n s c) as [[a s']|e].
  - destruct Hc as (b' & -> & Hb'). cbn. by rewrite (IH b' s').
  - by rewrite Hc.
Qed.
End laws.

(** ** Properties *)

(** C21: a bitmap of [n] slots built by the constructor, whatever was in the
    memory it was given, answers every sequence of [Mark], [Clear], [Test],
    [FindAndSet] and [NumClear] calls as the finite set of marked slots does:
    first-fit allocation, -1 when full, a failed assertion on a slot outside
    [0, n), and no other fault. *)
Theorem Bitmap_refines_set (raw : list Z) (n : Z) (cs : list call)
    (Hn : 0 < n) (Hraw : Z.of_nat (length raw) = divRoundUp n BitsInWord) :
  (b ← Bitmap_new raw n; do_calls b cs) = spec_calls n ∅ cs.
Proof.
  destruct (marks_new raw n Hn Hraw) as (b & -> & Hb). cbn.
  by apply do_calls_spec.
Qed.

Lemma Bitmap_refines_set_witness :
  0 < 40 ∧ (b ← Bitmap_new [7; 9] 40; do_calls b [CFindAndSet; CMark 35; CFindAndSet; CClear 0;
     CTest 35; CFindAndSet; CNumClear]) =
    Ok [AInt 0; AUnit; AInt 1; AUnit; ABool true; AInt 0; AInt 37].
Proof.
  split; [lia |].
  rewrite (Bitmap_refines_set [7; 9] 40 _ ltac:(lia) ltac:(reflexivity)).
  vm_compute. reflexivity.
Defined.

(** [SelfTest] on any empty bitmap of at least one word of slots trips no
    assertion and hands the bitmap back empty. *)
Theorem SelfTest_passes (b : Bitmap) (n : Z) (Hb : marks b n ∅) (Hn : BitsInWord <= n) :
  ∃ b', SelfTest b = Ok b' ∧ marks b' n ∅.
Proof.
  rewrite BitsInWord_eq in Hn. pose proof Hb as (_ & Hnb & _).
  unfold SelfTest. rewrite BitsInWord_eq, Hnb. destruct (Z.leb_spec 32 n); [cbn | lia].
  rewrite (marks_NumClear _ n ∅) by done. cbn. rewrite size_empty, Z.sub_0_r, Z.eqb_refl. cbn.
  destruct (marks_FindAndSet b n ∅ Hb) as [(i & b1 & -> & Hi & _ & Hlt & Hb1)|[_ Hall]];
    [| by destruct (not_elem_of_empty (C:=gset Z) 0); apply Hall; lia].
  assert (i = 0) as ->.
  { destruct (decide (i = 0)); [done |]. by destruct (not_elem_of_empty (C:=gset Z) 0); apply Hlt; lia. }
  cbn. destruct (marks_Mark b1 n _ 31 Hb1) as (b2 & -> & Hb2); [lia | cbn].
  rewrite !(marks_Test b2 n _) by (done || lia). cbn.
  rewrite !bool_decide_eq_true_2 by set_solver. cbn.
  destruct (marks_FindAndSet b2 n _ Hb2) as [(i & b3 & -> & Hi' & Hni & Hlt' & Hb3)|[_ Hall]];
    [| specialize (Hall 1 ltac:(lia)); set_solver by lia].
  assert (i = 1) as ->.
  { destruct (decide (i = 0)); [subst; set_solver |]. destruct (decide (i = 1)); [done |].
    specialize (Hlt' 1 ltac:(lia)). set_solver by lia. }
  cbn. destruct (marks_Clear b3 n _ 0 Hb3) as (b4 & -> & Hb4); [lia | cbn].
  destruct (marks_Clear b4 n _ 1 Hb4) as (b5 & -> & Hb5); [lia | cbn].
  destruct (marks_Clear b5 n _ 31 Hb5) as (b6 & -> & Hb6); [lia | cbn].
  assert (numBits b6 = n) as -> by apply Hb6.
  destruct (marks_Mark_all b6 n _ Hb6) as (b7 & -> & Hb7). cbn.
  destruct (marks_FindAndSet b7 n _ Hb7) as [(i & ? & _ & Hi7 & Hni7 & _)|[-> _]].
  { destruct Hni7. apply elem_of_list_to_set, elem_of_seqZ. lia. }
  cbn. assert (numBits b7 = n) as -> by apply Hb7.
  by apply marks_Clear_all with (s := list_to_set (seqZ 0 n)).
Qed.

Lemma SelfTest_passes_witness :
  ∃ b b', Bitmap_new [5; 6; 7] 70 = Ok b ∧ SelfTest b = Ok b' ∧ marks b' 70 ∅.
Proof.
  destruct (marks_new [5; 6; 7] 70 ltac:(lia) ltac:(reflexivity)) as (b & Hnew & Hb).
  destruct (SelfTest_passes b 70 Hb ltac:(unfold BitsInWord, BitsInByte; lia)) as (b' & H1 & H2).
  exists b, b'. split; [exact Hnew | split; [exact H1 | exact H2]].
Defined.
