(* ===== verification/Machine.v ===== *)
(** * The simulated machine (machine/machine.h, machine.cc, translate.h, translate.cc)

    Registers, main memory, byte order, and the translation of virtual
    addresses by a page table or a TLB.  [RaiseException] calls the kernel's
    [ExceptionHandler] (userprog/exception.cc), a section variable here. *)

From S2P Require Import Prelude.
Local Open Scope Z_scope.

Definition PageSize : Z := 128 * 2.
Definition NumPhysPages : Z := 128.
Definition MemorySize : Z := NumPhysPages * PageSize.
Definition TLBSize : Z := 4.

Inductive ExceptionType :=
  | NoException | SyscallException | PageFaultException | ReadOnlyException
  | BusErrorException | AddressErrorException | OverflowException
  | IllegalInstrException | NumExceptionTypes.

#[export] Instance ExceptionType_eq_dec : EqDecision ExceptionType.
Proof. solve_decision. Defined.

(** machine/interrupt.h: what the simulated CPU is running. *)
Inductive MachineStatus := IdleMode | SystemMode | UserMode.

Definition StackReg : Z := 29.
Definition RetAddrReg : Z := 31.
Definition NumGPRegs : Z := 32.
Definition HiReg : Z := 32.
Definition LoReg : Z := 33.
Definition PCReg : Z := 34.
Definition NextPCReg : Z := 35.
Definition PrevPCReg : Z := 36.
Definition LoadReg : Z := 37.
Definition LoadValueReg : Z := 38.
Definition BadVAddrReg : Z := 39.
Definition NumTotalRegs : Z := 40.

Record TranslationEntry := mkTE {
  virtualPage : Z; physicalPage : Z; valid : bool; readOnly : bool; use : bool; dirty : bool }.

Definition set_use_dirty (e : TranslationEntry) (writing : bool) : TranslationEntry :=
  mkTE (virtualPage e) (physicalPage e) (valid e) (readOnly e) true (writing || dirty e).

(** [tlb] and [pageTable] are pointers: [None] is NULL.  Memory bytes are kept
    as [0, 256); [status] is [kernel->interrupt]'s mode, which
    [RaiseException] sets. *)
Record Machine := mkMachine {
  registers : list Z;
  mainMemory : list Z;
  tlb : option (list TranslationEntry);
  pageTable : option (list TranslationEntry);
  pageTableSize : Z;
  status : MachineStatus }.

Definition with_registers m r :=
  mkMachine r (mainMemory m) (tlb m) (pageTable m) (pageTableSize m) (status m).
Definition with_memory m mem :=
  mkMachine (registers m) mem (tlb m) (pageTable m) (pageTableSize m) (status m).
Definition with_tlb m t :=
  mkMachine (registers m) (mainMemory m) t (pageTable m) (pageTableSize m) (status m).
Definition with_pageTable m t n :=
  mkMachine (registers m) (mainMemory m) (tlb m) t n (status m).
Definition setStatus m st :=
  mkMachine (registers m) (mainMemory m) (tlb m) (pageTable m) (pageTableSize m) st.

(** ** Registers *)

Definition ReadRegister (m : Machine) (num : Z) : result Z :=
  ASSERT ((0 <=? num) && (num <? NumTotalRegs));;
  aget (registers m) num.

Definition WriteRegister (m : Machine) (num value : Z) : result Machine :=
  ASSERT ((0 <=? num) && (num <? NumTotalRegs));;
  r ← aset (registers m) num value;
  Ok (with_registers m r).

(** mipssim.cc, [Machine::DelayedLoad]: the pending load lands, another one is
    recorded, and R0 is forced back to zero. *)
Definition DelayedLoad (m : Machine) (nextReg nextValue : Z) : result Machine :=
  lr ← aget (registers m) LoadReg;
  lv ← aget (registers m) LoadValueReg;
  r ← aset (registers m) lr lv;
  r ← aset r LoadReg nextReg;
  r ← aset r LoadValueReg nextValue;
  r ← aset r 0 0;
  Ok (with_registers m r).

(** The constructor without [USE_TLB] (the build's configuration): a fresh
    machine has zeroed registers and memory and no translation at all. *)
Definition Machine_new : Machine :=
  mkMachine (replicate (Z.to_nat NumTotalRegs) 0) (replicate (Z.to_nat MemorySize) 0)
    None None 0 SystemMode.

Definition invalidTE : TranslationEntry := mkTE 0 0 false false false false.

(** ... and with [USE_TLB]. *)
Definition Machine_new_tlb : Machine :=
  mkMachine (replicate (Z.to_nat NumTotalRegs) 0) (replicate (Z.to_nat MemorySize) 0)
    (Some (replicate (Z.to_nat TLBSize) invalidTE)) None 0 SystemMode.

(** ** Byte order

    [big_endian] is [HOST_IS_BIG_ENDIAN]: the host the simulator runs on.
    [host_bytes] lays a host integer out in memory, [host_word] reads it. *)
Section byte_order.
Variable big_endian : bool.

Definition WordToHost (word : Z) : Z :=
  if big_endian then
    Z.lor (Z.lor (Z.lor (Z.land (Z.shiftr word 24) 0x000000ff)
                        (Z.land (Z.shiftr word 8) 0x0000ff00))
                 (Z.land (Z.shiftl word 8) 0x00ff0000))
          (Z.land (Z.shiftl word 24) 0xff000000)
  else word.

Definition ShortToHost (shortword : Z) : Z :=
  if big_endian then
    Z.lor (Z.land (Z.shiftl shortword 8) 0xff00) (Z.land (Z.shiftr shortword 8) 0x00ff)
  else shortword.

Definition WordToMachine (word : Z) : Z := WordToHost word.
Definition ShortToMachine (shortword : Z) : Z := ShortToHost shortword.

Definition host_bytes (n w : Z) : list Z :=
  let l := Z_to_little_endian n 8 w in if big_endian then reverse l else l.
Definition host_word (bs : list Z) : Z :=
  little_endian_to_Z 8 (if big_endian then reverse bs else bs).
End byte_order.

(** ** Translation *)

(** The TLB scan: the first valid entry for [vpn]. *)
Definition tlb_find (t : list TranslationEntry) (vpn : Z) : result (unit + Z) :=
  for_ret 0 TLBSize (λ i _,
    e ← aget t i;
    Ok (if valid e && (virtualPage e =? s32 vpn) then inr i else inl tt)) tt.

(** [inl e] is an exception, [inr (pa, m')] a physical address. *)
Definition Translate (m : Machine) (virtAddr size : Z) (writing : bool) :
    result (ExceptionType + Z * Machine) :=
  if ((size =? 4) && negb (Z.land virtAddr 3 =? 0))
     || ((size =? 2) && negb (Z.land virtAddr 1 =? 0))
  then Ok (inl AddressErrorException)
  else
    ASSERT (match tlb m, pageTable m with Some _, Some _ => false | _, _ => true end);;
    ASSERT (match tlb m, pageTable m with None, None => false | _, _ => true end);;
    let vpn := u32 virtAddr / PageSize in
    let offset := u32 virtAddr mod PageSize in
    (* the entry, and how to put it back where it was found *)
    found ← match tlb m with
      | None =>
          match pageTable m with
          | None => Fail NullDeref
          | Some pt =>
              if pageTableSize m <=? vpn then Ok (inl AddressErrorException)
              else
                e ← aget pt vpn;
                if negb (valid e) then Ok (inl PageFaultException)
                else Ok (inr (e, λ e',
                       pt' ← aset pt vpn e'; Ok (with_pageTable m (Some pt') (pageTableSize m))))
          end
      | Some t =>
          r ← tlb_find t vpn;
          match r with
          | inl _ => Ok (inl PageFaultException)
          | inr i =>
              e ← aget t i;
              Ok (inr (e, λ e', t' ← aset t i e'; Ok (with_tlb m (Some t'))))
          end
      end;
    match found with
    | inl ex => Ok (inl ex)
    | inr (e, put) =>
        if readOnly e && writing then Ok (inl ReadOnlyException)
        else
          let pageFrame := u32 (physicalPage e) in
          if NumPhysPages <=? pageFrame then Ok (inl BusErrorException)
          else
            m' ← put (set_use_dirty e writing);
            let physAddr := pageFrame * PageSize + offset in
            ASSERT ((0 <=? physAddr) && (physAddr + size <=? MemorySize));;
            Ok (inr (physAddr, m'))
    end.

(** ** Memory accesses *)
Section access.
Variable big_endian : bool.
Variable ExceptionHandler : ExceptionType → Machine → result Machine.

Definition RaiseException (m : Machine) (which : ExceptionType) (badVAddr : Z) :
    result Machine :=
  r ← aset (registers m) BadVAddrReg badVAddr;
  m ← DelayedLoad (with_registers m r) 0 0;
  m ← ExceptionHandler which (setStatus m SystemMode);
  Ok (setStatus m UserMode).

(** A [char] of main memory, as the [int] it converts to. *)
Definition s8 (b : Z) : Z := if b <? 128 then b else b - 256.

(** [None] when the access trapped, otherwise the value read. *)
Definition ReadMem (m : Machine) (addr size : Z) : result (option Z * Machine) :=
  t ← Translate m addr size false;
  match t with
  | inl ex => m ← RaiseException m ex addr; Ok (None, m)
  | inr (pa, m) =>
      if size =? 1 then
        b ← aget (mainMemory m) pa; Ok (Some (s8 b), m)
      else if size =? 2 then
        bs ← blk_get (mainMemory m) pa 2;
        Ok (Some (ShortToHost big_endian (host_word big_endian bs)), m)
      else if size =? 4 then
        bs ← blk_get (mainMemory m) pa 4;
        Ok (Some (s32 (WordToHost big_endian (u32 (s32 (host_word big_endian bs))))), m)
      else Fail AssertFailed
  end.

Definition WriteMem (m : Machine) (addr size value : Z) : result (bool * Machine) :=
  t ← Translate m addr size true;
  match t with
  | inl ex => m ← RaiseException m ex addr; Ok (false, m)
  | inr (pa, m) =>
      if size =? 1 then
        mem ← aset (mainMemory m) pa (Z.land value 0xff); Ok (true, with_memory m mem)
      else if size =? 2 then
        mem ← blk_put (mainMemory m) pa
                (host_bytes big_endian 2 (ShortToMachine big_endian (Z.land value 0xffff)));
        Ok (true, with_memory m mem)
      else if size =? 4 then
        mem ← blk_put (mainMemory m) pa
                (host_bytes big_endian 4 (WordToMachine big_endian (u32 value)));
        Ok (true, with_memory m mem)
      else Fail AssertFailed
  end.
End access.

(** ** Byte order: the machine format does not depend on the host *)

Definition is_byte (b : Z) : Prop := 0 ≤ b < 256.

Lemma le_bytes_4 w : Z_to_little_endian 4 8 w =
  [Z.land w 255; Z.land (Z.shiftr w 8) 255; Z.land (Z.shiftr w 16) 255; Z.land (Z.shiftr w 24) 255].
Proof.
  change (Z_to_little_endian 4 8 w) with
    [Z.land w 255; Z.land (Z.shiftr w 8) 255; Z.land (Z.shiftr (Z.shiftr w 8) 8) 255;
     Z.land (Z.shiftr (Z.shiftr (Z.shiftr w 8) 8) 8) 255].
  by rewrite !Z.shiftr_shiftr by lia.
Qed.

Lemma le_bytes_2 w : Z_to_little_endian 2 8 w = [Z.land w 255; Z.land (Z.shiftr w 8) 255].
Proof. reflexivity. Qed.

(** Decide an equality of masked and shifted words bit by bit below bit [n]. *)
Ltac word_bits n :=
  apply Z.bits_inj'; let i := fresh "i" in let Hi := fresh "Hi" in intros i Hi;
  rewrite ?Z.land_spec, ?Z.lor_spec, ?Z.shiftr_spec, ?Z.land_spec, ?Z.lor_spec by lia;
  destruct (decide (i < n)) as [Hlt|Hge];
  [ let rec go k := lazymatch k with
      | O => lia
      | S ?k' => destruct (decide (i = Z.of_nat k')) as [->|]; [| go k']
      end in
    let k := eval vm_compute in (Z.to_nat n) in go k;
    rewrite ?Z.land_spec, ?Z.lor_spec, ?Z.shiftr_spec, ?Z.shiftl_spec by lia;
    cbn -[Z.testbit];
    repeat match goal with
      | |- context [Z.testbit (Zpos ?p) (Zpos ?q)] =>
          let b := eval vm_compute in (Z.testbit (Zpos p) (Zpos q)) in
          change (Z.testbit (Zpos p) (Zpos q)) with b
      | |- context [Z.testbit (Zpos ?p) 0] =>
          let b := eval vm_compute in (Z.testbit (Zpos p) 0) in
          change (Z.testbit (Zpos p) 0) with b
      end;
    rewrite ?andb_true_r, ?andb_false_r, ?orb_false_r, ?orb_false_l; try done
  | ].

Lemma testbit_255 i : 0 ≤ i → Z.testbit 255 i = (i <? 8).
Proof.
  intros Hi. change 255 with (Z.ones 8). destruct (Z.ltb_spec i 8).
  - by rewrite Z.ones_spec_low by lia.
  - by rewrite Z.ones_spec_high by lia.
Qed.

Lemma swap_bytes w : is_u32 w →
  host_bytes true 4 (WordToHost true w) = host_bytes false 4 w.
Proof.
  intros Hw. unfold host_bytes, WordToHost. rewrite !le_bytes_4. cbn [reverse rev_append].
  unfold reverse. cbn [rev_append].
  repeat (apply (f_equal2 (@cons Z))); try done; word_bits 8;
    rewrite !testbit_255 by lia; destruct (Z.ltb_spec i 8); try lia; by rewrite !andb_false_r.
Qed.

Lemma swap_shorts w : is_u32 w →
  host_bytes true 2 (ShortToHost true w) = host_bytes false 2 w.
Proof.
  intros Hw. unfold host_bytes, ShortToHost. rewrite !le_bytes_2.
  unfold reverse. cbn [rev_append].
  repeat (apply (f_equal2 (@cons Z))); try done; word_bits 8;
    rewrite !testbit_255 by lia; destruct (Z.ltb_spec i 8); try lia; by rewrite !andb_false_r.
Qed.

Lemma mask_high c i : is_u32 c → 32 ≤ i → Z.testbit c i = false.
Proof. apply u32_high. Qed.

Lemma WordToHost_u32 be w : is_u32 w → is_u32 (WordToHost be w).
Proof.
  intros Hw. destruct be; [|done]. unfold WordToHost. apply is_u32_bits.
  - repeat (apply Z.lor_nonneg; split); apply Z.land_nonneg; right; lia.
  - intros i Hi. rewrite !Z.lor_spec, !Z.land_spec.
    rewrite (mask_high 0xff i), (mask_high 0xff00 i), (mask_high 0xff0000 i), (mask_high 0xff000000 i)
      by (done || (unfold is_u32; lia)).
    by rewrite !andb_false_r.
Qed.

Lemma ShortToHost_u16 be w : 0 ≤ w < 2 ^ 16 → 0 ≤ ShortToHost be w < 2 ^ 16.
Proof.
  intros Hw. destruct be; [|done]. unfold ShortToHost.
  set (r := Z.lor _ _).
  assert (0 ≤ r) as Hr by (apply Z.lor_nonneg; split; apply Z.land_nonneg; right; lia).
  split; [done |]. assert (r = r mod 2 ^ 16) as ->; [| apply Z.mod_pos_bound; lia].
  apply Z.bits_inj'. intros i Hi. destruct (decide (i < 16)).
  - by rewrite Z.mod_pow2_bits_low by lia.
  - rewrite Z.mod_pow2_bits_high by lia. unfold r. rewrite Z.lor_spec, !Z.land_spec.
    rewrite (Z.bits_above_log2 0xff00), (Z.bits_above_log2 0xff) by (cbn; lia).
    by rewrite !andb_false_r.
Qed.

Lemma le_is_byte n v : 0 ≤ n → Forall is_byte (Z_to_little_endian n 8 v).
Proof. intros Hn. apply (Z_to_little_endian_bound n 8 v); lia. Qed.

Lemma le_mod n v : 0 ≤ n → Z_to_little_endian n 8 (v mod 2 ^ (n * 8)) = Z_to_little_endian n 8 v.
Proof.
  intros Hn.
  pose proof (le_is_byte n v Hn) as Hb.
  rewrite <- (little_endian_to_Z_to_little_endian n 8 v) by lia.
  apply Z_to_little_endian_to_Z; [by rewrite length_Z_to_little_endian | lia | exact Hb].
Qed.

(** What the stores put in memory and the loads get out of it, whatever the
    host: little-endian bytes. *)
Lemma store_word be v :
  host_bytes be 4 (WordToMachine be (u32 v)) = Z_to_little_endian 4 8 v.
Proof.
  transitivity (host_bytes false 4 (u32 v)).
  - destruct be; [apply swap_bytes, u32_range | done].
  - apply (le_mod 4); lia.
Qed.

Lemma store_short be v :
  host_bytes be 2 (ShortToMachine be (Z.land v 0xffff)) = Z_to_little_endian 2 8 v.
Proof.
  assert (Z.land v 65535 = v mod 2 ^ 16) as -> by (by rewrite <- Z.land_ones).
  transitivity (host_bytes false 2 (v mod 2 ^ 16)).
  - destruct be; [apply swap_shorts | done]. pose proof (Z.mod_pos_bound v (2 ^ 16)).
    unfold is_u32. lia.
  - apply (le_mod 2); lia.
Qed.

Lemma le_decode_bound bs n : Z.of_nat (length bs) = n → Forall is_byte bs →
  0 ≤ little_endian_to_Z 8 bs < 2 ^ (n * 8).
Proof. intros <- Hb. apply (little_endian_to_Z_bound 8 bs); [lia | exact Hb]. Qed.

Lemma reverse_bytes bs : Forall is_byte bs → Forall is_byte (reverse bs).
Proof. intros Hb. rewrite Forall_forall in *. intros x. rewrite elem_of_reverse. auto. Qed.

Lemma load_word be bs : length bs = 4%nat → Forall is_byte bs →
  WordToHost be (host_word be bs) = little_endian_to_Z 8 bs.
Proof.
  intros Hl Hb. destruct be; [|done]. unfold host_word.
  set (w := little_endian_to_Z 8 (reverse bs)).
  assert (is_u32 w) as Hw.
  { apply (le_decode_bound _ 4); [by rewrite length_reverse, Hl | by apply reverse_bytes]. }
  pose proof (WordToHost_u32 true w Hw) as Hs.
  rewrite <- (Z.mod_small (WordToHost true w) (2 ^ (4 * 8))) by apply Hs.
  rewrite <- (little_endian_to_Z_to_little_endian 4 8) by lia. f_equal.
  pose proof (f_equal reverse (swap_bytes w Hw)) as Heq. unfold host_bytes in Heq.
  rewrite reverse_involutive in Heq. rewrite Heq.
  unfold w. rewrite Z_to_little_endian_to_Z; [apply reverse_involutive | | lia |].
  - by rewrite length_reverse, Hl.
  - exact (reverse_bytes bs Hb).
Qed.

Lemma load_short be bs : length bs = 2%nat → Forall is_byte bs →
  ShortToHost be (host_word be bs) = little_endian_to_Z 8 bs.
Proof.
  intros Hl Hb. destruct be; [|done]. unfold host_word.
  set (w := little_endian_to_Z 8 (reverse bs)).
  assert (0 ≤ w < 2 ^ 16) as Hw.
  { apply (le_decode_bound _ 2); [by rewrite length_reverse, Hl | by apply reverse_bytes]. }
  pose proof (ShortToHost_u16 true w Hw) as Hs.
  rewrite <- (Z.mod_small (ShortToHost true w) (2 ^ (2 * 8))) by apply Hs.
  rewrite <- (little_endian_to_Z_to_little_endian 2 8) by lia. f_equal.
  pose proof (f_equal reverse (swap_shorts w ltac:(unfold is_u32; lia))) as Heq.
  unfold host_bytes in Heq. rewrite reverse_involutive in Heq. rewrite Heq.
  unfold w. rewrite Z_to_little_endian_to_Z; [apply reverse_involutive | | lia |].
  - by rewrite length_reverse, Hl.
  - exact (reverse_bytes bs Hb).
Qed.

(** ** Translation by a page table *)

(** [paged m pt]: the machine translates through the linear page table [pt]. *)
Definition paged (m : Machine) (pt : list TranslationEntry) : Prop :=
  tlb m = None ∧ pageTable m = Some pt ∧ pageTableSize m = Z.of_nat (length pt).

Definition mem_ok (mem : list Z) : Prop :=
  Z.of_nat (length mem) = MemorySize ∧ Forall is_byte mem.

(** What a page-table lookup of [va] promises. *)
Definition page_lookup (pt : list TranslationEntry) (va : Z) (writing : bool) :
    ExceptionType + Z :=
  match pt !! Z.to_nat (u32 va / PageSize) with
  | None => inl AddressErrorException
  | Some e =>
      if negb (valid e) then inl PageFaultException
      else if readOnly e && writing then inl ReadOnlyException
      else if NumPhysPages <=? u32 (physicalPage e) then inl BusErrorException
      else inr (u32 (physicalPage e) * PageSize + u32 va mod PageSize)
  end.

Definition misaligned (va size : Z) : bool :=
  ((size =? 4) && negb (Z.land va 3 =? 0)) || ((size =? 2) && negb (Z.land va 1 =? 0)).

(** The table after a successful access. *)
Definition touch (pt : list TranslationEntry) (va : Z) (writing : bool) :=
  alter (λ e, set_use_dirty e writing) (Z.to_nat (u32 va / PageSize)) pt.

Definition access_size (size : Z) : Prop := size = 1 ∨ size = 2 ∨ size = 4.

Lemma land_low_mod va k : 0 ≤ k → Z.land va (2 ^ k - 1) = va mod 2 ^ k.
Proof. intros. rewrite <- Z.land_ones, Z.ones_equiv by done. reflexivity. Qed.

Lemma u32_mod_pow2 va k : 0 ≤ k ≤ 32 → u32 va mod 2 ^ k = va mod 2 ^ k.
Proof.
  intros Hk. unfold u32. replace (2 ^ 32) with (2 ^ k * 2 ^ (32 - k))
    by (rewrite <- Z.pow_add_r by lia; f_equal; lia).
  rewrite Z.rem_mul_r by (try apply Z.pow_nonzero; try apply Z.pow_pos_nonneg; lia).
  rewrite Z.mul_comm, Z_mod_plus_full. apply Z.mod_mod, Z.pow_nonzero; lia.
Qed.

(** An aligned access never crosses the end of its page. *)
Lemma aligned_in_page va size :
  access_size size → misaligned va size = false → u32 va mod PageSize + size ≤ PageSize.
Proof.
  intros Hsz Hal. unfold misaligned in Hal.
  change 3 with (2 ^ 2 - 1) in Hal. change (Z.land va 1) with (Z.land va (2 ^ 1 - 1)) in Hal.
  rewrite !land_low_mod in Hal by lia.
  change PageSize with (2 ^ 8). rewrite u32_mod_pow2 by lia.
  pose proof (Z.mod_pos_bound va (2 ^ 8) ltac:(lia)) as Hb.
  pose proof (Z.div_mod va (2 ^ 8)) as Hd.
  change (2 ^ 8) with 256 in *. change (2 ^ 2) with 4 in *. change (2 ^ 1) with 2 in *.
  destruct Hsz as [->|[->| ->]]; cbn in Hal; [lia | |].
  - apply negb_false_iff, Z.eqb_eq in Hal.
    pose proof (Z.div_mod va 2). lia.
  - rewrite orb_false_r in Hal. apply negb_false_iff, Z.eqb_eq in Hal.
    pose proof (Z.div_mod va 4). lia.
Qed.

Lemma page_lookup_bound pt va size w pa :
  access_size size → misaligned va size = false → page_lookup pt va w = inr pa →
  0 ≤ pa ∧ pa + size ≤ MemorySize.
Proof.
  intros Hsz Hal. unfold page_lookup.
  destruct (pt !! _) as [e|]; [|done].
  destruct (negb (valid e)), (readOnly e && w), (Z.leb_spec NumPhysPages (u32 (physicalPage e)));
    try discriminate.
  intros [= <-]. pose proof (aligned_in_page va size Hsz Hal).
  pose proof (u32_range (physicalPage e)). pose proof (Z.mod_pos_bound (u32 va) PageSize).
  unfold is_u32, MemorySize, NumPhysPages, PageSize in *. lia.
Qed.

Lemma Translate_page_table_eq m pt va size w :
  paged m pt → access_size size →
  Translate m va size w = Ok (
    if misaligned va size then inl AddressErrorException
    else match page_lookup pt va w with
         | inl ex => inl ex
         | inr pa => inr (pa, with_pageTable m (Some (touch pt va w)) (Z.of_nat (length pt)))
         end).
Proof.
  intros (Ht & Hpt & Hsz) Has. unfold Translate. fold (misaligned va size).
  destruct (misaligned va size) eqn:Hal; [done |].
  rewrite Ht, Hpt. cbn. rewrite Hsz.
  pose proof (page_lookup_bound pt va size w) as Hb.
  unfold page_lookup, touch in *.
  pose proof (u32_range va) as Hu. pose proof (Z.div_pos (u32 va) PageSize).
  unfold is_u32 in Hu.
  destruct (Z.leb_spec (Z.of_nat (length pt)) (u32 va / PageSize)).
  { cbn. by rewrite lookup_ge_None_2 by (unfold PageSize in *; lia). }
  destruct (lookup_lt_is_Some_2 pt (Z.to_nat (u32 va / PageSize))) as [e He];
    [unfold PageSize in *; lia |].
  rewrite He in *. rewrite (proj2 (aget_Ok pt _ e)) by (split; [unfold PageSize in *; lia | done]).
  cbn. destruct (valid e); cbn in *; [| done].
  destruct (readOnly e && w); [done |].
  destruct (Z.leb_spec NumPhysPages (u32 (physicalPage e))); [done |].
  rewrite aset_in by (unfold PageSize in *; lia). cbn.
  destruct (Hb _ Has Hal eq_refl) as [Hb1 Hb2].
  destruct (Z.leb_spec 0 (u32 (physicalPage e) * PageSize + u32 va mod PageSize)); [|lia].
  destruct (Z.leb_spec (u32 (physicalPage e) * PageSize + u32 va mod PageSize + size) MemorySize);
    [|lia].
  cbn. do 5 f_equal. rewrite list_insert_alter. apply list_alter_ext; [| done].
  intros x Hx. congruence.
Qed.

(** ** Loads and stores *)

(** The [int] a load of [size] bytes delivers. *)
Definition int_of_bytes (size : Z) (bs : list Z) : Z :=
  let w := little_endian_to_Z 8 bs in
  if size =? 1 then s8 w else if size =? 2 then w else s32 w.

(** The machine after the use/dirty bits of a successful access. *)
Definition touched (m : Machine) (pt : list TranslationEntry) (va : Z) (w : bool) : Machine :=
  with_pageTable m (Some (touch pt va w)) (Z.of_nat (length pt)).

Lemma aget_blk {A} (l : list A) i : aget l i = (k ← blk_get l i 1; aget k 0).
Proof.
  destruct (blk_get l i 1) as [k|] eqn:Hk; cbn.
  - pose proof (blk_get_length _ _ _ _ Hk).
    pose proof (blk_get_lookup _ _ _ _ 0 Hk ltac:(lia)) as Hl.
    pose proof Hk as (? & _ & ? & _)%blk_get_Ok. rewrite Z.add_0_r in Hl.
    unfold aget. destruct (Z.leb_spec 0 i); [| lia]. cbn. by rewrite <- Hl.
  - unfold blk_get, aget in *.
    destruct (Z.leb_spec 0 i), (Z.leb_spec (i + 1) (Z.of_nat (length l))); cbn in *;
      try discriminate; try congruence.
    rewrite lookup_ge_None_2 by lia. congruence.
Qed.

Lemma aset_blk {A} (l : list A) i x : aset l i x = blk_put l i [x].
Proof.
  unfold aset, blk_put. cbn [length].
  destruct (Z.leb_spec 0 i), (Z.ltb_spec i (Z.of_nat (length l))),
    (Z.leb_spec (i + Z.of_nat 1) (Z.of_nat (length l))); cbn; try lia; try done.
Qed.

Lemma blk_get_Forall {A} (P : A → Prop) l i n k :
  blk_get l i n = Ok k → Forall P l → Forall P k.
Proof. intros (_ & _ & _ & ->)%blk_get_Ok H. by apply Forall_take, Forall_drop. Qed.

Section access_lemmas.
Variable be : bool.
Variable H : ExceptionType → Machine → result Machine.

(** The access itself, once the address is translated. *)
Lemma ReadMem_at m va size pa m1 :
  Translate m va size false = Ok (inr (pa, m1)) → mem_ok (mainMemory m1) → access_size size →
  ReadMem be H m va size = (bs ← blk_get (mainMemory m1) pa size; Ok (Some (int_of_bytes size bs), m1)).
Proof.
  intros Ht [_ Hbytes] Hsz. unfold ReadMem. rewrite Ht. cbn [rbind].
  assert (∀ bs, blk_get (mainMemory m1) pa size = Ok bs → Z.of_nat (length bs) = size ∧ Forall is_byte bs) as Hbs.
  { intros bs Hbs. split; [by eapply blk_get_length | by eapply blk_get_Forall]. }
  unfold int_of_bytes. destruct Hsz as [->|[->| ->]]; cbn [Z.eqb Pos.eqb].
  - rewrite aget_blk. destruct (blk_get _ _ _) as [bs|]; [| done]. cbn [rbind].
    destruct (Hbs bs eq_refl) as [Hl Hb]. destruct bs as [|b [|? ?]]; cbn in Hl; try lia.
    cbn. by rewrite Z.shiftl_0_l, Z.lor_0_r.
  - destruct (blk_get _ _ _) as [bs|]; [| done]. cbn [rbind]. destruct (Hbs bs eq_refl) as [Hl Hb].
    by rewrite load_short by (done || lia).
  - destruct (blk_get _ _ _) as [bs|]; [| done]. cbn [rbind]. destruct (Hbs bs eq_refl) as [Hl Hb].
    rewrite u32_s32, u32_id; [by rewrite load_word by (done || lia) |].
    unfold host_word. destruct be; (apply (le_decode_bound _ 4);
      [by rewrite ?length_reverse | by try apply reverse_bytes]).
Qed.

Lemma WriteMem_at m va size v pa m1 :
  Translate m va size true = Ok (inr (pa, m1)) → access_size size →
  WriteMem be H m va size v =
    (mem ← blk_put (mainMemory m1) pa (Z_to_little_endian size 8 v); Ok (true, with_memory m1 mem)).
Proof.
  intros Ht Hsz. unfold WriteMem. rewrite Ht. cbn [rbind].
  destruct Hsz as [->|[->| ->]]; cbn [Z.eqb Pos.eqb].
  - rewrite aset_blk. done.
  - by rewrite store_short.
  - by rewrite store_word.
Qed.

Lemma ReadMem_ok m pt va size pa :
  paged m pt → mem_ok (mainMemory m) → access_size size →
  misaligned va size = false → page_lookup pt va false = inr pa →
  ∃ bs, blk_get (mainMemory m) pa size = Ok bs ∧
    ReadMem be H m va size = Ok (Some (int_of_bytes size bs), touched m pt va false).
Proof.
  intros Hp Hmem Hsz Hal Hpl. destruct (page_lookup_bound _ _ _ _ _ Hsz Hal Hpl) as [? ?].
  pose proof (blk_get_in (mainMemory m) pa size) as Hg.
  destruct (blk_get (mainMemory m) pa size) as [bs|] eqn:Hbs;
    [| destruct Hg; destruct Hmem, Hsz as [->|[->| ->]]; lia].
  exists bs. split; [done |].
  rewrite (ReadMem_at m va size pa (touched m pt va false)); [| | done | done].
  - cbn. by rewrite Hbs.
  - by rewrite (Translate_page_table_eq m pt), Hal, Hpl by done.
Qed.

Lemma WriteMem_ok m pt va size v pa :
  paged m pt → mem_ok (mainMemory m) → access_size size →
  misaligned va size = false → page_lookup pt va true = inr pa →
  ∃ mem', blk_put (mainMemory m) pa (Z_to_little_endian size 8 v) = Ok mem' ∧
    WriteMem be H m va size v = Ok (true, with_memory (touched m pt va true) mem').
Proof.
  intros Hp [Hlen Hbytes] Hsz Hal Hpl.
  destruct (page_lookup_bound _ _ _ _ _ Hsz Hal Hpl) as [? ?].
  assert (Z.of_nat (length (Z_to_little_endian size 8 v)) = size) as Hl.
  { apply length_Z_to_little_endian. destruct Hsz as [->|[->| ->]]; lia. }
  eexists. rewrite blk_put_in by lia. split; [done |].
  rewrite (WriteMem_at m va size v pa (touched m pt va true)); [| | done].
  - cbn. by rewrite blk_put_in by lia.
  - by rewrite (Translate_page_table_eq m pt), Hal, Hpl by done.
Qed.

(** Translation changes nothing but use and dirty bits. *)
Definition same_state (m m1 : Machine) : Prop :=
  registers m1 = registers m ∧ mainMemory m1 = mainMemory m ∧ status m1 = status m.

Lemma Translate_keeps m va size w pa m1 : Translate m va size w = Ok (inr (pa, m1)) → same_state m m1.
Proof.
  unfold Translate. destruct (_ || _); [done |].
  intros ([] & _ & ([] & _ & (found & Hf & Ht)%bind_Ok)%bind_Ok)%bind_Ok.
  destruct found as [|[e put]]; [done |].
  assert (∀ e' m', put e' = Ok m' → same_state m m') as Hput.
  { clear Ht. destruct (tlb m) as [t|].
    - apply bind_Ok in Hf as ([|i] & _ & Hf); [done |]. apply bind_Ok in Hf as (e0 & _ & [= <- <-]).
      intros e' m' (t' & _ & [= <-])%bind_Ok. done.
    - destruct (pageTable m) as [pt|]; [| done]. destruct (_ <=? _); [done |].
      apply bind_Ok in Hf as (e0 & _ & Hf). destruct (negb _); [done |]. injection Hf as <- <-.
      intros e' m' (t' & _ & [= <-])%bind_Ok. done. }
  cbv zeta in Ht. destruct (readOnly e && w); [done |]. destruct (NumPhysPages <=? _); [done |].
  apply bind_Ok in Ht as (m' & Hm' & (? & _ & [= _ <-])%bind_Ok). by eapply Hput.
Qed.
Lemma Translate_raises m va size w ex : Translate m va size w = Ok (inl ex) → ex ≠ NoException.
Proof.
  unfold Translate. destruct (_ || _); [by intros [= <-] |].
  intros ([] & _ & ([] & _ & (found & Hf & Ht)%bind_Ok)%bind_Ok)%bind_Ok.
  destruct found as [ex'|[e put]].
  - injection Ht as ->. destruct (tlb m) as [t|].
    + apply bind_Ok in Hf as ([|i] & _ & Hf); [by injection Hf as <- |]. by apply bind_Ok in Hf as (e0 & _ & [=]).
    + destruct (pageTable m) as [pt|]; [| done]. destruct (_ <=? _); [by injection Hf as <- |].
      apply bind_Ok in Hf as (e0 & _ & Hf). destruct (negb _); [by injection Hf as <- | done].
  - cbv zeta in Ht. destruct (readOnly e && w); [by injection Ht as <- |].
    destruct (NumPhysPages <=? _); [by injection Ht as <- |]. by apply bind_Ok in Ht as (m' & _ & (? & _ & [=])%bind_Ok).
Qed.
End access_lemmas.

Lemma blk_put_mem_ok mem pa k mem' :
  blk_put mem pa k = Ok mem' → Forall is_byte k → mem_ok mem → mem_ok mem'.
Proof.
  intros Hp Hk [Hl Hb]. split; [by rewrite (blk_put_length _ _ _ _ Hp) |].
  rewrite Forall_lookup. intros i x Hx.
  rewrite <- (Nat2Z.id i) in Hx. rewrite (blk_put_lookup _ _ _ _ _ Hp) in Hx by lia.
  case_decide; by eapply Forall_lookup_1 in Hx.
Qed.

Lemma touch_lookup pt va w va' w' :
  page_lookup (touch pt va w) va' w' = page_lookup pt va' w'.
Proof.
  unfold page_lookup, touch.
  destruct (decide (Z.to_nat (u32 va / PageSize) = Z.to_nat (u32 va' / PageSize))) as [->|Hne].
  - rewrite list_lookup_alter_eq. by destruct (pt !! _) as [[]|].
  - by rewrite list_lookup_alter_ne by done.
Qed.

Lemma length_touch pt va w : length (touch pt va w) = length pt.
Proof. apply length_alter. Qed.

Lemma paged_touched m pt va w : paged m pt → paged (touched m pt va w) (touch pt va w).
Proof. intros (? & ? & ?). unfold paged, touched; cbn. by rewrite length_touch. Qed.

(** The frames a page table maps. *)
Definition frames (pt : list TranslationEntry) : list Z := (λ e, u32 (physicalPage e)) <$> pt.

Lemma page_lookup_frame pt va w pa :
  page_lookup pt va w = inr pa →
  ∃ f, f ∈ frames pt ∧ pa = f * PageSize + u32 va mod PageSize.
Proof.
  unfold page_lookup. destruct (pt !! _) as [e|] eqn:He; [|done].
  destruct (negb (valid e)), (readOnly e && w), (NumPhysPages <=? u32 (physicalPage e)); try done.
  intros [= <-]. eexists. split; [| done]. unfold frames.
  apply list_elem_of_fmap. exists e. split; [done |]. by eapply list_elem_of_lookup_2.
Qed.

(** ** Properties *)

(** C23: translation through a linear page table is total for accesses of 1, 2
    or 4 bytes: it yields the exception the hardware specifies for a
    misaligned, unmapped, invalid, read-only or out-of-range page, and
    otherwise the frame's address with the offset kept, inside physical
    memory, setting the use bit (and dirty bit on a write) of that page's
    entry and changing nothing else.  In particular its assertions hold.  An
    entry is invalid when its [valid] bit is clear, as translate.cc tests it; the
    comment in translate.h has it the other way round (a set bit is ignored). *)
Theorem Translate_spec m pt va size w
    (Hp : paged m pt) (Hsz : access_size size) :
  Translate m va size w = Ok (
    if misaligned va size then inl AddressErrorException
    else match page_lookup pt va w with
         | inl ex => inl ex
         | inr pa => inr (pa, touched m pt va w)
         end) ∧
  (misaligned va size = false → ∀ pa, page_lookup pt va w = inr pa →
     0 <= pa ∧ pa + size <= MemorySize).
Proof.
  split; [by apply Translate_page_table_eq |].
  intros Hal pa Hpa. by eapply page_lookup_bound.
Qed.

(** Two pages, the second read-only, on frames 5 and 3. *)
Definition demo_pt : list TranslationEntry :=
  [mkTE 0 5 true false false false; mkTE 1 3 true true false false].
Definition demo_machine : Machine := with_pageTable Machine_new (Some demo_pt) 2.

Lemma Translate_spec_witness :
  Translate demo_machine 300 4 false =
    Ok (inr (3 * 256 + 44, touched demo_machine demo_pt 300 false)) ∧
  Translate demo_machine 300 4 true = Ok (inl ReadOnlyException).
Proof.
  assert (paged demo_machine demo_pt) as Hp by (split_and!; reflexivity).
  assert (access_size 4) as Hs by (right; right; reflexivity).
  split.
  - rewrite (proj1 (Translate_spec demo_machine demo_pt 300 4 false Hp Hs)). reflexivity.
  - rewrite (proj1 (Translate_spec demo_machine demo_pt 300 4 true Hp Hs)). reflexivity.
Defined.

(** A store that succeeds can be read back at the same virtual address
    and size, and yields the stored value truncated to that size: sign-extended
    for a byte, zero-extended for a half word, the [int] itself for a word.
    The handler is never called by the read. *)
Theorem WriteMem_ReadMem be H m m' pt va size v
    (Hp : paged m pt) (Hm : mem_ok (mainMemory m)) (Hsz : access_size size)
    (Hal : misaligned va size = false) (Hpg : ∃ pa, page_lookup pt va true = inr pa)
    (Hw : WriteMem be H m va size v = Ok (true, m')) :
  ∃ m'', ReadMem be H m' va size =
    Ok (Some (if size =? 1 then s8 (v mod 2 ^ 8) else if size =? 2 then v mod 2 ^ 16 else s32 v), m'').
Proof.
  destruct Hpg as [pa Hpa].
  destruct (WriteMem_ok be H m pt va size v pa) as (mem' & Hput & Hw'); [done.. |].
  rewrite Hw' in Hw. injection Hw as <-.
  assert (page_lookup (touch pt va true) va false = inr pa) as Hpa'.
  { rewrite touch_lookup. unfold page_lookup in *. destruct (pt !! _) as [e|]; [|done].
    destruct (negb (valid e)); [done |]. destruct (readOnly e); [done |]. done. }
  assert (Forall is_byte (Z_to_little_endian size 8 v)) as Hb.
  { apply le_is_byte. destruct Hsz as [->|[->| ->]]; lia. }
  destruct (ReadMem_ok be H (with_memory (touched m pt va true) mem') (touch pt va true) va size pa)
    as (bs & Hget & Hr); [by apply (paged_touched m pt va true) | | done..|].
  { by eapply blk_put_mem_ok. }
  rewrite Hr. eexists. repeat f_equal. clear Hr.
  pose proof (blk_get_put_same _ _ _ _ Hput) as Hsame.
  rewrite length_Z_to_little_endian in Hsame by (destruct Hsz as [->|[->| ->]]; lia).
  cbn in Hget. rewrite Hsame in Hget. injection Hget as <-.
  unfold int_of_bytes. rewrite little_endian_to_Z_to_little_endian
    by (destruct Hsz as [->|[->| ->]]; lia).
  destruct Hsz as [->|[->| ->]]; try done. apply s32_u32.
Qed.

Lemma WriteMem_ReadMem_witness :
  ∃ m' m'', WriteMem false (λ _ m, Ok m) demo_machine 40 4 (-2) = Ok (true, m') ∧
    ReadMem false (λ _ m, Ok m) m' 40 4 = Ok (Some (-2), m'').
Proof.
  assert (mem_ok (mainMemory demo_machine)) as Hm.
  { split; [vm_compute; reflexivity |]. apply Forall_replicate. unfold is_byte. lia. }
  destruct (WriteMem_ok false (λ _ m, Ok m) demo_machine demo_pt 40 4 (-2) (5 * 256 + 40))
    as (mem' & _ & Hw); [split_and!; reflexivity | exact Hm | right; right; reflexivity |
                         reflexivity | reflexivity |].
  destruct (WriteMem_ReadMem false (λ _ m, Ok m) demo_machine _ demo_pt 40 4 (-2)
    ltac:(split_and!; reflexivity) Hm ltac:(right; right; reflexivity) ltac:(reflexivity)
    ltac:(exists (5 * 256 + 40); reflexivity) Hw) as [m'' Hr].
  eexists _, m''. split; [exact Hw | exact Hr].
Defined.

(** What user programs see does not depend on the byte order of the host:
    on every machine whose memory holds bytes, loads and stores of 1, 2 and 4
    bytes through a page table give the same values, the same memory and the
    same traps on a big-endian and a little-endian host. *)
Theorem access_host_independent H m pt va size v
    (Hp : paged m pt) (Hm : mem_ok (mainMemory m)) (Hsz : access_size size) :
  ReadMem true H m va size = ReadMem false H m va size ∧
  WriteMem true H m va size v = WriteMem false H m va size v.
Proof.
  split.
  - destruct (misaligned va size) eqn:Hal; [| destruct (page_lookup pt va false) as [ex|pa] eqn:Hpa].
    + unfold ReadMem. by rewrite (Translate_page_table_eq m pt), Hal by done.
    + unfold ReadMem. by rewrite (Translate_page_table_eq m pt), Hal, Hpa by done.
    + destruct (ReadMem_ok true H m pt va size pa) as (b1 & H1 & ->); [done.. |].
      destruct (ReadMem_ok false H m pt va size pa) as (b2 & H2 & ->); [done.. |].
      congruence.
  - destruct (misaligned va size) eqn:Hal; [| destruct (page_lookup pt va true) as [ex|pa] eqn:Hpa].
    + unfold WriteMem. by rewrite (Translate_page_table_eq m pt), Hal by done.
    + unfold WriteMem. by rewrite (Translate_page_table_eq m pt), Hal, Hpa by done.
    + destruct (WriteMem_ok true H m pt va size v pa) as (b1 & H1 & ->); [done.. |].
      destruct (WriteMem_ok false H m pt va size v pa) as (b2 & H2 & ->); [done.. |].
      congruence.
Qed.

Lemma access_host_independent_witness :
  WriteMem true (λ _ m, Ok m) demo_machine 40 4 77 = WriteMem false (λ _ m, Ok m) demo_machine 40 4 77.
Proof.
  apply (access_host_independent (λ _ m, Ok m) demo_machine demo_pt 40 4 77).
  - split_and!; reflexivity.
  - split; [vm_compute; reflexivity |]. apply Forall_replicate. unfold is_byte. lia.
  - right; right; reflexivity.
Defined.

(** C24: isolation.  A store through page table [pt1], whatever its address,
    leaves every byte outside the frames of [pt1] alone; so a process whose
    page table [pt2] maps other frames reads, at any address, what it read
    before the store. *)
Theorem address_spaces_isolated be H m m' pt1 pt2 va1 size1 v va2 size2
    (Hp : paged m pt1) (Hm : mem_ok (mainMemory m))
    (Hsz1 : access_size size1) (Hsz2 : access_size size2)
    (Hdisj : ∀ f, f ∈ frames pt1 → f ∈ frames pt2 → False)
    (Hal2 : misaligned va2 size2 = false) (Hpg2 : ∃ pa, page_lookup pt2 va2 false = inr pa)
    (Hw : WriteMem be H m va1 size1 v = Ok (true, m')) (Hal1 : misaligned va1 size1 = false)
    (Hpg1 : ∃ pa, page_lookup pt1 va1 true = inr pa) :
  ∃ r m1 m2,
    ReadMem be H (with_pageTable m (Some pt2) (Z.of_nat (length pt2))) va2 size2 = Ok (Some r, m1) ∧
    ReadMem be H (with_pageTable m' (Some pt2) (Z.of_nat (length pt2))) va2 size2 = Ok (Some r, m2).
Proof.
  destruct Hpg1 as [pa1 Hpa1], Hpg2 as [pa2 Hpa2].
  destruct (WriteMem_ok be H m pt1 va1 size1 v pa1) as (mem' & Hput & Hw'); [done.. |].
  rewrite Hw' in Hw. injection Hw as <-.
  assert (Forall is_byte (Z_to_little_endian size1 8 v)) as Hb.
  { apply le_is_byte. destruct Hsz1 as [->|[->| ->]]; lia. }
  pose proof (blk_put_mem_ok _ _ _ _ Hput Hb Hm) as Hm'.
  destruct (page_lookup_frame _ _ _ _ Hpa1) as (f1 & Hf1 & Heq1).
  destruct (page_lookup_frame _ _ _ _ Hpa2) as (f2 & Hf2 & Heq2).
  assert (f1 ≠ f2) as Hne by (intros ->; by eapply Hdisj).
  destruct Hp as (Ht & _).
  destruct (ReadMem_ok be H (with_pageTable m (Some pt2) (Z.of_nat (length pt2))) pt2 va2 size2 pa2)
    as (b1 & Hg1 & Hr1); [split_and!; done | done..|].
  destruct (ReadMem_ok be H (with_pageTable (with_memory (touched m pt1 va1 true) mem')
    (Some pt2) (Z.of_nat (length pt2))) pt2 va2 size2 pa2)
    as (b2 & Hg2 & Hr2); [split_and!; done | done..|].
  cbn in Hg1, Hg2. rewrite (blk_get_put_disjoint _ _ _ _ _ _ Hput), Hg1 in Hg2.
  - injection Hg2 as ->. by eexists _, _, _.
  - rewrite length_Z_to_little_endian by (destruct Hsz1 as [->|[->| ->]]; lia).
    pose proof (aligned_in_page va1 size1 Hsz1 Hal1).
    pose proof (aligned_in_page va2 size2 Hsz2 Hal2).
    pose proof (Z.mod_pos_bound (u32 va1) PageSize). pose proof (Z.mod_pos_bound (u32 va2) PageSize).
    unfold PageSize in *. nia || lia.
Qed.

Definition demo_pt2 : list TranslationEntry := [mkTE 0 7 true false false false].

Lemma address_spaces_isolated_witness :
  ∃ m' r m1 m2, WriteMem false (λ _ m, Ok m) demo_machine 40 4 99 = Ok (true, m') ∧
    ReadMem false (λ _ m, Ok m) (with_pageTable demo_machine (Some demo_pt2) (Z.of_nat (length demo_pt2)))
      40 4 = Ok (Some r, m1) ∧
    ReadMem false (λ _ m, Ok m) (with_pageTable m' (Some demo_pt2) (Z.of_nat (length demo_pt2)))
      40 4 = Ok (Some r, m2).
Proof.
  assert (mem_ok (mainMemory demo_machine)) as Hm.
  { split; [vm_compute; reflexivity |]. apply Forall_replicate. unfold is_byte. lia. }
  destruct (WriteMem_ok false (λ _ m, Ok m) demo_machine demo_pt 40 4 99 (5 * 256 + 40))
    as (mem' & _ & Hw); [split_and!; reflexivity | exact Hm | right; right; reflexivity |
                         reflexivity | reflexivity |].
  destruct (address_spaces_isolated false (λ _ m, Ok m) demo_machine
    (with_memory (touched demo_machine demo_pt 40 true) mem') demo_pt
    demo_pt2 40 4 99 40 4) as (r & m1 & m2 & H1 & H2);
    [split_and!; reflexivity | exact Hm | right; right; reflexivity.. | |
     reflexivity | exists (7 * 256 + 40); reflexivity | exact Hw | reflexivity |
     exists (5 * 256 + 40); reflexivity |].
  - intros f. change (frames demo_pt) with [5; 3]. change (frames demo_pt2) with [7].
    rewrite !elem_of_cons, elem_of_nil. lia.
  - exists (with_memory (touched demo_machine demo_pt 40 true) mem'), r, m1, m2.
    split; [exact Hw |]. split; [exact H1 | exact H2].
Defined.
