(* ===== verification/Mips.v ===== *)
(** * The MIPS processor (machine/mipssim.h, machine/mipssim.cc)

    Instruction decoding and the execution of one user instruction, built with
    [SIM_FIX] as in build.linux/Makefile.  Machine arithmetic wraps around at
    32 bits, as the simulator relies on; the one host operation that traps
    instead, the signed division of -2^31 by -1, is the fault [Undefined]. *)

From S2P Require Import Prelude Machine.
Local Open Scope Z_scope.

Inductive opcode :=
  | OP_ADD | OP_ADDI | OP_ADDIU | OP_ADDU | OP_AND | OP_ANDI | OP_BEQ | OP_BGEZ
  | OP_BGEZAL | OP_BGTZ | OP_BLEZ | OP_BLTZ | OP_BLTZAL | OP_BNE | OP_DIV | OP_DIVU
  | OP_J | OP_JAL | OP_JALR | OP_JR | OP_LB | OP_LBU | OP_LH | OP_LHU | OP_LUI | OP_LW
  | OP_LWL | OP_LWR | OP_MFHI | OP_MFLO | OP_MTHI | OP_MTLO | OP_MULT | OP_MULTU
  | OP_NOR | OP_OR | OP_ORI | OP_RFE | OP_SB | OP_SH | OP_SLL | OP_SLLV | OP_SLT
  | OP_SLTI | OP_SLTIU | OP_SLTU | OP_SRA | OP_SRAV | OP_SRL | OP_SRLV | OP_SUB
  | OP_SUBU | OP_SW | OP_SWL | OP_SWR | OP_XOR | OP_XORI | OP_SYSCALL | OP_UNIMP | OP_RES
  | SPECIAL | BCOND.

#[export] Instance opcode_eq_dec : EqDecision opcode.
Proof. solve_decision. Defined.

Inductive format := IFMT | JFMT | RFMT.

Definition IndexToAddr (x : Z) : Z := s32 (Z.shiftl x 2).
Definition SIGN_BIT : Z := 0x80000000.
Definition R31 : Z := 31.

(** Bits 31:26 of an instruction. *)
Definition opTable : list (opcode * format) := [
  (SPECIAL, RFMT); (BCOND, IFMT); (OP_J, JFMT); (OP_JAL, JFMT);
  (OP_BEQ, IFMT); (OP_BNE, IFMT); (OP_BLEZ, IFMT); (OP_BGTZ, IFMT);
  (OP_ADDI, IFMT); (OP_ADDIU, IFMT); (OP_SLTI, IFMT); (OP_SLTIU, IFMT);
  (OP_ANDI, IFMT); (OP_ORI, IFMT); (OP_XORI, IFMT); (OP_LUI, IFMT);
  (OP_UNIMP, IFMT); (OP_UNIMP, IFMT); (OP_UNIMP, IFMT); (OP_UNIMP, IFMT);
  (OP_RES, IFMT); (OP_RES, IFMT); (OP_RES, IFMT); (OP_RES, IFMT);
  (OP_RES, IFMT); (OP_RES, IFMT); (OP_RES, IFMT); (OP_RES, IFMT);
  (OP_RES, IFMT); (OP_RES, IFMT); (OP_RES, IFMT); (OP_RES, IFMT);
  (OP_LB, IFMT); (OP_LH, IFMT); (OP_LWL, IFMT); (OP_LW, IFMT);
  (OP_LBU, IFMT); (OP_LHU, IFMT); (OP_LWR, IFMT); (OP_RES, IFMT);
  (OP_SB, IFMT); (OP_SH, IFMT); (OP_SWL, IFMT); (OP_SW, IFMT);
  (OP_RES, IFMT); (OP_RES, IFMT); (OP_SWR, IFMT); (OP_RES, IFMT);
  (OP_UNIMP, IFMT); (OP_UNIMP, IFMT); (OP_UNIMP, IFMT); (OP_UNIMP, IFMT);
  (OP_RES, IFMT); (OP_RES, IFMT); (OP_RES, IFMT); (OP_RES, IFMT);
  (OP_UNIMP, IFMT); (OP_UNIMP, IFMT); (OP_UNIMP, IFMT); (OP_UNIMP, IFMT);
  (OP_RES, IFMT); (OP_RES, IFMT); (OP_RES, IFMT); (OP_RES, IFMT) ].

(** The "funct" field of SPECIAL instructions. *)
Definition specialTable : list opcode := [
  OP_SLL; OP_RES; OP_SRL; OP_SRA; OP_SLLV; OP_RES; OP_SRLV; OP_SRAV;
  OP_JR; OP_JALR; OP_RES; OP_RES; OP_SYSCALL; OP_UNIMP; OP_RES; OP_RES;
  OP_MFHI; OP_MTHI; OP_MFLO; OP_MTLO; OP_RES; OP_RES; OP_RES; OP_RES;
  OP_MULT; OP_MULTU; OP_DIV; OP_DIVU; OP_RES; OP_RES; OP_RES; OP_RES;
  OP_ADD; OP_ADDU; OP_SUB; OP_SUBU; OP_AND; OP_OR; OP_XOR; OP_NOR;
  OP_RES; OP_RES; OP_SLT; OP_SLTU; OP_RES; OP_RES; OP_RES; OP_RES;
  OP_RES; OP_RES; OP_RES; OP_RES; OP_RES; OP_RES; OP_RES; OP_RES;
  OP_RES; OP_RES; OP_RES; OP_RES; OP_RES; OP_RES; OP_RES; OP_RES ].

(** [value] is the undecoded word, an [unsigned int]. *)
Record Instruction := mkInstr {
  value : Z; opCode : opcode; rs : Z; rt : Z; rd : Z; extra : Z }.

Definition Decode (value : Z) : result Instruction :=
  let rs := Z.land (Z.shiftr value 21) 0x1f in
  let rt := Z.land (Z.shiftr value 16) 0x1f in
  let rd := Z.land (Z.shiftr value 11) 0x1f in
  '(op, fmt) ← aget opTable (Z.land (Z.shiftr value 26) 0x3f);
  let extra :=
    match fmt with
    | IFMT =>
        let extra := Z.land value 0xffff in
        if negb (Z.land extra 0x8000 =? 0) then s32 (Z.lor extra 0xffff0000) else extra
    | RFMT => Z.land (Z.shiftr value 6) 0x1f
    | JFMT => Z.land value 0x3ffffff
    end in
  op ← match op with
    | SPECIAL => aget specialTable (Z.land value 0x3f)
    | BCOND =>
        let i := Z.land value 0x1f0000 in
        if i =? 0 then Ok OP_BLTZ
        else if i =? 0x10000 then Ok OP_BGEZ
        else if i =? 0x100000 then Ok OP_BLTZAL
        else if i =? 0x110000 then Ok OP_BGEZAL
        else Ok OP_UNIMP
    | op => Ok op
    end;
  Ok (mkInstr value op rs rt rd extra).

(** [Mult]: returns the pair stored through [hiPtr] and [loPtr]. *)
Record mult_state := mkMult { mu_a : Z; mu_bLo : Z; mu_bHi : Z; mu_lo : Z; mu_hi : Z }.

Definition mult_step (s : mult_state) : mult_state + mult_state :=
  let '(lo, hi) :=
    if negb (Z.land (mu_a s) 1 =? 0) then
      let lo := u32 (mu_lo s + mu_bLo s) in
      let hi := if lo <? mu_bLo s then u32 (mu_hi s + 1) else mu_hi s in
      (lo, u32 (hi + mu_bHi s))
    else (mu_lo s, mu_hi s) in
  if negb (Z.land (mu_a s) 1 =? 0) && (Z.land (u32 (mu_a s)) 0xfffffffe =? 0)
  then inr (mkMult (mu_a s) (mu_bLo s) (mu_bHi s) lo hi)
  else
    let bHi := u32 (Z.shiftl (mu_bHi s) 1) in
    let bHi := if negb (Z.land (mu_bLo s) 0x80000000 =? 0) then Z.lor bHi 1 else bHi in
    inl (mkMult (Z.shiftr (mu_a s) 1) (u32 (Z.shiftl (mu_bLo s) 1)) bHi lo hi).

Definition Mult (a b : Z) (signedArith : bool) : result (Z * Z) :=
  if (a =? 0) || (b =? 0) then Ok (0, 0)
  else
    let negative := false in
    let '(negative, a) :=
      if signedArith && (a <? 0) then (negb negative, s32 (- a)) else (negative, a) in
    let '(negative, b) :=
      if signedArith && (b <? 0) then (negb negative, s32 (- b)) else (negative, b) in
    r ← for_ret 0 32 (λ _ s, Ok (mult_step s)) (mkMult a (u32 b) 0 0 0);
    let s := match r with inl s | inr s => s end in
    let '(hi, lo) :=
      if negative then
        let hi := u32 (Z.lnot (mu_hi s)) in
        let lo := u32 (u32 (Z.lnot (mu_lo s)) + 1) in
        (if lo =? 0 then u32 (hi + 1) else hi, lo)
      else (mu_hi s, mu_lo s) in
    Ok (s32 hi, s32 lo).

(** ** Executing one instruction

    [Done m pcAfter reg val] is an instruction that reached the end of the
    switch with the delayed load (reg, val); [Trapped m] one that returned
    early, after an exception was delivered to the kernel. *)
Inductive outcome :=
  | Done (m : Machine) (pcAfter nextLoadReg nextLoadValue : Z)
  | Trapped (m : Machine).

Section execute.
Variable big_endian : bool.
Variable ExceptionHandler : ExceptionType → Machine → result Machine.

Let ReadMem := ReadMem big_endian ExceptionHandler.
Let WriteMem := WriteMem big_endian ExceptionHandler.

Definition trap (m : Machine) (which : ExceptionType) (addr : Z) : result outcome :=
  m ← RaiseException ExceptionHandler m which addr;
  Ok (Trapped m).

(** [registers[r]] read and written. *)
Definition get (m : Machine) (r : Z) : result Z := aget (registers m) r.
Definition put (m : Machine) (r v : Z) : result Machine :=
  regs ← aset (registers m) r v; Ok (with_registers m regs).

(** An instruction whose only effect is on register [r]. *)
Definition set (m : Machine) (r v pcAfter : Z) : result outcome :=
  m ← put m r v; Ok (Done m pcAfter 0 0).

Definition exec_add_and (m : Machine) (i : Instruction) (pcAfter : Z) : result outcome :=
  vs ← get m (rs i);
  vt ← get m (rt i);
  match opCode i with
  | OP_ADD =>
      let sum := s32 (vs + vt) in
      if (Z.land (u32 (Z.lxor vs vt)) SIGN_BIT =? 0)
         && negb (Z.land (u32 (Z.lxor vs sum)) SIGN_BIT =? 0)
      then trap m OverflowException 0
      else set m (rd i) sum pcAfter
  | OP_ADDI =>
      let sum := s32 (vs + extra i) in
      if (Z.land (u32 (Z.lxor vs (extra i))) SIGN_BIT =? 0)
         && negb (Z.land (u32 (Z.lxor (extra i) sum)) SIGN_BIT =? 0)
      then trap m OverflowException 0
      else set m (rt i) sum pcAfter
  | OP_ADDIU => set m (rt i) (s32 (vs + extra i)) pcAfter
  | OP_ADDU => set m (rd i) (s32 (vs + vt)) pcAfter
  | OP_AND => set m (rd i) (Z.land vs vt) pcAfter
  | OP_ANDI => set m (rt i) (Z.land vs (Z.land (extra i) 0xffff)) pcAfter
  | _ => Fail AssertFailed
  end.

(** BGEZAL and BLTZAL set the link register and fall through. *)
Definition exec_branch (m : Machine) (i : Instruction) (pcAfter : Z) : result outcome :=
  npc ← get m NextPCReg;
  m ← match opCode i with
      | OP_BGEZAL | OP_BLTZAL => put m R31 (s32 (npc + 4))
      | _ => Ok m
      end;
  vs ← get m (rs i);
  vt ← get m (rt i);
  let target := s32 (npc + IndexToAddr (extra i)) in
  let taken :=
    match opCode i with
    | OP_BEQ => vs =? vt
    | OP_BGEZAL | OP_BGEZ => Z.land (u32 vs) SIGN_BIT =? 0
    | OP_BGTZ => vs >? 0
    | OP_BLEZ => vs <=? 0
    | OP_BLTZAL | OP_BLTZ => negb (Z.land (u32 vs) SIGN_BIT =? 0)
    | _ => negb (vs =? vt)
    end in
  Ok (Done m (if taken then target else pcAfter) 0 0).

(** [INT_MIN / -1] traps on the host: [Undefined]. *)
Definition exec_div (m : Machine) (i : Instruction) (pcAfter : Z) : result outcome :=
  vs ← get m (rs i);
  vt ← get m (rt i);
  '(lo, hi) ← match opCode i with
    | OP_DIV =>
        if vt =? 0 then Ok (0, 0)
        else if (vs =? - 2 ^ 31) && (vt =? -1) then Fail Undefined
        else Ok (Z.quot vs vt, Z.rem vs vt)
    | _ =>
        if u32 vt =? 0 then Ok (0, 0)
        else Ok (s32 (u32 vs / u32 vt), s32 (u32 vs mod u32 vt))
    end;
  m ← put m LoReg lo;
  m ← put m HiReg hi;
  Ok (Done m pcAfter 0 0).

(** JALR writes the link register before it reads the target. *)
Definition exec_jump (m : Machine) (i : Instruction) (pcAfter : Z) : result outcome :=
  npc ← get m NextPCReg;
  m ← match opCode i with
      | OP_JAL => put m R31 (s32 (npc + 4))
      | OP_JALR => put m (rd i) (s32 (npc + 4))
      | _ => Ok m
      end;
  match opCode i with
  | OP_JAL | OP_J =>
      Ok (Done m (s32 (Z.lor (Z.land (u32 pcAfter) 0xf0000000) (u32 (IndexToAddr (extra i))))) 0 0)
  | _ => vs ← get m (rs i); Ok (Done m vs 0 0)
  end.

Definition exec_load (m : Machine) (i : Instruction) (pcAfter : Z) : result outcome :=
  vs ← get m (rs i);
  let tmp := s32 (vs + extra i) in
  match opCode i with
  | OP_LB | OP_LBU =>
      '(v, m) ← ReadMem m tmp 1;
      match v with
      | None => Ok (Trapped m)
      | Some v =>
          let v := if negb (Z.land v 0x80 =? 0) && bool_decide (opCode i = OP_LB)
                   then s32 (Z.lor (u32 v) 0xffffff00) else Z.land v 0xff in
          Ok (Done m pcAfter (rt i) v)
      end
  | OP_LH | OP_LHU =>
      if negb (Z.land tmp 1 =? 0) then trap m AddressErrorException tmp
      else
        '(v, m) ← ReadMem m tmp 2;
        match v with
        | None => Ok (Trapped m)
        | Some v =>
            let v := if negb (Z.land v 0x8000 =? 0) && bool_decide (opCode i = OP_LH)
                     then s32 (Z.lor (u32 v) 0xffff0000) else Z.land v 0xffff in
            Ok (Done m pcAfter (rt i) v)
        end
  | OP_LUI => set m (rt i) (s32 (Z.shiftl (extra i) 16)) pcAfter
  | OP_LW =>
      if negb (Z.land tmp 3 =? 0) then trap m AddressErrorException tmp
      else
        '(v, m) ← ReadMem m tmp 4;
        match v with
        | None => Ok (Trapped m)
        | Some v => Ok (Done m pcAfter (rt i) v)
        end
  | _ => Fail AssertFailed
  end.

(** The register half of LWL/LWR: the pending delayed load counts. *)
Definition merge_lwl (byte old value : Z) : Z :=
  match 3 - byte with
  | 0 => value
  | 1 => s32 (Z.lor (Z.land old 0xff) (Z.shiftl value 8))
  | 2 => s32 (Z.lor (Z.land old 0xffff) (Z.shiftl value 16))
  | _ => s32 (Z.lor (Z.land old 0xffffff) (Z.shiftl value 24))
  end.
Definition merge_lwr (byte old value : Z) : Z :=
  match 3 - byte with
  | 0 => s32 (Z.lor (Z.land (u32 old) 0xffffff00) (Z.land (Z.shiftr value 24) 0xff))
  | 1 => s32 (Z.lor (Z.land (u32 old) 0xffff0000) (Z.land (Z.shiftr value 16) 0xffff))
  | 2 => s32 (Z.lor (Z.land (u32 old) 0xff000000) (Z.land (Z.shiftr value 8) 0xffffff))
  | _ => value
  end.

Definition exec_load_unaligned (m : Machine) (i : Instruction) (pcAfter : Z) : result outcome :=
  vs ← get m (rs i);
  let tmp := s32 (vs + extra i) in
  let byte := Z.land tmp 3 in
  '(v, m) ← ReadMem m (tmp - byte) 4;
  match v with
  | None => Ok (Trapped m)
  | Some v =>
      lr ← get m LoadReg;
      old ← (if lr =? rt i then get m LoadValueReg else get m (rt i));
      Ok (Done m pcAfter (rt i)
           (match opCode i with OP_LWL => merge_lwl byte old v | _ => merge_lwr byte old v end))
  end.

Definition exec_hilo (m : Machine) (i : Instruction) (pcAfter : Z) : result outcome :=
  match opCode i with
  | OP_MFHI => v ← get m HiReg; set m (rd i) v pcAfter
  | OP_MFLO => v ← get m LoReg; set m (rd i) v pcAfter
  | OP_MTHI => v ← get m (rs i); set m HiReg v pcAfter
  | OP_MTLO => v ← get m (rs i); set m LoReg v pcAfter
  | op =>
      vs ← get m (rs i);
      vt ← get m (rt i);
      '(hi, lo) ← Mult vs vt (bool_decide (op = OP_MULT));
      m ← put m HiReg hi;
      m ← put m LoReg lo;
      Ok (Done m pcAfter 0 0)
  end.

Definition exec_logic (m : Machine) (i : Instruction) (pcAfter : Z) : result outcome :=
  vs ← get m (rs i);
  vt ← get m (rt i);
  match opCode i with
  | OP_NOR => set m (rd i) (Z.lnot (Z.lor vs vt)) pcAfter
  | OP_OR => set m (rd i) (Z.lor vs vt) pcAfter
  | OP_ORI => set m (rt i) (Z.lor vs (Z.land (extra i) 0xffff)) pcAfter
  | _ => Fail AssertFailed
  end.

Definition exec_xor (m : Machine) (i : Instruction) (pcAfter : Z) : result outcome :=
  vs ← get m (rs i);
  vt ← get m (rt i);
  match opCode i with
  | OP_XOR => set m (rd i) (Z.lxor vs vt) pcAfter
  | _ => set m (rt i) (Z.lxor vs (Z.land (extra i) 0xffff)) pcAfter
  end.

(** SB and SH: the [(unsigned)] address is passed as an [int]. *)
Definition exec_store (m : Machine) (i : Instruction) (pcAfter : Z) : result outcome :=
  vs ← get m (rs i);
  vt ← get m (rt i);
  let size := match opCode i with OP_SB => 1 | _ => 2 end in
  '(ok, m) ← WriteMem m (s32 (u32 (s32 (vs + extra i)))) size vt;
  Ok (if ok : bool then Done m pcAfter 0 0 else Trapped m).

Definition exec_sw (m : Machine) (i : Instruction) (pcAfter : Z) : result outcome :=
  vs ← get m (rs i);
  vt ← get m (rt i);
  '(ok, m) ← WriteMem m (s32 (u32 (s32 (vs + extra i)))) 4 vt;
  Ok (if ok : bool then Done m pcAfter 0 0 else Trapped m).

(** The right shifts of SRL and SRLV go through the [int] variable [tmp]. *)
Definition exec_shift_slt (m : Machine) (i : Instruction) (pcAfter : Z) : result outcome :=
  vs ← get m (rs i);
  vt ← get m (rt i);
  let bit (b : bool) := if b then 1 else 0 in
  match opCode i with
  | OP_SLL => set m (rd i) (s32 (Z.shiftl vt (extra i))) pcAfter
  | OP_SLLV => set m (rd i) (s32 (Z.shiftl vt (Z.land vs 0x1f))) pcAfter
  | OP_SLT => set m (rd i) (bit (vs <? vt)) pcAfter
  | OP_SLTI => set m (rt i) (bit (vs <? extra i)) pcAfter
  | OP_SLTIU => set m (rt i) (bit (u32 vs <? u32 (extra i))) pcAfter
  | OP_SLTU => set m (rd i) (bit (u32 vs <? u32 vt)) pcAfter
  | OP_SRA => set m (rd i) (Z.shiftr vt (extra i)) pcAfter
  | OP_SRAV => set m (rd i) (Z.shiftr vt (Z.land vs 0x1f)) pcAfter
  | OP_SRL => let tmp := vt in set m (rd i) (Z.shiftr tmp (extra i)) pcAfter
  | OP_SRLV => let tmp := vt in set m (rd i) (Z.shiftr tmp (Z.land vs 0x1f)) pcAfter
  | _ => Fail AssertFailed
  end.

Definition exec_sub (m : Machine) (i : Instruction) (pcAfter : Z) : result outcome :=
  vs ← get m (rs i);
  vt ← get m (rt i);
  let diff := s32 (vs - vt) in
  match opCode i with
  | OP_SUB =>
      if negb (Z.land (u32 (Z.lxor vs vt)) SIGN_BIT =? 0)
         && negb (Z.land (u32 (Z.lxor vs diff)) SIGN_BIT =? 0)
      then trap m OverflowException 0
      else set m (rd i) diff pcAfter
  | _ => set m (rd i) diff pcAfter
  end.

Definition merge_swl (byte reg value : Z) : Z :=
  match 3 - byte with
  | 0 => reg
  | 1 => s32 (Z.lor (Z.land (u32 value) 0xff000000) (Z.land (Z.shiftr reg 8) 0xffffff))
  | 2 => s32 (Z.lor (Z.land (u32 value) 0xffff0000) (Z.land (Z.shiftr reg 16) 0xffff))
  | _ => s32 (Z.lor (Z.land (u32 value) 0xffffff00) (Z.land (Z.shiftr reg 24) 0xff))
  end.
Definition merge_swr (byte reg value : Z) : Z :=
  match 3 - byte with
  | 0 => s32 (Z.lor (Z.land value 0xffffff) (Z.shiftl reg 24))
  | 1 => s32 (Z.lor (Z.land value 0xffff) (Z.shiftl reg 16))
  | 2 => s32 (Z.lor (Z.land value 0xff) (Z.shiftl reg 8))
  | _ => reg
  end.

Definition exec_store_unaligned (m : Machine) (i : Instruction) (pcAfter : Z) : result outcome :=
  vs ← get m (rs i);
  let tmp := s32 (vs + extra i) in
  let byte := Z.land tmp 3 in
  '(v, m) ← ReadMem m (tmp - byte) 4;
  match v with
  | None => Ok (Trapped m)
  | Some v =>
      vt ← get m (rt i);
      '(ok, m) ← WriteMem m (tmp - byte) 4
        (match opCode i with OP_SWL => merge_swl byte vt v | _ => merge_swr byte vt v end);
      Ok (if ok : bool then Done m pcAfter 0 0 else Trapped m)
  end.

(** The switch.  OP_RFE and the two table markers have no case: they reach
    the default, [ASSERT(FALSE)]. *)
Definition execute (m : Machine) (i : Instruction) (pcAfter : Z) : result outcome :=
  match opCode i with
  | OP_ADD | OP_ADDI | OP_ADDIU | OP_ADDU | OP_AND | OP_ANDI => exec_add_and m i pcAfter
  | OP_BEQ | OP_BGEZ | OP_BGEZAL | OP_BGTZ | OP_BLEZ | OP_BLTZ | OP_BLTZAL | OP_BNE =>
      exec_branch m i pcAfter
  | OP_DIV | OP_DIVU => exec_div m i pcAfter
  | OP_J | OP_JAL | OP_JALR | OP_JR => exec_jump m i pcAfter
  | OP_LB | OP_LBU | OP_LH | OP_LHU | OP_LUI | OP_LW => exec_load m i pcAfter
  | OP_LWL | OP_LWR => exec_load_unaligned m i pcAfter
  | OP_MFHI | OP_MFLO | OP_MTHI | OP_MTLO | OP_MULT | OP_MULTU => exec_hilo m i pcAfter
  | OP_NOR | OP_OR | OP_ORI => exec_logic m i pcAfter
  | OP_XOR | OP_XORI => exec_xor m i pcAfter
  | OP_SB | OP_SH => exec_store m i pcAfter
  | OP_SW => exec_sw m i pcAfter
  | OP_SLL | OP_SLLV | OP_SLT | OP_SLTI | OP_SLTIU | OP_SLTU
  | OP_SRA | OP_SRAV | OP_SRL | OP_SRLV => exec_shift_slt m i pcAfter
  | OP_SUB | OP_SUBU => exec_sub m i pcAfter
  | OP_SWL | OP_SWR => exec_store_unaligned m i pcAfter
  | OP_SYSCALL => trap m SyscallException 0
  | OP_RES | OP_UNIMP => trap m IllegalInstrException 0
  | OP_RFE | SPECIAL | BCOND => Fail AssertFailed
  end.

(** Fetch, decode, execute; then the delayed load and the program counters. *)
Definition OneInstruction (m : Machine) : result Machine :=
  pc ← get m PCReg;
  '(raw, m) ← ReadMem m pc 4;
  match raw with
  | None => Ok m
  | Some raw =>
      i ← Decode (u32 raw);
      npc ← get m NextPCReg;
      o ← execute m i (s32 (npc + 4));
      match o with
      | Trapped m => Ok m
      | Done m pcAfter nextLoadReg nextLoadValue =>
          m ← DelayedLoad m nextLoadReg nextLoadValue;
          pc ← get m PCReg;
          m ← put m PrevPCReg pc;
          npc ← get m NextPCReg;
          m ← put m PCReg npc;
          put m NextPCReg pcAfter
      end
  end.
End execute.

(** ** Multiplication *)

Definition join (hi lo : Z) : Z := hi * 2 ^ 32 + lo.

Lemma join_add hi lo bHi bLo : is_u32 hi → is_u32 lo → is_u32 bHi → is_u32 bLo →
  let lo' := u32 (lo + bLo) in
  let hi' := u32 ((if lo' <? bLo then u32 (hi + 1) else hi) + bHi) in
  join hi' lo' = (join hi lo + join bHi bLo) mod 2 ^ 64.
Proof.
  intros Hhi Hlo HbHi HbLo lo' hi'. unfold is_u32, join in *.
  assert (lo' = lo + bLo ∧ lo + bLo < 2 ^ 32 ∨ lo' = lo + bLo - 2 ^ 32 ∧ 2 ^ 32 ≤ lo + bLo) as Hl.
  { unfold lo', u32. pose proof (Z.div_mod (lo + bLo) (2 ^ 32)).
    pose proof (Z.mod_pos_bound (lo + bLo) (2 ^ 32)). nia. }
  assert (hi' = (hi + (if lo' <? bLo then 1 else 0) + bHi) mod 2 ^ 32) as Hh.
  { unfold hi', u32. destruct (lo' <? bLo); [by rewrite Zplus_mod_idemp_l | f_equal; lia]. }
  rewrite Hh. clear Hh hi'.
  change (2 ^ 64) with (2 ^ 32 * 2 ^ 32).
  set (c := if lo' <? bLo then 1 else 0).
  replace (hi * 2 ^ 32 + lo + (bHi * 2 ^ 32 + bLo))
    with (lo' + 2 ^ 32 * (hi + c + bHi)) by (unfold c; destruct (Z.ltb_spec lo' bLo); lia).
  rewrite Z.rem_mul_r by lia.
  rewrite (Z.mul_comm (2 ^ 32) (hi + c + bHi)), Z_mod_plus_full, Z.div_add by lia.
  assert (0 ≤ lo' < 2 ^ 32) by lia.
  rewrite (Z.mod_small lo'), (Z.div_small lo') by lia. rewrite Z.add_0_l. lia.
Qed.

Lemma join_double bHi bLo : is_u32 bHi → is_u32 bLo →
  let bHi' := u32 (Z.shiftl bHi 1) in
  join (if negb (Z.land bLo 0x80000000 =? 0) then Z.lor bHi' 1 else bHi') (u32 (Z.shiftl bLo 1))
    = (2 * join bHi bLo) mod 2 ^ 64.
Proof.
  intros HbHi HbLo bHi'. unfold is_u32, join in *.
  assert (negb (Z.land bLo 0x80000000 =? 0) = (2 ^ 31 <=? bLo)) as ->.
  { change 0x80000000 with (2 ^ 31). destruct (Z.leb_spec (2 ^ 31) bLo) as [Hle|Hlt].
    - assert (Z.testbit bLo 31 = true) as Hb.
      { rewrite Z.testbit_true by lia. replace (bLo / 2 ^ 31) with 1; [done |].
        apply Z.div_unique with (bLo - 2 ^ 31); lia. }
      destruct (Z.eqb_spec (Z.land bLo (2 ^ 31)) 0) as [H0|]; [| done].
      apply (f_equal (λ z, Z.testbit z 31)) in H0.
      rewrite Z.land_spec, Hb, Z.pow2_bits_true, Z.bits_0 in H0 by lia. done.
    - replace (Z.land bLo (2 ^ 31)) with 0; [done |]. symmetry.
      apply Z.bits_inj'. intros j Hj. rewrite Z.land_spec, Z.bits_0, Z.pow2_bits_eqb by lia.
      destruct (Z.eqb_spec 31 j) as [<-|]; [| by rewrite andb_false_r].
      assert (Z.testbit bLo 31 = false) as ->; [| done].
      rewrite Z.testbit_false by lia. by rewrite Z.div_small by lia. }
  assert (bHi' = (2 * bHi) mod 2 ^ 32) as Heq by (unfold bHi', u32; f_equal; rewrite Z.shiftl_mul_pow2; lia).
  assert (Z.lor bHi' 1 = bHi' + 1) as ->.
  { rewrite Heq. assert (Z.land ((2 * bHi) mod 2 ^ 32) 1 = 0) as H0.
    { change 1 with (Z.ones 1). rewrite Z.land_ones by lia.
      change (2 ^ 32) with (2 * 2 ^ 31). rewrite Zmult_mod_distr_l, Z.mul_comm.
      by apply Z.mod_mul. }
    rewrite <- Z.lxor_lor by done. symmetry. by apply Z.add_nocarry_lxor. }
  assert (u32 (Z.shiftl bLo 1) = if 2 ^ 31 <=? bLo then 2 * bLo - 2 ^ 32 else 2 * bLo) as ->.
  { unfold u32. rewrite Z.shiftl_mul_pow2 by lia. destruct (Z.leb_spec (2 ^ 31) bLo).
    - symmetry. apply Z.mod_unique with 1; lia.
    - rewrite Z.mod_small; lia. }
  rewrite Heq. pose proof (Z.div_mod (2 * bHi) (2 ^ 32)). pose proof (Z.mod_pos_bound (2 * bHi) (2 ^ 32)).
  apply Z.mod_unique with ((2 * bHi) / 2 ^ 32); destruct (Z.leb_spec (2 ^ 31) bLo); lia.
Qed.

Lemma join_negate hi lo : is_u32 hi → is_u32 lo →
  let lo' := u32 (u32 (Z.lnot lo) + 1) in
  join (if lo' =? 0 then u32 (u32 (Z.lnot hi) + 1) else u32 (Z.lnot hi)) lo'
    = (- join hi lo) mod 2 ^ 64.
Proof.
  intros Hhi Hlo lo'. unfold is_u32, join in *.
  assert (∀ z, 0 ≤ z < 2 ^ 32 → u32 (Z.lnot z) = 2 ^ 32 - 1 - z) as Hnot.
  { intros z Hz. unfold u32, Z.lnot. symmetry. apply Z.mod_unique with (-1); lia. }
  rewrite (Hnot hi) by done.
  assert (lo' = if lo =? 0 then 0 else 2 ^ 32 - lo) as ->.
  { unfold lo'. rewrite Hnot by done. unfold u32. destruct (Z.eqb_spec lo 0); subst.
    - done.
    - rewrite Z.mod_small; lia. }
  assert (u32 (2 ^ 32 - 1 - hi + 1) = if hi =? 0 then 0 else 2 ^ 32 - hi) as ->.
  { unfold u32. destruct (Z.eqb_spec hi 0); subst; [done |]. rewrite Z.mod_small; lia. }
  destruct (Z.eqb_spec lo 0) as [->|Hl].
  - cbn [Z.eqb]. destruct (Z.eqb_spec hi 0) as [->|].
    + done.
    + apply Z.mod_unique with (-1); lia.
  - destruct (Z.eqb_spec (2 ^ 32 - lo) 0); [lia |]. apply Z.mod_unique with (-1); lia.
Qed.

Lemma u32_land_high a : Z.land (u32 a) 0xfffffffe = 0 → u32 a = 0 ∨ u32 a = 1.
Proof.
  intros H. pose proof (u32_range a) as Hr. unfold is_u32 in Hr.
  assert (u32 a / 2 = 0) as Hd.
  { rewrite <- Z.div2_div, Z.div2_spec. apply Z.bits_inj'. intros j Hj.
    rewrite Z.bits_0, Z.shiftr_spec by done.
    destruct (decide (j + 1 < 32)) as [Hlt|].
    - apply (f_equal (λ z, Z.testbit z (j + 1))) in H.
      rewrite Z.land_spec, Z.bits_0 in H.
      replace (Z.testbit 0xfffffffe (j + 1)) with true in H; [by rewrite andb_true_r in H |].
      change 0xfffffffe with (Z.ones 31 * 2 ^ 1).
      rewrite Z.mul_pow2_bits by lia. rewrite Z.add_simpl_r.
      symmetry. apply Z.ones_spec_low. lia.
    - apply u32_high; [apply u32_range | lia]. }
  pose proof (Z.div_mod (u32 a) 2). pose proof (Z.mod_pos_bound (u32 a) 2). lia.
Qed.

Lemma land1_mod a : Z.land a 1 = a mod 2.
Proof. change 1 with (Z.ones 1). by rewrite Z.land_ones by lia. Qed.

(** The accumulators after [i] rounds: the low [i] bits of [a] times [b]. *)
Definition mult_inv (a b i : Z) (s : mult_state) : Prop :=
  mu_a s = a / 2 ^ i ∧ is_u32 (mu_bLo s) ∧ is_u32 (mu_bHi s) ∧ is_u32 (mu_lo s) ∧
  is_u32 (mu_hi s) ∧ join (mu_bHi s) (mu_bLo s) = (b * 2 ^ i) mod 2 ^ 64 ∧
  join (mu_hi s) (mu_lo s) = ((a mod 2 ^ i) * b) mod 2 ^ 64.

Definition mult_done (a b : Z) (s : mult_state) : Prop :=
  is_u32 (mu_lo s) ∧ is_u32 (mu_hi s) ∧
  join (mu_hi s) (mu_lo s) = (u32 a * b) mod 2 ^ 64.

Lemma mod_pow2_succ a i : 0 ≤ i →
  a mod 2 ^ (i + 1) = a mod 2 ^ i + 2 ^ i * ((a / 2 ^ i) mod 2).
Proof.
  intros Hi. rewrite Z.pow_add_r by lia. change (2 ^ 1) with 2.
  rewrite Z.rem_mul_r by lia. done.
Qed.

Lemma or1_u32 z : is_u32 z → is_u32 (Z.lor z 1).
Proof.
  intros Hz. apply is_u32_bits.
  - apply Z.lor_nonneg. unfold is_u32 in Hz. lia.
  - intros j Hj. rewrite Z.lor_spec, u32_high by done. apply Z.bits_above_log2; cbn; lia.
Qed.

Lemma mult_step_inv a b i s : 0 ≤ i < 32 → is_s32 a → mult_inv a b i s →
  match mult_step s with
  | inl s' => mult_inv a b (i + 1) s'
  | inr s' => mult_done a b s'
  end.
Proof.
  intros Hi Ha (Hsa & HbLo & HbHi & Hlo & Hhi & Hb & Hacc).
  destruct s as [sa bLo bHi lo hi]; cbn in *.
  unfold mult_step. cbn [mu_a mu_bLo mu_bHi mu_lo mu_hi].
  pose proof (Z.mod_pos_bound sa 2 ltac:(lia)) as Hbit.
  rewrite land1_mod.
  (* the accumulator after this round *)
  assert (∃ lo' hi', (if negb (sa mod 2 =? 0)
      then (u32 (lo + bLo), u32 ((if u32 (lo + bLo) <? bLo then u32 (hi + 1) else hi) + bHi))
      else (lo, hi)) = (lo', hi') ∧ is_u32 lo' ∧ is_u32 hi' ∧
      join hi' lo' = ((a mod 2 ^ (i + 1)) * b) mod 2 ^ 64) as (lo' & hi' & Heq & Hlo' & Hhi' & Hacc').
  { rewrite mod_pow2_succ, <- Hsa, Z.mul_add_distr_r by lia. destruct (Z.eqb_spec (sa mod 2) 0) as [H0|H1].
    - exists lo, hi. cbn. split_and!; try apply Hlo; try apply Hhi; [done |].
      rewrite H0, Hacc. f_equal. lia.
    - eexists _, _. split; [done |]. split; [apply u32_range |]. split; [apply u32_range |].
      rewrite join_add by done. rewrite Hacc, Hb, <- Zplus_mod. f_equal.
      replace (sa mod 2) with 1 by lia. lia. }
  cbv zeta. rewrite Heq.
  destruct (negb (sa mod 2 =? 0) && (Z.land (u32 sa) 0xfffffffe =? 0)) eqn:Hexit.
  - (* early exit: no bit of [a] is left *)
    apply andb_true_iff in Hexit as [H1%negb_true_iff%Z.eqb_neq H0%Z.eqb_eq].
    split_and!; try apply Hlo'; try apply Hhi'. cbn. rewrite Hacc'. do 2 f_equal.
    assert (u32 sa = 1) as Hs1.
    { destruct (u32_land_high sa H0) as [Hz|]; [| done].
      destruct (u32_mod_eq sa) as [k Hk]. rewrite Hz in Hk.
      pose proof (Z.div_mod sa 2). lia. }
    assert (- 2 ^ 31 ≤ sa < 2 ^ 31) as Hsr.
    { unfold is_s32 in Ha. rewrite Hsa. pose proof (Z.pow_pos_nonneg 2 i).
      pose proof (Z.div_mod a (2 ^ i)). pose proof (Z.mod_pos_bound a (2 ^ i)). nia. }
    assert (sa = 1) as Hs by (destruct (u32_mod_eq sa) as [k Hk]; lia).
    rewrite mod_pow2_succ, <- Hsa, Hs by lia. change (1 mod 2) with 1. rewrite Z.mul_1_r.
    assert (a = 2 ^ i + a mod 2 ^ i) as Hai by (pose proof (Z.div_mod a (2 ^ i)); lia).
    rewrite u32_id; [lia |]. unfold is_u32, is_s32 in *.
    pose proof (Z.mod_pos_bound a (2 ^ i)). pose proof (Z.pow_pos_nonneg 2 i). lia.
  - unfold mult_inv. cbn [mu_a mu_bLo mu_bHi mu_lo mu_hi]. split_and!; try done; try apply u32_range.
    + rewrite Z.shiftr_div_pow2, Hsa, Z.div_div, Z.pow_add_r by lia. done.
    + destruct (negb (Z.land bLo 2147483648 =? 0)); [apply or1_u32 |]; apply u32_range.
    + rewrite join_double by done. rewrite Hb, Zmult_mod_idemp_r, Z.pow_add_r by lia. f_equal. lia.
Qed.

Lemma mult_loop a b : is_s32 a → is_u32 b →
  ∃ r, for_ret 0 32 (λ _ s, Ok (mult_step s)) (mkMult a b 0 0 0) = Ok r ∧
    mult_done a b (match r with inl s => s | inr s => s end).
Proof.
  intros Ha Hb.
  destruct (for_ret_rule (mult_inv a b) (mult_done a b) 0 32
    (λ _ s, Ok (mult_step s)) (mkMult a b 0 0 0)) as (r & Hr & HQ); [lia | | |].
  - unfold mult_inv, join. cbn [mu_a mu_bLo mu_bHi mu_lo mu_hi]. unfold is_u32 in *.
    split_and!; try lia; change (2 ^ 0) with 1.
    + by rewrite Z.div_1_r.
    + rewrite Z.mod_small; lia.
    + by rewrite Z.mod_1_r.
  - intros i s Hi Hs. eexists. split; [done |]. pose proof (mult_step_inv a b i s Hi Ha Hs).
    by destruct (mult_step s).
  - exists r. split; [done |]. destruct r as [s|s]; [| done].
    destruct HQ as (_ & _ & _ & Hlo & Hhi & _ & Hacc). by split_and!.
Qed.

Lemma u32_neg_abs a : is_s32 a → a < 0 → u32 (s32 (- a)) = - a.
Proof. intros Ha Hn. rewrite u32_s32. apply u32_id. unfold is_u32, is_s32 in *. lia. Qed.

Lemma Mult_correct a b sg : is_s32 a → is_s32 b →
  ∃ hi lo, Mult a b sg = Ok (hi, lo) ∧ is_s32 hi ∧ is_s32 lo ∧
    join (u32 hi) (u32 lo) = (if sg then a * b else u32 a * u32 b) mod 2 ^ 64.
Proof.
  intros Ha Hb. unfold Mult.
  destruct (Z.eqb_spec a 0) as [->|Ha0]; [exists 0, 0; split_and!; by destruct sg |].
  destruct (Z.eqb_spec b 0) as [->|Hb0].
  { exists 0, 0. split_and!; try done. change (u32 0) with 0. by rewrite !Z.mul_0_r; destruct sg. }
  cbn [orb].
  set (a' := if sg && (a <? 0) then s32 (- a) else a).
  set (b' := if sg && (b <? 0) then s32 (- b) else b).
  set (neg := xorb (sg && (a <? 0)) (sg && (b <? 0))).
  assert (is_s32 a') as Ha' by (unfold a'; destruct (sg && (a <? 0)); [apply s32_range | done]).
  assert ((if sg then a * b else u32 a * u32 b)
    = (if neg then - (u32 a' * u32 b') else u32 a' * u32 b')) as Hsign.
  { unfold neg, a', b'. destruct sg; cbn [andb]; [| done].
    assert (∀ z, is_s32 z → 0 ≤ z → u32 z = z) as Hpos
      by (intros; apply u32_id; unfold is_u32, is_s32 in *; lia).
    destruct (Z.ltb_spec a 0), (Z.ltb_spec b 0); cbn [xorb];
      rewrite ?u32_neg_abs, ?Hpos by done; lia. }
  destruct (mult_loop a' (u32 b') Ha' (u32_range b')) as (r & Hr & Hlo & Hhi & Hacc).
  set (s := match r with inl s => s | inr s => s end) in *.
  exists (s32 (if neg then if u32 (u32 (Z.lnot (mu_lo s)) + 1) =? 0
                 then u32 (u32 (Z.lnot (mu_hi s)) + 1) else u32 (Z.lnot (mu_hi s)) else mu_hi s)),
    (s32 (if neg then u32 (u32 (Z.lnot (mu_lo s)) + 1) else mu_lo s)).
  split; [| split; [apply s32_range | split; [apply s32_range |]]].
  - unfold neg, a', b', s in *.
    destruct (sg && (a <? 0)), (sg && (b <? 0)); cbn [negb xorb] in *;
      rewrite Hr; cbn [rbind]; by destruct r.
  - rewrite Hsign, !u32_s32. destruct neg.
    + rewrite (u32_id (u32 (u32 (Z.lnot (mu_lo s)) + 1))) by apply u32_range.
      match goal with |- join (u32 ?h) _ = _ => rewrite (u32_id h) end;
        [| destruct (u32 (u32 (Z.lnot (mu_lo s)) + 1) =? 0); apply u32_range].
      rewrite join_negate, Hacc by assumption.
      pose proof (Zminus_mod_idemp_r 0 (u32 a' * u32 b') (2 ^ 64)) as Hm.
      by rewrite !Z.sub_0_l in Hm.
    + rewrite !u32_id by assumption. exact Hacc.
Qed.

(** ** Bitwise operations stay within the word *)

Lemma s32_high_bits z j : is_s32 z → 31 ≤ j → Z.testbit z j = (z <? 0).
Proof.
  intros Hz Hj. unfold is_s32 in Hz.
  assert (2 ^ 31 ≤ 2 ^ j) by (apply Z.pow_le_mono_r; lia).
  destruct (Z.ltb_spec z 0).
  - apply Z.testbit_true; [lia |]. replace (z / 2 ^ j) with (-1); [done |].
    apply Z.div_unique with (z + 2 ^ j); lia.
  - apply Z.testbit_false; [lia |]. by rewrite Z.div_small by lia.
Qed.

Lemma s32_low_bits z j : 0 ≤ j < 32 → Z.testbit (s32 z) j = Z.testbit z j.
Proof.
  intros Hj. assert (Z.testbit (u32 (s32 z)) j = Z.testbit (u32 z) j) as H by (by rewrite u32_s32).
  rewrite !u32_spec in H by lia. destruct (Z.ltb_spec j 32); [done | lia].
Qed.

Lemma s32_spec z j : 0 ≤ j → Z.testbit (s32 z) j = Z.testbit z (Z.min j 31).
Proof.
  intros Hj. destruct (decide (j < 31)).
  - rewrite Z.min_l by lia. apply s32_low_bits. lia.
  - rewrite Z.min_r by lia. rewrite <- (s32_low_bits z 31) by lia.
    by rewrite !s32_high_bits by (lia || apply s32_range).
Qed.

(** A signed word is a sign-extended pattern of 32 bits. *)
Lemma is_s32_bits z : is_s32 z ↔ ∀ i, 31 ≤ i → Z.testbit z i = Z.testbit z 31.
Proof.
  split.
  - intros Hz i Hi. by rewrite !s32_high_bits by (done || lia).
  - intros Hb. assert (s32 z = z) as <-; [| apply s32_range].
    apply Z.bits_inj'. intros i Hi. rewrite s32_spec by done.
    destruct (decide (i < 31)); [by rewrite Z.min_l by lia |].
    rewrite Z.min_r by lia. symmetry. apply Hb. lia.
Qed.

Lemma land_s32 a b : is_s32 a → is_s32 b → is_s32 (Z.land a b).
Proof.
  rewrite !is_s32_bits. intros Ha Hb i Hi. by rewrite !Z.land_spec, Ha, Hb by lia.
Qed.
Lemma lor_s32 a b : is_s32 a → is_s32 b → is_s32 (Z.lor a b).
Proof.
  rewrite !is_s32_bits. intros Ha Hb i Hi. by rewrite !Z.lor_spec, Ha, Hb by lia.
Qed.
Lemma lxor_s32 a b : is_s32 a → is_s32 b → is_s32 (Z.lxor a b).
Proof.
  rewrite !is_s32_bits. intros Ha Hb i Hi. by rewrite !Z.lxor_spec, Ha, Hb by lia.
Qed.
Lemma lnot_s32 a : is_s32 a → is_s32 (Z.lnot a).
Proof. unfold is_s32, Z.lnot. lia. Qed.
Lemma shiftr_s32 a n : 0 ≤ n → is_s32 a → is_s32 (Z.shiftr a n).
Proof.
  rewrite !is_s32_bits. intros Hn Ha i Hi. rewrite !Z.shiftr_spec by lia.
  rewrite (Ha (i + n)), (Ha (31 + n)) by lia. done.
Qed.
Lemma land_pos_range a c : 0 ≤ c → 0 ≤ Z.land a c ≤ c.
Proof.
  intros Hc. split; [apply Z.land_nonneg; lia |].
  assert (Z.ldiff (Z.land a c) c = 0) as Hd.
  { apply Z.bits_inj'. intros i Hi. rewrite Z.ldiff_spec, Z.land_spec, Z.bits_0.
    by destruct (Z.testbit a i), (Z.testbit c i). }
  apply Z.sub_nocarry_ldiff in Hd.
  assert (0 ≤ Z.ldiff c (Z.land a c)) by (apply Z.ldiff_nonneg; lia). lia.
Qed.
Lemma land_pos_s32 a c : 0 ≤ c < 2 ^ 31 → is_s32 (Z.land a c).
Proof. intros Hc. pose proof (land_pos_range a c). unfold is_s32. lia. Qed.

(** ** Decoding *)

Definition has_case (op : opcode) : Prop := op ≠ OP_RFE ∧ op ≠ SPECIAL ∧ op ≠ BCOND.

Lemma opTable_entries : Forall (λ e : opcode * format,
  e.1 ≠ OP_RFE ∧ e.1 ∉ [OP_SLL; OP_SRA; OP_SRL] ∧ (e.1 = SPECIAL → e.2 = RFMT)) opTable.
Proof.
  unfold opTable. repeat (constructor; [split_and!; [done | rewrite !elem_of_cons, elem_of_nil;
    naive_solver | done] |]). constructor.
Qed.

Lemma specialTable_entries : Forall has_case specialTable.
Proof. unfold specialTable, has_case. repeat constructor; discriminate. Qed.

Lemma land_field v k n : 0 ≤ n → 0 ≤ Z.land (Z.shiftr v k) (Z.ones n) < 2 ^ n.
Proof. intros Hn. rewrite Z.land_ones by done. apply Z.mod_pos_bound. lia. Qed.

Lemma Decode_ok v : is_u32 v → ∃ i, Decode v = Ok i ∧ value i = v ∧
  0 ≤ rs i < 32 ∧ 0 ≤ rt i < 32 ∧ 0 ≤ rd i < 32 ∧ is_s32 (extra i) ∧ has_case (opCode i) ∧
  (opCode i ∈ [OP_SLL; OP_SRA; OP_SRL] → 0 ≤ extra i < 32).
Proof.
  intros Hv. unfold Decode.
  assert (∀ k, 0 ≤ Z.land (Z.shiftr v k) 0x1f < 32) as H5 by (intros; apply (land_field v k 5); lia).
  destruct (aget_is_Ok opTable (Z.land (Z.shiftr v 26) 0x3f)) as [[op fmt] Hop].
  { apply (land_field v 26 6). lia. }
  rewrite Hop. cbn [rbind].
  pose proof Hop as [_ Hlk]%aget_Ok. pose proof opTable_entries as Ht.
  eapply Forall_lookup_1 in Ht as (Hrfe & Hsh & Hspec); [| exact Hlk]. cbn in Hrfe, Hsh, Hspec.
  set (ex := match fmt with IFMT => _ | JFMT => _ | RFMT => _ end).
  assert (is_s32 ex) as Hex.
  { unfold ex. destruct fmt.
    - destruct (negb _); [apply s32_range | apply land_pos_s32; lia].
    - apply land_pos_s32; lia.
    - apply land_pos_s32; lia. }
  assert (fmt = RFMT → 0 ≤ ex < 32) as Hr by (unfold ex; intros ->; apply H5).
  clearbody ex.
  destruct (aget_is_Ok specialTable (Z.land v 0x3f)) as [sop Hsop].
  { pose proof (land_field v 0 6 ltac:(lia)) as Hf. by rewrite Z.shiftr_0_r in Hf. }
  pose proof specialTable_entries as Hst.
  pose proof Hsop as [_ Hslk]%aget_Ok. eapply Forall_lookup_1 in Hst; [| exact Hslk].
  destruct (decide (op = SPECIAL)) as [->|Hns].
  { rewrite Hsop. eexists. split; [done |]. cbn. split_and!; try apply H5; try apply Hex; try apply Hst; try done.
    all: intros _; apply Hr, Hspec; done. }
  destruct (decide (op = BCOND)) as [->|Hnb].
  { destruct (Z.land v 0x1f0000 =? 0); [|destruct (Z.land v 0x1f0000 =? 0x10000);
      [|destruct (Z.land v 0x1f0000 =? 0x100000); [|destruct (Z.land v 0x1f0000 =? 0x110000)]]];
    (eexists; split; [reflexivity |]; cbn; split_and!; try apply H5; try apply Hex; try done;
     intros Hin; apply (bool_decide_pack _) in Hin; destruct Hin). }
  exists (mkInstr v op (Z.land (Z.shiftr v 21) 0x1f) (Z.land (Z.shiftr v 16) 0x1f)
            (Z.land (Z.shiftr v 11) 0x1f) ex).
  split; [by destruct op |]. cbn. split_and!; try apply H5; try apply Hex; try done.
  all: intros; by destruct Hsh.
Qed.

(** ** The invariant of the CPU *)

Definition regs_ok (r : list Z) : Prop :=
  length r = 40%nat ∧ Forall is_s32 r ∧ ∃ lr, r !! 37%nat = Some lr ∧ 0 ≤ lr < 32.

(** Between instructions R0 is zero; inside one it may hold a result that
    [DelayedLoad] is about to discard.  [tables]: what is known of the
    translation tables. *)
Definition machine_inv (tables : Machine → Prop) (m : Machine) : Prop :=
  regs_ok (registers m) ∧ mem_ok (mainMemory m) ∧ tables m.
Definition machine_ok (tables : Machine → Prop) (m : Machine) : Prop :=
  machine_inv tables m ∧ registers m !! 0%nat = Some 0.

(** Translation goes through a page table. *)
Definition by_page_table (m : Machine) : Prop := ∃ pt, paged m pt.
Definition cpu_ok (m : Machine) : Prop := machine_ok by_page_table m.

Lemma regs_ok_set l r v : regs_ok l → 0 ≤ r < 40 → r ≠ 37 → is_s32 v →
  aset l r v = Ok (<[Z.to_nat r := v]> l) ∧ regs_ok (<[Z.to_nat r := v]> l).
Proof.
  intros (Hl & Hf & lr & Hlr & Hb) Hr Hne Hv. split; [apply aset_in; lia |].
  split; [by rewrite length_insert |]. split; [by apply Forall_insert |].
  exists lr. by rewrite list_lookup_insert_ne by lia.
Qed.

Lemma le_value_s32 size bs :
  access_size size → Z.of_nat (length bs) = size → Forall is_byte bs →
  is_s32 (int_of_bytes size bs).
Proof.
  intros Hsz Hl Hb. pose proof (le_decode_bound bs size Hl Hb) as Hr. unfold int_of_bytes, s8.
  destruct Hsz as [->|[->| ->]]; cbn [Z.eqb Pos.eqb].
  - unfold is_s32. destruct (Z.ltb_spec (little_endian_to_Z 8 bs) 128); lia.
  - unfold is_s32. lia.
  - apply s32_range.
Qed.

Definition decoded (i : Instruction) : Prop :=
  0 ≤ rs i < 32 ∧ 0 ≤ rt i < 32 ∧ 0 ≤ rd i < 32 ∧ is_s32 (extra i) ∧ has_case (opCode i) ∧
  (opCode i ∈ [OP_SLL; OP_SRA; OP_SRL] → 0 ≤ extra i < 32).

Section safety.
Variable tables : Machine → Prop.
#[local] Abbreviation cpu_inv := (machine_inv tables).
#[local] Abbreviation cpu_ok := (machine_ok tables).
Hypothesis tables_regs : ∀ m r, tables m → tables (with_registers m r).
Hypothesis tables_status : ∀ m st, tables m → tables (setStatus m st).

Lemma get_ok m r : cpu_inv m → 0 ≤ r < 40 → ∃ v, get m r = Ok v ∧ is_s32 v.
Proof.
  intros ((Hl & Hf & _) & _) Hr. destruct (aget_is_Ok (registers m) r) as [v Hv]; [lia |].
  exists v. split; [done |]. apply aget_Ok in Hv as [_ Hv]. by eapply Forall_lookup_1.
Qed.

Lemma cpu_inv_regs m r : cpu_inv m → regs_ok r → cpu_inv (with_registers m r).
Proof. intros (_ & Hm & Hp) Hr. split; [done |]. split; [done |]. by apply tables_regs. Qed.

Lemma put_ok m r v : cpu_inv m → 0 ≤ r < 40 → r ≠ 37 → is_s32 v →
  ∃ m', put m r v = Ok m' ∧ cpu_inv m'.
Proof.
  intros Hm Hr Hne Hv. destruct (regs_ok_set (registers m) r v) as [Hs Ho]; [apply Hm | done.. |].
  eexists. unfold put. rewrite Hs. split; [done |]. by apply cpu_inv_regs.
Qed.

Lemma DelayedLoad_ok m nr nv : cpu_inv m → 0 ≤ nr < 32 → is_s32 nv →
  ∃ m', DelayedLoad m nr nv = Ok m' ∧ cpu_ok m'.
Proof.
  intros Hm Hnr Hnv. pose proof Hm as ((Hl & Hf & lr & Hlr & Hb) & _).
  unfold DelayedLoad. rewrite (aget_lookup (registers m) 37 lr Hlr : aget (registers m) LoadReg = Ok lr).
  cbn [rbind].
  destruct (get_ok m LoadValueReg Hm ltac:(unfold LoadValueReg; lia)) as (lv & Hlv & Hlvs).
  unfold get in Hlv. rewrite Hlv. cbn [rbind].
  destruct (regs_ok_set (registers m) lr lv) as [Hs (Hl1 & Hf1 & _)]; [apply Hm | lia | lia | done |].
  rewrite Hs. cbn [rbind]. set (r1 := <[Z.to_nat lr := lv]> (registers m)) in *.
  rewrite aset_in by (rewrite Hl1; unfold LoadReg; lia). cbn [rbind].
  assert (is_s32 nr) as Hnrs by (unfold is_s32; lia).
  assert (regs_ok (<[Z.to_nat LoadReg := nr]> r1)) as Hr2.
  { split; [by rewrite length_insert |]. split; [by apply Forall_insert |].
    exists nr. rewrite (list_lookup_insert_eq r1 37) by lia. done. }
  destruct (regs_ok_set _ LoadValueReg nv Hr2) as [-> Hr3]; [unfold LoadValueReg; lia.. | done |].
  cbn [rbind].
  destruct (regs_ok_set _ 0 0 Hr3) as [-> Hr4]; [lia.. | done |]. cbn [rbind].
  eexists. split; [done |]. split; [by apply cpu_inv_regs |].
  apply list_lookup_insert_eq. destruct Hr3 as [-> _]. lia.
Qed.

(** What an instruction may leave to the rest of [OneInstruction]. *)
Definition outcome_ok (o : outcome) : Prop :=
  match o with
  | Done m pcAfter nr nv => cpu_inv m ∧ is_s32 pcAfter ∧ 0 ≤ nr < 32 ∧ is_s32 nv
  | Trapped m => cpu_ok m
  end.

Variable be : bool.
Variable H : ExceptionType → Machine → result Machine.
Hypothesis H_ok : ∀ ex m m', cpu_ok m → H ex m = Ok m' → cpu_ok m'.

(** The only ways an instruction started in [m0] can stop the simulator: the
    host division -2^31 / -1, a kernel handler that does not return, and what
    [stuck] allows to a memory access. *)
Variable stuck : fault → Prop.
Definition blame (m0 : Machine) (e : fault) : Prop :=
  (e = Undefined ∧ ∃ r1 r2, registers m0 !! r1 = Some (- 2 ^ 31) ∧ registers m0 !! r2 = Some (-1)) ∨
  (∃ ex m, cpu_ok m ∧ H ex m = Fail e) ∨ stuck e.

Lemma cpu_ok_status m st : cpu_ok m → cpu_ok (setStatus m st).
Proof. intros [(? & ? & ?) ?]. split; [split; [done |]; split; [done | by apply tables_status] | done]. Qed.

Lemma RaiseException_post m m0 ex a : cpu_inv m → is_s32 a →
  post (blame m0) cpu_ok (RaiseException H m ex a).
Proof.
  intros Hm Ha. unfold RaiseException.
  destruct (regs_ok_set (registers m) BadVAddrReg a) as [-> Hr];
    [apply Hm | unfold BadVAddrReg; lia.. | done |]. cbn [rbind].
  destruct (DelayedLoad_ok (with_registers m (<[Z.to_nat BadVAddrReg:=a]> (registers m))) 0 0)
    as (m1 & -> & Hm1); [by apply cpu_inv_regs | lia | done |]. cbn [rbind].
  destruct (H ex (setStatus m1 SystemMode)) as [m2|e] eqn:HH; cbn.
  - apply cpu_ok_status. eapply H_ok; [by apply cpu_ok_status | done].
  - right; left. eexists _, _. split; [by apply cpu_ok_status |]. exact HH.
Qed.

Lemma trap_post m m0 ex a : cpu_inv m → is_s32 a →
  post (blame m0) outcome_ok (trap H m ex a).
Proof.
  intros Hm Ha. unfold trap. eapply post_bind; [by apply RaiseException_post |].
  intros m' Hm'. exact Hm'.
Qed.

(** What the tables make of a memory access. *)
Hypothesis ReadMem_post : ∀ m m0 va size, cpu_inv m → access_size size → is_s32 va →
  post (blame m0) (λ r, match r.1 with
    | Some v => is_s32 v ∧ cpu_inv r.2 ∧ registers r.2 = registers m
    | None => cpu_ok r.2 end) (ReadMem be H m va size).
Hypothesis WriteMem_post : ∀ m m0 va size v, cpu_inv m → access_size size → is_s32 va →
  post (blame m0) (λ r, if r.1 : bool then cpu_inv r.2 else cpu_ok r.2) (WriteMem be H m va size v).

Ltac reg_lia :=
  unfold HiReg, LoReg, PCReg, NextPCReg, PrevPCReg, R31, LoadReg, LoadValueReg in *; lia.
Ltac step_get :=
  match goal with
  | |- context [rbind (get ?m ?r) _] =>
      let v := fresh "v" in let Hv := fresh "Hv" in let Heq := fresh "Heq" in
      destruct (get_ok m r) as (v & Heq & Hv); [assumption | reg_lia |]; rewrite Heq; cbn [rbind]
  end.

Lemma set_post m m0 r v pc : cpu_inv m → 0 ≤ r < 40 → r ≠ 37 → is_s32 v → is_s32 pc →
  post (blame m0) outcome_ok (set m r v pc).
Proof.
  intros Hm Hr Hne Hv Hpc. unfold set. destruct (put_ok m r v) as (m' & -> & Hm'); [done.. |].
  cbn. split_and!; try done; unfold is_s32 in *; lia.
Qed.

Lemma put_post m m0 r v (k : Machine → result outcome) :
  cpu_inv m → 0 ≤ r < 40 → r ≠ 37 → is_s32 v →
  (∀ m', cpu_inv m' → post (blame m0) outcome_ok (k m')) →
  post (blame m0) outcome_ok (rbind (put m r v) k).
Proof.
  intros Hm Hr Hne Hv Hk. destruct (put_ok m r v) as (m' & -> & Hm'); [done.. |]. by apply Hk.
Qed.

Lemma done_ok m pc : cpu_inv m → is_s32 pc → outcome_ok (Done m pc 0 0).
Proof. intros. split_and!; try done; unfold is_s32 in *; lia. Qed.

Lemma zero_s32 : is_s32 0. Proof. done. Qed.
Lemma bit_s32 (b : bool) : is_s32 (if b then 1 else 0). Proof. by destruct b. Qed.
Lemma land_s32_pos z c : 0 ≤ c < 2 ^ 31 → is_s32 (Z.land z c).
Proof. apply land_pos_s32. Qed.

Ltac s32 := first
  [ assumption | apply s32_range | apply bit_s32 | apply zero_s32
  | apply land_s32; s32 | apply lor_s32; s32 | apply lxor_s32; s32 | apply lnot_s32; s32
  | apply land_pos_s32; lia | apply shiftr_s32; [try lia | s32] ].
Ltac solve_set := apply set_post; [assumption | reg_lia | reg_lia | s32 | s32].
Ltac solve_trap := apply trap_post; [assumption | s32].

Lemma exec_add_and_post m m0 i pc : cpu_inv m → decoded i → is_s32 pc →
  opCode i ∈ [OP_ADD; OP_ADDI; OP_ADDIU; OP_ADDU; OP_AND; OP_ANDI] →
  post (blame m0) outcome_ok (exec_add_and H m i pc).
Proof.
  intros Hm (Hrs & Hrt & Hrd & Hex & _) Hpc Hop. unfold exec_add_and. do 2 step_get.
  repeat (apply elem_of_cons in Hop as [Hop|Hop]; [rewrite Hop |]); try solve [solve_set];
    try (case_match; [solve_trap | solve_set]).
  by apply elem_of_nil in Hop.
Qed.

Lemma exec_branch_post m m0 i pc : cpu_inv m → decoded i → is_s32 pc →
  post (blame m0) outcome_ok (exec_branch m i pc).
Proof.
  intros Hm (Hrs & Hrt & Hrd & Hex & _) Hpc. unfold exec_branch. step_get.
  assert (∀ m', cpu_inv m' → ∀ b : Z → Z → bool, ∀ t, is_s32 t → post (blame m0) outcome_ok
    (vs ← get m' (rs i); vt ← get m' (rt i); Ok (Done m' (if b vs vt then t else pc) 0 0))) as Hk.
  { intros m' Hm' b t Ht. do 2 step_get. cbn. apply done_ok; [done |]. by destruct (b _ _). }
  set (t := s32 (v + IndexToAddr (extra i))).
  assert (is_s32 t) as Ht by apply s32_range. clearbody t.
  destruct (opCode i); cbn [rbind];
    try (apply put_post; [assumption | reg_lia | reg_lia | s32 |]; intros m' Hm').
  all: match goal with
    | |- context [vs ← get ?m' _; vt ← get ?m' _; @?k vs vt] => idtac
    | |- _ => idtac end.
  all: do 2 step_get; cbn; apply done_ok; [assumption | by case_match].
Qed.

Lemma quot_rem_s32 a b : is_s32 a → is_s32 b → b ≠ 0 → ¬ (a = - 2 ^ 31 ∧ b = -1) →
  is_s32 (Z.quot a b) ∧ is_s32 (Z.rem a b).
Proof.
  unfold is_s32. intros Ha Hb Hb0 Hab.
  pose proof (Z.quot_rem' a b). pose proof (Z.rem_bound_abs a b Hb0).
  split; [| lia]. destruct (decide (b = -1)) as [->|].
  - change (-1) with (- (1)). rewrite Z.quot_opp_r, Z.quot_1_r by lia. lia.
  - destruct (decide (b = 1)) as [->|]; [rewrite Z.quot_1_r; lia |].
    pose proof (Z.quot_abs a b Hb0) as Hq.
    assert (Z.quot (Z.abs a) (Z.abs b) ≤ 2 ^ 30); [| lia].
    rewrite Z.quot_div_nonneg by lia.
    transitivity (Z.abs a / 2); [apply Z.div_le_compat_l; lia |].
    apply Z.div_le_upper_bound; lia.
Qed.

Lemma exec_div_post m m0 i pc : cpu_inv m → decoded i → is_s32 pc → registers m = registers m0 →
  post (blame m0) outcome_ok (exec_div m i pc).
Proof.
  intros Hm (Hrs & Hrt & Hrd & Hex & _) Hpc Hreg. unfold exec_div. do 2 step_get.
  eapply (post_bind _ (λ p : Z * Z, is_s32 p.1 ∧ is_s32 p.2)).
  - assert (post (blame m0) (λ p : Z * Z, is_s32 p.1 ∧ is_s32 p.2)
      (if u32 v0 =? 0 then Ok (0, 0) else Ok (s32 (u32 v / u32 v0), s32 (u32 v mod u32 v0)))) as Hu.
    { destruct (u32 v0 =? 0); cbn; split; s32. }
    destruct (opCode i); try exact Hu.
    destruct (Z.eqb_spec v0 0); [cbn; split; s32 |].
    destruct (Z.eqb_spec v (- 2 ^ 31)) as [->|Hv'], (Z.eqb_spec v0 (-1)) as [->|Hv0']; cbn [andb post].
    { left. split; [done |]. exists (Z.to_nat (rs i)), (Z.to_nat (rt i)). rewrite <- Hreg.
      unfold get in *. apply aget_Ok in Heq as [_ ?], Heq0 as [_ ?]. done. }
    all: apply quot_rem_s32; [done | done | done | lia].
  - intros [lo hi] [Hlo Hhi]. cbn in Hlo, Hhi.
    apply put_post; [done | reg_lia | reg_lia | done |]. intros m1 Hm1.
    apply put_post; [done | reg_lia | reg_lia | done |]. intros m2 Hm2.
    by apply done_ok.
Qed.

Lemma exec_jump_post m m0 i pc : cpu_inv m → decoded i → is_s32 pc →
  post (blame m0) outcome_ok (exec_jump m i pc).
Proof.
  intros Hm (Hrs & Hrt & Hrd & Hex & _) Hpc. unfold exec_jump. step_get.
  destruct (opCode i); cbn [rbind];
    try (apply put_post; [assumption | reg_lia | reg_lia | s32 |]; intros m' Hm');
    try (step_get; cbn; by apply done_ok);
    apply done_ok; s32 || done.
Qed.

Lemma exec_load_post m m0 i pc : cpu_inv m → decoded i → is_s32 pc →
  post (blame m0) outcome_ok (exec_load be H m i pc) ∨ opCode i ∉ [OP_LB; OP_LBU; OP_LH; OP_LHU; OP_LUI; OP_LW].
Proof.
  intros Hm (Hrs & Hrt & Hrd & Hex & _) Hpc.
  destruct (decide (opCode i ∈ [OP_LB; OP_LBU; OP_LH; OP_LHU; OP_LUI; OP_LW])) as [Hop|]; [left | by right].
  unfold exec_load. step_get. set (tmp := s32 (v + extra i)).
  assert (is_s32 tmp) as Ht by apply s32_range. clearbody tmp.
  assert (∀ (b : bool) w c d, 0 ≤ d < 2 ^ 31 →
    is_s32 (if b then s32 (Z.lor (u32 w) c) else Z.land w d)) as Hl
    by (intros [] ????; s32).
  assert (∀ size (k : option Z * Machine → result outcome), access_size size →
    (∀ w m', is_s32 w → cpu_inv m' → ∃ w', k (Some w, m') = Ok (Done m' pc (rt i) w') ∧ is_s32 w') →
    (∀ m', k (None, m') = Ok (Trapped m')) →
    post (blame m0) outcome_ok (rbind (ReadMem be H m tmp size) k)) as Hload.
  { intros size k Hsz Hk Hn. eapply post_bind; [by apply ReadMem_post |].
    intros [[w|] m'] Hr; cbn in Hr; [| by rewrite Hn]. destruct Hr as (Hw & Hm' & _).
    destruct (Hk w m' Hw Hm') as (w' & -> & Hw'). by cbn. }
  repeat (apply elem_of_cons in Hop as [Hop|Hop]; [rewrite Hop |]);
    try (by apply elem_of_nil in Hop); try solve [solve_set];
    try (destruct (negb (Z.land tmp _ =? 0)); [solve_trap |]);
    (apply Hload; [unfold access_size; auto | | done]);
    intros w m' Hw Hm'; eexists; (split; [reflexivity |]); first [assumption | apply Hl; lia].
Qed.

Lemma merge_s32 byte old v : is_s32 old → is_s32 v →
  is_s32 (merge_lwl byte old v) ∧ is_s32 (merge_lwr byte old v) ∧
  is_s32 (merge_swl byte old v) ∧ is_s32 (merge_swr byte old v).
Proof.
  intros Ho Hv. unfold merge_lwl, merge_lwr, merge_swl, merge_swr.
  destruct (3 - byte) as [|[|[| |]|]|]; split_and!; first [assumption | apply s32_range].
Qed.

Lemma exec_load_unaligned_post m m0 i pc : cpu_inv m → decoded i → is_s32 pc →
  post (blame m0) outcome_ok (exec_load_unaligned be H m i pc).
Proof.
  intros Hm (Hrs & Hrt & Hrd & Hex & _) Hpc. unfold exec_load_unaligned. step_get.
  set (tmp := s32 (v + extra i)).
  assert (is_s32 (tmp - Z.land tmp 3)) as Ht.
  { change 3 with (2 ^ 2 - 1). rewrite land_low_mod by lia.
    pose proof (s32_range (v + extra i)) as Hr. fold tmp in Hr. unfold is_s32 in *.
    pose proof (Z.div_mod tmp (2 ^ 2)). pose proof (Z.mod_pos_bound tmp (2 ^ 2)). lia. }
  eapply post_bind; [apply ReadMem_post; [done | by right; right | done] |].
  intros [[w|] m'] Hr; cbn in Hr; cbn beta iota; [| exact Hr]. destruct Hr as (Hw & Hm' & _).
  step_get.
  assert (∀ old, is_s32 old → post (blame m0) outcome_ok (Ok (Done m' pc (rt i)
    (match opCode i with OP_LWL => merge_lwl (Z.land tmp 3) old w
     | _ => merge_lwr (Z.land tmp 3) old w end)))) as Hd.
  { intros old Hold. destruct (merge_s32 (Z.land tmp 3) old w Hold Hw) as (? & ? & _).
    cbn. split_and!; try done; try lia; try apply Hpc. all: by destruct (opCode i). }
  destruct (v0 =? rt i); cbn iota; step_get; by apply Hd.
Qed.

Lemma exec_hilo_post m m0 i pc : cpu_inv m → decoded i → is_s32 pc →
  post (blame m0) outcome_ok (exec_hilo m i pc).
Proof.
  intros Hm (Hrs & Hrt & Hrd & Hex & _) Hpc. unfold exec_hilo.
  assert (∀ sg, post (blame m0) outcome_ok (vs ← get m (rs i); vt ← get m (rt i);
      '(hi, lo) ← Mult vs vt sg; m ← put m HiReg hi; m ← put m LoReg lo; Ok (Done m pc 0 0))) as Hmul.
  { intros sg. do 2 step_get.
    destruct (Mult_correct v v0 sg) as (hi & lo & -> & Hhi & Hlo & _); [done.. |]. cbn [rbind].
    apply put_post; [done | reg_lia | reg_lia | done |]. intros m1 Hm1.
    apply put_post; [done | reg_lia | reg_lia | done |]. intros m2 Hm2. by apply done_ok. }
  destruct (opCode i); try apply Hmul; step_get; solve_set.
Qed.

Lemma exec_logic_post m m0 i pc : cpu_inv m → decoded i → is_s32 pc →
  opCode i ∈ [OP_NOR; OP_OR; OP_ORI] →
  post (blame m0) outcome_ok (exec_logic m i pc).
Proof.
  intros Hm (Hrs & Hrt & Hrd & Hex & _) Hpc Hop. unfold exec_logic. do 2 step_get.
  repeat (apply elem_of_cons in Hop as [Hop|Hop]; [rewrite Hop; solve_set |]).
  by apply elem_of_nil in Hop.
Qed.

Lemma exec_xor_post m m0 i pc : cpu_inv m → decoded i → is_s32 pc →
  post (blame m0) outcome_ok (exec_xor m i pc).
Proof.
  intros Hm (Hrs & Hrt & Hrd & Hex & _) Hpc. unfold exec_xor. do 2 step_get.
  destruct (opCode i); solve_set.
Qed.

Lemma exec_store_post m m0 i pc : cpu_inv m → decoded i → is_s32 pc →
  post (blame m0) outcome_ok (exec_store be H m i pc) ∧ post (blame m0) outcome_ok (exec_sw be H m i pc).
Proof.
  intros Hm (Hrs & Hrt & Hrd & Hex & _) Hpc. unfold exec_store, exec_sw.
  split; do 2 step_get; (eapply post_bind; [apply WriteMem_post; [done | | apply s32_range] |]).
  1,3: unfold access_size; destruct (opCode i); auto.
  all: intros [[] m'] Hm'; cbn in *; [by apply done_ok | done].
Qed.

Lemma exec_shift_slt_post m m0 i pc : cpu_inv m → decoded i → is_s32 pc →
  opCode i ∈ [OP_SLL; OP_SLLV; OP_SLT; OP_SLTI; OP_SLTIU; OP_SLTU; OP_SRA; OP_SRAV; OP_SRL; OP_SRLV] →
  post (blame m0) outcome_ok (exec_shift_slt m i pc).
Proof.
  intros Hm (Hrs & Hrt & Hrd & Hex & _ & Hsh) Hpc Hop. unfold exec_shift_slt. do 2 step_get.
  pose proof (land_pos_range v 31 ltac:(lia)).
  assert (∀ n, 0 ≤ n → post (blame m0) outcome_ok (set m (rd i) (Z.shiftr v0 n) pc)) as Hr.
  { intros n Hn. apply set_post; [assumption | reg_lia | reg_lia | by apply shiftr_s32 | assumption]. }
  cbv zeta.
  repeat (apply elem_of_cons in Hop as [Hop|Hop]; [rewrite Hop; try solve [solve_set] |]);
    try (apply Hr; lia); try (apply Hr, Hsh; rewrite Hop; set_solver).
  by apply elem_of_nil in Hop.
Qed.

Lemma exec_sub_post m m0 i pc : cpu_inv m → decoded i → is_s32 pc →
  post (blame m0) outcome_ok (exec_sub H m i pc).
Proof.
  intros Hm (Hrs & Hrt & Hrd & Hex & _) Hpc. unfold exec_sub. do 2 step_get.
  destruct (opCode i); try solve_set. case_match; [solve_trap | solve_set].
Qed.

Lemma exec_store_unaligned_post m m0 i pc : cpu_inv m → decoded i → is_s32 pc →
  post (blame m0) outcome_ok (exec_store_unaligned be H m i pc).
Proof.
  intros Hm (Hrs & Hrt & Hrd & Hex & _) Hpc. unfold exec_store_unaligned. step_get.
  set (tmp := s32 (v + extra i)).
  assert (is_s32 (tmp - Z.land tmp 3)) as Ht.
  { change 3 with (2 ^ 2 - 1). rewrite land_low_mod by lia.
    pose proof (s32_range (v + extra i)) as Hr. fold tmp in Hr. unfold is_s32 in *.
    pose proof (Z.div_mod tmp (2 ^ 2)). pose proof (Z.mod_pos_bound tmp (2 ^ 2)). lia. }
  eapply post_bind; [apply ReadMem_post; [done | by right; right | done] |].
  intros [[w|] m'] Hr; cbn in Hr; cbn beta iota; [| exact Hr]. destruct Hr as (Hw & Hm' & _).
  step_get.
  eapply post_bind; [apply WriteMem_post; [done | by right; right | done] |].
  intros [[] m''] Hm''; cbn in *; [by apply done_ok | done].
Qed.

Lemma execute_post m m0 i pc : cpu_inv m → decoded i → is_s32 pc → registers m = registers m0 →
  post (blame m0) outcome_ok (execute be H m i pc).
Proof.
  intros Hm Hi Hpc Hreg. unfold execute. pose proof Hi as (_ & _ & _ & _ & (? & ? & ?) & _).
  destruct (opCode i) eqn:Hop; try done;
    first
    [ apply trap_post; [assumption | s32]
    | apply exec_add_and_post; [assumption.. | rewrite Hop; set_solver]
    | apply exec_branch_post; assumption
    | apply exec_div_post; assumption
    | apply exec_jump_post; assumption
    | destruct (exec_load_post m m0 i pc Hm Hi Hpc) as [Hl|Hl]; [exact Hl | rewrite Hop in Hl; set_solver]
    | apply exec_load_unaligned_post; assumption
    | apply exec_hilo_post; assumption
    | apply exec_logic_post; [assumption.. | rewrite Hop; set_solver]
    | apply exec_xor_post; assumption
    | apply exec_store_post; assumption
    | apply exec_shift_slt_post; [assumption.. | rewrite Hop; set_solver]
    | apply exec_sub_post; assumption
    | apply exec_store_unaligned_post; assumption ].
Qed.

Lemma OneInstruction_post m : cpu_inv m → post (blame m) cpu_ok (OneInstruction be H m).
Proof.
  intros Hm. unfold OneInstruction. step_get.
  eapply post_bind; [apply ReadMem_post; [done | by right; right | done] |].
  intros [[w|] m1] Hr; cbn in Hr; cbn beta iota; [| exact Hr]. destruct Hr as (Hw & Hm1 & Hreg).
  destruct (Decode_ok (u32 w) (u32_range w)) as (i & -> & _ & Hi). cbn [rbind].
  step_get.
  eapply post_bind; [apply execute_post; [done | exact Hi | apply s32_range | done] |].
  intros [m2 pa nr nv|m2] Ho; [| exact Ho]. destruct Ho as (Hm2 & Hpa & Hnr & Hnv).
  destruct (DelayedLoad_ok m2 nr nv) as (m3 & -> & Hm3 & Hz); [done.. |]. cbn [rbind].
  assert (∀ m r v, cpu_ok m → 0 < r < 40 → r ≠ 37 → is_s32 v → ∃ m', put m r v = Ok m' ∧ cpu_ok m') as Hput.
  { intros m' r u [Hm' Hz'] Hr Hne Hu.
    destruct (regs_ok_set (registers m') r u) as [Hs Ho]; [apply Hm' | lia | done | done |].
    eexists. unfold put. rewrite Hs. split; [done |]. split; [by apply cpu_inv_regs |].
    cbn. by rewrite list_lookup_insert_ne by lia. }
  step_get. destruct (Hput m3 PrevPCReg v1) as (m4 & -> & Hm4 & Hz4); [done | reg_lia.. | done |].
  cbn [rbind]. step_get.
  destruct (Hput m4 PCReg v2) as (m5 & -> & Hm5); [done | reg_lia.. | done |]. cbn [rbind].
  destruct (Hput m5 NextPCReg pa) as (m6 & -> & Hm6); [done | reg_lia.. | done |]. exact Hm6.
Qed.
End safety.

(** With a page table every access translates or traps. *)
Section paged_safety.
Variable be : bool.
Variable H : ExceptionType → Machine → result Machine.
Hypothesis H_ok : ∀ ex m m', cpu_ok m → H ex m = Ok m' → cpu_ok m'.
#[local] Abbreviation cpu_inv := (machine_inv by_page_table).
#[local] Abbreviation blame := (blame by_page_table H (λ _, False)).

Lemma page_table_regs m r : by_page_table m → by_page_table (with_registers m r).
Proof. intros [pt Hp]. by exists pt. Qed.

Lemma page_table_status m st : by_page_table m → by_page_table (setStatus m st).
Proof. intros [pt Hp]. by exists pt. Qed.

Lemma touched_inv m pt va w : paged m pt → cpu_inv m → cpu_inv (touched m pt va w).
Proof.
  intros Hp (Hr & Hm & _). split; [done |]. split; [done |].
  eexists. by apply (paged_touched m pt).
Qed.

Lemma paged_raise m m0 ex a : cpu_inv m → is_s32 a → post (blame m0) cpu_ok (RaiseException H m ex a).
Proof. apply RaiseException_post; [apply page_table_regs | apply page_table_status | exact H_ok]. Qed.

Lemma paged_ReadMem m m0 va size : cpu_inv m → access_size size → is_s32 va →
  post (blame m0) (λ r, match r.1 with
    | Some v => is_s32 v ∧ cpu_inv r.2 ∧ registers r.2 = registers m
    | None => cpu_ok r.2 end) (ReadMem be H m va size).
Proof.
  intros Hm Hsz Hva. pose proof Hm as (_ & Hmem & pt & Hp).
  destruct (misaligned va size) eqn:Hal; [| destruct (page_lookup pt va false) as [ex|pa] eqn:Hpa].
  - unfold ReadMem. rewrite (Translate_page_table_eq m pt), Hal by done. cbn [rbind].
    eapply post_bind; [by apply paged_raise | done].
  - unfold ReadMem. rewrite (Translate_page_table_eq m pt), Hal, Hpa by done. cbn [rbind].
    eapply post_bind; [by apply paged_raise | done].
  - destruct (ReadMem_ok be H m pt va size pa) as (bs & Hg & ->); [done.. |]. cbn.
    split; [| split; [by apply touched_inv | done]].
    apply le_value_s32; [done | by eapply blk_get_length | eapply blk_get_Forall; [done | apply Hmem]].
Qed.

Lemma paged_WriteMem m m0 va size v : cpu_inv m → access_size size → is_s32 va →
  post (blame m0) (λ r, if r.1 : bool then cpu_inv r.2 else cpu_ok r.2) (WriteMem be H m va size v).
Proof.
  intros Hm Hsz Hva. pose proof Hm as (_ & Hmem & pt & Hp).
  destruct (misaligned va size) eqn:Hal; [| destruct (page_lookup pt va true) as [ex|pa] eqn:Hpa].
  - unfold WriteMem. rewrite (Translate_page_table_eq m pt), Hal by done. cbn [rbind].
    eapply post_bind; [by apply paged_raise | done].
  - unfold WriteMem. rewrite (Translate_page_table_eq m pt), Hal, Hpa by done. cbn [rbind].
    eapply post_bind; [by apply paged_raise | done].
  - destruct (WriteMem_ok be H m pt va size v pa) as (mem' & Hg & ->); [done.. |]. cbn.
    destruct (touched_inv m pt va true Hp Hm) as (? & ? & ?).
    split; [done |]. split; [| done].
    eapply blk_put_mem_ok; [done | | done]. apply le_is_byte. destruct Hsz as [->|[->| ->]]; lia.
Qed.
End paged_safety.

(** Whatever the translation tables, an instruction that ends leaves words in the
    registers and bytes in memory. *)
Definition machine_typed (m : Machine) : Prop := regs_ok (registers m) ∧ mem_ok (mainMemory m).

Lemma Machine_new_typed : machine_typed Machine_new.
Proof.
  split.
  - split; [done |]. split; [apply Forall_replicate; by unfold is_s32 |]. exists 0. split; [reflexivity | lia].
  - split; [vm_compute; reflexivity |]. apply Forall_replicate. unfold is_byte. lia.
Qed.

Section any_tables.
Variable be : bool.
Variable H : ExceptionType → Machine → result Machine.
#[local] Abbreviation any := (λ _ : Machine, True).
Hypothesis H_ok : ∀ ex m m', machine_ok any m → H ex m = Ok m' → machine_ok any m'.
#[local] Abbreviation blame := (blame any H (λ _, True)).

Lemma any_raise m m0 ex a : machine_inv any m → is_s32 a →
  post (blame m0) (machine_ok any) (RaiseException H m ex a).
Proof. apply RaiseException_post; [done | done | exact H_ok]. Qed.

Lemma any_fault m0 {A} (Q : A → Prop) r : (∀ a, r = Ok a → Q a) → post (blame m0) Q r.
Proof. destruct r as [a|e]; cbn; [auto | intros _; by right; right]. Qed.

Lemma any_ReadMem m m0 va size : machine_inv any m → access_size size → is_s32 va →
  post (blame m0) (λ r, match r.1 with
    | Some v => is_s32 v ∧ machine_inv any r.2 ∧ registers r.2 = registers m
    | None => machine_ok any r.2 end) (ReadMem be H m va size).
Proof.
  intros Hm Hsz Hva. pose proof Hm as (Hr & Hmem & _).
  destruct (Translate m va size false) as [[ex|[pa m1]]|] eqn:Ht.
  - unfold ReadMem. rewrite Ht. cbn [rbind]. eapply post_bind; [by apply any_raise | done].
  - apply Translate_keeps in Ht as Hk. destruct Hk as (Hkr & Hkm & _).
    rewrite (ReadMem_at be H m va size pa m1) by (done || by rewrite Hkm).
    apply any_fault. intros [v m'] (bs & Hbs & [= <- <-])%bind_Ok. cbn. rewrite Hkm in Hbs.
    split; [| by unfold machine_inv; rewrite Hkr, Hkm].
    apply le_value_s32; [done | by eapply blk_get_length | eapply blk_get_Forall; [done | apply Hmem]].
  - unfold ReadMem. rewrite Ht. by right; right.
Qed.

Lemma any_WriteMem m m0 va size v : machine_inv any m → access_size size → is_s32 va →
  post (blame m0) (λ r, if r.1 : bool then machine_inv any r.2 else machine_ok any r.2) (WriteMem be H m va size v).
Proof.
  intros Hm Hsz Hva. pose proof Hm as (Hr & Hmem & _).
  destruct (Translate m va size true) as [[ex|[pa m1]]|] eqn:Ht.
  - unfold WriteMem. rewrite Ht. cbn [rbind]. eapply post_bind; [by apply any_raise | done].
  - apply Translate_keeps in Ht as Hk. destruct Hk as (Hkr & Hkm & _).
    rewrite (WriteMem_at be H m va size v pa m1) by done.
    apply any_fault. intros [b m'] (mem & Hmm & [= <- <-])%bind_Ok. cbn.
    unfold machine_inv. cbn. rewrite Hkr. split; [done |]. split; [| done].
    eapply blk_put_mem_ok; [done | apply le_is_byte; destruct Hsz as [->|[->| ->]]; lia | by rewrite Hkm].
  - unfold WriteMem. rewrite Ht. by right; right.
Qed.

Lemma OneInstruction_typed m m' : machine_typed m → OneInstruction be H m = Ok m' → machine_typed m'.
Proof.
  intros [Hr Hm] Heq.
  pose proof (OneInstruction_post any ltac:(done) ltac:(done) be H H_ok (λ _, True) any_ReadMem any_WriteMem m) as Hp.
  rewrite Heq in Hp. by destruct Hp as [(? & ? & _) ?].
Qed.
End any_tables.

(** ** Unaligned words *)

Lemma s32_bits_eq a b :
  (∀ j, 0 ≤ j < 32 → Z.testbit a j = Z.testbit b j) → s32 a = s32 b.
Proof.
  intros Hb. apply Z.bits_inj'. intros i Hi. rewrite !s32_spec by done. apply Hb. lia.
Qed.

(** The four bytes of an aligned word are in one page, side by side. *)
Lemma page_lookup_word pt va w j : Z.land va 3 = 0 → 0 ≤ j < 4 →
  page_lookup pt (va + j) w =
    match page_lookup pt va w with inl ex => inl ex | inr pa => inr (pa + j) end.
Proof.
  change 3 with (2 ^ 2 - 1). rewrite land_low_mod by lia. intros Ha Hj. unfold page_lookup.
  pose proof (u32_range va) as Hu. unfold is_u32 in Hu.
  assert (u32 va mod 4 = 0) as Hu4 by (change 4 with (2 ^ 2); rewrite u32_mod_pow2 by lia; done).
  pose proof (Z.div_mod (u32 va) 4) as Hd4.
  assert (u32 (va + j) = u32 va + j) as ->.
  { destruct (u32_mod_eq va) as [k Hk]. unfold u32 at 1.
    replace (va + j) with (u32 va + j + (- k) * 2 ^ 32) by lia.
    rewrite Z_mod_plus_full. apply Z.mod_small. lia. }
  assert (PageSize = 256) as Hps by done. rewrite Hps.
  pose proof (Z.div_mod (u32 va) 256) as Hd. pose proof (Z.mod_pos_bound (u32 va) 256 ltac:(lia)).
  assert (u32 va mod 256 + j < 256) as Hlt.
  { assert ((u32 va mod 256) mod 4 = 0) as Hm4.
    { rewrite <- Hu4. change 256 with (4 * 64). rewrite Z.rem_mul_r by lia.
      rewrite Z.mul_comm, Z_mod_plus_full. apply Z.mod_mod. lia. }
    pose proof (Z.div_mod (u32 va mod 256) 4). lia. }
  replace ((u32 va + j) / 256) with (u32 va / 256)
    by (apply Z.div_unique with (u32 va mod 256 + j); lia).
  replace ((u32 va + j) mod 256) with (u32 va mod 256 + j)
    by (apply Z.mod_unique with (u32 va / 256); lia).
  repeat case_match; try congruence. simplify_eq. f_equal. lia.
Qed.

Definition le4 (b0 b1 b2 b3 : Z) : Z := little_endian_to_Z 8 [b0; b1; b2; b3].

Lemma le4_testbit b0 b1 b2 b3 j : Forall is_byte [b0; b1; b2; b3] → 0 ≤ j < 32 →
  Z.testbit (le4 b0 b1 b2 b3) j =
    Z.testbit (if j <? 8 then b0 else if j <? 16 then b1 else if j <? 24 then b2 else b3) (j mod 8).
Proof.
  intros Hb Hj. unfold le4.
  assert (∀ b, [b0; b1; b2; b3] !! Z.to_nat (j / 8) = Some b →
    Z.testbit (little_endian_to_Z 8 [b0; b1; b2; b3]) j = Z.testbit b (j mod 8)) as Hspec.
  { intros b Hl. apply little_endian_to_Z_spec; [lia | lia | exact Hb | exact Hl]. }
  apply Hspec. pose proof (Z.div_mod j 8). pose proof (Z.mod_pos_bound j 8 ltac:(lia)).
  destruct (Z.ltb_spec j 8); [by replace (j / 8) with 0 by lia |].
  destruct (Z.ltb_spec j 16); [by replace (j / 8) with 1 by lia |].
  destruct (Z.ltb_spec j 24); [by replace (j / 8) with 2 by lia |].
  by replace (j / 8) with 3 by lia.
Qed.

Lemma byte_high b j : is_byte b → 8 ≤ j → Z.testbit b j = false.
Proof.
  intros Hb Hj. apply Z.testbit_false; [lia |]. unfold is_byte in Hb.
  rewrite Z.div_small; [done |]. assert (2 ^ 8 ≤ 2 ^ j) by (apply Z.pow_le_mono_r; lia). lia.
Qed.

(** Bit [j] of each word, for the 32 values of [j]. *)
Ltac each_bit j :=
  let rec go k := lazymatch k with
    | O => lia
    | S ?k' => destruct (decide (j = Z.of_nat k')) as [->|]; [| go k']
    end in go 32%nat.

(** Evaluate a bit of a merged word at a literal position. *)
Ltac z_fold e :=
  let v := eval vm_compute in e in
  lazymatch v with Z0 => idtac | Zpos _ => idtac | Zneg _ => idtac end;
  change e with v.
Ltac z_norm :=
  repeat match goal with
  | |- context [Z.of_nat ?n] => z_fold (Z.of_nat n)
  | |- context [Z.sub ?a ?b] => z_fold (Z.sub a b)
  | |- context [Z.add ?a ?b] => z_fold (Z.add a b)
  | |- context [Z.modulo ?a ?b] => z_fold (Z.modulo a b)
  | |- context [Z.ltb ?a ?b] =>
      let v := eval vm_compute in (Z.ltb a b) in change (Z.ltb a b) with v
  | |- context [Z.eqb ?a ?b] =>
      let v := eval vm_compute in (Z.eqb a b) in change (Z.eqb a b) with v
  | |- context [Z.testbit (Zpos ?p) ?q] =>
      let v := eval vm_compute in (Z.testbit (Zpos p) q) in change (Z.testbit (Zpos p) q) with v
  | |- context [Z.testbit ?z (Zneg ?q)] => change (Z.testbit z (Zneg q)) with false
  end; cbv iota.
Ltac bit_eval :=
  z_norm;
  repeat (
    first [ rewrite Z.lor_spec | rewrite Z.land_spec | rewrite Z.shiftl_spec by lia
          | rewrite s32_low_bits by lia | rewrite u32_spec by lia | rewrite Z.shiftr_spec by lia
          | rewrite le4_testbit by (assumption || lia) ]; z_norm);
  rewrite ?andb_true_r, ?andb_false_r, ?orb_false_r, ?orb_false_l; try reflexivity.

Lemma merge_lwr_lwl k old b0 b1 b2 b3 c0 c1 c2 c3 : 0 < k < 4 →
  Forall is_byte [b0; b1; b2; b3] → Forall is_byte [c0; c1; c2; c3] →
  merge_lwl (k - 1) (merge_lwr k old (s32 (le4 b0 b1 b2 b3))) (s32 (le4 c0 c1 c2 c3)) =
    s32 (if k =? 1 then le4 b1 b2 b3 c0 else if k =? 2 then le4 b2 b3 c0 c1 else le4 b3 c0 c1 c2).
Proof.
  intros Hk Hb Hc.
  assert (Forall is_byte [b1; b2; b3; c0] ∧ Forall is_byte [b2; b3; c0; c1] ∧
    Forall is_byte [b3; c0; c1; c2]) as (H1 & H2 & H3).
  { rewrite !Forall_cons in *. naive_solver. }
  assert (k = 1 ∨ k = 2 ∨ k = 3) as Hk' by lia.
  destruct Hk' as [->|[->| ->]]; unfold merge_lwl, merge_lwr; z_norm;
    apply s32_bits_eq; intros j Hj.
  all: each_bit j; bit_eval.
Qed.

(** ** Properties *)

Lemma exact_product hi lo p : is_s32 hi → is_u32 lo → - 2 ^ 63 ≤ p < 2 ^ 63 →
  join (u32 hi) lo = p mod 2 ^ 64 → join hi lo = p.
Proof.
  unfold join, is_s32, is_u32. intros Hh Hl Hp Heq.
  destruct (u32_mod_eq hi) as [k Hk]. rewrite Hk in Heq.
  pose proof (Z.div_mod p (2 ^ 64)). nia.
Qed.

(** MULT and MULTU.  The shift-and-add loop of [Mult] ends within its 32
    rounds and leaves in hi:lo the exact 64-bit product of its operands, read
    as signed or as unsigned words. *)
Theorem Mult_product a b sg (Ha : is_s32 a) (Hb : is_s32 b) :
  ∃ hi lo, Mult a b sg = Ok (hi, lo) ∧ is_s32 hi ∧ is_s32 lo ∧
    if sg : bool then hi * 2 ^ 32 + u32 lo = a * b
    else u32 hi * 2 ^ 32 + u32 lo = u32 a * u32 b.
Proof.
  destruct (Mult_correct a b sg Ha Hb) as (hi & lo & -> & Hhi & Hlo & Hj).
  exists hi, lo. split; [done |]. split; [done |]. split; [done |]. destruct sg.
  - apply exact_product; [done | apply u32_range | | done]. unfold is_s32 in *. nia.
  - unfold join in Hj. rewrite Hj. apply Z.mod_small.
    pose proof (u32_range a). pose proof (u32_range b). unfold is_u32 in *. nia.
Qed.

Lemma Mult_product_witness : ∃ hi lo, Mult (-7) 100000 true = Ok (hi, lo) ∧ is_s32 hi ∧ is_s32 lo ∧
  hi * 2 ^ 32 + u32 lo = -700000.
Proof. apply (Mult_product (-7) 100000 true); unfold is_s32; lia. Defined.

(** C25: executing one user instruction is safe.  From a machine that
    translates through a page table and whose registers are words, R0 zero and
    no wild delayed load, with any word at the program counter and any kernel
    that gives such a machine back, the simulator never indexes outside its
    registers, tables or memory, never dereferences NULL and never fails an
    assertion: it stops only in the kernel or on the host division -2^31 / -1,
    and otherwise leaves such a machine. *)
Theorem OneInstruction_safe be H m
    (H_ok : ∀ ex m m', cpu_ok m → H ex m = Ok m' → cpu_ok m') (Hm : cpu_ok m) :
  match OneInstruction be H m with
  | Ok m' => cpu_ok m'
  | Fail e =>
      (e = Undefined ∧ ∃ r1 r2, registers m !! r1 = Some (- 2 ^ 31) ∧ registers m !! r2 = Some (-1)) ∨
      (∃ ex m1, cpu_ok m1 ∧ H ex m1 = Fail e)
  end.
Proof.
  pose proof (OneInstruction_post by_page_table page_table_regs page_table_status be H H_ok (λ _, False)
    (paged_ReadMem be H H_ok) (paged_WriteMem be H H_ok) m (proj1 Hm)) as Hp.
  destruct (OneInstruction be H m); [exact Hp |]. by destruct Hp as [?|[?|[]]]; [left | right].
Qed.

Lemma demo_cpu_ok : cpu_ok demo_machine.
Proof.
  split; [| reflexivity]. split; [| split].
  - split; [reflexivity |]. split; [apply Forall_replicate; unfold is_s32; lia |].
    exists 0. split; [reflexivity | lia].
  - split; [vm_compute; reflexivity |]. apply Forall_replicate. unfold is_byte. lia.
  - exists demo_pt. split_and!; reflexivity.
Qed.

Lemma OneInstruction_safe_witness :
  match OneInstruction false (λ _ m, Ok m) demo_machine with
  | Ok m' => cpu_ok m'
  | Fail e =>
      (e = Undefined ∧ ∃ r1 r2, registers demo_machine !! r1 = Some (- 2 ^ 31) ∧
         registers demo_machine !! r2 = Some (-1)) ∨
      (∃ ex m1, cpu_ok m1 ∧ (λ (_ : ExceptionType) m, Ok m) ex m1 = Fail e)
  end.
Proof.
  apply (OneInstruction_safe false (λ _ m, Ok m) demo_machine).
  - intros ex m m' Hm [= <-]. exact Hm.
  - exact demo_cpu_ok.
Defined.

Lemma sign_bit z : is_s32 z → (Z.land (u32 z) SIGN_BIT =? 0) = (0 <=? z).
Proof.
  intros Hz. pose proof (land_pow2_eqb (u32 z) 31 ltac:(lia)) as Ht.
  change (Z.shiftl 1 31) with SIGN_BIT in Ht. rewrite <- (negb_involutive (_ =? 0)), Ht.
  rewrite u32_spec by lia. cbn [Z.ltb Z.compare Pos.compare Pos.compare_cont].
  rewrite s32_high_bits by (done || lia).
  destruct (Z.ltb_spec z 0), (Z.leb_spec 0 z); done || lia.
Qed.

Lemma add_overflow a b : is_s32 a → is_s32 b →
  (Z.land (u32 (Z.lxor a b)) SIGN_BIT =? 0)
    && negb (Z.land (u32 (Z.lxor a (s32 (a + b)))) SIGN_BIT =? 0)
  = negb (bool_decide (is_s32 (a + b))).
Proof.
  intros Ha Hb. rewrite !sign_bit by (apply lxor_s32; try apply s32_range; done).
  pose proof (Z.lxor_nonneg a b) as H1. pose proof (Z.lxor_nonneg a (s32 (a + b))) as H2.
  pose proof (s32_range (a + b)) as Hs. destruct (s32_mod_eq (a + b)) as [k Hk].
  unfold is_s32 in Ha, Hb, Hs.
  destruct (Z.leb_spec 0 (Z.lxor a b)), (Z.leb_spec 0 (Z.lxor a (s32 (a + b)))); cbn;
    case_bool_decide as Hr; unfold is_s32 in Hr; cbn; try done; exfalso;
    try (assert (s32 (a + b) = a + b) as He by (apply s32_id; exact Hr)); lia.
Qed.

Lemma sub_overflow a b : is_s32 a → is_s32 b →
  negb (Z.land (u32 (Z.lxor a b)) SIGN_BIT =? 0)
    && negb (Z.land (u32 (Z.lxor a (s32 (a - b)))) SIGN_BIT =? 0)
  = negb (bool_decide (is_s32 (a - b))).
Proof.
  intros Ha Hb. rewrite !sign_bit by (apply lxor_s32; try apply s32_range; done).
  pose proof (Z.lxor_nonneg a b) as H1. pose proof (Z.lxor_nonneg a (s32 (a - b))) as H2.
  pose proof (s32_range (a - b)) as Hs. destruct (s32_mod_eq (a - b)) as [k Hk].
  unfold is_s32 in Ha, Hb, Hs.
  destruct (Z.leb_spec 0 (Z.lxor a b)), (Z.leb_spec 0 (Z.lxor a (s32 (a - b)))); cbn;
    case_bool_decide as Hr; unfold is_s32 in Hr; cbn; try done; exfalso;
    try (assert (s32 (a - b) = a - b) as He by (apply s32_id; exact Hr)); lia.
Qed.

(** ADD, ADDI and SUB raise the overflow exception exactly when the
    mathematical result leaves the 32-bit range, and otherwise put that very
    result in the target register: the sign-bit tests are exact. *)
Theorem overflow_exact H m i pc a b (Ha : is_s32 a) (Hb : is_s32 b) (Hx : is_s32 (extra i))
    (Hrs : get m (rs i) = Ok a) (Hrt : get m (rt i) = Ok b) :
  let result_of n r := if bool_decide (is_s32 n) then set m r n pc else trap H m OverflowException 0 in
  (opCode i = OP_ADD → exec_add_and H m i pc = result_of (a + b) (rd i)) ∧
  (opCode i = OP_ADDI → exec_add_and H m i pc = result_of (a + extra i) (rt i)) ∧
  (opCode i = OP_SUB → exec_sub H m i pc = result_of (a - b) (rd i)).
Proof.
  intros result_of. unfold exec_add_and, exec_sub, result_of. rewrite Hrs, Hrt. cbn [rbind].
  split; [| split]; intros ->; cbn zeta.
  - rewrite add_overflow by done. case_bool_decide; cbn [negb]; [by rewrite s32_id | done].
  - rewrite Z.lxor_comm, (Z.add_comm a), add_overflow by done.
    case_bool_decide; cbn [negb]; [by rewrite s32_id | done].
  - rewrite sub_overflow by done. case_bool_decide; cbn [negb]; [by rewrite s32_id | done].
Qed.

Lemma overflow_exact_witness :
  exec_add_and (λ _ m, Ok m)
    (with_registers demo_machine (<[1%nat := 2147483647]> (<[2%nat := 5]> (registers demo_machine))))
    (mkInstr 0 OP_ADD 1 2 3 0) 100
  = trap (λ _ m, Ok m)
      (with_registers demo_machine (<[1%nat := 2147483647]> (<[2%nat := 5]> (registers demo_machine))))
      OverflowException 0.
Proof.
  apply (overflow_exact (λ _ m, Ok m)
    (with_registers demo_machine (<[1%nat := 2147483647]> (<[2%nat := 5]> (registers demo_machine))))
    (mkInstr 0 OP_ADD 1 2 3 0) 100 2147483647 5); unfold is_s32; cbn; lia || reflexivity.
Defined.

(** The load half of LWL and LWR: the register gets the merge of its pending
    or current value with the aligned word that contains the address. *)
Lemma exec_load_unaligned_ok be H m pt i pc base pa lr old :
  paged m pt → mem_ok (mainMemory m) → get m (rs i) = Ok base →
  let va := s32 (base + extra i) in
  page_lookup pt (va - Z.land va 3) false = inr pa →
  get m LoadReg = Ok lr →
  get m (if lr =? rt i then LoadValueReg else rt i) = Ok old →
  ∃ b0 b1 b2 b3, Forall is_byte [b0; b1; b2; b3] ∧ blk_get (mainMemory m) pa 4 = Ok [b0; b1; b2; b3] ∧
  exec_load_unaligned be H m i pc = Ok (Done (touched m pt (va - Z.land va 3) false) pc (rt i)
    (match opCode i with
     | OP_LWL => merge_lwl (Z.land va 3) old (s32 (le4 b0 b1 b2 b3))
     | _ => merge_lwr (Z.land va 3) old (s32 (le4 b0 b1 b2 b3))
     end)).
Proof.
  intros Hp Hmem Hrs va Hpa Hlr Hold.
  assert (misaligned (va - Z.land va 3) 4 = false) as Hal.
  { unfold misaligned. cbn [Z.eqb Pos.eqb andb orb]. rewrite orb_false_r.
    apply negb_false_iff, Z.eqb_eq. change 3 with (2 ^ 2 - 1). rewrite !land_low_mod by lia.
    rewrite Zminus_mod_idemp_r. by rewrite Z.sub_diag. }
  destruct (ReadMem_ok be H m pt (va - Z.land va 3) 4 pa) as (bs & Hg & HR);
    [done | done | by right; right | done | done |].
  pose proof (blk_get_length _ _ _ _ Hg) as Hl.
  pose proof (blk_get_Forall _ _ _ _ _ Hg (proj2 Hmem)) as Hb.
  destruct bs as [|b0 [|b1 [|b2 [|b3 [|? ?]]]]]; cbn in Hl; try lia.
  exists b0, b1, b2, b3. split; [done |]. split; [done |].
  unfold exec_load_unaligned. rewrite Hrs. cbn [rbind]. fold va. rewrite HR. cbn [rbind].
  change (get (touched m pt (va - Z.land va 3) false)) with (get m).
  rewrite Hlr. cbn [rbind].
  destruct (lr =? rt i); rewrite Hold; reflexivity.
Qed.

(** The byte at [va], as LB reads it. *)
Definition byte_at (m : Machine) (pt : list TranslationEntry) (va : Z) : option Z :=
  match page_lookup pt va false with inl _ => None | inr pa => mainMemory m !! Z.to_nat pa end.

Lemma word_byte_at m pt va pa b0 b1 b2 b3 : Z.land va 3 = 0 →
  page_lookup pt va false = inr pa → blk_get (mainMemory m) pa 4 = Ok [b0; b1; b2; b3] →
  byte_at m pt va = Some b0 ∧ byte_at m pt (va + 1) = Some b1 ∧
  byte_at m pt (va + 2) = Some b2 ∧ byte_at m pt (va + 3) = Some b3.
Proof.
  intros Hal Hpa Hg. unfold byte_at.
  rewrite !(page_lookup_word pt va false) by (done || lia). rewrite Hpa.
  split_and!; [rewrite <- (Z.add_0_r pa) | ..];
    rewrite <- (blk_get_lookup _ _ _ _ _ Hg) by lia; reflexivity.
Qed.

Lemma lwr_lwl_offset va :
  let k := Z.land va 3 in
  0 ≤ k < 4 ∧ Z.land (va - k) 3 = 0 ∧
  (k = 0 → Z.land (va + 3) 3 = 3) ∧
  (0 < k → Z.land (va + 3) 3 = k - 1 ∧ va + 3 - (k - 1) = va - k + 4) ∧ Z.land (va - k + 4) 3 = 0.
Proof.
  assert (∀ z, Z.land z 3 = z mod 4) as Hl by (intros z; apply (land_low_mod z 2); lia).
  cbv zeta. rewrite !Hl.
  split_and!; intros; try split; Z.div_mod_to_equations; lia.
Qed.

Lemma byte_at_word m pt va b : byte_at m pt va = Some b →
  ∃ pa, page_lookup pt (va - Z.land va 3) false = inr pa.
Proof.
  unfold byte_at. intros Hb. destruct (lwr_lwl_offset va) as (Hk & Hal & _).
  replace va with (va - Z.land va 3 + Z.land va 3) in Hb at 1 by lia.
  rewrite page_lookup_word in Hb by done.
  destruct (page_lookup pt (va - Z.land va 3) false); naive_solver.
Qed.

Lemma byte_at_inj m pt a a' x y :
  byte_at m pt a = Some x → byte_at m pt a' = Some y → a = a' → x = y.
Proof. intros. simplify_eq. congruence. Qed.

(** A load goes pending when none was. *)
Lemma pending_load m nr nv : length (registers m) = 40%nat → get m LoadReg = Ok 0 →
  ∃ m', DelayedLoad m nr nv = Ok m' ∧ mainMemory m' = mainMemory m ∧
    (∀ pt, paged m pt → paged m' pt) ∧ get m' LoadReg = Ok nr ∧ get m' LoadValueReg = Ok nv ∧
    ∀ r, 0 < r < 32 → get m' r = get m r.
Proof.
  intros Hlen Hpend. unfold DelayedLoad, get in *. rewrite Hpend. cbn [rbind].
  destruct (aget_is_Ok (registers m) LoadValueReg) as [lv ->]; [unfold LoadValueReg; lia |].
  cbn [rbind]. unfold LoadReg, LoadValueReg, aget.
  rewrite !aset_in by (rewrite ?length_insert; lia). cbn [rbind].
  rewrite !aset_in by (rewrite ?length_insert; lia). cbn [rbind].
  rewrite !aset_in by (rewrite ?length_insert; lia). cbn [rbind].
  rewrite !aset_in by (rewrite ?length_insert; lia). cbn [rbind].
  eexists. split; [reflexivity |]. split; [done |]. split; [done |]. cbn [registers with_registers].
  split; [| split]; cbn [Z.leb Z.compare].
  - do 2 rewrite list_lookup_insert_ne by lia. by rewrite list_lookup_insert_eq by (rewrite length_insert; lia).
  - rewrite list_lookup_insert_ne by lia. by rewrite list_lookup_insert_eq by (rewrite !length_insert; lia).
  - intros r Hr. by rewrite !list_lookup_insert_ne by lia.
Qed.

(** LWR followed by LWL loads an unaligned word.  Executed one after the
    other at [va] and [va + 3], the second while the first's delayed load is
    still pending, they deliver the little-endian word of the four bytes at
    [va], wherever these lie: in one aligned word or across two, in one page
    or across two. *)
Theorem unaligned_load be H m pt i1 i2 pc1 pc2 base b0 b1 b2 b3
    (Hp : paged m pt) (Hmem : mem_ok (mainMemory m))
    (Hlen : length (registers m) = 40%nat)
    (Hop1 : opCode i1 = OP_LWR) (Hop2 : opCode i2 = OP_LWL)
    (Hrt : rt i1 = rt i2) (Hrt1 : 0 < rt i1 < 32) (Hrs : rs i1 = rs i2) (Hrs1 : 0 <= rs i1 < 32)
    (Hpend : get m LoadReg = Ok 0) (Hbase : get m (rs i1) = Ok base)
    (Hx : extra i2 = extra i1 + 3) (Hva : is_s32 (base + extra i1)) (Hva3 : is_s32 (base + extra i1 + 3))
    (H0 : byte_at m pt (base + extra i1) = Some b0)
    (H1 : byte_at m pt (base + extra i1 + 1) = Some b1)
    (H2 : byte_at m pt (base + extra i1 + 2) = Some b2)
    (H3 : byte_at m pt (base + extra i1 + 3) = Some b3)
    (Hne : rs i1 ≠ 0) :
  ∃ v1 m1 m1' m2, exec_load_unaligned be H m i1 pc1 = Ok (Done m1 pc1 (rt i1) v1) ∧
    DelayedLoad m1 (rt i1) v1 = Ok m1' ∧
    exec_load_unaligned be H m1' i2 pc2 = Ok (Done m2 pc2 (rt i2) (s32 (le4 b0 b1 b2 b3))).
Proof.
  set (va := base + extra i1) in *. assert (base + extra i2 = va + 3) as Hva2 by lia.
  destruct (lwr_lwl_offset va) as (Hk & Hal & Hk0 & Hk1 & Hal4).
  destruct (byte_at_word _ _ _ _ H0) as [pa Hpa], (byte_at_word _ _ _ _ H3) as [pa2 Hpa2].
  set (k := Z.land va 3) in *.
  destruct (aget_is_Ok (registers m) (rt i1)) as [old Hold]; [lia |].
  destruct (exec_load_unaligned_ok be H m pt i1 pc1 base pa 0 old)
    as (w0 & w1 & w2 & w3 & Hw & Hgw & HE1); [done | done | done | | done | |].
  { fold va. rewrite s32_id by done. exact Hpa. }
  { destruct (Z.eqb_spec 0 (rt i1)); [lia | done]. }
  fold va in HE1. rewrite s32_id, Hop1 in HE1 by done. fold k in HE1.
  set (v1 := merge_lwr k old (s32 (le4 w0 w1 w2 w3))) in *.
  set (m1 := touched m pt (va - k) false) in *.
  destruct (word_byte_at m pt (va - k) pa w0 w1 w2 w3) as (Hb0 & Hb1 & Hb2 & Hb3); [done.. |].
  destruct (pending_load m1 (rt i1) v1) as (m1' & HD & Hmem1 & Hpg & Hlr & Hlv & Hget); [done.. |].
  destruct (exec_load_unaligned_ok be H m1' (touch pt (va - k) false) i2 pc2 base pa2 (rt i2) v1)
    as (c0 & c1 & c2 & c3 & Hc & Hgc & HE2);
    [by apply Hpg, paged_touched | by rewrite Hmem1 | by rewrite Hget, <- Hrs by lia
    | by rewrite Hva2, s32_id, touch_lookup by done | by rewrite <- Hrt | by rewrite Z.eqb_refl |].
  rewrite Hva2, s32_id, Hop2 in HE2 by done.
  eexists _, _, m1', _. split; [exact HE1 |]. split; [exact HD |]. rewrite HE2. do 2 f_equal.
  rewrite Hmem1 in Hgc. change (mainMemory m1) with (mainMemory m) in Hgc.
  pose proof (byte_at_inj m pt) as Hinj.
  destruct (decide (k = 0)) as [Hz|Hnz].
  - rewrite (Hk0 Hz) in *. replace (va + 3 - 3) with (va - k) in Hpa2 by lia.
    rewrite Hpa in Hpa2. injection Hpa2 as <-. rewrite Hgw in Hgc. injection Hgc as <- <- <- <-.
    rewrite <- (Hinj _ _ _ _ Hb0 H0), <- (Hinj _ _ _ _ Hb1 H1), <- (Hinj _ _ _ _ Hb2 H2),
      <- (Hinj _ _ _ _ Hb3 H3) by lia. reflexivity.
  - destruct (Hk1 ltac:(lia)) as [Hk3 Hq]. rewrite Hk3 in *. unfold v1.
    rewrite Hq in Hpa2. rewrite merge_lwr_lwl by (done || lia).
    destruct (word_byte_at m pt (va - k + 4) pa2 c0 c1 c2 c3) as (Hd0 & Hd1 & Hd2 & Hd3); [done.. |].
    assert (k = 1 ∨ k = 2 ∨ k = 3) as Hk' by lia. clearbody k.
    destruct Hk' as [->|[->| ->]]; cbn [Z.eqb Pos.eqb].
    + rewrite (Hinj _ _ _ _ Hb1 H0), (Hinj _ _ _ _ Hb2 H1), (Hinj _ _ _ _ Hb3 H2),
        (Hinj _ _ _ _ Hd0 H3) by lia. done.
    + rewrite (Hinj _ _ _ _ Hb2 H0), (Hinj _ _ _ _ Hb3 H1), (Hinj _ _ _ _ Hd0 H2),
        (Hinj _ _ _ _ Hd1 H3) by lia. done.
    + rewrite (Hinj _ _ _ _ Hb3 H0), (Hinj _ _ _ _ Hd0 H1), (Hinj _ _ _ _ Hd1 H2),
        (Hinj _ _ _ _ Hd2 H3) by lia. done.
Qed.

(** The bytes 1, 2, ..., 8 at physical address 5 * 256, which [demo_pt] maps at 0. *)
Definition demo_memory : Machine :=
  with_registers
    (with_memory demo_machine (list_inserts (5 * 256) [1; 2; 3; 4; 5; 6; 7; 8] (mainMemory demo_machine)))
    (<[1%nat := 2]> (registers demo_machine)).

Lemma unaligned_load_witness : ∃ v1 m1 m1' m2,
  exec_load_unaligned false (λ _ m, Ok m) demo_memory (mkInstr 0 OP_LWR 1 9 0 0) 4 = Ok (Done m1 4 9 v1) ∧
  DelayedLoad m1 9 v1 = Ok m1' ∧
  exec_load_unaligned false (λ _ m, Ok m) m1' (mkInstr 0 OP_LWL 1 9 0 3) 8
    = Ok (Done m2 8 9 (s32 (le4 3 4 5 6))).
Proof.
  apply (unaligned_load false (λ _ m, Ok m) demo_memory demo_pt (mkInstr 0 OP_LWR 1 9 0 0)
    (mkInstr 0 OP_LWL 1 9 0 3) 4 8 2 3 4 5 6);
    try (vm_compute; reflexivity); try (cbn; lia); try (split_and!; vm_compute; reflexivity).
  - split; [vm_compute; reflexivity |].
    apply (Forall_iff (λ b, bool_decide (0 ≤ b < 256))).
    + intros b. unfold is_byte. by rewrite bool_decide_spec.
    + apply (proj1 (forallb_True _ _)). vm_compute. exact I.
  - unfold is_s32. cbn. lia.
  - unfold is_s32. cbn. lia.
Defined.

(** SRL and SRLV shift arithmetically.  The right shift goes through a
    signed [int] (mipssim.cc), so both fill with the sign: they compute the
    same as SRA and SRAV, and on a negative word SRL by a positive amount
    never gives the zero-filled word the instruction stands for. *)
Theorem SRL_is_arithmetic m i pc vs vt
    (Hrs : get m (rs i) = Ok vs) (Hrt : get m (rt i) = Ok vt) (Hvt : is_s32 vt)
    (Hx : 0 <= extra i < 32) :
  (opCode i = OP_SRL → exec_shift_slt m i pc = set m (rd i) (vt / 2 ^ extra i) pc) ∧
  (opCode i = OP_SRLV → exec_shift_slt m i pc = set m (rd i) (vt / 2 ^ (vs mod 32)) pc) ∧
  (vt < 0 → 0 < extra i → vt / 2 ^ extra i ≠ s32 (u32 vt / 2 ^ extra i)).
Proof.
  unfold exec_shift_slt. rewrite Hrs, Hrt. cbn [rbind].
  split; [| split].
  - intros ->. by rewrite Z.shiftr_div_pow2 by lia.
  - intros ->. change 31 with (Z.ones 5). rewrite Z.land_ones by lia.
    rewrite Z.shiftr_div_pow2 by (pose proof (Z.mod_pos_bound vs (2 ^ 5)); lia). done.
  - intros Hneg Hpos Heq. unfold is_s32 in Hvt.
    assert (u32 vt = vt + 2 ^ 32) as Hu by (unfold u32; symmetry; apply Z.mod_unique with (-1); lia).
    assert (2 ^ 1 ≤ 2 ^ extra i) by (apply Z.pow_le_mono_r; lia).
    assert (vt / 2 ^ extra i < 0) by (apply Z.div_lt_upper_bound; lia).
    assert (0 ≤ u32 vt / 2 ^ extra i < 2 ^ 31) as Hs.
    { rewrite Hu. split; [apply Z.div_pos; lia | apply Z.div_lt_upper_bound; nia]. }
    rewrite s32_id in Heq; [lia |]. unfold is_s32. lia.
Qed.

Definition demo_negative : Machine := with_registers demo_machine (<[1%nat := -8]> (registers demo_machine)).

Lemma SRL_is_arithmetic_witness :
  exec_shift_slt demo_negative (mkInstr 0 OP_SRL 0 1 2 2) 100 = set demo_negative 2 (-2) 100 ∧
  -8 / 2 ^ 2 ≠ s32 (u32 (-8) / 2 ^ 2).
Proof.
  destruct (SRL_is_arithmetic demo_negative (mkInstr 0 OP_SRL 0 1 2 2) 100 0 (-8)) as (H1 & _ & H3);
    [reflexivity | reflexivity | unfold is_s32; lia | cbn; lia |].
  split; [exact (H1 eq_refl) | apply H3; cbn; lia].
Defined.
