(* ===== verification/HostFile.v ===== *)
(** * Files kept on the host (lib/sysdep.cc, filesys/openfile.h and filesys/filesys.h
      with [FILESYS_STUB])

    The build keeps Nachos files in the host's file system.  [Host] is that
    file system as POSIX describes it, for regular files and one process:
    names lead to inodes, descriptors to an inode and an offset.  [OpenFile] and
    [FileSystem] are the stub classes on top of it. *)

From S2P Require Import Prelude Machine.
Local Open Scope Z_scope.

(** ** The host *)

Record Host := mkHost {
  inodes : gmap Z (list Z);
  names : gmap (list Z) Z;
  fds : gmap Z (Z * Z);
  nextInode : Z }.

Definition with_inode (h : Host) ino c :=
  mkHost (<[ino := c]> (inodes h)) (names h) (fds h) (nextInode h).
Definition with_fds (h : Host) f := mkHost (inodes h) (names h) f (nextInode h).

(** The lowest descriptor not in use. *)
Definition lowest_fd (f : gmap Z (Z * Z)) : Z :=
  default 0 (head (filter (λ fd, f !! fd = None) (seqZ 0 (Z.of_nat (size f) + 1)))).

Definition host_open (h : Host) (name : list Z) : Z * Host :=
  match names h !! name with
  | None => (-1, h)
  | Some ino => let fd := lowest_fd (fds h) in (fd, with_fds h (<[fd := (ino, 0)]> (fds h)))
  end.

Definition host_creat (h : Host) (name : list Z) : Z * Host :=
  let '(ino, h) :=
    match names h !! name with
    | Some ino => (ino, with_inode h ino [])
    | None => (nextInode h, mkHost (<[nextInode h := []]> (inodes h))
                 (<[name := nextInode h]> (names h)) (fds h) (nextInode h + 1))
    end in
  let fd := lowest_fd (fds h) in
  (fd, with_fds h (<[fd := (ino, 0)]> (fds h))).

(** [read] finds [bytes_at]; the contents [write] leaves: a write past the end
    fills the gap with zeros. *)
Definition overwrite (c : list Z) (pos : Z) (bs : list Z) : list Z :=
  let p := Z.to_nat pos in
  if decide (bs = []) then c
  else take p c ++ replicate (p - length c) 0 ++ bs ++ drop (p + length bs) c.

(** ** lib/sysdep.cc *)

Definition OpenForWrite (h : Host) (name : list Z) : result (Z * Host) :=
  let '(fd, h) := host_creat h name in
  ASSERT (0 <=? fd);;
  Ok (fd, h).

Definition OpenForReadWrite (h : Host) (name : list Z) (crashOnError : bool) : result (Z * Host) :=
  let '(fd, h) := host_open h name in
  ASSERT (negb crashOnError || (0 <=? fd));;
  Ok (fd, h).

(** An open descriptor; the kernel never uses another. *)
Definition host_fd (h : Host) (fd : Z) : result (Z * Z * list Z) :=
  match fds h !! fd with
  | None => Fail Undefined
  | Some (ino, off) =>
      match inodes h !! ino with Some c => Ok (ino, off, c) | None => Fail Undefined end
  end.

Definition ReadPartial (h : Host) (fd nBytes : Z) : result (list Z * Host) :=
  '(ino, off, c) ← host_fd h fd;
  if nBytes <? 0 then Fail Undefined
  else
    let bs := bytes_at c off nBytes in
    Ok (bs, with_fds h (<[fd := (ino, off + Z.of_nat (length bs))]> (fds h))).

Definition Read (h : Host) (fd nBytes : Z) : result (list Z * Host) :=
  '(bs, h) ← ReadPartial h fd nBytes;
  ASSERT (Z.of_nat (length bs) =? nBytes);;
  Ok (bs, h).

Definition WriteFile (h : Host) (fd : Z) (bs : list Z) : result Host :=
  '(ino, off, c) ← host_fd h fd;
  Ok (with_inode (with_fds h (<[fd := (ino, off + Z.of_nat (length bs))]> (fds h)))
        ino (overwrite c off bs)).

(** [whence] is 0 (from the start) or 2 (from the end); the offset [lseek]
    returns is kept in an [int]. *)
Definition Lseek (h : Host) (fd offset whence : Z) : result Host :=
  '(ino, off, c) ← host_fd h fd;
  let target := if whence =? 0 then offset else Z.of_nat (length c) + offset in
  ASSERT (0 <=? target);;
  ASSERT (0 <=? s32 target);;
  Ok (with_fds h (<[fd := (ino, target)]> (fds h))).

Definition Tell (h : Host) (fd : Z) : result Z :=
  '(ino, off, c) ← host_fd h fd;
  Ok (s32 off).

Definition Close (h : Host) (fd : Z) : result Host :=
  ASSERT (bool_decide (is_Some (fds h !! fd)));;
  Ok (with_fds h (delete fd (fds h))).

(** The C [bool] that [Unlink] makes of [unlink]'s result: true on failure. *)
Definition Unlink (h : Host) (name : list Z) : bool * Host :=
  match names h !! name with
  | None => (true, h)
  | Some _ => (false, mkHost (inodes h) (delete name (names h)) (fds h) (nextInode h))
  end.

(** ** OpenFile *)

(** [filename] is the buffer of [strlen (name) + 1] bytes the constructor
    fills with [strncpy (filename, name, strlen (name))]; [raw] is what [new]
    left in it. *)
Record OpenFile := mkOpenFile {
  file : Z; currentOffset : Z; type : Z; filename : list Z }.

Definition strlen (name : list Z) : Z := Z.of_nat (length name).

Definition OpenFile_new (f t : Z) (name raw : list Z) : result OpenFile :=
  buf ← blk_put raw 0 name;
  Ok (mkOpenFile f 0 t buf).

Definition with_offset (o : OpenFile) (off : Z) : OpenFile :=
  mkOpenFile (file o) off (type o) (filename o).

Definition OpenFile_delete (h : Host) (o : OpenFile) : result Host := Close h (file o).

Definition Seek (h : Host) (o : OpenFile) (pos : Z) : result (Z * Host * OpenFile) :=
  h ← Lseek h (file o) pos 0;
  off ← Tell h (file o);
  Ok (off, h, with_offset o off).

Definition ReadAt (h : Host) (o : OpenFile) (numBytes position : Z) : result (list Z * Host) :=
  h ← Lseek h (file o) position 0;
  ReadPartial h (file o) numBytes.

Definition WriteAt (h : Host) (o : OpenFile) (from : list Z) (position : Z) : result (Z * Host) :=
  h ← Lseek h (file o) position 0;
  h ← WriteFile h (file o) from;
  Ok (Z.of_nat (length from), h).

Definition OpenFile_Read (h : Host) (o : OpenFile) (numBytes : Z) :
    result (list Z * Host * OpenFile) :=
  '(bs, h) ← ReadAt h o numBytes (currentOffset o);
  Ok (bs, h, with_offset o (s32 (currentOffset o + Z.of_nat (length bs)))).

Definition OpenFile_Write (h : Host) (o : OpenFile) (from : list Z) :
    result (Z * Host * OpenFile) :=
  '(n, h) ← WriteAt h o from (currentOffset o);
  Ok (n, h, with_offset o (s32 (currentOffset o + n))).

Definition Length (h : Host) (o : OpenFile) : result (Z * Host) :=
  h ← Lseek h (file o) 0 2;
  len ← Tell h (file o);
  h ← Lseek h (file o) (currentOffset o) 0;
  Ok (len, h).

Definition GetCurrentPos (h : Host) (o : OpenFile) : result (Z * OpenFile) :=
  off ← Tell h (file o);
  Ok (off, with_offset o off).

(** ** A file as its clients see it

    The contents, the implicit position, and the host's own offset, which
    [ReadAt] and [WriteAt] move and only [GetCurrentPos] shows. *)
Record view := mkView { contents : list Z; pos : Z; hostpos : Z }.

Inductive fcall :=
  | FSeek (p : Z) | FRead (n : Z) | FReadAt (n p : Z)
  | FWrite (bs : list Z) | FWriteAt (bs : list Z) (p : Z) | FLength | FCurrent.
Inductive fret := RInt (z : Z) | RBytes (bs : list Z).

Definition view_read (v : view) (n p : Z) : result (list Z) :=
  ASSERT (0 <=? p);; if n <? 0 then Fail Undefined else Ok (bytes_at (contents v) p n).

Definition view_call (v : view) (c : fcall) : result (fret * view) :=
  match c with
  | FSeek p => ASSERT (0 <=? p);; Ok (RInt p, mkView (contents v) p p)
  | FRead n =>
      bs ← view_read v n (pos v);
      let len := Z.of_nat (length bs) in
      Ok (RBytes bs, mkView (contents v) (s32 (pos v + len)) (pos v + len))
  | FReadAt n p =>
      bs ← view_read v n p;
      Ok (RBytes bs, mkView (contents v) (pos v) (p + Z.of_nat (length bs)))
  | FWrite bs =>
      let len := Z.of_nat (length bs) in
      ASSERT (0 <=? pos v);;
      Ok (RInt len, mkView (overwrite (contents v) (pos v) bs) (s32 (pos v + len)) (pos v + len))
  | FWriteAt bs p =>
      let len := Z.of_nat (length bs) in
      ASSERT (0 <=? p);;
      Ok (RInt len, mkView (overwrite (contents v) p bs) (pos v) (p + len))
  | FLength =>
      let len := Z.of_nat (length (contents v)) in
      ASSERT (0 <=? s32 len);;
      ASSERT (0 <=? pos v);;
      Ok (RInt (s32 len), mkView (contents v) (pos v) (pos v))
  | FCurrent => Ok (RInt (s32 (hostpos v)), mkView (contents v) (s32 (hostpos v)) (hostpos v))
  end.

Definition file_call (h : Host) (o : OpenFile) (c : fcall) : result (fret * Host * OpenFile) :=
  match c with
  | FSeek p => '(r, h, o) ← Seek h o p; Ok (RInt r, h, o)
  | FRead n => '(r, h, o) ← OpenFile_Read h o n; Ok (RBytes r, h, o)
  | FReadAt n p => '(r, h) ← ReadAt h o n p; Ok (RBytes r, h, o)
  | FWrite bs => '(r, h, o) ← OpenFile_Write h o bs; Ok (RInt r, h, o)
  | FWriteAt bs p => '(r, h) ← WriteAt h o bs p; Ok (RInt r, h, o)
  | FLength => '(r, h) ← Length h o; Ok (RInt r, h, o)
  | FCurrent => '(r, o) ← GetCurrentPos h o; Ok (RInt r, h, o)
  end.

(** Arguments are [int]s. *)
Definition fcall_ok (c : fcall) : Prop :=
  match c with
  | FSeek p | FWriteAt _ p | FReadAt _ p => is_s32 p
  | _ => True
  end.

Definition run_calls {S} (step : S → fcall → result (fret * S)) : S → list fcall → result (list fret * S) :=
  fix go s cs :=
    match cs with
    | [] => Ok ([], s)
    | c :: cs => '(r, s) ← step s c; '(rs, s) ← go s cs; Ok (r :: rs, s)
    end.

Lemma run_calls_cons {S} step (s : S) c cs :
  run_calls step s (c :: cs) =
    ('(r, s) ← step s c; '(rs, s) ← run_calls step s cs; Ok (r :: rs, s)).
Proof. reflexivity. Qed.

(** [opens h o ino v]: [o] is open on the inode [ino], which shows as [v]. *)
Definition opens (h : Host) (o : OpenFile) (ino : Z) (v : view) : Prop :=
  fds h !! file o = Some (ino, hostpos v) ∧ inodes h !! ino = Some (contents v) ∧
  currentOffset o = pos v ∧ is_s32 (pos v).

(** What an operation on [o] leaves alone. *)
Definition others (h h' : Host) (o : OpenFile) (ino : Z) : Prop :=
  names h' = names h ∧ nextInode h' = nextInode h ∧
  (∀ i, i ≠ ino → inodes h' !! i = inodes h !! i) ∧
  (∀ fd, fd ≠ file o → fds h' !! fd = fds h !! fd).

Lemma others_refl h o ino : others h h o ino.
Proof. by split_and!. Qed.

Lemma others_trans h1 h2 h3 o ino : others h1 h2 o ino → others h2 h3 o ino → others h1 h3 o ino.
Proof.
  intros (H1 & H2 & H3 & H4) (G1 & G2 & G3 & G4).
  split_and!; [congruence | congruence | intros; by rewrite G3, H3 | intros; by rewrite G4, H4].
Qed.

Lemma host_fd_Ok h o ino v : opens h o ino v → host_fd h (file o) = Ok (ino, hostpos v, contents v).
Proof. intros (H1 & H2 & _). unfold host_fd. by rewrite H1, H2. Qed.

(** [Lseek] to an [int] position. *)
Lemma Lseek_spec h o ino v p : opens h o ino v → is_s32 p →
  if 0 <=? p then ∃ h', Lseek h (file o) p 0 = Ok h' ∧
    opens h' o ino (mkView (contents v) (pos v) p) ∧ others h h' o ino
  else Lseek h (file o) p 0 = Fail AssertFailed.
Proof.
  intros Ho Hp. unfold Lseek. rewrite (host_fd_Ok _ _ _ _ Ho). cbn [rbind Z.eqb].
  rewrite s32_id by done. destruct (Z.leb_spec 0 p); [| done]. cbn [rbind].
  eexists. split; [done |]. destruct Ho as (H1 & H2 & H3 & H4). split.
  - split_and!; try done; cbn; by rewrite ?lookup_insert_eq.
  - split_and!; try done; cbn. intros fd Hne. by rewrite lookup_insert_ne by done.
Qed.

Lemma ReadPartial_spec h o ino v n : opens h o ino v → 0 ≤ n →
  ∃ h', let bs := bytes_at (contents v) (hostpos v) n in ReadPartial h (file o) n = Ok (bs, h') ∧
    opens h' o ino (mkView (contents v) (pos v) (hostpos v + Z.of_nat (length bs))) ∧ others h h' o ino.
Proof.
  intros Ho Hn. unfold ReadPartial. rewrite (host_fd_Ok _ _ _ _ Ho). cbn [rbind].
  destruct (Z.ltb_spec n 0); [lia |]. destruct Ho as (H1 & H2 & H3 & H4).
  eexists. split; [done |]. split.
  - split_and!; try done; cbn; by rewrite ?lookup_insert_eq.
  - split_and!; try done; cbn. intros fd Hne. by rewrite lookup_insert_ne by done.
Qed.

Lemma WriteFile_spec h o ino v bs : opens h o ino v →
  ∃ h', WriteFile h (file o) bs = Ok h' ∧
    opens h' o ino (mkView (overwrite (contents v) (hostpos v) bs) (pos v)
                      (hostpos v + Z.of_nat (length bs))) ∧ others h h' o ino.
Proof.
  intros Ho. unfold WriteFile. rewrite (host_fd_Ok _ _ _ _ Ho). cbn [rbind].
  destruct Ho as (H1 & H2 & H3 & H4). eexists. split; [done |]. split.
  - split_and!; try done; cbn; by rewrite ?lookup_insert_eq.
  - split_and!; try done; cbn; intros; by rewrite lookup_insert_ne by done.
Qed.

Lemma Tell_spec h o ino v : opens h o ino v → Tell h (file o) = Ok (s32 (hostpos v)).
Proof. intros Ho. unfold Tell. by rewrite (host_fd_Ok _ _ _ _ Ho). Qed.

Lemma opens_offset h o ino v p : opens h o ino v → is_s32 p →
  opens h (with_offset o p) ino (mkView (contents v) p (hostpos v)).
Proof. intros (? & ? & ? & ?) ?. by split_and!. Qed.

Lemma ReadAt_spec h o ino v n p : opens h o ino v → is_s32 p →
  match view_read v n p with
  | Ok bs => ∃ h', ReadAt h o n p = Ok (bs, h') ∧
      opens h' o ino (mkView (contents v) (pos v) (p + Z.of_nat (length bs))) ∧ others h h' o ino
  | Fail e => ReadAt h o n p = Fail e
  end.
Proof.
  intros Ho Hp. unfold view_read, ReadAt. pose proof (Lseek_spec h o ino v p Ho Hp) as Hl.
  destruct (0 <=? p); cbn [rbind]; [| by rewrite Hl].
  destruct Hl as (h1 & -> & Ho1 & Hx1). cbn [rbind].
  destruct (Z.ltb_spec n 0) as [Hn|Hn].
  - unfold ReadPartial. rewrite (host_fd_Ok _ _ _ _ Ho1). cbn [rbind].
    by destruct (Z.ltb_spec n 0); [| lia].
  - destruct (ReadPartial_spec _ _ _ _ n Ho1 Hn) as (h2 & -> & Ho2 & Hx2).
    exists h2. split; [done |]. split; [exact Ho2 | by eapply others_trans].
Qed.

Lemma WriteAt_spec h o ino v bs p : opens h o ino v → is_s32 p →
  if 0 <=? p then ∃ h', WriteAt h o bs p = Ok (Z.of_nat (length bs), h') ∧
    opens h' o ino (mkView (overwrite (contents v) p bs) (pos v) (p + Z.of_nat (length bs))) ∧
    others h h' o ino
  else WriteAt h o bs p = Fail AssertFailed.
Proof.
  intros Ho Hp. unfold WriteAt. pose proof (Lseek_spec h o ino v p Ho Hp) as Hl.
  destruct (0 <=? p); [| by rewrite Hl].
  destruct Hl as (h1 & -> & Ho1 & Hx1). cbn [rbind].
  destruct (WriteFile_spec _ _ _ _ bs Ho1) as (h2 & -> & Ho2 & Hx2).
  exists h2. split; [done |]. split; [exact Ho2 | by eapply others_trans].
Qed.

Lemma Length_spec h o ino v : opens h o ino v →
  let len := Z.of_nat (length (contents v)) in
  if (0 <=? s32 len) && (0 <=? pos v) then ∃ h', Length h o = Ok (s32 len, h') ∧
    opens h' o ino (mkView (contents v) (pos v) (pos v)) ∧ others h h' o ino
  else Length h o = Fail AssertFailed.
Proof.
  intros Ho len. set (h1 := with_fds h (<[file o := (ino, len)]> (fds h))).
  assert (Lseek h (file o) 0 2 = (ASSERT (0 <=? s32 len);; Ok h1)) as Hl1.
  { unfold Lseek. rewrite (host_fd_Ok _ _ _ _ Ho). cbn [rbind Z.eqb]. rewrite Z.add_0_r. fold len.
    by assert ((0 <=? len) = true) as -> by (apply Z.leb_le; unfold len; lia). }
  unfold Length. rewrite Hl1. destruct (0 <=? s32 len); [| reflexivity]. cbn [rbind andb].
  assert (opens h1 o ino (mkView (contents v) (pos v) len)) as Ho1.
  { destruct Ho as (? & ? & ? & ?). split_and!; try done; cbn; by rewrite ?lookup_insert_eq. }
  assert (others h h1 o ino) as Hx1.
  { split_and!; try done; cbn. intros. by rewrite lookup_insert_ne by done. }
  rewrite (Tell_spec _ _ _ _ Ho1). cbn [rbind].
  pose proof Ho as (_ & _ & -> & Hp). pose proof (Lseek_spec h1 o ino _ (pos v) Ho1 Hp) as Hl.
  destruct (0 <=? pos v); [| by rewrite Hl]. destruct Hl as (h2 & -> & Ho2 & Hx2).
  exists h2. split; [done |]. split; [exact Ho2 | by eapply others_trans].
Qed.

Lemma file_call_spec h o ino v c : opens h o ino v → fcall_ok c →
  match view_call v c with
  | Ok (r, v') => ∃ h' o', file_call h o c = Ok (r, h', o') ∧ file o' = file o ∧
      opens h' o' ino v' ∧ others h h' o ino
  | Fail e => file_call h o c = Fail e
  end.
Proof.
  intros Ho Hc. pose proof Ho as (_ & _ & Hpos & Hposr).
  destruct c as [p|n|n p|bs|bs p| |]; cbn [file_call view_call fcall_ok] in *.
  - unfold Seek. pose proof (Lseek_spec h o ino v p Ho Hc) as Hl.
    destruct (0 <=? p); cbn [rbind]; [| by rewrite Hl]. destruct Hl as (h1 & -> & Ho1 & Hx1).
    cbn [rbind]. rewrite (Tell_spec _ _ _ _ Ho1). cbn [rbind hostpos]. rewrite s32_id by done.
    eexists _, _. split; [done |]. split; [done |].
    split; [by apply (opens_offset _ _ _ _ p Ho1) | done].
  - unfold OpenFile_Read. rewrite Hpos. pose proof (ReadAt_spec h o ino v n (pos v) Ho Hposr) as Hr.
    destruct (view_read v n (pos v)) as [bs|e]; cbn [rbind]; [| by rewrite Hr].
    destruct Hr as (h1 & -> & Ho1 & Hx1). cbn [rbind].
    eexists _, _. split; [done |]. split; [done |].
    split; [| done]. apply (opens_offset _ _ _ _ _ Ho1), s32_range.
  - pose proof (ReadAt_spec h o ino v n p Ho Hc) as Hr.
    destruct (view_read v n p) as [bs|e]; cbn [rbind]; [| by rewrite Hr].
    destruct Hr as (h1 & -> & Ho1 & Hx1). by eexists _, _.
  - unfold OpenFile_Write. rewrite Hpos. pose proof (WriteAt_spec h o ino v bs (pos v) Ho Hposr) as Hr.
    destruct (0 <=? pos v); cbn [rbind]; [| by rewrite Hr].
    destruct Hr as (h1 & -> & Ho1 & Hx1). cbn [rbind].
    eexists _, _. split; [done |]. split; [done |].
    split; [| done]. apply (opens_offset _ _ _ _ _ Ho1), s32_range.
  - pose proof (WriteAt_spec h o ino v bs p Ho Hc) as Hr.
    destruct (0 <=? p); cbn [rbind]; [| by rewrite Hr].
    destruct Hr as (h1 & -> & Ho1 & Hx1). by eexists _, _.
  - pose proof (Length_spec h o ino v Ho) as Hr. cbv zeta in *.
    destruct (0 <=? s32 _); cbn [rbind andb] in *; [| by rewrite Hr].
    destruct (0 <=? pos v); cbn [rbind] in *; [| by rewrite Hr].
    destruct Hr as (h1 & -> & Ho1 & Hx1). by eexists _, _.
  - unfold GetCurrentPos. rewrite (Tell_spec _ _ _ _ Ho). cbn [rbind].
    eexists _, _. split; [done |]. split; [done |].
    split; [apply (opens_offset _ _ _ _ _ Ho), s32_range | apply others_refl].
Qed.

(** ** FileSystem (the stub) *)

Record FileSystem := mkFileSystem { openf : list (option OpenFile); index : Z }.

(** [raw] is what [new] returns for the name buffer of an [OpenFile]. *)
Definition Create (h : Host) (name : list Z) : result (bool * Host) :=
  '(fd, h) ← OpenForWrite h name;
  if fd =? -1 then Ok (false, h)
  else h ← Close h fd; Ok (true, h).

Definition Open (h : Host) (name : list Z) (type : Z) (raw : list Z) :
    result (option OpenFile * Host) :=
  '(fd, h) ← OpenForReadWrite h name false;
  if fd =? -1 then Ok (None, h)
  else o ← OpenFile_new fd type name raw; Ok (Some o, h).

Definition Remove (h : Host) (name : list Z) : bool * Host :=
  let '(failed, h) := Unlink h name in (negb failed, h).

Definition FindFreeSlot (fs : FileSystem) : result Z :=
  r ← for_ret 2 10 (λ i _,
        e ← aget (openf fs) i;
        Ok (match e with None => inr i | Some _ => inl tt end)) tt;
  Ok (match r with inl _ => -1 | inr i => i end).

Definition stdin : list Z := [115; 116; 100; 105; 110].
Definition stdout : list Z := [115; 116; 100; 111; 117; 116].

Definition FileSystem_new (h : Host) (raw_openf : list (option OpenFile)) (raw0 raw1 : list Z) :
    result (FileSystem * Host) :=
  t ← for_each 0 10 (λ i t, aset t i None) raw_openf;
  '(_, h) ← Create h stdin;
  '(_, h) ← Create h stdout;
  '(f0, h) ← Open h stdin 2 raw0;
  t ← aset t 0 f0;
  '(f1, h) ← Open h stdout 3 raw1;
  t ← aset t 1 f1;
  Ok (mkFileSystem t 2, h).

Definition FileSystem_delete (h : Host) (fs : FileSystem) : result Host :=
  for_each 0 10 (λ i h,
    e ← aget (openf fs) i;
    match e with Some o => OpenFile_delete h o | None => Ok h end) h.

(** ** The host keeps descriptors apart *)

Definition host_ok (h : Host) : Prop :=
  map_Forall (λ fd e, 0 ≤ fd ∧ 0 ≤ e.2 ∧ is_Some (inodes h !! e.1)) (fds h) ∧
  map_Forall (λ name ino, is_Some (inodes h !! ino)) (names h) ∧
  map_Forall (λ ino _, ino < nextInode h) (inodes h).

Lemma lowest_fd_spec f : f !! lowest_fd f = None ∧ 0 ≤ lowest_fd f.
Proof.
  unfold lowest_fd. set (l := filter _ _).
  destruct l as [|fd l'] eqn:Hl; cbn.
  - (* every descriptor up to the size of the map would be in use *)
    exfalso.
    assert (list_to_set (seqZ 0 (Z.of_nat (size f) + 1)) ⊆@{gset Z} dom f) as Hsub.
    { intros fd Hfd%elem_of_list_to_set. apply elem_of_dom.
      destruct (f !! fd) eqn:Hf; [done |]. exfalso.
      assert (fd ∈ l) as Hin by (apply list_elem_of_filter; done).
      rewrite Hl in Hin. by apply elem_of_nil in Hin. }
    apply subseteq_size in Hsub.
    rewrite size_dom, size_list_to_set, length_seqZ in Hsub by apply NoDup_seqZ. lia.
  - assert (fd ∈ l) as Hin by (rewrite Hl; by left).
    apply list_elem_of_filter in Hin as [? Hin%elem_of_seqZ]. split; [done | lia].
Qed.

Lemma host_creat_spec h name : host_ok h →
  ∃ ino, host_creat h name = (lowest_fd (fds h), with_fds
    (mkHost (<[ino := []]> (inodes h)) (<[name := ino]> (names h)) (fds h) (Z.max (nextInode h) (ino + 1)))
    (<[lowest_fd (fds h) := (ino, 0)]> (fds h))) ∧
    (names h !! name = Some ino ∨ names h !! name = None ∧ ino = nextInode h).
Proof.
  intros (_ & Hn & Hi). unfold host_creat. destruct (names h !! name) as [ino|] eqn:Hname.
  - exists ino. split; [| by left]. unfold with_inode, with_fds; cbn. do 2 f_equal.
    + by rewrite insert_id.
    + destruct (Hn _ _ Hname) as [c Hc]. pose proof (Hi _ _ Hc) as Hlt. cbn in Hlt. lia.
  - exists (nextInode h). split; [| by right]. unfold with_fds; cbn. do 2 f_equal. lia.
Qed.

Lemma Open_spec h name t raw ino c : names h !! name = Some ino → inodes h !! ino = Some c →
  strlen name <= Z.of_nat (length raw) →
  ∃ o h', Open h name t raw = Ok (Some o, h') ∧ h' = with_fds h (<[file o := (ino, 0)]> (fds h)) ∧
    fds h !! file o = None ∧ 0 ≤ file o ∧ opens h' o ino (mkView c 0 0).
Proof.
  intros Hn Hi Hr. unfold Open, OpenForReadWrite, host_open. rewrite Hn. cbn [negb orb rbind].
  destruct (lowest_fd_spec (fds h)) as [Hfree Hfd].
  destruct (Z.eqb_spec (lowest_fd (fds h)) (-1)); [lia |].
  unfold OpenFile_new. rewrite blk_put_in by (unfold strlen in *; lia). cbn [rbind].
  eexists _, _. split; [done |]. split; [done |]. split; [done |]. split; [done |].
  split_and!; try done; cbn; by rewrite ?lookup_insert_eq.
Qed.

(** Closing what was just opened restores the descriptors. *)
Lemma Create_spec h name : host_ok h →
  ∃ ino h', Create h name = Ok (true, h') ∧ fds h' = fds h ∧ names h' = <[name := ino]> (names h) ∧
    inodes h' = <[ino := []]> (inodes h) ∧ (names h !! name = Some ino ∨ names h !! name = None ∧ ino = nextInode h) ∧
    nextInode h' = Z.max (nextInode h) (ino + 1).
Proof.
  intros Hok. destruct (host_creat_spec h name Hok) as (ino & Heq & Hino).
  unfold Create, OpenForWrite. rewrite Heq. destruct (lowest_fd_spec (fds h)) as [Hfree Hfd].
  destruct (Z.leb_spec 0 (lowest_fd (fds h))); [| lia]. cbn [rbind].
  destruct (Z.eqb_spec (lowest_fd (fds h)) (-1)); [lia |].
  unfold Close. cbn [fds with_fds]. rewrite lookup_insert_eq, bool_decide_eq_true_2 by done. cbn [rbind].
  exists ino. eexists. split; [done |]. cbn. split_and!; try done. by rewrite delete_insert_id.
Qed.

Lemma overwrite_empty bs : overwrite [] 0 bs = bs.
Proof.
  unfold overwrite. case_decide; [done |]. cbn. by rewrite drop_nil, app_nil_r.
Qed.

(** ** Properties *)

Definition file_step (s : Host * OpenFile) (c : fcall) : result (fret * (Host * OpenFile)) :=
  '(r, h, o) ← file_call s.1 s.2 c; Ok (r, (h, o)).

(** C16: [OpenFile] over the host's descriptors behaves as one file with an
    implicit position.  Any sequence of Seek, Read, ReadAt, Write, WriteAt,
    Length and GetCurrentPos calls gives exactly the results of the same
    sequence on the view (contents, position, host offset), assertions
    included, and changes nothing on the host but the file's own inode and
    descriptor. *)
Theorem OpenFile_refines_view h o ino v cs (Ho : opens h o ino v) (Hcs : Forall fcall_ok cs) :
  match run_calls view_call v cs with
  | Ok (rs, v') => ∃ h' o', run_calls file_step (h, o) cs = Ok (rs, (h', o')) ∧
      opens h' o' ino v' ∧ others h h' o ino
  | Fail e => run_calls file_step (h, o) cs = Fail e
  end.
Proof.
  revert h o v Ho. induction Hcs as [|c cs Hc Hcs IH]; intros h o v Ho.
  { exists h, o. split; [done |]. split; [done | apply others_refl]. }
  rewrite !run_calls_cons. pose proof (file_call_spec h o ino v c Ho Hc) as Hstep.
  change (file_step (h, o) c) with ('(r, h, o) ← file_call h o c; Ok (r, (h, o))).
  destruct (view_call v c) as [[r v1]|e]; cbn [rbind]; [| by rewrite Hstep].
  destruct Hstep as (h1 & o1 & -> & Hf & Ho1 & Hx1). cbn [rbind].
  specialize (IH h1 o1 v1 Ho1).
  destruct (run_calls view_call v1 cs) as [[rs v2]|e]; cbn [rbind]; [| by rewrite IH].
  destruct IH as (h2 & o2 & -> & Ho2 & Hx2). exists h2, o2.
  split; [done |]. split; [done |]. eapply others_trans; [exact Hx1 |].
  destruct Hx2 as (? & ? & ? & Hfd). split_and!; try done. by rewrite <- Hf.
Qed.

(** One file holding 1, 2, 3, opened on descriptor 3. *)
Definition demo_host : Host :=
  mkHost {[ 0 := [1; 2; 3] ]} {[ [97] := 0 ]} {[ 3 := (0, 0) ]} 1.
Definition demo_file : OpenFile := mkOpenFile 3 0 0 [97; 0].

Lemma OpenFile_refines_view_witness : ∃ h' o',
  run_calls file_step (demo_host, demo_file) [FWrite [7; 8]; FRead 5; FSeek 1; FRead 1; FLength]
    = Ok ([RInt 2; RBytes [3]; RInt 1; RBytes [8]; RInt 3], (h', o')) ∧
  opens h' o' 0 (mkView [7; 8; 3] 2 2) ∧ others demo_host h' demo_file 0.
Proof.
  apply (OpenFile_refines_view demo_host demo_file 0 (mkView [1; 2; 3] 0 0)
    [FWrite [7; 8]; FRead 5; FSeek 1; FRead 1; FLength]).
  - split_and!; reflexivity || (unfold is_s32; cbn; lia).
  - repeat constructor; unfold is_s32; cbn; lia.
Defined.

(** Files persist.  Creating a file, opening it, writing to it and closing
    it succeed, and whoever opens the name afterwards reads back exactly the
    bytes written, whether or not the name was in use before; and a name that
    was removed does not open. *)
Theorem file_persists h name t t' raw raw' bs n (Hok : host_ok h)
    (Hraw : strlen name <= Z.of_nat (length raw)) (Hraw' : strlen name <= Z.of_nat (length raw'))
    (Hn : Z.of_nat (length bs) <= n) :
  ∃ h1 o h2 len h3 o3 h4 o' h5 h6 o6,
    Create h name = Ok (true, h1) ∧
    Open h1 name t raw = Ok (Some o, h2) ∧
    OpenFile_Write h2 o bs = Ok (len, h3, o3) ∧ len = Z.of_nat (length bs) ∧
    OpenFile_delete h3 o3 = Ok h4 ∧
    Open h4 name t' raw' = Ok (Some o', h5) ∧
    OpenFile_Read h5 o' n = Ok (bs, h6, o6) ∧
    ∃ h7, Remove h4 name = (true, h7) ∧ Open h7 name t' raw' = Ok (None, h7).
Proof.
  destruct (Create_spec h name Hok) as (ino & h1 & Hc & Hf1 & Hn1 & Hi1 & _).
  destruct (Open_spec h1 name t raw ino []) as (o & h2 & Ho & -> & Hfree & Hfd & Hv);
    [by rewrite Hn1, lookup_insert_eq | by rewrite Hi1, lookup_insert_eq | done |].
  pose proof (file_call_spec _ _ _ _ (FWrite bs) Hv I) as Hw. cbn in Hw.
  destruct Hw as (h3 & o3 & Hw & Hf3 & Hv3 & Hx3). cbn [file_call] in Hw.
  apply bind_Ok in Hw as ([[len h3'] o3'] & Hw & [= -> -> ->]). rewrite overwrite_empty in Hv3.
  assert (OpenFile_delete h3 o3 = Ok (with_fds h3 (delete (file o3) (fds h3)))) as Hd.
  { unfold OpenFile_delete, Close. by rewrite (proj1 Hv3), bool_decide_eq_true_2 by done. }
  set (h4 := with_fds h3 (delete (file o3) (fds h3))) in *.
  assert (names h4 !! name = Some ino) as Hn4.
  { destruct Hx3 as (Hx & _). cbn. rewrite Hx. cbn. by rewrite Hn1, lookup_insert_eq. }
  destruct (Open_spec h4 name t' raw' ino bs) as (o' & h5 & Ho' & _ & _ & _ & Hv5);
    [done | apply Hv3 | done |].
  pose proof (file_call_spec _ _ _ _ (FRead n) Hv5 I) as Hr. cbn in Hr.
  destruct (Z.ltb_spec n 0); [lia |]. cbn [rbind] in Hr. rewrite bytes_at_all in Hr by done.
  destruct Hr as (h6 & o6 & Hr & _). cbn [file_call] in Hr. apply bind_Ok in Hr as ([[bs' h6'] o6'] & Hr & [= -> -> ->]).
  do 11 eexists. split; [done |]. split; [done |]. split; [eassumption |].
  split; [congruence |]. split; [done |]. split; [done |]. split; [eassumption |].
  unfold Remove, Unlink. rewrite Hn4. eexists. split; [done |].
  unfold Open, OpenForReadWrite, host_open. cbn. by rewrite lookup_delete_eq.
Qed.

Lemma demo_host_ok : host_ok demo_host.
Proof.
  unfold host_ok, demo_host; cbn. rewrite !map_Forall_singleton. cbn.
  split_and!; try lia; try done; by rewrite lookup_singleton_eq.
Qed.

Lemma file_persists_witness :
  ∃ h1 o h2 len h3 o3 h4 o' h5 h6 o6,
    Create demo_host [98] = Ok (true, h1) ∧
    Open h1 [98] 0 [0; 0] = Ok (Some o, h2) ∧
    OpenFile_Write h2 o [5; 6] = Ok (len, h3, o3) ∧ len = 2 ∧
    OpenFile_delete h3 o3 = Ok h4 ∧
    Open h4 [98] 1 [0; 0] = Ok (Some o', h5) ∧
    OpenFile_Read h5 o' 9 = Ok ([5; 6], h6, o6) ∧
    ∃ h7, Remove h4 [98] = (true, h7) ∧ Open h7 [98] 1 [0; 0] = Ok (None, h7).
Proof.
  apply (file_persists demo_host [98] 0 1 [0; 0] [0; 0] [5; 6] 9); [exact demo_host_ok | unfold strlen; cbn; lia..].
Defined.

(** The C string a buffer holds: the bytes before its first zero. *)
Fixpoint cstring (buf : list Z) : option (list Z) :=
  match buf with
  | [] => None
  | b :: buf => if b =? 0 then Some [] else (b ::.) <$> cstring buf
  end.

Lemma cstring_app name b : Forall (λ c, c ≠ 0) name →
  cstring (name ++ [b]) = if b =? 0 then Some name else None.
Proof.
  induction 1 as [|c name Hc Hn IH]; cbn; [by destruct (b =? 0) |].
  destruct (Z.eqb_spec c 0); [done |]. rewrite IH. by destruct (b =? 0).
Qed.

(** [GetFilename] is not a C string.  The constructor allocates
    [strlen (name) + 1] bytes but copies only [strlen (name)] of them: the
    buffer it keeps is the name followed by whatever byte [new] left in the
    last place, and reads as the name only when that byte happens to be 0. *)
Theorem filename_unterminated f t name raw b (Hname : Forall (λ c, c ≠ 0) name)
    (Hraw : length raw = S (length name)) (Hb : last raw = Some b) :
  ∃ o, OpenFile_new f t name raw = Ok o ∧ filename o = name ++ [b] ∧
    (cstring (filename o) = Some name ↔ b = 0).
Proof.
  unfold OpenFile_new. rewrite blk_put_in by lia. cbn [rbind].
  assert (list_inserts (Z.to_nat 0) name raw = name ++ [b]) as Heq.
  { apply list_eq. intros i. cbn [Z.to_nat]. destruct (decide (i < length name)%nat).
    - rewrite list_lookup_inserts by lia. rewrite lookup_app_l by lia. f_equal. lia.
    - rewrite list_lookup_inserts_ge by lia. rewrite lookup_app_r by lia.
      destruct (decide (i = length name)) as [->|].
      + rewrite Nat.sub_diag. cbn. rewrite last_lookup, Hraw in Hb. done.
      + rewrite !lookup_ge_None_2; [done | cbn; lia | lia]. }
  eexists. split; [done |]. cbn. rewrite Heq, cstring_app by done. split; [done |].
  destruct (Z.eqb_spec b 0) as [->|]; naive_solver.
Qed.

Lemma filename_unterminated_witness : ∃ o, OpenFile_new 3 0 [97; 98] [1; 1; 1] = Ok o ∧
  filename o = [97; 98; 1] ∧ (cstring (filename o) = Some [97; 98] ↔ 1 = 0).
Proof.
  apply (filename_unterminated 3 0 [97; 98] [1; 1; 1] 1);
    [repeat constructor; lia | reflexivity | reflexivity].
Defined.
