(* ===== verification/AddrSpace.v ===== *)
(** * Address spaces (userprog/addrspace.h, userprog/addrspace.cc, userprog/noff.h)

    Loading a NOFF executable into page frames, the page table of a process,
    and its initial registers.  The frames come from a [BitmapLaws] bitmap, the
    bytes from the [view] of an open file. *)

From S2P Require Import Prelude Bitmap Machine Mips HostFile.
Local Open Scope Z_scope.

(** ** The object file format *)

Definition NOFFMAGIC : Z := 0xbadfad.
Definition UserStackSize : Z := 1024.

(** The size the kernel gives [gPhysPageBitMap] (threads/kernel.cc), twice the
    number of frames there are. *)
Definition FrameBits : Z := 256.

Record Segment := mkSegment { virtualAddr : Z; inFileAddr : Z; size : Z }.
Record NoffHeader := mkNoff {
  noffMagic : Z; code : Segment; initData : Segment; readonlyData : Segment; uninitData : Segment }.

Definition sizeof_NoffHeader : Z := 52.

Section header.
Variable big_endian : bool.

(** Field [k] of the header, as the host reads it out of the buffer. *)
Definition header_word (buf : list Z) (k : Z) : result Z :=
  bs ← blk_get buf (4 * k) 4;
  Ok (s32 (host_word big_endian bs)).

Definition header_segment (buf : list Z) (k : Z) : result Segment :=
  va ← header_word buf k;
  fa ← header_word buf (k + 1);
  sz ← header_word buf (k + 2);
  Ok (mkSegment va fa sz).

Definition read_header (buf : list Z) : result NoffHeader :=
  m ← header_word buf 0;
  c ← header_segment buf 1;
  d ← header_segment buf 4;
  r ← header_segment buf 7;
  u ← header_segment buf 10;
  Ok (mkNoff m c d r u).

Definition swap (x : Z) : Z := s32 (WordToHost big_endian (u32 x)).
Definition swap_segment (s : Segment) : Segment :=
  mkSegment (swap (virtualAddr s)) (swap (inFileAddr s)) (swap (size s)).
Definition SwapHeader (h : NoffHeader) : NoffHeader :=
  mkNoff (swap (noffMagic h)) (swap_segment (code h)) (swap_segment (initData h))
    (swap_segment (readonlyData h)) (swap_segment (uninitData h)).
End header.

(** ** State *)

(** What [AddrSpace] uses of the kernel: [machine], [gPhysPageBitMap] and the
    value of the semaphore [addrLock]. *)
Record Kernel (B : Type) := mkKernel { machine : Machine; gPhysPageBitMap : B; addrLock : Z }.
Arguments mkKernel {B}.
Arguments machine {B}.
Arguments gPhysPageBitMap {B}.
Arguments addrLock {B}.

(** [None] is the pointer the constructor leaves uninitialised. *)
Record AddrSpace := mkAddrSpace { space_pageTable : option (list TranslationEntry); numPages : Z }.

Definition AddrSpace_new : AddrSpace := mkAddrSpace None 0.

(** [addrLock->P] and [V], run by a thread that does not have to wait. *)
Definition lock_P (v : Z) : result Z := if v =? 0 then Fail Blocked else Ok (v - 1).
Definition lock_V (v : Z) : Z := v + 1.

Definition min_int (a b : Z) : Z := if a <? b then a else b.

(** [(n - 1) % PageSize + 1] *)
Definition last_size (n : Z) : Z := Z.rem (s32 (n - 1)) PageSize + 1.

Section operations.
Context {B : Type} `{BitmapOps B}.
Variable big_endian : bool.
(** The array [new TranslationEntry[n]] returns. *)
Variable new_table : Z → list TranslationEntry.

Definition AddrSpace_delete (k : Kernel B) (a : AddrSpace) : result (Kernel B) :=
  pt ← match space_pageTable a with Some pt => Ok pt | None => Fail Undefined end;
  bm ← for_each 0 (numPages a) (λ i bm, e ← aget pt i; bm_Clear bm (physicalPage e))
         (gPhysPageBitMap k);
  Ok (mkKernel (machine k) bm (addrLock k)).

(** The frame allocation loop of [Load]. *)
Definition alloc_page (i : Z) (s : B * list TranslationEntry * list Z) :
    result (B * list TranslationEntry * list Z) :=
  let '(bm, pt, mem) := s in
  '(f, bm) ← bm_FindAndSet bm;
  pt ← aset pt i (mkTE i f true false false false);
  mem ← blk_put mem (f * PageSize) (replicate (Z.to_nat PageSize) 0);
  Ok (bm, pt, mem).

(** One of the three loops that read whole pages of a segment: page [i0 + j]
    gets the bytes from [filepos + j * PageSize] on. *)
Definition copy_pages (exe : view) (pt : list TranslationEntry) (base i0 num last filepos : Z)
    (mem : list Z) : result (list Z) :=
  for_each 0 num (λ j mem,
    e ← aget pt (i0 + j);
    bs ← view_read exe (if j <? num - 1 then PageSize else last) (s32 (filepos + j * PageSize));
    blk_put mem (base + physicalPage e * PageSize) bs) mem.

(** The head of a segment, read behind the previous one in page [i - 1]. *)
Definition copy_head (exe : view) (pt : list TranslationEntry) (base i offset n filepos : Z)
    (mem : list Z) : result (list Z) :=
  e ← aget pt (i - 1);
  bs ← view_read exe n filepos;
  blk_put mem (base + physicalPage e * PageSize + offset) bs.

Definition load_code (exe : view) (h : NoffHeader) (pt : list TranslationEntry) (mem : list Z) :
    result (Z * list Z) :=
  if size (code h) >? 0 then
    let numCodePage := u32 (divRoundUp (size (code h)) PageSize) in
    mem ← copy_pages exe pt (virtualAddr (code h)) 0 numCodePage (last_size (size (code h)))
            (inFileAddr (code h)) mem;
    Ok (numCodePage, mem)
  else Ok (0, mem).

Definition load_data (exe : view) (h : NoffHeader) (pt : list TranslationEntry) (i : Z) (mem : list Z) :
    result (Z * list Z) :=
  let numCodePage := u32 (divRoundUp (size (code h)) PageSize) in
  let lastCodePageSize := last_size (size (code h)) in
  let firstDataPageSize := min_int (PageSize - lastCodePageSize) (size (initData h)) in
  let lastDataPageSize := last_size (size (initData h) - firstDataPageSize) in
  let numDataPage := u32 (divRoundUp (size (initData h) - firstDataPageSize) PageSize) in
  if size (initData h) >? 0 then
    mem ← (if negb (lastCodePageSize =? PageSize) && (numCodePage >? 0)
           then copy_head exe pt (virtualAddr (code h)) i lastCodePageSize firstDataPageSize
                  (inFileAddr (initData h)) mem
           else Ok mem);
    mem ← copy_pages exe pt (virtualAddr (code h)) i numDataPage lastDataPageSize
            (inFileAddr (initData h) + firstDataPageSize) mem;
    Ok (i + numDataPage, mem)
  else Ok (i, mem).

Definition load_rdata (exe : view) (h : NoffHeader) (pt : list TranslationEntry) (i : Z) (mem : list Z) :
    result (list Z) :=
  if size (readonlyData h) >? 0 then
    let offset := last_size (size (code h) + size (initData h)) in
    let firstReadDataSize := min_int (PageSize - offset) (size (readonlyData h)) in
    let lastReadDataSize := last_size (size (readonlyData h) - firstReadDataSize) in
    let numReadPage := u32 (divRoundUp (size (readonlyData h) - firstReadDataSize) PageSize) in
    mem ← (if negb (offset =? PageSize) && (i >? 0)
           then copy_head exe pt (virtualAddr (code h)) i offset firstReadDataSize
                  (inFileAddr (readonlyData h)) mem
           else Ok mem);
    copy_pages exe pt (virtualAddr (code h)) i numReadPage lastReadDataSize
      (inFileAddr (readonlyData h) + firstReadDataSize) mem
  else Ok mem.

(** [Load] in the order of its parts: the header; between [P] and [V] of
    [addrLock] the frames, [None] when they do not suffice; the segments. *)
Definition read_noff (exe : view) (stack : list Z) : result NoffHeader :=
  bs ← view_read exe sizeof_NoffHeader 0;
  buf ← blk_put stack 0 bs;
  h ← read_header big_endian buf;
  let h := if negb (noffMagic h =? NOFFMAGIC) && (swap big_endian (noffMagic h) =? NOFFMAGIC)
           then SwapHeader big_endian h else h in
  ASSERT (noffMagic h =? NOFFMAGIC);;
  Ok h.

Definition load_frames (k : Kernel B) (h : NoffHeader) :
    result (option (list TranslationEntry * Z) * Kernel B) :=
  let size := u32 (size (code h) + size (readonlyData h) + size (initData h)
                   + size (uninitData h) + UserStackSize) in
  let np := divRoundUp size PageSize in
  ASSERT (np <=? NumPhysPages);;
  free ← bm_NumClear (gPhysPageBitMap k);
  if np >? free then Ok (None, k)
  else
    '(bm, pt, mem) ← for_each 0 np alloc_page
      (gPhysPageBitMap k, new_table np, mainMemory (machine k));
    Ok (Some (pt, np), mkKernel (with_memory (machine k) mem) bm (addrLock k)).

Definition load_segments (exe : view) (h : NoffHeader) (pt : list TranslationEntry) (mem : list Z) :
    result (list Z) :=
  '(i, mem) ← load_code exe h pt mem;
  '(i, mem) ← load_data exe h pt i mem;
  load_rdata exe h pt i mem.

(** [Load] once the header is read. *)
Definition load_program (k : Kernel B) (a : AddrSpace) (exe : view) (h : NoffHeader) :
    result (bool * Kernel B * AddrSpace) :=
  lock ← lock_P (addrLock k);
  '(r, k) ← load_frames (mkKernel (machine k) (gPhysPageBitMap k) lock) h;
  let k := mkKernel (machine k) (gPhysPageBitMap k) (lock_V (addrLock k)) in
  match r with
  | None => Ok (false, k, mkAddrSpace (space_pageTable a) 0)
  | Some (pt, np) =>
      mem ← load_segments exe h pt (mainMemory (machine k));
      Ok (true, mkKernel (with_memory (machine k) mem) (gPhysPageBitMap k) (addrLock k),
          mkAddrSpace (Some pt) np)
  end.

(** [executable] is what [fileSystem->Open] returned, [stack] the bytes of the
    uninitialised local [noffH]. *)
Definition Load (k : Kernel B) (a : AddrSpace) (executable : option view) (stack : list Z) :
    result (bool * Kernel B * AddrSpace) :=
  match executable with
  | None => Ok (false, k, a)
  | Some exe => h ← read_noff exe stack; load_program k a exe h
  end.

(** The same, in one piece. *)
Lemma load_program_eq (k : Kernel B) (a : AddrSpace) (exe : view) (h : NoffHeader) :
  load_program k a exe h =
  (lock ← lock_P (addrLock k);
  let size := u32 (size (code h) + size (readonlyData h) + size (initData h)
                   + size (uninitData h) + UserStackSize) in
  let np := divRoundUp size PageSize in
  ASSERT (np <=? NumPhysPages);;
  free ← bm_NumClear (gPhysPageBitMap k);
  if np >? free then
    Ok (false, mkKernel (machine k) (gPhysPageBitMap k) (lock_V lock),
        mkAddrSpace (space_pageTable a) 0)
  else
    '(bm, pt, mem) ← for_each 0 np alloc_page
      (gPhysPageBitMap k, new_table np, mainMemory (machine k));
    let lock := lock_V lock in
    '(i, mem) ← load_code exe h pt mem;
    '(i, mem) ← load_data exe h pt i mem;
    mem ← load_rdata exe h pt i mem;
    Ok (true, mkKernel (with_memory (machine k) mem) bm lock, mkAddrSpace (Some pt) np)).
Proof.
  unfold load_program, load_frames, load_segments. destruct (lock_P _) as [lock|]; [| done]. cbn [rbind].
  cbn [machine gPhysPageBitMap addrLock]. destruct (_ <=? _); [| done]. cbn [rbind].
  destruct (bm_NumClear _) as [free|]; [| done]. cbn [rbind]. destruct (_ >? _); [done |].
  destruct (for_each _ _ _ _) as [[[bm pt] mem]|]; [| done]. cbn [rbind machine with_memory mainMemory gPhysPageBitMap addrLock].
  destruct (load_code _ _ _ _) as [[i mem1]|]; [| done]. cbn [rbind].
  destruct (load_data _ _ _ _ _) as [[i2 mem2]|]; [| done]. cbn [rbind].
  by destruct (load_rdata _ _ _ _ _).
Qed.

Lemma Load_eq (k : Kernel B) (a : AddrSpace) (exe : view) stack :
  Load k a (Some exe) stack =
  (bs ← view_read exe sizeof_NoffHeader 0;
   buf ← blk_put stack 0 bs;
   h ← read_header big_endian buf;
   let h := if negb (noffMagic h =? NOFFMAGIC) && (swap big_endian (noffMagic h) =? NOFFMAGIC)
            then SwapHeader big_endian h else h in
   ASSERT (noffMagic h =? NOFFMAGIC);;
   load_program k a exe h).
Proof.
  unfold Load, read_noff. destruct (view_read _ _ _); [| done]. cbn [rbind]. destruct (blk_put _ _ _); [| done].
  cbn [rbind]. destruct (read_header _ _); [| done]. cbn [rbind]. by destruct (_ =? NOFFMAGIC); destruct (noffMagic _ =? NOFFMAGIC).
Qed.
End operations.

Definition InitRegisters (m : Machine) (a : AddrSpace) : result Machine :=
  m ← for_each 0 NumTotalRegs (λ i m, WriteRegister m i 0) m;
  m ← WriteRegister m PCReg 0;
  m ← WriteRegister m NextPCReg 4;
  WriteRegister m StackReg (s32 (numPages a * PageSize - 16)).

Definition RestoreState (m : Machine) (a : AddrSpace) : Machine :=
  with_pageTable m (space_pageTable a) (numPages a).

(** [Execute] up to the call of [Machine::Run], which never returns. *)
Definition Execute (m : Machine) (a : AddrSpace) : result Machine :=
  m ← InitRegisters m a;
  Ok (setStatus (RestoreState m a) UserMode).

(** [isReadWrite] as a truth value; the result is the exception, the physical
    address when there is none, and the page table. *)
Definition AddrSpace_Translate (a : AddrSpace) (vaddr : Z) (isReadWrite : bool) :
    result (ExceptionType * option Z * AddrSpace) :=
  let vpn := vaddr / PageSize in
  let offset := vaddr mod PageSize in
  if numPages a <=? vpn then Ok (AddressErrorException, None, a)
  else
    pt ← match space_pageTable a with Some pt => Ok pt | None => Fail Undefined end;
    e ← aget pt vpn;
    if isReadWrite && readOnly e then Ok (ReadOnlyException, None, a)
    else
      let pfn := physicalPage e in
      if NumPhysPages <=? pfn then Ok (BusErrorException, None, a)
      else
        pt ← aset pt vpn (set_use_dirty e isReadWrite);
        let paddr := u32 (pfn * PageSize + offset) in
        ASSERT (paddr <? MemorySize);;
        Ok (NoException, Some paddr, mkAddrSpace (Some pt) (numPages a)).

(** ** Memory through a page table *)

(** The byte at virtual address [v]. *)
Definition vbyte (mem : list Z) (pt : list TranslationEntry) (v : Z) : option Z :=
  match pt !! Z.to_nat (v / PageSize) with
  | None => None
  | Some e => mem !! Z.to_nat (physicalPage e * PageSize + v mod PageSize)
  end.

Ltac pages := unfold MemorySize, NumPhysPages, PageSize in *; change (128 * 2) with 256 in *.

Definition frame_list (pt : list TranslationEntry) : list Z := physicalPage <$> pt.

(** A page table whose pages lie in distinct frames of the memory. *)
Definition table_ok (pt : list TranslationEntry) : Prop :=
  NoDup (frame_list pt) ∧ Forall (λ f, 0 ≤ f < NumPhysPages) (frame_list pt).

Lemma table_ok_frame pt i e : table_ok pt → pt !! i = Some e → 0 ≤ physicalPage e < NumPhysPages.
Proof.
  intros [_ Hf] Hi. apply (Forall_lookup_1 _ _ i _ Hf).
  unfold frame_list. rewrite list_lookup_fmap, Hi. reflexivity.
Qed.

Lemma table_ok_inj pt i j e e' : table_ok pt → pt !! i = Some e → pt !! j = Some e' →
  physicalPage e = physicalPage e' → i = j.
Proof.
  intros [Hn _] Hi Hj He. eapply (NoDup_lookup _ _ _ (physicalPage e) Hn);
    unfold frame_list; rewrite list_lookup_fmap, ?Hi, ?Hj; cbn; congruence.
Qed.

(** Memory that two states agree on outside the frames of [pt]. *)
Definition same_outside (pt : list TranslationEntry) (mem mem' : list Z) : Prop :=
  length mem' = length mem ∧
  ∀ a, 0 ≤ a → (a / PageSize ∉ frame_list pt) → mem' !! Z.to_nat a = mem !! Z.to_nat a.

Lemma same_outside_refl pt mem : same_outside pt mem mem.
Proof. done. Qed.

Lemma same_outside_trans pt m1 m2 m3 :
  same_outside pt m1 m2 → same_outside pt m2 m3 → same_outside pt m1 m3.
Proof.
  intros [H1 G1] [H2 G2]. split; [congruence |]. intros. by rewrite G2, G1.
Qed.

(** A block written inside page [i] is a block written at virtual address
    [i * PageSize + off], and nothing else moves. *)
Lemma page_put pt mem i off bs e : table_ok pt → Z.of_nat (length mem) = MemorySize →
  0 ≤ i → pt !! Z.to_nat i = Some e → 0 ≤ off → off + Z.of_nat (length bs) ≤ PageSize →
  ∃ mem', blk_put mem (physicalPage e * PageSize + off) bs = Ok mem' ∧ same_outside pt mem mem' ∧
    ∀ v, 0 ≤ v → vbyte mem' pt v =
      if decide (i * PageSize + off ≤ v < i * PageSize + off + Z.of_nat (length bs))
      then bs !! Z.to_nat (v - (i * PageSize + off)) else vbyte mem pt v.
Proof.
  intros Hpt Hlen Hi He Hoff Hfit. pose proof (table_ok_frame _ _ _ Hpt He) as Hf.
  pages.
  pose proof (blk_put_in mem (physicalPage e * 256 + off) bs) as Hput.
  eexists. split; [apply Hput; lia |]. specialize (Hput ltac:(lia) ltac:(lia)).
  split; [split; [by eapply blk_put_length |] |].
  - intros a Ha Hout. pages. rewrite (blk_put_lookup _ _ _ _ _ Hput) by done. rewrite decide_False; [done |].
    intros Hin. apply Hout. unfold frame_list. apply list_elem_of_fmap. exists e.
    split; [| by eapply list_elem_of_lookup_2].
    symmetry. apply Z.div_unique with (a - physicalPage e * 256); lia.
  - intros v Hv. unfold vbyte. pages.
    pose proof (Z.div_mod v 256). pose proof (Z.mod_pos_bound v 256 ltac:(lia)).
    destruct (pt !! Z.to_nat (v / 256)) as [e'|] eqn:He'.
    + pose proof (table_ok_frame _ _ _ Hpt He') as Hf'. pages. cbv iota beta.
      rewrite (blk_put_lookup _ _ _ _ _ Hput) by lia.
      destruct (decide (v / 256 = i)) as [<-|Hne].
      * simplify_eq. do 2 case_decide; try lia; [| done]. f_equal. lia.
      * assert (physicalPage e' ≠ physicalPage e).
        { intros Heq. pose proof (table_ok_inj _ _ _ _ _ Hpt He' He Heq).
          pose proof (Z.div_pos v 256). lia. }
        do 2 case_decide; try lia. done.
    + case_decide; [| done]. exfalso.
      replace (v / 256) with i in He' by (apply Z.div_unique with (v - i * 256); lia). congruence.
Qed.

(** ** The copying loops *)

(** [n] bytes of the file from [p] on, in memory from virtual address [v] on. *)
Definition placed (f : list Z) (p n v0 : Z) (old new : Z → option Z) : Prop :=
  ∀ v, 0 ≤ v → new v = if decide (v0 ≤ v < v0 + n) then f !! Z.to_nat (p + (v - v0)) else old v.

Lemma view_read_Ok exe n p : 0 ≤ n → 0 ≤ p → view_read exe n p = Ok (bytes_at (contents exe) p n).
Proof.
  intros. unfold view_read. destruct (Z.leb_spec 0 p), (Z.ltb_spec n 0); done || lia.
Qed.

Lemma last_size_spec n : 0 < n < 2 ^ 31 →
  0 < last_size n ≤ PageSize ∧ n = (divRoundUp n PageSize - 1) * PageSize + last_size n.
Proof.
  intros Hn. unfold last_size, divRoundUp. pages.
  rewrite s32_id by (unfold is_s32; lia).
  rewrite !Z.rem_mod_nonneg, Z.quot_div_nonneg by lia.
  destruct (Z.gtb_spec (n mod 256) 0); Z.div_mod_to_equations; lia.
Qed.

Lemma pages_nonneg n : 0 ≤ n → 0 ≤ divRoundUp n PageSize ∧ (n = 0 → divRoundUp n PageSize = 0).
Proof.
  intros Hn. destruct (divRoundUp_spec n PageSize) as [H|H]; [lia | done | |];
    pages; [split; [nia |] | lia].
  intros ->. reflexivity.
Qed.

Lemma copy_pages_spec exe pt mem i0 n p : table_ok pt → Z.of_nat (length mem) = MemorySize →
  0 ≤ i0 → 0 ≤ n → 0 ≤ p → p + n ≤ Z.of_nat (length (contents exe)) < 2 ^ 31 →
  i0 + divRoundUp n PageSize ≤ Z.of_nat (length pt) →
  ∃ mem', copy_pages exe pt 0 i0 (divRoundUp n PageSize) (last_size n) p mem = Ok mem' ∧
    same_outside pt mem mem' ∧ placed (contents exe) p n (i0 * PageSize) (vbyte mem pt) (vbyte mem' pt).
Proof.
  intros Hpt Hlen Hi0 Hn Hp Hfile Hpages.
  destruct (pages_nonneg n Hn) as [Hnp Hzero].
  set (np := divRoundUp n PageSize) in *.
  destruct (for_each_rule (λ j mem', same_outside pt mem mem' ∧
      placed (contents exe) p (Z.min n (j * PageSize)) (i0 * PageSize) (vbyte mem pt) (vbyte mem' pt))
    0 np (λ j mem, e ← aget pt (i0 + j);
      bs ← view_read exe (if j <? np - 1 then PageSize else last_size n) (s32 (p + j * PageSize));
      blk_put mem (0 + physicalPage e * PageSize) bs) mem) as (mem' & Hr & Hs & Hpl); [done | | |].
  - split; [done |]. intros v Hv. rewrite decide_False by lia. done.
  - intros j mj Hj [Hs Hpl].
    assert (0 < n) as Hnpos by (destruct (decide (n = 0)) as [->|]; [rewrite Hzero in Hj by done |]; lia).
    destruct (last_size_spec n) as [Hlast Hdec]; [lia |]. fold np in Hdec.
    set (len := if j <? np - 1 then PageSize else last_size n).
    assert (0 < len ≤ PageSize ∧ j * PageSize + len = Z.min n ((j + 1) * PageSize)) as [Hl1 Hl2].
    { unfold len; pages. destruct (Z.ltb_spec j (np - 1)); lia. }
    destruct (lookup_lt_is_Some_2 pt (Z.to_nat (i0 + j))) as [e He]; [lia |].
    rewrite (proj2 (aget_Ok pt (i0 + j) e)) by (split; [lia | done]). cbn [rbind].
    assert (0 ≤ j * PageSize) by (pages; lia).
    rewrite s32_id by (unfold is_s32; lia). rewrite view_read_Ok by lia. cbn [rbind].
    rewrite Z.add_0_l, <- (Z.add_0_r (physicalPage e * PageSize)).
    pose proof (bytes_at_length (contents exe) (p + j * PageSize) len ltac:(lia) ltac:(lia) ltac:(lia)) as Hbl.
    destruct (page_put pt mj (i0 + j) 0 (bytes_at (contents exe) (p + j * PageSize) len) e)
      as (mj' & -> & Hs' & Hv'); [done | by rewrite (proj1 Hs) | lia | done | lia | lia |].
    eexists. split; [done |]. split; [by eapply same_outside_trans |].
    intros v Hv. rewrite Hv', Hbl by done. clear Hv'. pages.
    case_decide.
    + rewrite bytes_at_lookup by lia. rewrite decide_True by lia. f_equal. lia.
    + rewrite Hpl by done. do 2 case_decide; lia || done.
  - exists mem'. split; [exact Hr |]. split; [done |]. intros v Hv. rewrite Hpl by done.
    replace (Z.min n (np * PageSize)) with n; [done |].
    destruct (divRoundUp_spec n PageSize) as [H|H]; [lia | done | |]; fold np in H; lia.
Qed.

Lemma copy_head_spec exe pt mem i off n p : table_ok pt → Z.of_nat (length mem) = MemorySize →
  0 < i ≤ Z.of_nat (length pt) → 0 ≤ off → 0 ≤ n → off + n ≤ PageSize → 0 ≤ p →
  p + n ≤ Z.of_nat (length (contents exe)) →
  ∃ mem', copy_head exe pt 0 i off n p mem = Ok mem' ∧ same_outside pt mem mem' ∧
    placed (contents exe) p n ((i - 1) * PageSize + off) (vbyte mem pt) (vbyte mem' pt).
Proof.
  intros Hpt Hlen Hi Hoff Hn Hfit Hp Hfile. unfold copy_head.
  destruct (lookup_lt_is_Some_2 pt (Z.to_nat (i - 1))) as [e He]; [lia |].
  rewrite (proj2 (aget_Ok pt (i - 1) e)) by (split; [lia | done]). cbn [rbind].
  rewrite view_read_Ok by lia. cbn [rbind]. rewrite Z.add_0_l.
  pose proof (bytes_at_length (contents exe) p n ltac:(lia) ltac:(lia) ltac:(lia)) as Hbl.
  destruct (page_put pt mem (i - 1) off (bytes_at (contents exe) p n) e)
    as (mem' & -> & Hs & Hv); [done | done | lia | done | lia | lia |].
  exists mem'. split; [done |]. split; [done |].
  intros v Hv0. rewrite Hv, Hbl by done. case_decide; [| done]. rewrite bytes_at_lookup by lia. done.
Qed.

Lemma placed_seq f p n1 n2 v0 old mid new : 0 ≤ n1 → 0 ≤ n2 →
  placed f p n1 v0 old mid → placed f (p + n1) n2 (v0 + n1) mid new →
  placed f p (n1 + n2) v0 old new.
Proof.
  intros Hn1 Hn2 H1 H2 v Hv. rewrite H2, H1 by done. repeat case_decide; try lia; [| done..]. f_equal. lia.
Qed.

Lemma placed_0 f p v0 old : placed f p 0 v0 old old.
Proof. intros v Hv. by rewrite decide_False by lia. Qed.

(** A segment of [n] bytes goes right behind the [en] bytes already there,
    filling the last page used and then fresh ones. *)
Lemma append_segment exe pt mem en n p : table_ok pt → Z.of_nat (length mem) = MemorySize →
  0 < en → 0 < n → 0 ≤ p → p + n ≤ Z.of_nat (length (contents exe)) < 2 ^ 31 →
  en + n ≤ Z.of_nat (length pt) * PageSize → en + n < 2 ^ 31 →
  let i := divRoundUp en PageSize in
  let offset := last_size en in
  let first := min_int (PageSize - offset) n in
  i + divRoundUp (n - first) PageSize = divRoundUp (en + n) PageSize ∧
  is_u32 (divRoundUp (n - first) PageSize) ∧ 0 < i ∧
  ∃ mem' mem'', (if negb (offset =? PageSize) && (i >? 0)
      then copy_head exe pt 0 i offset first p mem else Ok mem) = Ok mem' ∧
    copy_pages exe pt 0 i (divRoundUp (n - first) PageSize) (last_size (n - first)) (p + first) mem' = Ok mem'' ∧
    same_outside pt mem mem'' ∧ placed (contents exe) p n en (vbyte mem pt) (vbyte mem'' pt).
Proof.
  intros Hpt Hlen Hen Hn Hp Hfile Hfit Hbound i offset first.
  destruct (last_size_spec en) as [Hoff Hdec]; [lia |]. fold i offset in Hoff, Hdec.
  assert (0 ≤ first ∧ first ≤ n ∧ offset + first ≤ PageSize ∧ (first = n ∨ offset + first = PageSize)) as Hfirst.
  { unfold first, min_int. destruct (Z.ltb_spec (PageSize - offset) n); lia. }
  clearbody first.
  assert (0 < i) as Hi by (pages; lia).
  destruct (pages_nonneg (n - first)) as [Hnp Hnp0]; [lia |].
  assert (i + divRoundUp (n - first) PageSize = divRoundUp (en + n) PageSize) as Hsum.
  { destruct (divRoundUp_spec (n - first) PageSize) as [Hr|Hr]; [lia | done | |];
      (destruct (divRoundUp_spec (en + n) PageSize) as [Hq|Hq]; [lia | done | |]); pages; nia. }
  assert (i + divRoundUp (n - first) PageSize ≤ Z.of_nat (length pt)) as Hpages.
  { rewrite Hsum. destruct (divRoundUp_spec (en + n) PageSize) as [Hq|Hq]; [lia | done | |]; pages; nia. }
  split; [done |]. split.
  { destruct (divRoundUp_spec (n - first) PageSize) as [Hr|Hr]; [lia | done | |];
      unfold is_u32; pages; lia. }
  split; [done |].
  assert (∃ mem', (if negb (offset =? PageSize) && (i >? 0)
      then copy_head exe pt 0 i offset first p mem else Ok mem) = Ok mem' ∧ same_outside pt mem mem' ∧
    placed (contents exe) p first en (vbyte mem pt) (vbyte mem' pt)) as (mem' & Hh & Hs1 & Hp1).
  { destruct (Z.eqb_spec offset PageSize) as [Ho|Ho]; cbn [negb andb].
    - exists mem. split; [done |]. split; [done |].
      assert (first = 0) as -> by lia. apply placed_0.
    - destruct (Z.gtb_spec i 0); [| lia].
      destruct (copy_head_spec exe pt mem i offset first p) as (mem' & Hh & Hs & Hpl);
        [done | done | lia | lia | lia | lia | done | lia |].
      exists mem'. split; [done |]. split; [done |].
      by replace en with ((i - 1) * PageSize + offset) by lia. }
  destruct (copy_pages_spec exe pt mem' i (n - first) (p + first)) as (mem'' & Hc & Hs2 & Hp2);
    [done | by rewrite (proj1 Hs1) | lia | lia | lia | lia | lia |].
  exists mem', mem''. split; [done |]. split; [done |]. split; [by eapply same_outside_trans |].
  replace n with (first + (n - first)) by lia. eapply placed_seq; [lia | lia | exact Hp1 |].
  destruct (decide (first = n)) as [->|Hne].
  - rewrite Z.sub_diag in *. intros v Hv. rewrite Hp2 by done. by rewrite !decide_False by lia.
  - by replace (en + first) with (i * PageSize) by lia.
Qed.

(** ** Loading the segments *)

(** A segment of the file; nothing is said of where an empty one should be. *)
Definition seg_ok (exe : view) (s : Segment) : Prop :=
  0 ≤ size s ∧ (0 < size s → 0 ≤ inFileAddr s) ∧
  (0 < size s → inFileAddr s + size s ≤ Z.of_nat (length (contents exe))).

Definition seg_bytes (exe : view) (s : Segment) : list Z :=
  bytes_at (contents exe) (inFileAddr s) (size s).

(** An executable [Load] lays out as it should: a code segment at virtual
    address 0, and segments that lie in the file. *)
Definition exe_ok (exe : view) (h : NoffHeader) : Prop :=
  virtualAddr (code h) = 0 ∧ 0 < size (code h) ∧ seg_ok exe (code h) ∧ seg_ok exe (initData h) ∧
  seg_ok exe (readonlyData h) ∧ 0 ≤ size (uninitData h) ∧
  Z.of_nat (length (contents exe)) < 2 ^ 31.

Definition total_size (h : NoffHeader) : Z :=
  size (code h) + size (readonlyData h) + size (initData h) + size (uninitData h) + UserStackSize.

Lemma segments_contents exe h pt mem : exe_ok exe h → table_ok pt →
  Z.of_nat (length mem) = MemorySize → Z.of_nat (length pt) ≤ NumPhysPages →
  total_size h ≤ Z.of_nat (length pt) * PageSize →
  ∃ i1 mem1 i2 mem2 mem3, load_code exe h pt mem = Ok (i1, mem1) ∧
    load_data exe h pt i1 mem1 = Ok (i2, mem2) ∧ load_rdata exe h pt i2 mem2 = Ok mem3 ∧
    same_outside pt mem mem3 ∧ ∃ f1 f2,
    placed (contents exe) (inFileAddr (code h)) (size (code h)) 0 (vbyte mem pt) f1 ∧
    placed (contents exe) (inFileAddr (initData h)) (size (initData h)) (size (code h)) f1 f2 ∧
    placed (contents exe) (inFileAddr (readonlyData h)) (size (readonlyData h))
      (size (code h) + size (initData h)) f2 (vbyte mem3 pt).
Proof.
  intros (Hva & Hc0 & (Hc1 & Hc2 & Hc3) & (Hd1 & Hd2 & Hd3) & (Hr1 & Hr2 & Hr3) & Hu & Hf)
    Hpt Hlen Hnp Htot.
  unfold total_size, UserStackSize in Htot.
  assert (Z.of_nat (length pt) * PageSize ≤ 2 ^ 15) as Hsmall by (pages; lia).
  set (csz := size (code h)) in *. set (dsz := size (initData h)) in *. set (rsz := size (readonlyData h)) in *.
  assert (is_u32 (divRoundUp csz PageSize) ∧ divRoundUp csz PageSize ≤ Z.of_nat (length pt)) as [Hcu Hcp].
  { destruct (divRoundUp_spec csz PageSize) as [Hq|Hq]; [lia | done | |]; unfold is_u32; pages; lia. }
  destruct (copy_pages_spec exe pt mem 0 csz (inFileAddr (code h))) as (mem1 & Hm1 & Hs1 & Hp1);
    [done | done | lia.. |].
  exists (divRoundUp csz PageSize), mem1. unfold load_code. fold csz.
  destruct (Z.gtb_spec csz 0); [| lia]. rewrite u32_id, Hva, Hm1 by done. cbn [rbind].
  assert (∃ mem2, load_data exe h pt (divRoundUp csz PageSize) mem1 = Ok (divRoundUp (csz + dsz) PageSize, mem2) ∧
    same_outside pt mem1 mem2 ∧ placed (contents exe) (inFileAddr (initData h)) dsz csz
      (vbyte mem1 pt) (vbyte mem2 pt)) as (mem2 & Hm2 & Hs2 & Hp2).
  { unfold load_data. fold csz dsz. rewrite (u32_id _ Hcu), Hva.
    destruct (Z.gtb_spec dsz 0) as [Hdp|Hdp].
    - destruct (append_segment exe pt mem1 csz dsz (inFileAddr (initData h)))
        as (Hsum & Hnu & Hi & m' & m2 & Hh & Hcp2 & Hs & Hp);
        [done | by rewrite (proj1 Hs1) | lia.. |].
      rewrite (u32_id _ Hnu). rewrite Hh. cbn [rbind]. rewrite Hcp2. cbn [rbind]. rewrite Hsum. by exists m2.
    - assert (dsz = 0) as Hz by lia. clearbody dsz. subst dsz. exists mem1. rewrite Z.add_0_r.
      split; [done |]. split; [done | apply placed_0]. }
  exists (divRoundUp (csz + dsz) PageSize), mem2.
  assert (∃ mem3, load_rdata exe h pt (divRoundUp (csz + dsz) PageSize) mem2 = Ok mem3 ∧
    same_outside pt mem2 mem3 ∧ placed (contents exe) (inFileAddr (readonlyData h)) rsz (csz + dsz)
      (vbyte mem2 pt) (vbyte mem3 pt)) as (mem3 & Hm3 & Hs3 & Hp3).
  { unfold load_rdata. fold csz dsz rsz. rewrite Hva.
    destruct (Z.gtb_spec rsz 0) as [Hrp|Hrp].
    - destruct (append_segment exe pt mem2 (csz + dsz) rsz (inFileAddr (readonlyData h)))
        as (Hsum & Hnu & Hi & m' & m3 & Hh & Hcp3 & Hs & Hp);
        [done | by rewrite (proj1 Hs2), (proj1 Hs1) | lia.. |].
      rewrite (u32_id _ Hnu), Hh. cbn [rbind]. rewrite Hcp3. by exists m3.
    - assert (rsz = 0) as Hz by lia. clearbody rsz. subst rsz. exists mem2.
      split; [done |]. split; [done | apply placed_0]. }
  exists mem3. split; [done |]. split; [done |]. split; [done |].
  split; [by eapply same_outside_trans, same_outside_trans |].
  by exists (vbyte mem1 pt), (vbyte mem2 pt).
Qed.

(** ** Allocating frames *)

Section allocation.
Context {B : Type} `{BitmapLaws B}.

Definition page_entry (i f : Z) : TranslationEntry := mkTE i f true false false false.

(** What a table whose entries [alloc_page] wrote looks like. *)
Definition fresh_table (pt : list TranslationEntry) : Prop :=
  ∀ (i : nat) e, pt !! i = Some e → e = page_entry (Z.of_nat i) (physicalPage e).

Definition alloc_inv (s : gset Z) (mem : list Z) (np i : Z) (st : B * list TranslationEntry * list Z) : Prop :=
  let '(bm, pt, mem') := st in
  let done := take (Z.to_nat i) pt in
  Z.of_nat (length pt) = np ∧ table_ok done ∧ fresh_table done ∧
  (∀ f, f ∈ frame_list done → f ∉ s) ∧
  bm_repr bm FrameBits (list_to_set (frame_list done) ∪ s) ∧
  same_outside done mem mem' ∧ ∀ v, 0 ≤ v < i * PageSize → vbyte mem' done v = Some 0.

Lemma size_frames pt (s : gset Z) : table_ok pt → (∀ f, f ∈ frame_list pt → f ∉ s) →
  base.size (list_to_set (frame_list pt) ∪ s : gset Z) = (length pt + base.size s)%nat.
Proof.
  intros [Hn _] Hd. rewrite size_union; [| intros f; rewrite elem_of_list_to_set; apply Hd].
  rewrite size_list_to_set by done. unfold frame_list. by rewrite length_fmap.
Qed.

Lemma frame_list_app pt e : frame_list (pt ++ [e]) = frame_list pt ++ [physicalPage e].
Proof. unfold frame_list. by rewrite fmap_app. Qed.

Lemma table_ok_app pt e : table_ok pt → 0 ≤ physicalPage e < NumPhysPages →
  (physicalPage e ∉ frame_list pt) → table_ok (pt ++ [e]).
Proof.
  intros [Hn Hf] He Hnew. unfold table_ok. rewrite frame_list_app. split.
  - apply NoDup_app. split; [done |]. split; [| apply NoDup_singleton].
    intros f Hin ->%list_elem_of_singleton. done.
  - apply Forall_app. split; [done |]. by constructor.
Qed.

Lemma vbyte_app mem pt e v : 0 ≤ v < Z.of_nat (length pt) * PageSize →
  vbyte mem (pt ++ [e]) v = vbyte mem pt v.
Proof.
  intros Hv. unfold vbyte. rewrite lookup_app_l; [done |]. pages.
  pose proof (Z.div_lt_upper_bound v 256 (Z.of_nat (length pt))). pose proof (Z.div_pos v 256). lia.
Qed.

(** A frame is free while fewer are in use than there are; with all of them in
    use the bitmap still offers bits that stand for none. *)
Lemma first_free bm s : bm_repr bm FrameBits s → Z.of_nat (base.size s) < NumPhysPages →
  ∃ f bm', bm_FindAndSet bm = Ok (f, bm') ∧ 0 ≤ f < NumPhysPages ∧ (f ∉ s) ∧ bm_repr bm' FrameBits ({[f]} ∪ s).
Proof.
  intros Hbm Hs.
  assert (∀ n, NumPhysPages ≤ n → (∀ j, 0 ≤ j < n → j ∈ s) → False) as Hfull.
  { intros n Hn Hall. assert (list_to_set (seqZ 0 NumPhysPages) ⊆@{gset Z} s) as Hsub
      by (intros j Hj%elem_of_list_to_set%elem_of_seqZ; apply Hall; lia).
    apply subseteq_size in Hsub. rewrite size_list_to_set, length_seqZ in Hsub by apply NoDup_seqZ.
    unfold NumPhysPages in *. lia. }
  destruct (bm_FindAndSet_spec _ _ _ Hbm) as [(f & bm' & Hf & Hr & Hnew & Hall & Hbm')|[_ Hall]].
  - exists f, bm'. split; [done |]. split; [| done]. destruct (decide (f < NumPhysPages)); [lia |].
    exfalso. apply (Hfull f); [lia | exact Hall].
  - exfalso. by apply (Hfull FrameBits).
Qed.

Lemma none_free bm s : bm_repr bm FrameBits s → Z.of_nat (base.size s) = NumPhysPages →
  (∀ f, f ∈ s → f < NumPhysPages) → ∃ f bm', bm_FindAndSet bm = Ok (f, bm') ∧ NumPhysPages ≤ f.
Proof.
  intros Hbm Hs Hlt.
  assert (∀ j, 0 ≤ j < NumPhysPages → j ∈ s) as Hall.
  { assert (s ⊆ list_to_set (seqZ 0 NumPhysPages)) as Hsub.
    { intros f Hf. apply elem_of_list_to_set, elem_of_seqZ. pose proof (bm_repr_range _ _ _ _ Hbm Hf). specialize (Hlt f Hf). lia. }
    assert (s = list_to_set (seqZ 0 NumPhysPages)) as ->.
    { apply set_subseteq_size_eq; [done |]. rewrite size_list_to_set, length_seqZ by apply NoDup_seqZ. lia. }
    intros j Hj. apply elem_of_list_to_set, elem_of_seqZ. lia. }
  destruct (bm_FindAndSet_spec _ _ _ Hbm) as [(f & bm' & Hf & Hr & Hnew & _)|[_ Hall']].
  - exists f, bm'. split; [done |]. destruct (decide (f < NumPhysPages)); [| lia]. destruct Hnew. apply Hall. lia.
  - exfalso. assert (128 ∈ s) as Hin by (by apply Hall'). specialize (Hlt 128 Hin). unfold NumPhysPages in Hlt. lia.
Qed.

Lemma alloc_step s mem np i st : i < NumPhysPages - Z.of_nat (base.size s) →
  Z.of_nat (length mem) = MemorySize → 0 ≤ i < np → alloc_inv s mem np i st →
  ∃ st', alloc_page i st = Ok st' ∧ alloc_inv s mem np (i + 1) st'.
Proof.
  destruct st as [[bm pt] mem1]. intros Hfree Hlen Hi (Hpl & Hok & Hfr & Hdisj & Hbm & Hs & Hz).
  set (T := take (Z.to_nat i) pt) in *. unfold alloc_page.
  assert (length T = Z.to_nat i) as HlT by (unfold T; rewrite length_take; lia).
  destruct (first_free bm (list_to_set (frame_list T) ∪ s) Hbm) as (f & bm' & -> & Hf & Hnew & Hbm').
  { rewrite (size_frames T s Hok Hdisj). lia. }
  cbn [rbind]. rewrite aset_in by lia. cbn [rbind].
  set (e := page_entry i f). change (mkTE i f true false false false) with e.
  assert (physicalPage e ∉ frame_list T) as HnT.
  { intros Hin. apply Hnew. apply elem_of_union_l, elem_of_list_to_set. exact Hin. }
  assert (table_ok (T ++ [e])) as Hok' by (apply table_ok_app; done).
  assert (take (Z.to_nat (i + 1)) (<[Z.to_nat i:=e]> pt) = T ++ [e]) as Htake.
  { replace (Z.to_nat (i + 1)) with (S (Z.to_nat i)) by lia.
    rewrite (take_S_r _ _ e) by (apply list_lookup_insert_eq; lia).
    by rewrite take_insert_ge by lia. }
  destruct (page_put (T ++ [e]) mem1 i 0 (replicate (Z.to_nat PageSize) 0) e)
    as (mem2 & Hput & Hs2 & Hv2); [done | by rewrite (proj1 Hs) | lia | | lia | pages; rewrite length_replicate; lia |].
  { rewrite lookup_app_r, HlT, Nat.sub_diag by lia. done. }
  rewrite Z.add_0_r in Hput. change (physicalPage e) with f in Hput. rewrite Hput. cbn [rbind].
  eexists. split; [done |]. unfold alloc_inv. cbv zeta. rewrite Htake.
  split; [by rewrite length_insert |]. split; [done |]. split; [| split; [| split; [| split]]].
  - intros j e'. destruct (decide (j < length T)%nat).
    + rewrite lookup_app_l by lia. apply Hfr.
    + rewrite lookup_app_r, list_lookup_singleton by lia.
      destruct (j - length T)%nat eqn:Hj; [| done]. intros [= <-].
      unfold e. cbn [physicalPage page_entry]. unfold page_entry. f_equal. lia.
  - intros g. rewrite frame_list_app. intros [Hg | ->%list_elem_of_singleton]%elem_of_app; [by apply Hdisj |].
    intros Hin. apply Hnew. by apply elem_of_union_r.
  - rewrite frame_list_app, list_to_set_app_L. cbn. rewrite union_empty_r_L.
    by rewrite (union_comm_L (list_to_set _)), <- union_assoc_L.
  - destruct Hs as [Hsl Hso], Hs2 as [Hs2l Hs2o]. split; [congruence |].
    intros a Ha Hout. rewrite Hs2o by done. apply Hso; [done |].
    rewrite frame_list_app in Hout. intros Hin. apply Hout. apply elem_of_app. by left.
  - intros v Hv. rewrite Hv2 by lia. rewrite length_replicate. pages. case_decide.
    + apply lookup_replicate. split; [done | lia].
    + rewrite vbyte_app by (pages; lia). apply Hz. lia.
Qed.

Lemma alloc_start bm s raw mem np : bm_repr bm FrameBits s → Z.of_nat (length raw) = np →
  alloc_inv s mem np 0 (bm, raw, mem).
Proof.
  intros Hbm Hraw. unfold alloc_inv. cbv zeta. change (take (Z.to_nat 0) raw) with (@nil TranslationEntry).
  split_and!; try done.
  - split; [by apply NoDup_nil | constructor].
  - intros f Hf. by apply elem_of_nil in Hf.
  - assert (list_to_set (frame_list []) ∪ s = s) as -> by apply (union_empty_l_L s). done.
  - intros v Hv. pages. lia.
Qed.

Lemma alloc_pages_spec bm s raw mem np : bm_repr bm FrameBits s →
  0 ≤ np ≤ NumPhysPages - Z.of_nat (base.size s) → Z.of_nat (length raw) = np →
  Z.of_nat (length mem) = MemorySize →
  ∃ bm' pt mem', for_each 0 np alloc_page (bm, raw, mem) = Ok (bm', pt, mem') ∧
    Z.of_nat (length pt) = np ∧ table_ok pt ∧ fresh_table pt ∧ (∀ f, f ∈ frame_list pt → f ∉ s) ∧
    bm_repr bm' FrameBits (list_to_set (frame_list pt) ∪ s) ∧ same_outside pt mem mem' ∧
    ∀ v, 0 ≤ v < np * PageSize → vbyte mem' pt v = Some 0.
Proof.
  intros Hbm Hnp Hraw Hlen.
  destruct (for_each_rule (alloc_inv s mem np) 0 np alloc_page (bm, raw, mem))
    as ([[bm' pt] mem'] & Hr & Hinv); [lia | by apply alloc_start | |].
  - intros i st Hi Hst. apply alloc_step; try done; lia.
  - exists bm', pt, mem'. split; [done |]. destruct Hinv as (Hl & Hrest).
    rewrite take_ge in Hrest by lia. done.
Qed.

(** Asked for more pages than there are frames left, the loop writes outside
    the memory. *)
Lemma alloc_overflow bm s raw mem np : bm_repr bm FrameBits s → (∀ f, f ∈ s → f < NumPhysPages) →
  NumPhysPages - Z.of_nat (base.size s) < np → Z.of_nat (length raw) = np →
  Z.of_nat (length mem) = MemorySize → for_each 0 np alloc_page (bm, raw, mem) = Fail OutOfBounds.
Proof.
  intros Hbm Hlt Hnp Hraw Hlen.
  assert (Z.of_nat (base.size s) ≤ NumPhysPages) as Hle.
  { assert (s ⊆ list_to_set (seqZ 0 NumPhysPages)) as Hsub.
    { intros f Hf. apply elem_of_list_to_set, elem_of_seqZ. pose proof (bm_repr_range _ _ _ _ Hbm Hf). specialize (Hlt f Hf). lia. }
    apply subseteq_size in Hsub. rewrite size_list_to_set, length_seqZ in Hsub by apply NoDup_seqZ. unfold NumPhysPages in *. lia. }
  set (n0 := NumPhysPages - Z.of_nat (base.size s)) in *.
  destruct (for_each_rule (alloc_inv s mem np) 0 n0 alloc_page (bm, raw, mem))
    as ([[bm1 pt1] mem1] & Hr & Hinv); [lia | by apply alloc_start | |].
  { intros i st Hi Hst. apply alloc_step; try done; lia. }
  rewrite (for_each_split 0 n0 np), Hr by lia. cbn [rbind]. unfold for_each.
  replace (Z.to_nat (np - n0)) with (S (Z.to_nat (np - n0 - 1))) by lia. cbn [for_each_n].
  destruct Hinv as (Hpl & Hok & _ & Hdisj & Hbm1 & Hs1 & _). set (T := take (Z.to_nat n0) pt1) in *.
  assert (length T = Z.to_nat n0) as HlT by (unfold T; rewrite length_take; lia). unfold alloc_page.
  destruct (none_free bm1 _ Hbm1) as (f & bm2 & -> & Hf).
  - rewrite (size_frames T s Hok Hdisj). lia.
  - intros f [Hf%elem_of_list_to_set|Hf]%elem_of_union; [| by apply Hlt]. destruct Hok as [_ Hok].
    rewrite Forall_forall in Hok. by apply Hok.
  - cbn [rbind]. rewrite aset_in by lia. cbn [rbind]. unfold blk_put. rewrite length_replicate, (proj1 Hs1).
    destruct (Z.leb_spec (f * PageSize + Z.of_nat (Z.to_nat PageSize)) (Z.of_nat (length mem))); [pages; lia |].
    by rewrite andb_false_r.
Qed.
End allocation.

(** ** The header *)

Lemma header_word_ok be buf k : length buf = 52%nat → 0 ≤ k < 13 →
  ∃ bs, blk_get buf (4 * k) 4 = Ok bs ∧ header_word be buf k = Ok (s32 (host_word be bs)).
Proof.
  intros Hl Hk. unfold header_word.
  pose proof (blk_get_in buf (4 * k) 4) as Hg.
  destruct (blk_get buf (4 * k) 4) as [bs|]; [| destruct Hg; lia]. by exists bs.
Qed.

(** Swapping what a big-endian host reads gives what the file says. *)
Lemma swap_header_word buf k w : Forall is_byte buf → header_word false buf k = Ok w →
  ∃ w', header_word true buf k = Ok w' ∧ swap true w' = w.
Proof.
  intros Hb. unfold header_word. destruct (blk_get buf (4 * k) 4) as [bs|] eqn:Hg; [| done].
  cbn [rbind]. intros [= <-]. eexists. split; [done |]. unfold swap.
  pose proof (blk_get_Forall _ _ _ _ _ Hg Hb) as Hbs. pose proof (blk_get_length _ _ _ _ Hg) as Hl.
  rewrite u32_s32. rewrite u32_id.
  - by rewrite load_word by (done || lia).
  - apply (le_decode_bound _ 4); [by rewrite length_reverse | by apply reverse_bytes].
Qed.

Lemma swap_header_segment buf k s : Forall is_byte buf → header_segment false buf k = Ok s →
  ∃ s', header_segment true buf k = Ok s' ∧ swap_segment true s' = s.
Proof.
  intros Hb. unfold header_segment. intros Hs. inv_res.
  destruct (swap_header_word _ _ _ Hb Hx) as (? & -> & <-),
    (swap_header_word _ _ _ Hb Hx0) as (? & -> & <-), (swap_header_word _ _ _ Hb Hx1) as (? & -> & <-).
  cbn [rbind]. by eexists.
Qed.

Lemma magic_big_endian buf : Forall is_byte buf → header_word false buf 0 = Ok NOFFMAGIC →
  ∃ w, header_word true buf 0 = Ok w ∧ w ≠ NOFFMAGIC.
Proof.
  intros Hb. unfold header_word. destruct (blk_get buf (4 * 0) 4) as [bs|] eqn:Hg; [| done].
  cbn [rbind]. intros [= Hm]. eexists. split; [done |].
  pose proof (blk_get_Forall _ _ _ _ _ Hg Hb) as Hbs. pose proof (blk_get_length _ _ _ _ Hg) as Hl.
  assert (little_endian_to_Z 8 bs = NOFFMAGIC) as Hle.
  { pose proof (le_decode_bound bs 4 Hl Hbs) as Hr. change (host_word false bs) with (little_endian_to_Z 8 bs) in Hm.
    rewrite <- (u32_id (little_endian_to_Z 8 bs)), <- u32_s32, Hm by done. reflexivity. }
  assert (bs = Z_to_little_endian 4 8 NOFFMAGIC) as ->.
  { rewrite <- Hle. symmetry. apply Z_to_little_endian_to_Z; [lia | lia | exact Hbs]. }
  discriminate.
Qed.

(** Whatever the host, [Load] works with the header the file holds in little
    endian. *)
Lemma header_host_independent be buf h : Forall is_byte buf →
  read_header false buf = Ok h → noffMagic h = NOFFMAGIC →
  ∃ h', read_header be buf = Ok h' ∧
    (if negb (noffMagic h' =? NOFFMAGIC) && (swap be (noffMagic h') =? NOFFMAGIC)
     then SwapHeader be h' else h') = h.
Proof.
  intros Hb Hr Hm. destruct be; cycle 1.
  { exists h. split; [done |]. rewrite Hm. done. }
  unfold read_header in *. inv_res. cbn in Hm. subst.
  destruct (magic_big_endian buf Hb Hx) as (w & Hw & Hne).
  destruct (swap_header_word _ _ _ Hb Hx) as (w' & Hw' & Hsw). rewrite Hw in Hw'. injection Hw' as <-.
  destruct (swap_header_segment _ _ _ Hb Hx0) as (? & -> & <-),
    (swap_header_segment _ _ _ Hb Hx1) as (? & -> & <-),
    (swap_header_segment _ _ _ Hb Hx2) as (? & -> & <-),
    (swap_header_segment _ _ _ Hb Hx3) as (? & -> & <-).
  rewrite Hw. cbn [rbind]. eexists. split; [done |]. cbn [noffMagic].
  destruct (Z.eqb_spec w NOFFMAGIC); [done |]. rewrite Hsw, Z.eqb_refl. cbn [negb andb].
  unfold SwapHeader. cbn. by rewrite Hsw.
Qed.

(** ** What the user program sees *)

Definition image (exe : view) (h : NoffHeader) : list Z :=
  seg_bytes exe (code h) ++ seg_bytes exe (initData h) ++ seg_bytes exe (readonlyData h).

Lemma seg_bytes_length exe s : seg_ok exe s → Z.of_nat (length (seg_bytes exe s)) = size s.
Proof.
  intros (Hn & Hp & Hl). destruct (decide (size s = 0)) as [Hz|Hz]; [unfold seg_bytes, bytes_at; by rewrite Hz, take_0 |].
  apply bytes_at_length; lia.
Qed.

Lemma placed_image exe h f0 f1 f2 f3 v : exe_ok exe h → 0 ≤ v → f0 v = Some 0 →
  placed (contents exe) (inFileAddr (code h)) (size (code h)) 0 f0 f1 →
  placed (contents exe) (inFileAddr (initData h)) (size (initData h)) (size (code h)) f1 f2 →
  placed (contents exe) (inFileAddr (readonlyData h)) (size (readonlyData h))
      (size (code h) + size (initData h)) f2 f3 →
  f3 v = Some (default 0 (image exe h !! Z.to_nat v)).
Proof.
  intros (_ & _ & Hc & Hd & Hr & _) Hv H0 H1 H2 H3.
  pose proof (seg_bytes_length _ _ Hc) as Lc. pose proof (seg_bytes_length _ _ Hd) as Ld.
  pose proof (seg_bytes_length _ _ Hr) as Lr.
  assert (∀ s j, seg_ok exe s → 0 ≤ j < size s →
    seg_bytes exe s !! Z.to_nat j = contents exe !! Z.to_nat (inFileAddr s + j) ∧
    is_Some (contents exe !! Z.to_nat (inFileAddr s + j))) as Hseg.
  { intros s j (? & ? & ?) Hj. unfold seg_bytes. rewrite bytes_at_lookup by lia. split; [done |].
    apply lookup_lt_is_Some_2. lia. }
  rewrite H3, H2, H1 by done. unfold image.
  destruct (decide (v < size (code h))); [| destruct (decide (v < size (code h) + size (initData h)))].
  - rewrite lookup_app_l by lia. destruct (Hseg (code h) v Hc) as [-> [b Hb]]; [lia |].
    do 3 (case_decide; try lia). by rewrite Z.sub_0_r, Hb.
  - rewrite lookup_app_r, lookup_app_l by lia.
    replace (Z.to_nat v - length (seg_bytes exe (code h)))%nat with (Z.to_nat (v - size (code h))) by lia.
    destruct (Hseg (initData h) (v - size (code h)) Hd) as [-> [b Hb]]; [lia |].
    do 2 (case_decide; try lia). rewrite Hb. done.
  - rewrite !lookup_app_r by lia.
    replace (Z.to_nat v - length (seg_bytes exe (code h)) - length (seg_bytes exe (initData h)))%nat
      with (Z.to_nat (v - (size (code h) + size (initData h)))) by lia.
    case_decide.
    + destruct (Hseg (readonlyData h) (v - (size (code h) + size (initData h))) Hr) as [-> [b Hb]]; [lia |].
      rewrite Hb. done.
    + rewrite (lookup_ge_None_2 (seg_bytes exe (readonlyData h))) by lia. do 2 (case_decide; try lia). done.
Qed.

(** The page table maps what [vbyte] says. *)
Lemma byte_at_vbyte m pt v : table_ok pt → fresh_table pt → 0 ≤ v < 2 ^ 32 →
  byte_at m pt v = vbyte (mainMemory m) pt v.
Proof.
  intros Hpt Hfr Hv. unfold byte_at, page_lookup, vbyte. rewrite u32_id by done.
  destruct (pt !! Z.to_nat (v / PageSize)) as [e|] eqn:He; [| done].
  pose proof (table_ok_frame _ _ _ Hpt He) as Hf. rewrite (Hfr _ _ He). cbn [valid readOnly physicalPage negb andb page_entry].
  rewrite u32_id by (unfold is_u32; pages; lia).
  destruct (Z.leb_spec NumPhysPages (physicalPage e)); [lia | done].
Qed.

(** ** Load, delete and the set of frames in use *)

Section spaces.
Context {B : Type} `{BitmapLaws B}.
Variable be : bool.
Variable new_table : Z → list TranslationEntry.
Hypothesis new_table_length : ∀ n, 0 ≤ n → Z.of_nat (length (new_table n)) = n.

Definition num_pages (h : NoffHeader) : Z := divRoundUp (u32 (total_size h)) PageSize.

Lemma num_pages_nonneg h : 0 ≤ num_pages h.
Proof. apply (pages_nonneg (u32 (total_size h))). pose proof (u32_range (total_size h)) as Hr. apply Hr. Qed.

(** The frames a space owns. *)
Definition space_frames (a : AddrSpace) : list Z :=
  match space_pageTable a with Some pt => frame_list pt | None => [] end.

Definition space_ok (a : AddrSpace) : Prop :=
  ∃ pt, space_pageTable a = Some pt ∧ numPages a = Z.of_nat (length pt) ∧ table_ok pt ∧ fresh_table pt.

(** Whatever the executable, a [Load] that returns true has taken frames that
    were free and released the lock. *)
Lemma copy_pages_length exe pt base i0 num last p mem mem' :
  copy_pages exe pt base i0 num last p mem = Ok mem' → length mem' = length mem.
Proof.
  unfold copy_pages, for_each. generalize (Z.to_nat (num - 0)) at 1. intros n. generalize 0 at 1.
  revert mem. induction n as [|n IH]; intros mem j; cbn.
  - by intros [= <-].
  - intros Hr. apply bind_Ok in Hr as (mem1 & Hr & Hrest). apply IH in Hrest. rewrite Hrest.
    inv_res. by eapply blk_put_length.
Qed.

Lemma load_segments_length exe h pt mem i1 mem1 i2 mem2 mem3 :
  load_code exe h pt mem = Ok (i1, mem1) → load_data exe h pt i1 mem1 = Ok (i2, mem2) →
  load_rdata exe h pt i2 mem2 = Ok mem3 → length mem3 = length mem.
Proof.
  intros H1 H2 H3. transitivity (length mem2); [| transitivity (length mem1)].
  - unfold load_rdata in H3. destruct (size (readonlyData h) >? 0); inv_res; [| done].
    apply copy_pages_length in H3. rewrite H3.
    destruct (negb _ && _); unfold copy_head in *; inv_res; [by eapply blk_put_length | done].
  - unfold load_data in H2. destruct (size (initData h) >? 0); inv_res; [| done].
    apply copy_pages_length in Hx0. rewrite Hx0.
    destruct (negb _ && _); unfold copy_head in *; inv_res; [by eapply blk_put_length | done].
  - unfold load_code in H1. destruct (size (code h) >? 0); inv_res; [| done].
    by apply copy_pages_length in Hx.
Qed.

Lemma Load_true_frames k a exe stack k' a' s : bm_repr (gPhysPageBitMap k) FrameBits s →
  (∀ f, f ∈ s → f < NumPhysPages) →
  Z.of_nat (length (mainMemory (machine k))) = MemorySize →
  Load be new_table k a exe stack = Ok (true, k', a') →
  space_ok a' ∧ (∀ f, f ∈ space_frames a' → f ∉ s) ∧ addrLock k' = addrLock k ∧
  bm_repr (gPhysPageBitMap k') FrameBits (list_to_set (space_frames a') ∪ s) ∧
  Z.of_nat (length (mainMemory (machine k'))) = MemorySize.
Proof.
  intros Hbm Hlt Hlen HL. destruct exe as [exe|]; [| discriminate]. rewrite Load_eq in HL.
  apply bind_Ok in HL as (bs & _ & HL). apply bind_Ok in HL as (buf & _ & HL).
  apply bind_Ok in HL as (h0 & _ & HL). set (h := if negb _ && _ then _ else h0) in HL.
  apply bind_Ok in HL as ([] & _ & HL).
  rewrite load_program_eq in HL. cbv zeta in HL. fold (total_size h) (num_pages h) in HL.
  apply bind_Ok in HL as (lock & Hlock & HL). apply bind_Ok in HL as ([] & Hnp & HL).
  apply bind_Ok in HL as (free & Hfree & HL).
  rewrite (bm_NumClear_spec _ _ _ Hbm) in Hfree. injection Hfree as <-.
  destruct (_ >? _) eqn:Hle; [discriminate |]. clear Hle.
  pose proof (num_pages_nonneg h). destruct (decide (num_pages h ≤ NumPhysPages - Z.of_nat (base.size s))) as [Hle|Hle].
  2: { rewrite (alloc_overflow _ s) in HL by (done || (try apply new_table_length; lia)). done. }
  destruct (alloc_pages_spec (gPhysPageBitMap k) s (new_table (num_pages h)) (mainMemory (machine k)) (num_pages h))
    as (bm & pt & mem & Ha & Hpl & Hok & Hfr & Hd & Hbm' & Hs & _); [done | lia | by apply new_table_length | done |].
  rewrite Ha in HL. cbn [rbind] in HL. apply bind_Ok in HL as ([i1 mem1] & HL1 & HL).
  apply bind_Ok in HL as ([i2 mem2] & HL2 & HL). apply bind_Ok in HL as (mem3 & HL3 & [= <- <-]).
  split; [by exists pt |]. split; [done |]. split.
  { unfold lock_P in Hlock. destruct (addrLock k =? 0); [done |]. injection Hlock as <-.
    cbn. unfold lock_V. lia. }
  split; [done |]. cbn. rewrite (load_segments_length _ _ _ _ _ _ _ _ _ HL1 HL2 HL3). by rewrite (proj1 Hs).
Qed.

Lemma Load_false_frames k a exe stack k' a' :
  Load be new_table k a exe stack = Ok (false, k', a') → k' = k.
Proof.
  intros HL. destruct exe as [exe|]; [rewrite Load_eq in HL | cbn in HL; congruence].
  apply bind_Ok in HL as (bs & _ & HL). apply bind_Ok in HL as (buf & _ & HL).
  apply bind_Ok in HL as (h0 & _ & HL). cbv zeta in HL. apply bind_Ok in HL as ([] & _ & HL).
  rewrite load_program_eq in HL. cbv zeta in HL. apply bind_Ok in HL as (lock & Hlock & HL). apply bind_Ok in HL as ([] & Hnp & HL).
  apply bind_Ok in HL as (free & Hfree & HL). destruct (_ >? free).
  - injection HL as <- _. unfold lock_P in Hlock. destruct (Z.eqb_spec (addrLock k) 0); [done |].
    injection Hlock as <-. destruct k. cbn. unfold lock_V. f_equal. lia.
  - apply bind_Ok in HL as ([[bm pt] mem] & _ & HL). apply bind_Ok in HL as ([i1 mem1] & _ & HL).
    apply bind_Ok in HL as ([i2 mem2] & _ & HL). apply bind_Ok in HL as (mem3 & _ & HL). discriminate.
Qed.

(** The destructor gives back exactly the frames of the space. *)
Lemma delete_frames k a s : space_ok a → bm_repr (gPhysPageBitMap k) FrameBits s →
  ∃ bm, AddrSpace_delete k a = Ok (mkKernel (machine k) bm (addrLock k)) ∧
    bm_repr bm FrameBits (s ∖ list_to_set (space_frames a)).
Proof.
  intros (pt & Hpt & Hn & Hok & _) Hbm. unfold AddrSpace_delete, space_frames. rewrite Hpt, Hn. cbn [rbind].
  destruct (for_each_rule (λ i bm, bm_repr bm FrameBits (s ∖ list_to_set (frame_list (take (Z.to_nat i) pt))))
    0 (Z.of_nat (length pt)) (λ i bm, e ← aget pt i; bm_Clear bm (physicalPage e)) (gPhysPageBitMap k))
    as (bm & Hr & Hbm'); [lia | | |].
  - change (list_to_set (frame_list (take (Z.to_nat 0) pt))) with (∅ : gset Z). by rewrite difference_empty_L.
  - intros i bm Hi Hbmi. destruct (lookup_lt_is_Some_2 pt (Z.to_nat i)) as [e He]; [lia |].
    rewrite (proj2 (aget_Ok pt i e)) by (split; [lia | done]). cbn [rbind].
    destruct (bm_Clear_in _ _ _ (physicalPage e) Hbmi) as (bm' & -> & Hbm');
      [pose proof (table_ok_frame _ _ _ Hok He); unfold NumPhysPages, FrameBits in *; lia |].
    exists bm'. split; [done |]. replace (Z.to_nat (i + 1)) with (S (Z.to_nat i)) by lia.
    rewrite (take_S_r _ _ e) by done. rewrite frame_list_app, list_to_set_app_L. cbn.
    by rewrite union_empty_r_L, <- difference_difference_l_L.
  - rewrite Hr. cbn [rbind]. exists bm. split; [done |].
    by rewrite Nat2Z.id, take_ge in Hbm' by lia.
Qed.

(** ** The kernel over time

    Processes start (a [Load], which may fail), run (user code changes the
    machine) and exit (the destructor), in any order. *)
Inductive event : Kernel B * list AddrSpace → Kernel B * list AddrSpace → Prop :=
  | ev_load k sp exe stack k' a' :
      Load be new_table k AddrSpace_new exe stack = Ok (true, k', a') → event (k, sp) (k', a' :: sp)
  | ev_load_fails k sp exe stack k' a' :
      Load be new_table k AddrSpace_new exe stack = Ok (false, k', a') → event (k, sp) (k', sp)
  | ev_run k sp m : length (mainMemory m) = length (mainMemory (machine k)) →
      event (k, sp) (mkKernel m (gPhysPageBitMap k) (addrLock k), sp)
  | ev_exit k sp1 a sp2 k' :
      AddrSpace_delete k a = Ok k' → event (k, sp1 ++ a :: sp2) (k', sp1 ++ sp2).

Definition all_frames (sp : list AddrSpace) : list Z := mjoin (space_frames <$> sp).

Definition kernel_inv (st : Kernel B * list AddrSpace) : Prop :=
  let '(k, sp) := st in
  Forall space_ok sp ∧ NoDup (all_frames sp) ∧
  bm_repr (gPhysPageBitMap k) FrameBits (list_to_set (all_frames sp)) ∧
  Z.of_nat (length (mainMemory (machine k))) = MemorySize ∧ addrLock k = 1.

Lemma all_frames_range sp f : Forall space_ok sp → f ∈ all_frames sp → 0 ≤ f < NumPhysPages.
Proof.
  intros Hsp (fs & Hf & (a & -> & Ha)%list_elem_of_fmap)%list_elem_of_join.
  rewrite Forall_forall in Hsp. destruct (Hsp a Ha) as (pt & Hpt & _ & [_ Hok] & _).
  unfold space_frames in Hf. rewrite Hpt in Hf. rewrite Forall_forall in Hok. by apply Hok.
Qed.

Lemma event_inv st st' : event st st' → kernel_inv st → kernel_inv st'.
Proof.
  intros Hev. destruct Hev as [k sp exe stack k' a' HL|k sp exe stack k' a' HL|k sp m Hm|k sp1 a sp2 k' HD];
    intros (Hsp & Hnd & Hbm & Hlen & Hlock).
  - assert (∀ f, f ∈ (list_to_set (all_frames sp) : gset Z) → f < NumPhysPages) as Hlt
      by (intros f Hf%elem_of_list_to_set; by apply (all_frames_range sp)).
    destruct (Load_true_frames _ _ _ _ _ _ _ Hbm Hlt Hlen HL) as (Ha & Hd & Hl & Hbm' & Hlen').
    unfold kernel_inv, all_frames in *. cbn.
    split; [by constructor |]. split; [| split; [| split; [done | congruence]]].
    + apply NoDup_app. split; [by destruct Ha as (pt & Hpt & _ & [Hn _] & _); unfold space_frames; rewrite Hpt |].
      split; [| done]. intros f Hf Hf'. apply (Hd f Hf). by apply elem_of_list_to_set.
    + by rewrite list_to_set_app_L.
  - apply Load_false_frames in HL as ->. done.
  - split_and!; try done. cbn. congruence.
  - unfold all_frames in *. rewrite fmap_app, fmap_cons, join_app in Hnd. cbn [mjoin list_join] in Hnd.
    apply Forall_app in Hsp as [Hsp1 [Ha Hsp2]%Forall_cons].
    destruct (delete_frames k a _ Ha Hbm) as (bm & HD' & Hbm'). rewrite HD in HD'. injection HD' as ->.
    apply NoDup_app in Hnd as (Hn1 & Hd1 & (Hna & Hda & Hn2)%NoDup_app).
    split; [by apply Forall_app |]. unfold all_frames. rewrite fmap_app, join_app.
    split; [| split; [| done]].
    + apply NoDup_app. split; [done |]. split; [| done].
      intros f Hf Hf'. apply (Hd1 f Hf). apply elem_of_app. by right.
    + replace (list_to_set (mjoin (space_frames <$> sp1) ++ mjoin (space_frames <$> sp2)))
        with (list_to_set (mjoin (space_frames <$> sp1 ++ a :: sp2)) ∖ list_to_set (space_frames a) :> gset Z);
        [done |].
      rewrite fmap_app, fmap_cons, join_app. cbn [mjoin list_join]. rewrite !list_to_set_app_L.
      apply set_eq. intros f. rewrite elem_of_difference, !elem_of_union, !elem_of_list_to_set.
      split; [naive_solver |]. intros [Hf|Hf]; (split; [naive_solver |]); intros Hfa.
      * apply (Hd1 f Hf). apply elem_of_app. by left.
      * by apply (Hda f Hfa).
Qed.
End spaces.

(** ** The initial machine of a process *)

Lemma write_all_zero m : length (registers m) = 40%nat →
  for_each 0 NumTotalRegs (λ i m, WriteRegister m i 0) m = Ok (with_registers m (replicate 40 0)).
Proof.
  intros Hlen.
  destruct (for_each_rule (λ i m', ∃ r, m' = with_registers m r ∧ length r = 40%nat ∧
    ∀ j : nat, Z.of_nat j < i → r !! j = Some 0) 0 NumTotalRegs (λ i m, WriteRegister m i 0) m)
    as (m' & Hr & r & -> & Hl & Hz); [done | | |].
  - exists (registers m). split; [by destruct m |]. split; [done | lia].
  - intros i m' Hi (r & -> & Hl & Hz). unfold NumTotalRegs in Hi. unfold WriteRegister.
    rewrite bool_decide_eq_true_2 || idtac.
    assert ((0 <=? i) && (i <? NumTotalRegs) = true) as ->.
    { apply andb_true_iff. split; [apply Z.leb_le | apply Z.ltb_lt]; unfold NumTotalRegs; lia. }
    cbn [rbind registers with_registers]. rewrite aset_in by lia. cbn [rbind].
    eexists. split; [done |]. eexists. split; [done |]. split; [by rewrite length_insert |].
    intros j Hj. destruct (decide (Z.to_nat i = j)) as [<-|].
    + apply list_lookup_insert_eq. lia.
    + rewrite list_lookup_insert_ne by done. apply Hz. lia.
  - rewrite Hr. do 2 f_equal. apply list_eq. intros j. destruct (decide (j < 40)%nat).
    + rewrite Hz by (unfold NumTotalRegs; lia). symmetry. by apply lookup_replicate_2.
    + by rewrite !lookup_ge_None_2 by (rewrite ?length_replicate; lia).
Qed.

(** An executable file whose header is [h]. *)
Definition exe_file (exe : view) (h : NoffHeader) : Prop :=
  Forall is_byte (contents exe) ∧ 52 ≤ Z.of_nat (length (contents exe)) ∧
  read_header false (bytes_at (contents exe) 0 52) = Ok h ∧ noffMagic h = NOFFMAGIC.

Lemma Load_header `{BitmapOps B} be new_table (k : Kernel B) a exe stack h :
  length stack = 52%nat → exe_file exe h →
  Load be new_table k a (Some exe) stack = load_program new_table k a exe h.
Proof.
  intros Hstack (Hbytes & Hlong & Hhdr & Hmagic).
  rewrite Load_eq. rewrite view_read_Ok by (unfold sizeof_NoffHeader; lia). cbn [rbind].
  pose proof (bytes_at_length (contents exe) 0 52 ltac:(lia) ltac:(lia) ltac:(lia)) as Hbl.
  change sizeof_NoffHeader with 52. rewrite blk_put_in by lia. cbn [rbind Z.to_nat].
  assert (list_inserts (Z.to_nat 0) (bytes_at (contents exe) 0 52) stack = bytes_at (contents exe) 0 52) as ->.
  { rewrite <- (app_nil_r stack). rewrite (list_inserts_0_r (bytes_at (contents exe) 0 52)) by lia.
    apply app_nil_r. }
  destruct (header_host_independent be (bytes_at (contents exe) 0 52) h) as (h' & -> & Hh);
    [by apply Forall_take, Forall_drop | done | done |].
  cbn [rbind]. by rewrite Hh, Hmagic, Z.eqb_refl.
Qed.

(** ** Properties *)

(** What loading does, as [Load_image] states it. *)
Lemma Load_places `{BitmapLaws B} be new_table k a exe stack h s
    (Htab : ∀ n, 0 <= n → Z.of_nat (length (new_table n)) = n)
    (Hbm : bm_repr (gPhysPageBitMap k) FrameBits s)
    (Hmem : Z.of_nat (length (mainMemory (machine k))) = MemorySize)
    (Hstack : length stack = 52%nat) (Hlock : 0 < addrLock k)
    (Hfile : exe_file exe h)
    (Hexe : exe_ok exe h) (Hsmall : total_size h < 2 ^ 31)
    (Hfit : num_pages h <= NumPhysPages - Z.of_nat (base.size s)) :
  ∃ bm pt mem,
    Load be new_table k a (Some exe) stack =
      Ok (true, mkKernel (with_memory (machine k) mem) bm (addrLock k), mkAddrSpace (Some pt) (num_pages h)) ∧
    Z.of_nat (length pt) = num_pages h ∧ table_ok pt ∧ fresh_table pt ∧
    (∀ f, f ∈ frame_list pt → f ∉ s) ∧ bm_repr bm FrameBits (list_to_set (frame_list pt) ∪ s) ∧
    (∀ v, 0 <= v < num_pages h * PageSize →
       byte_at (with_memory (machine k) mem) pt v = Some (default 0 (image exe h !! Z.to_nat v))) ∧
    same_outside pt (mainMemory (machine k)) mem.
Proof.
  rewrite (Load_header be new_table k a exe stack h) by done. rewrite load_program_eq.
  unfold lock_P. destruct (Z.eqb_spec (addrLock k) 0); [lia |]. cbn [rbind].
  fold (total_size h) (num_pages h). destruct (Z.leb_spec (num_pages h) NumPhysPages); [| lia].
  cbn [rbind]. rewrite (bm_NumClear_spec _ _ _ Hbm). cbn [rbind].
  destruct (Z.gtb_spec (num_pages h) (FrameBits - Z.of_nat (base.size s))); [unfold FrameBits, NumPhysPages in *; lia |].
  pose proof (num_pages_nonneg h).
  destruct (alloc_pages_spec (gPhysPageBitMap k) s (new_table (num_pages h)) (mainMemory (machine k)) (num_pages h))
    as (bm & pt & mem & -> & Hpl & Hok & Hfr & Hd & Hbm' & Hs & Hz); [done | lia | by apply Htab | done |].
  cbn [rbind].
  assert (total_size h ≤ Z.of_nat (length pt) * PageSize) as Htot.
  { rewrite Hpl. unfold num_pages. pose proof Hexe as (_ & ? & _ & (? & _) & (? & _) & ? & _).
    rewrite u32_id by (unfold is_u32, total_size, UserStackSize; unfold total_size, UserStackSize in *; lia).
    destruct (divRoundUp_spec (total_size h) PageSize) as [Hq|Hq]; [| done | lia | pages; lia].
    unfold total_size, UserStackSize; lia. }
  destruct (segments_contents exe h pt mem) as (i1 & m1 & i2 & m2 & m3 & -> & HL2 & HL3 & Hs' & f1 & f2 & P1 & P2 & P3);
    [done | done | by rewrite (proj1 Hs) | lia | done |].
  cbn [rbind]. rewrite HL2. cbn [rbind]. rewrite HL3. cbn [rbind].
  exists bm, pt, m3. split; [by replace (lock_V (addrLock k - 1)) with (addrLock k) by (unfold lock_V; lia) |].
  split; [done |]. split; [done |]. split; [done |]. split; [done |]. split; [done |].
  split; [| by eapply same_outside_trans].
  intros v Hv. rewrite byte_at_vbyte by (done || (pages; lia)).
  apply (placed_image exe h (vbyte mem pt) f1 f2 (vbyte m3 pt)); try done; [lia |]. apply Hz. lia.
Qed.

(** C13: loading a program.  When enough frames are free, [Load] of a
    well-formed executable (in either byte order of the host) succeeds: its
    pages lie in distinct frames that were free, are marked in the bitmap, and
    are valid and writable; the user program finds at virtual address 0 its
    code, its initialised and its read-only data, one right after the other,
    and zeros up to the end of its pages; all other memory is untouched and
    the loader's lock is released. *)
Theorem Load_image `{BitmapLaws B} be new_table k a exe stack h s
    (Htab : ∀ n, 0 <= n → Z.of_nat (length (new_table n)) = n)
    (Hbm : bm_repr (gPhysPageBitMap k) FrameBits s)
    (Hmem : Z.of_nat (length (mainMemory (machine k))) = MemorySize)
    (Hstack : length stack = 52%nat) (Hlock : 0 < addrLock k)
    (Hfile : exe_file exe h)
    (Hexe : exe_ok exe h) (Hsmall : total_size h < 2 ^ 31)
    (Hfit : num_pages h <= NumPhysPages - Z.of_nat (base.size s)) :
  ∃ bm pt mem,
    Load be new_table k a (Some exe) stack =
      Ok (true, mkKernel (with_memory (machine k) mem) bm (addrLock k), mkAddrSpace (Some pt) (num_pages h)) ∧
    Z.of_nat (length pt) = num_pages h ∧ table_ok pt ∧ fresh_table pt ∧
    (∀ f, f ∈ frame_list pt → f ∉ s) ∧ bm_repr bm FrameBits (list_to_set (frame_list pt) ∪ s) ∧
    (∀ v, 0 <= v < num_pages h * PageSize →
       byte_at (with_memory (machine k) mem) pt v = Some (default 0 (image exe h !! Z.to_nat v))) ∧
    same_outside pt (mainMemory (machine k)) mem.
Proof. by eapply Load_places. Qed.

(** The demonstration executable: 8 bytes of code, 4 of initialised data and 2
    of read-only data behind the 52-byte header. *)
Definition demo_header : NoffHeader :=
  mkNoff NOFFMAGIC (mkSegment 0 52 8) (mkSegment 8 60 4) (mkSegment 12 64 2) (mkSegment 14 0 0).
Definition demo_exe : view :=
  mkView (mjoin (Z_to_little_endian 4 8 <$> [NOFFMAGIC; 0; 52; 8; 8; 60; 4; 12; 64; 2; 14; 0; 0])
          ++ [11; 12; 13; 14; 15; 16; 17; 18; 21; 22; 23; 24; 31; 32]) 0 0.
Definition demo_frames : Bitmap := from_ok (mkBitmap 0 0 []) (Bitmap_new (replicate 8 7) FrameBits).
Definition demo_kernel : Kernel Bitmap := mkKernel Machine_new demo_frames 1.
Definition demo_table (n : Z) : list TranslationEntry := replicate (Z.to_nat n) invalidTE.

Lemma demo_frames_empty : bm_repr demo_frames FrameBits ∅.
Proof.
  destruct (marks_new (replicate 8 7) FrameBits) as (b & Hb & Hm); [done | done |].
  unfold demo_frames. rewrite Hb. exact Hm.
Qed.

Lemma demo_exe_bytes : Forall is_byte (contents demo_exe).
Proof.
  apply (Forall_iff (λ b, bool_decide (0 ≤ b < 256))).
  - intros b. unfold is_byte. by rewrite bool_decide_spec.
  - apply (proj1 (forallb_True _ _)). vm_compute. exact I.
Qed.

Lemma demo_exe_file : exe_file demo_exe demo_header.
Proof. split; [exact demo_exe_bytes |]. split; [vm_compute; discriminate |]. split; reflexivity. Qed.

Lemma Load_image_witness : ∃ bm pt mem,
  Load true demo_table demo_kernel AddrSpace_new (Some demo_exe) (replicate 52 9) =
    Ok (true, mkKernel (with_memory (machine demo_kernel) mem) bm 1, mkAddrSpace (Some pt) 5) ∧
  byte_at (with_memory (machine demo_kernel) mem) pt 9 = Some 22 ∧
  byte_at (with_memory (machine demo_kernel) mem) pt 1000 = Some 0.
Proof.
  destruct (Load_image true demo_table demo_kernel AddrSpace_new demo_exe (replicate 52 9) demo_header ∅)
    as (bm & pt & mem & HL & _ & _ & _ & _ & _ & Hv & _).
  - intros n Hn. unfold demo_table. rewrite length_replicate. lia.
  - exact demo_frames_empty.
  - vm_compute. reflexivity.
  - reflexivity.
  - reflexivity.
  - exact demo_exe_file.
  - unfold exe_ok, seg_ok. split_and!; vm_compute; first [reflexivity | discriminate | intros _; discriminate].
  - reflexivity.
  - rewrite size_empty. vm_compute. discriminate.
  - exists bm, pt, mem. split; [exact HL |]. change (num_pages demo_header) with 5 in Hv.
    split; [exact (Hv 9 ltac:(pages; lia)) | exact (Hv 1000 ltac:(pages; lia))].
Defined.

(** C35: how [Load] fails.  When the file does not open it returns false and
    changes nothing.  When the program needs more frames than are free, it would
    return false, changing nothing either, if the frame bitmap had a bit per
    frame, and more generally when the bitmap has too few clear bits; but the
    kernel's has [FrameBits] bits, so the test passes, and [Load] hands out
    frames that do not exist and stores outside the machine's memory. *)
Theorem Load_out_of_memory `{BitmapLaws B} be new_table (k : Kernel B) a exe stack h s bits
    (Htab : ∀ n, 0 <= n → Z.of_nat (length (new_table n)) = n)
    (Hbm : bm_repr (gPhysPageBitMap k) bits s) (Hs : ∀ f, f ∈ s → f < NumPhysPages)
    (Hmem : Z.of_nat (length (mainMemory (machine k))) = MemorySize)
    (Hstack : length stack = 52%nat) (Hlock : 0 < addrLock k)
    (Hfile : exe_file exe h)
    (Hfit : NumPhysPages - Z.of_nat (base.size s) < num_pages h <= NumPhysPages) :
  Load be new_table k a None stack = Ok (false, k, a) ∧
  (bits - Z.of_nat (base.size s) < num_pages h →
    Load be new_table k a (Some exe) stack = Ok (false, k, mkAddrSpace (space_pageTable a) 0)) ∧
  (bits = FrameBits → Load be new_table k a (Some exe) stack = Fail OutOfBounds).
Proof.
  split; [done |].
  rewrite (Load_header be new_table k a exe stack h) by done. rewrite load_program_eq.
  unfold lock_P. destruct (Z.eqb_spec (addrLock k) 0); [lia |]. cbn [rbind].
  fold (total_size h) (num_pages h). destruct (Z.leb_spec (num_pages h) NumPhysPages); [| lia].
  cbn [rbind]. rewrite (bm_NumClear_spec _ _ _ Hbm). cbn [rbind]. pose proof (num_pages_nonneg h).
  destruct (Z.gtb_spec (num_pages h) (bits - Z.of_nat (base.size s))) as [Hgt|Hle]; split; try lia.
  - intros _. replace (lock_V (addrLock k - 1)) with (addrLock k) by (unfold lock_V; lia). by destruct k.
  - intros ->. exfalso.
    assert (s ⊆ list_to_set (seqZ 0 NumPhysPages)) as Hsub.
    { intros f Hf. apply elem_of_list_to_set, elem_of_seqZ. pose proof (bm_repr_range _ _ _ _ Hbm Hf). specialize (Hs f Hf). lia. }
    apply subseteq_size in Hsub. rewrite size_list_to_set, length_seqZ in Hsub by apply NoDup_seqZ.
    unfold NumPhysPages, FrameBits in *. lia.
  - intros ->. by rewrite (alloc_overflow _ s) by (done || lia || (apply Htab; lia)).
Qed.

(** Every frame in use. *)
Definition full_frames : Bitmap :=
  from_ok demo_frames (for_each 0 NumPhysPages (λ i b, Mark b i) demo_frames).

Lemma full_frames_repr : bm_repr full_frames FrameBits (list_to_set (seqZ 0 NumPhysPages)).
Proof.
  destruct (for_each_rule (λ i b, bm_repr b FrameBits (list_to_set (seqZ 0 i))) 0 NumPhysPages (λ i b, Mark b i) demo_frames)
    as (b & Hb & Hm).
  - done.
  - exact demo_frames_empty.
  - intros i b Hi Hb. destruct (bm_Mark_in b FrameBits _ i Hb) as (b' & Hb' & Hr); [unfold NumPhysPages, FrameBits in *; lia |].
    exists b'. split; [exact Hb' |]. replace (list_to_set (seqZ 0 (i + 1)) : gset Z) with ({[i]} ∪ list_to_set (seqZ 0 i) : gset Z); [exact Hr |].
    apply set_eq. intros x. rewrite elem_of_union, elem_of_singleton, !elem_of_list_to_set, !elem_of_seqZ. lia.
  - unfold full_frames. rewrite Hb. exact Hm.
Qed.

Lemma Load_out_of_memory_witness :
  Load false demo_table (mkKernel Machine_new full_frames 1) AddrSpace_new None (replicate 52 0) =
    Ok (false, mkKernel Machine_new full_frames 1, AddrSpace_new) ∧
  Load false demo_table (mkKernel Machine_new full_frames 1) AddrSpace_new (Some demo_exe) (replicate 52 0) =
    Fail OutOfBounds.
Proof.
  destruct (Load_out_of_memory false demo_table (mkKernel Machine_new full_frames 1) AddrSpace_new demo_exe
    (replicate 52 0) demo_header (list_to_set (seqZ 0 NumPhysPages)) FrameBits) as (H1 & _ & H2).
  - intros n Hn. unfold demo_table. rewrite length_replicate. lia.
  - exact full_frames_repr.
  - intros f Hf%elem_of_list_to_set%elem_of_seqZ. lia.
  - vm_compute. reflexivity.
  - reflexivity.
  - reflexivity.
  - exact demo_exe_file.
  - rewrite size_list_to_set, length_seqZ by apply NoDup_seqZ. change (num_pages demo_header) with 5.
    pages. lia.
  - split; [exact H1 | exact (H2 eq_refl)].
Defined.

Lemma all_frames_disjoint sp i j a b f : NoDup (all_frames sp) →
  sp !! i = Some a → sp !! j = Some b → (i < j)%nat →
  f ∈ space_frames a → f ∈ space_frames b → False.
Proof.
  intros Hnd Hi Hj Hij Hfa Hfb. rewrite <- (take_drop_middle sp i a Hi) in Hnd.
  unfold all_frames in Hnd. rewrite fmap_app, fmap_cons, join_app in Hnd. cbn [mjoin list_join] in Hnd.
  apply NoDup_app in Hnd as (_ & _ & (_ & Hd & _)%NoDup_app). apply (Hd f Hfa).
  apply list_elem_of_join. exists (space_frames b). split; [done |].
  apply list_elem_of_fmap. exists b. split; [done |].
  apply list_elem_of_lookup. exists (j - S i)%nat. rewrite lookup_drop. rewrite <- Hj. f_equal. lia.
Qed.

(** C14: processes never share memory and never leak it.  Start from a kernel
    whose frame bitmap is empty and let processes be loaded (successfully or
    not, from any executable whatever), run and exit in any order and number:
    the frames of the live processes stay pairwise distinct, the bitmap marks
    exactly those, so that every frame of a dead process is free again, and
    the lock is free. *)
Theorem processes_isolated `{BitmapLaws B} be new_table (k0 : Kernel B) k sp
    (Htab : ∀ n, 0 <= n → Z.of_nat (length (new_table n)) = n)
    (Hbm : bm_repr (gPhysPageBitMap k0) FrameBits ∅)
    (Hmem : Z.of_nat (length (mainMemory (machine k0))) = MemorySize) (Hlock : addrLock k0 = 1)
    (Hrun : rtc (event be new_table) (k0, []) (k, sp)) :
  (∀ i j a b f, sp !! i = Some a → sp !! j = Some b → i ≠ j →
     f ∈ space_frames a → f ∈ space_frames b → False) ∧
  bm_NumClear (gPhysPageBitMap k) = Ok (FrameBits - Z.of_nat (length (all_frames sp))) ∧
  (∀ f, 0 <= f < FrameBits → bm_Test (gPhysPageBitMap k) f = Ok (bool_decide (f ∈ all_frames sp))) ∧
  addrLock k = 1.
Proof.
  assert (kernel_inv (k, sp)) as (Hsp & Hnd & Hbm' & _ & Hl).
  { refine (rtc_ind_r kernel_inv (k0, []) _ _ (k, sp) Hrun).
    - split; [constructor |]. split; [by apply NoDup_nil |]. done.
    - intros st st' _ Hev Hst. by eapply event_inv. }
  split; [| split; [| split; [| done]]].
  - intros i j a b f Hi Hj Hne Hfa Hfb.
    destruct (decide (i < j)%nat);
      [by eapply (all_frames_disjoint sp i j) | eapply (all_frames_disjoint sp j i); try done; lia].
  - rewrite (bm_NumClear_spec _ _ _ Hbm'). by rewrite size_list_to_set.
  - intros f Hf. rewrite (bm_Test_in _ _ _ _ Hbm' Hf). f_equal. apply bool_decide_ext, elem_of_list_to_set.
Qed.

(** One process loaded. *)
Lemma processes_isolated_witness : ∃ k a,
  rtc (event false demo_table) (demo_kernel, []) (k, [a]) ∧
  bm_NumClear (gPhysPageBitMap k) = Ok (FrameBits - Z.of_nat (length (all_frames [a]))).
Proof.
  destruct (Load_image false demo_table demo_kernel AddrSpace_new demo_exe (replicate 52 9) demo_header ∅)
    as (bm & pt & mem & HL & _).
  - intros n Hn. unfold demo_table. rewrite length_replicate. lia.
  - exact demo_frames_empty.
  - vm_compute. reflexivity.
  - reflexivity.
  - reflexivity.
  - exact demo_exe_file.
  - unfold exe_ok, seg_ok. split_and!; vm_compute; first [reflexivity | discriminate | intros _; discriminate].
  - reflexivity.
  - rewrite size_empty. vm_compute. discriminate.
  - eexists _, _.
    assert (rtc (event false demo_table) (demo_kernel, [])
      (mkKernel (with_memory (machine demo_kernel) mem) bm 1, [mkAddrSpace (Some pt) (num_pages demo_header)])) as Hrun
      by (apply rtc_once; eapply ev_load; exact HL).
    split; [exact Hrun |].
    apply (processes_isolated false demo_table demo_kernel _ _
      ltac:(intros n Hn; unfold demo_table; rewrite length_replicate; lia)
      demo_frames_empty ltac:(vm_compute; reflexivity) eq_refl Hrun).
Defined.

Lemma WriteRegister_ok m r v : length (registers m) = 40%nat → 0 ≤ r < 40 →
  WriteRegister m r v = Ok (with_registers m (<[Z.to_nat r := v]> (registers m))).
Proof.
  intros Hl Hr. unfold WriteRegister.
  assert ((0 <=? r) && (r <? NumTotalRegs) = true) as ->
    by (apply andb_true_iff; rewrite Z.leb_le, Z.ltb_lt; unfold NumTotalRegs; lia).
  cbn [rbind]. by rewrite aset_in by lia.
Qed.

(** Starting a process.  On a space that [Load] built, [Execute] puts the
    processor in a state from which user code runs safely (the invariant of
    [OneInstruction_safe]): all registers zero but the program counters, which
    point at virtual address 0, and the stack pointer, which lies in the last
    page of the space; translation goes through the process's own page table;
    and the machine is in user mode. *)
Theorem Execute_ready m a pt (Hlen : length (registers m) = 40%nat) (Hmem : mem_ok (mainMemory m))
    (Htlb : tlb m = None) (Hpt : space_pageTable a = Some pt) (Hn : numPages a = Z.of_nat (length pt))
    (Hnp : 1 <= numPages a <= NumPhysPages) :
  ∃ m', Execute m a = Ok m' ∧ cpu_ok m' ∧ paged m' pt ∧ status m' = UserMode ∧
    mainMemory m' = mainMemory m ∧
    ReadRegister m' PCReg = Ok 0 ∧ ReadRegister m' NextPCReg = Ok 4 ∧
    (let sp := numPages a * PageSize - 16 in
     ReadRegister m' StackReg = Ok sp ∧ 0 <= sp ∧ Z.land sp 3 = 0 ∧ sp / PageSize = numPages a - 1) ∧
    ∀ r, 0 <= r < 40 → r ≠ PCReg → r ≠ NextPCReg → r ≠ StackReg → ReadRegister m' r = Ok 0.
Proof.
  unfold Execute, InitRegisters. rewrite write_all_zero by done. cbn [rbind].
  set (sp := numPages a * PageSize - 16).
  assert (s32 sp = sp) as Hsp by (apply s32_id; unfold is_s32, sp; pages; lia). fold sp. rewrite Hsp.
  rewrite !WriteRegister_ok by (rewrite ?length_insert, ?length_replicate; done || lia).
  cbn [rbind registers with_registers].
  rewrite !WriteRegister_ok by (cbn [registers with_registers]; rewrite ?length_insert, ?length_replicate; done || lia).
  cbn [rbind registers with_registers].
  rewrite !WriteRegister_ok by (cbn [registers with_registers]; rewrite ?length_insert, ?length_replicate; done || lia).
  cbn [rbind registers with_registers]. eexists. split; [done |].
  set (rs := <[Z.to_nat StackReg := sp]> _).
  assert (∀ r, 0 ≤ r < 40 → rs !! Z.to_nat r =
    Some (if r =? StackReg then sp else if r =? NextPCReg then 4 else 0)) as Hrs.
  { intros r Hr. unfold rs. destruct (Z.eqb_spec r StackReg) as [->|H1].
    - by rewrite list_lookup_insert_eq by (rewrite !length_insert, length_replicate; unfold StackReg; lia).
    - rewrite list_lookup_insert_ne by (unfold StackReg in *; lia).
      destruct (Z.eqb_spec r NextPCReg) as [->|H2].
      + by rewrite list_lookup_insert_eq by (rewrite !length_insert, length_replicate; unfold NextPCReg; lia).
      + rewrite list_lookup_insert_ne by (unfold NextPCReg in *; lia).
        destruct (decide (r = PCReg)) as [->|H3].
        * by rewrite list_lookup_insert_eq by (rewrite length_replicate; unfold PCReg; lia).
        * rewrite list_lookup_insert_ne by (unfold PCReg in *; lia). apply lookup_replicate_2. lia. }
  assert (length rs = 40%nat) as Hrl by (unfold rs; by rewrite !length_insert, length_replicate).
  clearbody rs.
  assert (paged (setStatus (RestoreState (with_registers m rs) a) UserMode) pt) as Hpaged by done.
  assert (0 ≤ sp ∧ is_s32 sp) as [Hsp0 Hsps] by (unfold is_s32, sp; pages; lia).
  split; [| split; [done | split; [done | split; [done |]]]].
  { split; [split; [| split; [done | by exists pt]] |].
    - split; [done |]. split.
      + apply Forall_lookup. intros i x Hi. change (rs !! i = Some x) in Hi. pose proof (lookup_lt_Some _ _ _ Hi) as Hlt.
        specialize (Hrs (Z.of_nat i) ltac:(lia)). rewrite Nat2Z.id in Hrs.
        rewrite Hrs in Hi. injection Hi as <-.
        destruct (_ =? StackReg); [exact Hsps |]. by destruct (_ =? NextPCReg).
      + exists 0. split; [exact (Hrs 37 ltac:(lia)) | lia].
    - exact (Hrs 0 ltac:(lia)). }
  assert (∀ r, 0 ≤ r < 40 → ReadRegister (setStatus (RestoreState (with_registers m rs) a) UserMode) r =
    Ok (if r =? StackReg then sp else if r =? NextPCReg then 4 else 0)) as Hread.
  { intros r Hr. unfold ReadRegister.
    assert ((0 <=? r) && (r <? NumTotalRegs) = true) as ->
      by (apply andb_true_iff; rewrite Z.leb_le, Z.ltb_lt; unfold NumTotalRegs; lia).
    cbn [rbind]. apply aget_Ok. split; [lia | by apply Hrs]. }
  split; [exact (Hread PCReg ltac:(unfold PCReg; lia)) |].
  split; [exact (Hread NextPCReg ltac:(unfold NextPCReg; lia)) |].
  split; [split; [exact (Hread StackReg ltac:(unfold StackReg; lia)) |]; split; [done | split] |].
  - fold sp. change 3 with (2 ^ 2 - 1). rewrite land_low_mod by lia. unfold sp. pages.
    replace (numPages a * 256 - 16) with (0 + (numPages a * 64 - 4) * 4) by lia.
    by rewrite Z_mod_plus_full.
  - pages. symmetry. apply Z.div_unique with 240; lia.
  - intros r Hr H1 H2 H3. rewrite Hread by done.
    destruct (Z.eqb_spec r StackReg); [done |]. by destruct (Z.eqb_spec r NextPCReg).
Qed.

Lemma Execute_ready_witness : ∃ m', Execute Machine_new (mkAddrSpace (Some demo_pt) 2) = Ok m' ∧
  cpu_ok m' ∧ ReadRegister m' StackReg = Ok 496.
Proof.
  destruct (Execute_ready Machine_new (mkAddrSpace (Some demo_pt) 2) demo_pt)
    as (m' & He & Hm & _ & _ & _ & _ & _ & (Hsp & _) & _).
  - reflexivity.
  - split; [vm_compute; reflexivity |]. apply Forall_replicate. unfold is_byte. lia.
  - reflexivity.
  - reflexivity.
  - reflexivity.
  - cbn. pages. lia.
  - exists m'. split; [exact He |]. split; [exact Hm |]. exact Hsp.
Defined.

(** C38: the kernel and the hardware translate alike where the entry is
    valid.  On a page table whose frame numbers are not negative,
    [AddrSpace::Translate] gives for every address the exception that
    [Machine::Translate] gives for one byte, changing nothing, or its physical
    address, leaving the same page table with its use and dirty bits.  The one
    exception is an entry that is not valid: there the hardware raises
    [PageFaultException], and [AddrSpace::Translate], which never looks at
    [valid], goes on and translates through the entry. *)
Theorem Translate_agrees m a pt v w (Hm : paged m pt) (Hpt : space_pageTable a = Some pt)
    (Hn : numPages a = Z.of_nat (length pt)) (Hv : is_u32 v) (Hfr : Forall (λ e, 0 <= physicalPage e < 2 ^ 31) pt) :
  ∃ ex pa a', AddrSpace_Translate a v w = Ok (ex, pa, a') ∧
    match Machine.Translate m (s32 v) 1 w with
    | Ok (inl PageFaultException) => ∃ e, pt !! Z.to_nat (v / PageSize) = Some e ∧ valid e = false ∧
        (ex = NoException ↔ readOnly e && w = false ∧ physicalPage e < NumPhysPages) ∧ ex ≠ PageFaultException
    | Ok (inl ex') => ex' = ex ∧ pa = None ∧ a' = a
    | Ok (inr (pa', m')) => ex = NoException ∧ pa = Some pa' ∧ space_pageTable a' = pageTable m' ∧ numPages a' = numPages a
    | Fail _ => False
    end.
Proof.
  rewrite (Translate_page_table_eq m pt (s32 v) 1 w Hm) by (by left).
  change (misaligned (s32 v) 1) with false. cbn iota. unfold AddrSpace_Translate, page_lookup, touch.
  rewrite u32_s32, u32_id by done. rewrite Hpt, Hn.
  unfold is_u32 in Hv. pose proof (Z.div_pos v PageSize ltac:(lia) ltac:(done)).
  destruct (Z.leb_spec (Z.of_nat (length pt)) (v / PageSize)).
  { rewrite lookup_ge_None_2 by lia. by eexists _, _, _. }
  destruct (lookup_lt_is_Some_2 pt (Z.to_nat (v / PageSize))) as [e He]; [lia |].
  rewrite He. cbn [rbind]. rewrite (proj2 (aget_Ok pt _ e)) by (split; [lia | done]). cbn [rbind].
  pose proof (proj1 (Forall_lookup _ _) Hfr _ _ He) as Hf. cbn in Hf. rewrite (u32_id (physicalPage e)) by (unfold is_u32; lia).
  rewrite (andb_comm w). destruct (readOnly e && w) eqn:Hro.
  { eexists _, _, _. split; [done |]. destruct (valid e) eqn:Hval; cbn [negb]; [done |]. exists e. rewrite Hro.
    split; [done |]. split; [done |]. split; [| done]. split; [done | by intros [? _]]. }
  destruct (Z.leb_spec NumPhysPages (physicalPage e)).
  { eexists _, _, _. split; [done |]. destruct (valid e) eqn:Hval; cbn [negb]; [done |]. exists e.
    split; [done |]. split; [done |]. split; [| done]. split; [done | intros [_ ?]; lia]. }
  rewrite aset_in by lia. cbn [rbind]. pose proof (Z.mod_pos_bound v PageSize ltac:(done)).
  rewrite u32_id by (unfold is_u32; pages; lia).
  destruct (Z.ltb_spec (physicalPage e * PageSize + v mod PageSize) MemorySize); [| pages; lia].
  cbn [rbind]. eexists _, _, _. split; [done |]. destruct (valid e) eqn:Hval; cbn [negb].
  - split; [done |]. split; [done |]. split; [| done]. cbn. f_equal. rewrite list_insert_alter. apply list_alter_ext; [| done].
    intros x Hx. congruence.
  - exists e. rewrite Hro. split; [done |]. split; [done |]. done.
Qed.

(** A write to a read-only page, which both refuse, and an invalid entry. *)
Lemma Translate_agrees_witness :
  (∃ pa a', AddrSpace_Translate (mkAddrSpace (Some demo_pt) 2) 300 true = Ok (ReadOnlyException, pa, a')) ∧
  ∃ pa a', AddrSpace_Translate (mkAddrSpace (Some [mkTE 0 3 false false false false]) 1) 5 false = Ok (NoException, pa, a').
Proof.
  split.
  - destruct (Translate_agrees (with_pageTable Machine_new (Some demo_pt) 2) (mkAddrSpace (Some demo_pt) 2) demo_pt 300 true)
      as (ex & pa & a' & Hs & Hm); [done | done | done | unfold is_u32; lia | repeat constructor; cbn; lia |].
    vm_compute in Hm. destruct Hm as (<- & _ & _). by exists pa, a'.
  - set (pt := [mkTE 0 3 false false false false]).
    destruct (Translate_agrees (with_pageTable Machine_new (Some pt) 1) (mkAddrSpace (Some pt) 1) pt 5 false)
      as (ex & pa & a' & Hs & Hm); [done | done | done | unfold is_u32; lia | repeat constructor; cbn; lia |].
    change (∃ e, pt !! 0%nat = Some e ∧ valid e = false ∧
      (ex = NoException ↔ readOnly e && false = false ∧ physicalPage e < NumPhysPages) ∧ ex ≠ PageFaultException) in Hm.
    destruct Hm as (e & [= <-] & _ & Hex & _). rewrite (proj2 Hex (conj eq_refl eq_refl)) in Hs. by exists pa, a'.
Defined.
