(* ===== verification/Coff.v ===== *)
(** * The object file converter (coff2noff/coff2noff.c)

    A program of the host that turns what the cross compiler's linker writes, a
    COFF file, into the Noff file that [AddrSpace.Load] loads.  It runs on the
    files of [HostFile]; a host call that fails returns -1, as the code checks
    it, and [exit] ends the program with the host's files as they are then. *)

From S2P Require Import Prelude Bitmap Machine Mips HostFile AddrSpace.
Local Open Scope Z_scope.

Inductive outcome (A : Type) := Next (a : A) (h : Host) | Exit (status : Z) (h : Host) | Crash (f : fault).
Arguments Next {A} a h.
Arguments Exit {A} status h.
Arguments Crash {A} f.

Definition prog (A : Type) : Type := Host → outcome A.
Definition pret {A} (a : A) : prog A := λ h, Next a h.
Definition pbind {A B} (m : prog A) (f : A → prog B) : prog B := λ h,
  match m h with Next a h => f a h | Exit st h => Exit st h | Crash e => Crash e end.
Definition exit {A} (status : Z) : prog A := λ h, Exit status h.
Definition of_result {A} (r : result A) : prog A := λ h, match r with Ok a => Next a h | Fail e => Crash e end.

Declare Scope prog_scope.
Delimit Scope prog_scope with prog.
Notation "x ⇐ m ; f" := (pbind m (λ x, f)) (at level 20, m at level 100, f at level 200, only parsing) : prog_scope.
Notation "m ;; f" := (pbind m (λ _, f)) (at level 100, f at level 200, only parsing, right associativity) : prog_scope.

(** ** Calls of the host *)

(** A count that is negative as an [int] is more than a file can hold: the host
    refuses it. *)
Definition sys_read (fd nBytes : Z) : prog (Z * list Z) := λ h,
  match host_fd h fd with
  | Ok (ino, off, c) =>
      if nBytes <? 0 then Next (-1, []) h
      else let bs := bytes_at c off nBytes in
        Next (Z.of_nat (length bs), bs) (with_fds h (<[fd := (ino, off + Z.of_nat (length bs))]> (fds h)))
  | Fail _ => Next (-1, []) h
  end.

Definition sys_write (fd : Z) (buf : list Z) (nBytes : Z) : prog Z := λ h,
  match host_fd h fd with
  | Ok (ino, off, c) =>
      if nBytes <? 0 then Next (-1) h
      else let bs := take (Z.to_nat nBytes) buf in
        Next nBytes (with_inode (with_fds h (<[fd := (ino, off + nBytes)]> (fds h))) ino (overwrite c off bs))
  | Fail _ => Next (-1) h
  end.

(** Its result is never looked at. *)
Definition sys_lseek (fd offset : Z) : prog unit := λ h,
  match host_fd h fd with
  | Ok (ino, off, c) => if offset <? 0 then Next tt h else Next tt (with_fds h (<[fd := (ino, offset)]> (fds h)))
  | Fail _ => Next tt h
  end.

Definition sys_close (fd : Z) : prog unit := λ h, Next tt (with_fds h (delete fd (fds h))).

(** [name] is [None] for the null pointer, which the host refuses. *)
Definition sys_creat (name : option (list Z)) : prog Z := λ h,
  match name with Some name => let '(fd, h) := host_creat h name in Next fd h | None => Next (-1) h end.
Definition sys_open (name : list Z) : prog Z := λ h, let '(fd, h) := host_open h name in Next fd h.
Definition sys_unlink (name : option (list Z)) : prog unit := λ h,
  match name with Some name => Next tt (Unlink h name).2 | None => Next tt h end.

(** ** The file formats (coff.h, noff.h) *)

Definition MIPSELMAGIC : Z := 0x0162.
Definition OMAGIC : Z := 263.
Definition sizeof_filehdr : Z := 20.
Definition sizeof_aouthdr : Z := 56.
Definition sizeof_scnhdr : Z := 40.

(** What the program uses of the headers. *)
Record filehdr := mkFilehdr { f_magic : Z; f_nscns : Z }.
Record scnhdr := mkScnhdr { s_name : list Z; s_paddr : Z; s_size : Z; s_scnptr : Z }.

Section converter.
Variable big_endian : bool.
Local Open Scope prog_scope.

Definition half_at (bs : list Z) (off : Z) : Z := host_word big_endian (bytes_at bs off 2).
Definition long_at (bs : list Z) (off : Z) : Z := s32 (host_word big_endian (bytes_at bs off 4)).

(** As they come from the file, in the order of its bytes ... *)
Definition raw_filehdr (bs : list Z) : filehdr := mkFilehdr (half_at bs 0) (half_at bs 2).
Definition raw_aout_magic (bs : list Z) : Z := half_at bs 0.
Definition raw_scnhdr (bs : list Z) : scnhdr := mkScnhdr (bytes_at bs 0 8) (long_at bs 8) (long_at bs 16) (long_at bs 20).

(** ... and in the host's. *)
Definition swap_scnhdr (sc : scnhdr) : scnhdr :=
  mkScnhdr (s_name sc) (swap big_endian (s_paddr sc)) (swap big_endian (s_size sc)) (swap big_endian (s_scnptr sc)).

Definition noff_words (h : NoffHeader) : list Z :=
  let seg s := [virtualAddr s; inFileAddr s; size s] in
  noffMagic h :: seg (code h) ++ seg (initData h) ++ seg (readonlyData h) ++ seg (uninitData h).

(** The header as it lies in the host's memory. *)
Definition noff_bytes (h : NoffHeader) : list Z := noff_words h ≫= λ w, host_bytes big_endian 4 (u32 w).

(** [strcmp (name, s) == 0], for an array of eight characters and a short [s]. *)
Definition named (name s : list Z) : bool := bool_decide (take (length s + 1) name = s ++ [0]).

Definition dot_text : list Z := [46; 116; 101; 120; 116].
Definition dot_data : list Z := [46; 100; 97; 116; 97].
Definition dot_rdata : list Z := [46; 114; 100; 97; 116; 97].
Definition dot_bss : list Z := [46; 98; 115; 115].

(** ** The program *)

Section run.
Variable noffFileName : option (list Z).

Definition quit {A} : prog A := sys_unlink noffFileName;; exit 1.

Definition coff_Read (fd nBytes : Z) : prog (list Z) :=
  r ⇐ sys_read fd nBytes;
  if negb (r.1 =? nBytes) then quit else pret r.2.

Definition coff_Write (fd : Z) (buf : list Z) (nBytes : Z) : prog unit :=
  n ⇐ sys_write fd buf nBytes;
  if negb (n =? nBytes) then quit else pret tt.

Definition with_code h s := mkNoff (noffMagic h) s (initData h) (readonlyData h) (uninitData h).
Definition with_initData h s := mkNoff (noffMagic h) (code h) s (readonlyData h) (uninitData h).
Definition with_readonlyData h s := mkNoff (noffMagic h) (code h) (initData h) s (uninitData h).
Definition with_uninitData h s := mkNoff (noffMagic h) (code h) (initData h) (readonlyData h) s.

(** The part the three segments with contents share. *)
Definition copy_section (fdIn fdOut inNoffFile : Z) (sc : scnhdr) (noffH : NoffHeader) : prog (Z * NoffHeader) :=
  sys_lseek fdIn (s_scnptr sc);;
  buffer ⇐ coff_Read fdIn (s_size sc);
  coff_Write fdOut buffer (s_size sc);;
  inNoffFile ⇐ of_result (int_add inNoffFile (s_size sc));
  pret (inNoffFile, noffH).

Definition do_section (fdIn fdOut : Z) (st : Z * NoffHeader) (sc : scnhdr) : prog (Z * NoffHeader) :=
  let '(inNoffFile, noffH) := st in
  let seg := mkSegment (s_paddr sc) inNoffFile (s_size sc) in
  if s_size sc =? 0 then pret st
  else if named (s_name sc) dot_text then copy_section fdIn fdOut inNoffFile sc (with_code noffH seg)
  else if named (s_name sc) dot_data then copy_section fdIn fdOut inNoffFile sc (with_initData noffH seg)
  else if named (s_name sc) dot_rdata then copy_section fdIn fdOut inNoffFile sc (with_readonlyData noffH seg)
  else if named (s_name sc) dot_bss then
    let u := uninitData noffH in
    if negb (size u =? 0) then
      e ⇐ of_result (int_add (virtualAddr u) (size u));
      if s_paddr sc =? e then quit
      else
        sz ⇐ of_result (int_add (size u) (s_size sc));
        pret (inNoffFile, with_uninitData noffH (mkSegment (virtualAddr u) (inFileAddr u) sz))
    else pret (inNoffFile, with_uninitData noffH (mkSegment (s_paddr sc) (inFileAddr u) (s_size sc)))
  else quit.

Fixpoint do_sections (fdIn fdOut : Z) (st : Z * NoffHeader) (scs : list scnhdr) : prog (Z * NoffHeader) :=
  match scs with
  | [] => pret st
  | sc :: scs => st ⇐ do_section fdIn fdOut st sc; do_sections fdIn fdOut st scs
  end.

Definition empty_segment s := mkSegment (virtualAddr s) (inFileAddr s) 0.

(** [raw]: what was on the stack where the header is. *)
Definition start_header (raw : NoffHeader) : NoffHeader :=
  mkNoff NOFFMAGIC (empty_segment (code raw)) (empty_segment (initData raw)) (empty_segment (readonlyData raw))
    (empty_segment (uninitData raw)).

(** From the opened files on. *)
Definition convert (raw : NoffHeader) (fdIn fdOut : Z) : prog unit :=
  bs ⇐ coff_Read fdIn sizeof_filehdr;
  let fileh := raw_filehdr bs in
  if negb (ShortToHost big_endian (f_magic fileh) =? MIPSELMAGIC) then quit
  else
    bs ⇐ coff_Read fdIn sizeof_aouthdr;
    if negb (ShortToHost big_endian (raw_aout_magic bs) =? OMAGIC) then quit
    else
      let numsections := ShortToHost big_endian (f_nscns fileh) in
      bs ⇐ coff_Read fdIn (numsections * sizeof_scnhdr);
      let sections := (λ i, swap_scnhdr (raw_scnhdr (bytes_at bs (i * sizeof_scnhdr) sizeof_scnhdr))) <$> seqZ 0 numsections in
      sys_lseek fdOut sizeof_NoffHeader;;
      st ⇐ do_sections fdIn fdOut (sizeof_NoffHeader, start_header raw) sections;
      sys_lseek fdOut 0;;
      coff_Write fdOut (noff_bytes (SwapHeader big_endian st.2)) sizeof_NoffHeader;;
      sys_close fdIn;;
      sys_close fdOut;;
      exit 0.
End run.

(** [argv] with the name of the program first; [argv[2]] of two arguments is
    the null pointer. *)
Definition coff2noff (raw : NoffHeader) (argv : list (list Z)) : prog unit :=
  match argv with
  | _ :: input :: rest =>
      fdIn ⇐ sys_open input;
      if fdIn =? -1 then exit 1
      else
        fdOut ⇐ sys_creat (head rest);
        if fdIn =? -1 then exit 1
        else convert (head rest) raw fdIn fdOut
  | _ => exit 1
  end.
End converter.

(** ** Byte order *)

Section bytes.
Variable be : bool.

Lemma swap_word bs : length bs = 4%nat → Forall is_byte bs → swap be (s32 (host_word be bs)) = s32 (host_word false bs).
Proof.
  intros Hl Hb. unfold swap. rewrite u32_s32, u32_id.
  - by rewrite load_word.
  - unfold host_word. apply (le_decode_bound _ 4); destruct be; rewrite ?length_reverse; first [lia | done | by apply reverse_bytes].
Qed.

Lemma host_bytes_swap w : host_bytes be 4 (u32 (swap be w)) = host_bytes false 4 (u32 w).
Proof.
  unfold swap. pose proof (u32_range w) as Hw. rewrite u32_s32, u32_id by by apply WordToHost_u32.
  destruct be; [by apply swap_bytes | done].
Qed.

Lemma noff_bytes_swapped h : noff_bytes be (SwapHeader be h) = noff_bytes false h.
Proof. unfold noff_bytes, noff_words. cbn. by rewrite !host_bytes_swap. Qed.
End bytes.

Lemma length_host_bytes be w : length (host_bytes be 4 w) = 4%nat.
Proof. apply Nat2Z.inj. unfold host_bytes. destruct be; rewrite ?length_reverse; by apply (length_Z_to_little_endian 4 8). Qed.

Lemma noff_bytes_length be h : length (noff_bytes be h) = 52%nat.
Proof. unfold noff_bytes, noff_words. cbn. by rewrite !length_app, !length_host_bytes. Qed.

Lemma noff_bytes_ok h : Forall is_byte (noff_bytes false h).
Proof. unfold noff_bytes, noff_words. cbn. rewrite !Forall_app. split_and!; try apply le_is_byte; done. Qed.

(** Word [k] of words laid out one after the other. *)
Lemma blk_get_words (ws : list Z) k w : ws !! k = Some w →
  blk_get (ws ≫= λ w, host_bytes false 4 (u32 w)) (4 * Z.of_nat k) 4 = Ok (host_bytes false 4 (u32 w)).
Proof.
  intros Hk. assert (∀ vs, length (vs ≫= λ w, host_bytes false 4 (u32 w)) = (4 * length vs)%nat) as Hlen.
  { induction vs as [|v vs IH]; [done |]. rewrite bind_cons, length_app, length_host_bytes, IH. cbn [length]. lia. }
  pose proof (lookup_lt_Some _ _ _ Hk). apply list_elem_of_split_length in Hk as (l1 & l2 & -> & ->).
  rewrite bind_app, bind_cons. unfold blk_get. rewrite !length_app, !Hlen, length_host_bytes.
  rewrite (proj2 (Z.leb_le _ _)) by lia. rewrite (proj2 (Z.leb_le _ _)) by lia. rewrite (proj2 (Z.leb_le _ _)) by lia. cbn [andb].
  f_equal. rewrite drop_app_length' by (rewrite Hlen; lia).
  rewrite take_app_le by by rewrite length_host_bytes. apply take_ge. by rewrite length_host_bytes.
Qed.

Lemma read_noff_bytes h : Forall is_s32 (noff_words h) → read_header false (noff_bytes false h) = Ok h.
Proof.
  intros Hs. assert (∀ k w, noff_words h !! k = Some w → header_word false (noff_bytes false h) (Z.of_nat k) = Ok w) as Hw.
  { intros k w Hk. unfold header_word. unfold noff_bytes. rewrite (blk_get_words _ k w Hk). cbn [rbind].
    pose proof (Forall_lookup_1 _ _ _ _ Hs Hk) as Hi. unfold host_word, host_bytes.
    rewrite little_endian_to_Z_to_little_endian by lia. rewrite Z.mod_small by apply u32_range. by rewrite s32_u32, s32_id. }
  destruct h as [m [c1 c2 c3] [d1 d2 d3] [r1 r2 r3] [u1 u2 u3]].
  unfold read_header, header_segment.
  rewrite (Hw 0%nat m eq_refl : header_word false _ 0 = _). cbn [rbind].
  change (1 + 1) with 2. change (1 + 2) with 3. change (4 + 1) with 5. change (4 + 2) with 6.
  change (7 + 1) with 8. change (7 + 2) with 9. change (10 + 1) with 11. change (10 + 2) with 12.
  rewrite (Hw 1%nat c1 eq_refl : header_word false _ 1 = _), (Hw 2%nat c2 eq_refl : header_word false _ 2 = _),
    (Hw 3%nat c3 eq_refl : header_word false _ 3 = _), (Hw 4%nat d1 eq_refl : header_word false _ 4 = _),
    (Hw 5%nat d2 eq_refl : header_word false _ 5 = _), (Hw 6%nat d3 eq_refl : header_word false _ 6 = _),
    (Hw 7%nat r1 eq_refl : header_word false _ 7 = _), (Hw 8%nat r2 eq_refl : header_word false _ 8 = _),
    (Hw 9%nat r3 eq_refl : header_word false _ 9 = _), (Hw 10%nat u1 eq_refl : header_word false _ 10 = _),
    (Hw 11%nat u2 eq_refl : header_word false _ 11 = _), (Hw 12%nat u3 eq_refl : header_word false _ 12 = _).
  reflexivity.
Qed.

(** ** The files while the program runs *)

Section session.
Variables (fi ii fo io : Z) (ci : list Z) (nm : gmap (list Z) Z).

(** The input is open at [pi], the output, with contents [co], at [po]. *)
Record files (h : Host) (pi : Z) (co : list Z) (po : Z) : Prop := {
  fl_in : fds h !! fi = Some (ii, pi);
  fl_ci : inodes h !! ii = Some ci;
  fl_out : fds h !! fo = Some (io, po);
  fl_co : inodes h !! io = Some co;
  fl_names : names h = nm;
  fl_fd : fi ≠ fo;
  fl_ino : ii ≠ io }.

Variable out : option (list Z).

Lemma coff_Read_ok h pi co po n : files h pi co po → 0 <= pi → 0 <= n → pi + n <= Z.of_nat (length ci) →
  ∃ h', coff_Read out fi n h = Next (bytes_at ci pi n) h' ∧ files h' (pi + n) co po.
Proof.
  intros [H1 H2 H3 H4 H5 H6 H7] Hp Hn Hl. unfold coff_Read, pbind, sys_read, host_fd. rewrite H1, H2.
  destruct (Z.ltb_spec n 0); [lia |]. rewrite bytes_at_length by done. cbn [fst snd]. rewrite Z.eqb_refl. cbn [negb].
  eexists. split; [done |]. constructor; cbn; try done; [by rewrite lookup_insert_eq | by rewrite lookup_insert_ne].
Qed.

Lemma coff_Write_ok h pi co po buf n : files h pi co po → Z.of_nat (length buf) = n →
  ∃ h', coff_Write out fo buf n h = Next tt h' ∧ files h' pi (overwrite co po buf) (po + n).
Proof.
  intros [H1 H2 H3 H4 H5 H6 H7] Hn. unfold coff_Write, pbind, sys_write, host_fd. rewrite H3, H4.
  destruct (Z.ltb_spec n 0); [lia |]. rewrite Z.eqb_refl. cbn [negb]. rewrite take_ge by lia.
  eexists. split; [done |]. constructor; cbn; try done; rewrite ?lookup_insert_eq, ?lookup_insert_ne; done.
Qed.

Lemma seek_in h pi co po p : files h pi co po → 0 <= p → ∃ h', sys_lseek fi p h = Next tt h' ∧ files h' p co po.
Proof.
  intros [H1 H2 H3 H4 H5 H6 H7] Hp. unfold sys_lseek, host_fd. rewrite H1, H2.
  destruct (Z.ltb_spec p 0); [lia |]. eexists. split; [done |].
  constructor; cbn; try done; [by rewrite lookup_insert_eq | by rewrite lookup_insert_ne].
Qed.

Lemma seek_out h pi co po p : files h pi co po → 0 <= p → ∃ h', sys_lseek fo p h = Next tt h' ∧ files h' pi co p.
Proof.
  intros [H1 H2 H3 H4 H5 H6 H7] Hp. unfold sys_lseek, host_fd. rewrite H3, H4.
  destruct (Z.ltb_spec p 0); [lia |]. eexists. split; [done |].
  constructor; cbn; try done; [by rewrite lookup_insert_ne | by rewrite lookup_insert_eq].
Qed.
End session.

(** ** What the sections of a file make up *)

Inductive kind := Ktext | Kdata | Krdata | Kbss.

#[export] Instance kind_eq_dec : EqDecision kind.
Proof. solve_decision. Defined.

Definition kind_of (name : list Z) : option kind :=
  if named name dot_text then Some Ktext
  else if named name dot_data then Some Kdata
  else if named name dot_rdata then Some Krdata
  else if named name dot_bss then Some Kbss
  else None.

Definition seg (k : kind) (h : NoffHeader) : Segment :=
  match k with Ktext => code h | Kdata => initData h | Krdata => readonlyData h | Kbss => uninitData h end.

Definition with_seg (k : kind) h s : NoffHeader :=
  match k with
  | Ktext => with_code h s | Kdata => with_initData h s | Krdata => with_readonlyData h s | Kbss => with_uninitData h s
  end.

Lemma seg_with_seg k j h s : seg k (with_seg j h s) = if decide (k = j) then s else seg k h.
Proof. by destruct k, j. Qed.

(** The contents of a section of the COFF file [c]. *)
Definition sec_bytes (c : list Z) (sc : scnhdr) : list Z :=
  if decide (kind_of (s_name sc) = Some Kbss) then replicate (Z.to_nat (s_size sc)) 0
  else bytes_at c (s_scnptr sc) (s_size sc).

(** All that a file has for [k]. *)
Definition part (c : list Z) (k : kind) (scs : list scnhdr) : list Z :=
  scs ≫= λ sc, if decide (kind_of (s_name sc) = Some k) then sec_bytes c sc else [].

(** A section the program can carry over, and a table of them in which no
    segment has two. *)
Definition sec_ok (c : list Z) (sc : scnhdr) : Prop :=
  is_s32 (s_paddr sc) ∧ 0 <= s_size sc ∧
  (0 < s_size sc → ∃ k, kind_of (s_name sc) = Some k ∧ (k = Ktext → s_paddr sc = 0) ∧
     (k ≠ Kbss → 0 <= s_scnptr sc ∧ s_scnptr sc + s_size sc <= Z.of_nat (length c))).

Definition used (scs : list scnhdr) : list (option kind) := (λ sc, kind_of (s_name sc)) <$> filter (λ sc, s_size sc ≠ 0) scs.

Definition all_sizes (scs : list scnhdr) : Z := foldr (λ sc n, s_size sc + n) 0 scs.

Lemma sec_bytes_length c sc : sec_ok c sc → Z.of_nat (length (sec_bytes c sc)) = s_size sc.
Proof.
  intros (_ & Hn & Hk). unfold sec_bytes. case_decide as Hb; [rewrite length_replicate; lia |].
  destruct (decide (s_size sc = 0)) as [->|Hz]; [by unfold bytes_at; rewrite take_0 |].
  destruct Hk as (k & Hk & _ & Hp); [lia |]. destruct Hp as [Hp Hl]; [congruence |]. by apply bytes_at_length.
Qed.

(** The header so far, when [w] has been written behind it and [have k] was
    found for segment [k]. *)
Record laid (w : list Z) (have : kind → list Z) (hd : NoffHeader) : Prop := {
  ld_magic : noffMagic hd = NOFFMAGIC;
  ld_words : Forall is_s32 (noff_words hd);
  ld_size : ∀ k, size (seg k hd) = Z.of_nat (length (have k));
  ld_place : ∀ k, k ≠ Kbss → have k ≠ [] → 52 <= inFileAddr (seg k hd) ∧
    bytes_at w (inFileAddr (seg k hd) - 52) (Z.of_nat (length (have k))) = have k;
  ld_zero : have Ktext ≠ [] → virtualAddr (code hd) = 0 }.

Lemma words_with_seg k hd s : Forall is_s32 (noff_words hd) → is_s32 (virtualAddr s) → is_s32 (inFileAddr s) → is_s32 (size s) →
  Forall is_s32 (noff_words (with_seg k hd s)).
Proof.
  unfold noff_words. intros Hw Hv Hi Hs. cbn in *. rewrite ?Forall_cons, ?Forall_nil in *.
  destruct Hw as (?&?&?&?&?&?&?&?&?&?&?&?&?&_). destruct k; cbn; split_and!; done.
Qed.

Lemma words_seg k hd : Forall is_s32 (noff_words hd) → is_s32 (inFileAddr (seg k hd)).
Proof.
  unfold noff_words. cbn. rewrite ?Forall_cons. intros (?&?&?&?&?&?&?&?&?&?&?&?&?&_). by destruct k.
Qed.

Lemma bytes_at_app_l (f g : list Z) p n : 0 <= p → 0 <= n → p + n <= Z.of_nat (length f) → bytes_at (f ++ g) p n = bytes_at f p n.
Proof. intros Hp Hn Hl. unfold bytes_at. rewrite drop_app_le by lia. rewrite take_app_le; [done | rewrite length_drop; lia]. Qed.

(** One more section, whose segment was empty. *)
Lemma laid_section w have hd k s bs add : laid w have hd → have k = [] → bs ≠ [] →
  add = (if decide (k = Kbss) then [] else bs) →
  size s = Z.of_nat (length bs) → is_s32 (virtualAddr s) → is_s32 (size s) → is_s32 (inFileAddr s) →
  (k = Ktext → virtualAddr s = 0) → (k ≠ Kbss → inFileAddr s = 52 + Z.of_nat (length w)) →
  laid (w ++ add) (λ j, have j ++ (if decide (k = j) then bs else [])) (with_seg k hd s).
Proof.
  intros [H1 H2 H3 H4 H5] Hk Hbs -> Hs Hv Hz Hi Ht Ha. constructor.
  - by destruct k.
  - by apply words_with_seg.
  - intros j. rewrite seg_with_seg. case_decide as Hj.
    + subst j. by rewrite Hk, decide_True.
    + rewrite decide_False by congruence. by rewrite app_nil_r.
  - intros j Hj. rewrite seg_with_seg. destruct (decide (j = k)) as [->|Hne].
    + rewrite Hk, decide_True, (decide_False (P := k = Kbss)) by done. intros _. cbn [app]. rewrite Ha by done. split; [lia |].
      unfold bytes_at. rewrite drop_app_length' by lia. apply take_ge. lia.
    + rewrite (decide_False (P := k = j)) by congruence. rewrite app_nil_r. intros Hnj. destruct (H4 j Hj Hnj) as [Hp Hb]. split; [done |].
      pose proof (f_equal length Hb) as Hl. unfold bytes_at in Hl. rewrite length_take, length_drop in Hl.
      rewrite bytes_at_app_l; [done | lia.. |]. destruct (have j); [done |]. cbn [length] in *. lia.
  - intros Hne. change (code (with_seg k hd s)) with (seg Ktext (with_seg k hd s)). rewrite seg_with_seg.
    destruct (decide (Ktext = k)) as [Hj|Hj]; [by apply Ht |]. apply H5. rewrite decide_False in Hne by congruence.
    by rewrite app_nil_r in Hne.
Qed.

Lemma part_cons c k sc scs : part c k (sc :: scs) = (if decide (kind_of (s_name sc) = Some k) then sec_bytes c sc else []) ++ part c k scs.
Proof. done. Qed.

(** What is written for the sections. *)
Definition payload (c : list Z) (scs : list scnhdr) : list Z :=
  scs ≫= λ sc, match kind_of (s_name sc) with Some Kbss | None => [] | Some _ => sec_bytes c sc end.

(** The output while the header is still missing. *)
Definition behind_header (co w : list Z) : Prop := co = [] ∧ w = [] ∨ co = replicate 52 0 ++ w.

Lemma behind_written co w bs : behind_header co w → bs ≠ [] →
  behind_header (overwrite co (52 + Z.of_nat (length w)) bs) (w ++ bs).
Proof.
  intros Hco Hbs. right. unfold overwrite. rewrite decide_False by done. destruct Hco as [[-> ->]| ->].
  - cbn [length]. rewrite Z.add_0_r, take_nil, drop_nil, app_nil_r. done.
  - replace (Z.to_nat (52 + Z.of_nat (length w))) with (length (replicate 52 0 ++ w)) by (rewrite length_app, length_replicate; lia).
    rewrite take_ge, Nat.sub_diag, drop_ge by lia. rewrite app_nil_r. change (replicate 0 0 ++ bs) with bs. symmetry. apply app_assoc.
Qed.

Lemma header_written co w hdr : behind_header co w → length hdr = 52%nat → overwrite co 0 hdr = hdr ++ w.
Proof.
  intros Hco Hl. unfold overwrite. case_decide as Hn; [by subst |]. change (Z.to_nat 0) with 0%nat. rewrite Nat.sub_0_l, Hl, take_0.
  change (hdr ++ drop 52 co = hdr ++ w). f_equal. destruct Hco as [[-> ->]| ->]; [done |].
  rewrite drop_app_length'; [done |]. by rewrite length_replicate.
Qed.

Section loop.
Variables (fi ii fo io : Z) (ci : list Z) (nm : gmap (list Z) Z) (out : option (list Z)).
#[local] Abbreviation files := (files fi ii fo io ci nm).

(** The program's position: [w] written, the header laid out accordingly. *)
Definition at_work (h : Host) (w : list Z) (have : kind → list Z) (st : Z * NoffHeader) : Prop :=
  st.1 = 52 + Z.of_nat (length w) ∧ laid w have st.2 ∧
  ∃ pi co, files h pi co (52 + Z.of_nat (length w)) ∧ behind_header co w.

Lemma do_section_kind st sc k : s_size sc ≠ 0 → kind_of (s_name sc) = Some k → k ≠ Kbss →
  do_section out fi fo st sc =
    copy_section out fi fo st.1 sc (with_seg k st.2 (mkSegment (s_paddr sc) st.1 (s_size sc))).
Proof.
  intros Hz Hk Hb. unfold do_section, kind_of in *. destruct st as [n hd]. destruct (Z.eqb_spec (s_size sc) 0); [done |].
  repeat case_match; simplify_eq; done.
Qed.

Lemma do_section_bss n hd sc : s_size sc ≠ 0 → kind_of (s_name sc) = Some Kbss → size (uninitData hd) = 0 →
  do_section out fi fo (n, hd) sc =
    pret (n, with_seg Kbss hd (mkSegment (s_paddr sc) (inFileAddr (uninitData hd)) (s_size sc))).
Proof.
  intros Hz Hk Hu. unfold do_section, kind_of in *. destruct (Z.eqb_spec (s_size sc) 0); [done |]. rewrite Hu.
  repeat case_match; simplify_eq; done.
Qed.

Lemma do_section_ok h w have st sc k : at_work h w have st → sec_ok ci sc → s_size sc ≠ 0 → kind_of (s_name sc) = Some k →
  have k = [] → 52 + Z.of_nat (length w) + s_size sc < 2 ^ 31 →
  ∃ h' st', do_section out fi fo st sc h = Next st' h' ∧
    at_work h' (w ++ payload ci [sc]) (λ j, have j ++ part ci j [sc]) st'.
Proof.
  intros (Hn & Hl & pi & co & Hf & Hco) Hok Hz Hk Hh Hsm. pose proof (sec_bytes_length ci sc Hok) as Hlen.
  destruct Hok as (Hpa & Hs0 & Hkn). destruct Hkn as (k' & Hk' & Ht & Hin); [lia |]. assert (k' = k) as -> by congruence.
  assert (sec_bytes ci sc ≠ []) as Hne by (intros He; rewrite He in Hlen; cbn in Hlen; lia).
  assert (∀ j, part ci j [sc] = if decide (k = j) then sec_bytes ci sc else []) as Hpt.
  { intros j. unfold part. cbn. rewrite app_nil_r, Hk. destruct (decide (k = j)); [by rewrite decide_True by congruence | by rewrite decide_False by congruence]. }
  assert (payload ci [sc] = if decide (k = Kbss) then [] else sec_bytes ci sc) as Hpy.
  { unfold payload. cbn. rewrite app_nil_r, Hk. by destruct k. }
  assert (∀ s, size s = s_size sc → virtualAddr s = s_paddr sc → is_s32 (inFileAddr s) →
    (k ≠ Kbss → inFileAddr s = 52 + Z.of_nat (length w)) →
    laid (w ++ payload ci [sc]) (λ j, have j ++ part ci j [sc]) (with_seg k st.2 s)) as Hlaid.
  { intros s E1 E2 E3 E4. destruct (laid_section w have st.2 k s (sec_bytes ci sc) (payload ci [sc])) as [L1 L2 L3 L4 L5]; try done.
    - congruence. - by rewrite E2. - rewrite E1. unfold is_s32. lia. - intros Hkt. rewrite E2. by apply Ht.
    - constructor; try done; [intros j; rewrite Hpt; apply L3 | intros j; rewrite Hpt; apply L4 | rewrite Hpt; apply L5]. }
  destruct st as [n hd]. cbn [fst snd] in *. subst n. destruct (decide (k = Kbss)) as [->|Hkb].
  - rewrite (do_section_bss _ hd sc Hz Hk). 2: { pose proof (ld_size _ _ _ Hl Kbss) as Hu. cbn in Hu. rewrite Hu, Hh. done. }
    eexists _, _. split; [done |]. rewrite Hpy, app_nil_r in *. split; [done |]. split; [| by exists pi, co].
    apply Hlaid; try done. apply (words_seg Kbss hd), Hl.
  - rewrite (do_section_kind _ sc k) by done. destruct (Hin Hkb) as [Hp0 Hpl].
    unfold copy_section, pbind. destruct (seek_in _ _ _ _ _ _ h pi co _ _ Hf Hp0) as (h1 & -> & F1).
    destruct (coff_Read_ok _ _ _ _ _ _ out h1 _ co _ _ F1 Hp0 Hs0 Hpl) as (h2 & -> & F2).
    assert (bytes_at ci (s_scnptr sc) (s_size sc) = sec_bytes ci sc) as ->.
    { unfold sec_bytes. by rewrite decide_False by congruence. }
    destruct (coff_Write_ok _ _ _ _ _ _ out h2 _ co _ _ _ F2 Hlen) as (h3 & -> & F3).
    cbn [fst]. unfold of_result. rewrite int_add_in by (unfold is_s32; lia). unfold pret.
    eexists _, _. split; [done |]. unfold at_work. cbn [fst snd]. rewrite Hpy in *.
    assert (Z.of_nat (length (w ++ sec_bytes ci sc)) = Z.of_nat (length w) + s_size sc) as -> by (rewrite length_app; lia).
    split; [lia |]. split; [apply Hlaid; try done; cbn; unfold is_s32; lia |].
    exists (s_scnptr sc + s_size sc), (overwrite co (52 + Z.of_nat (length w)) (sec_bytes ci sc)).
    split; [by rewrite Z.add_assoc | by apply behind_written].
Qed.

Lemma at_work_ext h w w' (have have' : kind → list Z) st : w = w' → (∀ k, have k = have' k) → at_work h w have st → at_work h w' have' st.
Proof.
  intros <- He (Hn & [L1 L2 L3 L4 L5] & Hf). split; [done |]. split; [| done].
  constructor; try done; intros; rewrite <- ?He in *; auto.
Qed.

Lemma do_sections_ok scs : ∀ h w have st, at_work h w have st → Forall (sec_ok ci) scs → NoDup (used scs) →
  (∀ k, Some k ∈ used scs → have k = []) → 52 + Z.of_nat (length w) + all_sizes scs < 2 ^ 31 →
  ∃ h' st', do_sections out fi fo st scs h = Next st' h' ∧
    at_work h' (w ++ payload ci scs) (λ j, have j ++ part ci j scs) st'.
Proof.
  induction scs as [|sc scs IH]; intros h w have st Hat Hok Hnd Hh Hsm.
  { exists h, st. split; [done |]. revert Hat. apply at_work_ext; [by rewrite app_nil_r | intros k; by rewrite app_nil_r]. }
  apply Forall_cons in Hok as [Hsc Hok]. cbn [all_sizes foldr] in Hsm. change (foldr _ 0 scs) with (all_sizes scs) in Hsm.
  assert (0 <= all_sizes scs) as Hpos.
  { clear - Hok. induction Hok as [|x l (_ & H & _) _ IH]; cbn; [done |]. change (foldr _ 0 l) with (all_sizes l). lia. }
  assert (payload ci (sc :: scs) = payload ci [sc] ++ payload ci scs) as Hpay by (unfold payload; cbn; by rewrite app_nil_r).
  assert (∀ j, part ci j (sc :: scs) = part ci j [sc] ++ part ci j scs) as Hpart by (intros j; unfold part; cbn; by rewrite app_nil_r).
  unfold used in Hnd, Hh. rewrite filter_cons in Hnd, Hh. cbn [do_sections]. unfold pbind.
  destruct (decide (s_size sc ≠ 0)) as [Hz|Hz].
  - cbn in Hnd, Hh. apply NoDup_cons in Hnd as [Hni Hnd]. pose proof Hsc as (_ & Hs0 & Hk). destruct Hk as (k & Hk & _); [lia |].
    destruct (do_section_ok h w have st sc k Hat Hsc Hz Hk) as (h1 & st1 & -> & Hat1); [apply Hh; rewrite Hk; left | lia |].
    destruct (IH h1 _ _ st1 Hat1 Hok Hnd) as (h2 & st2 & -> & Hat2).
    + intros j Hj. rewrite (Hh j) by (by right). unfold part. cbn. rewrite app_nil_r, decide_False; [done |]. intros Hkj. by rewrite Hkj in Hni.
    + rewrite length_app. unfold payload at 1. cbn. rewrite app_nil_r. pose proof (sec_bytes_length ci sc Hsc) as Hl. rewrite Hk. destruct k; cbn [length]; lia.
    + exists h2, st2. split; [done |]. revert Hat2. apply at_work_ext; [by rewrite Hpay, app_assoc | intros j; by rewrite Hpart, app_assoc].
  - assert (s_size sc = 0) as H0 by (destruct (decide (s_size sc = 0)); [done | by destruct Hz]). clear Hz.
    assert (sec_bytes ci sc = []) as Hb by (apply length_zero_iff_nil; pose proof (sec_bytes_length ci sc Hsc); lia).
    unfold do_section. destruct st as [n hd]. rewrite H0. cbn [Z.eqb]. unfold pret.
    destruct (IH h w have (n, hd) Hat Hok Hnd Hh) as (h2 & st2 & -> & Hat2); [lia |].
    exists h2, st2. split; [done |]. revert Hat2. apply at_work_ext.
    + rewrite Hpay. unfold payload at 2. cbn. rewrite Hb, app_nil_r. destruct (kind_of _) as [[]|]; done.
    + intros j. rewrite Hpart. unfold part at 2. cbn. rewrite Hb. by case_decide.
Qed.
End loop.

(** ** The whole program *)

(** [c] is a COFF file with the section headers [scs]. *)
Record coff_file (c : list Z) (scs : list scnhdr) : Prop := {
  cf_bytes : Forall is_byte c;
  cf_magic : little_endian_to_Z 8 (bytes_at c 0 2) = MIPSELMAGIC;
  cf_nscns : little_endian_to_Z 8 (bytes_at c 2 2) = Z.of_nat (length scs);
  cf_omagic : little_endian_to_Z 8 (bytes_at c 20 2) = OMAGIC;
  cf_table : scs = (λ i, raw_scnhdr false (bytes_at c (76 + i * 40) 40)) <$> seqZ 0 (Z.of_nat (length scs));
  cf_long : 76 + Z.of_nat (length scs) * 40 <= Z.of_nat (length c) }.

Lemma bytes_at_bytes_at (f : list Z) p n q m : 0 <= p → 0 <= q → 0 <= m → q + m <= n → bytes_at (bytes_at f p n) q m = bytes_at f (p + q) m.
Proof.
  intros. unfold bytes_at. rewrite skipn_firstn_comm, take_take, drop_drop. f_equal; [lia |]. f_equal. lia.
Qed.

Lemma bytes_at_ok (f : list Z) p n : Forall is_byte f → Forall is_byte (bytes_at f p n).
Proof. intros. by apply Forall_take, Forall_drop. Qed.

Lemma half_at_ok be c p n q : Forall is_byte c → 0 <= p → 0 <= q → q + 2 <= n → p + q + 2 <= Z.of_nat (length c) →
  ShortToHost be (half_at be (bytes_at c p n) q) = little_endian_to_Z 8 (bytes_at c (p + q) 2).
Proof.
  intros Hb Hp Hq Hn Hl. unfold half_at. rewrite bytes_at_bytes_at by lia. apply load_short; [| by apply bytes_at_ok].
  pose proof (bytes_at_length c (p + q) 2). lia.
Qed.

Lemma long_at_ok be c p q : Forall is_byte c → 0 <= p → 0 <= q → q + 4 <= 40 → p + 40 <= Z.of_nat (length c) →
  swap be (long_at be (bytes_at c p 40) q) = long_at false (bytes_at c p 40) q.
Proof.
  intros Hb Hp Hq Hn Hl. unfold long_at. rewrite bytes_at_bytes_at by lia. apply swap_word; [| by apply bytes_at_ok].
  pose proof (bytes_at_length c (p + q) 4). lia.
Qed.

Section conversion.
Variables (fi ii fo io : Z) (ci : list Z) (nm : gmap (list Z) Z) (out : option (list Z)).

Lemma convert_ok be raw scs h : files fi ii fo io ci nm h 0 [] 0 → Forall is_s32 (noff_words raw) →
  coff_file ci scs → Forall (sec_ok ci) scs → NoDup (used scs) → 52 + all_sizes scs < 2 ^ 31 →
  ∃ h' hd, convert be out raw fi fo h = Exit 0 h' ∧ laid (payload ci scs) (λ k, part ci k scs) hd ∧
    inodes h' !! io = Some (noff_bytes false hd ++ payload ci scs) ∧ inodes h' !! ii = Some ci ∧ names h' = nm.
Proof.
  intros Hf Hraw [Cb Cm Cn Co Ct Cl] Hok Hnd Hsm. unfold convert, pbind.
  destruct (coff_Read_ok _ _ _ _ _ _ out h 0 [] 0 sizeof_filehdr Hf) as (h1 & -> & F1); [done | done | unfold sizeof_filehdr; lia |].
  unfold raw_filehdr. cbn [f_magic f_nscns]. unfold sizeof_filehdr in *.
  rewrite half_at_ok by (done || lia). rewrite (half_at_ok _ _ _ _ 2) by (done || lia). rewrite !Z.add_0_l, Cm, Cn. rewrite Z.eqb_refl. cbn [negb].
  destruct (coff_Read_ok _ _ _ _ _ _ out h1 _ [] 0 sizeof_aouthdr F1) as (h2 & -> & F2); [done | done | unfold sizeof_aouthdr; lia |].
  unfold raw_aout_magic, sizeof_aouthdr in *. rewrite half_at_ok by (done || lia). rewrite Z.add_0_l, Z.add_0_r, Co. rewrite Z.eqb_refl. cbn [negb].
  set (n := Z.of_nat (length scs)) in *.
  destruct (coff_Read_ok _ _ _ _ _ _ out h2 _ [] 0 (n * sizeof_scnhdr) F2) as (h3 & -> & F3); [done | unfold sizeof_scnhdr; lia | unfold sizeof_scnhdr; lia |].
  destruct (seek_out _ _ _ _ _ _ h3 _ [] 0 sizeof_NoffHeader F3) as (h4 & -> & F4); [done |].
  match goal with |- context [do_sections _ _ _ _ ?l] => assert (l = scs) as -> end.
  { transitivity ((λ i : Z, raw_scnhdr false (bytes_at ci (76 + i * 40) 40)) <$> seqZ 0 n); [| symmetry; exact Ct]. apply list_fmap_ext. intros i x Hx. apply lookup_seqZ in Hx as [-> Hi]. unfold sizeof_scnhdr.
    rewrite bytes_at_bytes_at by lia. unfold swap_scnhdr, raw_scnhdr. cbn [s_name s_paddr s_size s_scnptr].
    replace (0 + 20 + 56) with 76 by lia. by rewrite !long_at_ok by (done || lia). }
  destruct (do_sections_ok fi ii fo io ci nm out scs h4 [] (λ _, []) (sizeof_NoffHeader, start_header raw)) as (h5 & st & -> & Hn & Hl & pi & co & F5 & Hco); try done.
  - split; [done |]. split; [| exists (0 + 20 + 56 + n * sizeof_scnhdr), []; split; [exact F4 | by left]]. constructor; try done.
    + unfold noff_words in *. cbn in *. rewrite ?Forall_cons in *. destruct Hraw as (?&?&?&?&?&?&?&?&?&?&?&?&?&?). split_and!; done.
    + by intros [].
  - destruct (seek_out _ _ _ _ _ _ h5 pi co _ 0 F5) as (h6 & -> & F6); [done |]. cbn [app] in *.
    rewrite noff_bytes_swapped.
    destruct (coff_Write_ok _ _ _ _ _ _ out h6 pi co 0 (noff_bytes false st.2) sizeof_NoffHeader F6) as (h7 & -> & F7); [by rewrite noff_bytes_length |].
    rewrite (header_written co (payload ci scs)) in F7 by (done || by rewrite noff_bytes_length). destruct F7 as [G1 G2 G3 G4 G5 G6 G7].
    unfold sys_close, exit. eexists _, st.2. split; [done |]. by split.
Qed.
End conversion.

Lemma files_opened h input output ii c : host_ok h → names h !! input = Some ii → inodes h !! ii = Some c → names h !! output ≠ Some ii →
  ∃ fi fo io h' h'', sys_open input h = Next fi h' ∧ fi ≠ -1 ∧ sys_creat (Some output) h' = Next fo h'' ∧
    files fi ii fo io c (<[output := io]> (names h)) h'' 0 [] 0.
Proof.
  intros Hok Hi Hc Ho. unfold sys_open, host_open. rewrite Hi. destruct (lowest_fd_spec (fds h)) as [Hfree Hfd].
  set (fi := lowest_fd (fds h)) in *. set (h1 := with_fds h (<[fi := (ii, 0)]> (fds h))).
  assert (host_ok h1) as Hok1.
  { destruct Hok as (K1 & K2 & K3). split; [| done]. apply map_Forall_insert_2; [| exact K1]. cbn. by rewrite Hc. }
  destruct (host_creat_spec h1 output Hok1) as (io & Heq & Hio).
  destruct (lowest_fd_spec (fds h1)) as [Hfree1 _]. set (fo := lowest_fd (fds h1)) in *.
  assert (fi ≠ fo) as Hne. { intros Hx. rewrite <- Hx in Hfree1. cbn in Hfree1. by rewrite lookup_insert_eq in Hfree1. }
  assert (ii ≠ io) as Hnio.
  { intros <-. destruct Hio as [Hio|[_ Hio]]; [done |]. destruct Hok as (_ & _ & K3). pose proof (K3 _ _ Hc) as Hlt. cbn in Hlt, Hio. lia. }
  exists fi, fo, io, h1. eexists. split; [done |]. split; [lia |]. split; [unfold sys_creat; by rewrite Heq |].
  constructor; cbn; try done; rewrite ?lookup_insert_eq, ?lookup_insert_ne by done; try done. by rewrite lookup_insert_eq.
Qed.

Lemma parts_size c scs : Forall (sec_ok c) scs →
  Z.of_nat (length (part c Ktext scs)) + Z.of_nat (length (part c Kdata scs)) + Z.of_nat (length (part c Krdata scs)) +
  Z.of_nat (length (part c Kbss scs)) = all_sizes scs.
Proof.
  induction 1 as [|sc scs Hsc _ IH]; [done |]. rewrite !part_cons, !length_app. cbn [all_sizes foldr]. change (foldr _ 0 scs) with (all_sizes scs).
  pose proof (sec_bytes_length c sc Hsc) as Hl. destruct Hsc as (_ & H0 & Hk). destruct (decide (s_size sc = 0)) as [Hz|Hz].
  - assert (sec_bytes c sc = []) as -> by (apply length_zero_iff_nil; lia). repeat (destruct (decide _)); cbn [length]; lia.
  - destruct Hk as (k & -> & _); [lia |]. destruct k; repeat (destruct (decide _); try done); cbn [length]; lia.
Qed.

(** The file that comes out, as the loader sees it. *)
Lemma noff_file c scs hd : Forall is_byte c → Forall (sec_ok c) scs → laid (payload c scs) (λ k, part c k scs) hd →
  part c Ktext scs ≠ [] → 52 + all_sizes scs < 2 ^ 31 →
  let exe := mkView (noff_bytes false hd ++ payload c scs) 0 0 in
  exe_file exe hd ∧ exe_ok exe hd ∧ image exe hd = part c Ktext scs ++ part c Kdata scs ++ part c Krdata scs ∧
  total_size hd = all_sizes scs + UserStackSize.
Proof.
  intros Hb Hok [L1 L2 L3 L4 L5] Ht Hsm exe. pose proof (parts_size c scs Hok) as Hp.
  assert (Forall is_byte (payload c scs)) as Hby.
  { unfold payload. apply Forall_forall. intros x (sc & Hx & Hsc)%list_elem_of_bind. rewrite Forall_forall in Hb.
    destruct (kind_of (s_name sc)) as [[]|] eqn:Hk; try (by apply elem_of_nil in Hx); unfold sec_bytes in Hx;
      rewrite decide_False in Hx by congruence; apply Hb; unfold bytes_at in Hx; apply (elem_of_take x) in Hx as (i & Hx & _);
      rewrite lookup_drop in Hx; by eapply list_elem_of_lookup_2. }
  assert (Z.of_nat (length (payload c scs)) <= all_sizes scs) as Hpl.
  { clear - Hok. induction Hok as [|sc scs Hsc _ IH]; [done |]. unfold payload in *. rewrite bind_cons, length_app. cbn [all_sizes foldr].
    change (foldr _ 0 scs) with (all_sizes scs). pose proof (sec_bytes_length c sc Hsc). destruct (kind_of _) as [[]|]; cbn [length]; lia. }
  pose proof (noff_bytes_length false hd) as Hl.
  assert (∀ k, k ≠ Kbss → seg_ok exe (seg k hd) ∧ seg_bytes exe (seg k hd) = part c k scs) as Hseg.
  { intros k Hk. unfold seg_ok, seg_bytes. rewrite L3. destruct (decide (part c k scs = [])) as [He|Hne].
    - rewrite He. cbn [length]. split; [lia |]. unfold bytes_at. by rewrite take_0.
    - destruct (L4 k Hk Hne) as [Hp1 Hp2]. pose proof (f_equal length Hp2) as Hlen. unfold bytes_at in Hlen. rewrite length_take, length_drop in Hlen.
      assert (length (part c k scs) ≠ 0)%nat by by destruct (part c k scs). cbn [contents exe]. rewrite length_app, Hl.
      split; [split_and!; intros; lia |]. rewrite <- Hp2 at 2. unfold bytes_at. f_equal.
      rewrite drop_app_ge by lia. f_equal. lia. }
  assert (Hsz := L3). pose proof (L3 Ktext) as S1. pose proof (L3 Kdata) as S2. pose proof (L3 Krdata) as S3. pose proof (L3 Kbss) as S4.
  cbn [seg] in S1, S2, S3, S4.
  assert (length (part c Ktext scs) ≠ 0)%nat by by destruct (part c Ktext scs).
  split; [| split; [| split]].
  - split; [| split; [| split; [| done]]].
    + apply Forall_app. split; [apply noff_bytes_ok | done].
    + cbn [contents exe]. rewrite length_app, Hl. lia.
    + cbn [contents exe]. assert (bytes_at (noff_bytes false hd ++ payload c scs) 0 52 = noff_bytes false hd) as ->; [| by apply read_noff_bytes].
      unfold bytes_at. change (Z.to_nat 0) with 0%nat. rewrite drop_0. apply take_app_length'. by rewrite Hl.
  - split; [by apply L5 |]. split; [lia |]. split; [by apply (Hseg Ktext) |]. split; [by apply (Hseg Kdata) |].
    split; [by apply (Hseg Krdata) |]. split; [lia |]. cbn [contents exe]. rewrite length_app, Hl. lia.
  - unfold image. rewrite (proj2 (Hseg Ktext ltac:(done)) : seg_bytes exe (code hd) = _), (proj2 (Hseg Kdata ltac:(done)) : seg_bytes exe (initData hd) = _).
    by rewrite (proj2 (Hseg Krdata ltac:(done)) : seg_bytes exe (readonlyData hd) = _).
  - unfold total_size. lia.
Qed.

(** C15: from the linker to memory.  For a COFF file with an [.text] section for
    address 0, at most one non-empty section per segment and section contents
    that lie in the file, the converter ends with status 0 and leaves the input
    as it was; and the kernel's [Load], given the file it wrote and enough free
    frames, succeeds and shows the program the contents of its sections, code,
    data and read-only data one behind the other, and zeros from there on. *)
Theorem coff2noff_loads `{BitmapLaws B} be be' raw prog input output h ii c scs new_table k a stack s
    (Hhost : host_ok h) (Hin : names h !! input = Some ii) (Hc : inodes h !! ii = Some c) (Hout : names h !! output ≠ Some ii)
    (Hraw : Forall is_s32 (noff_words raw)) (Hcoff : coff_file c scs) (Hok : Forall (sec_ok c) scs) (Hone : NoDup (used scs))
    (Htext : part c Ktext scs ≠ []) (Hsmall : all_sizes scs + UserStackSize < 2 ^ 31)
    (Htab : ∀ n, 0 <= n → Z.of_nat (length (new_table n)) = n)
    (Hbm : bm_repr (gPhysPageBitMap k) FrameBits s)
    (Hmem : Z.of_nat (length (mainMemory (machine k))) = MemorySize)
    (Hstack : length stack = 52%nat) (Hlock : 0 < addrLock k) :
  let np := divRoundUp (all_sizes scs + UserStackSize) PageSize in
  np <= NumPhysPages - Z.of_nat (base.size s) →
  ∃ h' io f bm pt mem, coff2noff be raw [prog; input; output] h = Exit 0 h' ∧
    inodes h' !! ii = Some c ∧ names h' !! output = Some io ∧ inodes h' !! io = Some f ∧
    Load be' new_table k a (Some (mkView f 0 0)) stack =
      Ok (true, mkKernel (with_memory (machine k) mem) bm (addrLock k), mkAddrSpace (Some pt) np) ∧
    ∀ v, 0 <= v < np * PageSize → byte_at (with_memory (machine k) mem) pt v =
      Some (default 0 ((part c Ktext scs ++ part c Kdata scs ++ part c Krdata scs) !! Z.to_nat v)).
Proof.
  intros np Hfit. unfold coff2noff, pbind.
  destruct (files_opened h input output ii c) as (fi & fo & io & h1 & h2 & -> & Hfi & Hcr & Hf); try done.
  apply Z.eqb_neq in Hfi. rewrite Hfi. cbn [head]. rewrite Hcr.
  destruct (convert_ok fi ii fo io c _ (Some output) be raw scs h2 Hf) as (h' & hd & -> & Hl & Hio & Hii & Hn); try done.
  { unfold UserStackSize in *. lia. }
  destruct (noff_file c scs hd) as (Hfile & Hexe & Himg & Htot); try done; [apply Hcoff | unfold UserStackSize in *; lia |].
  assert (0 <= all_sizes scs) by (rewrite <- (parts_size c scs Hok); lia).
  assert (num_pages hd = np) as Hnp by (unfold num_pages; rewrite Htot, u32_id; [done | unfold is_u32, UserStackSize in *; lia]).
  destruct (Load_places be' new_table k a (mkView (noff_bytes false hd ++ payload c scs) 0 0) stack hd s) as (bm & pt & mem & HL & _ & _ & _ & _ & _ & Hv & _);
    try done; [by rewrite Htot | by rewrite Hnp |].
  rewrite Hnp, ?Himg in *. exists h', io. eexists _, bm, pt, mem. split; [done |]. split; [done |]. split; [by rewrite Hn, lookup_insert_eq |].
  split; [done |]. split; [exact HL |]. intros v Hv'. rewrite (Hv v Hv'). done.
Qed.

(** A file with eight bytes of code, four of data and eight that are not initialised. *)
Definition demo_section (name : list Z) (paddr sz ptr : Z) : list Z :=
  take 8 (name ++ replicate 8 0) ++ (([paddr; paddr; sz; ptr] ≫= λ w, Z_to_little_endian 4 8 w) ++ replicate 16 0).
Definition demo_coff : list Z :=
  [98; 1; 3; 0] ++ replicate 16 0 ++ [7; 1] ++ replicate 54 0 ++
  demo_section dot_text 0 8 196 ++ demo_section dot_data 8 4 204 ++ demo_section dot_bss 12 8 0 ++
  [11; 12; 13; 14; 15; 16; 17; 18; 21; 22; 23; 24].
Definition demo_sections : list scnhdr :=
  (λ i, raw_scnhdr false (bytes_at demo_coff (76 + i * 40) 40)) <$> seqZ 0 3.
Definition demo_coff_host : Host := mkHost {[0 := demo_coff]} {[ [97] := 0 ]} ∅ 1.

Lemma demo_coff_file : coff_file demo_coff demo_sections.
Proof.
  constructor; [| reflexivity.. | vm_compute; discriminate].
  apply (Forall_iff (λ b, bool_decide (0 ≤ b < 256))); [intros b; unfold is_byte; by rewrite bool_decide_spec |].
  apply (proj1 (forallb_True _ _)). vm_compute. exact I.
Qed.

Lemma demo_sections_ok : Forall (sec_ok demo_coff) demo_sections.
Proof.
  repeat constructor; try (vm_compute; discriminate).
  all: intros _; eexists; (split; [reflexivity |]); split; try done; intros _; vm_compute; split; discriminate.
Qed.

Lemma coff2noff_loads_witness : ∃ h' io f bm pt mem,
  coff2noff true demo_header [[]; [97]; [110]] demo_coff_host = Exit 0 h' ∧ inodes h' !! io = Some f ∧
  Load false demo_table demo_kernel AddrSpace_new (Some (mkView f 0 0)) (replicate 52 9) =
    Ok (true, mkKernel (with_memory (machine demo_kernel) mem) bm 1, mkAddrSpace (Some pt) 5) ∧
  byte_at (with_memory (machine demo_kernel) mem) pt 9 = Some 22 ∧ byte_at (with_memory (machine demo_kernel) mem) pt 13 = Some 0.
Proof.
  destruct (coff2noff_loads true false demo_header [] [97] [110] demo_coff_host 0 demo_coff demo_sections demo_table demo_kernel AddrSpace_new (replicate 52 9) ∅)
    as (h' & io & f & bm & pt & mem & Hr & _ & _ & Hf & HL & Hv).
  - split; [| split]; cbn.
    + apply map_Forall_empty.
    + apply map_Forall_singleton. cbn. by rewrite lookup_singleton_eq.
    + by apply map_Forall_singleton.
  - reflexivity.
  - reflexivity.
  - cbn. by rewrite lookup_singleton_ne.
  - unfold noff_words. cbn. repeat constructor; vm_compute; discriminate.
  - exact demo_coff_file.
  - exact demo_sections_ok.
  - apply (bool_decide_eq_true_1 _). vm_compute. reflexivity.
  - vm_compute. discriminate.
  - vm_compute. reflexivity.
  - intros n Hn. unfold demo_table. rewrite length_replicate. lia.
  - exact demo_frames_empty.
  - vm_compute. reflexivity.
  - reflexivity.
  - reflexivity.
  - rewrite size_empty. vm_compute. discriminate.
  - exists h', io, f, bm, pt, mem. split; [exact Hr |]. split; [exact Hf |]. split; [exact HL |].
    split; [rewrite (Hv 9) by (vm_compute; split; congruence) | rewrite (Hv 13) by (vm_compute; split; congruence)]; vm_compute; reflexivity.
Defined.
