(* ===== verification/Lists.v ===== *)
(** * Linked lists (lib/list.h, lib/list.cc)

    [List] and [SortedList] at the level of the pointers: a heap of
    [ListElement]s, a record of the [first] and [last] pointers and the count.
    The theorems say that they implement finite sequences; the other
    components use lists through those sequences. *)

From S2P Require Import Prelude.
From Stdlib Require Import Sorting.Sorted.
Local Open Scope Z_scope.

Section lists.
Context {T : Type} `{EqDecision T}.

(** ** The implementation *)

(** Pointers are addresses, [None] is NULL; [lastp] is the member [last]. *)
Record ListElement := mkElem { next : option Z; item : T }.
#[local] Abbreviation heap := (gmap Z ListElement).
Record List := mkList { first : option Z; lastp : option Z; numInList : Z }.

Definition deref (h : heap) (p : option Z) : result (Z * ListElement) :=
  match p with
  | None => Fail NullDeref
  | Some a => match h !! a with Some e => Ok (a, e) | None => Fail Undefined end
  end.

(** [new ListElement<T>(itm)] *)
Definition ListElement_new (h : heap) (itm : T) : Z * heap :=
  let a := fresh (dom h) in (a, <[a := mkElem None itm]> h).

Definition set_next (h : heap) (p q : option Z) : result heap :=
  '(a, e) ← deref h p; Ok (<[a := mkElem q (item e)]> h).

(** More steps than any acyclic chain of the heap has. *)
Definition fuel (h : heap) : nat := S (size h).

Definition List_new : List := mkList None None 0.
Definition NumInList (l : List) : Z := numInList l.
Definition IsEmpty (l : List) : bool := numInList l =? 0.
Definition Front (h : heap) (l : List) : result T := '(_, e) ← deref h (first l); Ok (item e).

Fixpoint find_item (n : nat) (h : heap) (p : option Z) (x : T) : result bool :=
  match p with
  | None => Ok false
  | Some _ =>
      match n with
      | O => Fail OutOfFuel
      | S n =>
          '(_, e) ← deref h p;
          if decide (x = item e) then Ok true else find_item n h (next e) x
      end
  end.
Definition IsInList (h : heap) (l : List) (x : T) : result bool := find_item (fuel h) h (first l) x.

Definition Append (h : heap) (l : List) (x : T) : result (heap * List) :=
  let '(element, h) := ListElement_new h x in
  b ← IsInList h l x;
  ASSERT (negb b);;
  '(h, l) ←
    (if IsEmpty l then Ok (h, mkList (Some element) (Some element) (numInList l))
     else h ← set_next h (lastp l) (Some element); Ok (h, mkList (first l) (Some element) (numInList l)));
  let l := mkList (first l) (lastp l) (numInList l + 1) in
  b ← IsInList h l x;
  ASSERT b;;
  Ok (h, l).

Definition Prepend (h : heap) (l : List) (x : T) : result (heap * List) :=
  let '(element, h) := ListElement_new h x in
  b ← IsInList h l x;
  ASSERT (negb b);;
  '(h, l) ←
    (if IsEmpty l then Ok (h, mkList (Some element) (Some element) (numInList l))
     else h ← set_next h (Some element) (first l); Ok (h, mkList (Some element) (lastp l) (numInList l)));
  let l := mkList (first l) (lastp l) (numInList l + 1) in
  b ← IsInList h l x;
  ASSERT b;;
  Ok (h, l).

Definition RemoveFront (h : heap) (l : List) : result (T * heap * List) :=
  ASSERT (negb (IsEmpty l));;
  '(a, e) ← deref h (first l);
  let '(f, la) := if decide (first l = lastp l) then (None, None) else (next e, lastp l) in
  Ok (item e, delete a h, mkList f la (numInList l - 1)).

(** The loop of [Remove]: [inl] when it runs off the end. *)
Fixpoint unlink (n : nat) (h : heap) (l : List) (prev ptr : option Z) (x : T) :
    result (unit + heap * List) :=
  match ptr with
  | None => Ok (inl tt)
  | Some _ =>
      match n with
      | O => Fail OutOfFuel
      | S n =>
          '(a, e) ← deref h ptr;
          if decide (x = item e) then
            h ← set_next h prev (next e);
            let la := match next e with None => prev | Some _ => lastp l end in
            Ok (inr (delete a h, mkList (first l) la (numInList l - 1)))
          else unlink n h l ptr (next e) x
      end
  end.

Definition Remove (h : heap) (l : List) (x : T) : result (heap * List) :=
  b ← IsInList h l x;
  ASSERT b;;
  f ← Front h l;
  '(h, l) ←
    (if decide (x = f) then
       '(removed, h, l) ← RemoveFront h l;
       ASSERT (bool_decide (x = removed));;
       Ok (h, l)
     else
       '(_, e) ← deref h (first l);
       r ← unlink (fuel h) h l (first l) (next e) x;
       match r with inl _ => Fail AssertFailed | inr hl => Ok hl end);
  b ← IsInList h l x;
  ASSERT (negb b);;
  Ok (h, l).

(** [Apply]: [func] acts on a state of type [S]. *)
Fixpoint apply_from {S} (n : nat) (h : heap) (p : option Z) (func : S → T → result S) (s : S) : result S :=
  match p with
  | None => Ok s
  | Some _ =>
      match n with
      | O => Fail OutOfFuel
      | Datatypes.S n =>
          '(_, e) ← deref h p;
          s ← func s (item e);
          apply_from n h (next e) func s
      end
  end.
Definition Apply {S} (h : heap) (l : List) (func : S → T → result S) (s : S) : result S :=
  apply_from (fuel h) h (first l) func s.

Fixpoint count_to_last (n : nat) (h : heap) (l : List) (ptr : option Z) (numFound : Z) : result Z :=
  if decide (ptr = lastp l) then Ok numFound
  else
    match n with
    | O => Fail OutOfFuel
    | S n =>
        ASSERT (numFound + 1 <=? numInList l);;
        '(_, e) ← deref h ptr;
        count_to_last n h l (next e) (numFound + 1)
    end.

Definition SanityCheck (h : heap) (l : List) : result unit :=
  if decide (first l = None) then
    ASSERT ((numInList l =? 0) && bool_decide (lastp l = None))
  else if decide (first l = lastp l) then
    '(_, e) ← deref h (lastp l);
    ASSERT ((numInList l =? 1) && bool_decide (next e = None))
  else
    n ← count_to_last (fuel h) h l (first l) 1;
    ASSERT (n =? numInList l);;
    '(_, e) ← deref h (lastp l);
    ASSERT (bool_decide (next e = None)).

(** [SortedList] *)
Section sorted.
Variable compare : T → T → Z.

(** The loop of [Insert]: [inl] when it reaches the last element. *)
Fixpoint insert_after (n : nat) (h : heap) (element ptr : option Z) (x : T) : result (unit + heap) :=
  match n with
  | O => Fail OutOfFuel
  | S n =>
      '(_, e) ← deref h ptr;
      match next e with
      | None => Ok (inl tt)
      | Some _ =>
          '(_, e') ← deref h (next e);
          if compare x (item e') <? 0 then
            h ← set_next h element (next e);
            h ← set_next h ptr element;
            Ok (inr h)
          else insert_after n h element (next e) x
      end
  end.

(** A splice in the middle returns without the final assertion. *)
Definition Insert (h : heap) (l : List) (x : T) : result (heap * List) :=
  let '(element, h) := ListElement_new h x in
  let finish h l :=
    let l := mkList (first l) (lastp l) (numInList l + 1) in
    b ← IsInList h l x; ASSERT b;; Ok (h, l) in
  b ← IsInList h l x;
  ASSERT (negb b);;
  if IsEmpty l then finish h (mkList (Some element) (Some element) (numInList l))
  else
    f ← Front h l;
    if compare x f <? 0 then
      h ← set_next h (Some element) (first l);
      finish h (mkList (Some element) (lastp l) (numInList l))
    else
      r ← insert_after (fuel h) h (Some element) (first l) x;
      match r with
      | inr h => Ok (h, mkList (first l) (lastp l) (numInList l + 1))
      | inl _ =>
          h ← set_next h (lastp l) (Some element);
          finish h (mkList (first l) (Some element) (numInList l))
      end.

Fixpoint check_order (n : nat) (h : heap) (prev : T) (ptr : option Z) : result unit :=
  match ptr with
  | None => Ok tt
  | Some _ =>
      match n with
      | O => Fail OutOfFuel
      | S n =>
          '(_, e) ← deref h ptr;
          ASSERT (compare prev (item e) <=? 0);;
          check_order n h (item e) (next e)
      end
  end.

Definition Sorted_SanityCheck (h : heap) (l : List) : result unit :=
  SanityCheck h l;;
  if decide (first l ≠ lastp l) then
    '(_, e) ← deref h (first l);
    check_order (fuel h) h (item e) (next e)
  else Ok tt.
End sorted.

(** [ListIterator]: the [current] pointer. *)
Definition ListIterator_new (l : List) : option Z := first l.
Definition IsDone (current : option Z) : bool := match current with None => true | Some _ => false end.
Definition Item (h : heap) (current : option Z) : result T :=
  ASSERT (negb (IsDone current));; '(_, e) ← deref h current; Ok (item e).
Definition Next (h : heap) (current : option Z) : result (option Z) :=
  '(_, e) ← deref h current; Ok (next e).

(** The loop every client writes: [for (; !it->IsDone (); it->Next ())] with
    [it->Item ()] in its body. *)
Fixpoint iterate (n : nat) (h : heap) (current : option Z) : result (list T) :=
  if IsDone current then Ok []
  else
    match n with
    | O => Fail OutOfFuel
    | S n =>
        x ← Item h current;
        current ← Next h current;
        xs ← iterate n h current;
        Ok (x :: xs)
    end.

(** [SelfTest] of the two classes, on the array [p]. *)
Definition SelfTest (h : heap) (l : List) (p : list T) (numEntries : Z) : result (heap * List) :=
  SanityCheck h l;;
  ASSERT (IsEmpty l && bool_decide (first l = None));;
  ASSERT (IsDone (ListIterator_new l));;
  '(h, l) ← for_each 0 numEntries (λ i '(h, l),
      x ← aget p i;
      '(h, l) ← Append h l x;
      b ← IsInList h l x;
      ASSERT b;;
      ASSERT (negb (IsEmpty l));;
      Ok (h, l)) (h, l);
  SanityCheck h l;;
  '(h, l) ← for_each 0 numEntries (λ i '(h, l),
      x ← aget p i;
      '(h, l) ← Remove h l x;
      b ← IsInList h l x;
      ASSERT (negb b);;
      Ok (h, l)) (h, l);
  ASSERT (IsEmpty l);;
  SanityCheck h l;;
  Ok (h, l).

Definition Sorted_SelfTest (compare : T → T → Z) (h : heap) (l : List) (p q : list T) (numEntries : Z) :
    result (heap * List) :=
  '(h, l) ← SelfTest h l p numEntries;
  '(h, l) ← for_each 0 numEntries (λ i '(h, l),
      x ← aget p i;
      '(h, l) ← Insert compare h l x;
      b ← IsInList h l x;
      ASSERT b;;
      Ok (h, l)) (h, l);
  Sorted_SanityCheck compare h l;;
  '(q, h, l) ← for_each 0 numEntries (λ i '(q, h, l),
      '(x, h, l) ← RemoveFront h l;
      q ← aset q i x;
      b ← IsInList h l x;
      ASSERT (negb b);;
      Ok (q, h, l)) (q, h, l);
  ASSERT (IsEmpty l);;
  for_each 0 (numEntries - 1) (λ i _,
      x ← aget q i;
      y ← aget q (i + 1);
      ASSERT (compare x y <=? 0)) tt;;
  Sorted_SanityCheck compare h l;;
  Ok (h, l).

(** ** Chains *)

(** [seg h ls xs q]: the elements at [ls] hold [xs] and lead to [q]. *)
Fixpoint seg (h : heap) (ls : list Z) (xs : list T) (q : option Z) : Prop :=
  match ls, xs with
  | [], [] => True
  | a :: ls, x :: xs =>
      h !! a = Some (mkElem (match ls with [] => q | b :: _ => Some b end) x) ∧ seg h ls xs q
  | _, _ => False
  end.

(** [repr h l ls xs]: [l] is the sequence [xs], stored at [ls]. *)
Definition repr (h : heap) (l : List) (ls : list Z) (xs : list T) : Prop :=
  NoDup ls ∧ seg h ls xs None ∧ first l = head ls ∧ lastp l = list.last ls ∧
  numInList l = Z.of_nat (length xs) ∧ NoDup xs.

(** What is outside the list's own elements stays as it was, and what joins
    the list was free before. *)
Definition framed (h h' : heap) (ls ls' : list Z) : Prop :=
  (∀ a, (a ∉ ls) → (a ∉ ls') → h' !! a = h !! a) ∧
  (∀ a, a ∈ ls' → (a ∉ ls) → h !! a = None).

Lemma seg_length h ls xs q : seg h ls xs q → length ls = length xs.
Proof.
  revert xs. induction ls as [|a ls IH]; intros [|x xs]; cbn; try done.
  intros [_ Hs]. f_equal. by apply IH.
Qed.

Lemma seg_ext h h' ls xs q : (∀ a, a ∈ ls → h' !! a = h !! a) → seg h ls xs q → seg h' ls xs q.
Proof.
  revert xs. induction ls as [|a ls IH]; intros [|x xs] Heq; cbn; try done.
  intros [Ha Hs]. split; [rewrite Heq; [done | by left] |].
  apply IH; [| done]. intros. apply Heq. by right.
Qed.

Lemma seg_insert h ls xs q a e : (a ∉ ls) → seg h ls xs q → seg (<[a := e]> h) ls xs q.
Proof. intros Ha. apply seg_ext. intros b Hb. rewrite lookup_insert_ne; [done |]. by intros ->. Qed.

Lemma seg_delete h ls xs q a : (a ∉ ls) → seg h ls xs q → seg (delete a h) ls xs q.
Proof. intros Ha. apply seg_ext. intros b Hb. rewrite lookup_delete_ne; [done |]. by intros ->. Qed.

Lemma seg_app h ls1 ls2 xs1 xs2 q : length ls1 = length xs1 →
  seg h (ls1 ++ ls2) (xs1 ++ xs2) q ↔
  seg h ls1 xs1 (match ls2 with [] => q | b :: _ => Some b end) ∧ seg h ls2 xs2 q.
Proof.
  revert xs1. induction ls1 as [|a ls1 IH]; intros [|x xs1]; cbn; try done; [tauto |].
  intros [= Hl]. rewrite IH by done. destruct ls1; cbn; tauto.
Qed.

Lemma seg_lookup h ls xs q a : seg h ls xs q → a ∈ ls → is_Some (h !! a).
Proof.
  revert xs. induction ls as [|b ls IH]; intros [|x xs]; cbn; try done.
  - intros _ Ha. by apply elem_of_nil in Ha.
  - intros [Hb Hs] [->|Ha]%elem_of_cons; [by eexists | by eapply IH].
Qed.

Lemma seg_fuel h ls xs q : NoDup ls → seg h ls xs q → (length ls < fuel h)%nat.
Proof.
  intros Hn Hs. unfold fuel. apply Nat.lt_succ_r.
  rewrite <- size_dom. rewrite <- (size_list_to_set (C := gset Z)) by done.
  apply subseteq_size. intros a Ha%elem_of_list_to_set. apply elem_of_dom. by eapply seg_lookup.
Qed.

Lemma find_item_spec n h ls xs x : seg h ls xs None → (length ls < n)%nat →
  find_item n h (head ls) x = Ok (bool_decide (x ∈ xs)).
Proof.
  revert n xs. induction ls as [|a ls IH]; intros n xs Hs Hn; (destruct n as [|n]; [lia |]).
  - destruct xs as [|y xs]; [| by destruct Hs]. cbn.
    by rewrite bool_decide_eq_false_2 by apply not_elem_of_nil.
  - destruct xs as [|y xs]; [by destruct Hs |]. destruct Hs as [Ha Hs]. cbn. rewrite Ha. cbn.
    case_decide as Hx.
    + rewrite bool_decide_eq_true_2; [done |]. rewrite Hx. by left.
    + replace (match ls with [] => None | b :: _ => Some b end) with (head ls) by (by destruct ls).
      rewrite (IH n xs) by (done || (cbn in Hn; lia)). f_equal. apply bool_decide_ext.
      rewrite elem_of_cons. naive_solver.
Qed.

Lemma IsInList_spec h l ls xs x : NoDup ls → seg h ls xs None → first l = head ls →
  IsInList h l x = Ok (bool_decide (x ∈ xs)).
Proof.
  intros Hn Hs Hf. unfold IsInList. rewrite Hf. apply find_item_spec; [done |]. by eapply seg_fuel.
Qed.

(** ** Each operation implements its sequence counterpart *)

Lemma alloc_fresh h ls xs q : seg h ls xs q → h !! fresh (dom h) = None ∧ (fresh (dom h) ∉ ls).
Proof.
  intros Hs. assert (h !! fresh (dom h) = None) as Hn by (apply not_elem_of_dom, is_fresh).
  split; [done |]. intros Ha. apply (seg_lookup _ _ _ _ _ Hs) in Ha as [e He]. congruence.
Qed.

Lemma repr_empty h : repr h List_new [] [].
Proof. split_and!; try done; by apply NoDup_nil. Qed.

Lemma repr_IsInList h l ls xs x : repr h l ls xs → IsInList h l x = Ok (bool_decide (x ∈ xs)).
Proof. intros (Hn & Hs & Hf & _). by eapply IsInList_spec. Qed.

Lemma repr_IsEmpty h l ls xs : repr h l ls xs → IsEmpty l = bool_decide (xs = []).
Proof.
  intros (_ & _ & _ & _ & Hc & _). unfold IsEmpty. rewrite Hc. by destruct xs.
Qed.

Lemma repr_Front h l ls x xs : repr h l ls (x :: xs) → Front h l = Ok x.
Proof.
  intros (_ & Hs & Hf & _). unfold Front. destruct ls as [|a ls]; [done |]. rewrite Hf.
  cbn in *. by rewrite (proj1 Hs).
Qed.

Lemma last_snoc_cases {A} (l : list A) : l = [] ∨ ∃ l' x, l = l' ++ [x].
Proof. destruct l as [|x l _] using rev_ind; [by left | right; by eexists _, _]. Qed.

Lemma Append_spec h l ls xs x : repr h l ls xs →
  if decide (x ∈ xs) then Append h l x = Fail AssertFailed
  else ∃ h' l' a, Append h l x = Ok (h', l') ∧ repr h' l' (ls ++ [a]) (xs ++ [x]) ∧
    framed h h' ls (ls ++ [a]).
Proof.
  intros Hr. pose proof Hr as (Hn & Hs & Hf & Hla & Hc & Hd).
  destruct (alloc_fresh _ _ _ _ Hs) as [Hfresh Hnew].
  unfold Append, ListElement_new. set (a := fresh (dom h)) in *. set (h1 := <[a := _]> h).
  assert (seg h1 ls xs None) as Hs1 by (by apply seg_insert).
  rewrite (IsInList_spec h1 l ls xs x) by done. cbn [rbind].
  case_decide as Hx; [by rewrite bool_decide_eq_true_2 by done |].
  rewrite bool_decide_eq_false_2 by done. cbn [negb rbind].
  rewrite (repr_IsEmpty _ _ _ _ Hr).
  assert (NoDup (ls ++ [a])) as Hn'.
  { apply NoDup_app. split; [done |]. split; [| apply NoDup_singleton].
    intros b Hb ->%list_elem_of_singleton. done. }
  assert (NoDup (xs ++ [x])) as Hd'.
  { apply NoDup_app. split; [done |]. split; [| apply NoDup_singleton].
    intros b Hb ->%list_elem_of_singleton. done. }
  assert (∃ h2 l2, (if bool_decide (xs = []) then Ok (h1, mkList (Some a) (Some a) (numInList l))
     else h ← set_next h1 (lastp l) (Some a); Ok (h, mkList (first l) (Some a) (numInList l))) = Ok (h2, l2) ∧
    seg h2 (ls ++ [a]) (xs ++ [x]) None ∧ first l2 = head (ls ++ [a]) ∧ lastp l2 = Some a ∧
    numInList l2 = numInList l ∧ framed h h2 ls (ls ++ [a])) as (h2 & l2 & -> & Hs2 & Hf2 & Hl2 & Hc2 & Hfr).
  { pose proof (seg_length _ _ _ _ Hs) as Hlen.
    destruct (last_snoc_cases xs) as [->|(xs' & y & ->)].
    - destruct ls; [| done]. rewrite bool_decide_eq_true_2 by done. eexists _, _. split; [done |].
      cbn. unfold h1. rewrite lookup_insert_eq. split_and!; try done. split.
      + intros b _ Hb. rewrite lookup_insert_ne; [done |]. intros <-. apply Hb. by left.
      + by intros b ->%list_elem_of_singleton.
    - rewrite bool_decide_eq_false_2 by (by destruct xs').
      destruct (last_snoc_cases ls) as [->|(ls' & b & ->)]; [rewrite length_app in Hlen; cbn in Hlen; lia |].
      rewrite !length_app in Hlen. cbn in Hlen.
      apply seg_app in Hs1 as [Hs1a Hs1b]; [| lia]. destruct Hs1b as [Hb _]. cbn in Hb.
      rewrite Hla, last_snoc. unfold set_next. cbn [deref]. rewrite Hb. cbn [rbind].
      eexists _, _. split; [done |]. cbn [first lastp numInList item].
      apply not_elem_of_app in Hnew as [Hnew1 Hnew2]. rewrite list_elem_of_singleton in Hnew2.
      apply NoDup_app in Hn as (Hnl & Hdl & _).
      assert (b ∉ ls') as Hbl by (intros Hin; apply (Hdl b Hin); by left).
      split; [| split; [| split; [done | split; [done |]]]].
      + rewrite <- !app_assoc. apply seg_app; [lia |]. split.
        * apply seg_insert; [done |]. by destruct ls'.
        * cbn. rewrite lookup_insert_eq, lookup_insert_ne by done. unfold h1. by rewrite lookup_insert_eq.
      + rewrite Hf. destruct ls'; done.
      + split.
        * intros c Hc1 Hc2. rewrite !not_elem_of_app, !list_elem_of_singleton in *.
          unfold h1. rewrite !lookup_insert_ne by naive_solver. done.
        * intros c Hc1 Hc2. apply elem_of_app in Hc1 as [|Hc1]; [done |].
          by apply list_elem_of_singleton in Hc1 as ->. }
  cbn [rbind].
  assert (repr h2 (mkList (first l2) (lastp l2) (numInList l2 + 1)) (ls ++ [a]) (xs ++ [x])) as Hr2.
  { split_and!; try done; cbn; [by rewrite last_snoc | rewrite Hc2, Hc, length_app; cbn; lia]. }
  rewrite (repr_IsInList _ _ _ _ x Hr2), bool_decide_eq_true_2 by (apply elem_of_app; right; by left).
  cbn [rbind]. by eexists _, _, a.
Qed.
Lemma NoDup_cons_fresh {A} (a : A) l : NoDup l → (a ∉ l) → NoDup (a :: l).
Proof. intros. by apply NoDup_cons. Qed.

Lemma Prepend_spec h l ls xs x : repr h l ls xs →
  if decide (x ∈ xs) then Prepend h l x = Fail AssertFailed
  else ∃ h' l' a, Prepend h l x = Ok (h', l') ∧ repr h' l' (a :: ls) (x :: xs) ∧
    framed h h' ls (a :: ls).
Proof.
  intros Hr. pose proof Hr as (Hn & Hs & Hf & Hla & Hc & Hd).
  destruct (alloc_fresh _ _ _ _ Hs) as [Hfresh Hnew].
  unfold Prepend, ListElement_new. set (a := fresh (dom h)) in *. set (h1 := <[a := _]> h).
  assert (seg h1 ls xs None) as Hs1 by (by apply seg_insert).
  rewrite (IsInList_spec h1 l ls xs x) by done. cbn [rbind].
  case_decide as Hx; [by rewrite bool_decide_eq_true_2 by done |].
  rewrite bool_decide_eq_false_2 by done. cbn [negb rbind].
  rewrite (repr_IsEmpty _ _ _ _ Hr). pose proof (seg_length _ _ _ _ Hs) as Hlen.
  assert (∃ h2 l2, (if bool_decide (xs = []) then Ok (h1, mkList (Some a) (Some a) (numInList l))
     else h ← set_next h1 (Some a) (first l); Ok (h, mkList (Some a) (lastp l) (numInList l))) = Ok (h2, l2) ∧
    seg h2 (a :: ls) (x :: xs) None ∧ first l2 = Some a ∧ lastp l2 = list.last (a :: ls) ∧
    numInList l2 = numInList l ∧ framed h h2 ls (a :: ls)) as (h2 & l2 & -> & Hs2 & Hf2 & Hl2 & Hc2 & Hfr).
  { assert (∀ e, framed h (<[a := e]> h) ls (a :: ls)) as Hframe.
    { intros e. split.
      - intros b _ Hb. rewrite lookup_insert_ne; [done |]. intros <-. apply Hb. by left.
      - intros b [->|Hb]%elem_of_cons Hb'; done. }
    destruct (decide (xs = [])) as [->|Hxs].
    - destruct ls; [| done]. rewrite bool_decide_eq_true_2 by done. eexists _, _. split; [done |].
      cbn. unfold h1. rewrite lookup_insert_eq. split_and!; done || apply Hframe.
    - rewrite bool_decide_eq_false_2 by done. unfold set_next, h1. cbn [deref].
      rewrite lookup_insert_eq. cbn [rbind item]. rewrite insert_insert_eq.
      eexists _, _. split; [done |]. split; [| split; [done | split; [| split; [done |]]]].
      + cbn. rewrite lookup_insert_eq. split; [by rewrite Hf; destruct ls | by apply seg_insert].
      + cbn. rewrite Hla. destruct ls as [|b ls]; [by destruct xs | done].
      + apply Hframe. }
  cbn [rbind].
  assert (repr h2 (mkList (first l2) (lastp l2) (numInList l2 + 1)) (a :: ls) (x :: xs)) as Hr2.
  { split; [by apply NoDup_cons |]. do 3 (split; [done |]).
    split; [cbn; rewrite Hc2, Hc; lia | by apply NoDup_cons]. }
  rewrite (repr_IsInList _ _ _ _ x Hr2), bool_decide_eq_true_2 by left.
  cbn [rbind]. by eexists _, _, a.
Qed.

Lemma head_last_eq {A} (a : A) l : NoDup (a :: l) → head (a :: l) = list.last (a :: l) ↔ l = [].
Proof.
  intros Hn. split; [| by intros ->]. destruct (last_snoc_cases l) as [->|(l' & b & ->)]; [done |].
  rewrite app_comm_cons, last_snoc. intros [= ->]. apply NoDup_cons in Hn as [Hn _].
  exfalso. apply Hn, elem_of_app. right. by left.
Qed.

Lemma RemoveFront_spec h l ls xs : repr h l ls xs →
  match xs with
  | [] => RemoveFront h l = Fail AssertFailed
  | x :: xs' => ∃ h' l' a ls', RemoveFront h l = Ok (x, h', l') ∧ ls = a :: ls' ∧
      repr h' l' ls' xs' ∧ framed h h' ls ls'
  end.
Proof.
  intros Hr. pose proof Hr as (Hn & Hs & Hf & Hla & Hc & Hd). unfold RemoveFront.
  rewrite (repr_IsEmpty _ _ _ _ Hr). destruct xs as [|x xs]; [done |].
  rewrite bool_decide_eq_false_2 by done. cbn [negb rbind].
  destruct ls as [|a ls]; [by destruct Hs |]. rewrite Hf, Hla. destruct Hs as [Ha Hs].
  cbn [head deref]. rewrite Ha. cbn [rbind item next].
  pose proof (head_last_eq a ls Hn) as Heq. cbn [head] in Heq. apply NoDup_cons in Hn as [Hnew Hn].
  apply NoDup_cons in Hd as [_ Hd].
  assert (framed h (delete a h) (a :: ls) ls) as Hfr.
  { split.
    - intros b Hb _. rewrite lookup_delete_ne; [done |]. intros <-. apply Hb. by left.
    - intros b Hb Hb'. destruct Hb'. by right. }
  assert (seg (delete a h) ls xs None) as Hs' by (by apply seg_delete).
  pose proof (seg_length _ _ _ _ Hs) as Hlen.
  case_decide as Hone.
  - apply Heq in Hone as ->. destruct xs; [| done].
    eexists _, _, a, []. split; [done |]. split; [done |]. split; [| done].
    split; [done |]. do 3 (split; [done |]). split; [cbn; rewrite Hc; reflexivity | done].
  - eexists _, _, a, ls. split; [done |]. split; [done |]. split; [| done].
    split; [done |]. split; [done |]. split; [by destruct ls |].
    split; [destruct ls as [|b ls]; [by destruct Hone; apply Heq | done] |].
    split; [cbn in *; rewrite Hc; lia | done].
Qed.

(** Finding [x] in the middle of the chain. *)
Lemma unlink_spec n h l ls1 a ls2 xs1 y xs2 x : NoDup (ls1 ++ a :: ls2) → length ls1 = length xs1 →
  seg h (ls1 ++ a :: ls2) (xs1 ++ y :: xs2) None → lastp l = list.last (ls1 ++ a :: ls2) →
  (length ls2 < n)%nat → x ∈ xs2 →
  ∃ h' la b ls2a ls2b xs2a xs2b, ls2 = ls2a ++ b :: ls2b ∧ xs2 = xs2a ++ x :: xs2b ∧
    unlink n h l (Some a) (head ls2) x = Ok (inr (h', mkList (first l) la (numInList l - 1))) ∧
    seg h' (ls1 ++ a :: ls2a ++ ls2b) (xs1 ++ y :: xs2a ++ xs2b) None ∧
    la = list.last (ls1 ++ a :: ls2a ++ ls2b) ∧
    (∀ c, (c ∉ ls1 ++ a :: ls2) → h' !! c = h !! c).
Proof.
  revert n ls1 a xs1 y xs2. induction ls2 as [|b ls2 IH]; intros n ls1 a xs1 y xs2 Hn Hlen Hs Hla Hfuel Hx.
  { apply seg_app in Hs as [_ [_ Hs]]; [| done]. destruct xs2; [by apply elem_of_nil in Hx | done]. }
  destruct n as [|n]; [lia |].
  pose proof Hs as Hs0. apply seg_app in Hs as [Hs1 [Ha Hs2]]; [| done].
  destruct xs2 as [|z xs2]; [by apply elem_of_nil in Hx |]. destruct Hs2 as [Hb Hs2].
  cbn [unlink head deref]. rewrite Hb. cbn [rbind item next].
  case_decide as Hz.
  - subst z. unfold set_next. cbn [deref]. rewrite Ha. cbn [rbind item].
    set (q := match ls2 with [] => None | c :: _ => Some c end) in *.
    assert (∀ c, c ∈ ls1 ∨ c ∈ ls2 → c ≠ a ∧ c ≠ b) as Hother.
    { apply NoDup_app in Hn as (_ & Hd1 & Hn2). apply NoDup_cons in Hn2 as [Ha2 Hn2].
      apply NoDup_cons in Hn2 as [Hb2 _]. intros c [Hc|Hc].
      - split; intros ->; apply (Hd1 _ Hc); [by left | right; by left].
      - split; intros ->; [apply Ha2; by right | done]. }
    assert (a ≠ b) as Hab.
    { apply NoDup_app in Hn as (_ & _ & [Ha2 _]%NoDup_cons). intros ->. apply Ha2. by left. }
    eexists _, _, b, [], ls2, [], xs2. split; [done |]. split; [done |]. split; [done |]. cbn [app].
    split; [| split].
    + apply seg_app; [done |]. split.
      * eapply seg_ext; [| exact Hs1]. intros c Hc. destruct (Hother c (or_introl Hc)).
        by rewrite lookup_delete_ne, lookup_insert_ne by done.
      * cbn. rewrite lookup_delete_ne, lookup_insert_eq by done. split; [done |].
        eapply seg_ext; [| exact Hs2]. intros c Hc. destruct (Hother c (or_intror Hc)).
        by rewrite lookup_delete_ne, lookup_insert_ne by done.
    + unfold q. destruct (last_snoc_cases ls2) as [->|(ls2' & c & ->)]; [by rewrite last_snoc |].
      rewrite Hla. rewrite !app_comm_cons, !app_assoc, !last_snoc. destruct ls2'; done.
    + intros c Hc. rewrite not_elem_of_app, !not_elem_of_cons in Hc.
      rewrite lookup_delete_ne, lookup_insert_ne by naive_solver. done.
  - apply elem_of_cons in Hx as [|Hx]; [done |].
    destruct (IH n (ls1 ++ [a]) b (xs1 ++ [y]) z xs2) as
      (h' & la & c & ls2a & ls2b & xs2a & xs2b & -> & -> & Hu & Hs' & Hla' & Hfr);
      [by rewrite <- app_assoc | rewrite !length_app; cbn; lia | by rewrite <- !app_assoc
      | by rewrite <- app_assoc | cbn in Hfuel; lia | done |].
    eexists h', la, c, (b :: ls2a), ls2b, (z :: xs2a), xs2b. split; [done |]. split; [done |].
    split; [etransitivity; [| exact Hu]; by destruct ls2a |].
    rewrite <- !app_assoc in *. cbn in *. split; [done |]. split; [done |].
    intros d Hd. apply Hfr. done.
Qed.

Lemma Remove_spec h l ls xs x : repr h l ls xs →
  if decide (x ∈ xs) then
    ∃ h' l' ls' xs1 xs2, xs = xs1 ++ x :: xs2 ∧ Remove h l x = Ok (h', l') ∧
      repr h' l' ls' (xs1 ++ xs2) ∧ framed h h' ls ls'
  else Remove h l x = Fail AssertFailed.
Proof.
  intros Hr. unfold Remove. rewrite (repr_IsInList _ _ _ _ x Hr). cbn [rbind].
  case_decide as Hx; [rewrite bool_decide_eq_true_2 by done | by rewrite bool_decide_eq_false_2 by done].
  cbn [rbind]. destruct xs as [|y xs]; [by apply elem_of_nil in Hx |].
  rewrite (repr_Front _ _ _ _ _ Hr). cbn [rbind].
  case_decide as Hy.
  - subst y. destruct (RemoveFront_spec _ _ _ _ Hr) as (h' & l' & a & ls' & -> & -> & Hr' & Hfr).
    cbn [rbind]. rewrite bool_decide_eq_true_2 by done. cbn [rbind].
    pose proof Hr as (_ & _ & _ & _ & _ & [Hnx _]%NoDup_cons).
    rewrite (repr_IsInList _ _ _ _ x Hr'), bool_decide_eq_false_2 by done. cbn [negb rbind].
    by exists h', l', ls', [], xs.
  - apply elem_of_cons in Hx as [|Hx]; [done |].
    pose proof Hr as (Hn & Hs & Hf & Hla & Hc & Hd).
    destruct ls as [|a ls]; [by destruct Hs |]. pose proof Hs as [Ha _].
    rewrite Hf. cbn [head deref]. rewrite Ha. cbn [rbind next].
    destruct (unlink_spec (fuel h) h l [] a ls [] y xs x) as
      (h' & la & b & ls2a & ls2b & xs2a & xs2b & -> & -> & Hu & Hs' & Hla' & Hfr); try done.
    { pose proof (seg_fuel _ _ _ _ Hn Hs). cbn in *. lia. }
    assert (match (ls2a ++ b :: ls2b) with [] => None | b :: _ => Some b end = head (ls2a ++ b :: ls2b)) as ->
      by (by destruct ls2a).
    rewrite Hu. cbn [rbind app] in *.
    assert (repr h' (mkList (Some a) la (numInList l - 1)) (a :: ls2a ++ ls2b) (y :: xs2a ++ xs2b)) as Hr'.
    { apply NoDup_cons in Hn as [Ha' Hn]. apply NoDup_cons in Hd as [Hy' Hd].
      assert (∀ {A} (l1 l2 : list A) c, NoDup (l1 ++ c :: l2) → NoDup (l1 ++ l2) ∧ (c ∉ l1 ++ l2)) as Hdrop.
      { intros A l1 l2 c Hnd. rewrite <- Permutation_middle in Hnd. apply NoDup_cons in Hnd. tauto. }
      destruct (Hdrop _ _ _ _ Hn) as [Hn1 Hn2], (Hdrop _ _ _ _ Hd) as [Hd1 Hd2].
      rewrite not_elem_of_app, not_elem_of_cons in Ha'. rewrite not_elem_of_app, not_elem_of_cons in Hy'.
      split_and!; try done; cbn.
      - apply NoDup_cons. split; [rewrite not_elem_of_app; tauto | done].
      - rewrite Hc. cbn. rewrite !length_app. cbn. lia.
      - apply NoDup_cons. split; [rewrite not_elem_of_app; tauto | done]. }
    assert (first l = Some a) as -> by done.
    rewrite (repr_IsInList _ _ _ _ x Hr'), bool_decide_eq_false_2.
    2: { rewrite not_elem_of_cons. split; [done |]. apply NoDup_cons in Hd as [_ Hd].
         rewrite <- Permutation_middle in Hd. by apply NoDup_cons in Hd as [Hd _]. }
    cbn [negb rbind]. exists h', (mkList (Some a) la (numInList l - 1)), (a :: ls2a ++ ls2b), (y :: xs2a), xs2b.
    split; [done |]. split; [done |]. split; [done |]. split.
    + intros c Hc1 _. by apply Hfr.
    + intros c Hc1 Hc2. destruct Hc2. rewrite !elem_of_cons, !elem_of_app in *. rewrite elem_of_cons. tauto.
Qed.

Lemma apply_from_spec {S} n h ls xs (func : S → T → result S) s : seg h ls xs None → (length ls < n)%nat →
  apply_from n h (head ls) func s = foldl (λ r x, s ← r; func s x) (Ok s) xs.
Proof.
  revert n xs s. induction ls as [|a ls IH]; intros n xs s Hs Hn; (destruct n as [|n]; [lia |]).
  - destruct xs; [done | by destruct Hs].
  - destruct xs as [|x xs]; [by destruct Hs |]. destruct Hs as [Ha Hs]. cbn [apply_from head deref].
    rewrite Ha. cbn [rbind item next foldl].
    replace (match ls with [] => None | b :: _ => Some b end) with (head ls) by (by destruct ls).
    destruct (func s x) as [s'|e]; cbn [rbind].
    + apply IH; [done | cbn in Hn; lia].
    + clear. induction xs as [|y xs IH]; [done | exact IH].
Qed.

Lemma Apply_spec {S} h l ls xs (func : S → T → result S) s : repr h l ls xs →
  Apply h l func s = foldl (λ r x, s ← r; func s x) (Ok s) xs.
Proof.
  intros (Hn & Hs & Hf & _). unfold Apply. rewrite Hf. apply apply_from_spec; [done |]. by eapply seg_fuel.
Qed.
Lemma count_to_last_spec n h l ls xs k : NoDup ls → seg h ls xs None → lastp l = list.last ls →
  ls ≠ [] → (length ls < n)%nat → k + Z.of_nat (length ls) - 1 <= numInList l →
  count_to_last n h l (head ls) k = Ok (k + Z.of_nat (length ls) - 1).
Proof.
  revert n xs k. induction ls as [|a ls IH]; intros n xs k Hn Hs Hla Hne Hfuel Hk; [done |].
  destruct n as [|n]; [lia |]. destruct xs as [|x xs]; [by destruct Hs |]. destruct Hs as [Ha Hs].
  pose proof (head_last_eq a ls Hn) as Heq. cbn [count_to_last head]. rewrite Hla.
  case_decide as Hone.
  - apply Heq in Hone as ->. cbn. f_equal. lia.
  - destruct ls as [|b ls]; [by destruct Hone; apply Heq |].
    destruct (Z.leb_spec (k + 1) (numInList l)); [| cbn in Hk; lia]. cbn [rbind deref].
    rewrite Ha. cbn [rbind next]. apply NoDup_cons in Hn as [_ Hn].
    change (Some b) with (head (b :: ls)). rewrite (IH n xs (k + 1)) by (done || (cbn in *; lia)).
    f_equal. cbn. lia.
Qed.

Lemma SanityCheck_spec h l ls xs : repr h l ls xs → SanityCheck h l = Ok tt.
Proof.
  intros (Hn & Hs & Hf & Hla & Hc & Hd). unfold SanityCheck. pose proof (seg_length _ _ _ _ Hs) as Hlen.
  rewrite Hf, Hla. destruct ls as [|a ls].
  - destruct xs; [| done]. cbn [head list.last]. rewrite decide_True, bool_decide_eq_true_2 by done. by rewrite Hc.
  - rewrite decide_False by done. pose proof (head_last_eq a ls Hn) as Heq.
    destruct (last_snoc_cases (a :: ls)) as [|(ls' & b & Hb)]; [done |].
    destruct (last_snoc_cases xs) as [->|(xs' & y & ->)]; [done |].
    assert (h !! b = Some (mkElem None y)) as Hbl.
    { rewrite Hb in Hs, Hlen. rewrite !length_app in Hlen. cbn in Hlen.
      apply seg_app in Hs as [_ [Hs _]]; [done | lia]. }
    case_decide as Hone.
    + apply Heq in Hone as ->. cbn in Hb. destruct ls' as [|? ls']; [| by destruct ls'].
      injection Hb as <-. cbn [list.last deref]. rewrite Hbl. cbn [rbind next].
      destruct xs' as [|? xs']; [| rewrite length_app in Hlen; cbn in Hlen; lia]. by rewrite Hc.
    + rewrite (count_to_last_spec _ _ _ (a :: ls) (xs' ++ [y])); try done.
      * cbn [rbind]. rewrite Hc, <- Hlen. rewrite Z.add_comm, Z.add_simpl_r, Z.eqb_refl. cbn [rbind].
        rewrite Hb, last_snoc. cbn [deref]. by rewrite Hbl.
      * by eapply seg_fuel.
      * rewrite Hc, <- Hlen. lia.
Qed.

(** ** Sorted insertion *)

Section sorted_lemmas.
Variable compare : T → T → Z.

(** Behind everything that is not greater. *)
Fixpoint sinsert (x : T) (xs : list T) : list T :=
  match xs with
  | [] => [x]
  | y :: ys => if compare x y <? 0 then x :: y :: ys else y :: sinsert x ys
  end.

Lemma sinsert_perm x xs : sinsert x xs ≡ₚ x :: xs.
Proof.
  induction xs as [|y ys IH]; cbn; [done |]. destruct (compare x y <? 0); [done |].
  rewrite IH. apply Permutation_swap.
Qed.

Lemma sinsert_end x xs : (∀ y, y ∈ xs → (compare x y <? 0) = false) → sinsert x xs = xs ++ [x].
Proof.
  induction xs as [|y ys IH]; cbn; intros Hall; [done |]. rewrite Hall by left.
  f_equal. apply IH. intros z Hz. apply Hall. by right.
Qed.

Lemma insert_after_spec n h el ls1 a ls2 xs1 y xs2 x : NoDup (ls1 ++ a :: ls2) →
  length ls1 = length xs1 → seg h (ls1 ++ a :: ls2) (xs1 ++ y :: xs2) None →
  (el ∉ ls1 ++ a :: ls2) → h !! el = Some (mkElem None x) → (length ls2 < n)%nat →
  (insert_after compare n h (Some el) (Some a) x = Ok (inl tt) ∧
     (∀ z, z ∈ xs2 → (compare x z <? 0) = false)) ∨
  (∃ h' ls2a ls2b, insert_after compare n h (Some el) (Some a) x = Ok (inr h') ∧
     ls2 = ls2a ++ ls2b ∧ ls2b ≠ [] ∧
     seg h' (ls1 ++ a :: ls2a ++ el :: ls2b) (xs1 ++ y :: sinsert x xs2) None ∧
     ∀ c, (c ∉ el :: ls1 ++ a :: ls2) → h' !! c = h !! c).
Proof.
  revert n ls1 a xs1 y xs2. induction ls2 as [|b ls2 IH]; intros n ls1 a xs1 y xs2 Hn Hlen Hs Hel Hx Hfuel;
    (destruct n as [|n]; [lia |]); pose proof Hs as Hs0; apply seg_app in Hs as [Hs1 [Ha Hs2]]; try done;
    cbn [insert_after deref]; rewrite Ha; cbn [rbind next].
  - left. split; [done |]. destruct xs2; [| done]. intros z Hz. by apply elem_of_nil in Hz.
  - destruct xs2 as [|z xs2]; [by destruct Hs2 |]. destruct Hs2 as [Hb Hs2]. cbn [deref]. rewrite Hb. cbn [rbind item sinsert].
    rewrite not_elem_of_app, !not_elem_of_cons in Hel. destruct Hel as (Hel1 & Hel2 & Hel3 & Hel4).
    destruct (compare x z <? 0) eqn:Hz.
    + right. unfold set_next. cbn [deref]. rewrite Hx. cbn [rbind item]. rewrite lookup_insert_ne, Ha by done.
      cbn [rbind item]. set (h2 := <[a := _]> _).
      assert (h2 !! a = Some (mkElem (Some el) y)) as Ha2 by apply lookup_insert_eq.
      assert (h2 !! el = Some (mkElem (Some b) x)) as He2
        by (unfold h2; by rewrite lookup_insert_ne, lookup_insert_eq by done).
      assert (∀ c, c ≠ a → c ≠ el → h2 !! c = h !! c) as Hh2
        by (intros c Hca Hce; unfold h2; by rewrite !lookup_insert_ne by done).
      clearbody h2. exists h2, [], (b :: ls2). split; [done |]. split; [done |]. split; [done |].
      assert (∀ c, c ∈ ls1 ∨ c ∈ b :: ls2 → h2 !! c = h !! c) as Hother.
      { apply NoDup_app in Hn as (_ & Hd1 & [Hnb _]%NoDup_cons). intros c [Hc|Hc]; apply Hh2.
        - intros ->. apply (Hd1 _ Hc). by left.
        - by intros ->.
        - by intros ->.
        - intros ->. by apply elem_of_cons in Hc as [|]. }
      split.
      * apply seg_app; [done |]. split; [eapply seg_ext; [| exact Hs1]; eauto |].
        cbn. split; [done |]. split; [done |]. rewrite Hother by (right; by left). split; [done |].
        eapply seg_ext; [| exact Hs2]. intros c Hc. apply Hother. right. by right.
      * intros c Hc. rewrite not_elem_of_cons, not_elem_of_app, not_elem_of_cons in Hc.
        apply Hh2; naive_solver.
    + destruct (IH n (ls1 ++ [a]) b (xs1 ++ [y]) z xs2) as
        [[Hr Hall]|(h' & ls2a & ls2b & Hr & -> & Hne & Hs' & Hfr)];
        [by rewrite <- app_assoc | rewrite !length_app; cbn; lia | by rewrite <- !app_assoc
        | rewrite <- app_assoc; cbn; rewrite not_elem_of_app, !not_elem_of_cons; done | done | cbn in Hfuel; lia | |].
      * left. split; [exact Hr |]. intros w [->|Hw]%elem_of_cons; [done | by apply Hall].
      * right. exists h', (b :: ls2a), ls2b. split; [exact Hr |]. split; [done |]. split; [done |].
        rewrite <- !app_assoc in Hs'. split; [exact Hs' |].
        intros c Hc. apply Hfr. rewrite <- app_assoc. exact Hc.
Qed.

Lemma Insert_spec h l ls xs x : repr h l ls xs →
  if decide (x ∈ xs) then Insert compare h l x = Fail AssertFailed
  else ∃ h' l' ls', Insert compare h l x = Ok (h', l') ∧ repr h' l' ls' (sinsert x xs) ∧
    framed h h' ls ls'.
Proof.
  intros Hr. pose proof Hr as (Hn & Hs & Hf & Hla & Hc & Hd).
  destruct (alloc_fresh _ _ _ _ Hs) as [Hfresh Hnew].
  unfold Insert, ListElement_new. set (a := fresh (dom h)) in *. set (h1 := <[a := _]> h).
  assert (repr h1 l ls xs) as Hr1 by (split; [done |]; split; [by apply seg_insert | done]).
  assert (h1 !! a = Some (mkElem None x)) as Ha1 by apply lookup_insert_eq.
  assert (∀ c, c ≠ a → h1 !! c = h !! c) as Hh1 by (intros c Hca; by apply lookup_insert_ne).
  rewrite (repr_IsInList _ _ _ _ x Hr1). cbn [rbind].
  case_decide as Hx; [by rewrite bool_decide_eq_true_2 by done |].
  rewrite bool_decide_eq_false_2 by done. cbn [negb rbind].
  rewrite (repr_IsEmpty _ _ _ _ Hr). pose proof (seg_length _ _ _ _ Hs) as Hlen.
  assert (NoDup (sinsert x xs)) as Hd' by (rewrite sinsert_perm; by apply NoDup_cons).
  assert (∀ h2 l2 ls2, seg h2 ls2 (sinsert x xs) None → NoDup ls2 → first l2 = head ls2 →
    lastp l2 = list.last ls2 → numInList l2 = numInList l →
    repr h2 (mkList (first l2) (lastp l2) (numInList l2 + 1)) ls2 (sinsert x xs)) as Hmk.
  { intros h2 l2 ls2 ??? ? ->. split_and!; try done. cbn [numInList]. rewrite sinsert_perm, Hc. cbn. lia. }
  assert (∀ h2 l2 ls2, seg h2 ls2 (sinsert x xs) None → NoDup ls2 → first l2 = head ls2 →
    lastp l2 = list.last ls2 → numInList l2 = numInList l → framed h h2 ls ls2 →
    ∃ h' l' ls', (b ← IsInList h2 (mkList (first l2) (lastp l2) (numInList l2 + 1)) x; ASSERT b;;
      Ok (h2, mkList (first l2) (lastp l2) (numInList l2 + 1))) = Ok (h', l') ∧
      repr h' l' ls' (sinsert x xs) ∧ framed h h' ls ls') as Hfinish.
  { intros h2 l2 ls2 H1 H2 H3 H4 H5 H6. pose proof (Hmk h2 l2 ls2 H1 H2 H3 H4 H5) as Hr2.
    rewrite (repr_IsInList _ _ _ _ x Hr2), bool_decide_eq_true_2; [by eexists _, _, ls2 |].
    rewrite sinsert_perm. by left. }
  assert (∀ ls', NoDup ls' → ls' ≡ₚ a :: ls → ∀ h2, (∀ c, (c ∉ a :: ls) → h2 !! c = h1 !! c) →
    framed h h2 ls ls') as Hframe.
  { intros ls' _ Hp h2 Hh2. split.
    - intros c Hc1 Hc2. rewrite Hp in Hc2. rewrite Hh2 by done. apply Hh1. intros ->. apply Hc2. by left.
    - intros c Hc1 Hc2. rewrite Hp in Hc1. by apply elem_of_cons in Hc1 as [->|]. }
  assert (NoDup (a :: ls)) as Hna by (by apply NoDup_cons).
  destruct xs as [|y xs].
  { destruct ls; [| done]. rewrite bool_decide_eq_true_2 by done.
    apply (Hfinish h1 (mkList (Some a) (Some a) (numInList l)) [a]); try done. by apply Hframe. }
  rewrite bool_decide_eq_false_2, (repr_Front _ _ _ _ _ Hr1) by done. cbn [rbind].
  destruct ls as [|b ls]; [done |].
  destruct (compare x y <? 0) eqn:Hxy.
  - cbn [sinsert] in *. rewrite Hxy in *. unfold set_next. cbn [deref]. rewrite Ha1. cbn [rbind item].
    apply (Hfinish _ (mkList (Some a) (lastp l) (numInList l)) (a :: b :: ls)); try done.
    + split; [rewrite lookup_insert_eq; by rewrite Hf | apply seg_insert; [done | apply Hr1]].
    + apply Hframe; [done | done |]. intros c Hc'. rewrite not_elem_of_cons in Hc'.
      rewrite lookup_insert_ne by naive_solver. done.
  - destruct Hr1 as (_ & Hs1 & _). rewrite Hf. cbn [head].
    destruct (insert_after_spec (fuel h1) h1 a [] b ls [] y xs x) as
      [[-> Hall]|(h' & lsa & lsb & -> & -> & Hne & Hs' & Hfr)];
      [done | done | exact Hs1 | done | done | pose proof (seg_fuel _ _ _ _ Hn Hs1); cbn in *; lia | |]; cbn [rbind].
    + assert (sinsert x (y :: xs) = (y :: xs) ++ [x]) as Hsi.
      { apply sinsert_end. intros z [->|Hz]%elem_of_cons; [done | by apply Hall]. }
      rewrite Hsi in *. rewrite Hla.
      destruct (last_snoc_cases (b :: ls)) as [|(ls' & d & Hld)]; [done |].
      destruct (last_snoc_cases (y :: xs)) as [|(xs' & w & Hlw)]; [done |].
      rewrite Hld, Hlw, !length_app in Hlen. cbn in Hlen. rewrite Hld, Hlw in *. rewrite last_snoc.
      apply seg_app in Hs1 as [Hs1a [Hd1 _]]; [| lia]. unfold set_next. cbn [deref]. rewrite Hd1. cbn [rbind item].
      rewrite not_elem_of_app, list_elem_of_singleton in Hnew.
      apply NoDup_app in Hn as (Hnl & Hdl & _).
      apply (Hfinish _ (mkList (Some b) (Some a) (numInList l)) ((ls' ++ [d]) ++ [a])).
      * rewrite <- !app_assoc. apply seg_app; [lia |]. split.
        -- apply seg_insert; [intros Hin; apply (Hdl d Hin); by left |]. by destruct ls'.
        -- cbn. rewrite lookup_insert_eq, lookup_insert_ne by naive_solver. done.
      * by rewrite Permutation_app_comm.
      * cbn [first]. change (Some b) with (head (b :: ls)). rewrite Hld. by destruct ls'.
      * cbn. by rewrite last_snoc.
      * done.
      * apply Hframe; [by rewrite Permutation_app_comm | by rewrite Permutation_app_comm |].
        intros c Hc'. rewrite lookup_insert_ne; [done |]. intros <-. apply Hc'. right.
        apply elem_of_app. right. by left.
    + cbn [app] in *. assert (sinsert x (y :: xs) = y :: sinsert x xs) as Hsi by (cbn; by rewrite Hxy).
      rewrite Hsi in *.
      assert (b :: lsa ++ a :: lsb ≡ₚ a :: b :: lsa ++ lsb) as Hp
        by (rewrite <- Permutation_middle; apply Permutation_swap).
      eexists _, _, (b :: lsa ++ a :: lsb). split; [done |]. split.
      * apply (Hmk h' (mkList (Some b) (lastp l) (numInList l))); try done; [by rewrite Hp |].
        cbn [lastp]. rewrite Hla. destruct (last_snoc_cases lsb) as [|(lsb' & d & ->)]; [done |].
        assert (∀ l1, list.last (l1 ++ lsb' ++ [d]) = Some d) as Hl1
          by (intros l1; by rewrite app_assoc, last_snoc).
        pose proof (Hl1 (b :: lsa ++ [a])) as Hl2. cbn in Hl2. rewrite <- app_assoc in Hl2.
        etransitivity; [exact (Hl1 (b :: lsa)) | symmetry; exact Hl2].
      * apply Hframe; [by rewrite Hp | done |]. intros c Hc'. apply Hfr. exact Hc'.
Qed.

(** When [compare] orders the items (list.h: -1, 0, 1), insertion keeps a
    sorted list sorted. *)
Definition le_cmp (x y : T) : Prop := compare x y <= 0.
Definition preorder_cmp : Prop :=
  (∀ x y z, le_cmp x y → le_cmp y z → le_cmp x z) ∧ (∀ x y, compare x y < 0 ↔ 0 < compare y x).

Lemma sinsert_sorted x xs : preorder_cmp → StronglySorted le_cmp xs → StronglySorted le_cmp (sinsert x xs).
Proof.
  intros [Htr Hsym]. assert (∀ x y, ¬ compare x y < 0 → le_cmp y x) as Htot.
  { intros a b Hab. unfold le_cmp. rewrite Hsym in Hab. lia. }
  induction 1 as [|y ys Hs IH Hall]; cbn; [by repeat constructor |].
  destruct (Z.ltb_spec (compare x y) 0).
  - constructor; [by constructor |]. constructor; [unfold le_cmp; lia |].
    eapply Forall_impl; [exact Hall |]. intros z Hz. apply (Htr _ y); [unfold le_cmp; lia | done].
  - constructor; [done |]. rewrite sinsert_perm. constructor; [apply Htot; lia | done].
Qed.

(** ... and behind its equals. *)
Definition same_key (x y : T) : bool := (compare x y <=? 0) && (compare y x <=? 0).

Lemma sinsert_stable k x xs : preorder_cmp → StronglySorted le_cmp xs →
  List.filter (same_key k) (sinsert x xs) = List.filter (same_key k) (xs ++ [x]).
Proof.
  intros [Htr Hsym]. induction 1 as [|y ys Hs IH Hall]; cbn [sinsert app]; [done |].
  destruct (Z.ltb_spec (compare x y) 0) as [Hlt|Hge]; [| cbn; by rewrite IH].
  (* nothing from [y] on has the key of [x] *)
  destruct (same_key k x) eqn:Hkx.
  - unfold same_key in Hkx. apply andb_true_iff in Hkx as [Hk1%Z.leb_le Hk2%Z.leb_le].
    assert (∀ z, le_cmp y z → same_key k z = false) as Hno.
    { intros z Hyz. unfold same_key. apply andb_false_iff. right. apply Z.leb_gt.
      assert (¬ le_cmp z k) as Hn; [| unfold le_cmp in Hn; lia].
      intros Hzk. assert (le_cmp y x) as Hyx by (eapply Htr; [exact Hyz |]; eapply Htr; [exact Hzk | exact Hk1]).
      unfold le_cmp in Hyx. apply Hsym in Hlt. lia. }
    assert (∀ l, Forall (le_cmp y) l → List.filter (same_key k) l = []) as Hnil.
    { induction 1 as [|z l Hz Hl IHl]; [done |]. cbn. by rewrite (Hno z Hz). }
    cbn. rewrite !List.filter_app, (Hnil ys) by done. cbn.
    assert (same_key k y = false) as Hy.
    { apply Hno. unfold le_cmp. destruct (Z.lt_trichotomy (compare y y) 0) as [Hyy|[|Hyy]]; [lia | lia |].
      apply Hsym in Hyy. lia. }
    rewrite Hy. unfold same_key. apply Z.leb_le in Hk1, Hk2. by rewrite Hk1, Hk2.
  - cbn. rewrite Hkx, !List.filter_app. cbn. rewrite Hkx. by rewrite app_nil_r.
Qed.

Lemma check_order_spec n h ls xs prev : seg h ls xs None → (length ls < n)%nat →
  StronglySorted le_cmp (prev :: xs) → check_order compare n h prev (head ls) = Ok tt.
Proof.
  revert n xs prev. induction ls as [|a ls IH]; intros n xs prev Hs Hn Hsort; (destruct n as [|n]; [lia |]); [done |].
  destruct xs as [|x xs]; [by destruct Hs |]. destruct Hs as [Ha Hs]. cbn [check_order head deref].
  rewrite Ha. cbn [rbind item next].
  apply StronglySorted_inv in Hsort as [Hsort Hall]. apply Forall_cons in Hall as [Hpx _]. unfold le_cmp in Hpx.
  destruct (Z.leb_spec (compare prev x) 0); [| lia]. cbn [rbind].
  replace (match ls with [] => None | b :: _ => Some b end) with (head ls) by (by destruct ls).
  apply (IH n xs); [done | cbn in Hn; lia | done].
Qed.

Lemma Sorted_SanityCheck_spec h l ls xs : repr h l ls xs → StronglySorted le_cmp xs →
  Sorted_SanityCheck compare h l = Ok tt.
Proof.
  intros Hr Hsort. unfold Sorted_SanityCheck. rewrite (SanityCheck_spec _ _ _ _ Hr). cbn [rbind].
  case_decide as Hone; [| done]. destruct Hr as (Hn & Hs & Hf & Hla & _). rewrite Hf, Hla in *.
  destruct ls as [|a ls]; [by destruct Hone |]. destruct xs as [|x xs]; [by destruct Hs |].
  pose proof Hs as [Ha Hs']. cbn [head deref]. rewrite Ha. cbn [rbind item next].
  replace (match ls with [] => None | b :: _ => Some b end) with (head ls) by (by destruct ls).
  apply (check_order_spec _ _ _ xs); [done | | done].
  pose proof (seg_fuel _ _ _ _ Hn Hs). cbn in *. lia.
Qed.
End sorted_lemmas.
Lemma iterate_spec n h ls xs : seg h ls xs None → (length ls ≤ n)%nat → iterate n h (head ls) = Ok xs.
Proof.
  revert n xs. induction ls as [|a ls IH]; intros n xs Hs Hn.
  - destruct xs; [by destruct n | by destruct Hs].
  - destruct xs as [|x xs]; [by destruct Hs |]. destruct n as [|n]; [cbn in Hn; lia |].
    destruct Hs as [Ha Hs]. cbn [iterate head IsDone]. unfold Item, Next. cbn [IsDone negb rbind deref].
    rewrite Ha. cbn [rbind item next].
    replace (match ls with [] => None | b :: _ => Some b end) with (head ls) by (by destruct ls).
    rewrite (IH n xs); [done | done | cbn in Hn; lia].
Qed.

(** ** Calls and their meaning on sequences *)

Inductive lcall :=
  | LAppend (x : T) | LPrepend (x : T) | LRemoveFront | LRemove (x : T) | LIsInList (x : T)
  | LFront | LNumInList | LIsEmpty | LSanityCheck | LApply | LIterate.
Inductive lret := LUnit | LItem (x : T) | LBool (b : bool) | LNum (n : Z) | LItems (xs : list T).

Definition list_call (s : heap * List) (c : lcall) : result (lret * (heap * List)) :=
  let '(h, l) := s in
  match c with
  | LAppend x => s ← Append h l x; Ok (LUnit, s)
  | LPrepend x => s ← Prepend h l x; Ok (LUnit, s)
  | LRemoveFront => '(x, h, l) ← RemoveFront h l; Ok (LItem x, (h, l))
  | LRemove x => s ← Remove h l x; Ok (LUnit, s)
  | LIsInList x => b ← IsInList h l x; Ok (LBool b, s)
  | LFront => x ← Front h l; Ok (LItem x, s)
  | LNumInList => Ok (LNum (NumInList l), s)
  | LIsEmpty => Ok (LBool (IsEmpty l), s)
  | LSanityCheck => SanityCheck h l;; Ok (LUnit, s)
  | LApply => xs ← Apply h l (λ xs x, Ok (xs ++ [x])) []; Ok (LItems xs, s)
  | LIterate => xs ← iterate (fuel h) h (ListIterator_new l); Ok (LItems xs, s)
  end.

(** Removing the one occurrence of [x]. *)
Definition seq_remove (x : T) (xs : list T) : list T := filter (λ y, y ≠ x) xs.

Definition seq_Append (xs : list T) (x : T) : result (list T) :=
  ASSERT (bool_decide (x ∉ xs));; Ok (xs ++ [x]).
Definition seq_RemoveFront (xs : list T) : result (T * list T) :=
  match xs with [] => Fail AssertFailed | x :: xs => Ok (x, xs) end.

Definition seq_call (xs : list T) (c : lcall) : result (lret * list T) :=
  match c with
  | LAppend x => xs ← seq_Append xs x; Ok (LUnit, xs)
  | LPrepend x => ASSERT (bool_decide (x ∉ xs));; Ok (LUnit, x :: xs)
  | LRemoveFront => '(x, xs) ← seq_RemoveFront xs; Ok (LItem x, xs)
  | LRemove x => ASSERT (bool_decide (x ∈ xs));; Ok (LUnit, seq_remove x xs)
  | LIsInList x => Ok (LBool (bool_decide (x ∈ xs)), xs)
  | LFront => match xs with [] => Fail NullDeref | x :: _ => Ok (LItem x, xs) end
  | LNumInList => Ok (LNum (Z.of_nat (length xs)), xs)
  | LIsEmpty => Ok (LBool (bool_decide (xs = [])), xs)
  | LSanityCheck => Ok (LUnit, xs)
  | LApply | LIterate => Ok (LItems xs, xs)
  end.

Lemma seq_remove_mid x xs1 xs2 : NoDup (xs1 ++ x :: xs2) → seq_remove x (xs1 ++ x :: xs2) = xs1 ++ xs2.
Proof.
  intros Hn. unfold seq_remove.
  assert (∀ l : list T, (x ∉ l) → filter (λ y : T, y ≠ x) l = l) as Hid.
  { induction l as [|y l IH]; [done |]. rewrite not_elem_of_cons. intros [Hy Hl].
    rewrite filter_cons, decide_True, IH by naive_solver. done. }
  rewrite filter_app, filter_cons, (decide_False (P := x ≠ x)) by naive_solver.
  rewrite <- Permutation_middle in Hn. apply NoDup_cons in Hn as [Hx _].
  rewrite not_elem_of_app in Hx. by rewrite !Hid by tauto.
Qed.

Lemma foldl_snoc (acc xs : list T) :
  foldl (λ r x, s ← r; Ok (s ++ [x])) (Ok acc) xs = Ok (acc ++ xs).
Proof.
  revert acc. induction xs as [|x xs IH]; intros acc; cbn; [by rewrite app_nil_r |].
  rewrite IH, <- app_assoc. done.
Qed.

Lemma framed_refl h ls : framed h h ls ls.
Proof. split; [done |]. intros a H1 H2. done. Qed.

Lemma list_call_spec h l ls xs c : repr h l ls xs →
  match seq_call xs c with
  | Ok (r, xs') => ∃ h' l' ls', list_call (h, l) c = Ok (r, (h', l')) ∧ repr h' l' ls' xs' ∧
      framed h h' ls ls'
  | Fail e => list_call (h, l) c = Fail e
  end.
Proof.
  intros Hr.
  assert (∀ r, ∃ h' l' ls', (Ok (r, (h, l)) : result (lret * (heap * List))) = Ok (r, (h', l')) ∧
    repr h' l' ls' xs ∧ framed h h' ls ls') as Hsame
    by (intros r; exists h, l, ls; split; [done |]; split; [done | apply framed_refl]).
  destruct c as [x|x| |x|x| | | | | |]; cbn [list_call seq_call]; unfold seq_Append, seq_RemoveFront.
  - pose proof (Append_spec h l ls xs x Hr) as Ha. case_decide as Hx.
    + rewrite bool_decide_eq_false_2 by (intros Hn; by apply Hn). cbn [rbind]. by rewrite Ha.
    + rewrite bool_decide_eq_true_2 by done. destruct Ha as (h' & l' & a & -> & Hr' & Hf). cbn [rbind].
      by exists h', l', (ls ++ [a]).
  - pose proof (Prepend_spec h l ls xs x Hr) as Ha. case_decide as Hx.
    + rewrite bool_decide_eq_false_2 by (intros Hn; by apply Hn). cbn [rbind]. by rewrite Ha.
    + rewrite bool_decide_eq_true_2 by done. destruct Ha as (h' & l' & a & -> & Hr' & Hf). cbn [rbind].
      by exists h', l', (a :: ls).
  - pose proof (RemoveFront_spec h l ls xs Hr) as Ha. destruct xs as [|x xs]; [by rewrite Ha |].
    destruct Ha as (h' & l' & a & ls' & -> & -> & Hr' & Hf). by exists h', l', ls'.
  - pose proof (Remove_spec h l ls xs x Hr) as Ha. case_decide as Hx.
    + rewrite bool_decide_eq_true_2 by done. cbn [rbind].
      destruct Ha as (h' & l' & ls' & xs1 & xs2 & -> & -> & Hr' & Hf). cbn [rbind].
      rewrite seq_remove_mid by apply Hr. by exists h', l', ls'.
    + rewrite bool_decide_eq_false_2 by done. by rewrite Ha.
  - rewrite (repr_IsInList _ _ _ _ x Hr). cbn [rbind]. apply Hsame.
  - destruct xs as [|x xs].
    + destruct Hr as (_ & Hs & Hf & _). unfold Front. rewrite Hf. by destruct ls.
    + rewrite (repr_Front _ _ _ _ _ Hr). cbn [rbind]. apply Hsame.
  - assert (NumInList l = Z.of_nat (length xs)) as -> by apply Hr. apply Hsame.
  - rewrite (repr_IsEmpty _ _ _ _ Hr). apply Hsame.
  - rewrite (SanityCheck_spec _ _ _ _ Hr). cbn [rbind]. apply Hsame.
  - rewrite (Apply_spec _ _ _ _ _ _ Hr), foldl_snoc. cbn [rbind]. apply Hsame.
  - destruct Hr as (Hn & Hs & Hf & Hr). unfold ListIterator_new. rewrite Hf.
    rewrite (iterate_spec _ _ _ _ Hs) by (pose proof (seg_fuel _ _ _ _ Hn Hs); lia). cbn [rbind]. apply Hsame.
Qed.

(** A client that fills a sorted list and empties it again. *)
Fixpoint insert_all (compare : T → T → Z) (h : heap) (l : List) (items : list T) : result (heap * List) :=
  match items with
  | [] => Ok (h, l)
  | x :: items => '(h, l) ← Insert compare h l x; insert_all compare h l items
  end.

Fixpoint remove_all (n : nat) (h : heap) (l : List) : result (list T * heap * List) :=
  match n with
  | O => Ok ([], h, l)
  | S n => '(x, h, l) ← RemoveFront h l; '(xs, h, l) ← remove_all n h l; Ok (x :: xs, h, l)
  end.

Lemma insert_all_spec compare h l ls xs items : preorder_cmp compare → repr h l ls xs →
  StronglySorted (le_cmp compare) xs → NoDup (xs ++ items) →
  ∃ h' l' ls' out, insert_all compare h l items = Ok (h', l') ∧ repr h' l' ls' out ∧
    StronglySorted (le_cmp compare) out ∧ out ≡ₚ xs ++ items ∧
    ∀ k, List.filter (same_key compare k) out = List.filter (same_key compare k) (xs ++ items).
Proof.
  intros Hcmp. revert h l ls xs. induction items as [|x items IH]; intros h l ls xs Hr Hs Hn; cbn [insert_all].
  { rewrite app_nil_r. by exists h, l, ls, xs. }
  pose proof (Insert_spec compare h l ls xs x Hr) as Hi.
  rewrite decide_False in Hi.
  2: { rewrite <- Permutation_middle in Hn. apply NoDup_cons in Hn as [Hx _].
       rewrite not_elem_of_app in Hx. tauto. }
  destruct Hi as (h1 & l1 & ls1 & -> & Hr1 & _). cbn [rbind].
  destruct (IH h1 l1 ls1 (sinsert compare x xs) Hr1) as (h' & l' & ls' & out & Ho & Hr' & Hso & Hp & Hst).
  - by apply sinsert_sorted.
  - rewrite sinsert_perm. by rewrite <- Permutation_middle in Hn.
  - exists h', l', ls', out. split; [done |]. split; [done |]. split; [done |]. split.
    + rewrite Hp, sinsert_perm. by rewrite <- Permutation_middle.
    + intros k. rewrite Hst, List.filter_app, sinsert_stable, <- List.filter_app, <- app_assoc by done. done.
Qed.

Lemma remove_all_spec h l ls xs : repr h l ls xs →
  ∃ h' l', remove_all (length xs) h l = Ok (xs, h', l') ∧ repr h' l' [] [].
Proof.
  revert h l ls. induction xs as [|x xs IH]; intros h l ls Hr; cbn [remove_all length].
  - exists h, l. split; [done |]. pose proof Hr as (_ & Hs & _). destruct ls; [done | by destruct Hs].
  - destruct (RemoveFront_spec _ _ _ _ Hr) as (h1 & l1 & a & ls1 & -> & _ & Hr1 & _). cbn [rbind].
    destruct (IH _ _ _ Hr1) as (h' & l' & -> & Hr'). cbn [rbind]. by exists h', l'.
Qed.

Fixpoint run_list {S} (step : S → lcall → result (lret * S)) (s : S) (cs : list lcall) :
    result (list lret * S) :=
  match cs with
  | [] => Ok ([], s)
  | c :: cs => '(r, s) ← step s c; '(rs, s) ← run_list step s cs; Ok (r :: rs, s)
  end.
End lists.
Arguments ListElement : clear implicits.

(** ** Properties *)

(** C22: [List] is a sequence.  Any sequence of Append, Prepend, RemoveFront,
    Remove, IsInList, Front, NumInList, IsEmpty, SanityCheck, Apply and
    iteration calls on a linked list, from the empty one, gives exactly the
    results of the same calls on a mathematical sequence without duplicates,
    failing assertions and NULL dereferences included; the pointer loops end,
    SanityCheck never fails, and the elements of other lists in the same heap
    are never touched. *)
Theorem List_refines_sequence `{EqDecision T} (h : gmap Z (ListElement T)) (cs : list (@lcall T)) :
  match run_list seq_call [] cs with
  | Ok (rs, xs) => ∃ h' l' ls, run_list list_call (h, List_new) cs = Ok (rs, (h', l')) ∧
      repr h' l' ls xs ∧ ∀ a, is_Some (h !! a) → h' !! a = h !! a
  | Fail e => run_list list_call (h, List_new) cs = Fail e
  end.
Proof.
  assert (∀ h1 l ls xs, repr h1 l ls xs → (∀ a, is_Some (h !! a) → h1 !! a = h !! a ∧ (a ∉ ls)) →
    match run_list seq_call xs cs with
    | Ok (rs, xs') => ∃ h' l' ls', run_list list_call (h1, l) cs = Ok (rs, (h', l')) ∧
        repr h' l' ls' xs' ∧ ∀ a, is_Some (h !! a) → h' !! a = h !! a
    | Fail e => run_list list_call (h1, l) cs = Fail e
    end) as Hgen.
  { induction cs as [|c cs IH]; intros h1 l ls xs Hr Hframe; cbn [run_list].
    { exists h1, l, ls. split; [done |]. split; [done |]. intros a Ha. by apply Hframe. }
    pose proof (list_call_spec h1 l ls xs c Hr) as Hc.
    destruct (seq_call xs c) as [[r xs1]|e]; cbn [rbind]; [| by rewrite Hc].
    destruct Hc as (h2 & l2 & ls2 & -> & Hr2 & [Hf1 Hf2]). cbn [rbind].
    specialize (IH h2 l2 ls2 xs1 Hr2).
    destruct (run_list seq_call xs1 cs) as [[rs xs']|e]; cbn [rbind].
    - destruct IH as (h' & l' & ls' & -> & Hr' & Hx); [| by exists h', l', ls'].
      intros a Ha. destruct (Hframe a Ha) as [Ha1 Ha2].
      assert (a ∉ ls2) as Ha3 by (intros Hin; destruct Ha as [e He]; specialize (Hf2 a Hin Ha2); congruence).
      split; [by rewrite Hf1 |  done].
    - rewrite IH; [done |].
      intros a Ha. destruct (Hframe a Ha) as [Ha1 Ha2].
      assert (a ∉ ls2) as Ha3 by (intros Hin; destruct Ha as [e' He]; specialize (Hf2 a Hin Ha2); congruence).
      split; [by rewrite Hf1 | done]. }
  apply (Hgen h List_new [] []); [apply repr_empty |]. intros a Ha. split; [done | apply not_elem_of_nil].
Qed.

(** C9: [SortedList] sorts.  Insert distinct items in any order into an empty
    list, then take them off the front one by one: they come out sorted by
    [compare], each exactly once, and those that compare equal in the order in
    which they were inserted. *)
Theorem SortedList_sorts `{EqDecision T} (compare : T → T → Z) h items
    (Hcmp : preorder_cmp compare) (Hn : NoDup items) :
  ∃ h1 l1 out h2 l2, insert_all compare h List_new items = Ok (h1, l1) ∧
    remove_all (length items) h1 l1 = Ok (out, h2, l2) ∧
    Sorted (le_cmp compare) out ∧ out ≡ₚ items ∧
    (∀ k, List.filter (same_key compare k) out = List.filter (same_key compare k) items) ∧
    IsEmpty l2 = true.
Proof.
  destruct (insert_all_spec compare h List_new [] [] items) as (h1 & l1 & ls1 & out & H1 & Hr1 & Hs & Hp & Hst);
    [done | apply repr_empty | constructor | done |].
  destruct (remove_all_spec _ _ _ _ Hr1) as (h2 & l2 & H2 & Hr2).
  exists h1, l1, out, h2, l2. split; [done |]. split; [by rewrite <- H2, Hp |].
  split; [by apply StronglySorted_Sorted |]. split; [done |]. split; [exact Hst |].
  by rewrite (repr_IsEmpty _ _ _ _ Hr2).
Qed.

(** Pairs compared by their first component, as pending interrupts are by time. *)
Definition demo_compare (x y : Z * Z) : Z := Z.sgn (x.1 - y.1).

Lemma SortedList_sorts_witness : ∃ h1 l1 out h2 l2,
  insert_all demo_compare ∅ List_new [(5, 1); (3, 2); (5, 0); (1, 4)] = Ok (h1, l1) ∧
  remove_all 4 h1 l1 = Ok (out, h2, l2) ∧ out ≡ₚ [(5, 1); (3, 2); (5, 0); (1, 4)].
Proof.
  destruct (SortedList_sorts demo_compare ∅ [(5, 1); (3, 2); (5, 0); (1, 4)])
    as (h1 & l1 & out & h2 & l2 & H1 & H2 & _ & Hp & _).
  - unfold preorder_cmp, le_cmp, demo_compare. split; intros; lia.
  - apply (bool_decide_unpack _). vm_compute. exact I.
  - exists h1, l1, out, h2, l2. split; [exact H1 |]. split; [exact H2 | exact Hp].
Defined.
