(* ===== verification/Interrupt.v ===== *)
(** * Simulated time and hardware interrupts (machine/interrupt.h, machine/interrupt.cc,
      machine/stats.h)

    The clock, the sorted list of interrupts that devices have scheduled, and
    the rules by which they fire.  The handlers are [CallBackObj]s: a section
    variable with the law [handled], which says what a handler may do to the
    interrupt state.  The context switch that ends a time slice is a variable
    too; [Threads.exec] supplies it. *)

From S2P Require Import Prelude Machine Lists Mips.
From Stdlib Require Import Sorting.Sorted.
Local Open Scope Z_scope.

Inductive IntStatus := IntOff | IntOn.
Inductive IntType :=
  | TimerInt | DiskInt | ConsoleWriteInt | ConsoleReadInt | NetworkSendInt | NetworkRecvInt.

#[export] Instance IntStatus_eq_dec : EqDecision IntStatus.
Proof. solve_decision. Defined.
#[export] Instance IntType_eq_dec : EqDecision IntType.
Proof. solve_decision. Defined.
#[export] Instance MachineStatus_eq_dec : EqDecision MachineStatus.
Proof. solve_decision. Defined.

Definition UserTick : Z := 1.
Definition SystemTick : Z := 10.
Definition ConsoleTime : Z := 100.
Definition TimerTicks : Z := 100.

Record Statistics := mkStats {
  totalTicks : Z; idleTicks : Z; systemTicks : Z; userTicks : Z;
  numDiskReads : Z; numDiskWrites : Z; numConsoleCharsRead : Z; numConsoleCharsWritten : Z;
  numPageFaults : Z; numPacketsSent : Z; numPacketsRecvd : Z }.

Definition Statistics_new : Statistics := mkStats 0 0 0 0 0 0 0 0 0 0 0.

Definition with_ticks (st : Statistics) (total idle system user : Z) : Statistics :=
  mkStats total idle system user (numDiskReads st) (numDiskWrites st) (numConsoleCharsRead st)
    (numConsoleCharsWritten st) (numPageFaults st) (numPacketsSent st) (numPacketsRecvd st).

Section interrupt.
(** [C]: the objects with a [CallBack] method; [D]: the state of the devices
    and of the kernel's threads. *)
Context {C D : Type}.

Record PendingInterrupt := mkPending { callOnInterrupt : C; when : Z; type : IntType }.

(** The sorted list holds pointers to freshly allocated [PendingInterrupt]s, so
    inserting one never finds it in the list already: [pending] is the sequence
    that [Lists.SortedList_sorts] implements.  The field [status] of the class
    is [Machine.status]. *)
Record Interrupt := mkInterrupt {
  level : IntStatus; pending : list PendingInterrupt; inHandler : bool; yieldOnReturn : bool }.

Record Sim := mkSim {
  interrupt : Interrupt; stats : Statistics; machine : Machine; devices : D }.

Definition with_interrupt (s : Sim) (i : Interrupt) : Sim := mkSim i (stats s) (machine s) (devices s).
Definition with_stats (s : Sim) (st : Statistics) : Sim := mkSim (interrupt s) st (machine s) (devices s).
Definition with_machine (s : Sim) (m : Machine) : Sim := mkSim (interrupt s) (stats s) m (devices s).
Definition with_devices (s : Sim) (d : D) : Sim := mkSim (interrupt s) (stats s) (machine s) d.

Definition with_level (s : Sim) (now : IntStatus) : Sim :=
  let i := interrupt s in
  with_interrupt s (mkInterrupt now (pending i) (inHandler i) (yieldOnReturn i)).
Definition with_pending (s : Sim) (p : list PendingInterrupt) : Sim :=
  let i := interrupt s in with_interrupt s (mkInterrupt (level i) p (inHandler i) (yieldOnReturn i)).
Definition with_inHandler (s : Sim) (b : bool) : Sim :=
  let i := interrupt s in with_interrupt s (mkInterrupt (level i) (pending i) b (yieldOnReturn i)).
Definition with_yieldOnReturn (s : Sim) (b : bool) : Sim :=
  let i := interrupt s in with_interrupt s (mkInterrupt (level i) (pending i) (inHandler i) b).
Definition with_status (s : Sim) (st : MachineStatus) : Sim :=
  with_machine s (setStatus (machine s) st).

Definition getLevel (s : Sim) : IntStatus := level (interrupt s).
Definition getStatus (s : Sim) : MachineStatus := status (machine s).
Definition now (s : Sim) : Z := totalTicks (stats s).

(** ** Operations *)

Definition PendingCompare (x y : PendingInterrupt) : Z :=
  if when x <? when y then -1 else if when x >? when y then 1 else 0.

Definition Interrupt_new : Interrupt := mkInterrupt IntOff [] false false.

Definition ChangeLevel (s : Sim) (now : IntStatus) : Sim := with_level s now.

Definition Schedule (s : Sim) (toCall : C) (fromNow : Z) (type : IntType) : result Sim :=
  when ← int_add (totalTicks (stats s)) fromNow;
  ASSERT (fromNow >? 0);;
  Ok (with_pending s (sinsert PendingCompare (mkPending toCall when type) (pending (interrupt s)))).

Definition YieldOnReturn (s : Sim) : result Sim :=
  ASSERT (inHandler (interrupt s));;
  Ok (with_yieldOnReturn s true).

Section firing.
Variable CallBack : C → Sim → result Sim.

(** The loop of [CheckIfDue]: [n] bounds its rounds. *)
Fixpoint fire (n : nat) (s : Sim) : result Sim :=
  match n with
  | O => Fail OutOfFuel
  | S n =>
      '(next, rest) ← seq_RemoveFront (pending (interrupt s));
      s ← CallBack (callOnInterrupt next) (with_pending s rest);
      match pending (interrupt s) with
      | p :: _ => if when p <=? totalTicks (stats s) then fire n s else Ok s
      | [] => Ok s
      end
  end.

Definition CheckIfDue (s : Sim) (advanceClock : bool) : result (bool * Sim) :=
  ASSERT (bool_decide (level (interrupt s) = IntOff));;
  match pending (interrupt s) with
  | [] => Ok (false, s)
  | next :: _ =>
      let late := when next >? totalTicks (stats s) in
      if late && negb advanceClock then Ok (false, s)
      else
        s ← (if late then
               idle ← int_add (idleTicks (stats s)) (when next - totalTicks (stats s));
               Ok (with_stats s (with_ticks (stats s) (when next) idle
                     (systemTicks (stats s)) (userTicks (stats s))))
             else Ok s);
        m ← DelayedLoad (machine s) 0 0;
        s ← fire (length (pending (interrupt s))) (with_inHandler (with_machine s m) true);
        Ok (true, with_inHandler s false)
  end.

Definition Idle (s : Sim) : result Sim :=
  '(fired, s) ← CheckIfDue (with_status s IdleMode) true;
  if fired then Ok (with_status s SystemMode) else Fail Halted.

(** [Yield old s] is [status = SystemMode; currentThread->Yield (); status = old]:
    another thread may run before the assignment. *)
Variable Yield : MachineStatus → Sim → result Sim.

Definition OneTick (s : Sim) : result Sim :=
  let oldStatus := getStatus s in
  let st := stats s in
  st ← (if decide (oldStatus = SystemMode) then
          total ← int_add (totalTicks st) SystemTick;
          system ← int_add (systemTicks st) SystemTick;
          Ok (with_ticks st total (idleTicks st) system (userTicks st))
        else
          total ← int_add (totalTicks st) UserTick;
          user ← int_add (userTicks st) UserTick;
          Ok (with_ticks st total (idleTicks st) (systemTicks st) user));
  '(_, s) ← CheckIfDue (ChangeLevel (with_stats s st) IntOff) false;
  let s := ChangeLevel s IntOn in
  if yieldOnReturn (interrupt s)
  then Yield oldStatus (with_status (with_yieldOnReturn s false) SystemMode)
  else Ok s.

Definition SetLevel (s : Sim) (now : IntStatus) : result (IntStatus * Sim) :=
  let old := level (interrupt s) in
  ASSERT (bool_decide (now = IntOff) || negb (inHandler (interrupt s)));;
  let s := ChangeLevel s now in
  s ← (if decide (now = IntOn ∧ old = IntOff) then OneTick s else Ok s);
  Ok (old, s).

Definition Enable (s : Sim) : result Sim := '(_, s) ← SetLevel s IntOn; Ok s.
End firing.
End interrupt.
Arguments PendingInterrupt : clear implicits.
Arguments Interrupt : clear implicits.
Arguments Sim : clear implicits.

(** ** The rules of firing *)

Section firing_lemmas.
Context {C D : Type}.
Implicit Types (s : Sim C D) (p : PendingInterrupt C).
#[local] Abbreviation sorted := (StronglySorted (le_cmp (PendingCompare (C := C)))).

Lemma PendingCompare_le p q : le_cmp PendingCompare p q ↔ when p <= when q.
Proof.
  unfold le_cmp, PendingCompare.
  destruct (Z.ltb_spec (when p) (when q)), (Z.gtb_spec (when p) (when q)); lia.
Qed.

Lemma PendingCompare_lt p q : (PendingCompare p q <? 0) = (when p <? when q).
Proof.
  unfold PendingCompare.
  destruct (Z.ltb_spec (when p) (when q)), (Z.gtb_spec (when p) (when q)); done.
Qed.

Lemma PendingCompare_preorder : preorder_cmp (PendingCompare (C := C)).
Proof.
  split.
  - intros x y z. rewrite !PendingCompare_le. lia.
  - intros x y. unfold PendingCompare.
    destruct (Z.ltb_spec (when x) (when y)), (Z.gtb_spec (when x) (when y)),
      (Z.ltb_spec (when y) (when x)), (Z.gtb_spec (when y) (when x)); lia.
Qed.

(** Scheduling several interrupts, one after the other. *)
Definition schedule_all (ps new : list (PendingInterrupt C)) : list (PendingInterrupt C) :=
  foldl (λ ps p, sinsert PendingCompare p ps) ps new.

Lemma schedule_all_sorted ps new : sorted ps → sorted (schedule_all ps new).
Proof.
  revert ps. induction new as [|p new IH]; intros ps Hs; cbn; [done |].
  apply IH, sinsert_sorted; [apply PendingCompare_preorder | done].
Qed.

Lemma schedule_all_Forall (P : PendingInterrupt C → Prop) ps new :
  Forall P ps → Forall P new → Forall P (schedule_all ps new).
Proof.
  revert ps. induction new as [|p new IH]; intros ps Hs Hn; cbn; [done |].
  inversion_clear Hn. apply IH; [| done]. rewrite sinsert_perm. by constructor.
Qed.

(** What is due stays in front of what is scheduled for later. *)
Lemma schedule_all_due t due rest new :
  Forall (λ p, when p <= t) due → Forall (λ p, t < when p) new →
  schedule_all (due ++ rest) new = due ++ schedule_all rest new.
Proof.
  intros Hdue Hnew. revert rest. induction Hnew as [|p new Hp Hnew IH]; intros rest; cbn; [done |].
  rewrite <- IH. f_equal. clear IH. induction Hdue as [|q due Hq Hdue IH]; cbn; [done |].
  rewrite PendingCompare_lt. destruct (Z.ltb_spec (when p) (when q)); [lia |]. by rewrite IH.
Qed.

(** What a handler may do to the simulation: schedule interrupts in the future,
    ask for a context switch, and change the devices' and the threads' state. *)
Definition handled s s' : Prop :=
  level (interrupt s') = level (interrupt s) ∧ inHandler (interrupt s') = inHandler (interrupt s) ∧
  totalTicks (stats s') = totalTicks (stats s) ∧ idleTicks (stats s') = idleTicks (stats s) ∧
  systemTicks (stats s') = systemTicks (stats s) ∧ userTicks (stats s') = userTicks (stats s) ∧
  machine s' = machine s ∧
  ∃ new, Forall (λ p, now s < when p ∧ is_s32 (when p)) new ∧
    pending (interrupt s') = schedule_all (pending (interrupt s)) new.

Lemma handled_refl s : handled s s.
Proof. repeat (split; [done |]). exists []. by split. Qed.

Lemma handled_devices s d : handled s (with_devices s d).
Proof. repeat (split; [done |]). exists []. by split. Qed.

Lemma handled_trans s1 s2 s3 : handled s1 s2 → handled s2 s3 → handled s1 s3.
Proof.
  intros (? & ? & T & ? & ? & ? & ? & n1 & Hn1 & Hp1) (? & ? & ? & ? & ? & ? & ? & n2 & Hn2 & Hp2).
  split; [congruence |]. split; [congruence |]. split; [congruence |]. split; [congruence |].
  split; [congruence |]. split; [congruence |]. split; [congruence |].
  exists (n1 ++ n2). unfold now in *. rewrite T in Hn2. split; [by apply Forall_app |].
  rewrite Hp2, Hp1. unfold schedule_all. by rewrite foldl_app.
Qed.

(** The contract between the interrupt simulation and the device drivers. *)
Class HandlerLaw (CallBack : C → Sim C D → result (Sim C D)) : Prop :=
  handler_law : ∀ c s s', level (interrupt s) = IntOff → inHandler (interrupt s) = true →
    CallBack c s = Ok s' → handled s s'.

Lemma Schedule_handled s c d ty s' : Schedule s c d ty = Ok s' → handled s s'.
Proof.
  unfold Schedule. intros H. inv_res. apply int_add_Ok in Hx as [-> Hs]. apply Z.gtb_lt in Hx0.
  repeat (split; [done |]). eexists [_]. split; [| done].
  repeat constructor; [cbn; unfold now; lia | apply Hs | apply Hs].
Qed.

Lemma YieldOnReturn_handled s s' : YieldOnReturn s = Ok s' → handled s s'.
Proof.
  unfold YieldOnReturn. intros H. inv_res.
  repeat (split; [done |]). exists []. by split.
Qed.

Lemma pending_with_pending s (p : list (PendingInterrupt C)) : pending (interrupt (with_pending s p)) = p.
Proof. done. Qed.

Section with_handlers.
Context (CallBack : C → Sim C D → result (Sim C D)) `{HandlerLaw CallBack}.

(** [fires ps s s']: the handlers of [ps] run one after the other, each taken
    off the list before it runs. *)
Inductive fires : list (PendingInterrupt C) → Sim C D → Sim C D → Prop :=
  | fires_nil s : fires [] s s
  | fires_cons p ps s rest s1 s2 :
      pending (interrupt s) = p :: rest →
      CallBack (callOnInterrupt p) (with_pending s rest) = Ok s1 →
      fires ps s1 s2 → fires (p :: ps) s s2.

(** From [s], the handler of an interrupt fails, called after those before it. *)
Definition fire_fault s (e : fault) : Prop := ∃ ps p rest s1, fires ps s s1 ∧ pending (interrupt s1) = p :: rest ∧
  CallBack (callOnInterrupt p) (with_pending s1 rest) = Fail e.

(** Everything due at the clock's time fires, in order; nothing else does. *)
Lemma fire_spec n s due rest : level (interrupt s) = IntOff → inHandler (interrupt s) = true →
  pending (interrupt s) = due ++ rest → due ≠ [] → (length due <= n)%nat →
  Forall (λ p, when p <= now s) due → Forall (λ p, now s < when p) rest →
  post (fire_fault s) (λ s', fires due s s' ∧ ∃ new,
      Forall (λ p, now s < when p ∧ is_s32 (when p)) new ∧
      pending (interrupt s') = schedule_all rest new ∧
      level (interrupt s') = IntOff ∧ inHandler (interrupt s') = true ∧
      totalTicks (stats s') = totalTicks (stats s) ∧ idleTicks (stats s') = idleTicks (stats s) ∧
      systemTicks (stats s') = systemTicks (stats s) ∧ userTicks (stats s') = userTicks (stats s) ∧
      machine s' = machine s)
    (fire CallBack n s).
Proof.
  revert s due rest. induction n as [|n IH]; intros s due rest Hl Hin Hp Hne Hn Hdue Hrest;
    (destruct due as [|p due]; [done |]); [cbn in Hn; lia |].
  cbn [fire]. rewrite Hp. cbn [app seq_RemoveFront rbind]. inversion_clear Hdue as [|? ? Hp1 Hdue1].
  destruct (CallBack (callOnInterrupt p) (with_pending s (due ++ rest))) as [s1|e] eqn:Hc;
    cbn [rbind]; [| exists [], p, (due ++ rest), s; split; [constructor | by split]].
  pose proof (handler_law _ _ s1 (Hl : level (interrupt (with_pending s (due ++ rest))) = IntOff) Hin Hc)
    as (Hl1 & Hin1 & T1 & T2 & T3 & T4 & Hm1 & new & Hnew & Hp2).
  cbn [with_pending with_interrupt interrupt stats machine level inHandler pending] in *.
  unfold now in *. cbn [stats with_pending with_interrupt] in *.
  rewrite (schedule_all_due (totalTicks (stats s))) in Hp2;
    [| done | eapply Forall_impl; [exact Hnew | by intros ? [? _]]].
  destruct due as [|q due].
  - cbn [app] in Hp2. assert (Forall (λ p, totalTicks (stats s) < when p) (schedule_all rest new)) as Hall.
    { apply schedule_all_Forall; [done |]. eapply Forall_impl; [exact Hnew | by intros ? [? _]]. }
    replace (match pending (interrupt s1) with
      | [] => Ok s1
      | p0 :: _ => if when p0 <=? totalTicks (stats s1) then fire CallBack n s1 else Ok s1 end) with (Ok s1).
    2: { rewrite Hp2. destruct (schedule_all rest new) as [|r rs]; [done |].
         inversion_clear Hall. destruct (Z.leb_spec (when r) (totalTicks (stats s1))); [lia | done]. }
    cbn [post]. split; [by econstructor; [exact Hp | exact Hc | constructor] |].
    exists new. rewrite Hp2, Hl1, Hin1. repeat (split; [done |]). done.
  - rewrite Hp2. cbn [app]. inversion_clear Hdue1 as [|? ? Hq Hdue2].
    destruct (Z.leb_spec (when q) (totalTicks (stats s1))); [| lia].
    assert (Forall (λ p, totalTicks (stats s1) < when p) (schedule_all rest new)) as Hall.
    { rewrite T1. apply schedule_all_Forall; [done |]. eapply Forall_impl; [exact Hnew | by intros ? [? _]]. }
    eapply post_mono; [apply (IH s1 (q :: due) (schedule_all rest new)) | |].
    + congruence.
    + congruence.
    + exact Hp2.
    + done.
    + cbn in *. lia.
    + unfold now. rewrite T1. by constructor.
    + exact Hall.
    + intros e (ps & p1 & rest1 & s2 & Hf & H2). exists (p :: ps), p1, rest1, s2. split; [by econstructor | exact H2].
    + intros s' (Hf & new' & Hnew' & Hp' & Hl' & Hin' & T1' & T2' & T3' & T4' & Hm').
      split; [by econstructor |]. exists (new ++ new'). unfold now in Hnew'. rewrite T1 in Hnew'.
      split; [by apply Forall_app |]. split; [rewrite Hp'; unfold schedule_all; by rewrite foldl_app |].
      split; [done |]. split; [done |]. rewrite T1', T2', T3', T4', Hm'. done.
Qed.

(** A sorted list splits at any time. *)
Lemma sorted_split t ps : sorted ps →
  ∃ due rest, ps = due ++ rest ∧ Forall (λ p, when p <= t) due ∧ Forall (λ p, t < when p) rest.
Proof.
  induction 1 as [|p ps Hs (due & rest & -> & Hd & Hr) Hall]; [by exists [], [] |].
  destruct (Z.le_gt_cases (when p) t).
  - exists (p :: due), rest. split; [done |]. split; [by constructor | done].
  - exists [], (p :: due ++ rest). split; [done |]. split; [constructor |]. constructor; [lia |].
    eapply Forall_impl; [exact Hall |]. intros q Hq%PendingCompare_le. lia.
Qed.

Lemma DelayedLoad_regs (m : Machine) : regs_ok (registers m) →
  ∃ r, DelayedLoad m 0 0 = Ok (with_registers m r) ∧ regs_ok r.
Proof.
  intros Hr. pose proof Hr as (Hl & Hf & lr & Hlr & Hb). unfold DelayedLoad.
  rewrite (aget_lookup (registers m) 37 lr Hlr : aget (registers m) LoadReg = Ok lr). cbn [rbind].
  destruct (lookup_lt_is_Some_2 (registers m) 38) as [lv Hlv]; [lia |].
  rewrite (aget_lookup (registers m) 38 lv Hlv : aget (registers m) LoadValueReg = Ok lv). cbn [rbind].
  destruct (regs_ok_set (registers m) lr lv) as [-> (Hl1 & Hf1 & _)];
    [done | lia | lia | by eapply Forall_lookup_1 in Hlv |].
  cbn [rbind]. set (r1 := <[Z.to_nat lr := lv]> (registers m)) in *.
  rewrite aset_in by (rewrite Hl1; unfold LoadReg; lia). cbn [rbind].
  assert (regs_ok (<[Z.to_nat LoadReg := 0]> r1)) as Hr2.
  { split; [by rewrite length_insert |]. split; [apply Forall_insert; [done | by unfold is_s32] |].
    exists 0. by rewrite (list_lookup_insert_eq r1 37) by lia. }
  destruct (regs_ok_set _ LoadValueReg 0 Hr2) as [-> Hr3]; [unfold LoadValueReg; lia.. | by unfold is_s32 |].
  cbn [rbind]. destruct (regs_ok_set _ 0 0 Hr3) as [-> Hr4]; [lia.. | by unfold is_s32 |].
  cbn [rbind]. eauto.
Qed.

(** The clock and the pending list between two operations: the total is the sum
    of its parts, the list is sorted, and nothing in it is overdue. *)
Definition clock_ok (st : Statistics) : Prop :=
  totalTicks st = idleTicks st + systemTicks st + userTicks st ∧
  0 <= idleTicks st ∧ 0 <= systemTicks st ∧ 0 <= userTicks st ∧ is_s32 (totalTicks st).

Definition sim_ok s : Prop :=
  sorted (pending (interrupt s)) ∧ Forall (λ p, is_s32 (when p)) (pending (interrupt s)) ∧
  clock_ok (stats s) ∧ machine_typed (machine s) ∧ inHandler (interrupt s) = false.

Definition quiet s : Prop := Forall (λ p, now s < when p) (pending (interrupt s)).

(** The time at which [CheckIfDue] looks for interrupts. *)
Definition due_time s (advanceClock : bool) : Z :=
  match pending (interrupt s) with
  | p :: _ => if advanceClock then Z.max (now s) (when p) else now s
  | [] => now s
  end.

(** The state in which the handlers start. *)
Definition firing s s1 t : Prop :=
  pending (interrupt s1) = pending (interrupt s) ∧ now s1 = t ∧ inHandler (interrupt s1) = true ∧
  level (interrupt s1) = IntOff ∧ devices s1 = devices s.

(** A handler fails that [CheckIfDue] calls in [s]. *)
Definition handler_fault s (e : fault) : Prop := ∃ s1 t, firing s s1 t ∧ fire_fault s1 e.

Lemma CheckIfDue_spec s adv : sim_ok s → level (interrupt s) = IntOff →
  post (handler_fault s) (λ '(fired, s'), sim_ok s' ∧ quiet s' ∧ level (interrupt s') = IntOff ∧
      ∃ due rest, pending (interrupt s) = due ++ rest ∧
      Forall (λ p, when p <= due_time s adv) due ∧ Forall (λ p, due_time s adv < when p) rest ∧
      fired = bool_decide (due ≠ []) ∧ now s' = due_time s adv ∧
      if fired then ∃ s1 s2, firing s s1 (due_time s adv) ∧ fires due s1 s2 ∧ s' = with_inHandler s2 false
      else s' = s)
    (CheckIfDue CallBack s adv).
Proof.
  intros (Hs & Hi & Hc & Hr & Hin) Hl. unfold CheckIfDue. rewrite Hl. cbn [rbind].
  rewrite bool_decide_eq_true_2 by done. cbn [rbind].
  destruct (pending (interrupt s)) as [|p ps] eqn:Hp.
  { cbn [post]. unfold due_time, quiet, sim_ok. rewrite Hp. split; [done |]. split; [done |]. split; [done |].
    by exists [], []. }
  set (late := when p >? totalTicks (stats s)).
  inversion_clear Hi as [|? ? Hip Hips]. inversion Hs as [|? ? Hs' Hall]; subst.
  destruct (late && negb adv) eqn:Hla.
  { (* not time yet *)
    apply andb_true_iff in Hla as [Hlate Hadv]. destruct adv; [done |].
    assert (Forall (λ q, now s < when q) (p :: ps)) as Hq.
    { unfold late in Hlate. apply Z.gtb_lt in Hlate. constructor; [done |].
      eapply Forall_impl; [exact Hall |]. intros q Hq%PendingCompare_le. unfold now. lia. }
    cbn [post]. unfold due_time, quiet, sim_ok. rewrite Hp. split; [by repeat (split; [by constructor |]) |].
    split; [done |]. split; [done |]. by exists [], (p :: ps). }
  (* time to fire *)
  set (t := due_time s adv).
  assert (t = if late then when p else now s) as Ht.
  { unfold t, due_time. rewrite Hp. unfold late, now in *. destruct adv.
    - destruct (Z.gtb_spec (when p) (totalTicks (stats s))); lia.
    - by destruct (when p >? totalTicks (stats s)). }
  destruct (if late then _ else Ok s) as [s0|e] eqn:Hs0.
  2: { exfalso. destruct Hc as (Hc1 & ? & ? & ? & Hc2). unfold is_s32 in *. destruct late eqn:Hlate; [| done].
       unfold late in Hlate. apply Z.gtb_lt in Hlate. unfold int_add, is_s32 in Hs0.
       rewrite decide_True in Hs0 by (unfold is_s32; lia). done. }
  assert (interrupt s0 = interrupt s ∧ machine s0 = machine s ∧ devices s0 = devices s ∧ now s0 = t ∧ clock_ok (stats s0))
    as (Hi0 & Hm0 & Hd0 & Ht0 & Hc0).
  { rewrite Ht. destruct late eqn:Hlate; [| injection Hs0 as <-; done].
    apply bind_Ok in Hs0 as (idle & [-> Hidle]%int_add_Ok & [= <-]). repeat (split; [done |]).
    unfold late in Hlate. apply Z.gtb_lt in Hlate. destruct Hc as (? & ? & ? & ? & ?).
    unfold clock_ok; cbn. unfold is_s32 in *. lia. }
  cbn [rbind]. rewrite Hm0. destruct (DelayedLoad_regs (machine s) (proj1 Hr)) as (r & -> & Hr'). cbn [rbind].
  destruct (sorted_split t (p :: ps) Hs) as (due & rest & Hsplit & Hdue & Hrest).
  set (s1 := with_inHandler _ true).
  assert (pending (interrupt s1) = p :: ps) as Hps1 by (cbn; by rewrite Hi0).
  assert (now s1 = t) as Ht1 by exact Ht0.
  assert (due ≠ []) as Hne.
  { intros ->. cbn in Hsplit. subst rest. inversion_clear Hrest. rewrite Ht in *. unfold late, now in *.
    destruct (Z.gtb_spec (when p) (totalTicks (stats s))); lia. }
  assert (firing s s1 t) as Hfir.
  { split; [congruence |]. split; [done |]. split; [done |]. split; [by cbn; rewrite Hi0 | exact Hd0]. }
  eapply post_bind.
  { eapply post_mono; [apply (fire_spec (length (pending (interrupt s0))) s1 due rest);
      [by cbn; rewrite Hi0 | done | congruence | done | | by rewrite Ht1 | by rewrite Ht1] | | intros a Ha; exact Ha].
    - rewrite Hi0, Hp, Hsplit, length_app. lia.
    - intros e He. by exists s1, t. }
  intros s2 (Hf & new & Hnew & Hp2 & Hl2 & Hin2 & T1 & T2 & T3 & T4 & Hm2). cbn [post].
  rewrite Ht1 in Hnew.
  assert (sorted rest ∧ Forall (λ p, is_s32 (when p)) rest) as [Hsr Hir].
  { rewrite Hsplit in Hs. split; [clear -Hs; induction due; [done |]; by inversion Hs; auto |].
    assert (Forall (λ p, is_s32 (when p)) (due ++ rest)) as Ha by (rewrite <- Hsplit; by constructor).
    by apply Forall_app in Ha as [_ ?]. }
  assert (now s2 = t) as Ht2 by (unfold now; rewrite T1; exact Ht1).
  split; [| split; [| split; [exact Hl2 |]]].
  - split; [cbn; rewrite Hp2; by apply schedule_all_sorted |].
    split; [cbn; rewrite Hp2; apply schedule_all_Forall; [done |]; eapply Forall_impl; [exact Hnew | by intros ? [_ ?]] |].
    split; [unfold clock_ok; cbn; rewrite T1, T2, T3, T4; exact Hc0 |].
    split; [cbn; rewrite Hm2; exact (conj Hr' (proj2 Hr)) | done].
  - unfold quiet. cbn. rewrite Hp2. unfold now in *. cbn. rewrite Ht2. apply schedule_all_Forall; [done |].
    eapply Forall_impl; [exact Hnew | by intros ? [? _]].
  - exists due, rest. rewrite bool_decide_eq_true_2 by done. do 4 (split; [done |]).
    split; [exact Ht2 |]. by exists s1, s2.
Qed.
End with_handlers.
End firing_lemmas.

(** ** The clock in motion *)

Section clock.
Context {C D : Type} (CallBack : C → Sim C D → result (Sim C D)) `{HandlerLaw C D CallBack}.
Context (Yield : MachineStatus → Sim C D → result (Sim C D)).
Implicit Types (s : Sim C D).

Definition tick_length s : Z := if decide (getStatus s = SystemMode) then SystemTick else UserTick.

(** What [OneTick] does when the handlers are done. *)
Definition end_tick (old : MachineStatus) s : result (Sim C D) :=
  let s := with_level s IntOn in
  if yieldOnReturn (interrupt s)
  then Yield old (with_status (with_yieldOnReturn s false) SystemMode)
  else Ok s.

Lemma OneTick_spec s : sim_ok s → is_s32 (now s + SystemTick) →
  ∃ st, clock_ok st ∧ totalTicks st = now s + tick_length s ∧
    OneTick CallBack Yield s =
      ('(_, s1) ← CheckIfDue CallBack (with_level (with_stats s st) IntOff) false;
       end_tick (getStatus s) s1).
Proof.
  intros (_ & _ & (Hc & ? & ? & ? & Hb) & _) Ht. unfold OneTick, tick_length, SystemTick, UserTick, now in *.
  unfold is_s32 in *. destruct (decide (getStatus s = SystemMode)).
  - unfold int_add, is_s32. rewrite !decide_True by lia. cbn [rbind].
    eexists. split; [| split; [| reflexivity]]; [| done]. unfold clock_ok, is_s32; cbn. lia.
  - unfold int_add, is_s32. rewrite !decide_True by lia. cbn [rbind].
    eexists. split; [| split; [| reflexivity]]; [| done]. unfold clock_ok, is_s32; cbn. lia.
Qed.

(** Everything the simulated hardware and the kernel do to the clock. *)
Inductive event : Sim C D → Sim C D → Prop :=
  | event_tick s s' : OneTick CallBack Yield s = Ok s' → event s s'
  | event_level s now old s' : SetLevel CallBack Yield s now = Ok (old, s') → event s s'
  | event_schedule s c d ty s' : Schedule s c d ty = Ok s' → event s s'
  | event_idle s s' : level (interrupt s) = IntOff → Idle CallBack s = Ok s' → event s s'.

Definition settled s : Prop := sim_ok s ∧ quiet s.

Lemma settled_level s l : settled s → settled (with_level s l).
Proof. done. Qed.

Lemma settled_status s st : settled s → settled (with_status s st).
Proof. done. Qed.

Lemma settled_flag s b : settled s → settled (with_yieldOnReturn s b).
Proof. done. Qed.

Lemma Schedule_settled s c d ty s' : settled s → Schedule s c d ty = Ok s' → settled s'.
Proof.
  intros [Hok Hq] Hs.
  pose proof (Schedule_handled _ _ _ _ _ Hs) as (_ & Hin & T1 & T2 & T3 & T4 & Hm & new & Hnew & Hp).
  destruct Hok as (Hso & Hi & Hc & Hr & Hih). unfold settled, sim_ok, quiet, now, clock_ok in *.
  rewrite Hp, T1, T2, T3, T4, Hm, Hin. split.
  - split; [by apply schedule_all_sorted |]. split; [apply schedule_all_Forall; [done |] | done].
    eapply Forall_impl; [exact Hnew | by intros ? [_ ?]].
  - apply schedule_all_Forall; [done |]. eapply Forall_impl; [exact Hnew | by intros ? [? _]].
Qed.

Context (Yield_settled : ∀ old s s', settled s → Yield old s = Ok s' → settled s').

Lemma OneTick_settled s s' : sim_ok s → OneTick CallBack Yield s = Ok s' → settled s'.
Proof.
  intros Hok Ht.
  assert (∃ st s1 fired, clock_ok st ∧
    CheckIfDue CallBack (with_level (with_stats s st) IntOff) false = Ok (fired, s1) ∧
    end_tick (getStatus s) s1 = Ok s') as (st & s1 & fired & Hst & Hc & He).
  { pose proof Hok as (_ & _ & (Hc & ? & ? & ? & Hb) & _). unfold OneTick in Ht.
    apply bind_Ok in Ht as (st & Hst & Ht). apply bind_Ok in Ht as ([fired s1] & Hf & Ht).
    exists st, s1, fired. split; [| done]. case_decide; inv_res.
    all: repeat match goal with H : int_add _ _ = Ok _ |- _ => apply int_add_Ok in H as [-> ?] end.
    all: unfold clock_ok, is_s32, SystemTick, UserTick in *; cbn; lia. }
  pose proof (CheckIfDue_spec CallBack (with_level (with_stats s st) IntOff) false) as Hspec.
  rewrite Hc in Hspec. cbn [post] in Hspec.
  destruct Hspec as (Hs1 & Hq & _); [| done |].
  { destruct Hok as (? & ? & _ & ? & ?). repeat (split; [done |]). done. }
  unfold end_tick in He. destruct (yieldOnReturn _); [| injection He as <-; by split].
  eapply Yield_settled; [| exact He]. by split.
Qed.

Lemma event_settled s s' : settled s → event s s' → settled s'.
Proof.
  intros [Hok Hq] Hev. destruct Hev as [s s' Ht|s now old s' Hl|s c d ty s' Hs|s s' Hl Hi].
  - by eapply OneTick_settled.
  - unfold SetLevel in Hl. inv_res. case_decide as Hd; [| inv_res; by split].
    eapply OneTick_settled; [| exact Hx0]. exact Hok.
  - by eapply Schedule_settled.
  - unfold Idle in Hi. apply bind_Ok in Hi as ([fired s1] & Hc & Hi).
    pose proof (CheckIfDue_spec CallBack (with_status s IdleMode) true Hok Hl) as Hspec.
    rewrite Hc in Hspec. cbn [post] in Hspec. destruct Hspec as (Hs1 & Hq1 & _).
    destruct fired; [| done]. injection Hi as <-. by split.
Qed.
End clock.

(** ** Properties *)

(** C28: what a tick does.  As long as the clock does not overflow, [OneTick]
    advances it by the tick of the current mode, then runs the handlers of
    exactly the interrupts that are due by then, each once, taken off the list
    before it runs, in the order of their times, in a state with interrupts
    disabled and [inHandler] set; nothing overdue is left behind, not even by a
    handler that schedules more; interrupts are enabled again, and the CPU is
    given away precisely when a handler asked for it.  No other fault arises
    than those of the handlers and of the switch itself. *)
Theorem OneTick_fires {C D} (CallBack : C → Sim C D → result (Sim C D)) Yield `{HandlerLaw C D CallBack} s
    (Hs : sim_ok s) (Htime : is_s32 (now s + SystemTick)) :
  let t := now s + tick_length s in
  post (λ e, handler_fault CallBack s e ∨ ∃ old s1, Yield old s1 = Fail e)
    (λ s', ∃ due rest s0 s1 s2, pending (interrupt s) = due ++ rest ∧
      Forall (λ p, when p <= t) due ∧ Forall (λ p, t < when p) rest ∧
      (due = [] → s1 = s0) ∧ now s0 = t ∧ devices s0 = devices s ∧
      pending (interrupt s0) = pending (interrupt s) ∧ level (interrupt s0) = IntOff ∧
      (due ≠ [] → ∃ sa sb, firing s0 sa t ∧ fires CallBack due sa sb ∧ s1 = with_inHandler sb false) ∧
      now s1 = t ∧ quiet s1 ∧ inHandler (interrupt s1) = false ∧
      s2 = with_level s1 IntOn ∧
      if yieldOnReturn (interrupt s1)
      then Yield (getStatus s) (with_status (with_yieldOnReturn s2 false) SystemMode) = Ok s'
      else s' = s2)
    (OneTick CallBack Yield s).
Proof.
  intros t. destruct (OneTick_spec CallBack Yield s Hs Htime) as (st & Hst & Ht & ->).
  set (s0 := with_level (with_stats s st) IntOff).
  assert (due_time s0 false = t) as Hdt.
  { assert (now s0 = t) as Hn by exact Ht. unfold due_time. rewrite Hn. by destruct (pending _). }
  eapply post_bind.
  { eapply post_mono; [apply (CheckIfDue_spec CallBack s0 false) | by left | intros a Ha; exact Ha]; [| done].
    destruct Hs as (? & ? & _ & ? & ?). repeat (split; [done |]). done. }
  intros [fired s1] ((_ & _ & _ & _ & Hin) & Hq & Hl & due & rest & Hp & Hdue & Hrest & -> & Hnow & Hf). cbn beta.
  rewrite Hdt in *. unfold end_tick.
  change (yieldOnReturn (interrupt (with_level s1 IntOn))) with (yieldOnReturn (interrupt s1)).
  assert (∀ s', (if yieldOnReturn (interrupt s1)
      then Yield (getStatus s) (with_status (with_yieldOnReturn (with_level s1 IntOn) false) SystemMode) = Ok s'
      else s' = with_level s1 IntOn) → ∃ due rest s0 s1 s2, pending (interrupt s) = due ++ rest ∧
      Forall (λ p, when p <= t) due ∧ Forall (λ p, t < when p) rest ∧
      (due = [] → s1 = s0) ∧ now s0 = t ∧ devices s0 = devices s ∧
      pending (interrupt s0) = pending (interrupt s) ∧ level (interrupt s0) = IntOff ∧
      (due ≠ [] → ∃ sa sb, firing s0 sa t ∧ fires CallBack due sa sb ∧ s1 = with_inHandler sb false) ∧
      now s1 = t ∧ quiet s1 ∧ inHandler (interrupt s1) = false ∧ s2 = with_level s1 IntOn ∧
      if yieldOnReturn (interrupt s1)
      then Yield (getStatus s) (with_status (with_yieldOnReturn s2 false) SystemMode) = Ok s'
      else s' = s2) as Hend.
  { intros s' Hs'. exists due, rest, s0, s1, (with_level s1 IntOn).
    split; [exact Hp |]. split; [done |]. split; [done |]. split; [intros ->; exact Hf |].
    split; [exact Ht |]. split; [done |]. split; [done |]. split; [done |].
    split; [intros Hne; by rewrite bool_decide_eq_true_2 in Hf by done |].
    split; [exact Hnow |]. split; [done |]. split; [done |]. split; [done | exact Hs']. }
  destruct (yieldOnReturn (interrupt s1)); cbn [post]; [| by apply Hend].
  destruct (Yield _ _) as [s'|e] eqn:Hy; cbn [post]; [by apply Hend | right; by eexists _, _].
Qed.

(** A clock device: handler [n] schedules itself [n] ticks later, asks for a
    context switch, and logs that it ran. *)
Definition demo_CallBack (n : Z) (s : Sim Z (list Z)) : result (Sim Z (list Z)) :=
  s ← Schedule s n n TimerInt;
  s ← YieldOnReturn s;
  Ok (with_devices s (devices s ++ [n])).

#[export] Instance demo_HandlerLaw : HandlerLaw demo_CallBack.
Proof.
  intros c s s' _ _ Hc. unfold demo_CallBack in Hc. inv_res.
  eapply handled_trans; [by eapply Schedule_handled |].
  eapply handled_trans; [by eapply YieldOnReturn_handled |]. apply handled_devices.
Qed.

Definition demo_Yield (old : MachineStatus) (s : Sim Z (list Z)) : result (Sim Z (list Z)) :=
  Ok (with_status s old).

(** A machine without memory: the interrupt simulation looks at the registers only. *)
Definition blank_memory : list Z := replicate (Z.to_nat MemorySize) 0.
Definition demo_machine : Machine := mkMachine (replicate 40 0) blank_memory None None 0 SystemMode.

Lemma demo_typed : machine_typed demo_machine.
Proof.
  split; [split; [done |]; split; [apply Forall_replicate; unfold is_s32; lia |]; exists 0; split; [reflexivity | lia] |].
  split; [vm_compute; reflexivity |]. apply Forall_replicate. unfold is_byte. lia.
Qed.

Definition demo_sim : Sim Z (list Z) :=
  mkSim (mkInterrupt IntOn [mkPending 5 7 TimerInt; mkPending 3 9 TimerInt; mkPending 4 30 TimerInt] false false)
    Statistics_new demo_machine [].

Lemma demo_sim_ok : sim_ok demo_sim.
Proof.
  split; [repeat constructor; vm_compute; congruence |]. split; [repeat constructor; vm_compute; congruence |].
  split; [unfold clock_ok, is_s32; cbn; lia |]. split; [exact demo_typed | done].
Qed.

Lemma OneTick_fires_witness : ∃ s', OneTick demo_CallBack demo_Yield demo_sim = Ok s' ∧
  devices s' = [5; 3] ∧ getStatus s' = SystemMode ∧
  ∃ due rest, pending (interrupt demo_sim) = due ++ rest ∧
    Forall (λ p, when p <= 10) due ∧ Forall (λ p, 10 < when p) rest.
Proof.
  pose proof (OneTick_fires demo_CallBack demo_Yield demo_sim demo_sim_ok ltac:(by unfold is_s32)) as H.
  destruct (OneTick demo_CallBack demo_Yield demo_sim) as [s'|e] eqn:He; [| cbv -[blank_memory] in He; discriminate].
  destruct H as (due & rest & s0 & s1 & s2 & Hp & Hdue & Hrest & _).
  exists s'. split; [reflexivity |]. cbv -[blank_memory] in He. injection He as <-.
  split; [reflexivity |]. split; [reflexivity |]. exists due, rest. split; [exact Hp |]. split; [exact Hdue | exact Hrest].
Defined.

(** The clock is sound.  From a freshly built [Interrupt] and zeroed
    statistics, whatever sequence of ticks, level changes, schedulings and idle
    periods the machine goes through: the total time is the sum of idle, system
    and user time; no scheduled interrupt is ever overdue; the pending list
    stays sorted; and no handler is running between two operations. *)
Theorem clock_sound {C D} (CallBack : C → Sim C D → result (Sim C D)) Yield `{HandlerLaw C D CallBack}
    (Hyield : ∀ old s s', settled s → Yield old s = Ok s' → settled s') s s'
    (Hinit : interrupt s = Interrupt_new) (Hstats : stats s = Statistics_new)
    (Hregs : machine_typed (machine s)) (Hrun : rtc (event CallBack Yield) s s') :
  totalTicks (stats s') = idleTicks (stats s') + systemTicks (stats s') + userTicks (stats s') ∧
  Forall (λ p, now s' < when p) (pending (interrupt s')) ∧
  StronglySorted (λ p q, when p <= when q) (pending (interrupt s')) ∧
  inHandler (interrupt s') = false.
Proof.
  assert (settled s) as Hs.
  { unfold settled, sim_ok, quiet. rewrite Hinit, Hstats. split; [| constructor].
    split; [constructor |]. split; [constructor |]. split; [unfold clock_ok, is_s32; cbn; lia | done]. }
  assert (settled s') as [(Hso & _ & Hc & _ & Hin) Hq].
  { clear Hinit Hstats Hregs. induction Hrun as [|sa sb sc Hev Hrun IH]; [done |]. apply IH. by eapply event_settled. }
  split; [apply Hc |]. split; [exact Hq |]. split; [| done].
  clear -Hso. induction Hso as [|p ps Hs IH Hall]; constructor; [done |].
  eapply Forall_impl; [exact Hall | intros q Hpq; by apply PendingCompare_le].
Qed.

Lemma clock_sound_witness : ∃ s', Schedule (mkSim Interrupt_new Statistics_new demo_machine []) 4 25 TimerInt = Ok s' ∧
  ∃ s'', Idle demo_CallBack s' = Ok s'' ∧ totalTicks (stats s'') = 25 ∧
  totalTicks (stats s'') = idleTicks (stats s'') + systemTicks (stats s'') + userTicks (stats s'').
Proof.
  eexists. split; [reflexivity |]. eexists. split; [cbv -[blank_memory]; reflexivity |]. split; [reflexivity |].
  apply (clock_sound demo_CallBack demo_Yield) with (s := mkSim Interrupt_new Statistics_new demo_machine []).
  - intros old s s' Hs Hy. unfold demo_Yield in Hy. injection Hy as <-. exact Hs.
  - reflexivity.
  - reflexivity.
  - exact demo_typed.
  - eapply rtc_l; [eapply (event_schedule _ _ _ 4 25 TimerInt); reflexivity |].
    eapply rtc_l; [eapply event_idle; [reflexivity | cbv -[blank_memory]; reflexivity] |]. apply rtc_refl.
Defined.
