(* ===== verification/Threads.v ===== *)
(** * Threads, the scheduler and synchronisation (threads/thread.h, thread.cc,
      scheduler.cc, synch.h, synch.cc)

    Nachos is preempted only where simulated time advances: when interrupts are
    enabled again and after a user instruction.  Between two such points kernel
    code is atomic, and what a suspended thread has left to do is on its host
    stack.  Here that stack is a list of [instr]: an operation not yet started
    or the rest of one that was interrupted by a context switch.  [exec] runs
    the current thread up to the end of its topmost instruction, calling the
    interrupt simulation exactly where the code does.

    What threads do besides synchronising is a parameter: [client] for kernel
    code, [user_step] for one instruction of the user program with the system
    call it may make, [CallBack] for the interrupt handlers. *)

From S2P Require Import Prelude Machine Lists HostFile AddrSpace Interrupt.
Local Open Scope Z_scope.

Inductive ThreadStatus := JUST_CREATED | RUNNING | READY | BLOCKED.
#[export] Instance ThreadStatus_eq_dec : EqDecision ThreadStatus.
Proof. solve_decision. Defined.

Definition STACK_FENCEPOST : Z := 0xdedbeef.

(** The address of a semaphore: one the kernel made itself, the one inside lock
    [l], or one allocated by [Condition::Wait]. *)
Inductive semid := SUser (n : Z) | SLock (l : Z) | SWait (n : Z).
#[export] Instance semid_eq_dec : EqDecision semid.
Proof. solve_decision. Defined.
#[export] Program Instance semid_countable : Countable semid :=
  inj_countable'
    (λ s, match s with SUser n => inl (inl n) | SLock n => inl (inr n) | SWait n => inr n end)
    (λ x, match x with inl (inl n) => SUser n | inl (inr n) => SLock n | inr n => SWait n end) _.
Next Obligation. by intros []. Qed.

Section threads.
Context {C X E : Type}.

Inductive instr :=
  (* operations *)
  | IP (s : semid) | IV (s : semid)
  | IAcquire (l : Z) | IRelease (l : Z)
  | IWait (c l : Z) | ISignal (c l : Z) | IBroadcast (c l : Z)
  | IYield | IFinish | IFork (body : list instr) | ISetLevel (now : IntStatus)
  | IExecute (a : AddrSpace) | IRun | ICall (x : X)
  (* the rest of an operation *)
  | ILoop (s : semid) (old : IntStatus)   (* Semaphore::P, at the head of its loop *)
  | IHolder (l : Z)                       (* Lock::Acquire, after P *)
  | IDelete (w : semid)                   (* Condition::Wait, after Acquire *)
  | IIdle (finishing : bool)              (* Thread::Sleep, at the head of its loop *)
  | IResume                               (* Scheduler::Run, after SWITCH *)
  | IBegin                                (* ThreadRoot, at its start *)
  | IStatus (st : MachineStatus)          (* Interrupt::OneTick, after Yield *)
  | ITick.                                (* Machine::Run, after OneInstruction *)

(** [space]: the address space, if any; [stack]: the word at the bottom of the
    stack, [None] for the main thread, whose stack is the host's. *)
Record Thread := mkThread {
  tstatus : ThreadStatus; code : list instr; space : option AddrSpace;
  userRegisters : list Z; stack : option Z }.

Record Semaphore := mkSem { value : Z; queue : list Z }.

(** [kernel->currentThread], the scheduler's fields, and every thread, semaphore,
    lock (its holder) and condition (its queue of semaphores) alive. *)
Record Threads := mkThreads {
  currentThread : Z; readyList : list Z; toBeDestroyed : option Z;
  threads : gmap Z Thread; semaphores : gmap semid Semaphore;
  locks : gmap Z (option Z); conditions : gmap Z (list semid);
  nextThread : Z; nextWaiter : Z; env : E }.

Implicit Types (k : Threads).

Definition with_current k t := mkThreads t (readyList k) (toBeDestroyed k) (threads k) (semaphores k)
  (locks k) (conditions k) (nextThread k) (nextWaiter k) (env k).
Definition with_ready k r := mkThreads (currentThread k) r (toBeDestroyed k) (threads k) (semaphores k)
  (locks k) (conditions k) (nextThread k) (nextWaiter k) (env k).
Definition with_destroyed k d := mkThreads (currentThread k) (readyList k) d (threads k) (semaphores k)
  (locks k) (conditions k) (nextThread k) (nextWaiter k) (env k).
Definition with_threads k m := mkThreads (currentThread k) (readyList k) (toBeDestroyed k) m (semaphores k)
  (locks k) (conditions k) (nextThread k) (nextWaiter k) (env k).
Definition with_semaphores k m := mkThreads (currentThread k) (readyList k) (toBeDestroyed k) (threads k) m
  (locks k) (conditions k) (nextThread k) (nextWaiter k) (env k).
Definition with_locks k m := mkThreads (currentThread k) (readyList k) (toBeDestroyed k) (threads k)
  (semaphores k) m (conditions k) (nextThread k) (nextWaiter k) (env k).
Definition with_conditions k m := mkThreads (currentThread k) (readyList k) (toBeDestroyed k) (threads k)
  (semaphores k) (locks k) m (nextThread k) (nextWaiter k) (env k).
Definition with_nextThread k n := mkThreads (currentThread k) (readyList k) (toBeDestroyed k) (threads k)
  (semaphores k) (locks k) (conditions k) n (nextWaiter k) (env k).
Definition with_nextWaiter k n := mkThreads (currentThread k) (readyList k) (toBeDestroyed k) (threads k)
  (semaphores k) (locks k) (conditions k) (nextThread k) n (env k).
Definition with_env k e := mkThreads (currentThread k) (readyList k) (toBeDestroyed k) (threads k)
  (semaphores k) (locks k) (conditions k) (nextThread k) (nextWaiter k) e.

(** Dereferencing a pointer to an object that is not alive is a fault. *)
Definition find {K V} `{Countable K} (m : gmap K V) (x : K) : result V :=
  match m !! x with Some v => Ok v | None => Fail NullDeref end.

Definition with_status_of (th : Thread) st := mkThread st (code th) (space th) (userRegisters th) (stack th).
Definition with_code (th : Thread) c := mkThread (tstatus th) c (space th) (userRegisters th) (stack th).
Definition with_space (th : Thread) a := mkThread (tstatus th) (code th) a (userRegisters th) (stack th).
Definition with_userRegisters (th : Thread) r := mkThread (tstatus th) (code th) (space th) r (stack th).

Definition set_thread k t th := with_threads k (<[t := th]> (threads k)).
Definition current_code k (c : list instr) : result Threads :=
  th ← find (threads k) (currentThread k); Ok (set_thread k (currentThread k) (with_code th c)).
Definition push k (ins : list instr) : result Threads :=
  th ← find (threads k) (currentThread k); current_code k (ins ++ code th).

(** ** On the threads alone *)

(** The constructor leaves [userRegisters] uninitialised; nothing reads it before
    [SaveUserState] has written it. *)
Definition Thread_ctor : Thread :=
  mkThread JUST_CREATED [] None (replicate (Z.to_nat NumTotalRegs) 0) None.

(** ThreadRoot runs [Begin], the forked function and [Finish]. *)
Definition StackAllocate (th : Thread) (body : list instr) : Thread :=
  mkThread (tstatus th) (IBegin :: body ++ [IFinish]) (space th) (userRegisters th) (Some STACK_FENCEPOST).

Definition Thread_new (body : list instr) : Thread := StackAllocate Thread_ctor body.

Definition Scheduler_new : list Z * option Z := ([], None).
Definition Semaphore_new (initialValue : Z) : Semaphore := mkSem initialValue [].

(** [Scheduler::ReadyToRun] without its check of the interrupt level. *)
Definition make_ready k (t : Z) : result Threads :=
  th ← find (threads k) t;
  let k := set_thread k t (with_status_of th READY) in
  r ← seq_Append (readyList k) t;
  Ok (with_ready k r).

(** The body of [Semaphore::V]. *)
Definition wake k (s : semid) : result Threads :=
  sem ← find (semaphores k) s;
  '(k, q) ← match queue sem with
    | [] => Ok (k, [])
    | _ :: _ => '(t, q) ← seq_RemoveFront (queue sem); k ← make_ready k t; Ok (k, q)
    end;
  v ← int_add (value sem) 1;
  Ok (with_semaphores k (<[s := mkSem v q]> (semaphores k))).

Definition CheckOverflow (th : Thread) : result unit :=
  match stack th with Some w => ASSERT (w =? STACK_FENCEPOST) | None => Ok tt end.

Definition CheckToBeDestroyed k : result Threads :=
  match toBeDestroyed k with
  | Some t =>
      (* Thread::~Thread *)
      ASSERT (negb (t =? currentThread k));;
      Ok (with_destroyed (with_threads k (delete t (threads k))) None)
  | None => Ok k
  end.

Definition IsHeldByCurrentThread k (l : Z) : result bool :=
  h ← find (locks k) l; Ok (bool_decide (h = Some (currentThread k))).

(** ** Operations *)

Implicit Types (s : Sim C Threads).

Definition lift s (r : result Threads) : result (Sim C Threads) := k ← r; Ok (with_devices s k).
Definition pushs s (ins : list instr) := lift s (push (devices s) ins).

Definition SaveUserState s (t : Z) : result (Sim C Threads) :=
  th ← find (threads (devices s)) t;
  r ← for_each 0 NumTotalRegs (λ i r, v ← ReadRegister (machine s) i; aset r i v) (userRegisters th);
  Ok (with_devices s (set_thread (devices s) t (with_userRegisters th r))).

Definition RestoreUserState s (t : Z) : result (Sim C Threads) :=
  th ← find (threads (devices s)) t;
  m ← for_each 0 NumTotalRegs (λ i m, v ← aget (userRegisters th) i; WriteRegister m i v) (machine s);
  Ok (with_machine s m).

Definition ReadyToRun s (t : Z) : result (Sim C Threads) :=
  ASSERT (bool_decide (getLevel s = IntOff));;
  lift s (make_ready (devices s) t).

Definition FindNextToRun s : result (option Z * Sim C Threads) :=
  ASSERT (bool_decide (getLevel s = IntOff));;
  match readyList (devices s) with
  | [] => Ok (None, s)
  | _ :: _ =>
      '(t, r) ← seq_RemoveFront (readyList (devices s));
      Ok (Some t, with_devices s (with_ready (devices s) r))
  end.

(** [Scheduler::Run] up to SWITCH; [IResume], left on the old thread's stack, is
    the rest of it. *)
Definition Run s (nextThread : Z) (finishing : bool) : result (Sim C Threads) :=
  let oldThread := currentThread (devices s) in
  ASSERT (bool_decide (getLevel s = IntOff));;
  s ← (if finishing then
         ASSERT (bool_decide (toBeDestroyed (devices s) = None));;
         Ok (with_devices s (with_destroyed (devices s) (Some oldThread)))
       else Ok s);
  th ← find (threads (devices s)) oldThread;
  s ← match space th with Some _ => SaveUserState s oldThread | None => Ok s end;
  CheckOverflow th;;
  s ← pushs s [IResume];
  let k := with_current (devices s) nextThread in
  next ← find (threads k) nextThread;
  Ok (with_devices s (set_thread k nextThread (with_status_of next RUNNING))).

(** ... and from SWITCH on, in the thread that was switched to. *)
Definition Run_resume s : result (Sim C Threads) :=
  ASSERT (bool_decide (getLevel s = IntOff));;
  s ← lift s (CheckToBeDestroyed (devices s));
  let t := currentThread (devices s) in
  th ← find (threads (devices s)) t;
  match space th with
  | Some a => s ← RestoreUserState s t; Ok (with_machine s (RestoreState (machine s) a))
  | None => Ok s
  end.

Variable CallBack : C → Sim C Threads → result (Sim C Threads).
Variable client : X → Sim C Threads → result (list instr * Sim C Threads).
Variable user_step : Machine → result (list instr * Machine).

(** [SetLevel (IntOff)] never advances the clock. *)
Definition SetOff s : result (IntStatus * Sim C Threads) := SetLevel CallBack (λ _, Ok) s IntOff.

Definition Yield s : result (Sim C Threads) :=
  '(old, s) ← SetOff s;
  '(next, s) ← FindNextToRun s;
  s ← pushs s [ISetLevel old];
  match next with
  | Some t => s ← ReadyToRun s (currentThread (devices s)); Run s t false
  | None => Ok s
  end.

(** The context switch at the end of [OneTick]. *)
Definition TickYield (old : MachineStatus) s : result (Sim C Threads) :=
  s ← pushs s [IStatus old]; Yield s.

Definition SetLevelK s (now : IntStatus) : result (IntStatus * Sim C Threads) :=
  SetLevel CallBack TickYield s now.

(** [Thread::Sleep] up to its loop. *)
Definition Sleep s (finishing : bool) : result (Sim C Threads) :=
  ASSERT (bool_decide (getLevel s = IntOff));;
  let k := devices s in
  th ← find (threads k) (currentThread k);
  pushs (with_devices s (set_thread k (currentThread k) (with_status_of th BLOCKED))) [IIdle finishing].

(** One round of the loop of [Thread::Sleep]. *)
Definition Sleep_loop s (finishing : bool) : result (Sim C Threads) :=
  '(next, s) ← FindNextToRun s;
  match next with
  | Some t => Run s t finishing
  | None => s ← pushs s [IIdle finishing]; Idle CallBack s
  end.

Definition Semaphore_V s (sem : semid) : result (Sim C Threads) :=
  '(old, s) ← SetOff s;
  s ← lift s (wake (devices s) sem);
  '(_, s) ← SetLevelK s old;
  Ok s.

Definition Semaphore_P_loop s (sem : semid) (old : IntStatus) : result (Sim C Threads) :=
  let k := devices s in
  v ← find (semaphores k) sem;
  if value v =? 0 then
    q ← seq_Append (queue v) (currentThread k);
    s ← pushs (with_devices s (with_semaphores k (<[sem := mkSem (value v) q]> (semaphores k))))
          [ILoop sem old];
    Sleep s false
  else
    n ← int_add (value v) (-1);
    '(_, s) ← SetLevelK (with_devices s (with_semaphores k (<[sem := mkSem n (queue v)]> (semaphores k)))) old;
    Ok s.

Definition Lock_Release s (l : Z) : result (Sim C Threads) :=
  held ← IsHeldByCurrentThread (devices s) l;
  ASSERT held;;
  Semaphore_V (with_devices s (with_locks (devices s) (<[l := None]> (locks (devices s))))) (SLock l).

Definition Condition_Wait s (c l : Z) : result (Sim C Threads) :=
  let k := devices s in
  held ← IsHeldByCurrentThread k l;
  ASSERT held;;
  let waiter := SWait (nextWaiter k) in
  let k := with_nextWaiter (with_semaphores k (<[waiter := Semaphore_new 0]> (semaphores k))) (nextWaiter k + 1) in
  q ← find (conditions k) c;
  q ← seq_Append q waiter;
  pushs (with_devices s (with_conditions k (<[c := q]> (conditions k))))
    [IRelease l; IP waiter; IAcquire l; IDelete waiter].

Definition Condition_Signal s (c l : Z) : result (Sim C Threads) :=
  held ← IsHeldByCurrentThread (devices s) l;
  ASSERT held;;
  q ← find (conditions (devices s)) c;
  match q with
  | [] => Ok s
  | _ :: _ =>
      '(waiter, q) ← seq_RemoveFront q;
      Semaphore_V (with_devices s (with_conditions (devices s) (<[c := q]> (conditions (devices s))))) waiter
  end.

(** One round of the loop of [Condition::Broadcast]. *)
Definition Condition_Broadcast s (c l : Z) : result (Sim C Threads) :=
  q ← find (conditions (devices s)) c;
  match q with [] => Ok s | _ :: _ => pushs s [ISignal c l; IBroadcast c l] end.

(** [new Thread] and its [Fork]: [body] is what it will run. *)
Definition Thread_Fork s (body : list instr) : result (Sim C Threads) :=
  let k := devices s in
  let t := nextThread k in
  let s := with_devices s (with_nextThread (set_thread k t (Thread_new body)) (t + 1)) in
  '(old, s) ← SetOff s;
  s ← ReadyToRun s t;
  '(_, s) ← SetLevelK s old;
  Ok s.

Definition Thread_Begin s : result (Sim C Threads) :=
  s ← lift s (CheckToBeDestroyed (devices s));
  Enable CallBack TickYield s.

Definition Thread_Finish s : result (Sim C Threads) :=
  '(_, s) ← SetOff s; Sleep s true.

(** [AddrSpace::Execute] *)
Definition Thread_Execute s (a : AddrSpace) : result (Sim C Threads) :=
  let k := devices s in
  th ← find (threads k) (currentThread k);
  m ← Execute (machine s) a;
  pushs (with_machine (with_devices s (set_thread k (currentThread k) (with_space th (Some a)))) m) [IRun].

(** [Semaphore::P] up to its loop. *)
Definition Semaphore_P s (sem : semid) : result (Sim C Threads) :=
  '(old, s) ← SetOff s; pushs s [ILoop sem old].

Definition Lock_Acquire s (l : Z) : result (Sim C Threads) := pushs s [IP (SLock l); IHolder l].

(** ... and its assignment to [lockHolder]. *)
Definition Lock_Acquire_end s (l : Z) : result (Sim C Threads) :=
  _ ← find (locks (devices s)) l;
  Ok (with_devices s (with_locks (devices s) (<[l := Some (currentThread (devices s))]> (locks (devices s))))).

(** [delete waiter] at the end of [Condition::Wait]. *)
Definition Condition_Wait_end s (w : semid) : result (Sim C Threads) :=
  Ok (with_devices s (with_semaphores (devices s) (delete w (semaphores (devices s))))).

(** One round of the loop of [Machine::Run]. *)
Definition Machine_Run s : result (Sim C Threads) :=
  '(ins, m) ← user_step (machine s); pushs (with_machine s m) (ins ++ [ITick; IRun]).

(** Run the current thread's topmost instruction. *)
Definition exec s : result (Sim C Threads) :=
  let k := devices s in
  th ← find (threads k) (currentThread k);
  match code th with
  | [] => Fail Undefined
  | i :: rest =>
      s ← lift s (current_code k rest);
      match i with
      | IP sem => Semaphore_P s sem
      | ILoop sem old => Semaphore_P_loop s sem old
      | IV sem => Semaphore_V s sem
      | IAcquire l => Lock_Acquire s l
      | IHolder l => Lock_Acquire_end s l
      | IRelease l => Lock_Release s l
      | IWait c l => Condition_Wait s c l
      | ISignal c l => Condition_Signal s c l
      | IBroadcast c l => Condition_Broadcast s c l
      | IDelete w => Condition_Wait_end s w
      | IYield => Yield s
      | IFinish => Thread_Finish s
      | IFork body => Thread_Fork s body
      | IBegin => Thread_Begin s
      | IResume => Run_resume s
      | IIdle finishing => Sleep_loop s finishing
      | ISetLevel now => '(_, s) ← SetLevelK s now; Ok s
      | IStatus st => Ok (with_status s st)
      | IExecute a => Thread_Execute s a
      | IRun => Machine_Run s
      | ITick => OneTick CallBack TickYield s
      | ICall x => '(ins, s) ← client x s; pushs s ins
      end
  end.
End threads.
Arguments instr : clear implicits.
Arguments Thread : clear implicits.
Arguments Threads : clear implicits.
