(* ===== verification/Sched.v ===== *)
(** * The threads in order: what the scheduler guarantees

    [micro] describes one uninterrupted change of the threads' state; [Synch]
    shows that the kernel's code ([Threads.exec]) is a sequence of such changes,
    so that an invariant of [micro] holds in every reachable state.  This file
    has the first invariant: every thread is running, ready, or waiting in the
    one queue it asked to wait in, and none is ever lost ([sched_inv]). *)

From S2P Require Import Prelude Machine Lists Mips HostFile AddrSpace Interrupt Threads.
Local Open Scope Z_scope.

Section sched.
Context {X E : Type}.
#[local] Abbreviation instr := (instr X).
#[local] Abbreviation Thread := (Thread X).
#[local] Abbreviation Threads := (Threads X E).
Implicit Types (k : Threads) (th : Thread) (i : instr) (c ins : list instr) (t : Z).

(** ** Shapes of what a thread has left to do *)

(** What kernel code outside this component may ask a thread to do: no rest of
    an interrupted operation, no semaphore that belongs to a lock or a condition. *)
Fixpoint static (i : instr) : bool :=
  match i with
  | IP s | IV s => match s with SUser _ => true | _ => false end
  | IFork body => forallb static body
  | ILoop _ _ | IHolder _ | IDelete _ | IIdle _ | IResume | IBegin => false
  | _ => true
  end.

(** What may stand below the topmost instruction. *)
Definition plain (i : instr) : bool :=
  match i with
  | IP _ | IHolder _ | IDelete _ => true
  | _ => static i
  end.

Inductive phase :=
  | PRun | PLoop (s : semid) | PIdle (s : semid) | PEnd
  | PSusp | PSuspLoop (s : semid) | PFresh.

(** The phase a thread is in, and what is left after it. *)
Definition decode c : phase * list instr :=
  match c with
  | ILoop s _ :: c => (PLoop s, c)
  | IIdle false :: ILoop s _ :: c => (PIdle s, c)
  | IIdle true :: c => (PEnd, c)
  | IResume :: ILoop s _ :: c => (PSuspLoop s, c)
  | IResume :: c => (PSusp, c)
  | IBegin :: c => (PFresh, c)
  | _ => (PRun, c)
  end.

Definition phase_of th : phase := (decode (code th)).1.
Definition rest_of th : list instr := (decode (code th)).2.

Definition waiting k (s : semid) t : Prop := ∃ sem, semaphores k !! s = Some sem ∧ t ∈ queue sem.

(** Where a thread is, by its phase and its status. *)
Definition placed k t th : Prop :=
  match phase_of th, tstatus th with
  | PRun, RUNNING | PLoop _, RUNNING => t = currentThread k
  | PIdle s, BLOCKED => t = currentThread k ∧ waiting k s t
  | PIdle _, READY => t = currentThread k ∧ t ∈ readyList k
  | PEnd, BLOCKED => t = currentThread k
  | PSusp, BLOCKED => toBeDestroyed k = Some t
  | PSusp, RUNNING | PSuspLoop _, RUNNING | PFresh, RUNNING => t = currentThread k
  | PSusp, READY | PSuspLoop _, READY | PFresh, READY => t ≠ currentThread k ∧ t ∈ readyList k
  | PSuspLoop s, BLOCKED => t ≠ currentThread k ∧ waiting k s t
  | _, _ => False
  end.

Definition switched_in (p : phase) : Prop :=
  match p with PSusp | PSuspLoop _ | PFresh => True | _ => False end.

Definition in_loop (s : semid) (p : phase) : Prop := p = PIdle s ∨ p = PSuspLoop s.

(** A thread's own part of the invariant. *)
Definition thread_ok th : Prop :=
  Forall plain (rest_of th) ∧
  (tstatus th = BLOCKED ∧ (phase_of th = PEnd ∨ phase_of th = PSusp) ∨ last (rest_of th) = Some IFinish) ∧
  CheckOverflow th = Ok tt ∧ length (userRegisters th) = 40%nat ∧
  (is_Some (space th) → phase_of th = PSusp ∨ (∃ s, phase_of th = PSuspLoop s) → regs_ok (userRegisters th)).

Record sched_inv k : Prop := {
  inv_threads : ∀ t th, threads k !! t = Some th → thread_ok th ∧ placed k t th;
  inv_current : is_Some (threads k !! currentThread k);
  inv_ready_nodup : NoDup (readyList k);
  inv_ready : ∀ t, t ∈ readyList k → ∃ th, threads k !! t = Some th ∧ tstatus th = READY;
  inv_sems : ∀ s sem, semaphores k !! s = Some sem → (queue sem ≠ [] → 0 <= value sem) ∧ NoDup (queue sem) ∧
    ∀ t, t ∈ queue sem → ∃ th, threads k !! t = Some th ∧ tstatus th = BLOCKED ∧ in_loop s (phase_of th);
  inv_destroyed : ∀ d, toBeDestroyed k = Some d → d ≠ currentThread k ∧
    (∃ th, threads k !! d = Some th ∧ tstatus th = BLOCKED ∧ phase_of th = PSusp) ∧
    ∃ th, threads k !! currentThread k = Some th ∧ switched_in (phase_of th);
  inv_fresh : ∀ t, nextThread k <= t → threads k !! t = None }.

(** ** Uninterrupted changes *)

(** Instructions that only this thread's own code is about. *)
Definition soft (i : instr) : bool := static i && match i with IFinish => false | _ => true end.

(** What a tick leaves on the stack of the thread it preempts. *)
Definition frame (i : instr) : bool := match i with ISetLevel _ | IStatus _ => true | _ => false end.

Definition set_code k th c : Threads := set_thread k (currentThread k) (with_code th c).

(** New semaphores of the kernel's own. *)
Definition grows (m m' : gmap semid Semaphore) : Prop :=
  (∀ s sem, m !! s = Some sem → m' !! s = Some sem) ∧
  ∀ s sem, m' !! s = Some sem → m !! s = Some sem ∨ (∃ n, s = SUser n) ∧ queue sem = [].

Lemma grows_refl m : grows m m.
Proof. split; [done | by left]. Qed.

Inductive micro : Threads → Threads → Prop :=
  | m_code k th i c ins :
      threads k !! currentThread k = Some th → code th = i :: c → soft i → Forall static ins →
      (frame i → ins = []) →
      micro k (set_code k th (ins ++ c))
  | m_push k th ins :
      threads k !! currentThread k = Some th → phase_of th = PRun → Forall frame ins →
      micro k (set_code k th (ins ++ code th))
  | m_acquire k th l c :
      threads k !! currentThread k = Some th → code th = IAcquire l :: c →
      micro k (set_code k th (IP (SLock l) :: IHolder l :: c))
  | m_enter k th s o c :
      threads k !! currentThread k = Some th → code th = IP s :: c →
      micro k (set_code k th (ILoop s o :: c))
  | m_take k th s o c sem :
      threads k !! currentThread k = Some th → code th = ILoop s o :: c →
      semaphores k !! s = Some sem → value sem ≠ 0 →
      micro k (set_code (with_semaphores k (<[s := mkSem (value sem - 1) (queue sem)]> (semaphores k))) th c)
  | m_block k th s o c sem :
      threads k !! currentThread k = Some th → code th = ILoop s o :: c →
      semaphores k !! s = Some sem → value sem = 0 →
      micro k (set_thread (with_semaphores k
          (<[s := mkSem (value sem) (queue sem ++ [currentThread k])]> (semaphores k)))
        (currentThread k) (with_status_of (with_code th (IIdle false :: ILoop s o :: c)) BLOCKED))
  | m_wake k n k' : wake k (SUser n) = Ok k' → micro k k'
  | m_holder k th l c h :
      threads k !! currentThread k = Some th → code th = IHolder l :: c → locks k !! l = Some h →
      micro k (with_locks (set_code k th c) (<[l := Some (currentThread k)]> (locks k)))
  | m_release k th l k' :
      threads k !! currentThread k = Some th → phase_of th = PRun →
      locks k !! l = Some (Some (currentThread k)) →
      wake (with_locks k (<[l := None]> (locks k))) (SLock l) = Ok k' →
      micro k k'
  | m_signal k (cv : Z) w ws k' :
      conditions k !! cv = Some (w :: ws) →
      wake (with_conditions k (<[cv := ws]> (conditions k))) w = Ok k' →
      micro k k'
  | m_wait k th (cv : Z) q l c :
      threads k !! currentThread k = Some th → code th = IWait cv l :: c → conditions k !! cv = Some q →
      let w := SWait (nextWaiter k) in
      micro k (set_code (with_conditions (with_nextWaiter
            (with_semaphores k (<[w := mkSem 0 []]> (semaphores k))) (nextWaiter k + 1))
          (<[cv := q ++ [w]]> (conditions k))) th
        ([IRelease l; IP w; IAcquire l; IDelete w] ++ c))
  | m_delete k th w c :
      threads k !! currentThread k = Some th → code th = IDelete w :: c →
      micro k (with_semaphores (set_code k th c) (delete w (semaphores k)))
  | m_fork k th body :
      threads k !! currentThread k = Some th → phase_of th = PRun → Forall static body →
      micro k (with_ready (with_nextThread
          (set_thread k (nextThread k) (with_status_of (Thread_new body) READY)) (nextThread k + 1))
        (readyList k ++ [nextThread k]))
  | m_yield k th n r nth regs :
      threads k !! currentThread k = Some th → phase_of th = PRun → readyList k = n :: r →
      threads k !! n = Some nth → length regs = 40%nat → (is_Some (space th) → regs_ok regs) →
      micro k (set_thread (with_current (set_thread (with_ready k (r ++ [currentThread k])) (currentThread k)
          (with_userRegisters (with_status_of (with_code th (IResume :: code th)) READY) regs)) n)
        n (with_status_of nth RUNNING))
  | m_switch k th n r nth nth' c fin regs th' k' :
      threads k !! currentThread k = Some th → code th = IIdle fin :: c → readyList k = n :: r →
      threads k !! n = Some nth → length regs = 40%nat → (is_Some (space th) → regs_ok regs) →
      th' = with_userRegisters (with_code th (IResume :: c)) regs →
      k' = set_thread (with_ready k r) (currentThread k) th' →
      threads k' !! n = Some nth' →
      micro k (with_destroyed (set_thread (with_current k' n) n (with_status_of nth' RUNNING))
        (if fin then Some (currentThread k) else toBeDestroyed k))
  | m_resume k th i c m d :
      threads k !! currentThread k = Some th → code th = i :: c → i = IResume ∨ i = IBegin →
      (toBeDestroyed k = None ∧ m = threads k ∨ toBeDestroyed k = Some d ∧ m = delete d (threads k)) →
      micro k (with_destroyed (with_threads k (<[currentThread k := with_code th c]> m)) None)
  | m_finish k th c :
      threads k !! currentThread k = Some th → code th = IFinish :: c →
      micro k (set_thread k (currentThread k) (with_status_of (with_code th (IIdle true :: c)) BLOCKED))
  | m_env k e : micro k (with_env k e)
  | m_new k m : grows (semaphores k) m → micro k (with_semaphores k m)
  | m_space k th a : threads k !! currentThread k = Some th → phase_of th = PRun →
      micro k (set_thread k (currentThread k) (with_space th a)).

(** ** Every change keeps the threads in order *)

Lemma wake_Ok k s k' : wake k s = Ok k' ↔
  ∃ sem, semaphores k !! s = Some sem ∧ is_s32 (value sem + 1) ∧
    match queue sem with
    | [] => k' = with_semaphores k (<[s := mkSem (value sem + 1) []]> (semaphores k))
    | t :: q => ∃ th, threads k !! t = Some th ∧ (t ∉ readyList k) ∧
        k' = with_semaphores (with_ready (set_thread k t (with_status_of th READY)) (readyList k ++ [t]))
               (<[s := mkSem (value sem + 1) q]> (semaphores k))
    end.
Proof.
  unfold wake, find, make_ready, find. destruct (semaphores k !! s) as [sem|] eqn:Hs; cbn [rbind].
  2: { split; [done |]. by intros (? & ? & _). }
  destruct (queue sem) as [|t q] eqn:Hq; cbn [rbind seq_RemoveFront].
  - rewrite bind_Ok. setoid_rewrite int_add_Ok. split.
    + intros (v & [-> Hv] & [= <-]). exists sem. by rewrite Hq.
    + intros (sem' & [= <-] & Hv & Hk). rewrite Hq in Hk. subst. by eexists.
  - destruct (threads k !! t) as [th|] eqn:Ht; cbn [rbind].
    2: { split; [done |]. intros (sem' & [= <-] & _ & Hk). rewrite Hq in Hk. destruct Hk as (? & ? & _). congruence. }
    unfold seq_Append. cbn [set_thread with_threads readyList]. case_bool_decide as Hr; cbn [rbind].
    + rewrite bind_Ok. setoid_rewrite int_add_Ok. split.
      * intros (v & [-> Hv] & [= <-]). exists sem. rewrite Hq. split; [done |]. split; [done |]. by exists th.
      * intros (sem' & [= <-] & Hv & Hk). rewrite Hq in Hk. destruct Hk as (th' & Ht' & _ & ->). rewrite Ht in Ht'. injection Ht' as <-. by eexists.
    + split; [done |]. intros (sem' & [= <-] & Hv & Hk). rewrite Hq in Hk. by destruct Hk as (th' & _ & ? & _).
Qed.

Lemma placed_mono k k' t th :
  placed k t th → currentThread k' = currentThread k →
  (t ∈ readyList k → t ∈ readyList k') → (∀ s, in_loop s (phase_of th) → waiting k s t → waiting k' s t) →
  (toBeDestroyed k = Some t → toBeDestroyed k' = Some t) → placed k' t th.
Proof.
  unfold placed, in_loop. intros Hp -> Hr Hw Hd. revert Hp Hw.
  destruct (phase_of th), (tstatus th); intros Hp Hw; try done; try (by apply Hd);
    destruct Hp; split; auto.
Qed.

(** A thread on the ready list waits for nothing, and so on. *)
Lemma not_ready k t th : sched_inv k → threads k !! t = Some th → tstatus th ≠ READY → t ∉ readyList k.
Proof. intros Hk Ht Hs Hin. destruct (inv_ready k Hk t Hin) as (th' & ? & ?). congruence. Qed.

Lemma not_waiting k t th s sem : sched_inv k → threads k !! t = Some th → tstatus th ≠ BLOCKED →
  semaphores k !! s = Some sem → t ∉ queue sem.
Proof.
  intros Hk Ht Hs Hsem Hin. destruct (inv_sems k Hk s sem Hsem) as (_ & _ & Hq).
  destruct (Hq t Hin) as (th' & ? & ? & _). congruence.
Qed.

Lemma current_running k th : sched_inv k → threads k !! currentThread k = Some th →
  (phase_of th = PRun ∨ ∃ s, phase_of th = PLoop s) → tstatus th = RUNNING ∧ toBeDestroyed k = None.
Proof.
  intros Hk Ht Hp. destruct (inv_threads k Hk _ _ Ht) as [_ Hpl]. split.
  - unfold placed in Hpl. destruct Hp as [Hp|[s Hp]]; rewrite Hp in Hpl; by destruct (tstatus th).
  - destruct (toBeDestroyed k) as [d|] eqn:Hd; [| done].
    destruct (inv_destroyed k Hk d Hd) as (_ & _ & th' & Ht' & Hsw). rewrite Ht in Ht'. injection Ht' as <-.
    by destruct Hp as [Hp|[s Hp]]; rewrite Hp in Hsw.
Qed.

(** Replacing one thread: what has to be checked. *)
Lemma sched_set_thread k t th th' : sched_inv k → threads k !! t = Some th →
  thread_ok th' → placed k t th' →
  (t ∈ readyList k → tstatus th' = READY) →
  (∀ s sem, semaphores k !! s = Some sem → t ∈ queue sem → tstatus th' = BLOCKED ∧ in_loop s (phase_of th')) →
  (∀ d, toBeDestroyed k = Some d → if decide (d = t) then tstatus th' = BLOCKED ∧ phase_of th' = PSusp
     else t = currentThread k → switched_in (phase_of th')) →
  sched_inv (set_thread k t th').
Proof.
  intros Hk Ht Hok Hpl Hr Hq Hd. constructor; cbn [set_thread with_threads threads currentThread readyList semaphores toBeDestroyed nextThread].
  - intros t0 th0 Ht0. destruct (decide (t0 = t)) as [->|Hne].
    + rewrite lookup_insert_eq in Ht0. injection Ht0 as <-. split; [done |].
      eapply placed_mono; [exact Hpl | done..].
    + rewrite lookup_insert_ne in Ht0 by done. destruct (inv_threads k Hk _ _ Ht0) as [? ?].
      split; [done |]. by eapply placed_mono.
  - destruct (decide (currentThread k = t)) as [->|Hne].
    + rewrite lookup_insert_eq. eauto.
    + rewrite lookup_insert_ne by done. apply Hk.
  - apply Hk.
  - intros t0 Ht0. destruct (decide (t0 = t)) as [->|Hne].
    + rewrite lookup_insert_eq. eauto.
    + rewrite lookup_insert_ne by done. by apply Hk.
  - intros s sem Hs. destruct (inv_sems k Hk s sem Hs) as (Hv & Hn & Hall). split; [done |]. split; [done |].
    intros t0 Ht0. destruct (decide (t0 = t)) as [->|Hne].
    + rewrite lookup_insert_eq. destruct (Hq s sem Hs Ht0). eauto.
    + rewrite lookup_insert_ne by done. by apply Hall.
  - intros d Hd0. destruct (inv_destroyed k Hk d Hd0) as (Hdc & Hdt & Hc). specialize (Hd d Hd0).
    split; [done |]. split.
    + destruct (decide (d = t)) as [->|Hne].
      * rewrite lookup_insert_eq. destruct Hd. eauto.
      * by rewrite lookup_insert_ne by done.
    + destruct (decide (currentThread k = t)) as [Heq|Hne].
      * rewrite Heq, lookup_insert_eq. exists th'. split; [done |]. rewrite decide_False in Hd by congruence.
        by apply Hd.
      * by rewrite lookup_insert_ne by done.
  - intros t0 Ht0. rewrite lookup_insert_ne; [by apply Hk |]. intros <-.
    by rewrite (inv_fresh k Hk t Ht0) in Ht.
Qed.

Lemma decode_run c : (decode c).1 = PRun → (decode c).2 = c.
Proof.
  destruct c as [|i c]; [done |]. destruct i; cbn; try done.
  - destruct finishing; cbn; [done |]. destruct c as [|j c]; [done |]. by destruct j.
  - destruct c as [|j c]; [done |]. by destruct j.
Qed.

Lemma decode_plain i c : plain i → decode (i :: c) = (PRun, i :: c).
Proof. by destruct i. Qed.

Lemma decode_all_plain c : Forall plain c → decode c = (PRun, c).
Proof. intros Hc. destruct Hc as [|i c Hi Hc]; [done |]. by apply decode_plain. Qed.

Lemma static_plain i : static i → plain i.
Proof. by destruct i. Qed.

Lemma static_all_plain ins : Forall static ins → Forall plain ins.
Proof. intros H. eapply Forall_impl; [exact H |]. intros i. apply static_plain. Qed.

Lemma frames_static ins : Forall frame ins → Forall static ins.
Proof. intros H. eapply Forall_impl; [exact H |]. by intros []. Qed.

Lemma soft_static i : soft i → static i ∧ i ≠ IFinish.
Proof. unfold soft. intros [? ?]%andb_True. split; [done |]. by intros ->. Qed.

Lemma run_code k th : sched_inv k → threads k !! currentThread k = Some th → phase_of th = PRun →
  Forall plain (code th) ∧ last (code th) = Some IFinish.
Proof.
  intros Hk Ht Hp. destruct (current_running k th Hk Ht) as [Hs _]; [by left |].
  destruct (inv_threads k Hk _ _ Ht) as [(Hpl & Hl & _) _].
  unfold rest_of in *. rewrite (decode_run (code th) Hp) in *. split; [done |].
  destruct Hl as [[? _]|]; [congruence | done].
Qed.

Lemma loop_code k th s o c : sched_inv k → threads k !! currentThread k = Some th → code th = ILoop s o :: c →
  phase_of th = PLoop s ∧ Forall plain c ∧ last c = Some IFinish.
Proof.
  intros Hk Ht Hc. assert (phase_of th = PLoop s) as Hp by (unfold phase_of; by rewrite Hc).
  destruct (current_running k th Hk Ht) as [Hs _]; [by right; exists s |].
  destruct (inv_threads k Hk _ _ Ht) as [(Hpl & Hl & _) _].
  unfold rest_of in *. rewrite Hc in *. cbn in *. split; [done |]. split; [done |].
  destruct Hl as [[? _]|]; [congruence | done].
Qed.

Lemma last_tail i c : last (i :: c) = Some IFinish → i ≠ IFinish → last c = Some IFinish.
Proof. destruct c as [|j c]; cbn; [intros [= ->]; done | done]. Qed.

Lemma last_app_tail ins c : last c = Some IFinish → last (ins ++ c) = Some IFinish.
Proof. intros H. rewrite last_app, H. done. Qed.

(** The current thread's code changes while it runs. *)
Lemma sched_set_code k th c p : sched_inv k → threads k !! currentThread k = Some th →
  (phase_of th = PRun ∨ ∃ s, phase_of th = PLoop s) → (decode c).1 = p → (p = PRun ∨ ∃ s, p = PLoop s) →
  Forall plain (decode c).2 → last (decode c).2 = Some IFinish →
  sched_inv (set_code k th c).
Proof.
  intros Hk Ht Hp Hd Hp' Hc Hl. destruct (current_running k th Hk Ht Hp) as [Hs Hn].
  destruct (inv_threads k Hk _ _ Ht) as [(_ & _ & Ho & Hr & Hru) _].
  assert (phase_of (with_code th c) = p) as Hph by exact Hd.
  apply sched_set_thread with th; [done | done | | | | |].
  - split; [exact Hc |]. split; [right; exact Hl |]. split; [exact Ho |]. split; [exact Hr |].
    intros _. rewrite Hph. intros [->|[s ->]]; destruct Hp' as [|[? ?]]; congruence.
  - unfold placed. rewrite Hph. cbn [tstatus with_code]. rewrite Hs. by destruct Hp' as [->|[s ->]].
  - intros Hin. exfalso. eapply not_ready; [exact Hk | exact Ht | by rewrite Hs | done].
  - intros s sem Hsem Hin. exfalso. eapply not_waiting; [exact Hk | exact Ht | by rewrite Hs | done..].
  - intros d Hd'. congruence.
Qed.

Lemma sched_plain_code k th c : sched_inv k → threads k !! currentThread k = Some th →
  (phase_of th = PRun ∨ ∃ s, phase_of th = PLoop s) → Forall plain c → last c = Some IFinish →
  sched_inv (set_code k th c).
Proof.
  intros Hk Ht Hp Hc Hl. pose proof (decode_all_plain c Hc) as Hd.
  apply sched_set_code with PRun; rewrite ?Hd; auto.
Qed.

(** Fields the scheduler does not look at. *)
Definition same_sched k k' : Prop :=
  currentThread k' = currentThread k ∧ readyList k' = readyList k ∧ toBeDestroyed k' = toBeDestroyed k ∧
  threads k' = threads k ∧ semaphores k' = semaphores k ∧ nextThread k' = nextThread k.

Lemma sched_same k k' : same_sched k k' → sched_inv k → sched_inv k'.
Proof.
  destruct k, k'. unfold same_sched; cbn. intros (-> & -> & -> & -> & -> & ->) Hk.
  constructor; cbn; apply Hk.
Qed.

(** A semaphore changes its value, or loses it when no one waits. *)
Lemma sched_sems k m : sched_inv k →
  (∀ s sem, m !! s = Some sem → (queue sem ≠ [] → 0 <= value sem) ∧
     (queue sem = [] ∨ ∃ sem', semaphores k !! s = Some sem' ∧ queue sem = queue sem')) →
  (∀ s sem, semaphores k !! s = Some sem → queue sem ≠ [] → ∃ sem', m !! s = Some sem' ∧ queue sem' = queue sem) →
  sched_inv (with_semaphores k m).
Proof.
  intros Hk Hm1 Hm2. constructor; cbn; try apply Hk.
  - intros t th Ht. destruct (inv_threads k Hk _ _ Ht) as [Hok Hp]. split; [done |].
    eapply placed_mono; [exact Hp | done | done | | done].
    intros s _ (sem & Hs & Hin). destruct (Hm2 s sem Hs) as (sem' & Hs' & Hq); [by intros H; rewrite H in Hin; apply elem_of_nil in Hin |].
    exists sem'. cbn. by rewrite Hq.
  - intros s sem Hs. destruct (Hm1 s sem Hs) as [Hv Hq]. split; [done |].
    destruct Hq as [->|(sem' & Hs' & ->)].
    + split; [constructor |]. intros t Ht. by apply elem_of_nil in Ht.
    + by destruct (inv_sems k Hk s sem' Hs') as (_ & ? & ?).
Qed.

Lemma sched_wake k s k' : sched_inv k → wake k s = Ok k' → sched_inv k'.
Proof.
  intros Hk (sem & Hs & _ & Hq)%wake_Ok. destruct (inv_sems k Hk s sem Hs) as (Hv & Hn & Hall).
  destruct (queue sem) as [|t q] eqn:Hqu.
  { subst k'. apply sched_sems; [done | |].
    - intros s0 sem0. destruct (decide (s0 = s)) as [->|Hne].
      + rewrite lookup_insert_eq. intros [= <-]. cbn. split; [done | by left].
      + rewrite lookup_insert_ne by done. intros H0. destruct (inv_sems k Hk s0 sem0 H0) as (? & _).
        split; [done |]. right. by exists sem0.
    - intros s0 sem0 H0 Hne0. destruct (decide (s0 = s)) as [->|Hne].
      + congruence.
      + rewrite lookup_insert_ne by done. by exists sem0. }
  destruct Hq as (th & Ht & Hr & ->). apply NoDup_cons in Hn as [Htq Hn].
  destruct (Hall t) as (th' & Ht' & Hst & Hph); [by left |]. rewrite Ht in Ht'. injection Ht' as <-.
  destruct (inv_threads k Hk t th Ht) as [(Hpl & Hla & Hov & Hlen & Hreg) Hplaced].
  assert (∀ t0 s0, t0 ≠ t → waiting k s0 t0 →
    ∃ sem', <[s:=mkSem (value sem + 1) q]> (semaphores k) !! s0 = Some sem' ∧ t0 ∈ queue sem') as Hw.
  { intros t0 s0 Hne (sem0 & Hs0 & Hin). destruct (decide (s0 = s)) as [->|Hns].
    - rewrite lookup_insert_eq. rewrite Hs in Hs0. injection Hs0 as <-. rewrite Hqu in Hin.
      apply elem_of_cons in Hin as [?|Hin]; [done |]. by eexists.
    - rewrite lookup_insert_ne by done. by exists sem0. }
  constructor; cbn.
  - intros t0 th0. destruct (decide (t0 = t)) as [->|Hne].
    + rewrite lookup_insert_eq. intros [= <-]. split.
      * split; [exact Hpl |]. split; [| exact (conj Hov (conj Hlen Hreg))]. right. destruct Hla as [[_ [Hp|Hp]]|]; [| | done];
          destruct Hph as [Hph|Hph]; congruence.
      * unfold placed in *. cbn [tstatus with_status_of phase_of code]. rewrite Hst in Hplaced.
        change (phase_of (with_status_of th READY)) with (phase_of th).
        destruct Hph as [Hph|Hph]; rewrite Hph in *; cbn; (split; [by destruct Hplaced |]); apply elem_of_app; right; by left.
    + rewrite lookup_insert_ne by done. intros H0. destruct (inv_threads k Hk t0 th0 H0) as [Hok Hp]. split; [done |].
      eapply placed_mono; [exact Hp | done | cbn; rewrite elem_of_app; by left | | done].
      intros s0 _ Hw0. unfold waiting. cbn. by apply Hw.
  - destruct (decide (currentThread k = t)) as [->|Hne]; [rewrite lookup_insert_eq; eauto |].
    rewrite lookup_insert_ne by done. apply Hk.
  - apply NoDup_app. split; [apply Hk |]. split; [| apply NoDup_singleton].
    intros t0 Hin ->%list_elem_of_singleton. done.
  - intros t0 Hin. destruct (decide (t0 = t)) as [->|Hne]; [rewrite lookup_insert_eq; eauto |].
    rewrite lookup_insert_ne by done. apply elem_of_app in Hin as [Hin | ->%list_elem_of_singleton]; [| done].
    by apply (inv_ready k Hk).
  - intros s0 sem0. assert (∀ t0, t0 ≠ t → <[t:=with_status_of th READY]> (threads k) !! t0 = threads k !! t0) as Hlk
      by (intros; by rewrite lookup_insert_ne).
    destruct (decide (s0 = s)) as [->|Hns].
    + rewrite lookup_insert_eq. intros [= <-]. cbn. split; [intros _; specialize (Hv ltac:(done)); lia |]. split; [done |].
      intros t0 Hin. rewrite Hlk by (intros ->; done). apply Hall. by right.
    + rewrite lookup_insert_ne by done. intros H0. destruct (inv_sems k Hk s0 sem0 H0) as (? & ? & Hall0).
      split; [done |]. split; [done |]. intros t0 Hin. destruct (Hall0 t0 Hin) as (th0 & Ht0 & Hst0 & Hph0).
      rewrite Hlk; [by eauto |]. intros ->. rewrite Ht in Ht0. injection Ht0 as <-.
      destruct Hph as [Hph|Hph], Hph0 as [Hph0|Hph0]; congruence.
  - intros d Hd. destruct (inv_destroyed k Hk d Hd) as (Hdc & (thd & Hthd & Hsd & Hpd) & thc & Hthc & Hsw).
    split; [done |]. split.
    + rewrite lookup_insert_ne; [by eauto |]. intros <-. rewrite Ht in Hthd. injection Hthd as <-.
      destruct Hph as [Hph|Hph]; congruence.
    + destruct (decide (currentThread k = t)) as [Heq|Hne].
      * rewrite Heq, lookup_insert_eq. eexists. split; [done |]. rewrite Heq, Ht in Hthc. by injection Hthc as <-.
      * rewrite lookup_insert_ne by done. eauto.
  - intros t0 Hlt. rewrite lookup_insert_ne; [by apply Hk |]. intros <-. by rewrite (inv_fresh k Hk t Hlt) in Ht.
Qed.

Lemma thread_ok_status th st : thread_ok th → tstatus th ≠ BLOCKED → thread_ok (with_status_of th st).
Proof.
  intros (Hpl & Hla & Hr) Hs. split; [exact Hpl |]. split; [| exact Hr].
  right. destruct Hla as [[? _]|]; [congruence | done].
Qed.

(** The CPU goes from the current thread to the first ready one. *)
Lemma sched_dispatch k k' n r th th' nth : sched_inv k → threads k !! currentThread k = Some th →
  ¬ switched_in (phase_of th) → readyList k = n :: r →
  currentThread k' = n → semaphores k' = semaphores k → nextThread k' = nextThread k →
  <[currentThread k := th']> (threads k) !! n = Some nth →
  threads k' = <[n := with_status_of nth RUNNING]> (<[currentThread k := th']> (threads k)) →
  thread_ok th' →
  (if decide (n = currentThread k) then tstatus th' = READY ∧ switched_in (phase_of th')
   else placed k' (currentThread k) th') →
  (readyList k' = r ∧ (currentThread k ∈ readyList k → tstatus th' = READY) ∨
   readyList k' = r ++ [currentThread k] ∧ tstatus th' = READY ∧ (currentThread k ∉ readyList k)) →
  (∀ s sem, semaphores k !! s = Some sem → currentThread k ∈ queue sem →
     tstatus th' = BLOCKED ∧ in_loop s (phase_of th')) →
  (toBeDestroyed k' = None ∨ toBeDestroyed k' = Some (currentThread k) ∧ n ≠ currentThread k ∧
     tstatus th' = BLOCKED ∧ phase_of th' = PSusp) →
  sched_inv k'.
Proof.
  intros Hk Ht Hsw Hr Hcur' Hsem Hnt Hnth Hth' Hok Hpl Hready Hq Hdest.
  set (cur := currentThread k) in *.
  assert (NoDup (n :: r)) as Hnd by (rewrite <- Hr; apply Hk). apply NoDup_cons in Hnd as [Hnr Hndr].
  destruct (inv_ready k Hk n) as (nth0 & Hnth0 & Hnst); [rewrite Hr; by left |].
  assert (toBeDestroyed k = None) as Hd.
  { destruct (toBeDestroyed k) as [d|] eqn:Hd; [| done].
    destruct (inv_destroyed k Hk d Hd) as (_ & _ & th2 & Ht2 & Hs2). fold cur in Ht2. congruence. }
  assert (tstatus nth = READY ∧ thread_ok nth ∧ switched_in (phase_of nth)) as (Hns & Hnok & Hnsw).
  { destruct (decide (n = cur)) as [->|Hne].
    - rewrite lookup_insert_eq in Hnth. injection Hnth as <-. by destruct Hpl.
    - rewrite lookup_insert_ne in Hnth by done. rewrite Hnth0 in Hnth. injection Hnth as <-.
      destruct (inv_threads k Hk _ _ Hnth0) as [Hok0 Hp0]. split; [done |]. split; [done |].
      unfold placed in Hp0. rewrite Hnst in Hp0. destruct (phase_of nth0); try done; by destruct Hp0. }
  assert (∀ t, t ∈ readyList k' ↔ t ≠ n ∧ (t ∈ readyList k ∨ t = cur ∧ cur ∈ readyList k')) as Hin.
  { intros t. rewrite Hr. destruct Hready as [[-> _]|(-> & _ & Hnin)].
    - rewrite elem_of_cons. split; [intros H; split; [by intros ->| tauto] |].
      intros (? & [[?|?]|[-> ?]]); done.
    - rewrite elem_of_app, list_elem_of_singleton, elem_of_cons. split.
      + intros [H| ->]; [split; [by intros -> | tauto] |]. split; [| right; split; [done |]; apply elem_of_app; right; by left].
        intros ->. apply Hnin. rewrite Hr. by left.
      + intros (? & [[?|?]|[-> ?]]); [done | tauto | tauto]. }
  assert (∀ t, t ≠ cur → t ≠ n → threads k' !! t = threads k !! t) as Hother
    by (intros t ? ?; rewrite Hth', !lookup_insert_ne by done; done).
  assert (threads k' !! n = Some (with_status_of nth RUNNING)) as Hn' by (by rewrite Hth', lookup_insert_eq).
  assert (n ≠ cur → threads k' !! cur = Some th') as Hc'
    by (intros; by rewrite Hth', lookup_insert_ne, lookup_insert_eq by done).
  constructor.
  - intros t th0 Ht0. destruct (decide (t = n)) as [->|Hne].
    + rewrite Hn' in Ht0. injection Ht0 as <-. split; [apply thread_ok_status; [done | by rewrite Hns] |].
      unfold placed. cbn [tstatus with_status_of]. change (phase_of (with_status_of nth RUNNING)) with (phase_of nth).
      by destruct (phase_of nth).
    + destruct (decide (t = cur)) as [->|Hnc].
      * rewrite Hc' in Ht0 by done. injection Ht0 as <-. split; [done |]. by rewrite decide_False in Hpl by done.
      * rewrite Hother in Ht0 by done. destruct (inv_threads k Hk _ _ Ht0) as [Hok0 Hp0]. split; [done |].
        unfold placed, waiting in *. fold cur in Hp0. rewrite Hsem, Hcur'.
        destruct (phase_of th0), (tstatus th0); try done; try (by destruct Hp0);
          [destruct Hp0; split; [done |]; apply Hin; tauto | congruence
          | destruct Hp0; split; [done |]; apply Hin; tauto | destruct Hp0; split; [done |]; apply Hin; tauto].
  - rewrite Hcur', Hn'. eauto.
  - destruct Hready as [[-> _]|(-> & _ & Hnin)]; [done |].
    apply NoDup_app. split; [done |]. split; [| apply NoDup_singleton].
    intros t Htr ->%list_elem_of_singleton. apply Hnin. rewrite Hr. by right.
  - intros t [Htn Ht1]%Hin. destruct (decide (t = cur)) as [->|Hne].
    + rewrite Hc' by done. exists th'. split; [done |].
      destruct Hready as [[Hre Hst]|(_ & Hst & _)]; [| done]. apply Hst.
      destruct Ht1 as [?|[_ H]]; [done |]. rewrite Hre in H. rewrite Hr. by right.
    + rewrite Hother by done. destruct Ht1 as [Ht1|[? _]]; [| done]. by apply (inv_ready k Hk).
  - intros s sem Hs. rewrite Hsem in Hs. destruct (inv_sems k Hk s sem Hs) as (? & ? & Hall).
    split; [done |]. split; [done |]. intros t Htq. destruct (decide (t = cur)) as [->|Hne].
    + destruct (Hq s sem Hs Htq) as [Hst Hil]. rewrite Hc'; [by eauto |]. intros ->.
      rewrite decide_True in Hpl by done. destruct Hpl. congruence.
    + destruct (Hall t Htq) as (th0 & Ht0 & Hst & Hil). rewrite Hother; [by eauto | done |].
      intros ->. congruence.
  - intros d Hd'. destruct Hdest as [Hdn|(Hds & Hne & Hst & Hph)]; [congruence |].
    assert (d = cur) as -> by congruence. rewrite Hcur'. split; [done |]. split; [rewrite Hc'; eauto |].
    rewrite Hn'. by eexists.
  - intros t Hlt. rewrite Hnt in Hlt. pose proof (inv_fresh k Hk t Hlt) as Hf.
    rewrite Hother; [done | |]; intros ->; congruence.
Qed.

Lemma decode_resume c : Forall plain c → decode (IResume :: c) = (PSusp, c).
Proof. intros Hc. destruct Hc as [|i c Hi Hc]; [done |]. by destruct i. Qed.

Lemma decode_begin c : decode (IBegin :: c) = (PFresh, c).
Proof. done. Qed.

Lemma sched_yield k th n r nth regs : sched_inv k → threads k !! currentThread k = Some th →
  phase_of th = PRun → readyList k = n :: r → threads k !! n = Some nth →
  length regs = 40%nat → (is_Some (space th) → regs_ok regs) →
  sched_inv (set_thread (with_current (set_thread (with_ready k (r ++ [currentThread k])) (currentThread k)
          (with_userRegisters (with_status_of (with_code th (IResume :: code th)) READY) regs)) n)
        n (with_status_of nth RUNNING)).
Proof.
  intros Hk Ht Hp Hr Hn Hl Hregs. destruct (current_running k th Hk Ht) as [Hs Hd]; [by left |].
  destruct (run_code k th Hk Ht Hp) as [Hpl Hla]. pose proof (decode_resume _ Hpl) as Hdec.
  assert (currentThread k ∉ readyList k) as Hcr by (eapply not_ready; [done.. | by rewrite Hs]).
  assert (n ≠ currentThread k) as Hne by (intros ->; apply Hcr; rewrite Hr; by left).
  destruct (inv_threads k Hk _ _ Ht) as [(_ & _ & Hov & _ & _) _].
  set (th' := with_userRegisters _ regs).
  assert (phase_of th' = PSusp ∧ rest_of th' = code th) as [Hph Hrest]
    by (unfold phase_of, rest_of; cbn [th' code with_userRegisters with_status_of with_code]; by rewrite Hdec).
  eapply (sched_dispatch k _ n r th th' nth); [done | done | rewrite Hp; by intros [] | done | done | done | done | | | | | | | by left].
  - by rewrite lookup_insert_ne.
  - done.
  - split; [by rewrite Hrest |]. split; [right; by rewrite Hrest |]. split; [exact Hov |]. split; [done |].
    intros Hsp _. by apply Hregs.
  - rewrite decide_False by done. unfold placed. rewrite Hph. cbn. split; [done |]. apply elem_of_app. right. by left.
  - right. done.
  - intros s sem Hsem Hin. exfalso. eapply (not_waiting k); [exact Hk | exact Ht | by rewrite Hs | done | done].
Qed.

Lemma sched_switch k th n r nth c fin regs th' : sched_inv k → threads k !! currentThread k = Some th →
  code th = IIdle fin :: c → readyList k = n :: r → length regs = 40%nat → (is_Some (space th) → regs_ok regs) →
  th' = with_userRegisters (with_code th (IResume :: c)) regs →
  <[currentThread k := th']> (threads k) !! n = Some nth →
  sched_inv (with_destroyed (set_thread (with_current (set_thread (with_ready k r) (currentThread k) th') n) n
      (with_status_of nth RUNNING)) (if fin then Some (currentThread k) else toBeDestroyed k)).
Proof.
  intros Hk Ht Hc Hr Hl Hregs -> Hn. set (th' := with_userRegisters _ regs) in *.
  destruct (inv_threads k Hk _ _ Ht) as [(Hpl & Hla & Hov & _) Hp].
  assert (toBeDestroyed k = None ∨ switched_in (phase_of th)) as Hd.
  { destruct (toBeDestroyed k) as [d|] eqn:Hd; [| by left].
    destruct (inv_destroyed k Hk d Hd) as (_ & _ & th2 & Ht2 & Hs2). right. congruence. }
  destruct fin.
  - (* finishing *)
    assert (phase_of th = PEnd ∧ rest_of th = c) as [Hph Hrest] by (unfold phase_of, rest_of; by rewrite Hc).
    rewrite Hrest in Hpl. pose proof (decode_resume _ Hpl) as Hdec.
    unfold placed in Hp. rewrite Hph in Hp. destruct (tstatus th) eqn:Hst; try done.
    assert (currentThread k ∉ readyList k) as Hcr by (eapply not_ready; [done.. | by rewrite Hst]).
    assert (n ≠ currentThread k) as Hne by (intros ->; apply Hcr; rewrite Hr; by left).
    assert (phase_of th' = PSusp ∧ rest_of th' = c) as [Hph' Hrest']
      by (unfold phase_of, rest_of; cbn [th' code with_userRegisters with_code]; by rewrite Hdec).
    eapply (sched_dispatch k _ n r th th' nth); [done | done | rewrite Hph; by intros [] | done | done | done | done | exact Hn | done | | | | |].
    + split; [by rewrite Hrest' |]. split; [left; split; [done | by right] |]. split; [exact Hov |].
      split; [done |]. intros Hsp _. by apply Hregs.
    + rewrite decide_False by done. unfold placed. rewrite Hph'. cbn. by rewrite Hst.
    + left. split; [done |]. by intros.
    + intros s sem Hsem Hin. exfalso. destruct (inv_sems k Hk s sem Hsem) as (_ & _ & Hall).
      destruct (Hall _ Hin) as (th2 & Ht2 & _ & [H|H]); congruence.
    + right. done.
  - (* waiting for a semaphore *)
    assert (∃ s o c', c = ILoop s o :: c') as (s & o & c' & ->).
    { unfold placed, phase_of in Hp. unfold rest_of in Hpl. rewrite Hc in Hp, Hpl.
      destruct c as [|i c]; [cbn in Hpl; by inversion Hpl |].
      destruct i; try (cbn in Hpl; by inversion Hpl). by eexists _, _, _. }
    assert (phase_of th = PIdle s ∧ rest_of th = c') as [Hph Hrest] by (unfold phase_of, rest_of; by rewrite Hc).
    unfold placed in Hp. rewrite Hph, Hrest in *.
    assert (tstatus th = BLOCKED ∧ (currentThread k ∉ readyList k) ∧ waiting k s (currentThread k) ∨
      tstatus th = READY ∧ currentThread k ∈ readyList k) as Hst.
    { destruct (tstatus th) eqn:Hst; try done; destruct Hp; [by right | left].
      split; [done |]. split; [| done]. eapply not_ready; [done.. | by rewrite Hst]. }
    eapply (sched_dispatch k _ n r th th' nth); [done | done | rewrite Hph; by intros [] | done | done | done | done | exact Hn | done | | | | |].
    + split; [exact Hpl |]. split; [right |].
      { destruct Hla as [[_ [?|?]]|Hla]; [congruence | congruence | exact Hla]. }
      split; [exact Hov |]. split; [done |]. intros Hsp _. by apply Hregs.
    + destruct (decide (n = currentThread k)) as [->|Hne].
      * split; [| done]. destruct Hst as [(_ & H & _)|[? _]]; [| done]. exfalso. apply H. rewrite Hr. by left.
      * unfold placed. cbn [phase_of th' code with_userRegisters with_code decode fst].
        change (tstatus th') with (tstatus th). change (phase_of th') with (PSuspLoop s).
        destruct Hst as [(-> & Hnr & (sem & Hsem & Hin))|[-> Hin]]; split; try done.
        -- by exists sem.
        -- cbn. rewrite Hr in Hin. apply elem_of_cons in Hin as [?|?]; [congruence | done].
    + left. split; [done |]. intros Hin. change (tstatus th') with (tstatus th). by destruct Hst as [(_ & ? & _)|[? _]].
    + intros s0 sem Hsem Hin. change (tstatus th') with (tstatus th). change (phase_of th') with (PSuspLoop s).
      destruct (inv_sems k Hk s0 sem Hsem) as (_ & _ & Hall). destruct (Hall _ Hin) as (th2 & Ht2 & Hst2 & Hil).
      rewrite Ht in Ht2. injection Ht2 as <-. split; [done |]. right. destruct Hil; congruence.
    + left. cbn. destruct Hd as [?|Hd]; [done |]. done.
Qed.

Lemma sched_block k th s o c sem : sched_inv k → threads k !! currentThread k = Some th →
  code th = ILoop s o :: c → semaphores k !! s = Some sem → value sem = 0 →
  sched_inv (set_thread (with_semaphores k
      (<[s := mkSem (value sem) (queue sem ++ [currentThread k])]> (semaphores k)))
    (currentThread k) (with_status_of (with_code th (IIdle false :: ILoop s o :: c)) BLOCKED)).
Proof.
  intros Hk Ht Hc Hs Hz. destruct (loop_code k th s o c Hk Ht Hc) as (Hph & Hpl & Hla).
  destruct (current_running k th Hk Ht) as [Hst Hd]; [by right; exists s |].
  destruct (inv_threads k Hk _ _ Ht) as [(_ & _ & Hov & Hlen & Hreg) _].
  assert (currentThread k ∉ readyList k) as Hcr by (eapply not_ready; [done.. | by rewrite Hst]).
  assert (∀ s sem, semaphores k !! s = Some sem → currentThread k ∉ queue sem) as Hcq
    by (intros s0 sem0 H0; eapply not_waiting; [done | exact Ht | by rewrite Hst | exact H0]).
  set (cur := currentThread k) in *. set (th' := with_status_of _ BLOCKED).
  set (m := <[s := _]> (semaphores k)).
  assert (∀ s0 t, waiting k s0 t → ∃ sem', m !! s0 = Some sem' ∧ t ∈ queue sem') as Hw.
  { intros s0 t (sem0 & H0 & Hin). unfold m. destruct (decide (s0 = s)) as [->|Hne].
    - rewrite lookup_insert_eq. eexists. split; [done |]. cbn. apply elem_of_app. left. congruence.
    - rewrite lookup_insert_ne by done. by exists sem0. }
  constructor; cbn [set_thread with_threads with_semaphores currentThread readyList toBeDestroyed threads semaphores nextThread].
  - intros t th0. destruct (decide (t = cur)) as [->|Hne].
    + rewrite lookup_insert_eq. intros [= <-]. split.
      * split; [exact Hpl |]. split; [by right |]. split; [exact Hov |]. split; [done |].
        intros _ [?|[? ?]]; done.
      * unfold placed. cbn. split; [done |]. exists (mkSem (value sem) (queue sem ++ [cur])). cbn. unfold m.
        rewrite lookup_insert_eq. split; [done |]. cbn. apply elem_of_app. right. by left.
    + rewrite lookup_insert_ne by done. intros H0. destruct (inv_threads k Hk t th0 H0) as [Hok Hp]. split; [done |].
      eapply placed_mono; [exact Hp | done | done | | done]. intros s0 _ Hw0. unfold waiting. by apply Hw.
  - rewrite lookup_insert_eq. eauto.
  - apply Hk.
  - intros t Hin. rewrite lookup_insert_ne by (intros <-; done). by apply (inv_ready k Hk).
  - intros s0 sem0. unfold m. assert (∀ t, t ∈ cur :: nil → ∃ th0, <[cur:=th']> (threads k) !! t = Some th0 ∧
        tstatus th0 = BLOCKED ∧ in_loop s (phase_of th0)) as Hcur.
    { intros t ->%list_elem_of_singleton. rewrite lookup_insert_eq. eexists. split; [done |]. split; [done |]. by left. }
    assert (∀ s1 sem1, semaphores k !! s1 = Some sem1 → ∀ t, t ∈ queue sem1 → ∃ th0,
       <[cur:=th']> (threads k) !! t = Some th0 ∧ tstatus th0 = BLOCKED ∧ in_loop s1 (phase_of th0)) as Hold.
    { intros s1 sem1 H1 t Hin. rewrite lookup_insert_ne by (intros <-; by eapply Hcq). by apply (inv_sems k Hk s1 sem1 H1). }
    destruct (decide (s0 = s)) as [->|Hne].
    + rewrite lookup_insert_eq. intros [= <-]. cbn. destruct (inv_sems k Hk s sem Hs) as (Hv & Hn & _).
      split; [lia |]. split.
      * apply NoDup_app. split; [done |]. split; [| apply NoDup_singleton].
        intros t Hin ->%list_elem_of_singleton. by eapply Hcq.
      * intros t [Hin|Hin]%elem_of_app; [by eapply Hold | by apply Hcur].
    + rewrite lookup_insert_ne by done. intros H0. destruct (inv_sems k Hk s0 sem0 H0) as (? & ? & _).
      split; [done |]. split; [done |]. by eapply Hold.
  - intros d H0. congruence.
  - intros t Hlt. rewrite lookup_insert_ne; [by apply Hk |]. intros <-. by rewrite (inv_fresh k Hk _ Hlt) in Ht.
Qed.

Lemma sched_finish k th c : sched_inv k → threads k !! currentThread k = Some th → code th = IFinish :: c →
  sched_inv (set_thread k (currentThread k) (with_status_of (with_code th (IIdle true :: c)) BLOCKED)).
Proof.
  intros Hk Ht Hc. assert (phase_of th = PRun) as Hph by (unfold phase_of; by rewrite Hc).
  destruct (run_code k th Hk Ht Hph) as [Hpl Hla]. rewrite Hc in Hpl. apply Forall_cons in Hpl as [_ Hpl].
  destruct (current_running k th Hk Ht) as [Hst Hd]; [by left |].
  destruct (inv_threads k Hk _ _ Ht) as [(_ & _ & Hov & Hlen & Hreg) _].
  apply sched_set_thread with th; [done | done | | done | | |].
  - split; [exact Hpl |]. split; [left; by split; [| left] |]. split; [exact Hov |]. split; [done |].
    intros _ [?|[? ?]]; done.
  - intros Hin. exfalso. eapply not_ready; [done | exact Ht | by rewrite Hst | done].
  - intros s sem Hsem Hin. exfalso. eapply (not_waiting k); [done | exact Ht | by rewrite Hst | done | done].
  - intros d H0. congruence.
Qed.

Lemma sched_space k th a : sched_inv k → threads k !! currentThread k = Some th → phase_of th = PRun →
  sched_inv (set_thread k (currentThread k) (with_space th a)).
Proof.
  intros Hk Ht Hph. destruct (inv_threads k Hk _ _ Ht) as [(Hpl & Hla & Hov & Hlen & Hreg) Hp].
  destruct (current_running k th Hk Ht) as [Hst Hd]; [by left |].
  apply sched_set_thread with th; [done | done | | exact Hp | | |].
  - split; [exact Hpl |]. split; [exact Hla |]. split; [exact Hov |]. split; [done |].
    change (phase_of (with_space th a)) with (phase_of th). rewrite Hph. intros _ [?|[? ?]]; done.
  - intros Hin. exfalso. eapply not_ready; [done | exact Ht | by rewrite Hst | done].
  - intros s sem Hsem Hin. exfalso. eapply (not_waiting k); [done | exact Ht | by rewrite Hst | done | done].
  - intros d H0. congruence.
Qed.

Lemma sched_fork k th body : sched_inv k → threads k !! currentThread k = Some th → Forall static body →
  sched_inv (with_ready (with_nextThread
      (set_thread k (nextThread k) (with_status_of (Thread_new body) READY)) (nextThread k + 1))
    (readyList k ++ [nextThread k])).
Proof.
  intros Hk Ht Hb. set (t := nextThread k). set (th' := with_status_of _ READY).
  assert (threads k !! t = None) as Hf by (apply (inv_fresh k Hk); unfold t; lia).
  assert (∀ t0 th0, threads k !! t0 = Some th0 → t0 ≠ t) as Hne by (intros t0 th0 H0 ->; congruence).
  assert (∀ t0 th0, threads k !! t0 = Some th0 → <[t:=th']> (threads k) !! t0 = Some th0) as Hlk
    by (intros t0 th0 H0; by rewrite lookup_insert_ne by (intros <-; by eapply Hne)).
  constructor; cbn [set_thread with_threads with_ready with_nextThread currentThread readyList toBeDestroyed threads semaphores nextThread].
  - intros t0 th0. destruct (decide (t0 = t)) as [->|Hn].
    + rewrite lookup_insert_eq. intros [= <-]. split.
      * split; [cbn; apply Forall_app; split; [by apply static_all_plain | by repeat constructor] |].
        split; [right; unfold rest_of; cbn; by rewrite last_snoc |].
        split; [done |]. split; [done |]. intros [? ?] _. done.
      * unfold placed. cbn. split; [by intros H; apply (Hne _ _ Ht) |]. apply elem_of_app. right. by left.
    + rewrite lookup_insert_ne by done. intros H0. destruct (inv_threads k Hk t0 th0 H0) as [? Hp]. split; [done |].
      eapply placed_mono; [exact Hp | done | cbn; rewrite elem_of_app; by left | done | done].
  - rewrite (Hlk _ _ Ht). eauto.
  - apply NoDup_app. split; [apply Hk |]. split; [| apply NoDup_singleton].
    intros t0 Hin ->%list_elem_of_singleton. destruct (inv_ready k Hk t Hin) as (? & ? & _). congruence.
  - intros t0 [Hin | ->%list_elem_of_singleton]%elem_of_app.
    + destruct (inv_ready k Hk t0 Hin) as (th0 & H0 & ?). rewrite (Hlk _ _ H0). eauto.
    + rewrite lookup_insert_eq. by exists th'.
  - intros s sem Hs. destruct (inv_sems k Hk s sem Hs) as (Hv & Hnq & Hall). split; [done |]. split; [done |].
    intros t0 Hin. destruct (Hall t0 Hin) as (th0 & H0 & ?). rewrite (Hlk _ _ H0). eauto.
  - intros d Hd. destruct (inv_destroyed k Hk d Hd) as (Hdc & (thd & H1 & Hthd) & thc & H2 & Hthc). split; [done |].
    rewrite (Hlk _ _ H1), (Hlk _ _ H2). split; eexists; by split.
  - intros t0 Hlt. rewrite lookup_insert_ne by (unfold t; lia). apply (inv_fresh k Hk). lia.
Qed.

Lemma sched_resume k th i c m d : sched_inv k → threads k !! currentThread k = Some th →
  code th = i :: c → i = IResume ∨ i = IBegin →
  (toBeDestroyed k = None ∧ m = threads k ∨ toBeDestroyed k = Some d ∧ m = delete d (threads k)) →
  sched_inv (with_destroyed (with_threads k (<[currentThread k := with_code th c]> m)) None).
Proof.
  intros Hk Ht Hc Hi Hm. destruct (inv_threads k Hk _ _ Ht) as [(Hpl & Hla & Hov & Hlen & Hreg) Hp].
  set (cur := currentThread k) in *.
  assert (toBeDestroyed k ≠ Some cur) as Hdc by (intros H; by destruct (inv_destroyed k Hk _ H)).
  assert (tstatus th = RUNNING ∧ Forall plain (rest_of th) ∧ last (rest_of th) = Some IFinish ∧
    ((decode c).1 = PRun ∨ ∃ s, (decode c).1 = PLoop s) ∧ (decode c).2 = rest_of th) as (Hst & _ & Hla' & Hph & Hrest).
  { assert (switched_in (phase_of th)) as Hsw.
    { unfold phase_of. rewrite Hc. destruct Hi as [-> | ->]; [| done]. cbn. destruct c as [|j c0]; [done |]. by destruct j. }
    assert (tstatus th = RUNNING) as Hst.
    { unfold placed in Hp. destruct (phase_of th), (tstatus th); try done; try (by destruct Hp); congruence. }
    split; [done |]. split; [done |]. split; [destruct Hla as [[? _]|]; [congruence | done] |].
    unfold rest_of in *. rewrite Hc in *. destruct Hi as [-> | ->]; cbn in *.
    - destruct c as [|j c]; [by split; [left |] |].
      destruct j; try (rewrite decode_plain by (cbn in Hpl; by apply Forall_cons in Hpl as [? _]); by split; [left |]).
      by split; [right; eexists |].
    - rewrite decode_all_plain by done. by split; [left |]. }
  assert (∀ t th0, m !! t = Some th0 → threads k !! t = Some th0 ∧ toBeDestroyed k ≠ Some t) as Hmk.
  { intros t th0 H0. destruct Hm as [[Hn ->]|[Hd ->]]; [by rewrite Hn |].
    apply lookup_delete_Some in H0 as [? ?]. split; [done |]. congruence. }
  assert (∀ t th0, threads k !! t = Some th0 → toBeDestroyed k ≠ Some t → m !! t = Some th0) as Hkm.
  { intros t th0 H0 Hnd. destruct Hm as [[Hn ->]|[Hd ->]]; [done |]. apply lookup_delete_Some. split; [congruence | done]. }
  assert (∀ t, (t ∈ readyList k ∨ ∃ s sem, semaphores k !! s = Some sem ∧ t ∈ queue sem) →
    t ≠ cur ∧ toBeDestroyed k ≠ Some t) as Hlive.
  { intros t Hin. split.
    - intros ->. destruct Hin as [Hin|(s & sem & Hsem & Hin)].
      + eapply not_ready; [done | exact Ht | by rewrite Hst | done].
      + eapply (not_waiting k); [done | exact Ht | by rewrite Hst | done | done].
    - intros Hd. destruct (inv_destroyed k Hk _ Hd) as (_ & (thd & Hthd & Hsd & Hpd) & _).
      destruct Hin as [Hin|(s & sem & Hsem & Hin)].
      + destruct (inv_ready k Hk t Hin) as (? & ? & ?). congruence.
      + destruct (inv_sems k Hk s sem Hsem) as (_ & _ & Hall). destruct (Hall t Hin) as (th0 & H0 & _ & [?|?]); congruence. }
  constructor; cbn [with_threads with_destroyed currentThread readyList toBeDestroyed threads semaphores nextThread].
  - intros t th0. destruct (decide (t = cur)) as [->|Hne].
    + rewrite lookup_insert_eq. intros [= <-]. split.
      * unfold thread_ok, rest_of, phase_of. cbn [code with_code]. rewrite Hrest. split; [exact Hpl |].
        split; [by right |]. split; [exact Hov |]. split; [done |].
        intros _. destruct Hph as [-> |[s ->]]; intros [?|[? ?]]; done.
      * unfold placed, phase_of. cbn [code with_code tstatus]. rewrite Hst. by destruct Hph as [-> |[s ->]].
    + rewrite lookup_insert_ne by done. intros [H0 Hnd]%Hmk. destruct (inv_threads k Hk t th0 H0) as [? Hp0].
      split; [done |]. by eapply placed_mono.
  - rewrite lookup_insert_eq. eauto.
  - apply Hk.
  - intros t Hin. destruct (Hlive t) as [Hl1 Hl2]; [by left |]. rewrite lookup_insert_ne by done.
    destruct (inv_ready k Hk t Hin) as (th0 & Hx & ?). exists th0. split; [by apply Hkm | done].
  - intros s sem Hs. destruct (inv_sems k Hk s sem Hs) as (Hv & Hnq & Hall). split; [done |]. split; [done |].
    intros t Hin. destruct (Hlive t) as [Hl1 Hl2]; [by right; eauto |]. rewrite lookup_insert_ne by done.
    destruct (Hall t Hin) as (th0 & Hx & ?). exists th0. split; [by apply Hkm | done].
  - done.
  - intros t Hlt. pose proof (inv_fresh k Hk t Hlt) as Hf. rewrite lookup_insert_ne by congruence.
    destruct (m !! t) as [th0|] eqn:H0; [| done]. apply Hmk in H0 as [? _]. congruence.
Qed.
End sched.
