(* ===== verification/Waiters.v ===== *)
(** * Threads waiting on conditions

    The semaphores that [Condition::Wait] allocates: each is owned by the thread
    that allocated it, stands in the queue of one condition until a signal
    takes it off, and has been raised exactly when it no longer does
    ([cond_inv]).  With this, every change of the threads' state keeps
    [sched_inv]. *)

From S2P Require Import Prelude Machine Lists Mips HostFile AddrSpace Interrupt Threads Sched.
Local Open Scope Z_scope.

Section waiters.
Context {X E : Type}.
#[local] Abbreviation instr := (instr X).
#[local] Abbreviation Thread := (Thread X).
#[local] Abbreviation Threads := (Threads X E).
Implicit Types (k : Threads) (th : Thread) (i : instr) (c ins : list instr) (t : Z).

(** ** The semaphores of waiting threads *)

(** Among the waiters' semaphores, those a thread will delete, and those it has
    still to pass. *)
Fixpoint deletes c : list Z :=
  match c with
  | [] => []
  | IDelete (SWait n) :: c => n :: deletes c
  | _ :: c => deletes c
  end.

Fixpoint passes c : list Z :=
  match c with
  | [] => []
  | IP (SWait n) :: c | ILoop (SWait n) _ :: c => n :: passes c
  | _ :: c => passes c
  end.

(** A waiter's semaphore is passed once and then deleted once, by the thread
    that allocated it. *)
Fixpoint owned c : Prop :=
  match c with
  | [] => True
  | i :: c =>
      owned c ∧
      match i with
      | IP (SWait n) | ILoop (SWait n) _ => n ∈ deletes c ∧ (n ∉ passes c)
      | IDelete s => match s with SWait n => (n ∉ deletes c) ∧ (n ∉ passes c) | _ => False end
      | _ => True
      end
  end.

Definition queued k (n : Z) : Prop := ∃ cv ws, conditions k !! cv = Some ws ∧ SWait n ∈ ws.

Record cond_inv k : Prop := {
  inv_owned : ∀ t th, threads k !! t = Some th → owned (code th);
  inv_owner : ∀ t th t' th' n, threads k !! t = Some th → threads k !! t' = Some th' →
    n ∈ deletes (code th) → n ∈ deletes (code th') → t = t';
  inv_alive : ∀ t th n, threads k !! t = Some th → n ∈ deletes (code th) →
    n < nextWaiter k ∧ is_Some (semaphores k !! SWait n);
  inv_waiters : ∀ cv ws w, conditions k !! cv = Some ws → w ∈ ws →
    ∃ n sem, w = SWait n ∧ n < nextWaiter k ∧ semaphores k !! w = Some sem ∧ value sem = 0;
  inv_once : ∀ cv ws, conditions k !! cv = Some ws → NoDup ws ∧
    ∀ cv' ws' w, conditions k !! cv' = Some ws' → w ∈ ws → w ∈ ws' → cv = cv';
  inv_signalled : ∀ t th n, threads k !! t = Some th → n ∈ passes (code th) → ¬ queued k n →
    ∃ sem, semaphores k !! SWait n = Some sem ∧ value sem = 1 ∧ queue sem = [];
  inv_passed : ∀ t th n, threads k !! t = Some th → n ∈ deletes (code th) → queued k n →
    n ∈ passes (code th) }.

Lemma deletes_app ins c : Forall static ins → deletes (ins ++ c) = deletes c.
Proof. induction 1 as [|i ins Hi Hins IH]; [done |]. by destruct i as [s| | | | | | | | | | | | | |s| |s| | | | |]; cbn; rewrite ?IH. Qed.

Lemma passes_app ins c : Forall static ins → passes (ins ++ c) = passes c.
Proof. induction 1 as [|i ins Hi Hins IH]; [done |]. by destruct i as [[]| | | | | | | | | | | | | |s| |s| | | | |]; cbn; rewrite ?IH. Qed.

Lemma owned_app ins c : Forall static ins → owned c → owned (ins ++ c).
Proof. induction 1 as [|i ins Hi Hins IH]; [done |]. by destruct i as [[]| | | | | | | | | | | | | |s| |s| | | | |]; cbn; auto. Qed.

Lemma passes_deletes c n : owned c → n ∈ passes c → n ∈ deletes c.
Proof.
  induction c as [|i c IH]; cbn; [done |]. intros [Ho Hi] Hn.
  destruct i as [[]| | | | | | | | | | | | | |[]| |[]| | | | |]; try (by apply IH); cbn in Hn.
  - apply elem_of_cons in Hn as [->|Hn]; [tauto | by apply IH].
  - apply elem_of_cons in Hn as [->|Hn]; [tauto | by apply IH].
  - destruct Hi as [Hi1 Hi2]. apply elem_of_cons. right. by apply IH.
Qed.

(** Who waits on a waiter's semaphore owns it. *)
Lemma waiting_owner k t n sem : sched_inv k → cond_inv k → semaphores k !! SWait n = Some sem → t ∈ queue sem →
  ∃ th, threads k !! t = Some th ∧ tstatus th = BLOCKED ∧ n ∈ passes (code th) ∧ n ∈ deletes (code th).
Proof.
  intros Hk Hc Hs Hin. destruct (inv_sems k Hk _ _ Hs) as (_ & _ & Hall).
  destruct (Hall t Hin) as (th & Ht & Hst & Hph). exists th. split; [done |]. split; [done |].
  assert (n ∈ passes (code th)) as Hp.
  { destruct Hph as [Hph|Hph]; unfold phase_of in Hph; destruct (code th) as [|i c]; try done;
      destruct i; try done; try (destruct finishing; try done); destruct c as [|j c]; try done; destruct j; try done;
      cbn in Hph; injection Hph as ->; by left. }
  split; [done |]. eapply passes_deletes; [by eapply (inv_owned k Hc) | done].
Qed.

Lemma no_one_else_waits k th n sem : sched_inv k → cond_inv k → threads k !! currentThread k = Some th →
  tstatus th = RUNNING → n ∈ deletes (code th) → semaphores k !! SWait n = Some sem → queue sem = [].
Proof.
  intros Hk Hc Ht Hst Hn Hs. destruct (queue sem) as [|t q] eqn:Hq; [done |]. exfalso.
  destruct (waiting_owner k t n sem Hk Hc Hs) as (th' & Ht' & Hst' & _ & Hn'); [rewrite Hq; by left |].
  pose proof (inv_owner k Hc _ _ _ _ n Ht Ht' Hn Hn'). subst t. congruence.
Qed.

(** Changes that leave the waiters' semaphores alone. *)
Definition code_alike c c' : Prop :=
  deletes c' = deletes c ∧ passes c' = passes c ∧ (owned c → owned c').

Lemma code_alike_refl c : code_alike c c.
Proof. done. Qed.

Lemma cond_frame k k' : cond_inv k →
  (∀ t th', threads k' !! t = Some th' →
     (∃ th, threads k !! t = Some th ∧ code_alike (code th) (code th')) ∨
     deletes (code th') = [] ∧ passes (code th') = [] ∧ owned (code th')) →
  nextWaiter k' = nextWaiter k → conditions k' = conditions k →
  (∀ n sem, semaphores k !! SWait n = Some sem → ∃ sem', semaphores k' !! SWait n = Some sem' ∧
     value sem' = value sem ∧ (queue sem' = queue sem ∨ value sem = 0)) →
  cond_inv k'.
Proof.
  intros Hc Hth Hnw Hcond Hsem.
  assert (∀ n, queued k' n ↔ queued k n) as Hqd by (intros n; unfold queued; by rewrite Hcond).
  assert (∀ t th', threads k' !! t = Some th' → ∀ n, n ∈ deletes (code th') ∨ n ∈ passes (code th') →
    ∃ th, threads k !! t = Some th ∧ deletes (code th') = deletes (code th) ∧ passes (code th') = passes (code th)) as Hold.
  { intros t th' Ht' n Hn. destruct (Hth t th' Ht') as [(th & Ht & Hd & Hp & _)|(Hd & Hp & _)]; [by exists th |].
    rewrite Hd, Hp in Hn. by destruct Hn as [Hn|Hn]; apply elem_of_nil in Hn. }
  constructor.
  - intros t th' Ht'. destruct (Hth t th' Ht') as [(th & Ht & _ & _ & Ho)|(_ & _ & Ho)]; [| done].
    apply Ho. by eapply (inv_owned k Hc).
  - intros t1 th1 t2 th2 n H1 H2 Hn1 Hn2.
    destruct (Hold _ _ H1 n) as (o1 & Ho1 & Hd1 & _); [by left |]. destruct (Hold _ _ H2 n) as (o2 & Ho2 & Hd2 & _); [by left |].
    rewrite Hd1 in Hn1. rewrite Hd2 in Hn2. by eapply (inv_owner k Hc).
  - intros t th' n Ht' Hn. destruct (Hold _ _ Ht' n) as (th & Ht & Hd & _); [by left |]. rewrite Hd in Hn.
    destruct (inv_alive k Hc _ _ _ Ht Hn) as [? [sem Hs]]. rewrite Hnw. split; [done |].
    destruct (Hsem n sem Hs) as (sem' & -> & _). eauto.
  - intros cv ws w Hcv Hw. rewrite Hcond in Hcv. destruct (inv_waiters k Hc _ _ _ Hcv Hw) as (n & sem & -> & ? & Hs & Hv).
    destruct (Hsem n sem Hs) as (sem' & Hs' & Hv' & _). exists n, sem'. rewrite Hnw. split; [done |]. split; [done |].
    split; [done |]. congruence.
  - rewrite Hcond. apply Hc.
  - intros t th' n Ht' Hn Hq. rewrite Hqd in Hq. destruct (Hold _ _ Ht' n) as (th & Ht & _ & Hp); [by right |].
    rewrite Hp in Hn. destruct (inv_signalled k Hc _ _ _ Ht Hn Hq) as (sem & Hs & Hv & Hqu).
    destruct (Hsem n sem Hs) as (sem' & Hs' & Hv' & [Hq'|?]); [| lia]. exists sem'. split; [done |]. split; congruence.
  - intros t th' n Ht' Hn Hq. rewrite Hqd in Hq. destruct (Hold _ _ Ht' n) as (th & Ht & Hd & Hp); [by left |].
    rewrite Hp. rewrite Hd in Hn. by eapply (inv_passed k Hc).
Qed.

Definition is_waiter (s : semid) : bool := match s with SWait _ => true | _ => false end.

Lemma wake_threads k s k' : wake k s = Ok k' →
  currentThread k' = currentThread k ∧ conditions k' = conditions k ∧ locks k' = locks k ∧
  nextWaiter k' = nextWaiter k ∧ toBeDestroyed k' = toBeDestroyed k ∧ env k' = env k ∧ nextThread k' = nextThread k ∧
  (∀ t th', threads k' !! t = Some th' → ∃ th, threads k !! t = Some th ∧
     (th' = th ∨ th' = with_status_of th READY)) ∧
  (∀ t th, threads k !! t = Some th → ∃ th', threads k' !! t = Some th' ∧ (th' = th ∨ th' = with_status_of th READY)) ∧
  (∀ s', s' ≠ s → semaphores k' !! s' = semaphores k !! s').
Proof.
  intros (sem & Hs & _ & Hq)%wake_Ok. destruct (queue sem) as [|t q].
  - subst k'. repeat (split; [done |]). split; [eauto |]. split; [eauto |].
    intros s' Hne. cbn. by rewrite lookup_insert_ne.
  - destruct Hq as (th & Ht & _ & ->). repeat (split; [done |]). split; [| split].
    + intros t0 th'. cbn. destruct (decide (t0 = t)) as [->|Hne].
      * rewrite lookup_insert_eq. intros [= <-]. eauto.
      * rewrite lookup_insert_ne by done. eauto.
    + intros t0 th0 H0. cbn. destruct (decide (t0 = t)) as [->|Hne].
      * rewrite lookup_insert_eq. rewrite Ht in H0. injection H0 as <-. eauto.
      * rewrite lookup_insert_ne by done. eauto.
    + intros s' Hne. cbn. by rewrite lookup_insert_ne.
Qed.

Lemma cond_wake_other k s k' : cond_inv k → is_waiter s = false → wake k s = Ok k' → cond_inv k'.
Proof.
  intros Hc Hs Hw. destruct (wake_threads k s k' Hw) as (_ & Hcond & _ & Hnw & _ & _ & _ & Hth & _ & Hsem).
  apply cond_frame with k; [done | | done | done |].
  - intros t th' Ht'. left. destruct (Hth t th' Ht') as (th & Ht & Hst). exists th. split; [done |].
    by destruct Hst as [-> | ->].
  - intros n sem Hsn. exists sem. rewrite Hsem by (by intros <-). auto.
Qed.

Lemma cond_signal k cv w ws k' : sched_inv k → cond_inv k → conditions k !! cv = Some (w :: ws) →
  wake (with_conditions k (<[cv := ws]> (conditions k))) w = Ok k' → cond_inv k'.
Proof.
  intros Hk Hc Hcv Hw.
  destruct (inv_waiters k Hc cv _ w Hcv) as (n & sem & -> & Hn & Hs & Hv); [by left |].
  destruct (inv_once k Hc cv _ Hcv) as [Hnd Honce]. apply NoDup_cons in Hnd as [Hnw Hnd].
  destruct (wake_threads _ _ _ Hw) as (_ & Hcond & _ & Hnx & _ & _ & _ & Hth & _ & Hsem). cbn in *.
  assert (∃ sem', semaphores k' !! SWait n = Some sem' ∧ value sem' = 1 ∧ queue sem' = []) as (sem' & Hs' & Hv' & Hq').
  { apply wake_Ok in Hw as (sem0 & Hs0 & _ & Hq). cbn in *. rewrite Hs in Hs0. injection Hs0 as <-. rewrite Hv in Hq.
    destruct (queue sem) as [|t q] eqn:Hqu.
    - subst k'. eexists. cbn. by rewrite lookup_insert_eq.
    - destruct Hq as (th & Ht & _ & ->). eexists. cbn. rewrite lookup_insert_eq. split; [done |]. split; [done |]. cbn.
      destruct q as [|t' q]; [done |]. exfalso.
      destruct (waiting_owner k t n sem Hk Hc Hs) as (th1 & H1 & _ & _ & Hn1); [rewrite Hqu; by left |].
      destruct (waiting_owner k t' n sem Hk Hc Hs) as (th2 & H2 & _ & _ & Hn2); [rewrite Hqu; right; by left |].
      pose proof (inv_owner k Hc _ _ _ _ n H1 H2 Hn1 Hn2). subst t'.
      destruct (inv_sems k Hk _ _ Hs) as (_ & Hndq & _). rewrite Hqu in Hndq.
      apply NoDup_cons in Hndq as [Hndq _]. apply Hndq. by left. }
  assert (∀ m, queued k' m ↔ queued k m ∧ m ≠ n) as Hqd.
  { intros m. unfold queued. rewrite Hcond. split.
    - intros (cv' & ws' & Hcv' & Hin). destruct (decide (cv' = cv)) as [->|Hne].
      + rewrite lookup_insert_eq in Hcv'. injection Hcv' as <-. split; [exists cv, (SWait n :: ws); split; [done | by right] |].
        intros ->. done.
      + rewrite lookup_insert_ne in Hcv' by done. split; [by exists cv', ws' |]. intros ->. apply Hne.
        symmetry. apply (Honce cv' ws' (SWait n)); [done | by left | done].
    - intros ((cv' & ws' & Hcv' & Hin) & Hne). destruct (decide (cv' = cv)) as [->|Hne'].
      + rewrite Hcv in Hcv'. injection Hcv' as <-. apply elem_of_cons in Hin as [?|Hin]; [congruence |].
        exists cv, ws. by rewrite lookup_insert_eq.
      + exists cv', ws'. by rewrite lookup_insert_ne. }
  assert (∀ t th', threads k' !! t = Some th' → ∃ th, threads k !! t = Some th ∧ code th' = code th) as Hcode.
  { intros t th' Ht'. destruct (Hth t th' Ht') as (th & Ht & [-> | ->]); by exists th. }
  assert (∀ m, m ≠ n → semaphores k' !! SWait m = semaphores k !! SWait m) as Hother
    by (intros m Hm; apply Hsem; congruence).
  constructor.
  - intros t th' Ht'. destruct (Hcode _ _ Ht') as (th & Ht & ->). by eapply (inv_owned k Hc).
  - intros t1 th1 t2 th2 m H1 H2 Hm1 Hm2. destruct (Hcode _ _ H1) as (o1 & Ho1 & He1), (Hcode _ _ H2) as (o2 & Ho2 & He2).
    rewrite He1 in Hm1. rewrite He2 in Hm2. by eapply (inv_owner k Hc).
  - intros t th' m Ht' Hm. destruct (Hcode _ _ Ht') as (th & Ht & He). rewrite He in Hm. rewrite Hnx.
    destruct (inv_alive k Hc _ _ _ Ht Hm) as [? ?]. split; [done |].
    destruct (decide (m = n)) as [->|?]; [rewrite Hs'; eauto | by rewrite Hother].
  - intros cv' ws' w Hcv' Hin.
    assert (∃ ws0, conditions k !! cv' = Some ws0 ∧ w ∈ ws0 ∧ w ≠ SWait n) as (ws0 & H0 & Hin0 & Hne).
    { rewrite Hcond in Hcv'. destruct (decide (cv' = cv)) as [->|Hne].
      - rewrite lookup_insert_eq in Hcv'. injection Hcv' as <-. eexists. split; [exact Hcv |]. split; [by right |]. by intros ->.
      - rewrite lookup_insert_ne in Hcv' by done. exists ws'. split; [done |]. split; [done |]. intros ->. apply Hne.
        symmetry. apply (Honce cv' ws' (SWait n)); [done | by left | done]. }
    destruct (inv_waiters k Hc _ _ _ H0 Hin0) as (m & sem0 & -> & ? & ? & ?). exists m, sem0. rewrite Hnx, Hother by congruence.
    done.
  - rewrite Hcond. intros cv' ws' Hcv'.
    assert (∀ cv0 ws0, <[cv:=ws]> (conditions k) !! cv0 = Some ws0 → ∃ ws1, conditions k !! cv0 = Some ws1 ∧ sublist ws0 ws1) as Hsub.
    { intros cv0 ws0 H0. destruct (decide (cv0 = cv)) as [->|Hne].
      - rewrite lookup_insert_eq in H0. injection H0 as <-. eexists. split; [exact Hcv |]. by apply sublist_cons.
      - rewrite lookup_insert_ne in H0 by done. by exists ws0. }
    destruct (Hsub _ _ Hcv') as (ws1 & H1 & Hs1). destruct (inv_once k Hc _ _ H1) as [Hn1 Ho1].
    split; [by eapply sublist_NoDup |]. intros cv2 ws2 w2 Hcv2 Hin1 Hin2. destruct (Hsub _ _ Hcv2) as (ws3 & H3 & Hs3).
    apply (Ho1 cv2 ws3 w2); [done | exact (elem_of_sublist _ _ _ Hin1 Hs1) | exact (elem_of_sublist _ _ _ Hin2 Hs3)].
  - intros t th' m Ht' Hm Hnq. destruct (Hcode _ _ Ht') as (th & Ht & He). rewrite He in Hm.
    destruct (decide (m = n)) as [->|Hne]; [by exists sem' |]. rewrite Hother by done.
    eapply (inv_signalled k Hc); [done | done |]. intros Hq. apply Hnq, Hqd. done.
  - intros t th' m Ht' Hm Hq. destruct (Hcode _ _ Ht') as (th & Ht & He). rewrite He in *.
    eapply (inv_passed k Hc); [done | done |]. by apply Hqd.
Qed.

(** The current thread's code in a state where it was replaced. *)
Lemma lookup_set_code k th c t th' : threads (set_code k th c) !! t = Some th' →
  t = currentThread k ∧ th' = with_code th c ∨ t ≠ currentThread k ∧ threads k !! t = Some th'.
Proof.
  unfold set_code, set_thread. cbn. destruct (decide (t = currentThread k)) as [->|Hne].
  - rewrite lookup_insert_eq. intros [= <-]. by left.
  - rewrite lookup_insert_ne by done. by right.
Qed.

Lemma cond_set_code k th c : cond_inv k → threads k !! currentThread k = Some th →
  code_alike (code th) c → cond_inv (set_code k th c).
Proof.
  intros Hc Ht Ha. apply cond_frame with k; [done | | done | done | intros n sem Hs; exists sem; auto].
  intros t th' H'. left. destruct (lookup_set_code _ _ _ _ _ H') as [[-> ->]|[_ H0]]; [by exists th | by exists th'].
Qed.

Lemma cond_wait k th cv q l c : cond_inv k → threads k !! currentThread k = Some th →
  code th = IWait cv l :: c → conditions k !! cv = Some q →
  let w := SWait (nextWaiter k) in
  cond_inv (set_code (with_conditions (with_nextWaiter
        (with_semaphores k (<[w := mkSem 0 []]> (semaphores k))) (nextWaiter k + 1))
      (<[cv := q ++ [w]]> (conditions k))) th
    ([IRelease l; IP w; IAcquire l; IDelete w] ++ c)).
Proof.
  intros Hc Ht Hco Hcv w. set (n := nextWaiter k) in *. set (k1 := with_conditions _ _).
  assert (∀ t th, threads k !! t = Some th → n ∉ deletes (code th)) as Hfresh.
  { intros t th0 H0 Hn. destruct (inv_alive k Hc _ _ _ H0 Hn) as [? _]. unfold n in *. lia. }
  assert (∀ t th, threads k !! t = Some th → n ∉ passes (code th)) as Hfresh'.
  { intros t th0 H0 Hn. eapply Hfresh; [exact H0 |]. eapply passes_deletes; [by eapply (inv_owned k Hc) | done]. }
  assert (∀ cv' ws, conditions k !! cv' = Some ws → w ∉ ws) as Hfreshw.
  { intros cv' ws H0 Hin. destruct (inv_waiters k Hc _ _ _ H0 Hin) as (m & ? & [= <-] & ? & _). unfold n in *. lia. }
  assert (∀ m, queued (set_code k1 th ([IRelease l; IP w; IAcquire l; IDelete w] ++ c)) m ↔ queued k m ∨ m = n) as Hqd.
  { intros m. unfold queued. cbn. split.
    - intros (cv' & ws & Hcv' & Hin). destruct (decide (cv' = cv)) as [->|Hne].
      + rewrite lookup_insert_eq in Hcv'. injection Hcv' as <-. apply elem_of_app in Hin as [Hin|Hin].
        * left. by exists cv, q.
        * apply list_elem_of_singleton in Hin. right. by injection Hin.
      + rewrite lookup_insert_ne in Hcv' by done. left. by exists cv', ws.
    - intros [(cv' & ws & Hcv' & Hin)| ->].
      + destruct (decide (cv' = cv)) as [->|Hne].
        * rewrite Hcv in Hcv'. injection Hcv' as <-. exists cv, (q ++ [w]). rewrite lookup_insert_eq.
          split; [done |]. apply elem_of_app. by left.
        * exists cv', ws. by rewrite lookup_insert_ne.
      + exists cv, (q ++ [w]). rewrite lookup_insert_eq. split; [done |]. apply elem_of_app. right. by left. }
  assert (∀ m, m ≠ n → <[w := mkSem 0 []]> (semaphores k) !! SWait m = semaphores k !! SWait m) as Hsem
    by (intros m Hm; rewrite lookup_insert_ne; [done | unfold w; congruence]).
  assert (∀ t th', threads (set_code k1 th ([IRelease l; IP w; IAcquire l; IDelete w] ++ c)) !! t = Some th' →
    ∃ th0, threads k !! t = Some th0 ∧
      (t = currentThread k ∧ deletes (code th') = n :: deletes (code th0) ∧ passes (code th') = n :: passes (code th0) ∨
       t ≠ currentThread k ∧ th' = th0)) as Hold.
  { intros t th' H'. destruct (lookup_set_code _ _ _ _ _ H') as [[-> ->]|[? H0]].
    - exists th. split; [done |]. left. rewrite Hco. done.
    - exists th'. split; [done |]. by right. }
  constructor; cbn [semaphores conditions nextWaiter set_code set_thread with_threads k1 with_conditions with_nextWaiter with_semaphores].
  - intros t th' H'. destruct (lookup_set_code _ _ _ _ _ H') as [[-> ->]|[_ H0]]; [| by eapply (inv_owned k Hc)].
    pose proof (inv_owned k Hc _ _ Ht) as Ho. pose proof (Hfresh _ _ Ht) as Hf1. pose proof (Hfresh' _ _ Ht) as Hf2.
    rewrite Hco in Ho, Hf1, Hf2. cbn in *. destruct Ho as [Ho _]. split; [| done]. split; [split; [split; [done |] | done] |].
    + done.
    + split; [by left | done].
  - intros t1 th1 t2 th2 m H1 H2 Hm1 Hm2.
    destruct (Hold _ _ H1) as (o1 & Ho1 & Hd1), (Hold _ _ H2) as (o2 & Ho2 & Hd2).
    assert (∀ t th0 th', threads k !! t = Some th0 →
      (t = currentThread k ∧ deletes (code th') = n :: deletes (code th0) ∧ passes (code th') = n :: passes (code th0) ∨
       t ≠ currentThread k ∧ th' = th0) → m ∈ deletes (code th') → m = n ∧ t = currentThread k ∨ m ≠ n ∧ m ∈ deletes (code th0)) as Hm.
    { intros t th0 th' H0 Hd Hin. destruct (decide (m = n)) as [->|Hne].
      - left. split; [done |]. destruct Hd as [[-> _]|[_ ->]]; [done |]. exfalso. by eapply Hfresh.
      - right. split; [done |]. destruct Hd as [(_ & Hd & _)|[_ ->]]; [| done]. rewrite Hd in Hin.
        by apply elem_of_cons in Hin as [?|?]. }
    destruct (Hm _ _ _ Ho1 Hd1 Hm1) as [[-> ->]|[Hne Hi1]], (Hm _ _ _ Ho2 Hd2 Hm2) as [[? ->]|[? Hi2]]; try done.
    by eapply (inv_owner k Hc).
  - intros t th' m H' Hm. destruct (Hold _ _ H') as (th0 & H0 & Hd). fold n.
    destruct (decide (m = n)) as [->|Hne]; [split; [lia |]; fold w; rewrite lookup_insert_eq; eauto |].
    assert (m ∈ deletes (code th0)) as Hm0.
    { destruct Hd as [(_ & Hd & _)|[_ ->]]; [| done]. rewrite Hd in Hm. by apply elem_of_cons in Hm as [?|?]. }
    destruct (inv_alive k Hc _ _ _ H0 Hm0) as [? ?]. unfold n in *. split; [lia |]. by rewrite Hsem.
  - intros cv' ws w' Hcv' Hin. fold n. destruct (decide (w' = w)) as [->|Hne].
    { exists n, (mkSem 0 []). rewrite lookup_insert_eq. split; [done |]. split; [lia | done]. }
    assert (∃ ws0, conditions k !! cv' = Some ws0 ∧ w' ∈ ws0) as (ws0 & H0 & Hin0).
    { destruct (decide (cv' = cv)) as [->|Hn].
      - rewrite lookup_insert_eq in Hcv'. injection Hcv' as <-. exists q. split; [done |].
        apply elem_of_app in Hin as [?|Hin]; [done |]. by apply list_elem_of_singleton in Hin.
      - rewrite lookup_insert_ne in Hcv' by done. by exists ws. }
    destruct (inv_waiters k Hc _ _ _ H0 Hin0) as (m & sem & -> & ? & ? & ?). exists m, sem. unfold n in *.
    split; [done |]. split; [lia |]. rewrite Hsem by (intros ->; done). done.
  - intros cv' ws Hcv'.
    assert (∀ cv0 ws0, <[cv:=q ++ [w]]> (conditions k) !! cv0 = Some ws0 →
      ∃ ws1, conditions k !! cv0 = Some ws1 ∧ (ws0 = ws1 ∧ cv0 ≠ cv ∨ ws0 = ws1 ++ [w] ∧ cv0 = cv)) as Hws.
    { intros cv0 ws0 H0. destruct (decide (cv0 = cv)) as [->|Hne].
      - rewrite lookup_insert_eq in H0. injection H0 as <-. exists q. auto.
      - rewrite lookup_insert_ne in H0 by done. exists ws0. auto. }
    destruct (Hws _ _ Hcv') as (ws1 & H1 & Hd1). destruct (inv_once k Hc _ _ H1) as [Hn1 Ho1]. split.
    + destruct Hd1 as [[-> _]|[-> _]]; [done |]. apply NoDup_app. split; [done |]. split; [| apply NoDup_singleton].
      intros x Hx ->%list_elem_of_singleton. by eapply Hfreshw.
    + intros cv2 ws2 w2 Hcv2 Hin1 Hin2. destruct (Hws _ _ Hcv2) as (ws3 & H3 & Hd3).
      destruct (decide (w2 = w)) as [->|Hne].
      * destruct Hd1 as [[-> _]|[_ ->]]; [exfalso; exact (Hfreshw _ _ H1 Hin1) |].
        destruct Hd3 as [[-> _]|[_ ->]]; [exfalso; exact (Hfreshw _ _ H3 Hin2) | done].
      * apply (Ho1 cv2 ws3 w2); [done | |].
        -- destruct Hd1 as [[-> _]|[-> _]]; [done |]. apply elem_of_app in Hin1 as [?|Hx]; [done |].
           by apply list_elem_of_singleton in Hx.
        -- destruct Hd3 as [[-> _]|[-> _]]; [done |]. apply elem_of_app in Hin2 as [?|Hx]; [done |].
           by apply list_elem_of_singleton in Hx.
  - intros t th' m H' Hm Hnq. rewrite Hqd in Hnq. destruct (Hold _ _ H') as (th0 & H0 & Hd).
    assert (m ∈ passes (code th0)) as Hm0.
    { destruct Hd as [(_ & _ & Hd)|[_ ->]]; [| done]. rewrite Hd in Hm. apply elem_of_cons in Hm as [->|?]; [tauto | done]. }
    rewrite Hsem by tauto. eapply (inv_signalled k Hc); [done | done |]. tauto.
  - intros t th' m H' Hm Hq. rewrite Hqd in Hq. destruct (Hold _ _ H') as (th0 & H0 & Hd).
    destruct (decide (m = n)) as [->|Hne].
    + destruct Hd as [(_ & _ & Hd)|[_ ->]]; [rewrite Hd; by left |]. exfalso. by eapply Hfresh.
    + destruct Hq as [Hq|?]; [| done].
      destruct Hd as [(_ & Hd & Hp)|[_ ->]].
      * rewrite Hp. rewrite Hd in Hm. apply elem_of_cons in Hm as [?|Hm]; [done |]. right. by eapply (inv_passed k Hc).
      * by eapply (inv_passed k Hc).
Qed.

Lemma cond_delete k th w c : cond_inv k → threads k !! currentThread k = Some th → code th = IDelete w :: c →
  cond_inv (with_semaphores (set_code k th c) (delete w (semaphores k))).
Proof.
  intros Hc Ht Hco. pose proof (inv_owned k Hc _ _ Ht) as Ho. rewrite Hco in Ho. cbn in Ho.
  destruct Ho as [Ho Hw]. destruct w as [|?|n]; try done. destruct Hw as [Hnd Hnp].
  assert (n ∈ deletes (code th)) as Hown by (rewrite Hco; by left).
  assert (¬ queued k n) as Hnq.
  { intros Hq. pose proof (inv_passed k Hc _ _ _ Ht Hown Hq) as Hp. rewrite Hco in Hp. done. }
  set (k' := with_semaphores _ _).
  assert (∀ t th', threads k' !! t = Some th' → ∃ th0, threads k !! t = Some th0 ∧
    (∀ m, m ∈ deletes (code th') → m ∈ deletes (code th0) ∧ m ≠ n) ∧ passes (code th') = passes (code th0) ∧
    (owned (code th0) → owned (code th'))) as Hold.
  { intros t th' H'. destruct (lookup_set_code k th c t th' H') as [[-> ->]|[Hne H0]].
    - exists th. split; [done |]. rewrite Hco. cbn. split; [| split; [done | by intros [? _]]].
      intros m Hm. split; [by right |]. by intros ->.
    - exists th'. split; [done |]. split; [| done]. intros m Hm. split; [done |]. intros ->.
      apply Hne. by eapply (inv_owner k Hc). }
  assert (∀ m, m ≠ n → delete (SWait n) (semaphores k) !! SWait m = semaphores k !! SWait m) as Hsem
    by (intros m Hm; by rewrite lookup_delete_ne by congruence).
  constructor; cbn.
  - intros t th' H'. destruct (Hold _ _ H') as (th0 & H0 & _ & _ & Hx). apply Hx. by eapply (inv_owned k Hc).
  - intros t1 th1 t2 th2 m H1 H2 Hm1 Hm2. destruct (Hold _ _ H1) as (o1 & Ho1 & Hd1 & _), (Hold _ _ H2) as (o2 & Ho2 & Hd2 & _).
    eapply (inv_owner k Hc); [exact Ho1 | exact Ho2 | by apply Hd1 | by apply Hd2].
  - intros t th' m H' Hm. destruct (Hold _ _ H') as (th0 & H0 & Hd & _). destruct (Hd m Hm) as [Hm0 Hne].
    rewrite Hsem by done. by eapply (inv_alive k Hc).
  - intros cv ws w Hcv Hin. destruct (inv_waiters k Hc _ _ _ Hcv Hin) as (m & sem & -> & ? & ? & ?).
    exists m, sem. rewrite Hsem; [done |]. intros ->. apply Hnq. by exists cv, ws.
  - apply Hc.
  - intros t th' m H' Hm Hq. destruct (Hold _ _ H') as (th0 & H0 & Hd & Hp & _). rewrite Hp in Hm.
    assert (m ≠ n) as Hne.
    { intros ->. assert (n ∈ deletes (code th0)) as Hn0 by (eapply passes_deletes; [by eapply (inv_owned k Hc) | done]).
      pose proof (inv_owner k Hc _ _ _ _ n Ht H0 Hown Hn0). subst t. rewrite Ht in H0. injection H0 as <-.
      rewrite Hco in Hm. done. }
    rewrite Hsem by done. by eapply (inv_signalled k Hc).
  - intros t th' m H' Hm Hq. destruct (Hold _ _ H') as (th0 & H0 & Hd & Hp & _). destruct (Hd m Hm) as [Hm0 Hne].
    rewrite Hp. by eapply (inv_passed k Hc).
Qed.

Lemma cond_take k th s o c sem : cond_inv k → threads k !! currentThread k = Some th → code th = ILoop s o :: c →
  semaphores k !! s = Some sem → value sem ≠ 0 →
  cond_inv (set_code (with_semaphores k (<[s := mkSem (value sem - 1) (queue sem)]> (semaphores k))) th c).
Proof.
  intros Hc Ht Hco Hs Hv. destruct (is_waiter s) eqn:Hw.
  2: { apply cond_frame with k; [done | | done | done |].
       - intros t th' H'. left. destruct (lookup_set_code _ _ _ _ _ H') as [[-> ->]|[_ H0]]; [| by exists th'].
         exists th. split; [done |]. rewrite Hco. destruct s; [| | done]; (split; [done |]; split; [done |]; by intros [? _]).
       - intros n sem0 H0. exists sem0. cbn. rewrite lookup_insert_ne by (by intros ->). auto. }
  destruct s as [| |n]; try done. pose proof (inv_owned k Hc _ _ Ht) as Ho. rewrite Hco in Ho. cbn in Ho.
  destruct Ho as (Ho & Hnd & Hnp).
  assert (¬ queued k n) as Hnq.
  { intros (cv & ws & Hcv & Hin). destruct (inv_waiters k Hc _ _ _ Hcv Hin) as (? & ? & [= <-] & _ & Hs' & ?). congruence. }
  set (k' := set_code _ _ _).
  assert (∀ t th', threads k' !! t = Some th' → ∃ th0, threads k !! t = Some th0 ∧
    deletes (code th') = deletes (code th0) ∧ (∀ m, m ≠ n → m ∈ passes (code th0) ↔ m ∈ passes (code th')) ∧
    (n ∉ passes (code th')) ∧ (owned (code th0) → owned (code th'))) as Hold.
  { intros t th' H'. destruct (lookup_set_code _ _ _ _ _ H') as [[-> ->]|[Hne H0]].
    - exists th. split; [done |]. rewrite Hco. cbn. split; [done |]. split; [| by split; [| intros [? _]]].
      intros m Hm. rewrite elem_of_cons. tauto.
    - exists th'. split; [done |]. split; [done |]. split; [done |]. split; [| done]. intros Hn. apply Hne.
      eapply (inv_owner k Hc); [exact H0 | exact Ht | eapply passes_deletes; [by eapply (inv_owned k Hc) | done] |].
      by rewrite Hco. }
  assert (∀ m, m ≠ n → semaphores k' !! SWait m = semaphores k !! SWait m) as Hsem
    by (intros m Hm; cbn; by rewrite lookup_insert_ne by congruence).
  constructor.
  - intros t th' H'. destruct (Hold _ _ H') as (th0 & H0 & _ & _ & _ & Hx). apply Hx. by eapply (inv_owned k Hc).
  - intros t1 th1 t2 th2 m H1 H2 Hm1 Hm2. destruct (Hold _ _ H1) as (o1 & Ho1 & Hd1 & _), (Hold _ _ H2) as (o2 & Ho2 & Hd2 & _).
    rewrite Hd1 in Hm1. rewrite Hd2 in Hm2. by eapply (inv_owner k Hc).
  - intros t th' m H' Hm. destruct (Hold _ _ H') as (th0 & H0 & Hd & _). rewrite Hd in Hm.
    destruct (inv_alive k Hc _ _ _ H0 Hm) as [? ?]. split; [done |]. destruct (decide (m = n)) as [->|?].
    + cbn. rewrite lookup_insert_eq. eauto.
    + by rewrite Hsem.
  - intros cv ws w Hcv Hin. destruct (inv_waiters k Hc _ _ _ Hcv Hin) as (m & sem0 & -> & ? & ? & ?).
    exists m, sem0. rewrite Hsem; [done |]. intros ->. apply Hnq. by exists cv, ws.
  - apply Hc.
  - intros t th' m H' Hm Hq. destruct (Hold _ _ H') as (th0 & H0 & _ & Hp & Hn & _).
    assert (m ≠ n) as Hne by (by intros ->). rewrite Hsem by done. eapply (inv_signalled k Hc); [done | by apply Hp | done].
  - intros t th' m H' Hm Hq. destruct (Hold _ _ H') as (th0 & H0 & Hd & Hp & _). rewrite Hd in Hm.
    apply Hp; [by intros -> |]. by eapply (inv_passed k Hc).
Qed.

Lemma soft_alike i c ins : soft i → Forall static ins → code_alike (i :: c) (ins ++ c).
Proof.
  intros [Hi _]%soft_static Hins. unfold code_alike. rewrite deletes_app, passes_app by done.
  destruct i as [[]| | | | | | | | | | | | | |s| |s| | | | |]; try done;
    (split; [done |]; split; [done |]; intros [Ho _]; by apply owned_app).
Qed.

Lemma cond_micro k k' : sched_inv k → cond_inv k → micro k k' → cond_inv k'.
Proof.
  intros Hk Hc Hm. destruct Hm as [k th i c ins Ht Hco Hi Hins Hfr|k th ins Ht Hp Hins|k th l c Ht Hco|k th s o c Ht Hco
    |k th s o c sem Ht Hco Hs Hv|k th s o c sem Ht Hco Hs Hv|k n k' Hw|k th l c h Ht Hco Hl|k th l k' Ht Hp Hl Hw
    |k cv w ws k' Hcv Hw|k th cv q l c Ht Hco Hcv w|k th w c Ht Hco|k th body Ht Hp Hb|k th n r nth regs Ht Hp Hr Hn Hlen Hreg
    |k th n r nth nth' c fin regs th' k' Ht Hco Hr Hn Hlen Hreg Hth' Hk' Hn'|k th i c m d Ht Hco Hi Hm
    |k th c Ht Hco|k e|k m Hg|k th a Ht Hp].
  - apply cond_set_code; [done | done |]. rewrite Hco. by apply soft_alike.
  - apply frames_static in Hins. apply cond_set_code; [done | done |]. unfold code_alike. rewrite deletes_app, passes_app by done.
    split; [done |]. split; [done |]. by apply owned_app.
  - apply cond_set_code; [done | done |]. rewrite Hco. split; [done |]. split; [done |]. by intros [? _].
  - apply cond_set_code; [done | done |]. rewrite Hco. by destruct s.
  - by eapply cond_take.
  - apply cond_frame with k; [done | | done | done |].
    + intros t th' H'. left. cbn in H'. destruct (decide (t = currentThread k)) as [->|Hne].
      * rewrite lookup_insert_eq in H'. injection H' as <-. exists th. split; [done |]. rewrite Hco. by destruct s.
      * rewrite lookup_insert_ne in H' by done. by exists th'.
    + intros n sem0 H0. cbn. destruct (decide (SWait n = s)) as [<-|Hne].
      * rewrite lookup_insert_eq. eexists. split; [done |]. cbn. rewrite Hs in H0. injection H0 as <-. auto.
      * rewrite lookup_insert_ne by done. exists sem0. auto.
  - by apply (cond_wake_other k (SUser n)).
  - apply (cond_frame k); [done | | done | done | intros n sem Hs; exists sem; auto].
    intros t th' H'. left. destruct (lookup_set_code k th c t th' H') as [[-> ->]|[_ H0]]; [| by exists th'].
    exists th. split; [done |]. rewrite Hco. split; [done |]. split; [done |]. by intros [? _].
  - eapply cond_wake_other; [| | exact Hw]; [| done].
    apply (cond_frame k); [done | | done | done | intros n sem Hs; exists sem; auto]. intros t th' H'. left. by exists th'.
  - by eapply cond_signal.
  - by eapply cond_wait.
  - by eapply cond_delete.
  - apply (cond_frame k); [done | | done | done | intros n sem Hs; exists sem; auto].
    intros t th' H'. cbn in H'. destruct (decide (t = nextThread k)) as [->|Hne].
    + rewrite lookup_insert_eq in H'. injection H' as <-. right. cbn. rewrite deletes_app, passes_app by done.
      split; [done |]. split; [done |]. split; [| done]. by apply owned_app.
    + rewrite lookup_insert_ne in H' by done. left. by exists th'.
  - apply (cond_frame k); [done | | done | done | intros m sem Hs; exists sem; auto].
    intros t th' H'. left. cbn in H'. destruct (decide (t = n)) as [->|Hne].
    + rewrite lookup_insert_eq in H'. injection H' as <-. by exists nth.
    + rewrite lookup_insert_ne in H' by done. destruct (decide (t = currentThread k)) as [->|Hne'].
      * rewrite lookup_insert_eq in H'. injection H' as <-. exists th. split; [done |]. done.
      * rewrite lookup_insert_ne in H' by done. by exists th'.
  - subst k'. apply (cond_frame k); [done | | done | done | intros m sem Hs; exists sem; auto].
    assert (∀ t th0, <[currentThread k := th']> (threads k) !! t = Some th0 → ∃ th1, threads k !! t = Some th1 ∧
      code_alike (code th1) (code th0)) as Hold.
    { intros t th0 H0. destruct (decide (t = currentThread k)) as [->|Hne'].
      - rewrite lookup_insert_eq in H0. injection H0 as <-. subst th'. exists th. split; [done |]. cbn. rewrite Hco. by destruct fin.
      - rewrite lookup_insert_ne in H0 by done. by exists th0. }
    intros t th0 H0. left. cbn in H0. destruct (decide (t = n)) as [->|Hne]; [| rewrite lookup_insert_ne in H0 by done; by apply Hold].
    rewrite lookup_insert_eq in H0. injection H0 as <-. destruct (Hold n nth' Hn') as (th1 & ? & ?). by exists th1.
  - apply (cond_frame k); [done | | done | done | intros m' sem Hs; exists sem; auto].
    intros t th' H'. left. cbn in H'. destruct (decide (t = currentThread k)) as [->|Hne].
    + rewrite lookup_insert_eq in H'. injection H' as <-. exists th. split; [done |]. rewrite Hco.
      destruct Hi as [-> | ->]; (split; [done |]; split; [done |]; by intros [? _]).
    + rewrite lookup_insert_ne in H' by done. exists th'. split; [| done].
      destruct Hm as [[_ ->]|[_ ->]]; [done |]. by apply lookup_delete_Some in H' as [_ ?].
  - apply (cond_frame k); [done | | done | done | intros n sem Hs; exists sem; auto].
    intros t th' H'. left. cbn in H'. destruct (decide (t = currentThread k)) as [->|Hne].
    + rewrite lookup_insert_eq in H'. injection H' as <-. exists th. split; [done |]. by rewrite Hco.
    + rewrite lookup_insert_ne in H' by done. by exists th'.
  - apply (cond_frame k); [done | | done | done | intros n sem Hs; exists sem; auto]. intros t th' H'. left. by exists th'.
  - apply (cond_frame k); [done | | done | done | intros n sem Hs; exists sem; split; [by apply Hg | auto]].
    intros t th' H'. left. by exists th'.
  - apply (cond_frame k); [done | | done | done | intros n sem Hs; exists sem; auto].
    intros t th' H'. left. cbn in H'. destruct (decide (t = currentThread k)) as [->|Hne].
    + rewrite lookup_insert_eq in H'. injection H' as <-. by exists th.
    + rewrite lookup_insert_ne in H' by done. by exists th'.
Qed.

(** The code below a popped instruction, and with more pushed on it. *)
Lemma popped_code k th i c : sched_inv k → threads k !! currentThread k = Some th → code th = i :: c →
  phase_of th = PRun → i ≠ IFinish → Forall plain c ∧ last c = Some IFinish.
Proof.
  intros Hk Ht Hco Hp Hi. destruct (run_code k th Hk Ht Hp) as [Hpl Hla]. rewrite Hco in *.
  apply Forall_cons in Hpl as [_ Hpl]. split; [done |]. by eapply last_tail.
Qed.

Lemma plain_phase th i c : code th = i :: c → plain i → phase_of th = PRun.
Proof. intros Hco Hi. unfold phase_of. by rewrite Hco, decode_plain. Qed.

Lemma sched_micro k k' : sched_inv k → cond_inv k → micro k k' → sched_inv k'.
Proof.
  intros Hk Hc Hm. destruct Hm as [k th i c ins Ht Hco Hi Hins Hfr|k th ins Ht Hp Hins|k th l c Ht Hco|k th s o c Ht Hco
    |k th s o c sem Ht Hco Hs Hv|k th s o c sem Ht Hco Hs Hv|k n k' Hw|k th l c h Ht Hco Hl|k th l k' Ht Hp Hl Hw
    |k cv w ws k' Hcv Hw|k th cv q l c Ht Hco Hcv w|k th w c Ht Hco|k th body Ht Hp Hb|k th n r nth regs Ht Hp Hr Hn Hlen Hreg
    |k th n r nth nth' c fin regs th' k' Ht Hco Hr Hn Hlen Hreg Hth' Hk' Hn'|k th i c m d Ht Hco Hi Hm
    |k th c Ht Hco|k e|k m Hg|k th a Ht Hp].
  - apply soft_static in Hi as [Hi Hf]. pose proof (plain_phase th i c Hco (static_plain i Hi)) as Hp.
    destruct (popped_code k th i c Hk Ht Hco Hp Hf) as [Hpl Hla].
    apply sched_plain_code; [done | done | by left | apply Forall_app; split; [by apply static_all_plain | done] | by apply last_app_tail].
  - apply frames_static in Hins. destruct (run_code k th Hk Ht Hp) as [Hpl Hla].
    apply sched_plain_code; [done | done | by left | apply Forall_app; split; [by apply static_all_plain | done] | by apply last_app_tail].
  - pose proof (plain_phase th _ c Hco I) as Hp. destruct (popped_code k th _ c Hk Ht Hco Hp ltac:(done)) as [Hpl Hla].
    apply sched_plain_code; [done | done | by left | by repeat constructor | by apply (last_app_tail [_; _])].
  - pose proof (plain_phase th _ c Hco I) as Hp. destruct (popped_code k th _ c Hk Ht Hco Hp ltac:(done)) as [Hpl Hla].
    eapply sched_set_code; [done | done | by left | done | right; by eexists | done | done].
  - destruct (loop_code k th s o c Hk Ht Hco) as (Hp & Hpl & Hla).
    assert (∀ s0 sem0, semaphores k !! s0 = Some sem0 → queue sem0 ≠ [] → 0 <= value sem0) as Hvp by (intros s0 sem0 H0; by apply (inv_sems k Hk s0)).
    apply (sched_plain_code (with_semaphores k _) th c); [| done | right; by eexists | done | done].
    apply sched_sems; [done | |].
    + intros s0 sem0. destruct (decide (s0 = s)) as [->|Hne].
      * rewrite lookup_insert_eq. intros [= <-]. cbn. split; [intros Hq; specialize (Hvp _ _ Hs Hq); lia | right; by exists sem].
      * rewrite lookup_insert_ne by done. intros H0. split; [by eapply Hvp | right; by exists sem0].
    + intros s0 sem0 H0 _. destruct (decide (s0 = s)) as [->|Hne].
      * rewrite lookup_insert_eq. rewrite Hs in H0. injection H0 as <-. by eexists.
      * rewrite lookup_insert_ne by done. by exists sem0.
  - by eapply sched_block.
  - by eapply sched_wake.
  - pose proof (plain_phase th _ c Hco I) as Hp. destruct (popped_code k th _ c Hk Ht Hco Hp ltac:(done)) as [Hpl Hla].
    eapply sched_same; [| apply (sched_plain_code k th c); [done | done | by left | done | done]]. done.
  - eapply sched_wake; [| exact Hw]. by apply (sched_same k).
  - eapply sched_wake; [| exact Hw]. by apply (sched_same k).
  - pose proof (plain_phase th _ c Hco I) as Hp. destruct (popped_code k th _ c Hk Ht Hco Hp ltac:(done)) as [Hpl Hla].
    apply (sched_plain_code (with_conditions _ _)); [| done | by left | by repeat constructor | by apply (last_app_tail [_; _; _; _])].
    apply (sched_same (with_semaphores k (<[w := mkSem 0 []]> (semaphores k)))); [done |].
    assert (∀ sem, semaphores k !! w = Some sem → queue sem = []) as Hq.
    { intros sem Hs. destruct (queue sem) as [|t q0] eqn:Hqu; [done |]. exfalso.
      destruct (waiting_owner k t _ sem Hk Hc Hs) as (th' & Ht' & _ & _ & Hn'); [rewrite Hqu; by left |].
      destruct (inv_alive k Hc _ _ _ Ht' Hn') as [? _]. lia. }
    apply sched_sems; [done | |].
    + intros s0 sem0. destruct (decide (s0 = w)) as [->|Hne].
      * rewrite lookup_insert_eq. intros [= <-]. split; [done | by left].
      * rewrite lookup_insert_ne by done. intros H0. destruct (inv_sems k Hk s0 sem0 H0). split; [done | right; by exists sem0].
    + intros s0 sem0 H0 Hne0. destruct (decide (s0 = w)) as [->|Hne]; [by apply Hq in H0 |].
      rewrite lookup_insert_ne by done. by exists sem0.
  - pose proof (plain_phase th _ c Hco I) as Hp. destruct (popped_code k th _ c Hk Ht Hco Hp ltac:(done)) as [Hpl Hla].
    pose proof (inv_owned k Hc _ _ Ht) as Ho. rewrite Hco in Ho. cbn in Ho. destruct Ho as [_ Hw].
    destruct w as [| |n]; try done. destruct (current_running k th Hk Ht) as [Hst _]; [by left |].
    apply (sched_sems (set_code k th c)).
    + apply sched_plain_code; [done | done | by left | done | done].
    + intros s0 sem0 [Hne H0]%lookup_delete_Some. destruct (inv_sems k Hk s0 sem0 H0). split; [done | right; by exists sem0].
    + intros s0 sem0 H0 Hne0. exists sem0. split; [| done]. apply lookup_delete_Some. split; [| done]. intros <-. apply Hne0.
      eapply (no_one_else_waits k); [done | done | exact Ht | done | rewrite Hco; by left | exact H0].
  - by eapply sched_fork.
  - by eapply sched_yield.
  - subst k'. eapply (sched_switch k); done.
  - by eapply (sched_resume k).
  - by eapply sched_finish.
  - by apply (sched_same k).
  - destruct Hg as [Hg1 Hg2]. apply sched_sems; [done | |].
    + intros s0 sem0 H0. destruct (Hg2 s0 sem0 H0) as [H1|(_ & Hq)]; [| split; [done | by left]].
      destruct (inv_sems k Hk s0 sem0 H1). split; [done | right; by exists sem0].
    + intros s0 sem0 H0 _. exists sem0. split; [by apply Hg1 | done].
  - by apply sched_space.
Qed.
End waiters.
