(* ===== verification/Wakeups.v ===== *)
(** * No wakeup is lost

    While a thread waits on a semaphore, as many threads as the semaphore's
    value are on their way to look at it ([wakeup_inv]). *)

From S2P Require Import Prelude Machine Lists Mips HostFile AddrSpace Interrupt Threads Sched Waiters.
Local Open Scope Z_scope.

Section wakeups.
Context {X E : Type}.
#[local] Abbreviation instr := (instr X).
#[local] Abbreviation Thread := (Thread X).
#[local] Abbreviation Threads := (Threads X E).
Implicit Types (k : Threads) (th : Thread) (i : instr) (c ins : list instr) (t : Z).

(** ** No wakeup is lost *)

Fixpoint count {A} (f : A → bool) (l : list A) : Z :=
  match l with [] => 0 | x :: l => (if f x then 1 else 0) + count f l end.

Lemma count_app {A} (f : A → bool) l1 l2 : count f (l1 ++ l2) = count f l1 + count f l2.
Proof. induction l1 as [|x l1 IH]; cbn; lia. Qed.

Lemma count_nonneg {A} (f : A → bool) l : 0 <= count f l.
Proof. induction l as [|x l IH]; cbn; [lia |]. destruct (f x); lia. Qed.

Lemma count_le {A} (f g : A → bool) l : (∀ x, x ∈ l → f x → g x) → count f l <= count g l.
Proof.
  induction l as [|x l IH]; intros H; cbn; [lia |].
  assert (count f l <= count g l) by (apply IH; intros; apply H; [by right | done]).
  specialize (H x ltac:(by left)). destruct (f x), (g x); try lia. by exfalso; apply H.
Qed.

(** A thread about to look at the value of [s]. *)
Definition rechecks k (s : semid) t : bool :=
  match threads k !! t with
  | Some th => match phase_of th with
               | PLoop s' | PIdle s' | PSuspLoop s' => bool_decide (s = s')
               | _ => false
               end
  | None => false
  end.

Definition runs k : bool :=
  match threads k !! currentThread k with
  | Some th => bool_decide (tstatus th = RUNNING)
  | None => false
  end.

(** How many threads that are ready or running will. *)
Definition woken k (s : semid) : Z :=
  count (rechecks k s) (readyList k) + (if runs k && rechecks k s (currentThread k) then 1 else 0).

Definition wakeup_inv k : Prop :=
  ∀ s sem, semaphores k !! s = Some sem → queue sem ≠ [] → value sem <= woken k s.

Lemma wakeup_frame k k' : wakeup_inv k →
  (∀ s sem', semaphores k' !! s = Some sem' → queue sem' ≠ [] →
     value sem' <= woken k' s ∨
     ∃ sem, semaphores k !! s = Some sem ∧ queue sem ≠ [] ∧ value sem' + woken k s <= value sem + woken k' s) →
  wakeup_inv k'.
Proof.
  intros Hw Hk s sem' Hs Hq. destruct (Hk s sem' Hs Hq) as [H|(sem & H0 & Hq0 & Hle)]; [done |].
  specialize (Hw s sem H0 Hq0). lia.
Qed.

(** The same semaphores, and at least as many threads about to look. *)
Lemma wakeup_mono k k' : wakeup_inv k →
  (∀ s sem', semaphores k' !! s = Some sem' → queue sem' ≠ [] → semaphores k !! s = Some sem') →
  (∀ s, woken k s <= woken k' s) → wakeup_inv k'.
Proof.
  intros Hw Hs Hle. apply (wakeup_frame k); [done |]. intros s sem' Hs' Hq. right. exists sem'.
  split; [by apply Hs |]. split; [done |]. specialize (Hle s). lia.
Qed.

Lemma woken_nonneg k s : 0 <= woken k s.
Proof. unfold woken. pose proof (count_nonneg (rechecks k s) (readyList k)). destruct (_ && _); lia. Qed.

(** Changes of the threads alone. *)
Lemma woken_le k k' s : readyList k' = readyList k → currentThread k' = currentThread k →
  (∀ t, t ∈ readyList k → rechecks k s t → rechecks k' s t) →
  (runs k → rechecks k s (currentThread k) → runs k' ∧ rechecks k' s (currentThread k)) →
  woken k s <= woken k' s.
Proof.
  intros Hr Hc Hall Hcur. unfold woken. rewrite Hr, Hc.
  pose proof (count_le (rechecks k s) (rechecks k' s) (readyList k) Hall).
  destruct (runs k), (rechecks k s (currentThread k)), (runs k'), (rechecks k' s (currentThread k)); cbn; try lia;
    exfalso; by destruct (Hcur I I).
Qed.

Lemma rechecks_other k t th' t' s : t' ≠ t → rechecks (set_thread k t th') s t' = rechecks k s t'.
Proof. intros Hne. unfold rechecks. cbn. by rewrite lookup_insert_ne. Qed.

Lemma rechecks_here k t th' s : rechecks (set_thread k t th') s t =
  match phase_of th' with PLoop s' | PIdle s' | PSuspLoop s' => bool_decide (s = s') | _ => false end.
Proof. unfold rechecks. cbn. by rewrite lookup_insert_eq. Qed.

(** The current thread runs and is in no loop: whatever it does next, no one
    who was about to look is lost. *)
Lemma woken_current k th th' s : sched_inv k → threads k !! currentThread k = Some th → phase_of th = PRun →
  woken k s <= woken (set_thread k (currentThread k) th') s.
Proof.
  intros Hk Ht Hp. destruct (current_running k th Hk Ht) as [Hst _]; [by left |].
  apply woken_le; [done | done | |].
  - intros t Hin. rewrite rechecks_other; [done |]. intros ->.
    eapply not_ready; [done | exact Ht | by rewrite Hst | done].
  - intros _. unfold rechecks. rewrite Ht, Hp. done.
Qed.

Lemma wakeup_current k th th' : sched_inv k → wakeup_inv k → threads k !! currentThread k = Some th →
  phase_of th = PRun → wakeup_inv (set_thread k (currentThread k) th').
Proof.
  intros Hk Hw Ht Hp. apply (wakeup_mono k); [done | by intros | intros s; by eapply woken_current].
Qed.

Lemma wakeup_same k k' : same_sched k k' → wakeup_inv k → wakeup_inv k'.
Proof.
  destruct k, k'. unfold same_sched; cbn. intros (-> & -> & -> & -> & -> & ->) Hw s sem. exact (Hw s sem).
Qed.

Lemma rechecks_status k t th st s t' : threads k !! t = Some th →
  rechecks (set_thread k t (with_status_of th st)) s t' = rechecks k s t'.
Proof.
  intros Ht. destruct (decide (t' = t)) as [->|Hne]; [| by apply rechecks_other].
  rewrite rechecks_here. unfold rechecks. by rewrite Ht.
Qed.

Lemma wakeup_wake k s k' : sched_inv k → wakeup_inv k → wake k s = Ok k' → wakeup_inv k'.
Proof.
  intros Hk Hw (sem & Hs & _ & Hq)%wake_Ok. destruct (queue sem) as [|t q] eqn:Hqu.
  { subst k'. apply (wakeup_mono k); [done | | done]. intros s0 sem0. cbn.
    destruct (decide (s0 = s)) as [->|Hne]; [rewrite lookup_insert_eq; by intros [= <-] | by rewrite lookup_insert_ne]. }
  destruct Hq as (th & Ht & Hr & ->).
  destruct (inv_sems k Hk s sem Hs) as (_ & _ & Hall). destruct (Hall t) as (th' & Ht' & Hst & Hph); [rewrite Hqu; by left |].
  rewrite Ht in Ht'. injection Ht' as <-.
  set (k' := with_semaphores _ _).
  assert (∀ s0 t0, rechecks k' s0 t0 = rechecks k s0 t0) as Hre.
  { intros s0 t0. exact (rechecks_status k t th READY s0 t0 Ht). }
  assert (rechecks k s t = true) as Hrt.
  { unfold rechecks. rewrite Ht. destruct Hph as [-> | ->]; by apply bool_decide_eq_true_2. }
  assert (∀ s0, woken k s0 + (if rechecks k s0 t then 1 else 0) <= woken k' s0) as Hwk.
  { intros s0. unfold woken. change (readyList k') with (readyList k ++ [t]). rewrite count_app. cbn [count].
    change (currentThread k') with (currentThread k). rewrite !Hre.
    assert (count (rechecks k s0) (readyList k) <= count (rechecks k' s0) (readyList k)) by (apply count_le; intros; by rewrite Hre).
    assert (runs k → runs k') as Hruns.
    { unfold runs. cbn. destruct (decide (currentThread k = t)) as [->|Hne].
      - rewrite Ht, Hst. by rewrite bool_decide_eq_false_2.
      - by rewrite lookup_insert_ne. }
    destruct (runs k), (runs k'), (rechecks k s0 (currentThread k)), (rechecks k s0 t); cbn; try lia; exfalso; by apply Hruns. }
  apply (wakeup_frame k); [done |]. intros s0 sem' Hs' Hq'. right. cbn in Hs'. specialize (Hwk s0).
  destruct (decide (s0 = s)) as [->|Hne].
  - rewrite lookup_insert_eq in Hs'. injection Hs' as <-. exists sem. split; [done |]. split; [by rewrite Hqu |].
    rewrite Hrt in Hwk. cbn. lia.
  - rewrite lookup_insert_ne in Hs' by done. exists sem'. split; [done |]. split; [done |].
    destruct (rechecks k s0 t); lia.
Qed.

Lemma count_ext {A} (f g : A → bool) l : (∀ x, x ∈ l → f x = g x) → count f l = count g l.
Proof.
  induction l as [|x l IH]; intros H; cbn; [done |]. rewrite H by (by left).
  rewrite IH; [done |]. intros. apply H. by right.
Qed.

Lemma phase_loop th s o c : code th = ILoop s o :: c → phase_of th = PLoop s.
Proof. intros Hc. unfold phase_of. by rewrite Hc. Qed.

(** A thread passes its semaphore. *)
Lemma wakeup_take k th s o c sem : sched_inv k → wakeup_inv k → threads k !! currentThread k = Some th →
  code th = ILoop s o :: c → semaphores k !! s = Some sem → value sem ≠ 0 →
  wakeup_inv (set_code (with_semaphores k (<[s := mkSem (value sem - 1) (queue sem)]> (semaphores k))) th c).
Proof.
  intros Hk Hw Ht Hco Hs Hv. destruct (loop_code k th s o c Hk Ht Hco) as (Hp & Hpl & _).
  destruct (current_running k th Hk Ht) as [Hst _]; [by right; eexists |].
  set (k1 := with_semaphores k _). set (k' := set_code k1 th c).
  assert (∀ s0, woken k s0 - (if decide (s0 = s) then 1 else 0) <= woken k' s0) as Hwk.
  { intros s0. unfold woken. change (readyList k') with (readyList k). change (currentThread k') with (currentThread k).
    rewrite (count_ext (rechecks k' s0) (rechecks k s0)).
    2: { intros t Hin. apply (rechecks_other k1). intros ->. eapply not_ready; [exact Hk | exact Ht | by rewrite Hst | exact Hin]. }
    assert (rechecks k s0 (currentThread k) = bool_decide (s0 = s)) as -> by (unfold rechecks; by rewrite Ht, Hp).
    destruct (runs k), (runs k' && _); case_decide; case_bool_decide; cbn; try lia; done. }
  apply (wakeup_frame k); [done |]. intros s0 sem' Hs' Hq'. right. cbn in Hs'. specialize (Hwk s0).
  destruct (decide (s0 = s)) as [->|Hne].
  - rewrite lookup_insert_eq in Hs'. injection Hs' as <-. exists sem. split; [done |]. split; [done |]. cbn. lia.
  - rewrite lookup_insert_ne in Hs' by done. exists sem'. split; [done |]. split; [done |]. lia.
Qed.

(** A thread goes to sleep on its semaphore. *)
Lemma wakeup_block k th s o c sem : sched_inv k → wakeup_inv k → threads k !! currentThread k = Some th →
  code th = ILoop s o :: c → semaphores k !! s = Some sem → value sem = 0 →
  wakeup_inv (set_thread (with_semaphores k
      (<[s := mkSem (value sem) (queue sem ++ [currentThread k])]> (semaphores k)))
    (currentThread k) (with_status_of (with_code th (IIdle false :: ILoop s o :: c)) BLOCKED)).
Proof.
  intros Hk Hw Ht Hco Hs Hv. pose proof (phase_loop th s o c Hco) as Hp.
  destruct (current_running k th Hk Ht) as [Hst _]; [by right; eexists |].
  set (k1 := with_semaphores k _). set (k' := set_thread k1 _ _).
  assert (∀ s0, s0 ≠ s → woken k s0 <= woken k' s0) as Hwk.
  { intros s0 Hne. apply woken_le; [done | done | |].
    - intros t Hin Hre. unfold k'. rewrite (rechecks_other k1); [done |]. intros ->.
      eapply not_ready; [exact Hk | exact Ht | by rewrite Hst | exact Hin].
    - intros _. unfold rechecks. rewrite Ht, Hp. by rewrite bool_decide_eq_false_2. }
  apply (wakeup_frame k); [done |]. intros s0 sem' Hs' Hq'. cbn in Hs'.
  destruct (decide (s0 = s)) as [->|Hne].
  - rewrite lookup_insert_eq in Hs'. injection Hs' as <-. left. cbn. rewrite Hv. apply woken_nonneg.
  - rewrite lookup_insert_ne in Hs' by done. right. exists sem'. split; [done |]. split; [done |].
    specialize (Hwk s0 Hne). lia.
Qed.

(** The CPU changes hands. *)
Lemma wakeup_dispatch k k' n r th th' nth : wakeup_inv k → threads k !! currentThread k = Some th →
  readyList k = n :: r → (∀ s, rechecks k s (currentThread k) = true → ¬ runs k) →
  (readyList k' = r ∨ readyList k' = r ++ [currentThread k]) →
  currentThread k' = n → semaphores k' = semaphores k →
  (∀ s, match phase_of th' with PLoop s' | PIdle s' | PSuspLoop s' => bool_decide (s = s') | _ => false end =
        rechecks k s (currentThread k)) →
  <[currentThread k := th']> (threads k) !! n = Some nth →
  threads k' = <[n := with_status_of nth RUNNING]> (<[currentThread k := th']> (threads k)) →
  wakeup_inv k'.
Proof.
  intros Hw Ht Hr Hcur Hready Hcur' Hsem Hph Hn Hth.
  assert (∀ s t, rechecks k' s t = rechecks k s t) as Hre.
  { intros s t. unfold rechecks at 1. rewrite Hth.
    assert (∀ x, <[currentThread k := th']> (threads k) !! t = Some x →
      match phase_of x with PLoop s' | PIdle s' | PSuspLoop s' => bool_decide (s = s') | _ => false end = rechecks k s t) as Hx.
    { intros x. destruct (decide (t = currentThread k)) as [->|Hne].
      - rewrite lookup_insert_eq. intros [= <-]. apply Hph.
      - rewrite lookup_insert_ne by done. intros H0. unfold rechecks. by rewrite H0. }
    destruct (decide (t = n)) as [->|Hne].
    - rewrite lookup_insert_eq. by apply (Hx nth).
    - rewrite lookup_insert_ne by done. destruct (<[currentThread k := th']> (threads k) !! t) as [x|] eqn:Hxx; [by apply Hx |].
      destruct (decide (t = currentThread k)) as [->|Hne']; [by rewrite lookup_insert_eq in Hxx |].
      rewrite lookup_insert_ne in Hxx by done. unfold rechecks. by rewrite Hxx. }
  assert (runs k' = true) as Hruns.
  { unfold runs. rewrite Hcur', Hth, lookup_insert_eq. by apply bool_decide_eq_true_2. }
  apply (wakeup_mono k); [done | by rewrite Hsem |]. intros s. unfold woken. rewrite Hruns, Hcur', Hre, Hr. cbn [count].
  rewrite !(count_ext (rechecks k' s) (rechecks k s)) by (intros; apply Hre).
  specialize (Hcur s). assert (0 <= count (rechecks k s) [currentThread k]) by apply count_nonneg.
  destruct Hready as [-> | ->]; rewrite ?count_app; destruct (rechecks k s (currentThread k)), (runs k), (rechecks k s n); cbn in *;
    try lia; exfalso; by apply Hcur.
Qed.

Lemma wakeup_micro k k' : sched_inv k → cond_inv k → wakeup_inv k → micro k k' → wakeup_inv k'.
Proof.
  intros Hk Hc Hw Hm. destruct Hm as [k th i c ins Ht Hco Hi Hins Hfr|k th ins Ht Hp Hins|k th l c Ht Hco|k th s o c Ht Hco
    |k th s o c sem Ht Hco Hs Hv|k th s o c sem Ht Hco Hs Hv|k n k' Hwk|k th l c h Ht Hco Hl|k th l k' Ht Hp Hl Hwk
    |k cv w ws k' Hcv Hwk|k th cv q l c Ht Hco Hcv w|k th w c Ht Hco|k th body Ht Hp Hb|k th n r nth regs Ht Hp Hr Hn Hlen Hreg
    |k th n r nth nth' c fin regs th' k' Ht Hco Hr Hn Hlen Hreg Hth' Hk' Hn'|k th i c m d Ht Hco Hi Hm
    |k th c Ht Hco|k e|k m Hg|k th a Ht Hp].
  - apply soft_static in Hi as [Hi _]. apply wakeup_current with th; [done.. |]. eapply plain_phase; [done | by apply static_plain].
  - by apply wakeup_current with th.
  - apply wakeup_current with th; [done.. |]. by eapply plain_phase.
  - apply wakeup_current with th; [done.. |]. by eapply plain_phase.
  - by eapply wakeup_take.
  - by eapply wakeup_block.
  - by eapply wakeup_wake.
  - apply (wakeup_same (set_code k th c)); [done |]. apply wakeup_current with th; [done.. |]. by eapply plain_phase.
  - eapply wakeup_wake; [| | exact Hwk]; [by apply (sched_same k) | by apply (wakeup_same k)].
  - eapply wakeup_wake; [| | exact Hwk]; [by apply (sched_same k) | by apply (wakeup_same k)].
  - apply (wakeup_mono (set_thread k (currentThread k) (with_code th ([IRelease l; IP w; IAcquire l; IDelete w] ++ c)))).
    + apply wakeup_current with th; [done.. |]. by eapply plain_phase.
    + intros s0 sem0. cbn. destruct (decide (s0 = w)) as [->|Hne]; [rewrite lookup_insert_eq; by intros [= <-] |].
      by rewrite lookup_insert_ne.
    + intros s0. done.
  - apply (wakeup_mono (set_code k th c)).
    + apply wakeup_current with th; [done.. |]. by eapply plain_phase.
    + intros s0 sem0. cbn. by intros [_ ?]%lookup_delete_Some.
    + intros s0. done.
  - assert (threads k !! nextThread k = None) as Hf by (apply (inv_fresh k Hk); lia).
    destruct (current_running k th Hk Ht) as [Hst _]; [by left |].
    apply (wakeup_mono k); [done | by intros |]. intros s0. unfold woken. cbn [readyList with_ready]. rewrite count_app.
    set (k' := with_ready _ _).
    assert (∀ t, t ≠ nextThread k → rechecks k' s0 t = rechecks k s0 t) as Hre
      by (intros t Hne; unfold rechecks; cbn; by rewrite lookup_insert_ne).
    rewrite (count_ext (rechecks k' s0) (rechecks k s0)).
    2: { intros t Hin. apply Hre. intros ->. destruct (inv_ready k Hk _ Hin) as (? & ? & _). congruence. }
    change (currentThread k') with (currentThread k). rewrite Hre by congruence.
    assert (runs k' = runs k) as ->.
    { unfold runs. cbn. rewrite lookup_insert_ne; [done |]. congruence. }
    pose proof (count_nonneg (rechecks k' s0) [nextThread k]). lia.
  - destruct (run_code k th Hk Ht Hp) as [Hpl _]. pose proof (decode_resume _ Hpl) as Hdec.
    destruct (current_running k th Hk Ht) as [Hst _]; [by left |].
    eapply (wakeup_dispatch k _ n r th _ nth); [done | exact Ht | done | | by right | done | done | | | done].
    + intros s. unfold rechecks. by rewrite Ht, Hp.
    + intros s. unfold phase_of at 1. cbn [code with_userRegisters with_status_of with_code]. rewrite Hdec. cbn.
      unfold rechecks. by rewrite Ht, Hp.
    + rewrite lookup_insert_ne; [done |]. intros <-. eapply (not_ready k); [done | exact Ht | by rewrite Hst | rewrite Hr; by left].
  - subst k'. destruct (inv_threads k Hk _ _ Ht) as [(Hpl & _) Hp].
    assert (¬ runs k) as Hnr.
    { unfold runs. rewrite Ht. unfold placed, phase_of in Hp. unfold rest_of in Hpl. rewrite Hco in Hp, Hpl.
      assert (∀ st, st ≠ RUNNING → ¬ bool_decide (st = RUNNING)) as Hnr by (intros st Hst Hb; by apply bool_decide_unpack in Hb).
      apply Hnr. intros Hst. rewrite Hst in Hp. destruct fin; [done |].
      destruct c as [|i c]; [cbn in Hpl; by inversion Hpl |].
      destruct i; try (cbn in Hpl; by inversion Hpl). }
    eapply (wakeup_dispatch k _ n r th th' nth'); [done | exact Ht | done | by intros | by left | done | done | | exact Hn' | done].
    intros s. subst th'. unfold rechecks. rewrite Ht. unfold phase_of. cbn [code with_userRegisters with_code]. rewrite Hco.
    unfold rest_of in Hpl. rewrite Hco in Hpl. destruct fin; cbn in Hpl.
    + by rewrite (decode_resume c Hpl).
    + destruct c as [|i c]; [by inversion Hpl |]. destruct i; try (by inversion Hpl).
  - pose proof (sched_resume k th i c m d Hk Ht Hco Hi Hm) as Hk'.
    set (k' := with_destroyed _ _) in *.
    assert (∀ s t, t ∈ readyList k → rechecks k' s t = rechecks k s t) as Hre.
    { intros s t Hin. destruct (inv_ready k Hk t Hin) as (th0 & H0 & Hst0).
      destruct (inv_ready k' Hk' t Hin) as (th1 & H1 & Hst1). unfold rechecks. rewrite H0, H1.
      cbn in H1. destruct (decide (t = currentThread k)) as [->|Hne].
      - exfalso. rewrite Ht in H0. injection H0 as <-. destruct (inv_threads k Hk _ _ Ht) as [_ Hp].
        unfold placed, phase_of in Hp. rewrite Hst0, Hco in Hp. destruct Hi as [-> | ->]; [| by destruct Hp].
        cbn in Hp. destruct c as [|j c]; [by destruct Hp |]. destruct j; by destruct Hp.
      - rewrite lookup_insert_ne in H1 by done. assert (threads k !! t = Some th1) as H2.
        { destruct Hm as [[_ ->]|[_ ->]]; [done |]. by apply lookup_delete_Some in H1 as [_ ?]. }
        rewrite H0 in H2. by injection H2 as <-. }
    apply (wakeup_mono k); [done | by intros |]. intros s. apply woken_le; [done | done | |].
    + intros t Hin. by rewrite Hre.
    + unfold runs, rechecks. rewrite Ht. cbn [currentThread k' with_destroyed with_threads threads]. rewrite lookup_insert_eq.
      unfold phase_of at 1 2. cbn [code with_code tstatus]. rewrite Hco. intros Hst.
      destruct Hi as [-> | ->]; [| done]. cbn. destruct c as [|j c]; [done |]. by destruct j.
  - apply wakeup_current with th; [done.. |]. by eapply plain_phase.
  - by apply (wakeup_same k).
  - apply (wakeup_mono k); [done | | done]. intros s0 sem0 H0 Hq. destruct (proj2 Hg s0 sem0 H0) as [|(_ & ?)]; done.
  - by apply wakeup_current with th.
Qed.
End wakeups.
