(* ===== verification/Locks.v ===== *)
(** * A lock has one holder

    The single token of a lock is in its semaphore, with a thread inside
    [Acquire], or with the lock's holder ([lock_inv]). *)

From S2P Require Import Prelude Machine Lists Mips HostFile AddrSpace Interrupt Threads Sched Waiters Wakeups.
Local Open Scope Z_scope.

Section locks.
Context {X E : Type}.
#[local] Abbreviation instr := (instr X).
#[local] Abbreviation Thread := (Thread X).
#[local] Abbreviation Threads := (Threads X E).
Implicit Types (k : Threads) (th : Thread) (i : instr) (c ins : list instr) (t : Z).

(** ** A lock has one holder *)

(** The passage through lock [l] that a thread has paid for and not yet taken:
    between the end of [P] in [Acquire] and the assignment to [lockHolder]. *)
Fixpoint tokens (l : Z) c : Z :=
  match c with
  | [] => 0
  | IHolder l' :: c => (if decide (l = l') then 1 else 0) + tokens l c
  | IP (SLock l') :: c | ILoop (SLock l') _ :: c => (if decide (l = l') then -1 else 0) + tokens l c
  | _ :: c => tokens l c
  end.

(** Each [P] on a lock's semaphore is the one in [Acquire]. *)
Fixpoint paired c : Prop :=
  match c with
  | [] => True
  | i :: c => paired c ∧ match i with
                         | IP (SLock l) | ILoop (SLock l) _ => head c = Some (IHolder l)
                         | _ => True
                         end
  end.

Fixpoint strip c : list instr :=
  match c with
  | IResume :: c | ISetLevel _ :: c | IStatus _ :: c => strip c
  | _ => c
  end.

Definition code_locks c : Prop := paired c ∧ ∀ l, tokens l c ≠ 0 → head (strip c) = Some (IHolder l).

Record lock_inv k : Prop := {
  inv_code_locks : ∀ t th, threads k !! t = Some th → code_locks (code th);
  inv_dead : ∀ d th l, toBeDestroyed k = Some d → threads k !! d = Some th → tokens l (code th) = 0;
  inv_locks : ∀ l h, locks k !! l = Some h → ∃ sem, semaphores k !! SLock l = Some sem ∧
    match h with
    | Some _ => value sem = 0 ∧ ∀ t th, threads k !! t = Some th → tokens l (code th) = 0
    | None =>
        value sem = 1 ∧ (∀ t th, threads k !! t = Some th → tokens l (code th) = 0) ∨
        value sem = 0 ∧ ∃ u thu, threads k !! u = Some thu ∧ tokens l (code thu) = 1 ∧
          ∀ t th, threads k !! t = Some th → t ≠ u → tokens l (code th) = 0
    end }.

Lemma tokens_app l ins c : Forall static ins → tokens l (ins ++ c) = tokens l c.
Proof. induction 1 as [|i ins Hi Hins IH]; [done |]. by destruct i as [[]| | | | | | | | | | | | | |s| |s| | | | |]; cbn; rewrite ?IH. Qed.

Lemma paired_app ins c : Forall static ins → paired c → paired (ins ++ c).
Proof. induction 1 as [|i ins Hi Hins IH]; [done |]. by destruct i as [[]| | | | | | | | | | | | | |s| |s| | | | |]; cbn; auto. Qed.

Lemma paired_tokens l c : paired c → 0 <= tokens l c ∧ (head c = Some (IHolder l) → 1 <= tokens l c).
Proof.
  induction c as [|i c IH]; cbn; [done |]. intros [Hp Hi]. specialize (IH Hp) as [IH1 IH2].
  destruct i as [[]| | | | | | | | | | | | | |[]| |[]| | | | |]; try (split; [done |]; by intros [= ]).
  - case_decide as Hl; [subst |]; (split; [| by intros [= ]]); [specialize (IH2 Hi) |]; lia.
  - case_decide as Hl; [subst |]; (split; [| by intros [= ]]); [specialize (IH2 Hi) |]; lia.
  - case_decide; (split; [lia |]); [lia | intros [= ->]; done].
Qed.

Lemma code_locks_zero c : paired c → (∀ l, tokens l c = 0) → code_locks c.
Proof. intros Hp H0. split; [done |]. intros l Hl. by rewrite H0 in Hl. Qed.

Lemma code_locks_top i c : code_locks (i :: c) → strip (i :: c) = i :: c →
  (∀ l, i ≠ IHolder l) → ∀ l, tokens l (i :: c) = 0.
Proof.
  intros [_ Hc] Hs Hi l. destruct (decide (tokens l (i :: c) = 0)) as [|Hne]; [done |].
  specialize (Hc l Hne). rewrite Hs in Hc. injection Hc as ->. by destruct (Hi l).
Qed.

(** Below a topmost instruction that is no rest of an [Acquire], there is no
    unused token. *)
Lemma soft_tokens i c : code_locks (i :: c) → static i → ¬ frame i → ∀ l, tokens l c = 0.
Proof.
  intros Hc Hi Hf l. rewrite <- (code_locks_top i c Hc) with l.
  - by destruct i as [[]| | | | | | | | | | | | | |s| |s| | | | |].
  - by destruct i.
  - by intros l' ->.
Qed.

Lemma code_locks_soft i c ins : code_locks (i :: c) → soft i → Forall static ins → (frame i → ins = []) →
  code_locks (ins ++ c) ∧ ∀ l, tokens l (ins ++ c) = tokens l (i :: c).
Proof.
  intros Hc [Hi _]%soft_static Hins Hf. pose proof Hc as [Hp Ht].
  destruct (frame i) eqn:Hfr.
  - rewrite (Hf I). cbn [app]. destruct i; try done; cbn in *; destruct Hp as [Hp _]; (split; [split; [done |] |]); try done.
  - assert (∀ l, tokens l c = 0) as H0 by (apply (soft_tokens i c); [done | done | rewrite Hfr; by intros []]).
    assert (∀ l, tokens l (i :: c) = 0) as H1.
    { intros l. rewrite <- (H0 l). by destruct i as [[]| | | | | | | | | | | | | |s| |s| | | | |]. }
    split; [| intros l; rewrite tokens_app by done; by rewrite H0, H1].
    apply code_locks_zero; [apply paired_app; [done | by destruct Hp] |]. intros l. by rewrite tokens_app.
Qed.

Lemma code_locks_frames ins c : Forall frame ins → code_locks c → code_locks (ins ++ c) ∧ ∀ l, tokens l (ins ++ c) = tokens l c.
Proof.
  induction 1 as [|i ins Hi Hins IH]; [done |]. intros [Hp Hs]. destruct (IH (conj Hp Hs)) as [[Hp' Hs'] Ht'].
  destruct i; try done; (split; [split; [by split |] | done]); intros l' Hl'; by apply Hs'.
Qed.

(** Changes that move no token. *)
Lemma lock_frame k k' : lock_inv k →
  (∀ t th', threads k' !! t = Some th' → code_locks (code th') ∧
     ((∃ th, threads k !! t = Some th ∧ ∀ l, tokens l (code th') = tokens l (code th)) ∨ ∀ l, tokens l (code th') = 0)) →
  (∀ t th l, threads k !! t = Some th → tokens l (code th) ≠ 0 →
     ∃ th', threads k' !! t = Some th' ∧ tokens l (code th') = tokens l (code th)) →
  (∀ d th l, toBeDestroyed k' = Some d → threads k' !! d = Some th → tokens l (code th) = 0) →
  locks k' = locks k →
  (∀ l sem, semaphores k !! SLock l = Some sem → ∃ sem', semaphores k' !! SLock l = Some sem' ∧ value sem' = value sem) →
  lock_inv k'.
Proof.
  intros Hk Hth Htok Hdead Hl Hsem.
  assert (∀ l t th', (∀ th, threads k !! t = Some th → tokens l (code th) = 0) →
    threads k' !! t = Some th' → tokens l (code th') = 0) as Hz.
  { intros l t th' H0 H'. destruct (Hth t th' H') as [_ [(th & Ht & He)|Hz]]; [| done]. rewrite He. by apply H0. }
  constructor.
  - intros t th' H'. by apply (Hth t th').
  - exact Hdead.
  - intros l h Hlh. rewrite Hl in Hlh. destruct (inv_locks k Hk l h Hlh) as (sem & Hs & Hh).
    destruct (Hsem l sem Hs) as (sem' & Hs' & Hv). exists sem'. split; [done |]. rewrite Hv. destruct h as [u|].
    + destruct Hh as [? H0]. split; [done |]. intros t th'. apply Hz. intros th. apply H0.
    + destruct Hh as [[? H0]|(? & u & thu & Hu & Htu & H0)].
      * left. split; [done |]. intros t th'. apply Hz. intros th. apply H0.
      * right. split; [done |]. destruct (Htok u thu l Hu) as (thu' & Hu' & Htu'); [lia |].
        exists u, thu'. split; [done |]. split; [lia |]. intros t th' H' Hne. eapply Hz; [| exact H'].
        intros th H1. by eapply H0.
Qed.

Lemma lock_set_code k th c : lock_inv k → threads k !! currentThread k = Some th →
  code_locks c → (∀ l, tokens l c = tokens l (code th)) →
  (∀ l, toBeDestroyed k = Some (currentThread k) → tokens l c = 0) → lock_inv (set_code k th c).
Proof.
  intros Hk Ht Hc Htok Hd. apply (lock_frame k); [done | | | | done | intros l sem Hs; by exists sem].
  - intros t th' H'. destruct (lookup_set_code _ _ _ _ _ H') as [[-> ->]|[_ H0]].
    + split; [done |]. left. by exists th.
    + split; [by eapply (inv_code_locks k Hk) |]. left. by exists th'.
  - intros t th' l H0 _. destruct (decide (t = currentThread k)) as [->|Hne].
    + exists (with_code th c). cbn. rewrite lookup_insert_eq. split; [done |]. rewrite Ht in H0. injection H0 as <-. apply Htok.
    + exists th'. cbn. by rewrite lookup_insert_ne.
  - intros d th' l Hd' H'. destruct (lookup_set_code _ _ _ _ _ H') as [[-> ->]|[_ H0]]; [by apply Hd |].
    by eapply (inv_dead k Hk).
Qed.

(** Threads keep their code but for the current one, whose tokens stay. *)
Lemma lock_current k k' th c : lock_inv k → threads k !! currentThread k = Some th →
  (∀ t th', threads k' !! t = Some th' → t = currentThread k ∧ code th' = c ∨
     ∃ th0, threads k !! t = Some th0 ∧ code th' = code th0) →
  (∀ t th0, threads k !! t = Some th0 → ∃ th', threads k' !! t = Some th' ∧
     code th' = if decide (t = currentThread k) then c else code th0) →
  code_locks c → (∀ l, tokens l c = tokens l (code th)) →
  (∀ d, toBeDestroyed k' = Some d → toBeDestroyed k = Some d ∨ d = currentThread k ∧ ∀ l, tokens l c = 0) →
  locks k' = locks k →
  (∀ l sem, semaphores k !! SLock l = Some sem → ∃ sem', semaphores k' !! SLock l = Some sem' ∧ value sem' = value sem) →
  lock_inv k'.
Proof.
  intros Hk Ht Hth' Hth Hc Htok Hd Hl Hsem. apply (lock_frame k); [done | | | | done | done].
  - intros t th' H'. destruct (Hth' t th' H') as [[-> Hco]|(th0 & H0 & Hco)]; rewrite Hco.
    + split; [done |]. left. by exists th.
    + split; [by eapply (inv_code_locks k Hk) |]. left. by exists th0.
  - intros t th0 l H0 _. destruct (Hth t th0 H0) as (th' & H' & Hco). exists th'. split; [done |]. rewrite Hco.
    case_decide as Hdec; [| done]. subst. rewrite Ht in H0. injection H0 as <-. apply Htok.
  - intros d th' l Hd' H'. destruct (Hth' d th' H') as [[-> Hco]|(th0 & H0 & Hco)]; rewrite Hco.
    + destruct (Hd _ Hd') as [Hd0|[_ H0]]; [| by apply H0]. rewrite Htok. by eapply (inv_dead k Hk).
    + destruct (Hd _ Hd') as [Hd0|[-> Hz]]; [by eapply (inv_dead k Hk) |].
      rewrite Ht in H0. injection H0 as <-. by rewrite <- Htok.
Qed.

Lemma lock_wake_other k s k' : lock_inv k → (∀ l, s ≠ SLock l) → wake k s = Ok k' → lock_inv k'.
Proof.
  intros Hk Hs Hw. destruct (wake_threads k s k' Hw) as (_ & _ & Hl & _ & Hd & _ & _ & Hth & Hth' & Hsem).
  apply (lock_frame k); [done | | | | done |].
  - intros t th' H'. destruct (Hth t th' H') as (th & H0 & [-> | ->]);
      (split; [exact (inv_code_locks k Hk t th H0) | left; by exists th]).
  - intros t th l H0 _. destruct (Hth' t th H0) as (th' & H' & [-> | ->]); by eexists.
  - intros d th l Hd' H'. rewrite Hd in Hd'. destruct (Hth d th H') as (th0 & H0 & [-> | ->]); exact (inv_dead k Hk d th0 l Hd' H0).
  - intros l sem H0. exists sem. by rewrite Hsem.
Qed.

(** Passing the semaphore of a lock takes its only token. *)
Lemma lock_take k th s o c sem : sched_inv k → lock_inv k → threads k !! currentThread k = Some th →
  code th = ILoop s o :: c → semaphores k !! s = Some sem → value sem ≠ 0 →
  lock_inv (set_code (with_semaphores k (<[s := mkSem (value sem - 1) (queue sem)]> (semaphores k))) th c).
Proof.
  intros Hk Hl Ht Hco Hs Hv. pose proof (phase_loop th s o c Hco) as Hp.
  destruct (current_running k th Hk Ht) as [_ Hd]; [by right; eexists |].
  pose proof (inv_code_locks k Hl _ _ Ht) as Hcl. rewrite Hco in Hcl.
  pose proof (code_locks_top _ _ Hcl eq_refl ltac:(done)) as Htop. destruct Hcl as [[Hpa Hpair] _].
  assert ((∃ l, s = SLock l) ∨ ¬ ∃ l, s = SLock l) as [[l ->]|Hns]
    by (destruct s; [right; by intros [? ?] | left; by eexists | right; by intros [? ?]]).
  2: { assert (∀ l, tokens l c = 0) as Hz.
       { intros l. rewrite <- (Htop l). destruct s; [done | exfalso; apply Hns; by eexists | done]. }
       apply (lock_current k _ th c); [done | done | | | by apply code_locks_zero | | | done |].
       - intros t th' H'. destruct (lookup_set_code _ _ _ _ _ H') as [[-> ->]|[_ H0]]; [by left | right; by exists th'].
       - intros t th0 H0. cbn. destruct (decide (t = currentThread k)) as [->|Hne].
         + rewrite lookup_insert_eq. by eexists.
         + rewrite lookup_insert_ne by done. by eexists.
       - intros l. rewrite Hz, Hco. by rewrite Htop.
       - intros d Hd'. cbn in Hd'. congruence.
       - intros l sem0 H0. cbn. rewrite lookup_insert_ne; [by exists sem0 |]. intros ->. apply Hns. by eexists. }
  cbn in Hpair. assert (∀ l', tokens l' c = if decide (l' = l) then 1 else 0) as Hz.
  { intros l'. specialize (Htop l'). cbn in Htop. case_decide; lia. }
  destruct c as [|j c0]; [done |]. injection Hpair as ->.
  set (k' := set_code _ _ _).
  assert (∀ t th', threads k' !! t = Some th' → t = currentThread k ∧ th' = with_code th (IHolder l :: c0) ∨
    t ≠ currentThread k ∧ threads k !! t = Some th') as Hth by (intros t th' H'; exact (lookup_set_code _ _ _ _ _ H')).
  constructor.
  - intros t th' H'. destruct (Hth _ _ H') as [[-> ->]|[_ H0]]; [| by eapply (inv_code_locks k Hl)].
    split; [exact Hpa |]. intros l' Hl'. cbn [code with_code] in Hl'. rewrite Hz in Hl'. case_decide; by subst.
  - intros d th' l' Hd'. cbn in Hd'. congruence.
  - intros l' h Hlh. destruct (inv_locks k Hl l' h Hlh) as (sem' & Hs' & Hh). cbn [semaphores k' set_code set_thread with_threads with_semaphores].
    destruct (decide (l' = l)) as [->|Hne].
    + rewrite Hs in Hs'. injection Hs' as <-. rewrite lookup_insert_eq. eexists. split; [done |]. cbn.
      destruct h as [u|]; [by destruct Hh |]. destruct Hh as [[Hv1 H0]|[? _]]; [| done]. right. split; [lia |].
      exists (currentThread k), (with_code th (IHolder l :: c0)). cbn. rewrite lookup_insert_eq. split; [done |].
      specialize (Hz l). cbn in Hz. rewrite (decide_True (P := l = l)) in * by done. split; [done |].
      intros t th' H' Hnt. destruct (Hth _ _ H') as [[-> ->]|[_ H1]]; [done | by eapply H0].
    + rewrite lookup_insert_ne by congruence. exists sem'. split; [done |].
      assert (∀ t th', threads k' !! t = Some th' → ∃ th0, threads k !! t = Some th0 ∧ tokens l' (code th') = tokens l' (code th0)) as Hsame.
      { intros t th' H'. destruct (Hth _ _ H') as [[-> ->]|[_ H1]]; [| by exists th']. exists th. split; [done |].
        cbn [code with_code]. rewrite Hz, Hco, Htop, decide_False by done. done. }
      destruct h as [u|].
      * destruct Hh as [? H0]. split; [done |]. intros t th' H'. destruct (Hsame _ _ H') as (th0 & H1 & ->). by eapply H0.
      * destruct Hh as [[? H0]|(? & u & thu & Hu & Htu & H0)].
        -- left. split; [done |]. intros t th' H'. destruct (Hsame _ _ H') as (th0 & H1 & ->). by eapply H0.
        -- right. split; [done |]. exists u, thu.
           assert (u ≠ currentThread k) as Hnu.
           { intros ->. rewrite Ht in Hu. injection Hu as <-. rewrite Hco, Htop in Htu. lia. }
           cbn. rewrite lookup_insert_ne by done. split; [done |]. split; [done |]. intros t th' H' Hnt.
           destruct (Hsame _ _ H') as (th0 & H1 & ->). by eapply H0.
Qed.

(** The token becomes the lock's holder ... *)
Lemma lock_holder k th l c h : lock_inv k → threads k !! currentThread k = Some th → toBeDestroyed k = None →
  code th = IHolder l :: c → locks k !! l = Some h →
  lock_inv (with_locks (set_code k th c) (<[l := Some (currentThread k)]> (locks k))) ∧ h = None.
Proof.
  intros Hk Ht Hd Hco Hlh. pose proof (inv_code_locks k Hk _ _ Ht) as Hcl. rewrite Hco in Hcl.
  destruct Hcl as [[Hpa _] Hst].
  pose proof (paired_tokens l c Hpa) as [Hnn _].
  destruct (inv_locks k Hk l h Hlh) as (sem & Hs & Hh).
  assert (tokens l (code th) = 1 + tokens l c) as Htl by (rewrite Hco; cbn; by rewrite decide_True).
  assert (h = None ∧ value sem = 0 ∧ tokens l c = 0 ∧
    ∀ t th', threads k !! t = Some th' → t ≠ currentThread k → tokens l (code th') = 0) as (-> & Hv & Hz & Hoth).
  { destruct h as [u|].
    - destruct Hh as [_ H0]. specialize (H0 _ _ Ht). lia.
    - destruct Hh as [[_ H0]|(? & u & thu & Hu & Htu & H0)]; [specialize (H0 _ _ Ht); lia |].
      destruct (decide (u = currentThread k)) as [->|Hne].
      + rewrite Ht in Hu. injection Hu as <-. split; [done |]. split; [done |]. split; [lia | done].
      + specialize (H0 _ _ Ht ltac:(done)). lia. }
  split; [| done]. set (k' := with_locks _ _).
  assert (∀ t th', threads k' !! t = Some th' → t = currentThread k ∧ th' = with_code th c ∨
    t ≠ currentThread k ∧ threads k !! t = Some th') as Hth by (intros t th' H'; exact (lookup_set_code k th c t th' H')).
  assert (∀ l', tokens l' c = 0) as Hzc.
  { intros l'. destruct (decide (l' = l)) as [->|Hne]; [done |].
    destruct (decide (tokens l' c = 0)) as [|Hn0]; [done |]. exfalso.
    assert (tokens l' (IHolder l :: c) ≠ 0) as Hn1 by (cbn; rewrite decide_False by done; lia).
    specialize (Hst l' Hn1). cbn in Hst. congruence. }
  constructor.
  - intros t th' H'. destruct (Hth _ _ H') as [[-> ->]|[_ H0]]; [by apply code_locks_zero | by eapply (inv_code_locks k Hk)].
  - intros d th' l' Hd'. cbn in Hd'. congruence.
  - intros l' h. cbn. destruct (decide (l' = l)) as [->|Hne].
    + rewrite lookup_insert_eq. intros [= <-]. exists sem. split; [done |]. split; [done |].
      intros t th' H'. destruct (Hth _ _ H') as [[-> ->]|[? H0]]; [apply Hzc | by eapply Hoth].
    + rewrite lookup_insert_ne by done. intros Hlh'. destruct (inv_locks k Hk l' h Hlh') as (sem' & Hs' & Hh').
      exists sem'. split; [done |].
      assert (∀ t th', threads k' !! t = Some th' → ∃ th0, threads k !! t = Some th0 ∧ tokens l' (code th') = tokens l' (code th0)) as Hsame.
      { intros t th' H'. destruct (Hth _ _ H') as [[-> ->]|[_ H1]]; [| by exists th']. exists th. split; [done |].
        rewrite Hco. cbn. rewrite decide_False by done. lia. }
      destruct h as [u|].
      * destruct Hh' as [? H0]. split; [done |]. intros t th' H'. destruct (Hsame _ _ H') as (th0 & H1 & ->). by eapply H0.
      * destruct Hh' as [[? H0]|(? & u & thu & Hu & Htu & H0)].
        -- left. split; [done |]. intros t th' H'. destruct (Hsame _ _ H') as (th0 & H1 & ->). by eapply H0.
        -- right. split; [done |]. exists u. assert (u ≠ currentThread k) as Hnu.
           { intros ->. rewrite Ht in Hu. injection Hu as <-. rewrite Hco in Htu. cbn in Htu. rewrite decide_False in Htu by done.
             rewrite Hzc in Htu. lia. }
           exists thu. cbn. rewrite lookup_insert_ne by done. split; [done |]. split; [done |]. intros t th' H' Hnt.
           destruct (Hsame _ _ H') as (th0 & H1 & ->). by eapply H0.
Qed.

(** ... and goes back to the semaphore when the holder releases the lock. *)
Lemma lock_release k l u k' : lock_inv k → locks k !! l = Some (Some u) →
  wake (with_locks k (<[l := None]> (locks k))) (SLock l) = Ok k' → lock_inv k'.
Proof.
  intros Hk Hlh Hw. destruct (inv_locks k Hk l _ Hlh) as (sem & Hs & Hv & Hz).
  destruct (wake_threads _ _ _ Hw) as (_ & _ & Hl & _ & Hd & _ & _ & Hth & Hth' & Hsem). cbn in *.
  assert (∃ sem', semaphores k' !! SLock l = Some sem' ∧ value sem' = 1) as (sem' & Hs' & Hv').
  { apply wake_Ok in Hw as (sem0 & Hs0 & _ & Hq). cbn in *. rewrite Hs in Hs0. injection Hs0 as <-.
    destruct (queue sem) as [|t q]; [subst k' | destruct Hq as (th & _ & _ & ->)]; cbn; rewrite lookup_insert_eq;
      (eexists; split; [done |]; cbn; lia). }
  assert (∀ t th', threads k' !! t = Some th' → ∃ th, threads k !! t = Some th ∧ code th' = code th) as Hcode.
  { intros t th' H'. destruct (Hth t th' H') as (th & H0 & [-> | ->]); by exists th. }
  constructor.
  - intros t th' H'. destruct (Hcode _ _ H') as (th & H0 & ->). by eapply (inv_code_locks k Hk).
  - intros d th' l' Hd' H'. rewrite Hd in Hd'. destruct (Hcode _ _ H') as (th & H0 & ->). by eapply (inv_dead k Hk).
  - intros l' h. rewrite Hl. destruct (decide (l' = l)) as [->|Hne].
    + rewrite lookup_insert_eq. intros [= <-]. exists sem'. split; [done |]. left. split; [done |].
      intros t th' H'. destruct (Hcode _ _ H') as (th & H0 & ->). by eapply Hz.
    + rewrite lookup_insert_ne by done. intros Hlh'. destruct (inv_locks k Hk l' h Hlh') as (sem2 & Hs2 & Hh2).
      exists sem2. rewrite Hsem by congruence. split; [done |]. destruct h as [u'|].
      * destruct Hh2 as [? H0]. split; [done |]. intros t th' H'. destruct (Hcode _ _ H') as (th & H1 & ->). by eapply H0.
      * destruct Hh2 as [[? H0]|(? & u2 & thu & Hu & Htu & H0)].
        -- left. split; [done |]. intros t th' H'. destruct (Hcode _ _ H') as (th & H1 & ->). by eapply H0.
        -- right. split; [done |]. destruct (Hth' u2 thu Hu) as (thu' & Hu' & Hcu). exists u2, thu'. split; [done |].
           split; [by destruct Hcu as [-> | ->] |]. intros t th' H' Hnt.
           destruct (Hcode _ _ H') as (th & H1 & ->). by eapply H0.
Qed.

(** The current thread replaced, all others as they were. *)
Lemma lock_set_thread k k' th th' : lock_inv k → threads k !! currentThread k = Some th →
  threads k' = <[currentThread k := th']> (threads k) →
  code_locks (code th') → (∀ l, tokens l (code th') = tokens l (code th)) →
  (toBeDestroyed k' = None ∨ toBeDestroyed k' = toBeDestroyed k) → locks k' = locks k →
  (∀ l sem, semaphores k !! SLock l = Some sem → ∃ sem', semaphores k' !! SLock l = Some sem' ∧ value sem' = value sem) →
  lock_inv k'.
Proof.
  intros Hk Ht Hth Hc Htok Hd Hl Hsem. apply (lock_current k k' th (code th')); try done.
  - intros t th0. rewrite Hth. destruct (decide (t = currentThread k)) as [->|Hne].
    + rewrite lookup_insert_eq. intros [= <-]. by left.
    + rewrite lookup_insert_ne by done. intros H0. right. by exists th0.
  - intros t th0 H0. rewrite Hth. destruct (decide (t = currentThread k)) as [->|Hne].
    + rewrite lookup_insert_eq. by exists th'.
    + rewrite lookup_insert_ne by done. by exists th0.
  - intros d Hd'. destruct Hd as [Hd|Hd]; [congruence |]. left. congruence.
Qed.

Lemma lock_micro k k' : sched_inv k → cond_inv k → lock_inv k → micro k k' → lock_inv k'.
Proof.
  intros Hk Hc Hl Hm. destruct Hm as [k th i c ins Ht Hco Hi Hins Hfr|k th ins Ht Hp Hins|k th l c Ht Hco|k th s o c Ht Hco
    |k th s o c sem Ht Hco Hs Hv|k th s o c sem Ht Hco Hs Hv|k n k' Hwk|k th l c h Ht Hco Hlh|k th l k' Ht Hp Hlh Hwk
    |k cv w ws k' Hcv Hwk|k th cv q l c Ht Hco Hcv w|k th w c Ht Hco|k th body Ht Hp Hb|k th n r nth regs Ht Hp Hr Hn Hlen Hreg
    |k th n r nth nth' c fin regs th' k' Ht Hco Hr Hn Hlen Hreg Hth' Hk' Hn'|k th i c m d Ht Hco Hi Hm
    |k th c Ht Hco|k e|k m Hg|k th a Ht Hp].
  - pose proof (inv_code_locks k Hl _ _ Ht) as Hcl. rewrite Hco in Hcl.
    destruct (code_locks_soft i c ins Hcl Hi Hins Hfr) as [? Htok].
    eapply lock_set_thread; [done | exact Ht | done | done | | by right | done | intros l sem Hs; by exists sem].
    intros l. cbn [code with_code]. by rewrite Htok, Hco.
  - pose proof (inv_code_locks k Hl _ _ Ht) as Hcl. destruct (code_locks_frames ins _ Hins Hcl) as [? Htok].
    eapply lock_set_thread; [done | exact Ht | done | done | exact Htok | by right | done | intros l sem Hs; by exists sem].
  - pose proof (inv_code_locks k Hl _ _ Ht) as Hcl. rewrite Hco in Hcl.
    pose proof (code_locks_top _ _ Hcl eq_refl ltac:(done)) as Htop. destruct Hcl as [[Hpa _] _].
    assert (∀ l', tokens l' (IP (SLock l) :: IHolder l :: c) = 0) as Hz.
    { intros l'. specialize (Htop l'). cbn in *. case_decide; lia. }
    eapply lock_set_thread; [done | exact Ht | done | | | by right | done | intros l' sem Hs; by exists sem].
    + by apply code_locks_zero.
    + intros l'. cbn [code with_code]. by rewrite Hz, Hco, Htop.
  - pose proof (inv_code_locks k Hl _ _ Ht) as Hcl. rewrite Hco in Hcl.
    pose proof (code_locks_top _ _ Hcl eq_refl ltac:(done)) as Htop. destruct Hcl as [Hpa _].
    assert (∀ l', tokens l' (ILoop s o :: c) = 0) as Hz by (intros l'; rewrite <- (Htop l'); by destruct s).
    eapply lock_set_thread; [done | exact Ht | done | | | by right | done | intros l' sem Hs; by exists sem].
    + apply code_locks_zero; [by destruct s | done].
    + intros l'. cbn [code with_code]. by rewrite Hz, Hco, Htop.
  - by eapply lock_take.
  - pose proof (inv_code_locks k Hl _ _ Ht) as Hcl. rewrite Hco in Hcl.
    pose proof (code_locks_top _ _ Hcl eq_refl ltac:(done)) as Htop. destruct Hcl as [Hpa _].
    eapply lock_set_thread; [done | exact Ht | done | | | by right | done |].
    + apply code_locks_zero; [by split | exact Htop].
    + intros l'. cbn [code with_code with_status_of]. by rewrite Hco.
    + intros l' sem0 H0. cbn. destruct (decide (SLock l' = s)) as [<-|Hne].
      * rewrite lookup_insert_eq. rewrite Hs in H0. injection H0 as <-. by eexists.
      * rewrite lookup_insert_ne by done. by exists sem0.
  - by apply (lock_wake_other k (SUser n)).
  - pose proof (plain_phase th _ c Hco I) as Hp. destruct (current_running k th Hk Ht) as [_ Hd]; [by left |].
    by destruct (lock_holder k th l c h Hl Ht Hd Hco Hlh).
  - by eapply lock_release.
  - destruct (inv_waiters k Hc cv _ w Hcv) as (n & ? & -> & _); [by left |].
    eapply lock_wake_other; [| | exact Hwk]; [| done]. apply (lock_frame k); [done | | | apply Hl | done | intros l sem Hs; by exists sem].
    + intros t th' H'. split; [by eapply (inv_code_locks k Hl) | left; by exists th'].
    + intros t th l H0 _. by exists th.
  - pose proof (inv_code_locks k Hl _ _ Ht) as Hcl. rewrite Hco in Hcl.
    pose proof (code_locks_top _ _ Hcl eq_refl ltac:(done)) as Htop. destruct Hcl as [[Hpa _] _].
    eapply lock_set_thread; [done | exact Ht | done | | | by right | done |].
    + apply code_locks_zero; [by repeat split | exact Htop].
    + intros l'. cbn [code with_code]. by rewrite Hco.
    + intros l' sem0 H0. cbn. rewrite lookup_insert_ne by done. by exists sem0.
  - pose proof (inv_owned k Hc _ _ Ht) as Ho. rewrite Hco in Ho. destruct Ho as [_ Ho]. destruct w as [| |n]; try done.
    pose proof (inv_code_locks k Hl _ _ Ht) as Hcl. rewrite Hco in Hcl.
    pose proof (code_locks_top _ _ Hcl eq_refl ltac:(done)) as Htop. destruct Hcl as [[Hpa _] _].
    eapply (lock_set_thread k _ th (with_code th c)); [done | exact Ht | done | | | by right | done |].
    + by apply code_locks_zero.
    + intros l'. cbn [code with_code]. by rewrite Hco.
    + intros l' sem0 H0. exists sem0. split; [| done]. by apply lookup_delete_Some.
  - assert (threads k !! nextThread k = None) as Hf by (apply (inv_fresh k Hk); lia).
    apply (lock_frame k); [done | | | | done | intros l sem Hs; by exists sem].
    + intros t th'. cbn. destruct (decide (t = nextThread k)) as [->|Hne].
      * rewrite lookup_insert_eq. intros [= <-]. assert (∀ l, tokens l (IBegin :: body ++ [IFinish]) = 0) as Hz
          by (intros l; cbn; by rewrite tokens_app).
        split; [| by right]. apply code_locks_zero; [| done]. split; [| done]. by apply paired_app.
      * rewrite lookup_insert_ne by done. intros H0. split; [by eapply (inv_code_locks k Hl) | left; by exists th'].
    + intros t th0 l H0 _. exists th0. cbn. rewrite lookup_insert_ne; [done |]. congruence.
    + intros d th0 l Hd'. cbn in *. destruct (inv_destroyed k Hk d Hd') as (_ & (thd & Hthd & _) & _).
      rewrite lookup_insert_ne by congruence. by eapply (inv_dead k Hl).
  - pose proof (inv_code_locks k Hl _ _ Ht) as [Hpa Hst]. destruct (current_running k th Hk Ht) as [Hrun _]; [by left |].
    assert (currentThread k ≠ n) as Hne
      by (intros Hx; eapply (not_ready k); [done | exact Ht | by rewrite Hrun | rewrite Hr, Hx; by left]).
    apply (lock_current k _ th (IResume :: code th)); [done | done | | | by split; [split |] | done | | done | intros l sem Hs; by exists sem].
    + intros t th'. cbn. destruct (decide (t = n)) as [->|Htn].
      * rewrite lookup_insert_eq. intros [= <-]. right. by exists nth.
      * rewrite lookup_insert_ne by done. destruct (decide (t = currentThread k)) as [->|Htc].
        -- rewrite lookup_insert_eq. intros [= <-]. by left.
        -- rewrite lookup_insert_ne by done. right. by exists th'.
    + intros t th0 H0. cbn. destruct (decide (t = n)) as [->|Htn].
      * rewrite lookup_insert_eq. eexists. split; [done |]. rewrite decide_False by done. cbn. congruence.
      * rewrite lookup_insert_ne by done. destruct (decide (t = currentThread k)) as [->|Htc].
        -- rewrite lookup_insert_eq. by eexists.
        -- rewrite lookup_insert_ne by done. by exists th0.
    + intros d Hd. by left.
  - subst k'. pose proof (inv_code_locks k Hl _ _ Ht) as Hcl. rewrite Hco in Hcl.
    pose proof (code_locks_top _ _ Hcl eq_refl ltac:(done)) as Htop. destruct Hcl as [[Hpa _] _].
    assert (∀ l, tokens l (IResume :: c) = 0) as Hz by (intros l; rewrite <- (Htop l); done).
    assert (∀ t th0, <[currentThread k := th']> (threads k) !! t = Some th0 →
      t = currentThread k ∧ code th0 = IResume :: c ∨ t ≠ currentThread k ∧ threads k !! t = Some th0) as Hold.
    { intros t th0. destruct (decide (t = currentThread k)) as [->|Htc].
      - rewrite lookup_insert_eq. intros [= <-]. subst th'. by left.
      - rewrite lookup_insert_ne by done. by right. }
    apply (lock_current k _ th (IResume :: c)); [done | done | | | by apply code_locks_zero | | | done | intros l sem Hs; by exists sem].
    + intros t th0. cbn. destruct (decide (t = n)) as [->|Htn].
      * rewrite lookup_insert_eq. intros [= <-]. destruct (Hold _ _ Hn') as [[-> Hx]|[_ H0]]; [by left | right; by exists nth'].
      * rewrite lookup_insert_ne by done. intros H0. destruct (Hold _ _ H0) as [[-> Hx]|[_ H1]]; [by left | right; by exists th0].
    + intros t th0 H0. cbn. destruct (decide (t = n)) as [->|Htn].
      * rewrite lookup_insert_eq. eexists. split; [done |]. cbn. destruct (Hold _ _ Hn') as [[-> Hx]|[Hx H1]].
        -- by rewrite decide_True.
        -- rewrite decide_False by done. congruence.
      * rewrite lookup_insert_ne by done. destruct (decide (t = currentThread k)) as [->|Htc].
        -- rewrite lookup_insert_eq. eexists. split; [done |]. by subst th'.
        -- rewrite lookup_insert_ne by done. by exists th0.
    + intros l. rewrite Hz, Hco. by rewrite Htop.
    + intros d. cbn. destruct fin; [intros [= <-]; by right | by left].
  - pose proof (inv_code_locks k Hl _ _ Ht) as Hcl. rewrite Hco in Hcl.
    assert (code_locks c ∧ ∀ l, tokens l c = tokens l (i :: c)) as [Hcl' Htok].
    { destruct Hi as [-> | ->].
      - destruct Hcl as [[Hpa _] Hst]. split; [by split | done].
      - pose proof (code_locks_top _ _ Hcl eq_refl ltac:(done)) as Htop. destruct Hcl as [[Hpa _] _].
        split; [by apply code_locks_zero | done]. }
    apply (lock_frame k); [done | | | done | done | intros l sem Hs; by exists sem].
    + intros t th'. cbn. destruct (decide (t = currentThread k)) as [->|Hne].
      * rewrite lookup_insert_eq. intros [= <-]. split; [done |]. left. exists th. split; [done |]. intros l. by rewrite Hco, <- Htok.
      * rewrite lookup_insert_ne by done. intros H0. assert (threads k !! t = Some th') as H1.
        { destruct Hm as [[_ ->]|[_ ->]]; [done |]. by apply lookup_delete_Some in H0 as [_ ?]. }
        split; [by eapply (inv_code_locks k Hl) | left; by exists th'].
    + intros t th0 l H0 Hne0. cbn. destruct (decide (t = currentThread k)) as [->|Hne].
      * rewrite lookup_insert_eq. eexists. split; [done |]. rewrite Ht in H0. injection H0 as <-. cbn. by rewrite Hco, Htok.
      * rewrite lookup_insert_ne by done. exists th0. split; [| done]. destruct Hm as [[_ ->]|[Hd ->]]; [done |].
        apply lookup_delete_Some. split; [| done]. intros ->. apply Hne0. by eapply (inv_dead k Hl).
  - pose proof (inv_code_locks k Hl _ _ Ht) as Hcl. rewrite Hco in Hcl.
    pose proof (code_locks_top _ _ Hcl eq_refl ltac:(done)) as Htop. destruct Hcl as [[Hpa _] _].
    eapply lock_set_thread; [done | exact Ht | done | | | by right | done | intros l sem Hs; by exists sem].
    + apply code_locks_zero; [by split | exact Htop].
    + intros l. cbn [code with_code with_status_of]. by rewrite Hco.
  - apply (lock_frame k); [done | | | apply Hl | done | intros l sem Hs; by exists sem].
    + intros t th' H'. split; [by eapply (inv_code_locks k Hl) | left; by exists th'].
    + intros t th l H0 _. by exists th.
  - apply (lock_frame k); [done | | | apply Hl | done | intros l sem Hs; exists sem; split; [by apply Hg | done]].
    + intros t th' H'. split; [by eapply (inv_code_locks k Hl) | left; by exists th'].
    + intros t th l H0 _. by exists th.
  - eapply lock_set_thread; [done | exact Ht | done | exact (inv_code_locks k Hl _ _ Ht) | done | by right | done | intros l sem Hs; by exists sem].
Qed.

(** ** The invariant of the kernel's threads *)

Definition kernel_ok k : Prop := sched_inv k ∧ cond_inv k ∧ wakeup_inv k ∧ lock_inv k.

Lemma kernel_micro k k' : kernel_ok k → micro k k' → kernel_ok k'.
Proof.
  intros (Hs & Hc & Hw & Hl) Hm. split; [by eapply sched_micro |]. split; [by eapply cond_micro |].
  split; [by eapply wakeup_micro | by eapply lock_micro].
Qed.

Lemma kernel_steps k k' : kernel_ok k → rtc micro k k' → kernel_ok k'.
Proof. intros Hk Hm. induction Hm as [|k1 k2 k3 Hm _ IH]; [done |]. apply IH. by eapply kernel_micro. Qed.
End locks.
