(* ===== verification/Synch.v ===== *)
(** * The kernel's code keeps its promises

    [Threads.exec], the translation of thread.cc, scheduler.cc and synch.cc, run
    inside the interrupt simulation, is a sequence of the changes that [Sched]
    describes ([exec_ok]).  Hence the theorems of this file, about every state
    the kernel can reach. *)

From S2P Require Import Prelude Machine Lists Mips HostFile AddrSpace Interrupt Threads Sched Waiters Wakeups Locks.
Local Open Scope Z_scope.

Section synch.
Context {C X E : Type}.
#[local] Abbreviation instr := (instr X).
#[local] Abbreviation Thread := (Thread X).
#[local] Abbreviation Threads := (Threads X E).
#[local] Abbreviation Sim := (Sim C Threads).
Implicit Types (k : Threads) (th : Thread) (c ins : list instr) (t : Z) (s : Sim).

(** ** What the parameters are assumed to do *)

(** A handler raises semaphores the kernel made itself and changes the devices'
    own state. *)
Definition handler_step k k' : Prop :=
  (∃ n, wake k (SUser n) = Ok k') ∨ (∃ e, k' = with_env k e).

Class DeviceLaw (CallBack : C → Sim → result Sim) : Prop := {
  device_handler :: HandlerLaw CallBack;
  device_wakes : ∀ (cb : C) s s', level (interrupt s) = IntOff → inHandler (interrupt s) = true →
    CallBack cb s = Ok s' → rtc handler_step (devices s) (devices s') }.

(** Kernel code outside this component works on its own state and on the
    simulated hardware, makes semaphores, and asks for whole operations of this
    component. *)
Class ClientLaw (client : X → Sim → result (list instr * Sim)) : Prop :=
  client_law : ∀ x s ins s', settled s → client x s = Ok (ins, s') →
    Forall static ins ∧ settled s' ∧ ∃ m e, grows (semaphores (devices s)) m ∧ devices s' = with_env (with_semaphores (devices s) m) e.

(** A user instruction keeps words in the registers and bytes in memory
    ([Mips.OneInstruction_typed]). *)
Class UserLaw (user_step : Machine → result (list instr * Machine)) : Prop :=
  user_regs : ∀ m ins m', machine_typed m → user_step m = Ok (ins, m') →
    machine_typed m' ∧ Forall static ins.

(** ** Pieces of the code *)

Lemma SetOff_eq (CallBack : C → Sim → result Sim) s :
  SetOff CallBack s = Ok (level (interrupt s), with_level s IntOff).
Proof. done. Qed.

Lemma with_registers_eta m : with_registers m (registers m) = m.
Proof. by destruct m. Qed.

Lemma set_thread_twice k t th1 th2 : set_thread (set_thread k t th1) t th2 = set_thread k t th2.
Proof. unfold set_thread, with_threads. cbn. by rewrite insert_insert_eq. Qed.

Lemma set_thread_id k t th : threads k !! t = Some th → set_thread k t th = k.
Proof. intros Ht. unfold set_thread, with_threads. rewrite insert_id by done. by destruct k. Qed.

Lemma with_code_id th : with_code th (code th) = th.
Proof. by destruct th. Qed.

Lemma find_Some {K V} `{Countable K} (m : gmap K V) x v : m !! x = Some v → find m x = Ok v.
Proof. unfold find. by intros ->. Qed.

Lemma current_code_eq k th c : threads k !! currentThread k = Some th → current_code k c = Ok (set_code k th c).
Proof. intros Ht. unfold current_code. by rewrite (find_Some _ _ _ Ht). Qed.

Lemma pushs_eq s th ins : threads (devices s) !! currentThread (devices s) = Some th →
  pushs s ins = Ok (with_devices s (set_code (devices s) th (ins ++ code th))).
Proof.
  intros Ht. unfold pushs, push, lift. rewrite (find_Some _ _ _ Ht). cbn [rbind].
  by rewrite (current_code_eq _ th).
Qed.

(** The register copies of a context switch. *)
Lemma save_loop m r : length (registers m) = 40%nat → length r = 40%nat →
  for_each 0 NumTotalRegs (λ i r, v ← ReadRegister m i; aset r i v) r = Ok (registers m).
Proof.
  intros Hm Hr.
  destruct (for_each_rule (λ i r', length r' = 40%nat ∧ ∀ j : nat, (Z.of_nat j < i)%Z → r' !! j = registers m !! j)
    0 NumTotalRegs (λ i r, v ← ReadRegister m i; aset r i v) r) as (r' & -> & Hl & Hall); [done | split; [done | lia] | |].
  - intros i r1 Hi [Hl Hall]. unfold ReadRegister. unfold NumTotalRegs in *.
    destruct (Z.leb_spec 0 i), (Z.ltb_spec i 40); try lia. cbn [andb rbind].
    destruct (aget_is_Ok (registers m) i) as [v Hv]; [lia |]. rewrite Hv. cbn [rbind].
    rewrite aset_in by lia. eexists. split; [done |]. split; [by rewrite length_insert |].
    intros j Hj. apply aget_Ok in Hv as [_ Hv]. destruct (decide (j = Z.to_nat i)) as [->|Hne].
    + rewrite list_lookup_insert_eq by lia. by rewrite Hv.
    + rewrite list_lookup_insert_ne by done. apply Hall. lia.
  - f_equal. apply list_eq. intros j. destruct (decide (j < 40)%nat); [apply Hall; unfold NumTotalRegs; lia |].
    rewrite !lookup_ge_None_2; [done | lia | lia].
Qed.

Lemma restore_loop m r : length (registers m) = 40%nat → length r = 40%nat →
  for_each 0 NumTotalRegs (λ i m, v ← aget r i; WriteRegister m i v) m = Ok (with_registers m r).
Proof.
  intros Hm Hr.
  destruct (for_each_rule (λ i m', ∃ r', m' = with_registers m r' ∧ length r' = 40%nat ∧
      ∀ j : nat, (Z.of_nat j < i)%Z → r' !! j = r !! j)
    0 NumTotalRegs (λ i m, v ← aget r i; WriteRegister m i v) m) as (m' & -> & r' & -> & Hl & Hall).
  - done.
  - exists (registers m). rewrite with_registers_eta. split; [done |]. split; [done | lia].
  - intros i m1 Hi (r1 & -> & Hl & Hall). unfold NumTotalRegs in *.
    destruct (aget_is_Ok r i) as [v Hv]; [lia |]. rewrite Hv. cbn [rbind]. unfold WriteRegister, NumTotalRegs.
    destruct (Z.leb_spec 0 i), (Z.ltb_spec i 40); try lia. cbn [andb rbind].
    rewrite aset_in by (cbn; lia). eexists. split; [done |]. exists (<[Z.to_nat i := v]> r1). split; [done |].
    split; [by rewrite length_insert |]. intros j Hj. apply aget_Ok in Hv as [_ Hv].
    destruct (decide (j = Z.to_nat i)) as [->|Hne].
    + rewrite list_lookup_insert_eq by lia. by rewrite Hv.
    + rewrite list_lookup_insert_ne by done. apply Hall. lia.
  - f_equal. f_equal. apply list_eq. intros j. destruct (decide (j < 40)%nat); [apply Hall; unfold NumTotalRegs; lia |].
    rewrite !lookup_ge_None_2; [done | lia | lia].
Qed.

(** What a switched-out thread keeps of the user registers. *)
Definition saved_regs s th : list Z :=
  match space th with Some _ => registers (machine s) | None => userRegisters th end.

(** [Scheduler::Run] once [toBeDestroyed] is set. *)
Definition Run_tail s n : result Sim :=
  let t := currentThread (devices s) in
  th ← find (threads (devices s)) t;
  s ← match space th with Some _ => SaveUserState s t | None => Ok s end;
  CheckOverflow th;;
  s ← pushs s [IResume];
  let k := with_current (devices s) n in
  next ← find (threads k) n;
  Ok (with_devices s (set_thread k n (with_status_of next RUNNING))).

(** [Scheduler::Run] up to SWITCH, in one piece. *)
Lemma Run_eq s n fin th nth : level (interrupt s) = IntOff →
  threads (devices s) !! currentThread (devices s) = Some th → CheckOverflow th = Ok tt →
  length (registers (machine s)) = 40%nat → length (userRegisters th) = 40%nat →
  (fin = true → toBeDestroyed (devices s) = None) →
  let k := devices s in
  let th' := with_userRegisters (with_code th (IResume :: code th)) (saved_regs s th) in
  <[currentThread k := th']> (threads k) !! n = Some nth →
  Run s n fin = Ok (with_devices s
    (with_destroyed (set_thread (with_current (set_thread k (currentThread k) th') n) n (with_status_of nth RUNNING))
       (if fin then Some (currentThread k) else toBeDestroyed k))).
Proof.
  destruct s as [i st m k]. destruct k as [cur rl td ths sems lks cds nt nw en].
  cbn. intros Hl Ht Hov Hm Hu Hd Hn. unfold Run, getLevel. cbn. rewrite Hl. cbn.
  unfold lift, pushs, push, with_destroyed, with_devices in *. cbn in *.
  transitivity (Run_tail (mkSim i st m (mkThreads cur rl (if fin then Some cur else td) ths sems lks cds nt nw en)) n).
  - destruct fin; [rewrite Hd by done |]; done.
  - unfold Run_tail, saved_regs in *. cbn in *. rewrite (find_Some _ _ _ Ht). cbn.
    set (th1 := with_userRegisters th (match space th with Some _ => registers m | None => userRegisters th end)).
    set (k1 := mkThreads cur rl (if fin then Some cur else td) (<[cur := th1]> ths) sems lks cds nt nw en).
    assert (match space th with
      | Some _ => SaveUserState (mkSim i st m (mkThreads cur rl (if fin then Some cur else td) ths sems lks cds nt nw en)) cur
      | None => Ok (mkSim i st m (mkThreads cur rl (if fin then Some cur else td) ths sems lks cds nt nw en))
      end = Ok (mkSim i st m k1)) as ->.
    { unfold k1, th1. destruct (space th) as [a|].
      - unfold SaveUserState. cbn. rewrite (find_Some _ _ _ Ht). cbn. by rewrite save_loop.
      - replace (with_userRegisters th (userRegisters th)) with th by (by destruct th). by rewrite insert_id. }
    cbn. rewrite Hov. cbn. rewrite (pushs_eq _ th1) by (cbn; by rewrite lookup_insert_eq).
    unfold set_code, set_thread, with_devices, with_current, with_threads. cbn.
    rewrite insert_insert_eq. by rewrite (find_Some _ _ _ Hn : find (<[cur := with_code th1 (IResume :: code th)]> ths) n = Ok nth).
Qed.

(** ** Handlers and ticks *)

Section kernel.
Context (CallBack : C → Sim → result Sim) `{!DeviceLaw CallBack}.
Context (client : X → Sim → result (list instr * Sim)) `{!ClientLaw client}.
Context (user_step : Machine → result (list instr * Machine)) `{!UserLaw user_step}.

(** The current thread stays, and the ready list only grows at its end. *)
Definition stay k k' : Prop :=
  currentThread k' = currentThread k ∧ (∃ new, readyList k' = readyList k ++ new) ∧
  (toBeDestroyed k' = toBeDestroyed k ∨ toBeDestroyed k' = None).

Lemma stay_same k k' : currentThread k' = currentThread k → readyList k' = readyList k →
  toBeDestroyed k' = toBeDestroyed k ∨ toBeDestroyed k' = None → stay k k'.
Proof. intros Hc Hr Hd. split; [done |]. split; [| done]. exists []. by rewrite app_nil_r. Qed.

Lemma stay_trans k1 k2 k3 : stay k1 k2 → stay k2 k3 → stay k1 k3.
Proof.
  intros (H1 & [n1 R1] & D1) (H2 & [n2 R2] & D2). split; [congruence |]. split; [| rewrite <- D1 in D2 || idtac].
  - exists (n1 ++ n2). by rewrite R2, R1, app_assoc.
  - destruct D1 as [D1|D1], D2 as [D2|D2]; (right; congruence) || (left; congruence).
Qed.

(** What a thread has left to do, and what it will find in its registers. *)
Definition same_task th th' : Prop :=
  code th' = code th ∧ userRegisters th' = userRegisters th ∧ space th' = space th.

(** Nothing happens to the threads that do not run, except that a finished one
    is destroyed. *)
Definition kept k k' : Prop := ∀ t th, t ≠ currentThread k → threads k !! t = Some th →
  toBeDestroyed k = Some t ∨ ∃ th', threads k' !! t = Some th' ∧ same_task th th'.

Lemma kept_same k k' : threads k' = threads k → kept k k'.
Proof. intros Hth t th _ Ht. right. exists th. by rewrite Hth. Qed.

Lemma kept_trans k1 k2 k3 : stay k1 k2 → kept k1 k2 → kept k2 k3 → kept k1 k3.
Proof.
  intros (Hc & _ & Hd) H1 H2 t th Hne Ht. destruct (H1 t th Hne Ht) as [?|(th2 & Ht2 & A1 & A2 & A3)]; [by left |].
  rewrite <- Hc in Hne. destruct (H2 t th2 Hne Ht2) as [Hd2|(th3 & Ht3 & B1 & B2 & B3)].
  - left. destruct Hd as [Hd|Hd]; congruence.
  - right. exists th3. split; [done |]. split; [congruence |]. split; congruence.
Qed.

(** The same threads with the same code; some may have become ready. *)
Definition alike k k' : Prop :=
  stay k k' ∧ locks k' = locks k ∧
  ∀ t th, threads k !! t = Some th → ∃ th', threads k' !! t = Some th' ∧ same_task th th'.

Lemma alike_refl k : alike k k.
Proof. split; [apply stay_same; auto |]. split; [done |]. intros t th Ht. by exists th. Qed.

Lemma alike_trans k1 k2 k3 : alike k1 k2 → alike k2 k3 → alike k1 k3.
Proof.
  intros (H1 & Hl1 & H2) (H3 & Hl2 & H4). split; [by eapply stay_trans |]. split; [congruence |]. intros t th Ht.
  destruct (H2 t th Ht) as (th2 & Ht2 & A1 & A2 & A3). destruct (H4 t th2 Ht2) as (th3 & Ht3 & B1 & B2 & B3).
  exists th3. split; [done |]. split; [congruence |]. split; congruence.
Qed.

Lemma wake_alike k w k' : wake k w = Ok k' → alike k k'.
Proof.
  intros Hw. pose proof (wake_threads _ _ _ Hw) as (Hc & _ & Hl & _ & Htd & _ & _ & _ & Hth & _). split.
  { split; [done |]. split; [| by left]. apply wake_Ok in Hw as (sem & _ & _ & Hq). destruct (queue sem) as [|t q].
    - subst k'. exists []. by rewrite app_nil_r.
    - destruct Hq as (th & _ & _ & ->). by exists [t]. }
  split; [done |]. intros t th Ht.
  destruct (Hth t th Ht) as (th' & Ht' & Hd). exists th'. split; [done |]. by destruct Hd as [-> | ->].
Qed.

Lemma handler_steps k k' : rtc handler_step k k' → rtc micro k k' ∧ alike k k'.
Proof.
  induction 1 as [k|k1 k2 k3 Hh _ [IH1 IH2]]; [split; [done | apply alike_refl] |].
  destruct Hh as [[n Hw]|[e ->]].
  - split; [eapply rtc_l; [by eapply m_wake | done] |]. eapply alike_trans; [by eapply wake_alike | done].
  - split; [eapply rtc_l; [apply m_env | done] |]. eapply alike_trans; [| exact IH2]. split; [apply stay_same; auto |]. split; [done |]. intros t th Ht. by exists th.
Qed.

Lemma fires_steps ps s s' : level (interrupt s) = IntOff → inHandler (interrupt s) = true →
  fires CallBack ps s s' → rtc handler_step (devices s) (devices s').
Proof.
  intros Hl Hi Hf. induction Hf as [|p ps s rest s1 s2 Hp Hc Hf IH]; [done |].
  pose proof (device_wakes (callOnInterrupt p) (with_pending s rest) s1 Hl Hi Hc) as Hd.
  destruct (handler_law (callOnInterrupt p) (with_pending s rest) s1 Hl Hi Hc) as (Hl1 & Hi1 & _).
  etransitivity; [exact Hd |]. apply IH; [by rewrite Hl1 | by rewrite Hi1].
Qed.

Lemma CheckIfDue_ok s adv : sim_ok s → level (interrupt s) = IntOff →
  post (handler_fault CallBack s) (λ '(fired, s'), settled s' ∧ level (interrupt s') = IntOff ∧
    rtc micro (devices s) (devices s') ∧ alike (devices s) (devices s')) (CheckIfDue CallBack s adv).
Proof.
  intros Hs Hl. eapply post_mono; [by apply (CheckIfDue_spec CallBack s adv) | done |].
  intros [fired s'] (H1 & H2 & H3 & due & rest & _ & _ & _ & _ & _ & Hf). split; [done |]. split; [done |].
  destruct fired; [| subst s'; split; [done | apply alike_refl]].
  destruct Hf as (s1 & s2 & (_ & _ & Hi & Hl1 & Hd) & Hfires & ->). apply handler_steps.
  cbn. rewrite <- Hd. by eapply fires_steps.
Qed.

(** The states between two of a thread's instructions. *)
Definition level_ok s : Prop := ∀ th, threads (devices s) !! currentThread (devices s) = Some th →
  phase_of th ≠ PRun → phase_of th ≠ PFresh → level (interrupt s) = IntOff.

Definition ksim s : Prop := settled s ∧ kernel_ok (devices s) ∧ level_ok s.

(** ... and inside one, while the thread runs. *)
Definition running s : Prop := settled s ∧ kernel_ok (devices s) ∧
  ∃ th, threads (devices s) !! currentThread (devices s) = Some th ∧ phase_of th = PRun.

(** A lock changes hands only from no one to the current thread and back. *)
Definition lock_step k k' : Prop := ∀ l, locks k' !! l = locks k !! l ∨
  locks k !! l = Some None ∧ locks k' !! l = Some (Some (currentThread k)) ∨
  locks k !! l = Some (Some (currentThread k)) ∧ locks k' !! l = Some None.

(** The ready list is a queue: the current thread stays, or the thread at the
    head takes its place; others join at the end. *)
Definition fifo k k' : Prop :=
  stay k k' ∨ (∃ new, currentThread k' :: readyList k' = readyList k ++ new) ∧
    (toBeDestroyed k' = toBeDestroyed k ∨ toBeDestroyed k' = None ∨ toBeDestroyed k' = Some (currentThread k)).

Definition evolve k k' : Prop := lock_step k k' ∧ fifo k k' ∧ kept k k'.
Definition still k k' : Prop := lock_step k k' ∧ stay k k' ∧ kept k k'.

Lemma calm_lock k k' : locks k' = locks k → lock_step k k'.
Proof. intros Hl l. left. by rewrite Hl. Qed.

Lemma calm_still k k' : locks k' = locks k → currentThread k' = currentThread k → readyList k' = readyList k →
  toBeDestroyed k' = toBeDestroyed k ∨ toBeDestroyed k' = None → kept k k' → still k k'.
Proof. intros. split; [by apply calm_lock |]. split; [by apply stay_same | done]. Qed.

Lemma still_refl k : still k k.
Proof. apply calm_still; [done | done | done | by left | by apply kept_same]. Qed.

Lemma still_evolve k k' : still k k' → evolve k k'.
Proof. intros (? & ? & ?). split; [done |]. split; [by left | done]. Qed.

Lemma alike_kept k k' : alike k k' → kept k k'.
Proof. intros (_ & _ & Ha) t th _ Ht. right. by apply Ha. Qed.

Lemma alike_evolve k k' : alike k k' → evolve k k'.
Proof. intros Ha. pose proof Ha as (? & ? & _). apply still_evolve. split; [by apply calm_lock |]. split; [done | by apply alike_kept]. Qed.

Lemma stay_fifo k1 k2 k3 : stay k1 k2 → fifo k2 k3 → fifo k1 k3.
Proof.
  intros H1 [H2|[[n2 H2] D2]]; [left; by eapply stay_trans |]. right. destruct H1 as (Hc & [n1 H1] & D1). split.
  - exists (n1 ++ n2). by rewrite H2, H1, app_assoc.
  - rewrite Hc in D2. destruct D1 as [D1|D1]; rewrite D1 in D2; tauto.
Qed.

Lemma lock_step_r k k1 k2 : lock_step k k1 → locks k2 = locks k1 → lock_step k k2.
Proof. intros Hl Heq l. rewrite Heq. apply Hl. Qed.

(** [steady]: one change of the current thread and of what is not about the
    other threads. *)
#[local] Ltac others := intros t0 th0 Hne0 Ht0; right; exists th0; cbn; rewrite ?lookup_insert_ne by done; done.
#[local] Ltac steady_still := apply calm_still; [done | done | done | by left | others].
#[local] Ltac steady := apply still_evolve; steady_still.

(** From the threads [k] to the state [s] by the changes of [Sched]; [calm_steps]
    when they leave the locks alone. *)
Definition steps k s : Prop := ksim s ∧ rtc micro k (devices s) ∧ evolve k (devices s).
Definition calm_steps k s : Prop := ksim s ∧ rtc micro k (devices s) ∧ locks (devices s) = locks k ∧
  fifo k (devices s) ∧ kept k (devices s).

Lemma calm_steps_ok k s : calm_steps k s → steps k s.
Proof. intros (? & ? & ? & ? & ?). split; [done |]. split; [done |]. split; [by apply calm_lock | done]. Qed.

(** Until it ticks, an instruction changes neither what the kernel adds to the
    threads nor the set of its semaphores. *)
Definition same_user k k' : Prop := env k' = env k ∧
  ∀ n sem, semaphores k !! SUser n = Some sem → is_Some (semaphores k' !! SUser n).

Lemma same_user_refl k : same_user k k.
Proof. split; [done |]. intros n sem ->. by eexists. Qed.

Lemma same_user_eq k k' : env k' = env k → semaphores k' = semaphores k → same_user k k'.
Proof. intros He Hs. split; [done |]. intros n sem Hn. rewrite Hs. by eexists. Qed.

Lemma same_user_trans k1 k2 k3 : same_user k1 k2 → same_user k2 k3 → same_user k1 k3.
Proof. intros [E1 H1] [E2 H2]. split; [congruence |]. intros n sem Hn. destruct (H1 n sem Hn) as [sem2 Hn2]. by eapply H2. Qed.

Lemma same_user_sems k k' w sem : env k' = env k → semaphores k' = <[w := sem]> (semaphores k) → same_user k k'.
Proof.
  intros He Hm. split; [done |]. intros n sem0 Hn. rewrite Hm. destruct (decide (SUser n = w)) as [->|Hne]; [rewrite lookup_insert_eq; by eexists |].
  rewrite lookup_insert_ne by done. by eexists.
Qed.

Lemma wake_user k w k' : wake k w = Ok k' → same_user k k'.
Proof.
  intros Hw. pose proof (wake_threads _ _ _ Hw) as (_ & _ & _ & _ & _ & He & _). apply wake_Ok in Hw as (sem & Hs & _ & Hq).
  destruct (queue sem); [subst k' | destruct Hq as (th & _ & _ & ->)]; by eapply same_user_sems.
Qed.

(** How an operation that begins in [s] fails when it ticks: an [int]
    overflows, or a handler fails that is called then. *)
Definition tick_fault s (e : fault) : Prop := e = Undefined ∨
  ∃ s1, pending (interrupt s1) = pending (interrupt s) ∧ same_user (devices s) (devices s1) ∧
    kernel_ok (devices s1) ∧ handler_fault CallBack s1 e.

Lemma tick_mono s s1 e : pending (interrupt s1) = pending (interrupt s) → same_user (devices s) (devices s1) →
  tick_fault s1 e → tick_fault s e.
Proof.
  intros Hp Hu [->|(s2 & Hp2 & Hu2 & Hk & Hh)]; [by left | right]. exists s2.
  split; [congruence |]. split; [by eapply same_user_trans | done].
Qed.

Lemma running_ksim s : running s → ksim s.
Proof.
  intros (Hs & Hk & th & Ht & Hp). split; [done |]. split; [done |]. intros th' Ht' Hn. congruence.
Qed.

Lemma off_ksim s : settled s → kernel_ok (devices s) → level (interrupt s) = IntOff → ksim s.
Proof. intros. split; [done |]. split; [done |]. by intros th. Qed.

Lemma running_alike s s' : running s → settled s' → rtc micro (devices s) (devices s') →
  alike (devices s) (devices s') → running s'.
Proof.
  intros (_ & Hk & th & Ht & Hp) Hs Hm ([Hc _] & _ & Ha). split; [done |]. split; [by eapply kernel_steps |].
  destruct (Ha _ _ Ht) as (th' & Ht' & Hco & _). rewrite Hc. exists th'. split; [done |].
  unfold phase_of in *. by rewrite Hco.
Qed.

Lemma settled_devices s k : settled s → settled (with_devices s k).
Proof. done. Qed.

(** Running code of the current thread: prepending to it, taking from it. *)
Lemma running_code s th c : running s → threads (devices s) !! currentThread (devices s) = Some th →
  phase_of (with_code th c) = PRun → rtc micro (devices s) (set_code (devices s) th c) →
  running (with_devices s (set_code (devices s) th c)).
Proof.
  intros (Hs & Hk & _) Ht Hp Hm. split; [done |]. split; [by eapply kernel_steps |].
  exists (with_code th c). cbn. by rewrite lookup_insert_eq.
Qed.

Lemma running_push s ins : running s → Forall frame ins →
  ∃ s', pushs s ins = Ok s' ∧ running s' ∧ rtc micro (devices s) (devices s') ∧ interrupt s' = interrupt s ∧ locks (devices s') = locks (devices s) ∧
    stay (devices s) (devices s') ∧ kept (devices s) (devices s').
Proof.
  intros Hr Hf. pose proof Hr as (Hs & Hk & th & Ht & Hp). rewrite (pushs_eq _ th) by done.
  assert (micro (devices s) (set_code (devices s) th (ins ++ code th))) as Hm by (by apply m_push).
  eexists. split; [done |]. split; [| split; [by apply rtc_once | do 2 (split; [done |]); split; [apply stay_same; auto | others]]].
  apply running_code; [done | done | | by apply rtc_once].
  destruct ins as [|i ins]; [exact Hp |]. inversion_clear Hf as [|? ? Hi _]. by destruct i.
Qed.

Lemma saved_regs_ok s th : settled s → length (userRegisters th) = 40%nat →
  length (saved_regs s th) = 40%nat ∧ (is_Some (space th) → regs_ok (saved_regs s th)).
Proof.
  intros ((_ & _ & _ & [Hr _] & _) & _) Hu. unfold saved_regs. destruct (space th).
  - split; [apply Hr | done].
  - split; [done | by intros [? ?]].
Qed.

Lemma settled_len s : settled s → length (registers (machine s)) = 40%nat.
Proof. by intros ((_ & _ & _ & [(? & _) _] & _) & _). Qed.

(** Taking the first ready thread off the list. *)
Lemma FindNextToRun_eq s : level (interrupt s) = IntOff →
  FindNextToRun s = Ok (match readyList (devices s) with
    | [] => (None, s) | n :: r => (Some n, with_devices s (with_ready (devices s) r)) end).
Proof.
  intros Hl. unfold FindNextToRun, getLevel. rewrite Hl. rewrite bool_decide_eq_true_2 by done. cbn [rbind].
  by destruct (readyList (devices s)).
Qed.

Lemma Yield_ok s : running s → ∃ s', Yield CallBack s = Ok s' ∧ calm_steps (devices s) s'.
Proof.
  intros Hr. pose proof Hr as (Hs & Hk & th & Ht & Hp). destruct Hk as (Hsi & Hk').
  destruct (current_running _ th Hsi Ht) as [Hst Htd]; [by left |].
  unfold Yield. rewrite SetOff_eq. cbn [rbind]. rewrite FindNextToRun_eq by done. cbn [rbind].
  set (old := level (interrupt s)). set (s0 := with_level s IntOff).
  change (readyList (devices s0)) with (readyList (devices s)).
  destruct (readyList (devices s)) as [|n r] eqn:Hrl; cbn [rbind].
  { destruct (running_push s0 [ISetLevel old]) as (s' & -> & Hr' & Hm & Hi & Hlk & Hst' & Hkp'); [done | by constructor |].
    exists s'. split; [done |]. split; [by apply running_ksim |]. split; [done |]. split; [done |]. split; [by left | done]. }
  set (k := devices s) in *.
  assert (n ≠ currentThread k) as Hne.
  { intros ->. eapply (not_ready k); [done | exact Ht | by rewrite Hst | rewrite Hrl; by left]. }
  destruct (inv_ready k Hsi n) as (nth & Hn & _); [rewrite Hrl; by left |].
  set (c := [ISetLevel old] ++ code th). set (th1 := with_code th c).
  rewrite (pushs_eq _ th) by done. cbn [rbind]. unfold ReadyToRun. unfold getLevel.
  change (level _) with IntOff. rewrite bool_decide_eq_true_2 by done. cbn [rbind].
  set (k2 := with_ready k (r ++ [currentThread k])).
  set (th2 := with_status_of th1 READY).
  assert (make_ready (set_code (with_ready k r) th c) (currentThread k) = Ok (set_thread k2 (currentThread k) th2)) as Hmr.
  { unfold make_ready. rewrite (find_Some _ _ th1) by (cbn; by rewrite lookup_insert_eq). cbn [rbind].
    unfold seq_Append. change (readyList (set_thread (set_code (with_ready k r) th c) _ _)) with r.
    rewrite bool_decide_eq_true_2.
    2: { intros Hin. eapply (not_ready k); [done | exact Ht | by rewrite Hst | rewrite Hrl; by right]. }
    cbn [rbind]. unfold set_code. rewrite set_thread_twice. done. }
  cbn [devices with_devices]. change (currentThread (set_code _ _ _)) with (currentThread k).
  change (devices s0) with k. change ([ISetLevel old] ++ code th) with c. unfold lift. rewrite Hmr. cbn [rbind].
  set (s2 := with_devices _ (set_thread k2 (currentThread k) th2)).
  pose proof (inv_threads k Hsi _ _ Ht) as [(_ & _ & Hov & Hu & _) _].
  destruct (saved_regs_ok s2 th2 Hs Hu) as [Hsl Hsr].
  rewrite (Run_eq s2 n false th2 nth); [| done | cbn; by rewrite lookup_insert_eq | done | by apply (settled_len s) | done | done |].
  2: { cbn. rewrite !lookup_insert_ne by done. exact Hn. }
  eexists. split; [done |].
  assert (rtc micro k (set_code k th c)) as Hm1 by (apply rtc_once, m_push; [done | done | by constructor]).
  assert (micro (set_code k th c) (set_thread (with_current (set_thread (with_ready (set_code k th c) (r ++ [currentThread k]))
      (currentThread k) (with_userRegisters (with_status_of (with_code th1 (IResume :: code th1)) READY) (saved_regs s2 th2))) n)
        n (with_status_of nth RUNNING))) as Hm2.
  { apply (m_yield (set_code k th c) th1 n r nth (saved_regs s2 th2)).
    - cbn. by rewrite lookup_insert_eq.
    - done.
    - exact Hrl.
    - cbn. by rewrite lookup_insert_ne.
    - exact Hsl.
    - exact Hsr. }
  match goal with |- calm_steps k (with_devices s2 ?k3) => assert (rtc micro k k3) as Hm end.
  { etransitivity; [exact Hm1 |]. apply rtc_once. refine (eq_ind _ (micro _) Hm2 _ _).
    unfold s2, k2, set_thread, set_code, with_devices, with_threads, with_ready, with_current, with_destroyed. cbn.
    rewrite !insert_insert_eq. done. }
  split; [| split; [done |]; split; [done |]; split; [right; split; [exists [currentThread k]; cbn; by rewrite Hrl | by left] |]].
  2: { intros t0 th0 Hne0 H0. right. cbn. destruct (decide (t0 = n)) as [->|Htn].
       - exists (with_status_of nth RUNNING). rewrite lookup_insert_eq. split; [done |]. assert (th0 = nth) as -> by congruence. done.
       - exists th0. by rewrite !lookup_insert_ne by done. }
  apply off_ksim; [done | eapply kernel_steps; [| exact Hm]; by split | done].
Qed.

Lemma TickYield_ok old s : running s → ∃ s', TickYield CallBack old s = Ok s' ∧ calm_steps (devices s) s'.
Proof.
  intros Hr. unfold TickYield. destruct (running_push s [IStatus old]) as (s1 & -> & Hr1 & Hm & _ & Hl & Hst & Hkp); [done | by constructor |].
  cbn [rbind]. destruct (Yield_ok s1 Hr1) as (s' & -> & Hk & Hm' & Hl' & Hf' & Hkp'). exists s'. split; [done |]. split; [done |].
  split; [by etransitivity |]. split; [congruence |]. split; [by eapply stay_fifo | by eapply kept_trans].
Qed.

Lemma OneTick_ok s : running s → post (tick_fault s) (calm_steps (devices s)) (OneTick CallBack (TickYield CallBack) s).
Proof.
  intros Hr. pose proof Hr as (Hs & _). unfold OneTick.
  eapply (post_bind _ (λ st, clock_ok st)).
  { pose proof Hs as ((_ & _ & (Hc & ? & ? & ? & Hb) & _) & _). unfold int_add.
    case_decide; (case_decide; cbn [rbind post]; [| by left]); (case_decide; cbn [rbind post]; [| by left]).
    all: unfold clock_ok, is_s32, SystemTick, UserTick in *; cbn; lia. }
  intros st Hst. set (s0 := ChangeLevel (with_stats s st) IntOff).
  eapply post_bind.
  { eapply post_mono; [apply (CheckIfDue_ok s0 false) | | intros a Ha; exact Ha]; [| done |].
    - destruct Hs as [(? & ? & _ & ? & ?) _]. repeat (split; [done |]). done.
    - intros e He. right. exists s0. split; [done |]. split; [apply same_user_refl |]. split; [apply Hr | exact He]. }
  intros [fired s1] (Hs1 & Hl1 & Hm & Ha).
  assert (running s1) as Hr1 by (by apply (running_alike s)).
  cbn beta iota zeta. destruct (yieldOnReturn _).
  - destruct (TickYield_ok (getStatus s) (with_status (with_yieldOnReturn (ChangeLevel s1 IntOn) false) SystemMode))
      as (s' & -> & Hk & Hm' & Hl' & Hf' & Hkp'); [exact Hr1 |]. cbn [post]. split; [done |].
    split; [etransitivity; [exact Hm | exact Hm'] |].
    split; [etransitivity; [exact Hl' | apply Ha] |].
    split; [eapply stay_fifo; [apply Ha | exact Hf'] | eapply kept_trans; [apply Ha | by apply alike_kept | exact Hkp']].
  - cbn [post]. split; [by apply running_ksim | split; [exact Hm | split; [apply Ha |]]].
    split; [left; apply Ha | by apply alike_kept].
Qed.

Lemma SetLevelK_ok s now : running s →
  post (tick_fault s) (λ '(old, s'), calm_steps (devices s) s') (SetLevelK CallBack s now).
Proof.
  intros Hr. pose proof Hr as (Hs & _). unfold SetLevelK, SetLevel.
  destruct Hs as ((_ & _ & _ & _ & Hin) & _). rewrite Hin. rewrite orb_true_r. cbn [rbind].
  case_decide as Hd.
  - eapply post_bind; [by apply (OneTick_ok (ChangeLevel s now)) |]. done.
  - cbn [rbind post]. split; [by apply running_ksim |]. split; [done |]. split; [done |]. split; [left; apply stay_same; auto | by apply kept_same].
Qed.

(** ... as the last action of an operation. *)
Lemma SetLevelK_end s k now : running s → rtc micro k (devices s) → still k (devices s) →
  post (tick_fault s) (steps k) ('(_, s') ← SetLevelK CallBack s now; Ok s').
Proof.
  intros Hr Hm (Hl & Hst & Hkp). eapply post_bind; [by apply SetLevelK_ok |]. intros [old s'] (Hk & Hm' & Hl' & Hf' & Hkp').
  split; [done |]. split; [by etransitivity |]. split; [by eapply lock_step_r |].
  split; [by eapply stay_fifo | by eapply kept_trans].
Qed.

(** ** The instructions *)

(** The state of [exec] once the instruction is off the stack. *)
Definition popped s th c : Sim := with_devices s (set_code (devices s) th c).

(** The only ways an instruction fails for a reason of its own: an object that
    does not exist, a lock the caller does not hold, a failure of the user's
    or the client's code in this state, and the end of the simulation. *)
Definition refused s th (i : instr) c (e : fault) : Prop :=
  let k := devices s in
  let not_held l := locks k !! l = None ∧ e = NullDeref ∨
    locks k !! l ≠ Some (Some (currentThread k)) ∧ e = AssertFailed in
  match i with
  | IV w | ILoop w _ => semaphores k !! w = None ∧ e = NullDeref
  | IHolder l => locks k !! l = None ∧ e = NullDeref
  | IRelease l => not_held l
  | IWait cv l | ISignal cv l => not_held l ∨ conditions k !! cv = None ∧ e = NullDeref
  | IBroadcast cv _ => conditions k !! cv = None ∧ e = NullDeref
  | IIdle _ => e = Halted
  | IRun => user_step (machine s) = Fail e
  | ICall x => client x (popped s th c) = Fail e
  | _ => False
  end.

Definition excused s (e : fault) : Prop := tick_fault s e ∨ ∃ th i c,
  threads (devices s) !! currentThread (devices s) = Some th ∧ code th = i :: c ∧ refused s th i c e.

Section instruction.
Context s th i c (Hs : ksim s) (Ht : threads (devices s) !! currentThread (devices s) = Some th)
  (Hc : code th = i :: c).
#[local] Abbreviation k := (devices s).
#[local] Abbreviation k1 := (devices (popped s th c)).

Lemma s_inv : sched_inv k.
Proof. apply Hs. Qed.

Lemma popped_thread : threads k1 !! currentThread k1 = Some (with_code th c).
Proof. cbn. by rewrite lookup_insert_eq. Qed.

Lemma popped_pushs ins : pushs (popped s th c) ins = Ok (popped s th (ins ++ c)).
Proof.
  rewrite (pushs_eq _ (with_code th c)) by exact popped_thread. unfold popped, set_code, with_devices. cbn.
  by rewrite set_thread_twice.
Qed.

Lemma plain_run : plain i → phase_of th = PRun.
Proof. intros Hi. unfold phase_of. rewrite Hc. by rewrite decode_plain. Qed.

Lemma plain_rest : plain i → Forall plain c.
Proof.
  intros Hi. pose proof (run_code k th s_inv Ht (plain_run Hi)) as [Hpl _]. rewrite Hc in Hpl. by inversion Hpl.
Qed.

Lemma plain_phase_code ins : Forall plain c → Forall plain ins → phase_of (with_code th (ins ++ c)) = PRun.
Proof. intros H1 H2. unfold phase_of. cbn. rewrite decode_all_plain; [done |]. by apply Forall_app. Qed.

Lemma soft_plain : soft i → plain i.
Proof. intros Hi. by apply static_plain, soft_static. Qed.

(** An ordinary instruction leaves [ins] to do. *)
Lemma soft_running ins : soft i → Forall static ins → (frame i → ins = []) →
  running (popped s th (ins ++ c)) ∧ rtc micro k (devices (popped s th (ins ++ c))).
Proof.
  intros Hi Hins Hf. assert (rtc micro k (devices (popped s th (ins ++ c)))) as Hm.
  { apply rtc_once. by apply (m_code k th i c ins). }
  split; [| exact Hm]. destruct Hs as (Hse & Hk & _). split; [done |]. split; [by eapply kernel_steps |].
  exists (with_code th (ins ++ c)). split; [cbn; by rewrite lookup_insert_eq |].
  apply plain_phase_code; [apply plain_rest, soft_plain, Hi | by apply static_all_plain].
Qed.

Lemma soft_popped : soft i → running (popped s th c) ∧ rtc micro k (devices (popped s th c)).
Proof. intros Hi. by apply (soft_running []). Qed.

Lemma soft_pushs ins : soft i → Forall static ins → (frame i → ins = []) →
  post (excused s) (steps k) (pushs (popped s th c) ins).
Proof.
  intros Hi Hins Hf. rewrite popped_pushs. destruct (soft_running ins) as [Hr Hm]; [done.. |].
  split; [by apply running_ksim | split; [done | steady]].
Qed.

Lemma excuse e : tick_fault s e → excused s e.
Proof. by left. Qed.

Lemma refuse e : refused s th i c e → excused s e.
Proof. right. by exists th, i, c. Qed.

(** A failed [V] and the rest of a successful one. *)
Lemma wake_total k0 w sem : sched_inv k0 → semaphores k0 !! w = Some sem →
  post (λ e, e = Undefined) (λ k', wake k0 w = Ok k') (wake k0 w).
Proof.
  intros Hk0 Hw. destruct (wake k0 w) as [k'|e] eqn:Hwk; [done |]. cbn [post]. unfold wake in Hwk.
  rewrite (find_Some _ _ _ Hw) in Hwk. cbn [rbind] in Hwk.
  destruct (queue sem) as [|t q] eqn:Hq; cbn [rbind seq_RemoveFront] in Hwk.
  - unfold int_add in Hwk. case_decide; [done |]. by injection Hwk as <-.
  - destruct (inv_sems k0 Hk0 w sem Hw) as (_ & _ & Hall).
    destruct (Hall t) as (tht & H0 & Hst & _); [rewrite Hq; by left |].
    unfold make_ready in Hwk. rewrite (find_Some _ _ _ H0) in Hwk. cbn [rbind] in Hwk. unfold seq_Append in Hwk.
    rewrite bool_decide_eq_true_2 in Hwk.
    + cbn [rbind] in Hwk. unfold int_add in Hwk. case_decide; [done |]. by injection Hwk as <-.
    + apply (not_ready k0 t tht); [done | exact H0 | by rewrite Hst].
Qed.

Lemma V_ok s1 k0 w sem : settled s1 → kernel_ok k0 → sched_inv (devices s1) →
  semaphores (devices s1) !! w = Some sem →
  (∃ th1, threads (devices s1) !! currentThread (devices s1) = Some th1 ∧ phase_of th1 = PRun) →
  (∀ k', wake (devices s1) w = Ok k' → rtc micro k0 k') → still k0 (devices s1) →
  post (tick_fault s1) (steps k0) (Semaphore_V CallBack s1 w).
Proof.
  intros Hs1 Hk0 Hi Hw (th1 & Ht1 & Hp1) Hm Hls. unfold Semaphore_V. rewrite SetOff_eq. cbn [rbind].
  unfold lift. cbn [devices with_level with_interrupt]. eapply post_bind.
  { eapply post_bind; [eapply post_mono; [by eapply wake_total | by left | intros a Ha; exact Ha] |]. intros k' Hk'. instantiate (1 := λ s', ∃ k', s' = with_devices (with_level s1 IntOff) k' ∧ wake (devices s1) w = Ok k').
    by exists k'. }
  intros s2 (k' & -> & Hk'). pose proof (wake_alike _ _ _ Hk') as (Hsty & Hlk & Hal).
  pose proof Hsty as [Hcur _]. destruct Hls as (Hls & Hst0 & Hkp0).
  eapply post_mono; [| | intros a Ha; exact Ha].
  2: { intros e He. apply (tick_mono s1 (with_devices (with_level s1 IntOff) k')); [done | by eapply wake_user | exact He]. }
  apply SetLevelK_end; [| by apply Hm | split; [by eapply lock_step_r | split; [by eapply stay_trans |]]].
  2: { eapply kept_trans; [done | done |]. apply alike_kept. by eapply wake_alike. }
  split; [done |]. split; [eapply kernel_steps; [exact Hk0 | by apply Hm] |].
  destruct (Hal _ _ Ht1) as (th' & Ht' & Hco & _). exists th'. cbn. rewrite Hcur. split; [done |].
  unfold phase_of in *. by rewrite Hco.
Qed.

Lemma excused_tick s1 r (Q : Sim → Prop) : pending (interrupt s1) = pending (interrupt s) → same_user k (devices s1) →
  post (tick_fault s1) Q r → post (excused s) Q r.
Proof. intros Hp Hu H. eapply post_mono; [exact H | | done]. intros e He. apply excuse. by eapply tick_mono. Qed.

#[local] Ltac ticking :=
  match goal with
  | |- post _ _ (rbind (SetLevelK _ ?s1 _) _) => apply (excused_tick s1)
  | |- post _ _ (Semaphore_V _ ?s1 _) => apply (excused_tick s1)
  end; [done | first [by apply same_user_eq | by eapply same_user_sems | done] |].

Lemma find_post {K V} `{Countable K} (m : gmap K V) x (B : fault → Prop) :
  (m !! x = None → B NullDeref) → post B (λ v, m !! x = Some v) (find m x).
Proof. intros Hn. unfold find. destruct (m !! x); cbn; [done | by apply Hn]. Qed.

Lemma P_ok w : i = IP w → post (excused s) (steps k) ('(old, s) ← SetOff CallBack (popped s th c); pushs s [ILoop w old]).
Proof.
  intros ->. rewrite SetOff_eq. cbn [rbind].
  rewrite (pushs_eq _ (with_code th c)) by (cbn; by rewrite lookup_insert_eq). cbn [post].
  set (old := level _). set (k' := set_code _ _ _).
  assert (k' = set_code k th (ILoop w old :: c)) as Hk'.
  { unfold k', set_code, set_thread, popped, with_devices, with_threads. cbn. by rewrite insert_insert_eq. }
  assert (micro k k') as Hm by (rewrite Hk'; by eapply m_enter).
  split; [| split; [by apply rtc_once | steady]]. apply off_ksim; [apply Hs | | done]. by eapply kernel_micro; [apply Hs |].
Qed.

Lemma level_off : phase_of th ≠ PRun → phase_of th ≠ PFresh → level (interrupt s) = IntOff.
Proof. intros. destruct Hs as (_ & _ & Hl). by apply (Hl th). Qed.

Lemma block_ok w old sem : i = ILoop w old → semaphores k !! w = Some sem → value sem = 0 →
  ∃ s', (q ← seq_Append (queue sem) (currentThread k);
    s ← pushs (with_devices (popped s th c) (with_semaphores k1 (<[w := mkSem (value sem) q]> (semaphores k)))) [ILoop w old];
    Sleep s false) = Ok s' ∧ steps k s'.
Proof.
  intros -> Hw Hv. destruct (loop_code k th w old c s_inv Ht Hc) as (Hp & _).
  destruct (current_running k th s_inv Ht) as [Hst _]; [by right; exists w |].
  unfold seq_Append. rewrite bool_decide_eq_true_2.
  2: { apply (not_waiting k _ th w sem); [apply s_inv | done | by rewrite Hst | done]. }
  cbn [rbind]. rewrite (pushs_eq _ (with_code th c)) by (cbn; by rewrite lookup_insert_eq). cbn [rbind].
  unfold Sleep, getLevel. cbn [interrupt with_devices popped].
  pose proof (level_off ltac:(by rewrite Hp) ltac:(by rewrite Hp)) as Hl. rewrite Hl.
  rewrite bool_decide_eq_true_2 by done. cbn [rbind].
  rewrite (find_Some _ _ (with_code th (ILoop w old :: c))) by (cbn; rewrite lookup_insert_eq; by destruct th).
  cbn [rbind]. rewrite (pushs_eq _ (with_status_of (with_code th (ILoop w old :: c)) BLOCKED)) by (cbn; by rewrite lookup_insert_eq).
  eexists. split; [done |].
  pose proof (m_block k th w old c sem Ht Hc Hw Hv) as Hm.
  match goal with |- steps _ (with_devices _ ?k3) => assert (rtc micro k k3) as Hm3 end.
  { apply rtc_once. refine (eq_ind _ (micro _) Hm _ _).
    unfold set_code, set_thread, popped, with_devices, with_threads, with_semaphores. cbn.
    rewrite !insert_insert_eq. done. }
  split; [| split; [exact Hm3 | steady]]. apply off_ksim; [apply Hs | by eapply kernel_steps; [apply Hs |] | exact Hl].
Qed.

Lemma loop_ok w old : i = ILoop w old → post (excused s) (steps k) (Semaphore_P_loop CallBack (popped s th c) w old).
Proof.
  intros Hi. unfold Semaphore_P_loop. eapply post_bind.
  { apply (find_post (semaphores k1)). intros Hn. apply refuse. rewrite Hi. by split. }
  intros sem Hw. cbn beta. destruct (Z.eqb_spec (value sem) 0) as [Hv|Hv].
  - destruct (block_ok w old sem Hi Hw Hv) as (s' & Heq & Hk). exact (eq_ind_r (post (excused s) (steps k)) (Hk : post (excused s) (steps k) (Ok s')) Heq).
  - eapply post_bind; [apply (post_mono (tick_fault s) _ (λ n, n = value sem + -1) (λ n, n = value sem + -1)); [| apply excuse | done] |].
    { unfold int_add. case_decide; [done | by left]. }
    intros n ->. ticking. subst i. destruct (loop_code k th w old c s_inv Ht Hc) as (Hp & Hpl & _).
    pose proof (m_take k th w old c sem Ht Hc Hw Hv) as Hm. apply SetLevelK_end.
    + split; [apply Hs |]. split; [eapply kernel_micro; [apply Hs |]; exact Hm |].
      exists (with_code th c). split; [apply popped_thread |]. by apply (plain_phase_code []).
    + apply rtc_once. exact Hm.
    + steady_still.
Qed.

Lemma popped_run : plain i → ∃ th1, threads k1 !! currentThread k1 = Some th1 ∧ phase_of th1 = PRun.
Proof.
  intros Hi. exists (with_code th c). split; [apply popped_thread |]. apply (plain_phase_code []); [by apply plain_rest | constructor].
Qed.

Lemma V_instr w : i = IV w → post (excused s) (steps k) (Semaphore_V CallBack (popped s th c) w).
Proof.
  intros Hi. destruct (semaphores k !! w) as [sem|] eqn:Hw.
  - assert (soft i) as Hso.
    { pose proof (inv_threads k s_inv _ _ Ht) as [(Hpl & _) _]. unfold rest_of in Hpl. rewrite Hc, Hi in Hpl.
      cbn in Hpl. inversion_clear Hpl as [|? ? Hx _]. rewrite Hi. by destruct w. }
    destruct (soft_popped Hso) as [Hr Hm]. apply (excused_tick (popped s th c)); [done | by apply same_user_eq |].
    apply (V_ok _ _ _ sem); [apply Hs | apply Hs | apply Hr | exact Hw | apply popped_run; by apply soft_plain | | steady_still].
    intros k' Hk'. etransitivity; [exact Hm |]. apply rtc_once. subst i. destruct w as [n| |]; [by apply (m_wake _ n) | done | done].
  - unfold Semaphore_V. rewrite SetOff_eq. cbn [rbind]. unfold lift, wake, find. cbn. rewrite Hw. cbn [rbind].
    apply refuse. rewrite Hi. by split.
Qed.

Lemma not_held_post l : post (λ e, locks k !! l = None ∧ e = NullDeref ∨
    locks k !! l ≠ Some (Some (currentThread k)) ∧ e = AssertFailed)
  (λ _, locks k !! l = Some (Some (currentThread k)))
  (held ← IsHeldByCurrentThread k1 l; ASSERT held).
Proof.
  unfold IsHeldByCurrentThread, find. cbn. destruct (locks k !! l) as [h|] eqn:Hh; cbn; [| by left].
  case_bool_decide as Hd; cbn; [by rewrite Hd | right; split; [congruence | done]].
Qed.

Lemma bind_assoc {A B D} (m : result A) (f : A → result B) (g : B → result D) :
  rbind (rbind m f) g = rbind m (λ a, rbind (f a) g).
Proof. by destruct m. Qed.

Lemma held_post l r (Q : Sim → Prop) :
  (∀ e, locks k !! l = None ∧ e = NullDeref ∨ locks k !! l ≠ Some (Some (currentThread k)) ∧ e = AssertFailed →
     refused s th i c e) →
  (locks k !! l = Some (Some (currentThread k)) → post (excused s) Q r) →
  post (excused s) Q (held ← IsHeldByCurrentThread k1 l; (ASSERT held);; r).
Proof.
  intros Hb Hr. rewrite <- (bind_assoc (IsHeldByCurrentThread k1 l) (λ held : bool, ASSERT held) (λ _ : unit, r)).
  eapply post_bind; [eapply post_mono; [apply not_held_post | intros e He; by apply refuse, Hb | intros u Hu; exact Hu] |].
  intros ? Hl. by apply Hr.
Qed.

Lemma same_sched_locks k0 m : sched_inv k0 → sched_inv (with_locks k0 m).
Proof. intros Hk0. by apply (sched_same k0). Qed.

Lemma Release_ok l : i = IRelease l → post (excused s) (steps k) (Lock_Release CallBack (popped s th c) l).
Proof.
  intros Hi. unfold Lock_Release. apply held_post; [by intros e He; rewrite Hi |]. intros Hl. ticking.
  destruct (soft_popped ltac:(by rewrite Hi)) as [Hr Hm]. pose proof Hr as (_ & (Hsi & Hk') & _).
  destruct Hs as (_ & (_ & _ & _ & Hlk) & _). destruct (inv_locks k Hlk l _ Hl) as (sem & Hsem & _).
  apply (V_ok _ _ _ sem); [apply Hs | apply Hs | by apply same_sched_locks | exact Hsem | apply popped_run; by rewrite Hi | |].
  2: { split; [| split; [apply stay_same; auto | others]]. intros l'. cbn. destruct (decide (l' = l)) as [->|Hne]; [rewrite lookup_insert_eq; by right; right |].
       left. by rewrite lookup_insert_ne. }
  intros k' Hk0. etransitivity; [exact Hm |]. apply rtc_once.
  destruct popped_run as (th1 & Ht1 & Hp1); [by rewrite Hi |].
  by apply (m_release k1 th1 l k').
Qed.

Lemma Signal_ok cv l : i = ISignal cv l → post (excused s) (steps k) (Condition_Signal CallBack (popped s th c) cv l).
Proof.
  intros Hi. unfold Condition_Signal. apply held_post; [intros e He; rewrite Hi; by left |]. intros Hl.
  destruct (soft_popped ltac:(by rewrite Hi)) as [Hr Hm]. pose proof Hr as (_ & (Hsi & Hci & Hk') & _).
  eapply post_bind; [apply (find_post (conditions k1)); intros Hn; apply refuse; rewrite Hi; by right |].
  intros [|w ws] Hq; cbn beta iota; [split; [by apply running_ksim | split; [exact Hm | steady]] |]. cbn [seq_RemoveFront rbind].
  ticking. destruct (inv_waiters k1 Hci cv _ w Hq) as (n & sem & -> & _ & Hsem & _); [by left |].
  apply (V_ok _ _ _ sem); [apply Hs | apply Hs | by apply (sched_same k1) | exact Hsem | apply popped_run; by rewrite Hi | | steady_still].
  intros k' Hk0. etransitivity; [exact Hm |]. apply rtc_once. by eapply (m_signal k1).
Qed.

Lemma Wait_ok cv l : i = IWait cv l → post (excused s) (steps k) (Condition_Wait (popped s th c) cv l).
Proof.
  intros Hi. unfold Condition_Wait. apply held_post; [intros e He; rewrite Hi; by left |]. intros Hl. cbn zeta.
  eapply post_bind; [apply (find_post (conditions k)); intros Hn; apply refuse; rewrite Hi; by right |].
  intros q Hq. cbn beta. set (w := SWait (nextWaiter k1)). unfold seq_Append. rewrite bool_decide_eq_true_2.
  2: { intros Hin. destruct Hs as (_ & (_ & Hci & _) & _).
       destruct (inv_waiters k Hci cv q w Hq Hin) as (n & _ & Hw & Hlt & _). injection Hw as <-.
       change (nextWaiter k1) with (nextWaiter k) in Hlt. lia. }
  cbn [rbind]. rewrite (pushs_eq _ (with_code th c)) by (cbn; by rewrite lookup_insert_eq). cbn [post].
  rewrite Hi in Hc. pose proof (m_wait k th cv q l c Ht Hc Hq) as Hm. cbn zeta in Hm.
  match goal with |- steps _ (with_devices _ ?k3) => assert (rtc micro k k3) as Hm3 end.
  { apply rtc_once. refine (eq_ind _ (micro _) Hm _ _).
    unfold set_code, set_thread, popped, with_devices, with_threads, with_semaphores, with_nextWaiter, with_conditions. cbn.
    rewrite !insert_insert_eq. done. }
  split; [| split; [exact Hm3 | steady]]. apply running_ksim. split; [apply Hs |]. split; [by eapply kernel_steps; [apply Hs |] |].
  eexists. split; [cbn; by rewrite lookup_insert_eq |]. done.
Qed.

Lemma Broadcast_ok cv l : i = IBroadcast cv l → post (excused s) (steps k) (Condition_Broadcast (popped s th c) cv l).
Proof.
  intros Hi. unfold Condition_Broadcast.
  eapply post_bind; [apply (find_post (conditions k1)); intros Hn; apply refuse; by rewrite Hi |].
  intros [|w ws] Hq; cbn beta iota.
  - destruct soft_popped as [Hr Hm]; [by rewrite Hi |]. split; [by apply running_ksim | split; [done | steady]].
  - apply soft_pushs; [by rewrite Hi | by repeat constructor | by rewrite Hi].
Qed.

Lemma Fork_ok body : i = IFork body → post (excused s) (steps k) (Thread_Fork CallBack (popped s th c) body).
Proof.
  intros Hi. pose proof (inv_threads k s_inv _ _ Ht) as [(Hpl & _) _]. unfold rest_of in Hpl. rewrite Hc, Hi in Hpl.
  cbn in Hpl. inversion_clear Hpl as [|? ? Hb _]. cbn in Hb. apply forallb_True in Hb.
  assert (soft i) as Hso by (rewrite Hi; unfold soft; cbn; apply andb_True; split; [by apply forallb_True | done]).
  destruct (soft_popped Hso) as [Hr Hm]. pose proof Hr as (_ & (Hsi & _) & th1 & Ht1 & Hp1).
  unfold Thread_Fork. rewrite SetOff_eq. cbn [rbind]. unfold ReadyToRun, getLevel.
  rewrite bool_decide_eq_true_2 by done. cbn [rbind]. set (t := nextThread k1).
  assert (threads k1 !! t = None) as Hfr by (apply (inv_fresh k1 Hsi); unfold t; lia).
  set (k2 := with_nextThread (set_thread k1 t (Thread_new body)) (t + 1)).
  set (k3 := with_ready (with_nextThread (set_thread k1 t (with_status_of (Thread_new body) READY)) (t + 1)) (readyList k1 ++ [t])).
  assert (make_ready k2 t = Ok k3) as Hmr.
  { unfold make_ready. rewrite (find_Some _ _ (Thread_new body)) by (cbn; by rewrite lookup_insert_eq). cbn [rbind].
    unfold seq_Append. change (readyList (set_thread k2 _ _)) with (readyList k1). rewrite bool_decide_eq_true_2.
    2: { intros Hin. destruct (inv_ready k1 Hsi t Hin) as (? & ? & _). congruence. }
    cbn [rbind]. unfold k3, k2, set_thread, with_threads, with_nextThread, with_ready. cbn. by rewrite insert_insert_eq. }
  cbn [devices with_devices with_level with_interrupt]. change (nextThread k1) with t. fold k2. rewrite Hmr.
  cbn [lift rbind]. ticking.
  assert (micro k1 k3) as Hm3 by (by apply (m_fork k1 th1)).
  assert (rtc micro k k3) as Hm' by (etransitivity; [exact Hm | by apply rtc_once]).
  apply SetLevelK_end; [| exact Hm' |].
  2: { split; [by apply calm_lock |]. split; [split; [done |]; split; [by exists [t] | by left] |].
       intros t0 th0 Hne0 H0. right. exists th0. cbn. rewrite !lookup_insert_ne; [done | done |]. intros Heq.
       cbn in Hfr. rewrite Heq, lookup_insert_ne in Hfr by done. by rewrite H0 in Hfr. } split; [apply Hs |]. split; [eapply kernel_steps; [apply Hs | exact Hm'] |].
  exists th1. split; [| done]. change (<[t := with_status_of (Thread_new body) READY]> (threads k1) !! currentThread k1 = Some th1).
  rewrite lookup_insert_ne; [exact Ht1 |]. intros Heq. rewrite Heq in Hfr. by rewrite Ht1 in Hfr.
Qed.

(** Both ways back from SWITCH destroy the thread that finished, if any. *)
Lemma resume_ok : i = IResume ∨ i = IBegin → ∃ k', CheckToBeDestroyed k1 = Ok k' ∧ micro k k' ∧
  currentThread k' = currentThread k ∧ threads k' !! currentThread k' = Some (with_code th c) ∧ still k k' ∧ same_user k k'.
Proof.
  intros Hi. pose proof s_inv as Hsi.
  assert (∃ d m, CheckToBeDestroyed k1 = Ok (with_destroyed (with_threads k (<[currentThread k := with_code th c]> m)) None) ∧
    (toBeDestroyed k = None ∧ m = threads k ∨ toBeDestroyed k = Some d ∧ m = delete d (threads k)))
    as (d & m & -> & Hm).
  { unfold CheckToBeDestroyed. change (toBeDestroyed k1) with (toBeDestroyed k). destruct (toBeDestroyed k) as [d|] eqn:Hd.
    - destruct (inv_destroyed k Hsi d Hd) as (Hne & _). change (currentThread k1) with (currentThread k).
      destruct (Z.eqb_spec d (currentThread k)); [done |]. cbn [negb rbind].
      exists d, (delete d (threads k)). split; [| by right]. cbn. by rewrite delete_insert_ne by done.
    - exists 0, (threads k). split; [| by left]. f_equal. unfold popped, set_code, set_thread, with_threads, with_destroyed.
      cbn. by rewrite Hd. }
  eexists. split; [done |]. split; [by eapply (m_resume k th i c m d) |]. split; [done |]. split; [cbn; by rewrite lookup_insert_eq |].
  split; [| by apply same_user_eq].
  apply calm_still; [done | done | done | by right |]. intros t0 th0 Hne0 H0. cbn.
  destruct Hm as [[Hd ->]|[Hd ->]]; [right | destruct (decide (t0 = d)) as [->|Hnd]; [by left | right]]; exists th0.
  - by rewrite lookup_insert_ne by done.
  - by rewrite lookup_insert_ne, lookup_delete_ne by done.
Qed.

Lemma Begin_ok : i = IBegin → post (excused s) (steps k) (Thread_Begin CallBack (popped s th c)).
Proof.
  intros Hi. destruct resume_ok as (k' & Hck & Hm & Hcur & Ht' & Hsk & Hus); [by right |]. unfold Thread_Begin, lift. rewrite Hck. cbn [rbind].
  unfold Enable. apply (excused_tick (with_devices (popped s th c) k')); [done | exact Hus |]. apply SetLevelK_end; [| by apply rtc_once | exact Hsk].
  split; [apply Hs |]. split; [by eapply kernel_micro; [apply Hs |] |]. exists (with_code th c). split; [done |].
  pose proof (inv_threads k s_inv _ _ Ht) as [(Hpl & _) _]. unfold rest_of in Hpl. rewrite Hc, Hi in Hpl.
  by apply (plain_phase_code []).
Qed.

Lemma Resume_ok : i = IResume → post (excused s) (steps k) (Run_resume (popped s th c)).
Proof.
  intros Hi. destruct resume_ok as (k' & Hck & Hm & Hcur & Ht' & Hsk & Hus); [by left |]. unfold Run_resume, getLevel.
  assert (phase_of th = PSusp ∨ ∃ w, phase_of th = PSuspLoop w) as Hp.
  { unfold phase_of. rewrite Hc, Hi. cbn. destruct c as [|j c']; [by left |]. destruct j; try (by left). right. by eexists. }
  assert (level (interrupt s) = IntOff) as Hl by (apply level_off; destruct Hp as [-> | [w ->]]; done).
  cbn [interrupt popped with_devices]. rewrite Hl. rewrite bool_decide_eq_true_2 by done. cbn [rbind].
  unfold lift. rewrite Hck. cbn [rbind devices with_devices]. rewrite (find_Some _ _ _ Ht'). cbn [rbind].
  pose proof (inv_threads k s_inv _ _ Ht) as [(_ & _ & _ & Hu & Hru) _].
  assert (kernel_ok k') as Hk' by (by eapply kernel_micro; [apply Hs |]).
  change (space (with_code th c)) with (space th). destruct (space th) as [a|].
  - unfold RestoreUserState. cbn [devices with_devices machine]. rewrite (find_Some _ _ _ Ht'). cbn [rbind].
    rewrite restore_loop by (done || by apply (settled_len s), Hs). cbn [rbind post].
    split; [| split; [by apply rtc_once | by apply still_evolve]]. apply off_ksim; [| done | done].
    destruct Hs as (((? & ? & ? & [_ ?] & ?) & ?) & _). split; [| done]. do 3 (split; [done |]). split; [| done]. split; [by apply Hru | done].
  - cbn [post]. split; [| split; [by apply rtc_once | by apply still_evolve]]. apply off_ksim; [apply Hs | done | done].
Qed.

Lemma Finish_ok : i = IFinish → post (excused s) (steps k) (Thread_Finish CallBack (popped s th c)).
Proof.
  intros Hi. unfold Thread_Finish. rewrite SetOff_eq. cbn [rbind]. unfold Sleep, getLevel.
  rewrite bool_decide_eq_true_2 by done. cbn [rbind].
  rewrite (find_Some _ _ (with_code th c)) by (cbn; by rewrite lookup_insert_eq). cbn [rbind].
  rewrite (pushs_eq _ (with_status_of (with_code th c) BLOCKED)) by (cbn; by rewrite lookup_insert_eq). cbn [post].
  rewrite Hi in Hc. pose proof (m_finish k th c Ht Hc) as Hm.
  match goal with |- steps _ (with_devices _ ?k3) => assert (micro k k3) as Hm3 end.
  { refine (eq_ind _ (micro _) Hm _ _). unfold set_code, set_thread, popped, with_devices, with_threads. cbn.
    rewrite !insert_insert_eq. done. }
  split; [| split; [by apply rtc_once | steady]]. apply off_ksim; [apply Hs | by eapply kernel_micro; [apply Hs |] | done].
Qed.

Lemma Idle_ok fin : i = IIdle fin → level (interrupt s) = IntOff → post (excused s) (steps k) (Idle CallBack s).
Proof.
  intros Hi Hl. unfold Idle. destruct Hs as (Hse & Hk & _). eapply post_bind.
  { eapply post_mono; [by apply (CheckIfDue_ok (with_status s IdleMode) true); [apply Hse |] | | intros x Hx; exact Hx].
    intros e He. left. right. exists (with_status s IdleMode). split; [done |]. split; [apply same_user_refl |]. split; [exact Hk | exact He]. }
  intros [fired s1] (Hs1 & Hl1 & Hm & Ha). destruct fired; cbn [post].
  - split; [| split; [exact Hm | by apply alike_evolve]]. apply off_ksim; [done | by eapply kernel_steps; [exact Hk |] | done].
  - apply refuse. by rewrite Hi.
Qed.

Lemma Sleep_loop_ok fin : i = IIdle fin → post (excused s) (steps k) (Sleep_loop CallBack (popped s th c) fin).
Proof.
  intros Hi. pose proof s_inv as Hsi. pose proof (inv_threads k Hsi _ _ Ht) as [(_ & _ & Hov & Hu & _) Hpl].
  assert (level (interrupt s) = IntOff ∧ toBeDestroyed k = None ∨ fin = false ∧ level (interrupt s) = IntOff) as Hl.
  { destruct fin; [left | right; split; [done |]].
    - assert (phase_of th = PEnd) as Hp by (unfold phase_of; by rewrite Hc, Hi).
      split; [apply level_off; by rewrite Hp |]. destruct (toBeDestroyed k) as [d|] eqn:Hd; [| done].
      destruct (inv_destroyed k Hsi d Hd) as (_ & _ & th' & Ht' & Hsw). rewrite Ht in Ht'. injection Ht' as <-.
      by rewrite Hp in Hsw.
    - unfold placed in Hpl. destruct (phase_of th) eqn:Hp; unfold phase_of in Hp; rewrite Hc, Hi in Hp; cbn in Hp;
        try (by apply level_off; unfold phase_of; rewrite Hc, Hi; cbn; rewrite Hp).
      + exfalso. pose proof (run_code k th Hsi Ht) as Hrc. unfold phase_of in Hrc. rewrite Hc, Hi in Hrc. cbn in Hrc.
        destruct (Hrc Hp) as [Hx _]. by inversion Hx.
      + exfalso. destruct c as [|j c']; [done |]. by destruct j. }
  assert (level (interrupt s) = IntOff) as Hoff by tauto.
  assert (fin = true → toBeDestroyed k = None) as Htd by (intros ->; destruct Hl as [[_ ?]|[? _]]; done).
  unfold Sleep_loop. rewrite FindNextToRun_eq by done. cbn [rbind]. change (readyList k1) with (readyList k).
  destruct (readyList k) as [|n r] eqn:Hr; cbn [rbind].
  - assert (pushs (popped s th c) [IIdle fin] = Ok s) as ->.
    { rewrite popped_pushs. f_equal. unfold popped, set_code. cbn [app]. rewrite <- Hi, <- Hc, with_code_id.
      rewrite set_thread_id by done. by destruct s. }
    by apply (Idle_ok fin).
  - destruct (inv_ready k Hsi n) as (nth & Hn & _); [rewrite Hr; by left |].
    set (s1 := with_devices (popped s th c) (with_ready k1 r)).
    set (th' := with_userRegisters (with_code th (IResume :: c)) (saved_regs s th)).
    assert (∃ nth', <[currentThread k := th']> (threads k) !! n = Some nth') as [nth' Hn'].
    { destruct (decide (n = currentThread k)) as [->|Hne]; [rewrite lookup_insert_eq | rewrite lookup_insert_ne by done]; eauto. }
    destruct (saved_regs_ok s th ltac:(apply Hs) Hu) as [Hsl Hsr].
    rewrite (Run_eq s1 n fin (with_code th c) nth'); [| done | apply popped_thread | done | by apply (settled_len s), Hs | done | done |].
    2: { change (threads (devices s1)) with (<[currentThread k := with_code th c]> (threads k)).
         change (currentThread (devices s1)) with (currentThread k). rewrite insert_insert_eq. exact Hn'. }
    pose proof (m_switch k th n r nth nth' c fin (saved_regs s th) th' (set_thread (with_ready k r) (currentThread k) th')
      Ht ltac:(by rewrite Hc, Hi) Hr Hn Hsl Hsr eq_refl eq_refl Hn') as Hm.
    match goal with |- post _ _ (Ok (with_devices _ ?k3)) => assert (micro k k3) as Hm3 end.
    { refine (eq_ind _ (micro _) Hm _ _).
      unfold s1, set_code, set_thread, popped, with_devices, with_threads, with_ready, with_current, with_destroyed, th'. cbn.
      rewrite !insert_insert_eq. done. }
    split; [| split; [by apply rtc_once | split; [by apply calm_lock | split; [right; split; [exists []; cbn; by rewrite Hr, app_nil_r | destruct fin; auto] |]]]].
    2: { intros t0 th0 Hne0 H0. right. cbn. destruct (decide (t0 = n)) as [->|Htn].
         - exists (with_status_of nth' RUNNING). rewrite lookup_insert_eq. split; [done |].
           rewrite lookup_insert_ne in Hn' by done. assert (th0 = nth') as -> by congruence. done.
         - exists th0. rewrite !lookup_insert_ne by done. done. } apply off_ksim; [apply Hs | by eapply kernel_micro; [apply Hs |] | done].
Qed.

Lemma Acquire_ok l : i = IAcquire l → post (excused s) (steps k) (pushs (popped s th c) [IP (SLock l); IHolder l]).
Proof.
  intros Hi. rewrite popped_pushs. cbn [post]. rewrite Hi in Hc.
  assert (rtc micro k (devices (popped s th ([IP (SLock l); IHolder l] ++ c)))) as Hm.
  { apply rtc_once. by apply (m_acquire k th l c). }
  split; [| split; [exact Hm | steady]]. apply running_ksim. split; [apply Hs |]. split; [by eapply kernel_steps; [apply Hs |] |].
  eexists. split; [cbn; by rewrite lookup_insert_eq |]. done.
Qed.

(** A thread about to enter a lock finds it free. *)
Lemma holder_free l h : head (code th) = Some (IHolder l) → locks k !! l = Some h → h = None.
Proof.
  intros Hhd Hh. destruct h as [t|]; [exfalso | done]. destruct Hs as (_ & (_ & _ & _ & Hlk) & _).
  destruct (inv_locks k Hlk l _ Hh) as (sem & _ & _ & H0). pose proof (inv_code_locks k Hlk _ _ Ht) as [Hpa _].
  pose proof (paired_tokens l _ Hpa) as [_ H1]. specialize (H1 Hhd). rewrite (H0 _ _ Ht) in H1. lia.
Qed.

Lemma Holder_ok l : i = IHolder l → post (excused s) (steps k)
  (_ ← find (locks k1) l; Ok (with_devices (popped s th c) (with_locks k1 (<[l := Some (currentThread k)]> (locks k1))))).
Proof.
  intros Hi. eapply post_bind; [apply (find_post (locks k1)); intros Hn; apply refuse; by rewrite Hi |].
  intros h Hh. cbn [post]. pose proof (m_holder k th l c h Ht ltac:(by rewrite Hc, Hi) Hh) as Hm.
  split; [| split; [by apply rtc_once |]].
  2: { split; [| split; [left; apply stay_same; auto | others]]. intros l'. cbn. destruct (decide (l' = l)) as [->|Hne]; [rewrite lookup_insert_eq | left; by rewrite lookup_insert_ne].
       right. left. split; [| done]. change (locks k1 !! l = Some h) with (locks k !! l = Some h) in Hh. cbn in Hh. rewrite Hh. apply (f_equal Some), (holder_free l h); [by rewrite Hc, Hi | done]. } apply running_ksim. split; [apply Hs |]. split; [eapply kernel_micro; [apply Hs | exact Hm] |].
  exists (with_code th c). split; [apply popped_thread |]. apply (plain_phase_code []); [| constructor]. apply plain_rest. by rewrite Hi.
Qed.

Lemma Delete_ok w : i = IDelete w → post (excused s) (steps k)
  (Ok (with_devices (popped s th c) (with_semaphores k1 (delete w (semaphores k))))).
Proof.
  intros Hi. cbn [post]. pose proof (m_delete k th w c Ht ltac:(by rewrite Hc, Hi)) as Hm.
  split; [| split; [by apply rtc_once | steady]]. apply running_ksim. split; [apply Hs |]. split; [eapply kernel_micro; [apply Hs | exact Hm] |].
  exists (with_code th c). split; [apply popped_thread |]. apply (plain_phase_code []); [| constructor]. apply plain_rest. by rewrite Hi.
Qed.

Lemma Execute_regs m a : length (registers m) = 40%nat → 
  ∃ m', Execute m a = Ok m' ∧ regs_ok (registers m') ∧ mainMemory m' = mainMemory m.
Proof.
  intros Hl. unfold Execute, InitRegisters. rewrite write_all_zero by done. cbn [rbind].
  assert (∀ m1 r v, regs_ok (registers m1) → 0 <= r < 40 → r ≠ 37 → is_s32 v →
    ∃ m2, WriteRegister m1 r v = Ok m2 ∧ regs_ok (registers m2) ∧ mainMemory m2 = mainMemory m1) as Hw.
  { intros m1 r v Hr Hb Hne Hv. destruct (regs_ok_set (registers m1) r v) as [Hset Hr']; [done.. |].
    rewrite WriteRegister_ok by (done || apply Hr). eexists. split; [done | by split]. }
  assert (regs_ok (replicate 40 0)) as H0.
  { split; [done |]. split; [apply Forall_replicate; by unfold is_s32 |]. by exists 0. }
  destruct (Hw (with_registers m (replicate 40 0)) PCReg 0) as (m1 & -> & H1 & E1); [done.. |]. cbn [rbind].
  destruct (Hw m1 NextPCReg 4) as (m2 & -> & H2 & E2); [done.. |]. cbn [rbind].
  destruct (Hw m2 StackReg (s32 (numPages a * PageSize - 16))) as (m3 & -> & H3 & E3); [done.. | apply s32_range |]. cbn [rbind].
  eexists. split; [done |]. split; [exact H3 |]. cbn. by rewrite E3, E2, E1.
Qed.

Lemma settled_machine s0 m : settled s0 → machine_typed m → settled (with_machine s0 m).
Proof. intros ((? & ? & ? & _ & ?) & ?) Hm. split; [| done]. by do 3 (split; [done |]). Qed.

Lemma Execute_ok a : i = IExecute a → post (excused s) (steps k) (Thread_Execute (popped s th c) a).
Proof.
  intros Hi. unfold Thread_Execute. rewrite (find_Some _ _ _ popped_thread). cbn [rbind].
  destruct (Execute_regs (machine s) a) as (m & Hm & Hr & Hmem); [by apply settled_len, Hs |].
  change (machine (popped s th c)) with (machine s). rewrite Hm. cbn [rbind].
  rewrite (pushs_eq _ (with_space (with_code th c) (Some a))) by (cbn; by rewrite lookup_insert_eq). cbn [post].
  destruct (soft_running [IRun]) as [(_ & Hk2 & _) Hm1]; [by rewrite Hi | by repeat constructor | by rewrite Hi |].
  pose proof (m_space (devices (popped s th ([IRun] ++ c))) (with_code th ([IRun] ++ c)) (Some a)) as Hm2.
  match goal with |- steps _ (with_devices _ ?k3) => assert (rtc micro k k3) as Hm3 end.
  { etransitivity; [exact Hm1 |]. apply rtc_once. refine (eq_ind _ (micro _) (Hm2 _ _) _ _).
    - cbn. by rewrite lookup_insert_eq.
    - apply plain_phase_code; [apply plain_rest; by rewrite Hi | by repeat constructor].
    - unfold set_code, set_thread, popped, with_machine, with_devices, with_threads. cbn. rewrite !insert_insert_eq. done. }
  split; [| split; [exact Hm3 | steady]]. apply running_ksim.
  assert (machine_typed m) as Hty by (split; [exact Hr | rewrite Hmem; apply Hs]).
  split; [apply (settled_machine s); [apply Hs | exact Hty] |]. split; [eapply kernel_steps; [apply Hs | exact Hm3] |].
  eexists. split; [cbn; by rewrite lookup_insert_eq |].
  apply (plain_phase_code [IRun]); [apply plain_rest; by rewrite Hi | by repeat constructor].
Qed.

Lemma IRun_ok : i = IRun → post (excused s) (steps k)
  ('(ins, m) ← user_step (machine s); pushs (with_machine (popped s th c) m) (ins ++ [ITick; IRun])).
Proof.
  intros Hi. destruct (user_step (machine s)) as [[ins m]|e] eqn:Hu; cbn [rbind]; [| apply refuse; by rewrite Hi].
  destruct (user_regs (machine s) ins m) as [Hr Hst]; [apply Hs | done |].
  destruct (soft_running (ins ++ [ITick; IRun])) as [(_ & Hk2 & Hrun) Hm1];
    [by rewrite Hi | apply Forall_app; split; [done | by repeat constructor] | by rewrite Hi |].
  pose proof (popped_pushs (ins ++ [ITick; IRun])) as Hp. unfold pushs in *. cbn [devices with_machine].
  change (devices (with_machine (popped s th c) m)) with k1. destruct (push k1 _) as [k2|]; [| done].
  cbn [lift rbind] in *. injection Hp as Hp. subst k2.
  split; [| split; [exact Hm1 | steady]]. apply running_ksim. split; [apply (settled_machine s); [apply Hs | exact Hr] |]. by split.
Qed.

Lemma Call_ok x : i = ICall x → post (excused s) (steps k) ('(ins, s) ← client x (popped s th c); pushs s ins).
Proof.
  intros Hi. destruct (client x (popped s th c)) as [[ins s']|f] eqn:Hx; cbn [rbind].
  2: { apply refuse. by rewrite Hi. }
  destruct (client_law x (popped s th c) ins s') as (Hst & Hse & m & e & Hg & He); [apply Hs | done |].
  destruct (soft_running ins) as [(_ & Hk2 & Hrun) Hm1]; [by rewrite Hi | done | by rewrite Hi |].
  rewrite (pushs_eq _ (with_code th c)) by (rewrite He; cbn; by rewrite lookup_insert_eq). cbn [post]. rewrite He.
  match goal with |- steps _ (with_devices _ ?k3) => assert (k3 = with_env (with_semaphores (set_code k th (ins ++ c)) m) e) as -> end.
  { unfold set_code, set_thread, popped, with_devices, with_threads, with_env. cbn. by rewrite insert_insert_eq. }
  assert (rtc micro k (with_env (with_semaphores (set_code k th (ins ++ c)) m) e)) as Hm.
  { eapply rtc_r; [| apply m_env]. eapply rtc_r; [exact Hm1 |]. by apply m_new. }
  split; [| split; [exact Hm | steady]]. apply running_ksim. split; [apply Hse |].
  split; [eapply kernel_steps; [apply Hs | exact Hm] | exact Hrun].
Qed.

(** The instructions that stand for the end of an operation. *)
Lemma end_ok (r : result Sim) : soft i → (running (popped s th c) → post (tick_fault (popped s th c)) (steps k1) r) →
  post (excused s) (steps k) r.
Proof.
  intros Hi Hr. destruct (soft_popped Hi) as [Hrun Hm]. apply (excused_tick (popped s th c)); [done | by apply same_user_eq |].
  eapply post_mono; [by apply Hr | done |]. intros s' (Hk & Hm' & Hl). split; [done |]. split; [by etransitivity |].
  destruct Hl as (Hl & Hf & Hkp). split; [exact Hl |]. split; [exact Hf |].
  apply (kept_trans _ k1); [apply stay_same; auto | others | exact Hkp].
Qed.

Lemma exec_instr : post (excused s) (steps k) (exec CallBack client user_step s).
Proof.
  unfold exec. rewrite (find_Some _ _ _ Ht). cbn [rbind]. rewrite Hc. rewrite (current_code_eq _ th) by done.
  cbn [lift rbind]. change (with_devices s (set_code k th c)) with (popped s th c).
  destruct i as [w|w|l|l|cv l|cv l|cv l| | |body|now|a| |x|w o|l|w|fin| | |st|] eqn:Hi in |- *.
  - by apply P_ok.
  - by apply V_instr.
  - by apply Acquire_ok.
  - by apply Release_ok.
  - by apply Wait_ok.
  - by apply Signal_ok.
  - by apply Broadcast_ok.
  - apply end_ok; [by rewrite Hi |]. intros Hr. destruct (Yield_ok _ Hr) as (s' & -> & Hk). by apply calm_steps_ok.
  - by apply Finish_ok.
  - by apply Fork_ok.
  - apply end_ok; [by rewrite Hi |]. intros Hr. apply SetLevelK_end; [done | done | apply still_refl].
  - by apply Execute_ok.
  - by apply IRun_ok.
  - by apply Call_ok.
  - by apply loop_ok.
  - by apply Holder_ok.
  - by apply Delete_ok.
  - by apply Sleep_loop_ok.
  - by apply Resume_ok.
  - by apply Begin_ok.
  - apply end_ok; [by rewrite Hi |]. intros Hr. apply calm_steps_ok. split; [by apply running_ksim |].
    split; [done |]. split; [done |]. split; [left; apply stay_same; auto | by apply kept_same].
  - apply end_ok; [by rewrite Hi |]. intros Hr.
    eapply post_mono; [by apply OneTick_ok | done | intros s'; apply calm_steps_ok].
Qed.
End instruction.

(** The kernel keeps going: from a state in order, the next instruction exists
    and leads to a state in order, by changes that [Sched] describes. *)
Theorem exec_ok s : ksim s → post (excused s) (steps (devices s)) (exec CallBack client user_step s).
Proof.
  intros Hs. destruct (inv_current (devices s)) as [th Ht]; [apply Hs |].
  destruct (code th) as [|i c] eqn:Hc; [| by apply (exec_instr s th i c)].
  exfalso. destruct Hs as (_ & (Hsi & _) & _). destruct (run_code _ th Hsi Ht) as [_ Hl]; [unfold phase_of; by rewrite Hc |].
  by rewrite Hc in Hl.
Qed.

(** Executions. *)
Definition exec_step s s' : Prop := exec CallBack client user_step s = Ok s'.

Lemma exec_steps s s' : ksim s → rtc exec_step s s' → ksim s' ∧ rtc micro (devices s) (devices s').
Proof.
  intros Hs Hr. induction Hr as [s|s1 s2 s3 He _ IH]; [done |].
  pose proof (exec_ok s1 Hs) as Hk. rewrite He in Hk. destruct Hk as (Hk & Hm & _). destruct (IH Hk) as [? ?].
  split; [done |]. by etransitivity.
Qed.
End kernel.
End synch.
