(* ===== verification/SynchProps.v ===== *)
(** * What the scheduler and the synchronization primitives guarantee

    Theorems about every state the kernel reaches from its start ([booted]),
    whatever the devices, the user programs and the rest of the kernel do within
    the laws of [Synch].  [C], [X], [E]: callback objects, client operations and
    client state; see [Threads]. *)

From S2P Require Import Prelude Machine Lists Mips HostFile AddrSpace Interrupt Threads Sched Waiters Wakeups Locks Synch.
Local Open Scope Z_scope.

Section reachable.
Context {C X E : Type}.
#[local] Abbreviation instr := (instr X).
#[local] Abbreviation Thread := (Thread X).
#[local] Abbreviation Threads := (Threads X E).
#[local] Abbreviation Sim := (Sim C Threads).
Implicit Types (k : Threads) (th : Thread) (c ins : list instr) (t : Z) (s : Sim).

(** ** The start *)

(** [Kernel::Initialize] has run: one thread, the main one, and synchronization
    objects nobody has used. *)
Record booted s : Prop := {
  boot_settled : settled s;
  boot_threads : ∃ th ins, threads (devices s) = {[currentThread (devices s) := th]} ∧
    tstatus th = RUNNING ∧ code th = ins ++ [IFinish] ∧ Forall static ins ∧
    space th = None ∧ stack th = None ∧ length (userRegisters th) = 40%nat;
  boot_ready : readyList (devices s) = [];
  boot_destroyed : toBeDestroyed (devices s) = None;
  boot_semaphores : ∀ w sem, semaphores (devices s) !! w = Some sem → 0 <= value sem ∧ queue sem = [];
  boot_locks : ∀ l h, locks (devices s) !! l = Some h → h = None ∧
    semaphores (devices s) !! SLock l = Some (mkSem 1 []);
  boot_conditions : ∀ cv q, conditions (devices s) !! cv = Some q → q = [];
  boot_next : currentThread (devices s) < nextThread (devices s) }.

Lemma static_code ins : Forall static ins → owned (ins ++ [IFinish]) ∧ deletes (ins ++ [IFinish]) = [] ∧
  passes (ins ++ [IFinish]) = [] ∧ paired (ins ++ [IFinish]) ∧ ∀ l, tokens l (ins ++ [IFinish]) = 0.
Proof.
  intros Hi. split; [by apply owned_app |]. split; [by rewrite deletes_app |]. split; [by rewrite passes_app |].
  split; [by apply paired_app |]. intros l. by rewrite tokens_app.
Qed.

Lemma booted_ksim s : booted s → ksim s.
Proof.
  intros [Hs (th & ins & Hth & Hst & Hco & Hins & Hsp & Hsk & Hu) Hr Hd Hsem Hl Hcv Hn].
  set (k := devices s) in *. destruct (static_code ins Hins) as (Hown & Hdel & Hpas & Hpa & Htok).
  assert (Forall static (ins ++ [IFinish])) as Hall by (apply Forall_app; split; [done | by constructor]).
  assert (phase_of th = PRun) as Hp.
  { unfold phase_of. rewrite Hco. rewrite decode_all_plain; [done |]. by apply static_all_plain. }
  assert (∀ t th', threads k !! t = Some th' → t = currentThread k ∧ th' = th) as Hone.
  { intros t th'. rewrite Hth. intros [-> ->]%lookup_singleton_Some. done. }
  assert (threads k !! currentThread k = Some th) as Ht by (rewrite Hth; by rewrite lookup_singleton_eq).
  split; [done |]. split; [| intros th' Ht'; destruct (Hone _ _ Ht') as [_ ->]; congruence].
  change (kernel_ok k). split; [| split; [| split]].
  - constructor.
    + intros t th' Ht'. destruct (Hone _ _ Ht') as [-> ->]. split.
      * unfold thread_ok, rest_of, CheckOverflow. rewrite (decode_run (code th) Hp), Hsp, Hsk, Hco.
        split; [by apply static_all_plain |]. split; [right; by rewrite last_snoc |]. split; [done |]. split; [done |].
        by intros [? ?].
      * unfold placed. by rewrite Hp, Hst.
    + by exists th.
    + rewrite Hr. constructor.
    + rewrite Hr. by intros t ?%elem_of_nil.
    + intros w sem Hw. destruct (Hsem w sem Hw) as [Hv Hq]. rewrite Hq. split; [done |]. split; [constructor |].
      by intros t ?%elem_of_nil.
    + intros d. by rewrite Hd.
    + intros t Ht'. rewrite Hth. apply lookup_singleton_None. lia.
  - constructor.
    + intros t th' Ht'. destruct (Hone _ _ Ht') as [_ ->]. by rewrite Hco.
    + intros t1 th1 t2 th2 n H1 H2 _ _. destruct (Hone _ _ H1) as [-> _]. by destruct (Hone _ _ H2) as [-> _].
    + intros t th' n Ht' Hin. destruct (Hone _ _ Ht') as [_ ->]. rewrite Hco, Hdel in Hin. by apply elem_of_nil in Hin.
    + intros cv ws w Hws Hin. rewrite (Hcv _ _ Hws) in Hin. by apply elem_of_nil in Hin.
    + intros cv ws Hws. rewrite (Hcv _ _ Hws). split; [constructor |]. by intros ? ? w _ ?%elem_of_nil.
    + intros t th' n Ht' Hin. destruct (Hone _ _ Ht') as [_ ->]. rewrite Hco, Hpas in Hin. by apply elem_of_nil in Hin.
    + intros t th' n Ht' Hin. destruct (Hone _ _ Ht') as [_ ->]. rewrite Hco, Hdel in Hin. by apply elem_of_nil in Hin.
  - intros w sem Hw Hq. by destruct (Hsem w sem Hw) as [_ ?].
  - constructor.
    + intros t th' Ht'. destruct (Hone _ _ Ht') as [_ ->]. rewrite Hco. by apply code_locks_zero.
    + intros d th' l. by rewrite Hd.
    + intros l h Hlh. destruct (Hl l h Hlh) as [-> Hsl]. exists (mkSem 1 []). split; [done |]. left. split; [done |].
      intros t th' Ht'. destruct (Hone _ _ Ht') as [_ ->]. rewrite Hco. apply Htok.
Qed.

(** ** Executions as lists of states *)

Section execution.
Context (CallBack : C → Sim → result Sim) `{!DeviceLaw CallBack}.
Context (client : X → Sim → result (list instr * Sim)) `{!ClientLaw client}.
Context (user_step : Machine → result (list instr * Machine)) `{!UserLaw user_step}.
#[local] Abbreviation step := (exec_step CallBack client user_step).

Lemma booted_run s s' : booted s → rtc step s s' → ksim s'.
Proof. intros Hb Hr. by apply (exec_steps CallBack client user_step s s') in Hr as [? _]; [| apply booted_ksim]. Qed.

Fixpoint trace (s : Sim) (l : list Sim) : Prop :=
  match l with [] => True | s' :: l => step s s' ∧ trace s' l end.

(** How often the CPU changes hands. *)
Fixpoint switches (s : Sim) (l : list Sim) : nat :=
  match l with
  | [] => 0
  | s' :: l => (if decide (currentThread (devices s') = currentThread (devices s)) then 0 else 1) + switches s' l
  end.

Lemma step_evolves s s' : ksim s → step s s' → ksim s' ∧ evolve (devices s) (devices s').
Proof. intros Hs He. pose proof (exec_ok CallBack client user_step s Hs) as Hk. rewrite He in Hk. by destruct Hk as (? & _ & ?). Qed.

(** A ready thread gets closer to the CPU with every switch. *)
Lemma ready_advances k k' p t : fifo k k' → readyList k !! p = Some t →
  currentThread k' = t ∨ ∃ p', readyList k' !! p' = Some t ∧
    (p' + (if decide (currentThread k' = currentThread k) then 0 else 1) <= p)%nat.
Proof.
  intros [(Hc & [new Hr] & _)|[[new Hr] _]] Hp.
  - right. exists p. rewrite Hr, lookup_app_l by (by eapply lookup_lt_Some). split; [done |].
    rewrite decide_True by done. lia.
  - assert ((currentThread k' :: readyList k') !! p = Some t) as Hp'.
    { rewrite Hr. rewrite lookup_app_l by (by eapply lookup_lt_Some). done. }
    destruct p as [|p]; cbn in Hp'; [left; congruence |]. right. exists p. split; [done |]. case_decide; lia.
Qed.

Lemma ready_runs s l p t : ksim s → trace s l → readyList (devices s) !! p = Some t → (p < switches s l)%nat →
  ∃ s', s' ∈ l ∧ currentThread (devices s') = t.
Proof.
  revert s p. induction l as [|s' l IH]; intros s p Hs Htr Hp Hlt; cbn in *; [lia |].
  destruct Htr as [Hst Htr]. destruct (step_evolves s s' Hs Hst) as (Hs' & _ & Hf & _).
  destruct (ready_advances _ _ p t Hf Hp) as [Hc|(p' & Hp' & Hle)].
  - exists s'. split; [by left | done].
  - destruct (IH s' p' Hs' Htr Hp') as (s2 & Hin & Hc); [lia |]. exists s2. split; [by right | done].
Qed.

(** [n] instructions, one after the other. *)
Fixpoint run (n : nat) s : result Sim :=
  match n with O => Ok s | S n => s' ← exec CallBack client user_step s; run n s' end.

Lemma run_steps n s s' : run n s = Ok s' → rtc step s s'.
Proof.
  revert s. induction n as [|n IH]; intros s Hr; cbn in Hr; [by injection Hr as -> |].
  apply bind_Ok in Hr as (s1 & H1 & Hr). eapply rtc_l; [exact H1 | by apply IH].
Qed.

(** A suspended thread keeps its task until it runs. *)
Lemma suspended_kept l s t th : ksim s → trace s l → t ≠ currentThread (devices s) →
  threads (devices s) !! t = Some th → toBeDestroyed (devices s) ≠ Some t →
  Forall (λ s, currentThread (devices s) ≠ t) (removelast l) → ∀ s2, last (s :: l) = Some s2 →
  ksim s2 ∧ ∃ th2, threads (devices s2) !! t = Some th2 ∧ same_task th th2.
Proof.
  revert s th. induction l as [|s1 l IH]; intros s th Hs Htr Hne Ht Hd Hall s2 Hl.
  { injection Hl as <-. split; [done |]. by exists th. }
  destruct Htr as [Hst Htr]. destruct (step_evolves s s1 Hs Hst) as (Hs1 & _ & Hf & Hk).
  destruct (Hk t th ltac:(done) Ht) as [?|(th1 & Ht1 & A1 & A2 & A3)]; [done |].
  destruct l as [|s1' l].
  { injection Hl as <-. split; [done |]. by exists th1. }
  cbn [removelast] in Hall. inversion_clear Hall as [|? ? Hne1 Hall1].
  destruct (IH s1 th1) with (s2 := s2) as (Hs2 & th2 & Ht2 & B1 & B2 & B3); [done | done | done | done | | done | done |].
  - destruct Hf as [(_ & _ & [-> | ->])|[_ [-> |[-> | ->]]]]; try done. congruence.
  - split; [done |]. exists th2. split; [done |]. split; [congruence |]. split; congruence.
Qed.

Lemma resume_machine s s' th c a : ksim s → threads (devices s) !! currentThread (devices s) = Some th →
  code th = IResume :: c → space th = Some a → step s s' →
  machine s' = RestoreState (with_registers (machine s) (userRegisters th)) a ∧
  ∃ th', threads (devices s') !! currentThread (devices s) = Some th' ∧ code th' = c.
Proof.
  intros Hs Ht Hc Ha He. unfold exec_step, exec in He. rewrite (find_Some _ _ _ Ht) in He. cbn [rbind] in He.
  rewrite Hc in He. rewrite (current_code_eq _ th) in He by done. cbn [lift rbind] in He.
  destruct (resume_ok s th IResume c Hs Ht Hc) as (k' & Hck & _ & Hcur & Ht' & _); [by left |].
  unfold Run_resume, lift in He. unfold popped in Hck. cbn [devices with_devices] in Hck, He. rewrite Hck in He.
  apply bind_Ok in He as (u & _ & He). cbn [rbind devices with_devices] in He.
  rewrite (find_Some _ _ _ Ht') in He. cbn [rbind space with_code] in He. rewrite Ha in He.
  unfold RestoreUserState in He. cbn [devices with_devices] in He. rewrite (find_Some _ _ _ Ht') in He. cbn [rbind] in He.
  destruct Hs as (Hse & (Hsi & _) & _). destruct (inv_threads _ Hsi _ _ Ht) as [(_ & _ & _ & Hu & _) _].
  rewrite restore_loop in He; [| by apply (settled_len s) | done]. cbn [rbind] in He. injection He as <-.
  split; [done |]. rewrite <- Hcur. by exists (with_code th c).
Qed.
End execution.

(** ** Properties *)

(** C20: the kernel never gets stuck.  In every state it reaches, the current
    thread has a next instruction, and that instruction fails only for a reason
    the kernel's code announces: an overflow of a C++ [int] (a counter or the
    clock), a handler that fails when it is called, client code or an
    instruction of the user's program that fails in this very state, an
    operation on an object that does not exist, [Release], [Wait] or [Signal]
    by a thread that does not hold the lock, or the end of the simulation when
    nothing is left to wait for.  No [ASSERT] of thread.cc, scheduler.cc,
    synch.cc and interrupt.cc fails otherwise: interrupts are off wherever they
    have to be, a thread is never put on a queue twice, only one finished
    thread waits for its destruction, and it is never the current one. *)
Theorem kernel_never_stuck (CallBack : C → Sim → result Sim) client user_step
    `{!DeviceLaw CallBack, !ClientLaw client, !UserLaw user_step} s s'
    (Hb : booted s) (Hr : rtc (exec_step CallBack client user_step) s s') :
  (∃ th i c, threads (devices s') !! currentThread (devices s') = Some th ∧ code th = i :: c) ∧
  post (excused CallBack client user_step s') ksim (exec CallBack client user_step s').
Proof.
  pose proof (booted_run CallBack client user_step s s' Hb Hr) as Hs. split.
  - pose proof Hs as (_ & (Hsi & _) & _). destruct (inv_current _ Hsi) as [th Ht].
    destruct (code th) as [|i c] eqn:Hc; [| by exists th, i, c]. exfalso.
    destruct (run_code _ th Hsi Ht) as [_ Hl]; [unfold phase_of; by rewrite Hc |]. by rewrite Hc in Hl.
  - eapply post_mono; [by apply exec_ok | done | by intros s2 [? _]].
Qed.

(** C3: no thread is lost or runs twice.  In every reachable state each thread
    is where its status says: the only running thread is the current one; the
    ready threads are exactly those on the ready list, each once; a blocked
    thread stands in the queue of a semaphore, of exactly one, or it has
    finished and is about to be destroyed. *)
Theorem threads_partitioned (CallBack : C → Sim → result Sim) client user_step
    `{!DeviceLaw CallBack, !ClientLaw client, !UserLaw user_step} s s'
    (Hb : booted s) (Hr : rtc (exec_step CallBack client user_step) s s') :
  let k := devices s' in
  NoDup (readyList k) ∧
  (∀ t, t ∈ readyList k ↔ ∃ th, threads k !! t = Some th ∧ tstatus th = READY) ∧
  (∀ t th, threads k !! t = Some th → tstatus th = RUNNING → t = currentThread k) ∧
  (∀ t th, threads k !! t = Some th → tstatus th = BLOCKED →
     (∃ w, waiting k w t) ∨ t = currentThread k ∧ code th = IIdle true :: rest_of th ∨ toBeDestroyed k = Some t) ∧
  (∀ t w1 w2, waiting k w1 t → waiting k w2 t → w1 = w2 ∧ t ∉ readyList k) ∧
  (∀ t th, threads k !! t = Some th → tstatus th ≠ JUST_CREATED).
Proof.
  intros k. destruct (booted_run CallBack client user_step s s' Hb Hr) as (_ & (Hk & _) & _). fold k in Hk.
  assert (∀ t th, threads k !! t = Some th → placed k t th) as Hpl by (intros t th Ht; by apply (inv_threads k Hk)).
  assert (∀ t w, waiting k w t → ∃ th, threads k !! t = Some th ∧ tstatus th = BLOCKED ∧ in_loop w (phase_of th)) as Hw.
  { intros t w (sem & Hsem & Hin). by apply (inv_sems k Hk w sem Hsem). }
  split; [apply Hk |]. split; [intros t; split; [apply Hk |] |].
  { intros (th & Ht & Hst). specialize (Hpl t th Ht). unfold placed in Hpl. rewrite Hst in Hpl.
    destruct (phase_of th); tauto. }
  split; [| split; [| split]].
  - intros t th Ht Hst. specialize (Hpl t th Ht). unfold placed in Hpl. rewrite Hst in Hpl. destruct (phase_of th); tauto.
  - intros t th Ht Hst. specialize (Hpl t th Ht). unfold placed in Hpl. rewrite Hst in Hpl.
    destruct (phase_of th) as [| |w| | |w|] eqn:Hp; try done.
    + left. exists w. tauto.
    + right. left. split; [done |]. unfold phase_of in Hp. unfold rest_of.
      destruct (code th) as [|[] c]; try done; cbn in *; try (destruct finishing; [done |]); destruct c as [|[] c]; done.
    + by do 2 right.
    + left. exists w. tauto.
  - intros t w1 w2 H1 H2. destruct (Hw t w1 H1) as (th & Ht & Hst & Hp1). destruct (Hw t w2 H2) as (th2 & Ht2 & _ & Hp2).
    rewrite Ht in Ht2. injection Ht2 as <-. split; [unfold in_loop in *; destruct Hp1, Hp2; congruence |].
    eapply not_ready; [done | exact Ht | by rewrite Hst].
  - intros t th Ht Hst. specialize (Hpl t th Ht). unfold placed in Hpl. rewrite Hst in Hpl. by destruct (phase_of th).
Qed.

(** C1: no wakeup is lost.  In every reachable state, while threads wait on a
    semaphore, at least as many ready or running threads as its value are
    between the test of the value and its decrement, and so will look at it
    again; in particular, no thread is left asleep next to a positive value
    with nobody on the way. *)
Theorem no_lost_wakeup (CallBack : C → Sim → result Sim) client user_step
    `{!DeviceLaw CallBack, !ClientLaw client, !UserLaw user_step} s s' w sem t
    (Hb : booted s) (Hr : rtc (exec_step CallBack client user_step) s s')
    (Hw : semaphores (devices s') !! w = Some sem) (Ht : t ∈ queue sem) :
  0 <= value sem <= woken (devices s') w.
Proof.
  destruct (booted_run CallBack client user_step s s' Hb Hr) as (_ & (Hk & _ & Hwk & _) & _). split.
  - apply (inv_sems _ Hk w sem Hw). intros Hq. rewrite Hq in Ht. by apply elem_of_nil in Ht.
  - apply (Hwk w sem); [done |]. intros Hq. rewrite Hq in Ht. by apply elem_of_nil in Ht.
Qed.

(** C2: locks exclude.  In every step from a reachable state, a lock keeps its
    holder, or it was free and the current thread becomes its holder, or the
    current thread held it and it becomes free: no thread takes a lock that
    another holds, or releases one it does not hold. *)
Theorem lock_exclusion (CallBack : C → Sim → result Sim) client user_step
    `{!DeviceLaw CallBack, !ClientLaw client, !UserLaw user_step} s s1 s2 l
    (Hb : booted s) (Hr : rtc (exec_step CallBack client user_step) s s1) (Hs : exec CallBack client user_step s1 = Ok s2) :
  let t := currentThread (devices s1) in
  locks (devices s2) !! l = locks (devices s1) !! l ∨
  locks (devices s1) !! l = Some None ∧ locks (devices s2) !! l = Some (Some t) ∨
  locks (devices s1) !! l = Some (Some t) ∧ locks (devices s2) !! l = Some None.
Proof.
  pose proof (booted_run CallBack client user_step s s1 Hb Hr) as Hs1.
  by destruct (step_evolves CallBack client user_step s1 s2 Hs1 Hs) as (_ & Hl & _).
Qed.

(** C4: no signal is lost.  A thread inside [Condition::Wait], from the moment
    it joined the queue until it is back from its semaphore, is either still on
    the queue of exactly one condition, with its semaphore at 0, or it has been
    signalled: then its semaphore is at 1 and nobody sleeps on it, so that the
    thread will not be held up there. *)
Theorem no_lost_signal (CallBack : C → Sim → result Sim) client user_step
    `{!DeviceLaw CallBack, !ClientLaw client, !UserLaw user_step} s s' t th n
    (Hb : booted s) (Hr : rtc (exec_step CallBack client user_step) s s')
    (Ht : threads (devices s') !! t = Some th) (Hn : n ∈ passes (code th)) :
  ∃ sem, semaphores (devices s') !! SWait n = Some sem ∧
    ((∃ cv ws, conditions (devices s') !! cv = Some ws ∧ SWait n ∈ ws ∧ value sem = 0 ∧
       ∀ cv' ws', conditions (devices s') !! cv' = Some ws' → SWait n ∈ ws' → cv' = cv) ∨
     ¬ queued (devices s') n ∧ value sem = 1 ∧ queue sem = []).
Proof.
  destruct (booted_run CallBack client user_step s s' Hb Hr) as (_ & (Hk & Hc & _) & _). set (k := devices s') in *.
  destruct (semaphores k !! SWait n) as [sem|] eqn:Hsem.
  2: { destruct (inv_alive k Hc t th n Ht) as [_ [sem Hx]]; [| congruence].
       apply passes_deletes; [by apply (inv_owned k Hc t) | done]. }
  exists sem. split; [done |].
  destruct (decide (Exists (λ p, SWait n ∈ p.2) (map_to_list (conditions k)))) as [Hq|Hq].
  - left. apply Exists_exists in Hq as ([cv ws] & Hcv%elem_of_map_to_list & Hin). exists cv, ws. split; [done |].
    split; [done |]. destruct (inv_waiters k Hc cv ws _ Hcv Hin) as (m & sem' & Hm & _ & Hs2 & Hv). split; [congruence |].
    intros cv' ws' Hcv' Hin'. symmetry. by eapply (inv_once k Hc cv ws Hcv).
  - right. assert (¬ queued k n) as Hnq.
    { intros (cv & ws & Hcv & Hin). apply Hq, Exists_exists. exists (cv, ws). by rewrite elem_of_map_to_list. }
    split; [done |]. destruct (inv_signalled k Hc t th n Ht Hn Hnq) as (sem' & Hs2 & Hv & Hqu).
    assert (sem' = sem) as -> by congruence. done.
Qed.

(** C31: a context switch preserves the user's program.  [Scheduler::Run] leaves
    in the old thread its unfinished code and, if it has an address space, the
    user registers as they are at that moment; whatever the kernel does then,
    when the thread runs again the machine has those registers and the page
    table of the thread's own space, and its code goes on where it stopped. *)
Theorem context_switch_preserves (CallBack : C → Sim → result Sim) client user_step
    `{!DeviceLaw CallBack, !ClientLaw client, !UserLaw user_step} :
  (∀ s n fin s1 th a, settled s → level (interrupt s) = IntOff → length (userRegisters th) = 40%nat →
     threads (devices s) !! currentThread (devices s) = Some th → space th = Some a →
     n ≠ currentThread (devices s) → is_Some (threads (devices s) !! n) → Run s n fin = Ok s1 →
     currentThread (devices s1) = n ∧ machine s1 = machine s ∧
     ∃ th1, threads (devices s1) !! currentThread (devices s) = Some th1 ∧ code th1 = IResume :: code th ∧
       userRegisters th1 = registers (machine s) ∧ space th1 = Some a) ∧
  (∀ s0 s l s2 s3 t th c a, booted s0 → rtc (exec_step CallBack client user_step) s0 s →
     threads (devices s) !! t = Some th → code th = IResume :: c → space th = Some a →
     toBeDestroyed (devices s) ≠ Some t → currentThread (devices s) ≠ t →
     trace CallBack client user_step s l → Forall (λ s, currentThread (devices s) ≠ t) (removelast l) →
     last l = Some s2 → currentThread (devices s2) = t → exec CallBack client user_step s2 = Ok s3 →
     machine s3 = RestoreState (with_registers (machine s2) (userRegisters th)) a ∧
     ∃ th3, threads (devices s3) !! t = Some th3 ∧ code th3 = c).
Proof.
  split.
  - intros s n fin s1 th a Hs Hl Hu Ht Ha Hne Hn Hrun.
    assert (CheckOverflow th = Ok tt) as Hov.
    { destruct (CheckOverflow th) as [[]|e] eqn:Ho; [done | exfalso]. unfold Run in Hrun. unfold getLevel in Hrun.
      rewrite Hl, bool_decide_eq_true_2 in Hrun by done. cbn [rbind] in Hrun.
      apply bind_Ok in Hrun as (s' & Hf & Hrun).
      assert (threads (devices s') = threads (devices s)) as Hth by (destruct fin; inv_res; done).
      rewrite Hth in Hrun. rewrite (find_Some _ _ _ Ht) in Hrun. cbn [rbind] in Hrun.
      apply bind_Ok in Hrun as (s2 & _ & Hrun). by rewrite Ho in Hrun. }
    assert (fin = true → toBeDestroyed (devices s) = None) as Hd.
    { intros ->. unfold Run, getLevel in Hrun. rewrite Hl, bool_decide_eq_true_2 in Hrun by done. cbn [rbind] in Hrun.
      case_bool_decide; [done |]. by cbn in Hrun. }
    destruct Hn as [nth Hn].
    rewrite (Run_eq s n fin th nth) in Hrun; try done; [| by apply settled_len | by rewrite lookup_insert_ne].
    injection Hrun as <-. split; [done |]. split; [done |]. eexists. cbn. rewrite lookup_insert_ne by done.
    rewrite lookup_insert_eq. split; [done |]. unfold saved_regs. by rewrite Ha.
  - intros s0 s l s2 s3 t th c a Hb Hr Ht Hc Ha Hd Hne Htr Hall Hl Hcur He.
    pose proof (booted_run CallBack client user_step s0 s Hb Hr) as Hs.
    destruct (suspended_kept CallBack client user_step l s t th Hs Htr ltac:(done) Ht Hd Hall s2) as (Hs2 & th2 & Ht2 & A1 & A2 & A3).
    { destruct l; [done |]. exact Hl. }
    subst t. rewrite <- A2. apply (resume_machine CallBack client user_step s2 s3 th2 c a); [done | done | congruence | congruence | exact He].
Qed.

(** C32: every ready thread runs.  From a reachable state in which thread [t] is
    at position [p] of the ready list, along any execution, [t] has become the
    current thread by the time the CPU has changed hands more than [p] times. *)
Theorem round_robin (CallBack : C → Sim → result Sim) client user_step
    `{!DeviceLaw CallBack, !ClientLaw client, !UserLaw user_step} s s' l p t
    (Hb : booted s) (Hr : rtc (exec_step CallBack client user_step) s s')
    (Ht : readyList (devices s') !! p = Some t) (Htr : trace CallBack client user_step s' l) (Hp : (p < switches s' l)%nat) :
  ∃ s2, s2 ∈ l ∧ currentThread (devices s2) = t.
Proof.
  apply (ready_runs CallBack client user_step s' l p t); [by apply (booted_run CallBack client user_step s) | done | done | done].
Qed.
End reachable.

(** ** A small kernel *)

Section demo.
#[local] Abbreviation K := (Threads unit unit).
#[local] Abbreviation S := (Sim Z K).

(** Device [n] raises semaphore [n]; nothing else is in the kernel, and the
    user's program gives the CPU away at every instruction. *)
Definition demo_device (n : Z) (s : S) : result S := lift s (wake (devices s) (SUser n)).
Definition demo_client (x : unit) (s : S) : result (list (instr unit) * S) := Ok ([], s).
Definition demo_user (m : Machine) : result (list (instr unit) * Machine) := Ok ([IYield], m).

#[export] Instance demo_DeviceLaw : DeviceLaw demo_device.
Proof.
  split.
  - intros n s s' _ _ H. unfold demo_device, lift in H. inv_res. apply handled_devices.
  - intros n s s' _ _ H. unfold demo_device, lift in H. inv_res. apply rtc_once. left. by exists n.
Qed.

#[export] Instance demo_ClientLaw : ClientLaw demo_client.
Proof. intros x s ins s' Hs H. unfold demo_client in H. inv_res. split; [done |]. split; [done |].
  exists (semaphores (devices s')), (env (devices s')). split; [apply grows_refl |]. by destruct (devices s'). Qed.

#[export] Instance demo_UserLaw : UserLaw demo_user.
Proof. intros m ins m' Hr H. unfold demo_user in H. inv_res. split; [done | by repeat constructor]. Qed.

Definition demo_kernel (main : list (instr unit)) : S :=
  mkSim (mkInterrupt IntOff [mkPending 0 70 TimerInt; mkPending 0 900 TimerInt] false false) Statistics_new demo_machine
    (mkThreads 1 [] None {[1 := mkThread RUNNING (main ++ [IFinish]) None (replicate 40 0) None]}
       {[SUser 0 := mkSem 0 []; SLock 0 := mkSem 1 []]} {[0 := None]} {[0 := []]} 2 0 tt).

Lemma demo_booted main : Forall static main → booted (demo_kernel main).
Proof.
  intros Hm. constructor.
  - split.
    + split; [repeat constructor; vm_compute; congruence |]. split; [repeat constructor; vm_compute; congruence |].
      split; [unfold clock_ok, is_s32; cbn; lia |]. split; [exact demo_typed | done].
    + repeat constructor; vm_compute; congruence.
  - eexists _, main. split; [reflexivity |]. done.
  - done.
  - done.
  - intros w sem. cbn. rewrite lookup_insert_Some, lookup_singleton_Some. intros [[_ <-]|(_ & _ & <-)]; done.
  - intros l h. cbn. intros [<- <-]%lookup_singleton_Some. done.
  - intros cv q. cbn. by intros [_ <-]%lookup_singleton_Some.
  - done.
Qed.

(** One thread forks another; both use the lock, the condition and the
    semaphore. *)
Definition demo_main : list (instr unit) :=
  [IFork [IAcquire 0; IWait 0 0; IRelease 0; IYield]; IYield; IAcquire 0; ISignal 0 0; IRelease 0; IP (SUser 0)].

Lemma demo_static : Forall static demo_main.
Proof. repeat constructor. Qed.

Section running_it.
Context (main : list (instr unit)).

Definition demo_run (n : nat) : result S := run demo_device demo_client demo_user n (demo_kernel main).

Definition demo_at (n : nat) : S := from_ok (demo_kernel main) (demo_run n).

Lemma demo_at_run n : is_ok (demo_run n) = true → demo_run n = Ok (demo_at n).
Proof. unfold demo_at. by destruct (demo_run n). Qed.

Lemma demo_reach n : is_ok (demo_run n) = true →
  rtc (exec_step demo_device demo_client demo_user) (demo_kernel main) (demo_at n).
Proof. intros H. apply (run_steps _ _ _ n). by apply demo_at_run. Qed.

Lemma demo_next n : is_ok (demo_run n) = true → is_ok (demo_run (n + 1)) = true →
  exec demo_device demo_client demo_user (demo_at n) = Ok (demo_at (n + 1)).
Proof.
  intros H1%demo_at_run H2%demo_at_run. revert H1 H2. unfold demo_run. generalize (demo_kernel main) as s0.
  generalize (demo_at n), (demo_at (n + 1)). induction n as [|n IH]; intros s1 s2 s0 H1 H2; cbn in *.
  - injection H1 as <-. apply bind_Ok in H2 as (s' & H2 & [= <-]). done.
  - apply bind_Ok in H1 as (s' & H0 & H1). rewrite H0 in H2. cbn in H2. by apply (IH s1 s2 s').
Qed.

End running_it.
#[local] Abbreviation at_ := (demo_at demo_main).

(** The states the small kernel reaches after so many instructions. *)
Lemma kernel_never_stuck_witness : is_ok (exec demo_device demo_client demo_user (at_ 5)) = true ∧
  post (excused demo_device demo_client demo_user (at_ 5)) ksim (exec demo_device demo_client demo_user (at_ 5)).
Proof.
  split; [vm_compute; reflexivity |].
  apply (kernel_never_stuck demo_device demo_client demo_user (demo_kernel demo_main) (at_ 5) (demo_booted _ demo_static)).
  apply demo_reach. vm_compute. reflexivity.
Defined.

Lemma threads_partitioned_witness : currentThread (devices (at_ 20)) = 1 ∧
  ∃ th, threads (devices (at_ 20)) !! 2 = Some th ∧ tstatus th = READY.
Proof.
  split; [vm_compute; reflexivity |].
  destruct (threads_partitioned demo_device demo_client demo_user (demo_kernel demo_main) (at_ 20) (demo_booted _ demo_static))
    as (_ & H & _); [apply demo_reach; vm_compute; reflexivity |].
  apply H. assert (readyList (devices (at_ 20)) = [2]) as -> by (vm_compute; reflexivity). left.
Defined.

Lemma no_lost_wakeup_witness : ∃ sem, semaphores (devices (at_ 22)) !! SUser 0 = Some sem ∧
  1 ∈ queue sem ∧ 0 <= value sem <= woken (devices (at_ 22)) (SUser 0).
Proof.
  exists (mkSem 0 [1]). split; [vm_compute; reflexivity |]. split; [left |].
  apply (no_lost_wakeup demo_device demo_client demo_user (demo_kernel demo_main) (at_ 22) (SUser 0) (mkSem 0 [1]) 1 (demo_booted _ demo_static)).
  - apply demo_reach. vm_compute. reflexivity.
  - vm_compute. reflexivity.
  - left.
Defined.

(** Thread 2 takes the lock. *)
Lemma lock_exclusion_witness : locks (devices (at_ 31)) !! 0 ≠ locks (devices (at_ 30)) !! 0 ∧
  let t := currentThread (devices (at_ 30)) in
  (locks (devices (at_ 31)) !! 0 = locks (devices (at_ 30)) !! 0 ∨
  locks (devices (at_ 30)) !! 0 = Some None ∧ locks (devices (at_ 31)) !! 0 = Some (Some t) ∨
  locks (devices (at_ 30)) !! 0 = Some (Some t) ∧ locks (devices (at_ 31)) !! 0 = Some None).
Proof.
  split; [vm_compute; discriminate |].
  apply (lock_exclusion demo_device demo_client demo_user (demo_kernel demo_main) (at_ 30) (at_ 31) 0 (demo_booted _ demo_static)).
  - apply demo_reach. vm_compute. reflexivity.
  - apply (demo_next demo_main 30); vm_compute; reflexivity.
Defined.

(** Thread 2 sleeps on the condition. *)
Lemma no_lost_signal_witness : ∃ th sem, threads (devices (at_ 12)) !! 2 = Some th ∧ tstatus th = BLOCKED ∧
  semaphores (devices (at_ 12)) !! SWait 0 = Some sem ∧ (queued (devices (at_ 12)) 0 ∨ value sem = 1).
Proof.
  assert (is_Some (threads (devices (at_ 12)) !! 2)) as [th Ht] by (vm_compute; eexists; reflexivity).
  exists th.
  assert (0 ∈ passes (code th) ∧ tstatus th = BLOCKED) as [Hp Hst].
  { vm_compute in Ht. injection Ht as <-. split; [left | reflexivity]. }
  destruct (no_lost_signal demo_device demo_client demo_user (demo_kernel demo_main) (at_ 12) 2 th 0 (demo_booted _ demo_static))
    as (sem & Hs & Hd); [apply demo_reach; vm_compute; reflexivity | exact Ht | exact Hp |].
  exists sem. split; [exact Ht |]. split; [exact Hst |]. split; [exact Hs |].
  destruct Hd as [(cv & ws & Hcv & Hin & _)|(_ & Hv & _)]; [left; exists cv, ws; split; [exact Hcv | exact Hin] | right; exact Hv].
Defined.

Lemma round_robin_witness : readyList (devices (at_ 1)) !! 0%nat = Some 2 ∧
  ∃ s2, s2 ∈ [at_ 2] ∧ currentThread (devices s2) = 2.
Proof.
  split; [vm_compute; reflexivity |].
  apply (round_robin demo_device demo_client demo_user (demo_kernel demo_main) (at_ 1) [at_ 2] 0 2 (demo_booted _ demo_static)).
  - apply demo_reach. vm_compute. reflexivity.
  - vm_compute. reflexivity.
  - split; [apply (demo_next demo_main 1); vm_compute; reflexivity | exact I].
  - vm_compute. lia.
Defined.

(** A user program that yields at every instruction, and a thread beside it. *)
Definition demo_user_main : list (instr unit) := [IFork [IYield; IYield]; IExecute (mkAddrSpace (Some []) 0)].

Lemma context_switch_preserves_witness : let s := demo_at demo_user_main in
  currentThread (devices (s 4%nat)) = 2 ∧
  machine (s 7%nat) =
    RestoreState (with_registers (machine (s 6%nat)) (registers (machine (s 4%nat)))) (mkAddrSpace (Some []) 0).
Proof.
  intros s. split; [vm_compute; reflexivity |].
  destruct (context_switch_preserves demo_device demo_client demo_user) as [_ H].
  assert (∃ th c, threads (devices (s 4%nat)) !! 1 = Some th ∧ code th = IResume :: c ∧ space th = Some (mkAddrSpace (Some []) 0) ∧
    userRegisters th = registers (machine (s 4%nat))) as (th & c & Ht & Hc & Ha & <-).
  { vm_compute. eexists _, _. split; [reflexivity |]. split; [reflexivity |]. split; reflexivity. }
  apply (H (demo_kernel demo_user_main) (s 4%nat) [s 5%nat; s 6%nat] (s 6%nat) (s 7%nat) 1 th c).
  - apply demo_booted. repeat constructor.
  - apply (demo_reach demo_user_main). vm_compute. reflexivity.
  - exact Ht.
  - exact Hc.
  - exact Ha.
  - vm_compute. discriminate.
  - vm_compute. discriminate.
  - split; [apply (demo_next demo_user_main 4); vm_compute; reflexivity |].
    split; [apply (demo_next demo_user_main 5); vm_compute; reflexivity | exact I].
  - constructor; [vm_compute; discriminate | constructor].
  - reflexivity.
  - vm_compute. reflexivity.
  - apply (demo_next demo_user_main 6); vm_compute; reflexivity.
Defined.
End demo.
