(* ===== verification/Handlers.v ===== *)
(** * Interrupt handlers

    What the handlers of the devices have in common: they schedule the next
    interrupt, count in the statistics, change their own state and raise a
    semaphore.  Handlers made of these parts keep [DeviceLaw].  The client of the
    timer (threads/alarm.cc) is here too; every machine has one. *)

From S2P Require Import Prelude Machine Lists Mips Interrupt Threads Sched Waiters Wakeups Locks Synch.
Local Open Scope Z_scope.

Section handlers.
Context {C X E : Type}.
#[local] Abbreviation Sim := (Sim C (Threads X E)).
Implicit Types (s : Sim).

(** [Alarm::CallBack]. *)
Definition Alarm_CallBack s : result Sim :=
  if decide (getStatus s = IdleMode) then Ok s else YieldOnReturn s.

Definition same_ticks (st st' : Statistics) : Prop :=
  totalTicks st' = totalTicks st ∧ idleTicks st' = idleTicks st ∧ systemTicks st' = systemTicks st ∧ userTicks st' = userTicks st.

Lemma settled_stats s st : settled s → same_ticks (stats s) st → settled (with_stats s st).
Proof.
  intros [(H1 & H2 & H3 & H4) H5] (T1 & T2 & T3 & T4). unfold settled, sim_ok, quiet, now, clock_ok in *. cbn [stats with_stats].
  rewrite T1, T2, T3, T4. by split.
Qed.

(** What a part of a handler does. *)
Definition handler_ok s s' : Prop := handled s s' ∧ rtc handler_step (devices s) (devices s').

#[export] Instance handler_ok_preorder : PreOrder handler_ok.
Proof.
  split; [intros s; split; [apply handled_refl | apply rtc_refl] |].
  intros s1 s2 s3 [H1 R1] [H2 R2]. split; [by eapply handled_trans | by etransitivity].
Qed.

Lemma handler_env s e : handler_ok s (with_devices s (with_env (devices s) e)).
Proof. split; [apply handled_devices |]. apply rtc_once. right. by eexists. Qed.

Lemma handler_wake s n s' : lift s (wake (devices s) (SUser n)) = Ok s' → handler_ok s s'.
Proof. unfold lift. intros (k & Hk & [= <-])%bind_Ok. split; [apply handled_devices |]. apply rtc_once. left. by exists n. Qed.

Lemma handler_Schedule s d t ty s' : Schedule s d t ty = Ok s' → handler_ok s s'.
Proof. intros Hs. split; [by eapply Schedule_handled |]. unfold Schedule in Hs. inv_res. apply rtc_refl. Qed.

Lemma handler_count s st : same_ticks (stats s) st → handler_ok s (with_stats s st).
Proof.
  intros (H1 & H2 & H3 & H4). split; [| apply rtc_refl]. split; [done |]. split; [done |]. do 5 (split; [done |]). exists []. by split.
Qed.

Lemma Alarm_cases s s' : Alarm_CallBack s = Ok s' → s' = s ∨ s' = with_yieldOnReturn s true.
Proof. unfold Alarm_CallBack, YieldOnReturn. case_decide; [intros [= <-]; by left |]. intros (u & _ & [= <-])%bind_Ok. by right. Qed.

Lemma handler_Alarm s s' : Alarm_CallBack s = Ok s' → handler_ok s s'.
Proof.
  unfold Alarm_CallBack. case_decide; [by intros [= <-] |].
  intros Hs. split; [by eapply YieldOnReturn_handled |]. unfold YieldOnReturn in Hs. inv_res. apply rtc_refl.
Qed.

Lemma handler_law (CallBack : C → Sim → result Sim) : (∀ d s s', CallBack d s = Ok s' → handler_ok s s') → DeviceLaw CallBack.
Proof. intros Hk. split; intros d s s' _ _ Hc; by apply (Hk d). Qed.
End handlers.
