(* ===== verification/Interleave.v ===== *)
(** * Threads as the rest of the kernel may think of them

    [Threads] models the scheduler, the context switch and the code of synch.cc
    as they are written.  This file has what a driver or a monitor is written
    against: threads that take turns at whole operations, in any order, on
    semaphores, locks and condition variables that do what a textbook says, while
    interrupts strike between two operations ([sys_step]).  [exec_refines] shows
    that the kernel's code implements it: a busy machine with one processor,
    preempted at clock ticks, does nothing that these threads could not do. *)

From S2P Require Import Prelude Machine Lists Mips HostFile AddrSpace Interrupt Threads.
From S2P Require Import Sched Waiters Wakeups Locks Synch SynchProps.
Local Open Scope Z_scope.

Section interleave.
Context {C X E : Type}.
#[local] Abbreviation instr := (instr X).
#[local] Abbreviation Thread := (Thread X).
#[local] Abbreviation Threads := (Threads X E).
#[local] Abbreviation Sim := (Sim C Threads).
Implicit Types (k : Threads) (th : Thread) (i : instr) (c ins : list instr) (t : Z) (s : Sim).

(** ** What is left of a thread's code once the scheduler is left out *)

Definition residue (i : instr) : list instr :=
  match i with
  | IP (SLock l) | ILoop (SLock l) _ => [IAcquire l]
  | ILoop w _ => [IP w]
  | IHolder _ | IResume | IBegin | ISetLevel _ | IStatus _ | IYield | ITick | IIdle _ => []
  | i => [i]
  end.

(** A thread that has finished has nothing left to do. *)
Fixpoint flat c : list instr :=
  match c with
  | [] | IIdle true :: _ => []
  | i :: c => residue i ++ flat c
  end.

Lemma flat_app ins c : Forall static ins → flat (ins ++ c) = flat ins ++ flat c.
Proof.
  induction 1 as [|i ins Hi _ IH]; [done |].
  destruct i as [[]| | | | | | | | | | | | | |[]| | |[]| | | |]; cbn in *; by rewrite ?IH, ?app_assoc.
Qed.

Lemma flat_deletes c n : IDelete (SWait n) ∈ flat c → n ∈ deletes c.
Proof.
  induction c as [|i c IH]; [by intros ?%elem_of_nil |].
  destruct i as [[]| | | | | | | | | | | | | |[]| |[]|[]| | | |]; cbn; rewrite ?elem_of_cons, ?elem_of_nil;
    (by intros []) || (by intros [?|?]; [| by apply IH]) || apply IH || idtac.
  intros [[= <-]|?]; [by left | right; by apply IH].
Qed.

(** What the others can see of a thread: not the marks that interrupted
    operations leave, and nothing of a thread that waits to be destroyed. *)
Definition live k t : option (list instr) :=
  if decide (toBeDestroyed k = Some t) then None else code <$> threads k !! t.

Definition same_code c c' : Prop := flat c' = flat c ∧ ∀ l, tokens l c' = tokens l c.

#[export] Instance same_code_equiv : Equivalence same_code.
Proof.
  split; [done | | ].
  - intros c c' [H1 H2]. split; [done |]. intros l. by rewrite H2.
  - intros c1 c2 c3 [H1 H2] [H3 H4]. split; [congruence |]. intros l. by rewrite H4, H2.
Qed.

(** ** Threads, semaphores, locks and conditions *)

(** [scode]: what each thread has left to do; [sval]: the values of the
    semaphores; [slock]: who has each lock; [scond]: the queues of the
    conditions; [sevents]: the objects whose interrupt is to come. *)
Record Sys := mkSys {
  scode : gmap Z (list instr); sval : gmap semid Z; slock : gmap Z (option Z); scond : gmap Z (list semid);
  senv : E; sevents : list C }.
Implicit Types (a : Sys).

Definition with_scode a m := mkSys m (sval a) (slock a) (scond a) (senv a) (sevents a).
Definition with_sval a m := mkSys (scode a) m (slock a) (scond a) (senv a) (sevents a).
Definition with_slock a m := mkSys (scode a) (sval a) m (scond a) (senv a) (sevents a).
Definition with_scond a m := mkSys (scode a) (sval a) (slock a) m (senv a) (sevents a).
Definition with_sevents a l := mkSys (scode a) (sval a) (slock a) (scond a) (senv a) l.
Definition go a t c := with_scode a (<[t := c]> (scode a)).
Definition add_value a w (d : Z) := with_sval a (alter (λ v, v + d) w (sval a)).

(** The simulation [s] is in the state [a]. *)
Definition is_slock (w : semid) : bool := match w with SLock _ => true | _ => false end.

Definition lock_shown k l (h : option (option Z)) : Prop :=
  match h with
  | None => locks k !! l = None
  | Some None => locks k !! l = Some None ∧ ∀ t c, live k t = Some c → tokens l c = 0
  | Some (Some t) => locks k !! l = Some (Some t) ∨ locks k !! l = Some None ∧ ∃ c, live k t = Some c ∧ tokens l c = 1
  end.

Record shows s a : Prop := {
  sh_code : ∀ t, scode a !! t = flat <$> live (devices s) t;
  sh_val : ∀ w, is_slock w = false → sval a !! w = value <$> semaphores (devices s) !! w;
  sh_lock : ∀ l, lock_shown (devices s) l (slock a !! l);
  sh_cond : scond a = conditions (devices s);
  sh_env : senv a = env (devices s);
  sh_events : sevents a ≡ₚ callOnInterrupt <$> pending (interrupt s) }.

Section steps.
Variable CallBack : C → Sim → result Sim.
Variable client : X → Sim → result (list instr * Sim).
Variable user_step : Machine → result (list instr * Machine).

(** One step of one thread, [t], or of the hardware. *)
Inductive sys_step : Sys → Sys → Prop :=
  | y_P a t w c v : scode a !! t = Some (IP w :: c) → sval a !! w = Some v → v ≠ 0 →
      sys_step a (add_value (go a t c) w (-1))
  | y_V a t w c v : scode a !! t = Some (IV w :: c) → sval a !! w = Some v →
      sys_step a (add_value (go a t c) w 1)
  | y_acquire a t l c : scode a !! t = Some (IAcquire l :: c) → slock a !! l = Some None →
      sys_step a (with_slock (go a t c) (<[l := Some t]> (slock a)))
  | y_release a t l c : scode a !! t = Some (IRelease l :: c) → slock a !! l = Some (Some t) →
      sys_step a (with_slock (go a t c) (<[l := None]> (slock a)))
  | y_wait a t cv l c q n : scode a !! t = Some (IWait cv l :: c) → slock a !! l = Some (Some t) →
      scond a !! cv = Some q →
      (∀ cv' q', scond a !! cv' = Some q' → SWait n ∉ q') →
      (∀ t' c', scode a !! t' = Some c' → IDelete (SWait n) ∉ c') →
      sys_step a (with_scond (with_sval (go a t ([IRelease l; IP (SWait n); IAcquire l; IDelete (SWait n)] ++ c))
        (<[SWait n := 0]> (sval a))) (<[cv := q ++ [SWait n]]> (scond a)))
  | y_signal_none a t cv l c : scode a !! t = Some (ISignal cv l :: c) → slock a !! l = Some (Some t) →
      scond a !! cv = Some [] → sys_step a (go a t c)
  | y_signal a t cv l c w q : scode a !! t = Some (ISignal cv l :: c) → slock a !! l = Some (Some t) →
      scond a !! cv = Some (w :: q) →
      sys_step a (with_scond (add_value (go a t c) w 1) (<[cv := q]> (scond a)))
  | y_broadcast a t cv l c q : scode a !! t = Some (IBroadcast cv l :: c) → scond a !! cv = Some q →
      sys_step a (go a t (match q with [] => c | _ => [ISignal cv l; IBroadcast cv l] ++ c end))
  | y_delete a t w c : scode a !! t = Some (IDelete w :: c) → is_slock w = false →
      sys_step a (with_sval (go a t c) (delete w (sval a)))
  | y_fork a t body c t' : scode a !! t = Some (IFork body :: c) → Forall static body → scode a !! t' = None →
      sys_step a (go (go a t c) t' (flat (body ++ [IFinish])))
  | y_finish a t c : scode a !! t = Some (IFinish :: c) → sys_step a (go a t [])
  | y_gone a t : scode a !! t = Some [] → sys_step a (with_scode a (delete t (scode a)))
  | y_execute a t sp c : scode a !! t = Some (IExecute sp :: c) → sys_step a (go a t (IRun :: c))
  | y_user a t c ins m m' : scode a !! t = Some (IRun :: c) → machine_typed m → user_step m = Ok (ins, m') →
      sys_step a (go a t (flat ins ++ IRun :: c))
  | y_call a t x c ins s s' a' : scode a !! t = Some (ICall x :: c) →
      settled s → currentThread (devices s) = t → shows s (go a t c) → client x s = Ok (ins, s') →
      shows s' a' → scode a' = <[t := c]> (scode a) → slock a' = slock a → scond a' = scond a →
      sys_step a (go a' t (flat ins ++ c))
  | y_interrupt a d ev s s' a' : sevents a ≡ₚ d :: ev →
      level (interrupt s) = IntOff → inHandler (interrupt s) = true →
      shows s (with_sevents a ev) → CallBack d s = Ok s' → shows s' a' →
      scode a' = scode a → slock a' = slock a → scond a' = scond a → sys_step a a'.
End steps.

(** ** Changes that the others cannot see *)

Record calm s s' : Prop := {
  ca_code : ∀ t, option_Forall2 same_code (live (devices s) t) (live (devices s') t);
  ca_val : ∀ w, is_slock w = false → value <$> semaphores (devices s') !! w = value <$> semaphores (devices s) !! w;
  ca_lock : locks (devices s') = locks (devices s);
  ca_cond : conditions (devices s') = conditions (devices s);
  ca_env : env (devices s') = env (devices s);
  ca_events : pending (interrupt s') = pending (interrupt s) }.

#[export] Instance calm_preorder : PreOrder calm.
Proof.
  split.
  - intros s. by constructor.
  - intros s1 s2 s3 [A1 A2 A3 A4 A5 A6] [B1 B2 B3 B4 B5 B6]. constructor; [| | congruence..].
    + intros t. specialize (A1 t). specialize (B1 t). destruct A1 as [c1 c2 H1|]; inversion B1 as [? c3 H2|]; subst; constructor. by etransitivity.
    + intros w Hw. rewrite B2, A2 by done. done.
Qed.

Lemma live_calm s s' t c' : calm s s' → live (devices s') t = Some c' →
  ∃ c, live (devices s) t = Some c ∧ same_code c c'.
Proof. intros Hc Ht. pose proof (ca_code s s' Hc t) as H. rewrite Ht in H. inversion H; subst. by eexists. Qed.

Lemma calm_live s s' t c : calm s s' → live (devices s) t = Some c →
  ∃ c', live (devices s') t = Some c' ∧ same_code c c'.
Proof. intros Hc Ht. pose proof (ca_code s s' Hc t) as H. rewrite Ht in H. inversion H; subst. by eexists. Qed.

Lemma calm_shows s s' a : calm s s' → shows s a → shows s' a.
Proof.
  intros Hc [H1 H2 H3 H4 H5 H6]. constructor.
  - intros t. rewrite H1. destruct (ca_code s s' Hc t) as [c c' [Hf _]|]; [cbn; by rewrite Hf | done].
  - intros w Hw. by rewrite (ca_val s s' Hc), H2.
  - intros l. specialize (H3 l). unfold lock_shown in *. rewrite (ca_lock s s' Hc).
    destruct (slock a !! l) as [[t|]|]; [| | done].
    + destruct H3 as [?|(? & c & Ht & Hk)]; [by left | right]. split; [done |].
      destruct (calm_live s s' t c Hc Ht) as (c' & ? & _ & Hk'). exists c'. split; [done |]. by rewrite Hk'.
    + destruct H3 as [? H0]. split; [done |]. intros t c' Ht. destruct (live_calm s s' t c' Hc Ht) as (c & ? & _ & Hk').
      rewrite Hk'. by eapply H0.
  - by rewrite (ca_cond s s' Hc).
  - by rewrite (ca_env s s' Hc).
  - by rewrite (ca_events s s' Hc).
Qed.

(** Changes of the simulation around the threads. *)
Lemma calm_view s s' : devices s' = devices s → pending (interrupt s') = pending (interrupt s) → calm s s'.
Proof. intros Hd Hp. constructor; by rewrite ?Hd. Qed.

(** Changes of the threads' administration. *)
Lemma calm_threads s k : (∀ t, option_Forall2 same_code (live (devices s) t) (live k t)) →
  semaphores k = semaphores (devices s) → locks k = locks (devices s) → conditions k = conditions (devices s) →
  env k = env (devices s) → calm s (with_devices s k).
Proof. intros H1 H2 H3 H4 H5. constructor; cbn; rewrite ?H2; done. Qed.

Lemma live_set k t th t' : live (set_thread k t th) t' =
  if decide (t' = t) then (if decide (toBeDestroyed k = Some t) then None else Some (code th)) else live k t'.
Proof.
  unfold live, set_thread. cbn. destruct (decide (t' = t)) as [->|Hne]; [by rewrite lookup_insert_eq | by rewrite lookup_insert_ne].
Qed.

Lemma live_same k k' : threads k' = threads k → toBeDestroyed k' = toBeDestroyed k → ∀ t, live k' t = live k t.
Proof. intros H1 H2 t. unfold live. by rewrite H1, H2. Qed.

Lemma calm_set s t th th' : threads (devices s) !! t = Some th → same_code (code th) (code th') →
  calm s (with_devices s (set_thread (devices s) t th')).
Proof.
  intros Ht Hc. apply calm_threads; try done. intros t'. rewrite live_set. case_decide as Hd; [subst | done].
  unfold live. rewrite Ht. case_decide; by constructor.
Qed.

Lemma find_Ok {K V} `{Countable K} (m : gmap K V) x v : find m x = Ok v → m !! x = Some v.
Proof. unfold find. destruct (m !! x); [by intros [= ->] | done]. Qed.

Definition mark (i : instr) : bool :=
  match i with IResume | IBegin | ISetLevel _ | IStatus _ | IYield | ITick | IIdle false => true | _ => false end.

Lemma mark_code ins c : Forall mark ins → same_code c (ins ++ c).
Proof.
  induction 1 as [|i ins Hi _ [IH1 IH2]]; [done |]. destruct i as [| | | | | | | | | | | | | | | | |[]| | | |]; try done; split; done.
Qed.

Lemma calm_pushs s ins s' : Forall mark ins → pushs s ins = Ok s' → calm s s'.
Proof.
  unfold pushs, lift, push, current_code. intros Hi (k' & (th & Hth & (th' & Hth' & [= <-])%bind_Ok)%bind_Ok & [= <-])%bind_Ok.
  rewrite Hth in Hth'. injection Hth' as <-. apply find_Ok in Hth. eapply calm_set; [exact Hth | by apply mark_code].
Qed.

Lemma calm_Save s t s' : SaveUserState s t = Ok s' → calm s s'.
Proof.
  unfold SaveUserState. intros (th & Hth%find_Ok & (r & _ & [= <-])%bind_Ok)%bind_Ok. by eapply calm_set.
Qed.

Lemma calm_Restore s t s' : RestoreUserState s t = Ok s' → calm s s'.
Proof. unfold RestoreUserState. intros (th & _ & (m & _ & [= <-])%bind_Ok)%bind_Ok. by apply calm_view. Qed.

Lemma calm_ready k t k' s : make_ready k t = Ok k' → calm s (with_devices s k) → calm s (with_devices s k').
Proof.
  unfold make_ready. intros (th & Hth%find_Ok & (r & _ & [= <-])%bind_Ok)%bind_Ok Hc. etransitivity; [exact Hc |].
  etransitivity; [by apply (calm_set (with_devices s k) t th (with_status_of th READY)) |].
  by apply (calm_threads (with_devices s (set_thread k t (with_status_of th READY)))).
Qed.

Lemma calm_ReadyToRun s t s' : ReadyToRun s t = Ok s' → calm s s'.
Proof.
  unfold ReadyToRun, lift. intros (u & _ & (k & Hk & [= <-])%bind_Ok)%bind_Ok. eapply calm_ready; [exact Hk |]. by apply calm_view; destruct s.
Qed.

Lemma calm_FindNextToRun s next s' : FindNextToRun s = Ok (next, s') → calm s s'.
Proof.
  unfold FindNextToRun. intros (u & _ & H)%bind_Ok. destruct (readyList (devices s)); [by injection H as <- <- |].
  apply bind_Ok in H as ([t r] & _ & [= <- <-]). by apply calm_threads.
Qed.

Lemma calm_Run_tail s n s' : Run_tail s n = Ok s' → calm s s'.
Proof.
  unfold Run_tail. intros (th & Hth & (s1 & Hs1 & (u & _ & (s2 & Hs2 & (next & Hn%find_Ok & [= <-])%bind_Ok)%bind_Ok)%bind_Ok)%bind_Ok)%bind_Ok.
  assert (calm s s1) as H1 by (destruct (space th); [by eapply calm_Save | by injection Hs1 as <-]).
  assert (calm s1 s2) as H2 by (by eapply calm_pushs; [| exact Hs2]; constructor).
  etransitivity; [exact H1 |]. etransitivity; [exact H2 |].
  assert (calm s2 (with_devices s2 (with_current (devices s2) n))) as H3 by (by apply calm_threads).
  etransitivity; [exact H3 |]. by eapply (calm_set (with_devices s2 (with_current (devices s2) n))).
Qed.

Lemma Run_split s n fin s' : Run s n fin = Ok s' → 
  Run_tail (with_devices s (if fin then with_destroyed (devices s) (Some (currentThread (devices s))) else devices s)) n = Ok s' ∧
  (fin = true → toBeDestroyed (devices s) = None).
Proof.
  unfold Run. intros (u & _ & (s1 & Hs1 & Hr)%bind_Ok)%bind_Ok. destruct fin.
  - apply bind_Ok in Hs1 as ([] & Hd%assert_Ok & [= <-]). split; [exact Hr |]. intros _. by apply bool_decide_eq_true in Hd.
  - injection Hs1 as <-. split; [| done]. by destruct s.
Qed.

Lemma calm_Run s n s' : Run s n false = Ok s' → calm s s'.
Proof. intros [Hr _]%Run_split. etransitivity; [| by eapply calm_Run_tail]. by apply calm_view. Qed.

Lemma calm_Check s k' : CheckToBeDestroyed (devices s) = Ok k' → calm s (with_devices s k').
Proof.
  unfold CheckToBeDestroyed. destruct (toBeDestroyed (devices s)) as [d|] eqn:Hd.
  - intros (u & _ & [= <-])%bind_Ok. apply calm_threads; try done. intros t. unfold live. rewrite Hd. cbn.
    destruct (decide (t = d)) as [->|Hne]; [by rewrite decide_True, lookup_delete_eq by done |].
    by rewrite decide_False, lookup_delete_ne by congruence.
  - intros [= <-]. by apply calm_view.
Qed.

Lemma calm_resume s s' : Run_resume s = Ok s' → calm s s'.
Proof.
  unfold Run_resume, lift. intros (u & _ & (s1 & (k & Hk & [= <-])%bind_Ok & (th & _ & H)%bind_Ok)%bind_Ok)%bind_Ok.
  etransitivity; [by eapply calm_Check |]. destruct (space th) as [sp|]; [| by injection H as <-].
  apply bind_Ok in H as (s2 & Hs2 & [= <-]). etransitivity; [by eapply calm_Restore |]. by apply calm_view.
Qed.

Lemma calm_Yield CallBack s s' : Yield CallBack s = Ok s' → calm s s'.
Proof.
  unfold Yield. rewrite SetOff_eq. cbn [rbind]. intros ([next s1] & Hf%calm_FindNextToRun & (s2 & Hp & H)%bind_Ok)%bind_Ok.
  apply calm_pushs in Hp; [| by constructor].
  assert (calm s s2) as Hc by (etransitivity; [by apply (calm_view s (with_level s IntOff)) | by etransitivity]).
  destruct next as [t|]; [| by injection H as <-].
  apply bind_Ok in H as (s3 & H3%calm_ReadyToRun & H4%calm_Run). by etransitivity; [exact Hc | etransitivity].
Qed.

Lemma calm_TickYield CallBack old s s' : TickYield CallBack old s = Ok s' → calm s s'.
Proof.
  unfold TickYield. intros (s1 & Hp%calm_pushs & Hy%calm_Yield)%bind_Ok; [by etransitivity | by constructor].
Qed.

(** ** Handlers *)

Lemma wake_codes k w k' : wake k w = Ok k' → ∀ t, code <$> threads k' !! t = code <$> threads k !! t.
Proof.
  intros Hw t. destruct (wake_threads k w k' Hw) as (_ & _ & _ & _ & _ & _ & _ & H1 & H2 & _).
  destruct (threads k' !! t) as [th'|] eqn:H'.
  - destruct (H1 t th' H') as (th & -> & [-> | ->]); done.
  - destruct (threads k !! t) as [th|] eqn:H0; [| done]. destruct (H2 t th H0) as (? & ? & _). congruence.
Qed.

Lemma live_codes k k' : (∀ t, code <$> threads k' !! t = code <$> threads k !! t) → toBeDestroyed k' = toBeDestroyed k →
  ∀ t, live k' t = live k t.
Proof. intros H1 H2 t. unfold live. by rewrite H1, H2. Qed.

Lemma wake_live k w k' : wake k w = Ok k' → ∀ t, live k' t = live k t.
Proof. intros Hw. apply live_codes; [by eapply wake_codes | by apply wake_threads in Hw as (_ & _ & _ & _ & ? & _)]. Qed.

(** [a] with the values, the environment and the events of [s]. *)
Definition adopt a s : Sys :=
  mkSys (scode a) (value <$> semaphores (devices s)) (slock a) (scond a) (env (devices s)) (callOnInterrupt <$> pending (interrupt s)).

Lemma adopt_shows s a s' : shows s a → (∀ t, live (devices s') t = live (devices s) t) →
  locks (devices s') = locks (devices s) → conditions (devices s') = conditions (devices s) → shows s' (adopt a s').
Proof.
  intros [H1 H2 H3 H4 H5 H6] Hlv Hlk Hcv. constructor; cbn.
  - intros t. by rewrite Hlv.
  - intros w _. by rewrite lookup_fmap.
  - intros l. specialize (H3 l). unfold lock_shown in *. rewrite Hlk. destruct (slock a !! l) as [[t|]|]; [| | done].
    + by setoid_rewrite Hlv.
    + destruct H3 as [? H0]. split; [done |]. intros t c. rewrite Hlv. apply H0.
  - congruence.
  - done.
  - done.
Qed.

Lemma handler_live k k' : rtc handler_step k k' →
  (∀ t, live k' t = live k t) ∧ locks k' = locks k ∧ conditions k' = conditions k.
Proof.
  induction 1 as [k|k1 k2 k3 Hh _ (IH1 & IH2 & IH3)]; [done |].
  destruct Hh as [[n Hw]|[e ->]]; [| done].
  pose proof (wake_live _ _ _ Hw) as Hlv. destruct (wake_threads _ _ _ Hw) as (_ & Hcv & Hlk & _).
  split; [intros t; by rewrite IH1 | split; congruence].
Qed.

Section refinement.
Context (CallBack : C → Sim → result Sim) `{!DeviceLaw CallBack}.
Context (client : X → Sim → result (list instr * Sim)) `{!ClientLaw client}.
Context (user_step : Machine → result (list instr * Machine)) `{!UserLaw user_step}.
#[local] Abbreviation step := (sys_step CallBack client user_step).

(** From [s] to [s'] by steps of the threads and the hardware. *)
Definition flows s s' : Prop := ∀ a, shows s a → ∃ a', rtc step a a' ∧ shows s' a'.

#[export] Instance flows_preorder : PreOrder flows.
Proof.
  split; [intros s a Ha; exists a; by split; [apply rtc_refl |] |].
  intros s1 s2 s3 H1 H2 a Ha. destruct (H1 a Ha) as (a2 & R1 & H). destruct (H2 a2 H) as (a3 & R2 & H3).
  exists a3. split; [by etransitivity | done].
Qed.

Lemma calm_flows s s' : calm s s' → flows s s'.
Proof. intros Hc a Ha. exists a. split; [apply rtc_refl | by eapply calm_shows]. Qed.

Lemma flows_fire s p rest s' : level (interrupt s) = IntOff → inHandler (interrupt s) = true →
  pending (interrupt s) = p :: rest → CallBack (callOnInterrupt p) (with_pending s rest) = Ok s' → flows s s'.
Proof.
  intros Hl Hi Hp Hc a Ha. pose proof (device_wakes (callOnInterrupt p) (with_pending s rest) s' Hl Hi Hc) as Hw.
  destruct (handler_live _ _ Hw) as (Hlv & Hlk & Hcv).
  assert (shows (with_pending s rest) (with_sevents a (callOnInterrupt <$> rest))) as Hs.
  { destruct Ha as [H1 H2 H3 H4 H5 H6]. by constructor. }
  exists (adopt (with_sevents a (callOnInterrupt <$> rest)) s'). split; [| by eapply adopt_shows].
  apply rtc_once. apply (y_interrupt _ _ _ a (callOnInterrupt p) (callOnInterrupt <$> rest) (with_pending s rest) s'); [| exact Hl | exact Hi | exact Hs | exact Hc | by eapply adopt_shows | done..].
  pose proof (sh_events s a Ha) as He. by rewrite Hp in He.
Qed.

Lemma flows_fires ps s s' : level (interrupt s) = IntOff → inHandler (interrupt s) = true → fires CallBack ps s s' → flows s s'.
Proof.
  intros Hl Hi Hf. induction Hf as [s|p ps s rest s1 s2 Hp Hc Hf IH]; [reflexivity |].
  destruct (handler_law (callOnInterrupt p) (with_pending s rest) s1 Hl Hi Hc) as (Hl1 & Hi1 & _).
  transitivity s1; [by eapply flows_fire |]. apply IH; [by rewrite Hl1 | by rewrite Hi1].
Qed.

Lemma flows_CheckIfDue s adv fired s' : sim_ok s → level (interrupt s) = IntOff →
  CheckIfDue CallBack s adv = Ok (fired, s') → flows s s'.
Proof.
  intros Hs Hl Hc. pose proof (CheckIfDue_spec CallBack s adv Hs Hl) as Hp. rewrite Hc in Hp.
  destruct Hp as (_ & _ & _ & due & rest & _ & _ & _ & _ & _ & Hf). destruct fired; [| by subst].
  destruct Hf as (s1 & s2 & (Hp1 & _ & Hi & Hl1 & Hd) & Hfires & ->).
  transitivity s1; [by apply calm_flows, calm_view |]. transitivity s2; [by eapply flows_fires |]. by apply calm_flows, calm_view.
Qed.

Lemma flows_OneTick s s' : settled s → OneTick CallBack (TickYield CallBack) s = Ok s' → flows s s'.
Proof.
  intros [(H1 & H2 & (Hc & ? & ? & ? & Hb) & H4 & H5) _]. unfold OneTick. intros (st & Hst & ([fired s1] & Hd & Hy)%bind_Ok)%bind_Ok.
  transitivity (ChangeLevel (with_stats s st) IntOff); [by apply calm_flows, calm_view |]. transitivity s1.
  { eapply flows_CheckIfDue; [| done | exact Hd]. split; [done |]. split; [done |]. split; [| done].
    case_decide; inv_res; repeat match goal with H : int_add _ _ = Ok _ |- _ => apply int_add_Ok in H as [-> ?] end;
      unfold clock_ok, is_s32, SystemTick, UserTick in *; cbn; lia. }
  transitivity (ChangeLevel s1 IntOn); [by apply calm_flows, calm_view |].
  destruct (yieldOnReturn _); [| by injection Hy as <-]. apply calm_TickYield in Hy. apply calm_flows. etransitivity; [| exact Hy]. by apply calm_view.
Qed.

Lemma flows_SetLevel s now old s' : settled s → SetLevelK CallBack s now = Ok (old, s') → flows s s'.
Proof.
  intros Hs. unfold SetLevelK, SetLevel. intros (u & _ & (s1 & Hs1 & [= _ <-])%bind_Ok)%bind_Ok.
  transitivity (ChangeLevel s now); [by apply calm_flows, calm_view |].
  case_decide; [| by injection Hs1 as <-]. eapply flows_OneTick; [| exact Hs1]. by apply settled_level.
Qed.

Lemma flows_Idle s s' : settled s → level (interrupt s) = IntOff → Idle CallBack s = Ok s' → flows s s'.
Proof.
  intros Hs Hl. unfold Idle. intros ([fired s1] & Hc & H)%bind_Ok. destruct fired; [| done]. injection H as <-.
  transitivity (with_status s IdleMode); [by apply calm_flows, calm_view |].
  transitivity s1; [| by apply calm_flows, calm_view]. eapply flows_CheckIfDue; [| | exact Hc]; [| done].
  by apply settled_status.
Qed.

(** ** The instructions *)

(** The semaphore of a lock belongs to a lock. *)
Definition made k : Prop := ∀ l, semaphores k !! SLock l ≠ None → locks k !! l ≠ None.

(** A thread's code replaced. *)
Lemma code_shows s a th c' : let k := devices s in shows s a → threads k !! currentThread k = Some th →
  toBeDestroyed k ≠ Some (currentThread k) → (∀ l, tokens l c' = tokens l (code th)) →
  shows (with_devices s (set_code k th c')) (go a (currentThread k) (flat c')).
Proof.
  intros k [H1 H2 H3 H4 H5 H6] Ht Hd Htok. assert (live k (currentThread k) = Some (code th)) as Hcur.
  { unfold live. rewrite decide_False by done. by rewrite Ht. }
  constructor; try done.
  - intros t. unfold set_code. cbn [devices with_devices]. rewrite live_set. cbn. destruct (decide (t = currentThread k)) as [->|Hne].
    + rewrite lookup_insert_eq. by rewrite decide_False by done.
    + by rewrite lookup_insert_ne.
  - intros l. specialize (H3 l). unfold lock_shown in *. cbn [go with_scode slock devices with_devices]. unfold set_code.
    destruct (slock a !! l) as [[t|]|]; [| | done].
    + destruct H3 as [?|(? & c0 & Hl0 & Hk)]; [by left | right]. split; [done |].
      rewrite live_set. case_decide; [| by exists c0]. subst. rewrite decide_False by done. eexists. split; [done |].
      fold k in Hl0. rewrite Hcur in Hl0. injection Hl0 as <-. by rewrite Htok.
    + destruct H3 as [? H0]. split; [done |]. intros t c0. rewrite live_set. case_decide; [| by apply H0]. subst.
      rewrite decide_False by done. intros [= <-]. rewrite Htok. by apply (H0 (currentThread k)).
Qed.

(** Semaphores and conditions changed. *)
Lemma shows_objects s s' a v q : shows s a → threads (devices s') = threads (devices s) →
  toBeDestroyed (devices s') = toBeDestroyed (devices s) → locks (devices s') = locks (devices s) →
  env (devices s') = env (devices s) → pending (interrupt s') = pending (interrupt s) →
  (∀ w, is_slock w = false → v !! w = value <$> semaphores (devices s') !! w) → q = conditions (devices s') →
  shows s' (with_scond (with_sval a v) q).
Proof.
  intros Ha Hth Hd Hlk He Hp Hv ->. assert (∀ t, live (devices s') t = live (devices s) t) as Hlv by (by apply live_same).
  pose proof Ha as [H1 H2 H3 H4 H5 H6]. constructor; [| exact Hv | | done | by rewrite He | by rewrite Hp].
  - intros t. by rewrite Hlv.
  - intros l. specialize (H3 l). unfold lock_shown in *. rewrite Hlk. cbn. destruct (slock a !! l) as [[t|]|]; [| | done].
    + by setoid_rewrite Hlv.
    + destruct H3 as [? H0]. split; [done |]. intros t c. rewrite Hlv. apply H0.
Qed.

Section instruction.
Context s th i c (Hs : ksim s) (Ht : threads (devices s) !! currentThread (devices s) = Some th)
  (Hc : code th = i :: c) (Hmade : made (devices s)).
#[local] Abbreviation k := (devices s).
#[local] Abbreviation cur := (currentThread (devices s)).

Lemma current_lives : toBeDestroyed k ≠ Some cur.
Proof. intros Hd. destruct Hs as (_ & (Hsi & _) & _). by destruct (inv_destroyed _ Hsi _ Hd) as [? _]. Qed.

Lemma current_live : live k cur = Some (i :: c).
Proof. unfold live. rewrite decide_False by apply current_lives. rewrite Ht. cbn. by rewrite Hc. Qed.

Lemma live_popped c' t : live (devices (popped s th c')) t = if decide (t = cur) then Some c' else live k t.
Proof.
  unfold popped, set_code. cbn [devices with_devices]. rewrite live_set. case_decide; [| done].
  by rewrite decide_False by apply current_lives.
Qed.

Lemma popped_popped c1 c2 : with_devices (popped s th c1) (set_code (devices (popped s th c1)) (with_code th c1) c2) = popped s th c2.
Proof. unfold popped, set_code. cbn. by rewrite set_thread_twice. Qed.

Lemma popped_settled c' : settled (popped s th c').
Proof. apply settled_devices, Hs. Qed.

Lemma popped_shows a c' : shows s a → (∀ l, tokens l c' = tokens l (i :: c)) → shows (popped s th c') (go a cur (flat c')).
Proof. intros Ha Htok. apply code_shows; [done | done | apply current_lives | by rewrite Hc]. Qed.

Lemma popped_calm c' : same_code (i :: c) c' → calm s (popped s th c').
Proof. intros Hsc. apply (calm_set s cur th); [done |]. by rewrite Hc. Qed.

(** ... and maybe its status or space. *)
Lemma popped_as s' th' : devices s' = set_thread k cur th' → pending (interrupt s') = pending (interrupt s) →
  calm (popped s th (code th')) s'.
Proof.
  intros Hd Hp. constructor; rewrite ?Hd; try done. intros t. rewrite live_popped, live_set.
  case_decide; [| done]. by rewrite decide_False by apply current_lives.
Qed.

Lemma shown_code a : shows s a → scode a !! cur = Some (flat (i :: c)).
Proof. intros Ha. by rewrite (sh_code s a Ha), current_live. Qed.

Lemma lock_ok : lock_inv k.
Proof. apply Hs. Qed.

(** What a [V] does. *)
Lemma wake_shows s1 a w k' : shows s1 a → is_slock w = false → wake (devices s1) w = Ok k' →
  shows (with_devices s1 k') (add_value a w 1) ∧ ∃ v, sval a !! w = Some v.
Proof.
  intros Ha Hw Hk. pose proof (wake_live _ _ _ Hk) as Hlv. pose proof Ha as [H1 H2 H3 H4 H5 H6].
  destruct (wake_threads _ _ _ Hk) as (_ & Hcv & Hlk & _ & _ & He & _ & _ & _ & Hoth).
  apply wake_Ok in Hk as (sem & Hsem & _ & Hq).
  assert (∃ q, semaphores k' !! w = Some (mkSem (value sem + 1) q)) as [q Hw'].
  { destruct (queue sem) as [|t q]; [exists []; subst k'; cbn; by rewrite lookup_insert_eq |].
    destruct Hq as (tht & _ & _ & ->). exists q. cbn. by rewrite lookup_insert_eq. }
  split; [| rewrite H2, Hsem by done; by eexists]. destruct (adopt_shows s1 a (with_devices s1 k') Ha Hlv Hlk Hcv) as [B1 _ B3 B4 _ _].
  constructor; [exact B1 | | exact B3 | exact B4 | cbn; by rewrite H5, He | exact H6].
  intros w' Hns. cbn. destruct (decide (w' = w)) as [->|Hne].
  - by rewrite lookup_alter_eq, H2, Hsem, Hw'.
  - rewrite lookup_alter_ne, H2, Hoth by done. done.
Qed.

Lemma flows_V s1 a w s' : settled s1 → shows s1 a → is_slock w = false → Semaphore_V CallBack s1 w = Ok s' →
  is_Some (sval a !! w) ∧ ∃ a', rtc step (add_value a w 1) a' ∧ shows s' a'.
Proof.
  intros Hs1 Ha Hw. unfold Semaphore_V. rewrite SetOff_eq. cbn [rbind].
  intros (s2 & (k' & Hk & [= <-])%bind_Ok & ([old s3] & Hl & [= <-])%bind_Ok)%bind_Ok.
  destruct (wake_shows s1 a w k' Ha Hw Hk) as [Hsh [v Hv]]. split; [by exists v |].
  assert (shows (with_devices (with_level s1 IntOff) k') (add_value a w 1)) as Hsh2 by (by destruct Hsh; constructor).
  exact (flows_SetLevel _ _ _ _ (settled_devices _ k' (settled_level s1 IntOff Hs1)) Hl _ Hsh2).
Qed.

(** Instructions that no one else can tell from nothing. *)
Lemma flows_popped s' : same_code (i :: c) c → flows (popped s th c) s' → flows s s'.
Proof. intros Hsc Hf. etransitivity; [by apply calm_flows, popped_calm | exact Hf]. Qed.

Lemma flows_pushed ins s1 s' : same_code (i :: c) (ins ++ c) → devices s1 = devices (popped s th c) →
  pending (interrupt s1) = pending (interrupt s) → pushs s1 ins = Ok s' → flows s s'.
Proof.
  intros Hsc Hd Hp Hr. apply calm_flows. etransitivity; [by apply popped_calm |].
  pose proof (popped_pushs s th c ins) as Hpp. unfold pushs in *. rewrite Hd in Hr.
  destruct (push _ ins) as [k'|]; [| done]. injection Hr as <-. injection Hpp as Hpp. apply calm_view; cbn; [by rewrite <- Hpp | done].
Qed.

Lemma flows_IP w s' : i = IP w → ('(old, s) ← SetOff CallBack (popped s th c); pushs s [ILoop w old]) = Ok s' → flows s s'.
Proof.
  intros Hi. rewrite SetOff_eq. cbn [rbind]. apply flows_pushed; [| done | done]. rewrite Hi. by destruct w; split.
Qed.

Lemma flows_IAcquire l s' : i = IAcquire l → pushs (popped s th c) [IP (SLock l); IHolder l] = Ok s' → flows s s'.
Proof.
  intros Hi. apply flows_pushed; [| done | done]. rewrite Hi. split; [done |]. intros l'. cbn. case_decide; lia.
Qed.

Lemma flows_IV w s' : i = IV w → Semaphore_V CallBack (popped s th c) w = Ok s' → flows s s'.
Proof.
  intros Hi Hv a Ha. assert (is_slock w = false) as Hw.
  { pose proof (inv_threads k (s_inv s Hs) _ _ Ht) as [(Hpl & _) _]. unfold rest_of in Hpl. rewrite Hc, Hi in Hpl.
    inversion_clear Hpl as [|? ? Hx _]. by destruct w. }
  destruct (flows_V (popped s th c) (go a cur (flat c)) w s') as [[v Hsv] (a' & Hr & Hsh)];
    [apply popped_settled | by apply popped_shows; [| rewrite Hi] | done | done |].
  exists a'. split; [| done]. eapply rtc_l; [| exact Hr]. eapply y_V; [| exact Hsv].
  rewrite (shown_code a Ha), Hi. done.
Qed.

Lemma flows_IFinish s' : i = IFinish → Thread_Finish CallBack (popped s th c) = Ok s' → flows s s'.
Proof.
  intros Hi. unfold Thread_Finish, Sleep. rewrite SetOff_eq. cbn [rbind]. intros (u & _ & (th1 & Hth1 & Hp)%bind_Ok)%bind_Ok a Ha.
  apply find_Ok in Hth1. cbn in Hth1. rewrite lookup_insert_eq in Hth1. injection Hth1 as <-.
  rewrite (pushs_eq _ (with_status_of (with_code th c) BLOCKED)) in Hp by (cbn; by rewrite lookup_insert_eq).
  injection Hp as <-. exists (go a cur []). split.
  - apply rtc_once. eapply y_finish. by rewrite (shown_code a Ha), Hi.
  - apply (calm_shows (popped s th (IIdle true :: c))); [| by apply (popped_shows a (IIdle true :: c)); [| rewrite Hi]].
    eapply (popped_as _ (with_status_of (with_code th (IIdle true :: c)) BLOCKED)); [| done].
    unfold set_code, set_thread, popped. cbn. by rewrite !insert_insert_eq.
Qed.

(** *** Locks and conditions *)

Lemma live_thread k0 t c0 : live k0 t = Some c0 → ∃ th0, threads k0 !! t = Some th0 ∧ code th0 = c0.
Proof. unfold live. case_decide; [done |]. intros (th0 & ? & ?)%fmap_Some. by exists th0. Qed.

Lemma held l (r : result Sim) s' a : shows s a →
  (held ← IsHeldByCurrentThread (devices (popped s th c)) l; (ASSERT held);; r) = Ok s' →
  locks k !! l = Some (Some cur) ∧ slock a !! l = Some (Some cur) ∧ r = Ok s'.
Proof.
  intros Ha. unfold IsHeldByCurrentThread. intros (b & (h & Hh%find_Ok & [= <-])%bind_Ok & (u & Hb & Hr)%bind_Ok)%bind_Ok.
  case_bool_decide as Heq; [| done]. subst h. change (locks k !! l = Some (Some cur)) in Hh. split; [done |]. split; [| done].
  pose proof (sh_lock s a Ha l) as Hl. unfold lock_shown in Hl. destruct (slock a !! l) as [[t|]|].
  - destruct Hl as [Hl|[Hl _]]; congruence.
  - destruct Hl; congruence.
  - congruence.
Qed.

Lemma flows_IRelease l s' : i = IRelease l → Lock_Release CallBack (popped s th c) l = Ok s' → flows s s'.
Proof.
  intros Hi Hr0 a Ha. destruct (held l _ s' a Ha Hr0) as (Hl & Hsl & Hr). unfold Semaphore_V in Hr. rewrite SetOff_eq in Hr. cbn [rbind] in Hr.
  apply bind_Ok in Hr as (s2 & (k' & Hk & [= <-])%bind_Ok & ([old s3] & Hlv & [= <-])%bind_Ok).
  cbn [devices with_level with_interrupt with_devices] in Hk.
  set (k2 := with_locks _ _) in Hk. pose proof (wake_live _ _ _ Hk) as Hlive.
  destruct (wake_threads _ _ _ Hk) as (_ & Hcv & Hlk & _ & _ & He & _ & _ & _ & Hoth).
  set (a2 := with_slock (go a cur (flat c)) (<[l := None]> (slock a))).
  assert (step a a2) as Hstep. { eapply y_release; [| exact Hsl]. by rewrite (shown_code a Ha), Hi. }
  assert (∀ t, live k' t = live (devices (popped s th c)) t) as Hlive' by (intros t; by rewrite Hlive).
  destruct (popped_shows a c Ha) as [B1 B2 B3 B4 B5 B6]; [by rewrite Hi |].
  assert (shows (with_devices (with_level (popped s th c) IntOff) k') a2) as Hsh.
  { constructor; cbn [devices with_devices with_level with_interrupt interrupt pending].
    - intros t. by rewrite Hlive'.
    - intros w Hw. rewrite Hoth by (by intros ->). by apply B2.
    - intros l'. specialize (B3 l'). unfold lock_shown in *. rewrite Hlk. cbn. destruct (decide (l' = l)) as [->|Hne].
      + rewrite !lookup_insert_eq. split; [done |]. intros t c0. rewrite Hlive', live_popped.
        destruct (inv_locks k lock_ok l _ Hl) as (sem & _ & _ & H0). case_decide as Hd.
        * intros [= <-]. specialize (H0 cur th Ht). by rewrite Hc, Hi in H0.
        * intros (th0 & H1 & <-)%live_thread. by apply (H0 t).
      + rewrite !lookup_insert_ne by done. cbn in B3. destruct (slock a !! l') as [[t|]|]; [| | done].
        * by setoid_rewrite Hlive'.
        * split; [apply B3 |]. intros t c0. rewrite Hlive'. apply B3.
    - by rewrite Hcv.
    - by rewrite He.
    - done. }
  destruct (flows_SetLevel _ _ _ _ (settled_devices _ k' (settled_level _ IntOff (popped_settled c))) Hlv _ Hsh) as (a' & Hr & Hsh').
  exists a'. split; [by eapply rtc_l | done].
Qed.

Lemma flows_ISignal cv l s' : i = ISignal cv l → Condition_Signal CallBack (popped s th c) cv l = Ok s' → flows s s'.
Proof.
  intros Hi Hr0 a Ha. destruct (held l _ s' a Ha Hr0) as (_ & Hsl & Hr).
  apply bind_Ok in Hr as (q & Hq%find_Ok & Hr). change (conditions k !! cv = Some q) in Hq.
  pose proof (shown_code a Ha) as Hco. rewrite Hi in Hco.
  assert (shows (popped s th c) (go a cur (flat c))) as Hsh by (apply popped_shows; [done | by rewrite Hi]).
  pose proof (sh_cond s a Ha) as Hcond. rewrite <- Hcond in Hq. destruct q as [|w q].
  - injection Hr as <-. exists (go a cur (flat c)). split; [| done]. apply rtc_once. eapply y_signal_none; [exact Hco | exact Hsl | exact Hq].
  - cbn [seq_RemoveFront rbind] in Hr. change (conditions (devices (popped s th c))) with (conditions k) in Hr. rewrite <- Hcond in Hr.
    assert (shows (with_devices (popped s th c) (with_conditions (devices (popped s th c)) (<[cv := q]> (scond a))))
      (with_scond (go a cur (flat c)) (<[cv := q]> (scond a)))) as Hsh2 by (destruct Hsh; by constructor).
    destruct Hs as (_ & (_ & Hci & _) & _). rewrite Hcond in Hq. destruct (inv_waiters k Hci cv _ w Hq) as (n & sem & -> & _); [by left |].
    rewrite <- Hcond in Hq.
    apply (flows_V _ (with_scond (go a cur (flat c)) (<[cv := q]> (scond a)))) in Hr as [_ (a' & Hr & Hsh')];
      [| apply settled_devices, popped_settled | exact Hsh2 | done].
    exists a'. split; [| done]. eapply rtc_l; [| exact Hr]. eapply (y_signal CallBack client user_step a cur cv l (flat c) (SWait n) q); [exact Hco | exact Hsl | exact Hq].
Qed.

Lemma flows_IBroadcast cv l s' : i = IBroadcast cv l → Condition_Broadcast (popped s th c) cv l = Ok s' → flows s s'.
Proof.
  intros Hi Hr a Ha. unfold Condition_Broadcast in Hr. apply bind_Ok in Hr as (q & Hq%find_Ok & Hr). change (conditions k !! cv = Some q) in Hq.
  pose proof (shown_code a Ha) as Hco. rewrite Hi in Hco. rewrite <- (sh_cond s a Ha) in Hq.
  eexists. split; [apply rtc_once; eapply y_broadcast; [exact Hco | exact Hq] |]. destruct q as [|w q].
  - injection Hr as <-. apply popped_shows; [done | by rewrite Hi].
  - rewrite popped_pushs in Hr. injection Hr as <-. apply (popped_shows a ([ISignal cv l; IBroadcast cv l] ++ c)); [done | by rewrite Hi].
Qed.

Lemma flows_IWait cv l s' : i = IWait cv l → Condition_Wait (popped s th c) cv l = Ok s' → flows s s'.
Proof.
  intros Hi Hr0 a Ha. destruct (held l _ s' a Ha Hr0) as (_ & Hsl & Hr). cbn zeta in Hr.
  apply bind_Ok in Hr as (q & Hq%find_Ok & (q' & Hq' & Hp)%bind_Ok). change (conditions k !! cv = Some q) in Hq.
  unfold seq_Append in Hq'. case_bool_decide as Hin; [| done]. injection Hq' as <-.
  rewrite (pushs_eq _ (with_code th c)) in Hp by (cbn; by rewrite lookup_insert_eq). injection Hp as <-.
  change (nextWaiter (devices (popped s th c))) with (nextWaiter k). set (n := nextWaiter k).
  set (ins := [IRelease l; IP (SWait n); IAcquire l; IDelete (SWait n)] : list instr).
  assert (shows (popped s th (ins ++ c)) (go a cur (flat (ins ++ c)))) as Hsh by (apply popped_shows; [done | by rewrite Hi]).
  destruct Hs as (_ & (_ & Hci & _) & _).
  eexists. split; [apply rtc_once; eapply (y_wait _ _ _ a cur cv l (flat c) q n); [by rewrite (shown_code a Ha), Hi | done | | |] |].
  - by rewrite (sh_cond s a Ha).
  - intros cv' q'. rewrite (sh_cond s a Ha). intros Hcv' Hin'.
    destruct (inv_waiters k Hci cv' q' _ Hcv' Hin') as (n' & _ & [= <-] & Hlt & _). unfold n in Hlt. lia.
  - intros t' c'. rewrite (sh_code s a Ha). intros (c0 & (th0 & H0 & <-)%live_thread & ->)%fmap_Some Hdel.
    destruct (inv_alive k Hci t' th0 n H0) as [Hlt _]; [| unfold n in Hlt; lia].
    by apply flat_deletes.
  - apply (shows_objects (popped s th (ins ++ c))); [exact Hsh | | done | done | done | done | | cbn; by rewrite (sh_cond s a Ha)].
    + unfold popped, set_code, set_thread, with_devices, with_threads, with_semaphores, with_nextWaiter, with_conditions. cbn. by rewrite insert_insert_eq.
    + intros w Hw. cbn. destruct (decide (w = SWait n)) as [->|Hne]; [by rewrite !lookup_insert_eq |].
      rewrite !lookup_insert_ne by done. by apply (sh_val s a Ha).
Qed.

(** *** Threads *)

Lemma flows_IFork body s' : i = IFork body → Thread_Fork CallBack (popped s th c) body = Ok s' → flows s s'.
Proof.
  intros Hi Hr a Ha. unfold Thread_Fork in Hr. rewrite SetOff_eq in Hr. cbn [rbind] in Hr.
  apply bind_Ok in Hr as (s2 & Hrun & ([old s3] & Hlv & [= <-])%bind_Ok).
  assert (settled s2) as Hs2.
  { unfold ReadyToRun, lift in Hrun. apply bind_Ok in Hrun as (u & _ & (k2 & _ & [= <-])%bind_Ok).
    apply settled_devices, settled_level. exact (popped_settled c). }
  apply calm_ReadyToRun in Hrun.
  assert (Forall static (body ++ [IFinish])) as Hbody.
  { pose proof (inv_threads k (s_inv s Hs) _ _ Ht) as [(Hpl & _) _]. unfold rest_of in Hpl. rewrite Hc, Hi in Hpl.
    inversion_clear Hpl as [|? ? Hb _]. apply Forall_app. split; [by apply forallb_True | by repeat constructor]. }
  change (nextThread (devices (popped s th c))) with (nextThread k) in *. set (n := nextThread k) in *.
  assert (threads k !! n = None) as Hfr by (apply (inv_fresh k (s_inv s Hs)); unfold n; lia).
  assert (n ≠ cur) as Hne by (intros Heq; rewrite Heq in Hfr; by rewrite Ht in Hfr).
  assert (toBeDestroyed k ≠ Some n) as Hnd.
  { intros Hd. destruct (inv_destroyed k (s_inv s Hs) n Hd) as (_ & (thn & Hthn & _) & _). congruence. }
  set (s1 := with_devices (popped s th c) (with_nextThread (set_thread (devices (popped s th c)) n (Thread_new body)) (n + 1))) in *.
  set (a1 := go (go a cur (flat c)) n (flat (body ++ [IFinish]))).
  destruct (popped_shows a c Ha) as [B1 B2 B3 B4 B5 B6]; [by rewrite Hi |].
  assert (∀ t, live (devices s1) t = if decide (t = n) then Some (IBegin :: body ++ [IFinish]) else live (devices (popped s th c)) t) as Hlv1.
  { intros t. unfold s1. cbn [devices with_devices]. rewrite (live_same (set_thread (devices (popped s th c)) n (Thread_new body))) by done.
    rewrite live_set. case_decide; [| done]. by rewrite decide_False by exact Hnd. }
  assert (shows s1 a1) as Hsh.
  { constructor; [| exact B2 | | exact B4 | exact B5 | exact B6].
    - intros t. rewrite Hlv1. cbn. destruct (decide (t = n)) as [->|Hnt]; [by rewrite lookup_insert_eq |]. rewrite lookup_insert_ne by done. apply B1.
    - intros l. specialize (B3 l). unfold lock_shown in *. cbn [a1 go with_scode slock] in *.
      change (locks (devices s1)) with (locks (devices (popped s th c))). destruct (slock a !! l) as [[t|]|]; [| | done].
      + destruct B3 as [?|(? & c0 & H0 & Hk)]; [by left | right]. split; [done |]. rewrite Hlv1. case_decide as Hd; [| by exists c0].
        exfalso. subst t. rewrite live_popped in H0. rewrite decide_False in H0 by done. apply live_thread in H0 as (? & ? & _). congruence.
      + split; [apply B3 |]. intros t c0. rewrite Hlv1. case_decide; [| apply B3]. intros [= <-]. cbn. rewrite <- (app_nil_r (body ++ [IFinish])). by rewrite tokens_app. }
  destruct (flows_SetLevel _ _ _ _ Hs2 Hlv a1) as (a' & Hr & Hsh').
  { eapply calm_shows; [exact Hrun |]. by eapply calm_shows; [apply (calm_view s1) |]. }
  exists a'. split; [| done]. eapply rtc_l; [| exact Hr]. eapply y_fork; [by rewrite (shown_code a Ha), Hi | by apply Forall_app in Hbody as [? _] |].
  rewrite (sh_code s a Ha). unfold live. rewrite Hfr. by case_decide.
Qed.

Lemma flows_IExecute sp s' : i = IExecute sp → Thread_Execute (popped s th c) sp = Ok s' → flows s s'.
Proof.
  intros Hi Hr a Ha. unfold Thread_Execute in Hr. rewrite (find_Some _ _ _ (popped_thread s th c)) in Hr. cbn [rbind] in Hr.
  apply bind_Ok in Hr as (m & _ & Hp). rewrite (pushs_eq _ (with_space (with_code th c) (Some sp))) in Hp by (cbn; by rewrite lookup_insert_eq).
  injection Hp as <-. exists (go a cur (flat (IRun :: c))). split; [apply rtc_once; eapply y_execute; by rewrite (shown_code a Ha), Hi |].
  apply (calm_shows (popped s th (IRun :: c))); [| by apply popped_shows; [| rewrite Hi]].
  apply (popped_as _ (with_space (with_code th (IRun :: c)) (Some sp))); [| done].
  unfold popped, set_code, set_thread. cbn. by rewrite !insert_insert_eq.
Qed.

(** *** Programs and the rest of the kernel *)

Lemma flows_IRun s' : i = IRun →
  ('(ins, m) ← user_step (machine s); pushs (with_machine (popped s th c) m) (ins ++ [ITick; IRun])) = Ok s' → flows s s'.
Proof.
  intros Hi Hr a Ha. apply bind_Ok in Hr as ([ins m] & Hu & Hp).
  assert (machine_typed (machine s)) as Hm by apply Hs. destruct (user_regs (machine s) ins m Hm Hu) as [_ Hins].
  assert (Forall static (ins ++ [ITick; IRun])) as Hall by (apply Forall_app; split; [done | by repeat constructor]).
  exists (go a cur (flat ((ins ++ [ITick; IRun]) ++ c))). split.
  - apply rtc_once. replace (flat ((ins ++ [ITick; IRun]) ++ c)) with (flat ins ++ IRun :: flat c).
    + eapply (y_user _ _ _ a cur (flat c)); [by rewrite (shown_code a Ha), Hi | exact Hm | exact Hu].
    + rewrite <- app_assoc, flat_app by done. done.
  - apply (calm_shows (popped s th ((ins ++ [ITick; IRun]) ++ c))); [| apply popped_shows; [done |]].
    + rewrite (pushs_eq _ (with_code th c)) in Hp by (cbn; by rewrite lookup_insert_eq). injection Hp as <-.
      apply (popped_as _ (with_code th ((ins ++ [ITick; IRun]) ++ c))); [| done].
      unfold popped, set_code, set_thread. cbn. by rewrite insert_insert_eq.
    + intros l. rewrite tokens_app by done. by rewrite Hi.
Qed.

Lemma flows_ICall x s' : i = ICall x → ('(ins, s) ← client x (popped s th c); pushs s ins) = Ok s' → flows s s'.
Proof.
  intros Hi Hr a Ha. apply bind_Ok in Hr as ([ins s1] & Hx & Hp).
  destruct (client_law x (popped s th c) ins s1 (popped_settled c) Hx) as (Hins & _ & m & e & _ & Hd).
  assert (shows (popped s th c) (go a cur (flat c))) as Hsh by (apply popped_shows; [done | by rewrite Hi]).
  assert (shows s1 (adopt (go a cur (flat c)) s1)) as Hsh1 by (eapply adopt_shows; [exact Hsh | by rewrite Hd..]).
  assert (threads (devices s1) !! currentThread (devices s1) = Some (with_code th c)) as Ht1
    by (rewrite Hd; cbn; by rewrite lookup_insert_eq).
  assert (currentThread (devices s1) = cur) as Hcur by (by rewrite Hd).
  rewrite (pushs_eq _ _ _ Ht1) in Hp. injection Hp as <-.
  exists (go (adopt (go a cur (flat c)) s1) cur (flat ins ++ flat c)). split.
  - apply rtc_once. eapply (y_call _ _ _ a cur x (flat c) ins (popped s th c) s1); [by rewrite (shown_code a Ha), Hi | apply popped_settled | done | exact Hsh | exact Hx | exact Hsh1 | done..].
  - rewrite <- flat_app by done. rewrite <- Hcur at 2. apply code_shows; [exact Hsh1 | exact Ht1 | |].
    + rewrite Hd. apply current_lives.
    + intros l. cbn. by rewrite tokens_app.
Qed.

(** *** What operations that were interrupted have left *)

Lemma flows_IDelete w s' : i = IDelete w → Condition_Wait_end (popped s th c) w = Ok s' → flows s s'.
Proof.
  intros Hi [= <-] a Ha. assert (is_slock w = false) as Hw.
  { destruct Hs as (_ & (_ & Hci & _) & _). pose proof (inv_owned k Hci _ _ Ht) as Ho. rewrite Hc, Hi in Ho.
    destruct Ho as [_ Ho]. by destruct w. }
  exists (with_sval (go a cur (flat c)) (delete w (sval a))). split.
  - apply rtc_once. eapply y_delete; [by rewrite (shown_code a Ha), Hi | done].
  - destruct (popped_shows a c Ha) as [B1 B2 B3 B4 B5 B6]; [by rewrite Hi |]. constructor; try done.
    intros w' Hw'. cbn. destruct (decide (w' = w)) as [->|Hne]; [by rewrite !lookup_delete_eq |].
    rewrite !lookup_delete_ne by done. by apply (sh_val s a Ha).
Qed.

Lemma flows_IHolder l s' : i = IHolder l → Lock_Acquire_end (popped s th c) l = Ok s' → flows s s'.
Proof.
  intros Hi Hr a Ha. unfold Lock_Acquire_end in Hr. apply bind_Ok in Hr as (h & Hh%find_Ok & [= <-]).
  change (locks k !! l = Some h) in Hh.
  assert (h = None) as -> by (apply (holder_free s th Hs Ht l); [by rewrite Hc, Hi | done]).
  pose proof (inv_code_locks k lock_ok _ _ Ht) as Hcl. rewrite Hc, Hi in Hcl. pose proof Hcl as [[Hpa _] Hst].
  assert (∀ l', tokens l' (i :: c) = (if decide (l' = l) then 1 else 0) + tokens l' c) as Htok by (intros l'; by rewrite Hi).
  assert (∀ l', l' ≠ l → tokens l' c = 0) as Hother.
  { intros l' Hne. pose proof (Hst l') as H1. cbn in H1. rewrite decide_False in H1 by done.
    destruct (decide (tokens l' c = 0)) as [|Hn]; [done |]. specialize (H1 ltac:(lia)). congruence. }
  destruct (inv_locks k lock_ok l _ Hh) as (sem & _ & Hv).
  pose proof (paired_tokens l c Hpa) as [Hnn _].
  assert (∀ t th0, threads k !! t = Some th0 → t ≠ cur → tokens l (code th0) = 0) as Hothers.
  { intros t th0 H0 Hne. destruct Hv as [[_ H1]|(_ & u & thu & Hu & Htu & H1)]; [by eapply H1 |].
    destruct (decide (u = cur)) as [->|Hnu]; [by eapply H1 |]. exfalso. specialize (H1 _ _ Ht (not_eq_sym Hnu)).
    rewrite Hc, Htok, decide_True in H1 by done. lia. }
  assert (tokens l c = 0) as Hlc.
  { destruct Hv as [[_ H1]|(_ & u & thu & Hu & Htu & H1)]; [specialize (H1 _ _ Ht) | destruct (decide (u = cur)) as [->|Hnu]; [assert (thu = th) as -> by congruence | specialize (H1 _ _ Ht (not_eq_sym Hnu))]];
      [rewrite Hc, Htok, decide_True in H1 by done | rewrite Hc, Htok, decide_True in Htu by done | rewrite Hc, Htok, decide_True in H1 by done]; lia. }
  set (s2 := with_devices _ _).
  assert (∀ t, live (devices s2) t = if decide (t = cur) then Some c else live k t) as Hlv.
  { intros t. rewrite <- live_popped. by apply live_same. }
  pose proof Ha as [H1 H2 H3 H4 H5 H6]. exists a. split; [apply rtc_refl |]. constructor; try done.
  - intros t. rewrite H1, Hlv. case_decide as Hd; [subst t; rewrite current_live, Hi |]; done.
  - intros l'. specialize (H3 l'). unfold lock_shown in *. change (locks (devices s2)) with (<[l := Some cur]> (locks k)).
    destruct (decide (l' = l)) as [->|Hne].
    + rewrite lookup_insert_eq. rewrite Hh in H3. destruct (slock a !! l) as [[t|]|]; [| | done].
      * destruct H3 as [?|(_ & c0 & H0 & Hk)]; [done |]. left. destruct (decide (t = cur)) as [->|Hnt]; [done |].
        apply live_thread in H0 as (th0 & H0 & <-). rewrite (Hothers t th0 H0 Hnt) in Hk. done.
      * destruct H3 as [_ H3]. specialize (H3 cur _ current_live). rewrite Htok, decide_True in H3 by done. lia.
    + rewrite lookup_insert_ne by done. destruct (slock a !! l') as [[t|]|]; [| | done].
      * destruct H3 as [?|(? & c0 & H0 & Hk)]; [by left | right]. split; [done |]. setoid_rewrite Hlv. case_decide as Hd; [| by exists c0].
        subst t. exists c. split; [done |]. rewrite current_live in H0. injection H0 as <-. rewrite Htok, decide_False in Hk by done. lia.
      * destruct H3 as [? H0]. split; [done |]. intros t c0. rewrite Hlv. case_decide as Hd; [| apply H0]. intros [= <-]. by apply Hother.
Qed.

Lemma flows_ILoop w old s' : i = ILoop w old → Semaphore_P_loop CallBack (popped s th c) w old = Ok s' → flows s s'.
Proof.
  intros Hi Hr. unfold Semaphore_P_loop in Hr. apply bind_Ok in Hr as (sem & Hsem%find_Ok & Hr).
  change (semaphores k !! w = Some sem) in Hsem. change (semaphores (devices (popped s th c))) with (semaphores k) in Hr.
  destruct (Z.eqb_spec (value sem) 0) as [Hv|Hv].
  - apply bind_Ok in Hr as (q & _ & (s1 & Hp & Hsl)%bind_Ok).
    rewrite (pushs_eq _ (with_code th c)) in Hp by (cbn; by rewrite lookup_insert_eq). injection Hp as <-.
    unfold Sleep in Hsl. apply bind_Ok in Hsl as (u & _ & (th1 & Hth1%find_Ok & Hp)%bind_Ok).
    cbn in Hth1. rewrite lookup_insert_eq in Hth1. injection Hth1 as <-.
    rewrite (pushs_eq _ (with_status_of (with_code th (ILoop w old :: c)) BLOCKED)) in Hp by (cbn; by rewrite lookup_insert_eq).
    injection Hp as <-. apply calm_flows. transitivity (popped s th (IIdle false :: ILoop w old :: c)).
    { apply popped_calm. rewrite Hi. by destruct w. }
    constructor; try done.
    + intros t. cbn [devices with_devices]. rewrite live_popped. unfold set_code. rewrite live_set. cbn. rewrite live_set. cbn.
      case_decide; [by rewrite decide_False by apply current_lives |]. unfold live. cbn. by rewrite lookup_insert_ne, lookup_insert_ne by done.
    + intros w' _. cbn. destruct (decide (w' = w)) as [->|Hne]; [by rewrite lookup_insert_eq, Hsem | by rewrite lookup_insert_ne].
  - apply bind_Ok in Hr as (n & [-> _]%int_add_Ok & ([old' s1] & Hlv & [= <-])%bind_Ok).
    set (s2 := with_devices (popped s th c) _) in Hlv. intros a Ha. pose proof (shown_code a Ha) as Hco. rewrite Hi in Hco.
    destruct (is_slock w) eqn:Hw.
    + destruct w as [| l |]; try done. cbn in Hco.
      pose proof (inv_code_locks k lock_ok _ _ Ht) as Hcl. rewrite Hc, Hi in Hcl.
      pose proof (code_locks_top _ _ Hcl eq_refl ltac:(done)) as Htop. destruct Hcl as [[_ Hpair] _]. cbn in Hpair.
      assert (∀ l', tokens l' c = (if decide (l' = l) then 1 else 0)) as Hz.
      { intros l'. specialize (Htop l'). cbn in Htop. case_decide; lia. }
      assert (slock a !! l = Some None) as Hsl.
      { pose proof (sh_lock s a Ha l) as Hsl. unfold lock_shown in Hsl.
        destruct (locks k !! l) as [h|] eqn:Hh; [| exfalso; by eapply Hmade; [rewrite Hsem |]].
        destruct (inv_locks k lock_ok l h Hh) as (sem' & Hs' & Hh'). rewrite Hsem in Hs'. injection Hs' as <-.
        destruct h as [u|]; [by destruct Hh' |]. destruct Hh' as [[_ H0]|[? _]]; [| done].
        destruct (slock a !! l) as [[t|]|]; [| done | done]. destruct Hsl as [?|(_ & c1 & H1 & Hk)]; [done |].
        apply live_thread in H1 as (th0 & H1 & <-). rewrite (H0 t th0 H1) in Hk. done. }
      destruct (flows_SetLevel s2 old old' s1 (settled_devices _ _ (popped_settled _)) Hlv (with_slock (go a cur (flat c)) (<[l := Some cur]> (slock a)))) as (a' & Hr & Hsh').
      2: { exists a'. split; [eapply rtc_l; [by eapply y_acquire | exact Hr] | exact Hsh']. }
      pose proof Ha as [H1 H2 H3 H4 H5 H6].
      assert (∀ t, live (devices s2) t = if decide (t = cur) then Some c else live k t) as Hl2.
      { intros t. rewrite <- live_popped. by apply live_same. }
      constructor; try done.
      * intros t. rewrite Hl2. cbn. destruct (decide (t = cur)) as [->|Hne]; [by rewrite lookup_insert_eq | by rewrite lookup_insert_ne].
      * intros w Hw'. cbn. rewrite lookup_insert_ne by (by intros <-). by apply H2.
      * intros l'. specialize (H3 l'). unfold lock_shown in *. change (locks (devices s2)) with (locks k). cbn [with_slock slock].
        destruct (decide (l' = l)) as [->|Hne].
        -- rewrite lookup_insert_eq. rewrite Hsl in H3. right. split; [apply H3 |]. exists c. rewrite Hl2, decide_True by done.
          split; [done |]. by rewrite Hz, decide_True.
        -- rewrite lookup_insert_ne by done. cbn [go with_scode slock]. destruct (slock a !! l') as [[t|]|]; [| | done].
          ++ destruct H3 as [?|(? & c1 & H0 & Hk)]; [by left | right]. split; [done |]. setoid_rewrite Hl2. case_decide as Hd; [| by exists c1].
             subst t. exfalso. rewrite current_live in H0. injection H0 as <-. rewrite Hi, Htop in Hk. done.
          ++ destruct H3 as [? H0]. split; [done |]. intros t c1. rewrite Hl2. case_decide as Hd; [| apply H0]. intros [= <-]. by rewrite Hz, decide_False.
    + assert (flat (ILoop w old :: c) = IP w :: flat c) as Hfl by (by destruct w). rewrite Hfl in Hco.
      assert (shows (popped s th c) (go a cur (flat c))) as Hsh by (apply popped_shows; [done | rewrite Hi; by destruct w]).
      destruct (flows_SetLevel s2 old old' s1 (settled_devices _ _ (popped_settled _)) Hlv (add_value (go a cur (flat c)) w (-1))) as (a' & Hr & Hsh').
      2: { exists a'. split; [eapply rtc_l; [| exact Hr] | exact Hsh']. eapply y_P; [exact Hco | | exact Hv].
           rewrite (sh_val s a Ha), Hsem by done. done. }
      destruct Hsh as [B1 B2 B3 B4 B5 B6]. constructor; try done.
      intros w' Hw'. specialize (B2 w' Hw'). cbn in *. destruct (decide (w' = w)) as [->|Hne].
      * rewrite lookup_alter_eq, lookup_insert_eq, B2, Hsem. done.
      * rewrite lookup_alter_ne, lookup_insert_ne by done. exact B2.
Qed.

Lemma flows_gone s2 : i = IIdle true → toBeDestroyed k = None → threads (devices s2) = threads (devices (popped s th c)) →
  toBeDestroyed (devices s2) = Some cur → semaphores (devices s2) = semaphores k → locks (devices s2) = locks k →
  conditions (devices s2) = conditions k → env (devices s2) = env k → pending (interrupt s2) = pending (interrupt s) → flows s s2.
Proof.
  intros Hi Hn Hth Hd Hse Hlk Hcv He Hp a Ha. pose proof Ha as [H1 H2 H3 H4 H5 H6].
  exists (with_scode a (delete cur (scode a))). split; [apply rtc_once, y_gone; by rewrite (shown_code a Ha), Hi |].
  assert (∀ t, live (devices s2) t = if decide (t = cur) then None else live k t) as Hlv.
  { intros t. unfold live. rewrite Hd, Hth, Hn, (decide_False (P := None = Some t)) by done. cbn.
    destruct (decide (t = cur)) as [->|Hne]; [by rewrite decide_True |]. rewrite decide_False by congruence. by rewrite lookup_insert_ne. }
  assert (∀ l, tokens l (i :: c) = 0) as Htok.
  { intros l. pose proof (inv_code_locks k lock_ok _ _ Ht) as Hcl. rewrite Hc in Hcl. rewrite Hi in *. by apply (code_locks_top _ _ Hcl). }
  constructor.
  - intros t. rewrite Hlv. cbn. destruct (decide (t = cur)) as [->|Hne]; [by rewrite lookup_delete_eq | by rewrite lookup_delete_ne].
  - intros w Hw. rewrite Hse. by apply H2.
  - intros l. specialize (H3 l). unfold lock_shown in *. rewrite Hlk. cbn [with_scode slock]. destruct (slock a !! l) as [[t|]|]; [| | done].
    + destruct H3 as [?|(? & c1 & H0 & Hk)]; [by left | right]. split; [done |]. exists c1. rewrite Hlv. case_decide as Hx; [| done].
      subst t. rewrite current_live in H0. injection H0 as <-. by rewrite Htok in Hk.
    + destruct H3 as [? H0]. split; [done |]. intros t c1. rewrite Hlv. case_decide; [done | apply H0].
  - by rewrite Hcv.
  - by rewrite He.
  - by rewrite Hp.
Qed.

Lemma flows_IIdle fin s' : i = IIdle fin → Sleep_loop CallBack (popped s th c) fin = Ok s' → flows s s'.
Proof.
  intros Hi Hr. unfold Sleep_loop in Hr. apply bind_Ok in Hr as ([next s1] & Hf & Hr).
  pose proof (calm_FindNextToRun _ _ _ Hf) as Hcalm. unfold FindNextToRun in Hf. apply bind_Ok in Hf as ([] & Hl%assert_Ok%bool_decide_eq_true & Hf).
  destruct (readyList (devices (popped s th c))) as [|t r].
  - injection Hf as <- <-. apply bind_Ok in Hr as (s2 & Hp & Hr).
    assert (flows s s2) as Hs2 by (eapply flows_pushed; [| | | exact Hp]; [rewrite Hi | |]; done).
    rewrite popped_pushs in Hp. injection Hp as <-. etransitivity; [exact Hs2 |]. eapply flows_Idle; [apply popped_settled | exact Hl | exact Hr].
  - apply bind_Ok in Hf as ([t' r'] & _ & [= <- <-]). destruct fin.
    + apply Run_split in Hr as [Hr Hd]. transitivity (with_devices (with_devices (popped s th c) (with_ready (devices (popped s th c)) r'))
        (with_destroyed (with_ready (devices (popped s th c)) r') (Some cur))).
      * by apply flows_gone; [| apply Hd | ..].
      * by eapply calm_flows, calm_Run_tail.
    + apply flows_popped; [by rewrite Hi |]. etransitivity; [by apply calm_flows |]. by eapply calm_flows, calm_Run.
Qed.

Lemma flows_exec s' : exec CallBack client user_step s = Ok s' → flows s s'.
Proof.
  unfold exec. rewrite (find_Some _ _ _ Ht). cbn [rbind]. rewrite Hc. rewrite (current_code_eq _ th) by done.
  cbn [lift rbind]. change (with_devices s (set_code k th c)) with (popped s th c).
  pose proof (popped_settled c) as Hse.
  destruct i as [w|w|l|l|cv l|cv l|cv l| | |body|now|sp| |x|w o|l|w|fin| | |st|] eqn:Hi in |- *.
  - by apply flows_IP.
  - by apply flows_IV.
  - by apply flows_IAcquire.
  - by apply flows_IRelease.
  - by apply flows_IWait.
  - by apply flows_ISignal.
  - by apply flows_IBroadcast.
  - intros Hr. apply flows_popped; [by rewrite Hi | by eapply calm_flows, calm_Yield].
  - by apply flows_IFinish.
  - by apply flows_IFork.
  - intros ([old s1] & Hr & [= <-])%bind_Ok. apply flows_popped; [by rewrite Hi | by eapply flows_SetLevel].
  - by apply flows_IExecute.
  - by apply flows_IRun.
  - by apply flows_ICall.
  - by apply flows_ILoop.
  - by apply flows_IHolder.
  - by apply flows_IDelete.
  - by apply flows_IIdle.
  - intros Hr. apply flows_popped; [by rewrite Hi | by eapply calm_flows, calm_resume].
  - intros (s1 & (k1 & Hk1 & [= <-])%bind_Ok & Hr)%bind_Ok. apply flows_popped; [by rewrite Hi |].
    etransitivity; [by eapply calm_flows, calm_Check |]. unfold Enable in Hr. apply bind_Ok in Hr as ([old s1] & Hr & [= <-]).
    eapply flows_SetLevel; [| exact Hr]. by apply settled_devices.
  - intros [= <-]. apply flows_popped; [by rewrite Hi |]. by apply calm_flows, calm_view.
  - intros Hr. apply flows_popped; [by rewrite Hi |]. by eapply flows_OneTick.
Qed.
End instruction.

(** ** Every execution *)

Lemma made_micro k k' : micro k k' → made k → made k'.
Proof.
  intros Hm Hk l Hl. destruct Hm as [| | | |k th w o c sem _ _ Hw _|k th w o c sem _ _ Hw _|k n k' Hw|k th l' c h _ _ _|k th l' k' _ _ Hlk Hw
    |k cv w ws k' _ Hw| | | | | | | | |k m Hg|]; try (by apply Hk).
  - cbn in *. destruct (decide (w = SLock l)) as [->|Hne]; [apply Hk; by rewrite Hw |]. rewrite lookup_insert_ne in Hl by done. by apply Hk.
  - cbn in *. destruct (decide (w = SLock l)) as [->|Hne]; [apply Hk; by rewrite Hw |]. rewrite lookup_insert_ne in Hl by done. by apply Hk.
  - destruct (wake_threads _ _ _ Hw) as (_ & _ & -> & _ & _ & _ & _ & _ & _ & Hs). apply Hk. by rewrite <- Hs.
  - cbn. destruct (decide (l' = l)) as [->|Hne]; [by rewrite lookup_insert_eq | rewrite lookup_insert_ne by done]. by apply Hk.
  - destruct (wake_threads _ _ _ Hw) as (_ & _ & -> & _ & _ & _ & _ & _ & _ & Hs). cbn. destruct (decide (l' = l)) as [->|Hne].
    + by rewrite lookup_insert_eq.
    + rewrite lookup_insert_ne by done. apply Hk. rewrite Hs in Hl by congruence. exact Hl.
  - pose proof (wake_threads _ _ _ Hw) as (_ & _ & -> & _ & _ & _ & _ & _ & _ & Hs). apply Hk. cbn.
    destruct (decide (SLock l = w)) as [<-|Hne]; [| by rewrite Hs in Hl]. apply wake_Ok in Hw as (sem & Hsem & _). cbn in Hsem. by rewrite Hsem.
  - apply Hk. cbn in Hl. by rewrite lookup_insert_ne in Hl.
  - apply Hk. cbn in Hl. intros Hn. apply Hl. by rewrite lookup_delete_None; right.
  - subst k'. by apply Hk.
  - cbn in *. apply Hk. destruct (m !! SLock l) as [sem|] eqn:Hm; [| done]. destruct Hg as [_ Hg].
    destruct (Hg _ _ Hm) as [Hs|[(n & [=]) _]]. by rewrite Hs.
Qed.

Lemma made_steps k k' : rtc micro k k' → made k → made k'.
Proof. induction 1 as [|k1 k2 k3 Hm _ IH]; [done |]. intros Hk. apply IH. by eapply made_micro. Qed.

Lemma flows_run s s' : ksim s → made (devices s) → rtc (exec_step CallBack client user_step) s s' → flows s s'.
Proof.
  intros Hs Hm Hr. revert Hs Hm. induction Hr as [s|s1 s2 s3 He _ IH]; intros Hs Hm; [reflexivity |].
  pose proof (exec_ok CallBack client user_step s1 Hs) as Hk. unfold exec_step in He. rewrite He in Hk. destruct Hk as (Hk & Hmi & _).
  transitivity s2; [| apply IH; [done | by eapply made_steps]].
  destruct (inv_current (devices s1)) as [th Ht]; [apply Hs |]. destruct (code th) as [|i c] eqn:Hc; [| by eapply flows_exec].
  unfold exec in He. rewrite (find_Some _ _ _ Ht) in He. cbn [rbind] in He. by rewrite Hc in He.
Qed.

(** The system at the start. *)
Definition sys_of s : Sys :=
  let k := devices s in
  mkSys (flat ∘ code <$> threads k) (value <$> semaphores k) (locks k) (conditions k) (env k) (callOnInterrupt <$> pending (interrupt s)).

Lemma booted_shows s : booted s → shows s (sys_of s).
Proof.
  intros Hb. destruct (boot_threads s Hb) as (th & ins & Hth & _ & Hco & Hins & _).
  assert (∀ t, live (devices s) t = code <$> threads (devices s) !! t) as Hlv by (intros t; unfold live; by rewrite (boot_destroyed s Hb)).
  constructor; try done.
  - intros t. rewrite Hlv. unfold sys_of. cbn. by rewrite lookup_fmap, <- option_fmap_compose.
  - intros w _. cbn. by rewrite lookup_fmap.
  - intros l. cbn. unfold lock_shown. destruct (locks (devices s) !! l) as [h|] eqn:Hl; [| done].
    destruct (boot_locks s Hb l h Hl) as [-> _]. split; [done |]. intros t c. rewrite Hlv, Hth.
    intros (th' & Hx & ->)%fmap_Some. apply lookup_singleton_Some in Hx as [_ <-]. rewrite Hco. by apply static_code.
Qed.
End refinement.
End interleave.

(** C5: threads interleave as the rest of the kernel believes.  Whatever the
    scheduler of thread.cc, scheduler.cc and synch.cc does from the start on,
    with its context switches, ready list, wait queues and preemptions, there
    is a run of threads that take turns at whole operations - [P] only when the
    value is positive, [Acquire] only of a free lock, [Wait] and [Signal] on
    queues - and that run reaches a state which shows the same code in every
    thread, the same values, lock holders, waiting queues, devices and events. *)
Theorem threads_interleave {C X E} CallBack client `{!DeviceLaw CallBack} `{!ClientLaw client} user_step `{!UserLaw user_step}
    (s s' : Sim C (Threads X E)) (Hb : booted s) (Hm : made (devices s)) (Hr : rtc (exec_step CallBack client user_step) s s') :
  ∃ a, rtc (sys_step CallBack client user_step) (sys_of s) a ∧ shows s' a.
Proof.
  exact (flows_run CallBack client user_step s s' (booted_ksim s Hb) Hm Hr (sys_of s) (booted_shows s Hb)).
Qed.

(** The two threads of [SynchProps]' small kernel: the forked one waits for the
    condition, on its own semaphore, and the lock is free again. *)
Lemma threads_interleave_witness : ∃ a, rtc (sys_step demo_device demo_client demo_user) (sys_of (demo_kernel demo_main)) a ∧
  scode a !! 2 = Some [IP (SWait 0); IAcquire 0; IDelete (SWait 0); IRelease 0; IFinish] ∧ scond a !! 0 = Some [SWait 0].
Proof.
  destruct (threads_interleave demo_device demo_client demo_user (demo_kernel demo_main) (demo_at demo_main 12)) as (a & Ha & Hs).
  - apply demo_booted, demo_static.
  - intros l Hl. cbn in *. intros H. apply lookup_singleton_None in H. apply Hl.
    rewrite lookup_insert_ne by done. apply lookup_singleton_ne. congruence.
  - apply demo_reach. vm_compute. reflexivity.
  - exists a. split; [exact Ha |]. split.
    + rewrite (sh_code _ _ Hs 2). vm_compute. reflexivity.
    + rewrite (sh_cond _ _ Hs). vm_compute. reflexivity.
Defined.
