(* ===== verification/Drivers.v ===== *)
(** * Synchronous drivers

    Three drivers have the same form: PutChar of userprog/synchconsole.cc,
    ReadSector and WriteSector of filesys/synchdisk.cc, and Send of
    network/post.cc take a lock, start an asynchronous device, wait on a semaphore
    that the device's interrupt handler raises, and release the lock.  The
    devices accept one request at a time, and say so by an [ASSERT].  This file
    proves, for any such driver in any kernel, that this [ASSERT] cannot fail. *)

From S2P Require Import Prelude Machine Lists Mips HostFile AddrSpace Interrupt Threads.
From S2P Require Import Sched Waiters Wakeups Locks Synch SynchProps Interleave.
Local Open Scope Z_scope.

(** How far a thread is in the driver: outside, about to start the device, about
    to wait for it, about to release the lock. *)
Inductive pos := Outside | Starting | Waiting | Leaving.
#[export] Instance pos_eq_dec : EqDecision pos.
Proof. solve_decision. Defined.

(** [starts]: the calls that start the device; [busy]: the flag it asserts to be
    false; [flagged]: whether starting it sets this flag; [is_dev]: the object
    whose handler it is. *)
Record Driver (C X E : Type) := mkDriver {
  dlock : Z; dsem : Z; starts : X → bool; busy : E → bool; flagged : bool; is_dev : C → bool }.
Arguments dlock {C X E}.
Arguments dsem {C X E}.
Arguments starts {C X E}.
Arguments busy {C X E}.
Arguments flagged {C X E}.
Arguments is_dev {C X E}.

Section driver.
Context {C X E : Type}.
#[local] Abbreviation instr := (instr X).
#[local] Abbreviation Thread := (Thread X).
#[local] Abbreviation Threads := (Threads X E).
#[local] Abbreviation Sim := (Sim C Threads).
#[local] Abbreviation Sys := (Sys (C := C) (X := X) (E := E)).
Implicit Types (k : Threads) (th : Thread) (i : instr) (c ins : list instr) (t : Z) (s : Sim) (r : option pos) (a : Sys).
Variable drv : Driver C X E.

(** What a thread calls. *)
Definition drive (x : X) : list instr :=
  [IAcquire (dlock drv); ICall x; IP (SUser (dsem drv)); IRelease (dlock drv)].

(** ** Where a thread is, read off what it has left to do *)

Definition becomes r (p q : pos) : option pos := if decide (r = Some p) then Some q else None.

(** The position before an instruction, from the position after it.  The lock,
    the semaphore and the starting calls are used by the driver only. *)
Fixpoint before (i : instr) r : option pos :=
  match i with
  | IAcquire l => if decide (l = dlock drv) then becomes r Starting Outside else becomes r Outside Outside
  | ICall x => if starts drv x then becomes r Waiting Starting else becomes r Outside Outside
  | IP w => if decide (w = SUser (dsem drv)) then becomes r Leaving Waiting else becomes r Outside Outside
  | IRelease l => if decide (l = dlock drv) then becomes r Outside Leaving else becomes r Outside Outside
  | IV w | IDelete w => if decide (w = SUser (dsem drv)) then None else becomes r Outside Outside
  | IWait _ l => if decide (l = dlock drv) then None else becomes r Outside Outside
  | IFork body => if decide (foldr before (Some Outside) body = Some Outside) then becomes r Outside Outside else None
  | IYield | ISetLevel _ | IStatus _ | ITick => r
  | _ => becomes r Outside Outside
  end.

Definition parse c : option pos := foldr before (Some Outside) c.

Lemma becomes_Some r p q q' : becomes r p q = Some q' → r = Some p ∧ q' = q.
Proof. unfold becomes. case_decide; [| done]. by intros [= <-]. Qed.

Lemma becomes_outside : becomes (Some Outside) Outside Outside = Some Outside.
Proof. done. Qed.

(** Code that is outside at both ends may come before any code that is. *)
Definition foreign ins : Prop := parse ins = Some Outside.

Lemma parse_app ins c : parse (ins ++ c) = foldr before (parse c) ins.
Proof. unfold parse. apply foldr_app. Qed.

Lemma foreign_app ins c : foreign ins → parse c = Some Outside → parse (ins ++ c) = Some Outside.
Proof. unfold foreign. intros Hi Hc. rewrite parse_app, Hc. exact Hi. Qed.

Lemma foreign_drive x : starts drv x = true → foreign (drive x).
Proof. intros Hx. unfold foreign, parse, drive. cbn. rewrite Hx, !decide_True by done. done. Qed.

Lemma before_flat ins c : Forall static ins → foldr before (parse c) (flat ins) = foldr before (parse c) ins.
Proof.
  induction 1 as [|i ins Hi _ IH]; [done |].
  destruct i as [[]| | | | | | | | | | | | | |[]| | |[]| | | |]; cbn [flat residue app foldr] in *; rewrite ?IH; done.
Qed.

Lemma foreign_flat ins : Forall static ins → foreign ins → foreign (flat ins).
Proof. intros Hs Hf. exact (eq_trans (before_flat ins [] Hs) Hf). Qed.

(** ** The invariant *)

Definition events_of (l : list C) : Z := count (is_dev drv) l.

Lemma events_perm l l' : l ≡ₚ l' → events_of l = events_of l'.
Proof. unfold events_of. induction 1; cbn; lia. Qed.

(** The device: at rest, or with one request, whose interrupt is to come or has
    raised the semaphore. *)
Definition at_rest (b : bool) (v e : Z) : Prop := b = false ∧ v = 0 ∧ e = 0.
Definition at_work (b : bool) (v e : Z) : Prop := b = flagged drv ∧ v = 0 ∧ e = 1 ∨ b = false ∧ v = 1 ∧ e = 0.

Definition at_pos a t (p : pos) : Prop := ∃ c, scode a !! t = Some c ∧ parse c = Some p.

Record driven a : Prop := {
  dr_code : ∀ t c, scode a !! t = Some c → parse c ≠ None;
  dr_holder : ∀ t c p, scode a !! t = Some c → parse c = Some p →
    (p ≠ Outside ↔ slock a !! dlock drv = Some (Some t));
  dr_alive : ∀ t, slock a !! dlock drv = Some (Some t) → is_Some (scode a !! t);
  dr_cond : ∀ cv q w, scond a !! cv = Some q → w ∈ q → ∃ n, w = SWait n;
  dr_device : ∃ v, sval a !! SUser (dsem drv) = Some v ∧
    ((∃ t, at_pos a t Waiting) ∧ at_work (busy drv (senv a)) v (events_of (sevents a)) ∨
     (∀ t, ¬ at_pos a t Waiting) ∧ at_rest (busy drv (senv a)) v (events_of (sevents a))) }.

(** One thread moves from [p] to [q], and takes or leaves the lock accordingly. *)
Lemma driven_move a a' t c c' p q : driven a → scode a !! t = Some c → parse c = Some p → parse c' = Some q →
  (∀ t', scode a' !! t' = if decide (t' = t) then Some c' else scode a !! t') →
  (slock a' !! dlock drv = (if decide (p = Outside) then (if decide (q = Outside) then slock a !! dlock drv else Some (Some t))
     else if decide (q = Outside) then Some None else slock a !! dlock drv)) →
  (p = Outside → q ≠ Outside → slock a !! dlock drv = Some None) →
  (∀ cv q w, scond a' !! cv = Some q → w ∈ q → ∃ n, w = SWait n) →
  (∃ v, sval a' !! SUser (dsem drv) = Some v ∧
     ((q = Waiting ∨ p ≠ Waiting ∧ ∃ t', at_pos a t' Waiting) ∧ at_work (busy drv (senv a')) v (events_of (sevents a')) ∨
      (q ≠ Waiting ∧ (p = Waiting ∨ ∀ t', ¬ at_pos a t' Waiting)) ∧ at_rest (busy drv (senv a')) v (events_of (sevents a')))) →
  driven a'.
Proof.
  intros Ha Hc Hp Hq Hco Hlk Hfree Hcv (v & Hv & Hdev). pose proof (dr_holder a Ha t c p Hc Hp) as Hh.
  constructor; [| | | exact Hcv |].
  - intros t' c0 H0. rewrite Hco in H0. case_decide; [injection H0 as <-; by rewrite Hq | by apply (dr_code a Ha t')].
  - intros t' c0 p' H0 Hp'. rewrite Hco in H0. destruct (decide (t' = t)) as [->|Hne].
    + injection H0 as <-. rewrite Hq in Hp'. injection Hp' as <-. rewrite Hlk.
      destruct (decide (p = Outside)) as [->|Hpo], (decide (q = Outside)) as [->|Hqo]; split; try done; intros; try (by apply Hh).
    + pose proof (dr_holder a Ha t' c0 p' H0 Hp') as Hh'. rewrite Hlk.
      destruct (decide (p = Outside)) as [->|Hpo], (decide (q = Outside)) as [->|Hqo]; try exact Hh'.
      * specialize (Hfree eq_refl Hqo). rewrite Hfree in Hh'. split; [intros Hx; by apply Hh' in Hx | intros [= <-]; done].
      * apply Hh in Hpo. rewrite Hpo in Hh'. split; [intros Hx; apply Hh' in Hx; congruence | done].
  - intros t' Hl. rewrite Hco. destruct (decide (t' = t)); [by exists c' |]. apply (dr_alive a Ha). rewrite Hlk in Hl.
    destruct (decide (p = Outside)), (decide (q = Outside)); congruence.
  - exists v. split; [done |]. destruct Hdev as [[Hw Hs]|[[Hnw Hw] Hs]]; [left | right]; (split; [| done]).
    + destruct Hw as [->|(Hpw & t' & c0 & H0 & Hp0)].
      * exists t, c'. by rewrite Hco, decide_True.
      * exists t', c0. rewrite Hco, decide_False; [done |]. intros ->. rewrite Hc in H0. injection H0 as <-. congruence.
    + intros t' (c0 & H0 & Hp0). rewrite Hco in H0. destruct (decide (t' = t)) as [->|Hne].
      * injection H0 as <-. congruence.
      * destruct Hw as [->|Hw]; [| apply (Hw t'); by exists c0].
        pose proof (proj1 (dr_holder a Ha t' c0 Waiting H0 Hp0) ltac:(done)) as H1.
        pose proof (proj1 Hh ltac:(done)) as H2. congruence.
Qed.

(** ... and stays outside. *)
Lemma driven_stay a a' t c c' : driven a → scode a !! t = Some c → parse c = Some Outside → parse c' = Some Outside →
  (∀ t', scode a' !! t' = if decide (t' = t) then Some c' else scode a !! t') →
  slock a' !! dlock drv = slock a !! dlock drv →
  (∀ cv q w, scond a' !! cv = Some q → w ∈ q → ∃ n, w = SWait n) →
  sval a' !! SUser (dsem drv) = sval a !! SUser (dsem drv) →
  busy drv (senv a') = busy drv (senv a) → events_of (sevents a') = events_of (sevents a) → driven a'.
Proof.
  intros Ha Hc Hp Hq Hco Hlk Hcv Hv Hb He. apply (driven_move a a' t c c' Outside Outside); try done.
  destruct (dr_device a Ha) as (v & Hv' & Hd). exists v. rewrite Hv, Hb, He. split; [done |].
  destruct Hd as [[Hw ?]|[Hw ?]]; [left | right]; (split; [| done]); [by right | split; [done | by right]].
Qed.

(** Threads come and go. *)
Lemma driven_new a t c : driven a → scode a !! t = None → parse c = Some Outside → driven (go a t c).
Proof.
  intros Ha Hn Hp. constructor.
  - intros t' c0. cbn. destruct (decide (t' = t)) as [->|Hne].
    + rewrite lookup_insert_eq. intros [= <-]. congruence.
    + rewrite lookup_insert_ne by done. apply (dr_code a Ha).
  - intros t' c0 p. cbn. destruct (decide (t' = t)) as [->|Hne].
    + rewrite lookup_insert_eq. intros [= <-] Hp'. rewrite Hp in Hp'. injection Hp' as <-. split; [done |].
      intros Hl. destruct (dr_alive a Ha t Hl) as [? ?]. congruence.
    + rewrite lookup_insert_ne by done. apply (dr_holder a Ha).
  - intros t' Hl. cbn. destruct (decide (t' = t)) as [->|Hne]; [rewrite lookup_insert_eq; by eexists |].
    rewrite lookup_insert_ne by done. by apply (dr_alive a Ha).
  - apply (dr_cond a Ha).
  - destruct (dr_device a Ha) as (v & Hv & Hd). exists v. split; [exact Hv |].
    assert (∀ t', at_pos (go a t c) t' Waiting ↔ at_pos a t' Waiting) as Heq.
    { intros t'. unfold at_pos. cbn. destruct (decide (t' = t)) as [->|Hne]; [rewrite lookup_insert_eq | by rewrite lookup_insert_ne].
      rewrite Hn. split; [intros (c0 & [= <-] & ?); congruence | by intros (? & ? & _)]. }
    by setoid_rewrite Heq.
Qed.

Lemma driven_gone a t c : driven a → scode a !! t = Some c → parse c = Some Outside → driven (with_scode a (delete t (scode a))).
Proof.
  intros Ha Hc Hp. constructor.
  - intros t' c0. cbn. intros [_ H0]%lookup_delete_Some. by apply (dr_code a Ha t').
  - intros t' c0 p. cbn. intros [_ H0]%lookup_delete_Some. by apply (dr_holder a Ha).
  - intros t' Hl. cbn. destruct (decide (t' = t)) as [->|Hne]; [| rewrite lookup_delete_ne by done; by apply (dr_alive a Ha)].
    by apply (dr_holder a Ha t c Outside Hc Hp) in Hl.
  - apply (dr_cond a Ha).
  - destruct (dr_device a Ha) as (v & Hv & Hd). exists v. split; [exact Hv |].
    assert (∀ t', at_pos (with_scode a (delete t (scode a))) t' Waiting ↔ at_pos a t' Waiting) as Heq.
    { intros t'. unfold at_pos. cbn. destruct (decide (t' = t)) as [->|Hne]; [rewrite lookup_delete_eq | by rewrite lookup_delete_ne].
      split; [by intros (? & ? & _) | intros (c0 & H0 & Hp0); congruence]. }
    by setoid_rewrite Heq.
Qed.

(** ** The contract of the device, the driver and the rest of the kernel *)

Definition dev_events s : Z := events_of (callOnInterrupt <$> pending (interrupt s)).
Definition dev_busy s : bool := busy drv (env (devices s)).
Definition dev_value s : option Z := value <$> semaphores (devices s) !! SUser (dsem drv).

Lemma dev_events_filter (P : C → Prop) `{∀ d, Decision (P d)} s : (∀ d, is_dev drv d = true ↔ P d) →
  dev_events s = Z.of_nat (length (filter (λ p, P (callOnInterrupt p)) (pending (interrupt s)))).
Proof.
  intros HP. unfold dev_events, events_of. induction (pending (interrupt s)) as [|p l IH]; [done |]. rewrite fmap_cons, filter_cons. cbn [count].
  rewrite IH. specialize (HP (callOnInterrupt p)). case_decide as Hp.
  - rewrite (proj2 HP Hp). cbn [length]. lia.
  - destruct (is_dev drv (callOnInterrupt p)); [by destruct Hp; apply HP | done].
Qed.

(** What scheduling an interrupt and a [V] in a handler do to the device. *)
Lemma Schedule_device s d t ty s' : Schedule s d t ty = Ok s' →
  dev_events s' = dev_events s + (if is_dev drv d then 1 else 0) ∧ devices s' = devices s.
Proof.
  unfold Schedule. intros (w & _ & (u & _ & [= <-])%bind_Ok)%bind_Ok. split; [| done].
  transitivity (events_of (callOnInterrupt <$> (mkPending d w ty :: pending (interrupt s)))).
  - apply events_perm, fmap_Permutation, sinsert_perm.
  - rewrite fmap_cons. unfold dev_events, events_of. cbn [count callOnInterrupt]. lia.
Qed.

Lemma wake_device s n s' : lift s (wake (devices s) (SUser n)) = Ok s' →
  env (devices s') = env (devices s) ∧ dev_events s' = dev_events s ∧
  dev_value s' = (if decide (n = dsem drv) then (λ v, v + 1) <$> dev_value s else dev_value s).
Proof.
  unfold lift. intros (k & Hk & [= <-])%bind_Ok. unfold dev_value, dev_events. cbn.
  destruct (wake_threads _ _ _ Hk) as (_ & _ & _ & _ & _ & He & _ & _ & _ & Ho). split; [done |]. split; [done |].
  case_decide as Hn; [| by rewrite Ho by congruence]. subst n. apply wake_Ok in Hk as (se & Hs & _ & Hq). rewrite Hs. cbn.
  destruct (queue se) as [|t q]; [subst k | destruct Hq as (th & _ & _ & ->)]; cbn; by rewrite lookup_insert_eq.
Qed.

(** [good]: what the rest of the kernel knows of its own state. *)
Class DriverLaw (good : E → Prop) (CallBack : C → Sim → result Sim) (client : X → Sim → result (list instr * Sim))
    (user_step : Machine → result (list instr * Machine)) : Prop := {
  drv_handler : ∀ d s s', level (interrupt s) = IntOff → inHandler (interrupt s) = true → CallBack d s = Ok s' →
    good (env (devices s)) → good (env (devices s')) ∧ dev_events s' = dev_events s ∧
    if is_dev drv d then dev_busy s' = false ∧ dev_value s' = (λ v, v + 1) <$> dev_value s
    else dev_busy s' = dev_busy s ∧ dev_value s' = dev_value s;
  drv_client : ∀ x s ins s', settled s → good (env (devices s)) → is_Some (dev_value s) → client x s = Ok (ins, s') →
    good (env (devices s')) ∧
    if starts drv x then dev_busy s = false ∧ dev_busy s' = flagged drv ∧ dev_events s' = dev_events s + 1 ∧ ins = []
    else dev_busy s' = dev_busy s ∧ dev_events s' = dev_events s ∧ foreign ins;
  drv_user : ∀ m ins m', machine_typed m → user_step m = Ok (ins, m') → foreign ins }.

Section law.
Context (CallBack : C → Sim → result Sim) `{!DeviceLaw CallBack} (client : X → Sim → result (list instr * Sim)) `{!ClientLaw client}.
Context (user_step : Machine → result (list instr * Machine)) `{!UserLaw user_step}.
Context (good : E → Prop) `{!DriverLaw good CallBack client user_step}.
#[local] Abbreviation step := (sys_step CallBack client user_step).

Lemma shown_busy s a : shows s a → dev_busy s = busy drv (senv a).
Proof. intros Ha. unfold dev_busy. by rewrite (sh_env s a Ha). Qed.

Lemma shown_value s a : shows s a → dev_value s = sval a !! SUser (dsem drv).
Proof. intros Ha. unfold dev_value. by rewrite (sh_val s a Ha). Qed.

Lemma shown_events s a : shows s a → dev_events s = events_of (sevents a).
Proof. intros Ha. unfold dev_events. symmetry. apply events_perm, Ha. Qed.

Lemma lookup_go a t c t' : scode (go a t c) !! t' = if decide (t' = t) then Some c else scode a !! t'.
Proof. cbn. case_decide; [subst; by rewrite lookup_insert_eq | by rewrite lookup_insert_ne]. Qed.

(** What a thread that does not use the driver leaves. *)
Lemma outside_two a t i c : driven a → scode a !! t = Some (i :: c) → before i (parse c) = becomes (parse c) Outside Outside →
  parse (i :: c) = Some Outside ∧ parse c = Some Outside.
Proof.
  intros Ha Hc Hi. pose proof (dr_code a Ha t _ Hc) as Hp. unfold parse in Hp |- *. cbn [foldr] in *. fold (parse c) in *.
  rewrite Hi in *. destruct (becomes (parse c) Outside Outside) as [p|] eqn:Hb; [| done]. by apply becomes_Some in Hb as [-> ->].
Qed.

(** What a thread in the driver leaves. *)
Lemma inside_two a t i c p q : driven a → scode a !! t = Some (i :: c) → before i (parse c) = becomes (parse c) p q →
  parse (i :: c) = Some q ∧ parse c = Some p.
Proof.
  intros Ha Hc Hi. pose proof (dr_code a Ha t _ Hc) as Hp. unfold parse in Hp |- *. cbn [foldr] in *. fold (parse c) in *.
  rewrite Hi in *. destruct (becomes (parse c) p q) as [x|] eqn:Hb; [| done]. by apply becomes_Some in Hb as [-> ->].
Qed.

Lemma never a t i c : driven a → scode a !! t = Some (i :: c) → before i (parse c) = None → False.
Proof. intros Ha Hc Hi. apply (dr_code a Ha t _ Hc). exact Hi. Qed.

Lemma device_waiting a t c : driven a → scode a !! t = Some c → parse c = Some Waiting →
  ∃ v, sval a !! SUser (dsem drv) = Some v ∧ at_work (busy drv (senv a)) v (events_of (sevents a)).
Proof.
  intros Ha Hc Hp. destruct (dr_device a Ha) as (v & Hv & [[_ Hw]|[Hn _]]); [by exists v |]. exfalso. apply (Hn t). by exists c.
Qed.

(** Only the thread that has the lock can wait for the device. *)
Lemma device_resting a : driven a → (∀ t c, slock a !! dlock drv = Some (Some t) → scode a !! t = Some c → parse c ≠ Some Waiting) →
  ∃ v, sval a !! SUser (dsem drv) = Some v ∧ at_rest (busy drv (senv a)) v (events_of (sevents a)) ∧ ∀ t, ¬ at_pos a t Waiting.
Proof.
  intros Ha Hn. destruct (dr_device a Ha) as (v & Hv & [[(t & c & Hc & Hp) _]|[Hw Hr]]); [| by exists v].
  exfalso. by apply (Hn t c); [apply (dr_holder a Ha t c _ Hc Hp) | |].
Qed.

Lemma driven_P a t w c v : driven a → scode a !! t = Some (IP w :: c) → sval a !! w = Some v → v ≠ 0 →
  driven (add_value (go a t c) w (-1)).
Proof.
  intros Ha Hc Hw Hv. destruct (decide (w = SUser (dsem drv))) as [->|Hne].
  - destruct (inside_two a t _ c Leaving Waiting Ha Hc) as [H1 H2]; [cbn; by rewrite decide_True |].
    destruct (device_waiting a t _ Ha Hc H1) as (v' & Hv' & Hwork). rewrite Hw in Hv'. injection Hv' as <-.
    destruct Hwork as [(_ & ? & _)|(Hb & -> & He)]; [done |].
    apply (driven_move a _ t _ c Waiting Leaving Ha Hc H1 H2); [exact (lookup_go a t c) | done | done | apply Ha |].
    exists 0. cbn. rewrite lookup_alter_eq, Hw. split; [done |]. right. split; [by split; [| left] | done].
  - destruct (outside_two a t _ c Ha Hc) as [H1 H2]; [cbn; by rewrite decide_False |].
    apply (driven_stay a _ t _ c Ha Hc H1 H2); [exact (lookup_go a t c) | done | apply Ha | cbn; by rewrite lookup_alter_ne | done..].
Qed.

Lemma driven_acquire a t l c : driven a → scode a !! t = Some (IAcquire l :: c) → slock a !! l = Some None →
  driven (with_slock (go a t c) (<[l := Some t]> (slock a))).
Proof.
  intros Ha Hc Hl. destruct (decide (l = dlock drv)) as [->|Hne].
  - destruct (inside_two a t _ c Starting Outside Ha Hc) as [H1 H2]; [cbn; by rewrite decide_True |].
    apply (driven_move a _ t _ c Outside Starting Ha Hc H1 H2); [exact (lookup_go a t c) | cbn; by rewrite lookup_insert_eq | done | apply Ha |].
    destruct (device_resting a Ha) as (v & Hv & Hr & Hn); [intros t' c' Hl'; congruence |].
    exists v. split; [exact Hv |]. right. split; [by split; [| right] | exact Hr].
  - destruct (outside_two a t _ c Ha Hc) as [H1 H2]; [cbn; by rewrite decide_False |].
    apply (driven_stay a _ t _ c Ha Hc H1 H2); [exact (lookup_go a t c) | cbn; by rewrite lookup_insert_ne | apply Ha | done..].
Qed.

Lemma driven_release a t l c : driven a → scode a !! t = Some (IRelease l :: c) → slock a !! l = Some (Some t) →
  driven (with_slock (go a t c) (<[l := None]> (slock a))).
Proof.
  intros Ha Hc Hl. destruct (decide (l = dlock drv)) as [->|Hne].
  - destruct (inside_two a t _ c Outside Leaving Ha Hc) as [H1 H2]; [cbn; by rewrite decide_True |].
    apply (driven_move a _ t _ c Leaving Outside Ha Hc H1 H2); [exact (lookup_go a t c) | cbn; by rewrite lookup_insert_eq | done | apply Ha |].
    destruct (device_resting a Ha) as (v & Hv & Hr & Hn).
    { intros t' c' Hl' Hc'. assert (t' = t) as -> by congruence. assert (c' = IRelease (dlock drv) :: c) as -> by congruence. by rewrite H1. }
    exists v. split; [exact Hv |]. right. split; [by split; [| right] | exact Hr].
  - destruct (outside_two a t _ c Ha Hc) as [H1 H2]; [cbn; by rewrite decide_False |].
    apply (driven_stay a _ t _ c Ha Hc H1 H2); [exact (lookup_go a t c) | cbn; by rewrite lookup_insert_ne | apply Ha | done..].
Qed.

Lemma driven_wait a t cv l c q n : driven a → scode a !! t = Some (IWait cv l :: c) → scond a !! cv = Some q →
  driven (with_scond (with_sval (go a t ([IRelease l; IP (SWait n); IAcquire l; IDelete (SWait n)] ++ c))
    (<[SWait n := 0]> (sval a))) (<[cv := q ++ [SWait n]]> (scond a))).
Proof.
  intros Ha Hc Hq. destruct (decide (l = dlock drv)) as [->|Hne]; [exfalso; eapply (never a t _ c Ha Hc); cbn; by rewrite decide_True |].
  destruct (outside_two a t _ c Ha Hc) as [H1 H2]; [cbn; by rewrite decide_False |].
  eapply (driven_stay a _ t _ _ Ha Hc H1); [| exact (lookup_go a t _) | done | | cbn; by rewrite lookup_insert_ne | done..].
  - apply foreign_app; [| done]. unfold foreign, parse. cbn. by rewrite !(decide_False (P := l = dlock drv)) by done.
  - intros cv' q' w. cbn. destruct (decide (cv' = cv)) as [->|Hcv]; [rewrite lookup_insert_eq | rewrite lookup_insert_ne by done; apply (dr_cond a Ha)].
    intros [= <-] [Hw|Hw]%elem_of_app; [by apply (dr_cond a Ha cv q) |]. apply list_elem_of_singleton in Hw. by exists n.
Qed.

Lemma driven_signal a t cv l c w q : driven a → scode a !! t = Some (ISignal cv l :: c) → scond a !! cv = Some (w :: q) →
  driven (with_scond (add_value (go a t c) w 1) (<[cv := q]> (scond a))).
Proof.
  intros Ha Hc Hq. destruct (outside_two a t _ c Ha Hc eq_refl) as [H1 H2].
  destruct (dr_cond a Ha cv _ w Hq) as [n ->]; [by left |].
  apply (driven_stay a _ t _ _ Ha Hc H1 H2); [exact (lookup_go a t _) | done | | cbn; by rewrite lookup_alter_ne | done..].
  intros cv' q' w. cbn. destruct (decide (cv' = cv)) as [->|Hcv]; [rewrite lookup_insert_eq | rewrite lookup_insert_ne by done; apply (dr_cond a Ha)].
  intros [= <-] Hw. apply (dr_cond a Ha cv (SWait n :: q) w Hq). by right.
Qed.

(** Only a thread's own code changes, and it stays outside. *)
Lemma driven_code a t i c c' : driven a → scode a !! t = Some (i :: c) →
  before i (parse c) = becomes (parse c) Outside Outside → (parse c = Some Outside → parse c' = Some Outside) → driven (go a t c').
Proof.
  intros Ha Hc Hi Hc'. destruct (outside_two a t _ c Ha Hc Hi) as [H1 H2].
  by apply (driven_stay a _ t _ _ Ha Hc H1 (Hc' H2)); [exact (lookup_go a t _) | done | apply Ha | ..].
Qed.

Lemma driven_fork a t body c t' : Forall static body → driven a → scode a !! t = Some (IFork body :: c) → scode a !! t' = None →
  driven (go (go a t c) t' (flat (body ++ [IFinish]))).
Proof.
  intros Hst Ha Hc Hn. destruct (decide (foldr before (Some Outside) body = Some Outside)) as [Hb|Hb];
    [| exfalso; eapply (never a t _ c Ha Hc); cbn; by rewrite decide_False].
  apply driven_new; [eapply (driven_code a t _ c c Ha Hc); [cbn; by rewrite decide_True | done] | |].
  - rewrite lookup_go. case_decide; [congruence | done].
  - apply foreign_flat; [apply Forall_app; by split; [| repeat constructor] |]. by apply foreign_app.
Qed.

Lemma driven_call a t x c ins s s' a' : driven a → good (senv a) → scode a !! t = Some (ICall x :: c) → settled s → shows s (go a t c) →
  client x s = Ok (ins, s') → shows s' a' → scode a' = <[t := c]> (scode a) → slock a' = slock a → scond a' = scond a →
  driven (go a' t (flat ins ++ c)) ∧ good (senv a').
Proof.
  intros Ha Hg0 Hc Hs Hsh Hx Hsh' Hco Hlk Hcv.
  destruct (client_law x s ins s' Hs Hx) as (Hst & _ & m & e & [Hg _] & Hd).
  change (senv a) with (senv (go a t c)) in Hg0. rewrite (sh_env s _ Hsh) in Hg0.
  assert (is_Some (dev_value s)) as Hsome.
  { rewrite (shown_value s _ Hsh). destruct (dr_device a Ha) as (v & Hv & _). by exists v. }
  pose proof (drv_client (user_step := user_step) x s ins s' Hs Hg0 Hsome Hx) as [Hgood Hl].
  split; [| by rewrite (sh_env s' _ Hsh')].
  rewrite (shown_busy s _ Hsh), (shown_busy s' _ Hsh'), (shown_events s _ Hsh), (shown_events s' _ Hsh') in Hl.
  assert (sval a' !! SUser (dsem drv) = sval a !! SUser (dsem drv)) as Hv.
  { destruct (dr_device a Ha) as (v & Hv & _). rewrite Hv. rewrite <- (shown_value s' _ Hsh').
    change (sval a !! SUser (dsem drv)) with (sval (go a t c) !! SUser (dsem drv)) in Hv. rewrite <- (shown_value s _ Hsh) in Hv.
    unfold dev_value in *. rewrite Hd. cbn. apply fmap_Some in Hv as (sem & Hv & ->). by rewrite (Hg _ _ Hv). }
  assert (∀ c1 t', scode (go a' t c1) !! t' = if decide (t' = t) then Some c1 else scode a !! t') as Hgo.
  { intros c1 t'. rewrite lookup_go, Hco. case_decide; [done | by rewrite lookup_insert_ne]. }
  destruct (starts drv x) eqn:Hx0.
  - destruct Hl as (Hb & Hb' & He & ->). cbn [flat app].
    destruct (inside_two a t _ c Waiting Starting Ha Hc) as [H1 H2]; [cbn; by rewrite Hx0 |].
    apply (driven_move a _ t _ c Starting Waiting Ha Hc H1 H2); [exact (Hgo c) | cbn; by rewrite Hlk | done | cbn; rewrite Hcv; apply Ha |].
    destruct (device_resting a Ha) as (v & Hv' & (_ & -> & He0) & Hn).
    { intros t' c' Hl' Hc'. pose proof (proj1 (dr_holder a Ha t _ _ Hc H1) ltac:(done)) as Ht.
      assert (t' = t) as -> by congruence. assert (c' = ICall x :: c) as -> by congruence. by rewrite H1. }
    exists 0. split; [cbn; congruence |]. left. split; [by left |]. left. cbn in *. split; [done |]. split; [done |]. unfold events_of in *. cbn in *. lia.
  - destruct Hl as (Hb & He & Hf). destruct (outside_two a t _ c Ha Hc) as [H1 H2]; [cbn; by rewrite Hx0 |].
    eapply (driven_stay a _ t _ _ Ha Hc H1); [apply foreign_app; [by apply foreign_flat | done] | exact (Hgo _) | | | | |]; cbn; try done.
    + by rewrite Hlk.
    + rewrite Hcv. apply Ha.
Qed.

Lemma driven_interrupt a d ev s s' a' : driven a → good (senv a) → sevents a ≡ₚ d :: ev → level (interrupt s) = IntOff → inHandler (interrupt s) = true →
  shows s (with_sevents a ev) → CallBack d s = Ok s' → shows s' a' →
  scode a' = scode a → slock a' = slock a → scond a' = scond a → driven a' ∧ good (senv a').
Proof.
  intros Ha Hg0 Hev Hl Hi Hsh Hx Hsh' Hco Hlk Hcv.
  change (senv a) with (senv (with_sevents a ev)) in Hg0. rewrite (sh_env s _ Hsh) in Hg0.
  destruct (drv_handler (client := client) (user_step := user_step) d s s' Hl Hi Hx Hg0) as (Hgood & He & Hd).
  split; [| by rewrite (sh_env s' _ Hsh')].
  rewrite (shown_busy s _ Hsh), (shown_busy s' _ Hsh'), (shown_value s _ Hsh), (shown_value s' _ Hsh') in Hd.
  rewrite (shown_events s _ Hsh), (shown_events s' _ Hsh') in He. pose proof (events_perm _ _ Hev) as Hev'. cbn in *.
  assert (∀ t p, at_pos a' t p ↔ at_pos a t p) as Hat by (intros t p; unfold at_pos; by rewrite Hco).
  constructor; [rewrite Hco; apply Ha | rewrite Hco, Hlk; apply Ha | rewrite Hco, Hlk; apply Ha | rewrite Hcv; apply Ha |].
  unfold events_of in *. cbn in Hev'. setoid_rewrite Hat. destruct (dr_device a Ha) as (v & Hv & Hdev). unfold events_of in Hdev.
  destruct (is_dev drv d); destruct Hd as [Hb Hv'].
  - pose proof (count_nonneg (is_dev drv) ev). exists (v + 1). rewrite Hv', Hv, Hb. split; [done |].
    destruct Hdev as [[Hw [(_ & -> & H1)|(_ & _ & H1)]]|[_ (_ & _ & H1)]]; [left | lia | lia].
    split; [done |]. right. split; [done |]. split; lia.
  - exists v. rewrite Hv', Hb, He. rewrite Hev' in Hdev. split; [done |]. by rewrite Z.add_0_l in Hdev.
Qed.

Lemma driven_step a a' : driven a ∧ good (senv a) → step a a' → driven a' ∧ good (senv a').
Proof.
  intros [Ha Hg] Hst. destruct Hst as [a t w c v Hc Hw Hv|a t w c v Hc Hw|a t l c Hc Hl|a t l c Hc Hl|a t cv l c q n Hc Hl Hq _ _
    |a t cv l c Hc Hl Hq|a t cv l c w q Hc Hl Hq|a t cv l c q Hc Hq|a t w c Hc Hw|a t body c t' Hc Hb Hn|a t c Hc|a t Hc|a t sp c Hc
    |a t c ins m m' Hc Hm Hu|a t x c ins s s' a' Hc Hs Hcur Hsh Hx Hsh' Hco Hlk Hcv|a d ev s s' a' Hev Hl Hi Hsh Hx Hsh' Hco Hlk Hcv].
  - split; [| exact Hg]. by eapply driven_P.
  - split; [| exact Hg]. destruct (decide (w = SUser (dsem drv))) as [->|Hne]; [exfalso; eapply (never a t _ c Ha Hc); cbn; by rewrite decide_True |].
    destruct (outside_two a t _ c Ha Hc) as [H1 H2]; [cbn; by rewrite decide_False |].
    by apply (driven_stay a _ t _ _ Ha Hc H1 H2); [exact (lookup_go a t _) | done | apply Ha | cbn; by rewrite lookup_alter_ne | ..].
  - split; [| exact Hg]. by apply driven_acquire.
  - split; [| exact Hg]. by apply driven_release.
  - split; [| exact Hg]. by eapply driven_wait.
  - split; [| exact Hg]. by eapply (driven_code a t _ c c).
  - split; [| exact Hg]. by eapply driven_signal.
  - split; [| exact Hg]. eapply (driven_code a t _ c _ Ha Hc eq_refl). intros Hp. by destruct q; [| apply foreign_app].
  - split; [| exact Hg]. destruct (decide (w = SUser (dsem drv))) as [->|Hne]; [exfalso; eapply (never a t _ c Ha Hc); cbn; by rewrite decide_True |].
    destruct (outside_two a t _ c Ha Hc) as [H1 H2]; [cbn; by rewrite decide_False |].
    by apply (driven_stay a _ t _ _ Ha Hc H1 H2); [exact (lookup_go a t _) | done | apply Ha | cbn; by rewrite lookup_delete_ne | ..].
  - split; [| exact Hg]. by eapply driven_fork.
  - split; [| exact Hg]. by eapply (driven_code a t _ c []).
  - split; [| exact Hg]. by eapply driven_gone.
  - split; [| exact Hg]. eapply (driven_code a t _ c _ Ha Hc eq_refl). intros Hp. unfold parse in *. cbn. by rewrite Hp.
  - split; [| exact Hg]. eapply (driven_code a t _ c _ Ha Hc eq_refl). intros Hp. destruct (user_regs m ins m' Hm Hu) as [_ Hst].
    apply foreign_app; [by apply foreign_flat, (drv_user (CallBack := CallBack) (client := client) m ins m' Hm Hu) |].
    unfold parse in *. cbn. by rewrite Hp.
  - exact (driven_call a t x c ins s s' a' Ha Hg Hc Hs Hsh Hx Hsh' Hco Hlk Hcv).
  - exact (driven_interrupt a d ev s s' a' Ha Hg Hev Hl Hi Hsh Hx Hsh' Hco Hlk Hcv).
Qed.

Lemma driven_steps a a' : driven a ∧ good (senv a) → rtc step a a' → driven a' ∧ good (senv a').
Proof. intros Ha Hr. induction Hr as [a|a1 a2 a3 Hst _ IH]; [done |]. apply IH. by eapply driven_step. Qed.

(** Nobody has used the driver yet. *)
Record unused s : Prop := {
  un_code : ∀ t th, threads (devices s) !! t = Some th → Forall static (code th) ∧ foreign (code th);
  un_lock : locks (devices s) !! dlock drv = Some None;
  un_value : dev_value s = Some 0;
  un_good : good (env (devices s));
  un_busy : dev_busy s = false;
  un_events : dev_events s = 0 }.

Lemma unused_driven s : booted s → unused s → driven (sys_of s).
Proof.
  intros Hb [Hc Hl Hv _ Hbu He].
  assert (∀ t c, scode (sys_of s) !! t = Some c → parse c = Some Outside) as Hall.
  { intros t c. cbn. rewrite lookup_fmap. intros (th & Ht & ->)%fmap_Some. destruct (Hc t th Ht). by apply foreign_flat. }
  constructor.
  - intros t c H. by rewrite (Hall t c H).
  - intros t c p H Hp. rewrite (Hall t c H) in Hp. injection Hp as <-. split; [done |]. cbn. rewrite Hl. done.
  - intros t. cbn. rewrite Hl. done.
  - intros cv q w Hq. cbn in Hq. rewrite (boot_conditions s Hb cv q Hq). by intros ?%elem_of_nil.
  - exists 0. split; [cbn; rewrite lookup_fmap; exact Hv |]. right. split; [| done].
    intros t (c & H & Hp). rewrite (Hall t c H) in Hp. done.
Qed.

(** What it guarantees in every reachable state. *)
Lemma driven_run s s' : booted s → made (devices s) → unused s → rtc (exec_step CallBack client user_step) s s' →
  ∃ a, driven a ∧ shows s' a ∧ good (env (devices s')).
Proof.
  intros Hb Hm Hu Hr. destruct (flows_run CallBack client user_step s s' (booted_ksim s Hb) Hm Hr (sys_of s) (booted_shows s Hb)) as (a & Ha & Hsh).
  exists a. rewrite <- (sh_env s' a Hsh). assert (driven (sys_of s) ∧ good (senv (sys_of s))) as H0 by (split; [by apply unused_driven | apply Hu]).
  by destruct (driven_steps _ _ H0 Ha).
Qed.

Lemma device_free s a t x c : driven a → shows s a → live (devices s) t = Some c → (∃ c', flat c = ICall x :: c') → starts drv x = true →
  dev_busy s = false ∧ dev_events s = 0.
Proof.
  intros Ha Hsh Hc [c' Hx] Hst. rewrite (shown_busy s a Hsh), (shown_events s a Hsh).
  assert (scode a !! t = Some (ICall x :: c')) as H by (rewrite (sh_code s a Hsh), Hc; cbn; by rewrite Hx).
  destruct (inside_two a t _ c' Waiting Starting Ha H) as [H1 H2]; [cbn; by rewrite Hst |].
  destruct (device_resting a Ha) as (v & _ & (Hb & _ & He) & _); [| done].
  intros t' c0 Hl' Hc0. pose proof (proj1 (dr_holder a Ha t _ _ H H1) ltac:(done)) as Ht.
  assert (t' = t) as -> by congruence. rewrite H in Hc0. injection Hc0 as <-. by rewrite H1.
Qed.

Lemma device_pending s a : driven a → shows s a → 0 <= dev_events s <= 1 ∧ (flagged drv = true → dev_events s = if dev_busy s then 1 else 0).
Proof.
  intros Ha Hsh. rewrite (shown_busy s a Hsh), (shown_events s a Hsh).
  destruct (dr_device a Ha) as (v & _ & [[_ [(-> & _ & ->)|(-> & _ & ->)]]|[_ (-> & _ & ->)]]); split; try done. by intros ->.
Qed.
End law.
End driver.

(** A synchronous driver never disturbs its device.  Take any kernel whose
    threads use a device only through lock, start, wait and release, and whose
    interrupt handler for it resets the busy flag and raises the semaphore.
    However the threads are scheduled, preempted and interrupted: a
    thread that is about to start the device finds it idle, with no interrupt to
    come, so that the device's assertion cannot fail; there is never more than
    one interrupt of the device to come, and a flag that the device has is set
    exactly while there is one. *)
Theorem device_never_disturbed {C X E} (drv : Driver C X E) CallBack `{!DeviceLaw CallBack} client `{!ClientLaw client}
    user_step `{!UserLaw user_step} good `{!DriverLaw drv good CallBack client user_step} s s'
    (Hb : booted s) (Hm : made (devices s)) (Hu : unused drv good s) (Hr : rtc (exec_step CallBack client user_step) s s') :
  (∀ th x c, threads (devices s') !! currentThread (devices s') = Some th → code th = ICall x :: c → starts drv x = true →
     dev_busy drv s' = false ∧ dev_events drv s' = 0) ∧
  0 <= dev_events drv s' <= 1 ∧ (flagged drv = true → dev_events drv s' = if dev_busy drv s' then 1 else 0).
Proof.
  destruct (driven_run drv CallBack client user_step good s s' Hb Hm Hu Hr) as (a & Ha & Hsh & _).
  split; [| by eapply device_pending]. intros th x c Ht Hc Hx.
  pose proof (booted_run CallBack client user_step s s' Hb Hr) as (_ & (Hsi & _) & _).
  eapply (device_free drv s' a (currentThread (devices s')) x (code th) Ha Hsh); [| | exact Hx].
  - unfold live. rewrite decide_False; [by rewrite Ht |]. intros Hd. by destruct (inv_destroyed _ Hsi _ Hd) as [? _].
  - rewrite Hc. by exists (flat c).
Qed.
