(* ===== verification/Calls.v ===== *)
(** * Invariants of a kernel's own state

    A kernel whose threads make only calls of a kind [ok], all of which keep a
    property [good] of its state, has this property in every state it reaches,
    however its threads interleave ([calls_hold]).  The scheduler, the locks and
    the semaphores do not appear: [Interleave] takes care of them. *)

From S2P Require Import Prelude Machine Lists Mips HostFile AddrSpace Interrupt Threads.
From S2P Require Import Sched Waiters Wakeups Locks Synch SynchProps Interleave.
Local Open Scope Z_scope.

Section calls.
Context {C X E : Type}.
#[local] Abbreviation instr := (instr X).
#[local] Abbreviation Sim := (Sim C (Threads X E)).
#[local] Abbreviation Sys := (Sys (C := C) (X := X) (E := E)).
Implicit Types (i : instr) (c ins : list instr) (t : Z) (s : Sim) (a : Sys).
Variable ok : X → bool.
Variable good : E → Prop.

(** The calls that an instruction makes or brings about. *)
Fixpoint calls_ok (i : instr) : bool :=
  match i with
  | ICall x => ok x
  | IFork body => forallb calls_ok body
  | _ => true
  end.

#[local] Abbreviation all_ok := (Forall (λ i, calls_ok i = true)).

Lemma all_ok_flat ins : Forall static ins → all_ok ins → all_ok (flat ins).
Proof.
  intros Hs Hc. induction Hs as [|i ins Hi _ IH]; [done |]. apply Forall_cons in Hc as [H1 H2]. specialize (IH H2).
  destruct i as [[]| | | | | | | | | | | | | |[]| | |[]| | | |]; cbn in *; try done; by constructor.
Qed.

Lemma all_ok_body body : forallb calls_ok body = true → all_ok body.
Proof. intros H%Is_true_eq_left. rewrite forallb_True in H. eapply Forall_impl; [exact H |]. intros i Hi. by apply Is_true_eq_true. Qed.

Context (CallBack : C → Sim → result Sim) `{!DeviceLaw CallBack} (client : X → Sim → result (list instr * Sim)) `{!ClientLaw client}.
Context (user_step : Machine → result (list instr * Machine)) `{!UserLaw user_step}.
Hypothesis client_good : ∀ x s ins s', client x s = Ok (ins, s') → ok x = true → good (env (devices s)) →
  all_ok ins ∧ good (env (devices s')).
Hypothesis handler_good : ∀ d s s', CallBack d s = Ok s' → good (env (devices s)) → good (env (devices s')).
Hypothesis user_ok : ∀ m ins m', user_step m = Ok (ins, m') → all_ok ins.
#[local] Abbreviation step := (sys_step CallBack client user_step).

Definition orderly a : Prop := (∀ t c, scode a !! t = Some c → all_ok c) ∧ good (senv a).

(** One thread goes on. *)
Lemma orderly_go a a' t i c c' : orderly a → scode a !! t = Some (i :: c) → (calls_ok i = true → all_ok c → all_ok c' ∧ good (senv a')) →
  (∀ t', scode a' !! t' = if decide (t' = t) then Some c' else scode a !! t') → orderly a'.
Proof.
  intros [H1 H2] Hc Hc' Ha. pose proof (H1 t _ Hc) as [Hi Hci]%Forall_cons. destruct (Hc' Hi Hci) as [H3 H4]. split; [| exact H4].
  intros t' c0. rewrite Ha. case_decide; [by intros [= <-] | by apply H1].
Qed.

Lemma looked_up a t c t' : scode (go a t c) !! t' = if decide (t' = t) then Some c else scode a !! t'.
Proof. cbn. case_decide; [subst; by rewrite lookup_insert_eq | by rewrite lookup_insert_ne]. Qed.

Lemma orderly_step a a' : orderly a → step a a' → orderly a'.
Proof.
  intros Ha Hst. pose proof Ha as [H1 H2]. destruct Hst as [a t w c u Hc Hw Hu|a t w c u Hc Hw|a t l c Hc Hl|a t l c Hc Hl|a t cv l c q n Hc Hl Hq _ _
    |a t cv l c Hc Hl Hq|a t cv l c w q Hc Hl Hq|a t cv l c q Hc Hq|a t w c Hc Hw|a t body c t' Hc Hb Hn|a t c Hc|a t Hc|a t sp c Hc
    |a t c ins m m' Hc Hm Hu|a t x c ins s s' a' Hc Hs Hcur Hsh Hx Hsh' Hco Hlk Hcv|a d ev s s' a' Hev Hl Hi Hsh Hx Hsh' Hco Hlk Hcv].
  1-4,6,7,9: by eapply (orderly_go a _ t _ c c Ha Hc); [| exact (looked_up a t c)].
  - eapply (orderly_go a _ t _ c _ Ha Hc); [| exact (looked_up a t _)]. intros _ Hci. split; [| done]. by repeat constructor.
  - eapply (orderly_go a _ t _ c _ Ha Hc); [| exact (looked_up a t _)]. intros _ Hci. split; [| done]. destruct q; [done |]. by repeat constructor.
  - pose proof (H1 t _ Hc) as [Hi Hci]%Forall_cons. split; [| done]. intros t0 c0. rewrite !looked_up. case_decide.
    + intros [= <-]. apply all_ok_flat; apply Forall_app; split; try done; [by repeat constructor | by apply all_ok_body | by repeat constructor].
    + case_decide; [by intros [= <-] | by apply H1].
  - by eapply (orderly_go a _ t _ c [] Ha Hc); [| exact (looked_up a t [])].
  - split; [| done]. intros t0 c0. cbn. intros [_ H0]%lookup_delete_Some. by apply (H1 t0).
  - eapply (orderly_go a _ t _ c _ Ha Hc); [| exact (looked_up a t _)]. intros _ Hci. split; [by constructor | done].
  - eapply (orderly_go a _ t _ c _ Ha Hc); [| exact (looked_up a t _)]. intros Hi Hci. split; [| done]. apply Forall_app. split; [| by constructor].
    destruct (user_regs m ins m' Hm Hu) as [_ Hst]. apply all_ok_flat; [done | by eapply user_ok].
  - eapply (orderly_go a _ t _ c (flat ins ++ c) Ha Hc).
    + intros Hi Hci. change (senv (go a' t (flat ins ++ c))) with (senv a'). change (senv a) with (senv (go a t c)) in H2.
      rewrite (sh_env s _ Hsh) in H2. rewrite (sh_env s' _ Hsh'). destruct (client_good x s ins s' Hx Hi H2) as [H3 H4]. split; [| done].
      apply Forall_app. split; [| done]. apply all_ok_flat; [| done]. by destruct (client_law x s ins s' Hs Hx).
    + intros t'. rewrite looked_up, Hco. case_decide; [done | by rewrite lookup_insert_ne].
  - split; [rewrite Hco; exact H1 |]. rewrite (sh_env s' _ Hsh'). apply (handler_good d s s' Hx). rewrite <- (sh_env s _ Hsh). done.
Qed.

Lemma orderly_steps a a' : rtc step a a' → orderly a → orderly a'.
Proof. induction 1 as [|a1 a2 a3 Hst _ IH]; [done |]. intros Ha. apply IH. by eapply orderly_step. Qed.

Lemma calls_hold s s' : booted s → made (devices s) → (∀ t th, threads (devices s) !! t = Some th → Forall static (code th) ∧ all_ok (code th)) →
  good (env (devices s)) → rtc (exec_step CallBack client user_step) s s' →
  good (env (devices s')) ∧
  ∀ th x c, threads (devices s') !! currentThread (devices s') = Some th → code th = ICall x :: c → ok x = true.
Proof.
  intros Hb Hm Hc Hg Hr. destruct (flows_run CallBack client user_step s s' (booted_ksim s Hb) Hm Hr (sys_of s) (booted_shows s Hb)) as (a & Ha & Hsh).
  apply orderly_steps in Ha as [H1 H2].
  - rewrite (sh_env s' a Hsh) in H2. split; [done |]. intros th x c Ht Hx.
    pose proof (booted_run CallBack client user_step s s' Hb Hr) as (_ & (Hsi & _) & _).
    assert (scode a !! currentThread (devices s') = Some (ICall x :: flat c)) as Hco.
    { rewrite (sh_code s' a Hsh). unfold live. rewrite decide_False; [by rewrite Ht; cbn; rewrite Hx |]. intros Hd. by destruct (inv_destroyed _ Hsi _ Hd). }
    by apply H1, Forall_cons in Hco as [Hi _].
  - split; [| done]. intros t c. cbn. rewrite lookup_fmap. intros (th & Ht & ->)%fmap_Some. destruct (Hc t th Ht). by apply all_ok_flat.
Qed.
End calls.
