(* ===== verification/Discipline.v ===== *)
(** * Locks that are held when they are released

    A kernel whose code takes locks and gives them back in matching pairs never
    fails the test of [Lock::Release]: this file reads off the code of a thread
    which lock it needs to hold at each point, for kernels that use one such lock
    at a time, and proves on the threads of [Interleave] that it holds it.  With
    it come the invariants that concern a kernel's own state together with the
    interrupts to come, and the semaphores that are never deleted. *)

From S2P Require Import Prelude Machine Lists Mips HostFile AddrSpace Interrupt Threads.
From S2P Require Import Sched Waiters Wakeups Locks Synch SynchProps Interleave.
Local Open Scope Z_scope.

(** Handlers delete no semaphore. *)
Lemma handler_user {X E} (k k' : Threads X E) : rtc handler_step k k' →
  ∀ n, is_Some (semaphores k !! SUser n) → is_Some (semaphores k' !! SUser n).
Proof.
  induction 1 as [k|k1 k2 k3 Hh _ IH]; intros n Hn; [done |]. apply IH.
  destruct Hh as [[n0 Hw]|[e ->]]; [| done]. destruct Hn as [sem Hn]. by apply (wake_user _ _ _ Hw) in Hn.
Qed.

Section discipline.
Context {C X E : Type}.
#[local] Abbreviation instr := (instr X).
#[local] Abbreviation Sim := (Sim C (Threads X E)).
#[local] Abbreviation Sys := (Sys (C := C) (X := X) (E := E)).
Implicit Types (i : instr) (c ins : list instr) (t l : Z) (s : Sim) (a : Sys) (r : option (option Z)).

(** [pre x n]: the lock that call [x] needs, if the code after it needs [n].
    [None]: it must not stand there. *)
Variable pre : X → option Z → option (option Z).

(** The lock needed before an instruction, from the one needed after it. *)
Fixpoint needs (i : instr) r : option (option Z) :=
  match r with
  | None => None
  | Some n =>
      match i with
      | IAcquire l => if decide (n = Some l) then Some None else None
      | IRelease l => if decide (n = None) then Some (Some l) else None
      | ICall x => pre x n
      | IFork body => if decide (foldr needs (Some None) body = Some None) then Some n else None
      | IDelete (SUser _) | IWait _ _ | ISignal _ _ | IBroadcast _ _ => None
      | IFinish | IRun | IExecute _ => if decide (n = None) then Some None else None
      | _ => Some n
      end
  end.

Definition need c : option (option Z) := foldr needs (Some None) c.
(** Code that needs no lock before and after. *)
Definition tidy ins : Prop := need ins = Some None.

Lemma need_app ins c : need (ins ++ c) = foldr needs (need c) ins.
Proof. unfold need. apply foldr_app. Qed.

Lemma tidy_app ins c : tidy ins → tidy c → tidy (ins ++ c).
Proof. unfold tidy. intros Hi Hc. by rewrite need_app, Hc. Qed.

Lemma needs_Some i r n : needs i r = Some n → ∃ m, r = Some m.
Proof. destruct r as [m|]; [by exists m | by destruct i]. Qed.

Lemma needs_flat ins r : Forall static ins → foldr needs r ins ≠ None → foldr needs r (flat ins) = foldr needs r ins.
Proof.
  induction 1 as [|i ins Hi _ IH]; [done |]. cbn [foldr]. intros Hn.
  assert (foldr needs r ins ≠ None) as Hn' by (intros H0; apply Hn; rewrite H0; by destruct i). specialize (IH Hn').
  destruct i as [[]| | | | | | | | | | | | | |[]| | |[]| | | |]; cbn [flat residue app foldr] in *; rewrite ?IH; try done;
    destruct (foldr needs r ins); done.
Qed.

Lemma tidy_flat ins : Forall static ins → tidy ins → tidy (flat ins).
Proof. intros Hs Hf. unfold tidy, need in *. rewrite needs_flat; [done | done | by rewrite Hf]. Qed.

(** ** The invariant *)

(** [sems]: semaphores that stay; [good]: what the kernel knows of its own state
    and of the interrupts to come. *)
Variable sems : list Z.
Variable good : E → list C → Prop.
Hypothesis good_perm : ∀ e ev ev', ev ≡ₚ ev' → good e ev → good e ev'.

Record disciplined a : Prop := {
  di_code : ∀ t c, scode a !! t = Some c → ∃ n, need c = Some n ∧ ∀ l, n = Some l → slock a !! l = Some (Some t);
  di_sems : ∀ n, n ∈ sems → is_Some (sval a !! SUser n);
  di_good : good (senv a) (sevents a) }.

Definition events s : list C := callOnInterrupt <$> pending (interrupt s).

Class DisciplineLaw (CallBack : C → Sim → result Sim) (client : X → Sim → result (list instr * Sim))
    (user_step : Machine → result (list instr * Machine)) : Prop := {
  dl_handler : ∀ d s s', level (interrupt s) = IntOff → inHandler (interrupt s) = true → CallBack d s = Ok s' →
    good (env (devices s)) (d :: events s) → good (env (devices s')) (events s');
  dl_client : ∀ x s ins s', settled s → client x s = Ok (ins, s') →
    (∀ n m, pre x n = Some m → foldr needs (Some n) ins = Some m) ∧
    (good (env (devices s)) (events s) → good (env (devices s')) (events s'));
  dl_user : ∀ m ins m', machine_typed m → user_step m = Ok (ins, m') → tidy ins }.

Section law.
Context (CallBack : C → Sim → result Sim) `{!DeviceLaw CallBack} (client : X → Sim → result (list instr * Sim)) `{!ClientLaw client}.
Context (user_step : Machine → result (list instr * Machine)) `{!UserLaw user_step}.
Context `{!DisciplineLaw CallBack client user_step}.
#[local] Abbreviation step := (sys_step CallBack client user_step).

(** One thread goes from one need to another. *)
Lemma disciplined_go a a' t c c' n n' : disciplined a → scode a !! t = Some c → need c = Some n → need c' = Some n' →
  (∀ t', scode a' !! t' = if decide (t' = t) then Some c' else scode a !! t') →
  (∀ l, n' = Some l → slock a' !! l = Some (Some t)) →
  (∀ l t', t' ≠ t → slock a !! l = Some (Some t') → slock a' !! l = Some (Some t')) →
  (∀ n, n ∈ sems → is_Some (sval a !! SUser n) → is_Some (sval a' !! SUser n)) → good (senv a') (sevents a') → disciplined a'.
Proof.
  intros Ha Hc Hn Hn' Hco Hnew Hold Hs Hg. constructor; [| | exact Hg].
  - intros t' c0. rewrite Hco. case_decide as Ht; [subst t'; intros [= <-]; by exists n' |]. intros H0.
    destruct (di_code a Ha t' c0 H0) as (m & Hm & Hl). exists m. split; [exact Hm |]. intros l Hml. by apply Hold, Hl.
  - intros m Hm. by apply Hs, (di_sems a Ha).
Qed.

Lemma go_at a t c t' : scode (go a t c) !! t' = if decide (t' = t) then Some c else scode a !! t'.
Proof. cbn. case_decide; [subst; by rewrite lookup_insert_eq | by rewrite lookup_insert_ne]. Qed.

(** ... and nothing but its code and the semaphores change. *)
Lemma disciplined_code a a' t c c' n : disciplined a → scode a !! t = Some c → need c = Some n → need c' = Some n →
  (∀ t', scode a' !! t' = if decide (t' = t) then Some c' else scode a !! t') → slock a' = slock a →
  (∀ n, n ∈ sems → is_Some (sval a !! SUser n) → is_Some (sval a' !! SUser n)) → good (senv a') (sevents a') → disciplined a'.
Proof.
  intros Ha Hc Hn Hn' Hco Hlk Hs Hg. eapply (disciplined_go a a' t c c' n n); try done.
  - intros l Hl. rewrite Hlk. destruct (di_code a Ha t c Hc) as (m & Hm & H1). apply H1. congruence.
  - intros l t' _. by rewrite Hlk.
Qed.

Lemma sems_alter a c t w f n : is_Some (sval a !! SUser n) → is_Some (alter f w (sval (go a t c)) !! SUser n).
Proof. cbn. destruct (decide (SUser n = w)) as [->|Hne]; [rewrite lookup_alter_eq; apply fmap_is_Some | by rewrite lookup_alter_ne]. Qed.

(** What an instruction that runs has needed. *)
Lemma need_cons a t i c : disciplined a → scode a !! t = Some (i :: c) → ∃ n m, need c = Some n ∧ needs i (Some n) = Some m ∧
  need (i :: c) = Some m ∧ ∀ l, m = Some l → slock a !! l = Some (Some t).
Proof.
  intros Ha Hc. destruct (di_code a Ha t _ Hc) as (m & Hm & Hl). pose proof Hm as Hm0. unfold need in Hm. cbn [foldr] in Hm.
  destruct (needs_Some _ _ _ Hm) as [n Hn]. rewrite Hn in Hm. by exists n, m.
Qed.

Lemma disciplined_acquire a t l c : disciplined a → scode a !! t = Some (IAcquire l :: c) → slock a !! l = Some None →
  disciplined (with_slock (go a t c) (<[l := Some t]> (slock a))).
Proof.
  intros Ha Hc Hl. destruct (need_cons a t _ c Ha Hc) as (n & m & Hn & Hm & Hic & _). cbn in Hm. case_decide as Hd; [| done].
  subst n. eapply (disciplined_go a _ t _ c m (Some l) Ha Hc Hic Hn); [exact (go_at a t c) | | | done | apply Ha].
  - intros l' [= <-]. cbn. by rewrite lookup_insert_eq.
  - intros l' t' _ Hl'. cbn. rewrite lookup_insert_ne; [exact Hl' |]. intros <-. congruence.
Qed.

Lemma disciplined_release a t l c : disciplined a → scode a !! t = Some (IRelease l :: c) → slock a !! l = Some (Some t) →
  disciplined (with_slock (go a t c) (<[l := None]> (slock a))).
Proof.
  intros Ha Hc Hl. destruct (need_cons a t _ c Ha Hc) as (n & m & Hn & Hm & Hic & _). cbn in Hm. case_decide as Hd; [| done].
  subst n. eapply (disciplined_go a _ t _ c m None Ha Hc Hic Hn); [exact (go_at a t c) | done | | done | apply Ha].
  intros l' t' Hne Hl'. cbn. rewrite lookup_insert_ne; [exact Hl' |]. intros <-. congruence.
Qed.

(** An instruction that needs nothing of its own. *)
Lemma disciplined_plain a a' t i c : disciplined a → scode a !! t = Some (i :: c) →
  (∀ n m, needs i (Some n) = Some m → m = n) →
  (∀ t', scode a' !! t' = if decide (t' = t) then Some c else scode a !! t') → slock a' = slock a →
  (∀ n, n ∈ sems → is_Some (sval a !! SUser n) → is_Some (sval a' !! SUser n)) → good (senv a') (sevents a') → disciplined a'.
Proof.
  intros Ha Hc Hi. destruct (need_cons a t _ c Ha Hc) as (n & m & Hn & Hm & Hic & _). rewrite (Hi n m Hm) in Hic.
  by eapply (disciplined_code a a' t _ c n).
Qed.

Lemma disciplined_new a t c : disciplined a → need c = Some None → disciplined (go a t c).
Proof.
  intros Ha Hn. constructor; [| apply Ha | apply Ha]. intros t' c0. rewrite go_at. case_decide; [intros [= <-]; by exists None | by apply Ha].
Qed.

Lemma disciplined_call a t x c ins s s' a' : disciplined a → scode a !! t = Some (ICall x :: c) → settled s → shows s (go a t c) →
  client x s = Ok (ins, s') → shows s' a' → scode a' = <[t := c]> (scode a) → slock a' = slock a → disciplined (go a' t (flat ins ++ c)).
Proof.
  intros Ha Hc Hs Hsh Hx Hsh' Hco Hlk. destruct (client_law x s ins s' Hs Hx) as (Hst & _ & m0 & e & [Hgr _] & Hd).
  destruct (dl_client (CallBack := CallBack) (user_step := user_step) x s ins s' Hs Hx) as [Hpre Hgood].
  destruct (need_cons a t _ c Ha Hc) as (n & m & Hn & Hm & Hic & _). specialize (Hpre n m Hm).
  eapply (disciplined_code a _ t _ (flat ins ++ c) m Ha Hc Hic).
  - rewrite need_app, Hn, needs_flat; [done | done | by rewrite Hpre].
  - intros t'. rewrite go_at, Hco. case_decide; [done | by rewrite lookup_insert_ne].
  - exact Hlk.
  - intros n0 _ [v Hv]. change (is_Some (sval a' !! SUser n0)). rewrite (sh_val s' _ Hsh') by done.
    change (sval (go a t c) !! SUser n0 = Some v) in Hv. rewrite (sh_val s _ Hsh) in Hv by done.
    apply fmap_Some in Hv as (sem & Hv & _). rewrite Hd. cbn. rewrite (Hgr _ _ Hv). by eexists.
  - change (good (senv a') (sevents a')). eapply good_perm; [symmetry; apply Hsh' |]. rewrite (sh_env s' _ Hsh').
    apply Hgood. eapply good_perm; [apply (sh_events s _ Hsh) |]. rewrite <- (sh_env s _ Hsh). apply Ha.
Qed.

Lemma disciplined_interrupt a d ev s s' a' : disciplined a → sevents a ≡ₚ d :: ev → level (interrupt s) = IntOff → inHandler (interrupt s) = true →
  shows s (with_sevents a ev) → CallBack d s = Ok s' → shows s' a' → scode a' = scode a → slock a' = slock a → disciplined a'.
Proof.
  intros Ha Hev Hl Hi Hsh Hx Hsh' Hco Hlk. constructor.
  - rewrite Hco, Hlk. apply Ha.
  - intros n Hn. destruct (di_sems a Ha n Hn) as [v Hv]. rewrite (sh_val s' _ Hsh') by done.
    change (sval (with_sevents a ev) !! SUser n = Some v) in Hv. rewrite (sh_val s _ Hsh) in Hv by done.
    apply fmap_Some in Hv as (sem & Hv & _). pose proof (device_wakes d s s' Hl Hi Hx) as Hw.
    destruct (handler_user _ _ Hw n) as [sem' ->]; by eexists.
  - eapply good_perm; [symmetry; apply Hsh' |]. rewrite (sh_env s' _ Hsh').
    apply (dl_handler (client := client) (user_step := user_step) d s s' Hl Hi Hx).
    eapply good_perm; [| rewrite <- (sh_env s _ Hsh); apply Ha]. rewrite Hev. constructor. apply (sh_events s _ Hsh).
Qed.

Lemma disciplined_step a a' : disciplined a → step a a' → disciplined a'.
Proof.
  intros Ha Hst. destruct Hst as [a t w c v Hc Hw Hv|a t w c v Hc Hw|a t l c Hc Hl|a t l c Hc Hl|a t cv l c q n Hc Hl Hq _ _
    |a t cv l c Hc Hl Hq|a t cv l c w q Hc Hl Hq|a t cv l c q Hc Hq|a t w c Hc Hw|a t body c t' Hc Hb Hn|a t c Hc|a t Hc|a t sp c Hc
    |a t c ins m m' Hc Hm Hu|a t x c ins s s' a' Hc Hs Hcur Hsh Hx Hsh' Hco Hlk Hcv|a d ev s s' a' Hev Hl Hi Hsh Hx Hsh' Hco Hlk Hcv].
  5-8: by destruct (need_cons a t _ c Ha Hc) as (n0 & m0 & _ & ? & _).
  - apply (disciplined_plain a _ t _ c Ha Hc); [intros n m; by intros [= <-] | exact (go_at a t c) | done | | apply Ha]. intros n _. apply sems_alter.
  - apply (disciplined_plain a _ t _ c Ha Hc); [intros n m; by intros [= <-] | exact (go_at a t c) | done | | apply Ha]. intros n _. apply sems_alter.
  - by apply disciplined_acquire.
  - by apply disciplined_release.
  - apply (disciplined_plain a _ t _ c Ha Hc); [intros n m; by destruct w; intros [= <-] | exact (go_at a t c) | done | | apply Ha].
    destruct (need_cons a t _ c Ha Hc) as (n & m & _ & Hnm & _). intros n0 _. cbn. rewrite lookup_delete_ne; [done |]. by intros ->.
  - destruct (need_cons a t _ c Ha Hc) as (n & m & _ & Hm & _). cbn in Hm. case_decide as Hd; [| done].
    apply disciplined_new.
    + apply (disciplined_plain a _ t _ c Ha Hc); [| exact (go_at a t c) | done | done | apply Ha]. intros n1 m1. cbn. rewrite decide_True by done. by intros [= <-].
    + apply tidy_flat; [apply Forall_app; by split; [| repeat constructor] |]. by apply tidy_app.
  - destruct (need_cons a t _ c Ha Hc) as (n & m & _ & Hm & Hic & _). cbn in Hm. case_decide; [| done]. injection Hm as <-.
    by apply (disciplined_code a _ t _ [] None Ha Hc Hic); [| exact (go_at a t []) | | | apply Ha].
  - constructor; [| apply Ha | apply Ha]. intros t' c. cbn. intros [_ H0]%lookup_delete_Some. by apply (di_code a Ha).
  - destruct (need_cons a t _ c Ha Hc) as (n & m & Hn & Hm & Hic & _). cbn in Hm. case_decide; [| done]. injection Hm as <-. subst n.
    apply (disciplined_code a _ t _ (IRun :: c) None Ha Hc Hic); [unfold need in *; cbn; by rewrite Hn | exact (go_at a t _) | done | done | apply Ha].
  - destruct (need_cons a t _ c Ha Hc) as (n0 & m0 & Hn & Hm0 & Hic & _). cbn in Hm0. case_decide; [| done]. injection Hm0 as <-. subst n0.
    destruct (user_regs m ins m' Hm Hu) as [_ Hst].
    apply (disciplined_code a _ t _ (flat ins ++ IRun :: c) None Ha Hc Hic); [| exact (go_at a t _) | done | done | apply Ha].
    apply tidy_app; [by apply tidy_flat, (dl_user (CallBack := CallBack) (client := client) m ins m' Hm Hu) | exact Hic].
  - by eapply disciplined_call.
  - by eapply disciplined_interrupt.
Qed.

(** It holds as long as the system runs. *)
Lemma disciplined_run s s' : booted s → made (devices s) →
  (∀ t th, threads (devices s) !! t = Some th → Forall static (code th) ∧ tidy (code th)) →
  (∀ n, n ∈ sems → is_Some (semaphores (devices s) !! SUser n)) → good (env (devices s)) (events s) →
  rtc (exec_step CallBack client user_step) s s' → ∃ a, disciplined a ∧ shows s' a.
Proof.
  intros Hb Hm Hc Hn Hg Hr. destruct (flows_run CallBack client user_step s s' (booted_ksim s Hb) Hm Hr (sys_of s) (booted_shows s Hb)) as (a & Ha & Hsh).
  exists a. split; [| exact Hsh]. assert (disciplined (sys_of s)) as H0.
  - constructor; [| | exact Hg].
    + intros t c. cbn. rewrite lookup_fmap. intros (th & Ht & ->)%fmap_Some. destruct (Hc t th Ht). exists None. split; [by apply tidy_flat | done].
    + intros n Hin. cbn. rewrite lookup_fmap. by apply fmap_is_Some, Hn.
  - clear -Ha H0 DisciplineLaw0 ClientLaw0 DeviceLaw0 UserLaw0 good_perm. induction Ha as [a|a1 a2 a3 Hst _ IH]; [done |]. apply IH. by eapply disciplined_step.
Qed.
End law.

(** ** What it says of the thread that runs *)

Lemma current_need s a th c : ksim s → disciplined a → shows s a → threads (devices s) !! currentThread (devices s) = Some th →
  flat (code th) = c → ∃ n, need c = Some n ∧ ∀ l, n = Some l → slock a !! l = Some (Some (currentThread (devices s))).
Proof.
  intros (_ & (Hsi & _) & _) Ha Hsh Ht <-. apply (di_code a Ha). rewrite (sh_code s a Hsh). unfold live.
  rewrite decide_False; [by rewrite Ht |]. intros Hd. by destruct (inv_destroyed _ Hsi _ Hd).
Qed.

(** It holds the lock it is about to release. *)
Lemma release_held s a th l c : ksim s → disciplined a → shows s a → threads (devices s) !! currentThread (devices s) = Some th →
  code th = IRelease l :: c → locks (devices s) !! l = Some (Some (currentThread (devices s))).
Proof.
  intros Hs Ha Hsh Ht Hc. destruct (current_need s a th _ Hs Ha Hsh Ht eq_refl) as (n & Hn & Hl). rewrite Hc in Hn. unfold need in Hn. cbn in Hn.
  destruct (foldr needs (Some None) (flat c)) as [m|]; [| done]. case_decide; [| done]. injection Hn as <-. specialize (Hl l eq_refl).
  pose proof (sh_lock s a Hsh l) as Hsl. rewrite Hl in Hsl. destruct Hsl as [Hsl|(_ & c' & Hlive & Htok)]; [exact Hsl |]. exfalso.
  destruct Hs as (_ & (_ & _ & _ & Hlk) & _). pose proof (inv_code_locks _ Hlk _ _ Ht) as Hcl. rewrite Hc in Hcl.
  unfold live in Hlive. case_decide; [done |]. rewrite Ht in Hlive. cbn in Hlive. injection Hlive as <-. rewrite Hc in Htok.
  rewrite (code_locks_top _ _ Hcl eq_refl) in Htok by done. done.
Qed.

(** [Wait] and [Signal] are not in its code. *)
Lemma no_monitor s a th i c : ksim s → disciplined a → shows s a → threads (devices s) !! currentThread (devices s) = Some th →
  code th = i :: c → match i with IWait _ _ | ISignal _ _ | IBroadcast _ _ => False | _ => True end.
Proof.
  intros Hs Ha Hsh Ht Hc. destruct (current_need s a th _ Hs Ha Hsh Ht eq_refl) as (n & Hn & _). rewrite Hc in Hn.
  unfold need in Hn. destruct i; try done; cbn in Hn; by destruct (foldr needs (Some None) (flat c)).
Qed.
End discipline.
