(* ===== verification/Ksyscall.v ===== *)
(** * Numbers and characters at the console (userprog/ksyscall.h)

    [SysReadNum], [SysPrintNum] and the character and string system calls, over
    the two streams that [SynchConsoleInput::GetChar] consumes and
    [SynchConsoleOutput::PutChar] produces.  A read from an empty stream is
    [Blocked]: the thread sleeps until somebody types.  A [char] is a signed
    byte. *)

From S2P Require Import Prelude.
Local Open Scope Z_scope.

Definition is_char (c : Z) : Prop := -128 <= c < 128.
#[export] Instance is_char_dec c : Decision (is_char c).
Proof. unfold is_char. apply _. Defined.

Definition newline : Z := 10.
Definition space : Z := 32.
Definition char_0 : Z := 48.
Definition minus : Z := 45.
Definition char_EOF : Z := -1.

Implicit Types (c num : Z) (inp out : list Z).

(** [kernel->synchConsoleIn->GetChar ()] *)
Definition GetChar inp : result (Z * list Z) :=
  match inp with [] => Fail Blocked | c :: inp => Ok (c, inp) end.

(** C's [int] negation where the kernel relies on no overflow. *)
Definition int_opp (a : Z) : result Z := if decide (is_s32 (- a)) then Ok (- a) else Fail Undefined.

(** ** Operations *)

Definition SysAdd (op1 op2 : Z) : result Z := int_add op1 op2.

Definition isDigit c : bool := (char_0 <=? c) && (c <=? 57).
Definition isBlank c : bool := (c =? space) || (c =? newline).

(** [do c = GetChar (); while (c == ' ' || c == '\n')] *)
Fixpoint skip_blanks inp : result (Z * list Z) :=
  match inp with
  | [] => Fail Blocked
  | c :: inp => if isBlank c then skip_blanks inp else Ok (c, inp)
  end.

(** [num = num * 10 + c - '0'], left to right. *)
Definition shift_in num c : result Z :=
  n ← int_mul num 10; n ← int_add n c; int_add n (- char_0).

(** The second loop of [SysReadNum]: each round consumes the next character. *)
Fixpoint read_digits num c (isInteger : bool) inp : result (Z * bool * list Z) :=
  num ← shift_in num c;
  match inp with
  | [] => Fail Blocked
  | c :: inp =>
      let isInteger := isInteger && (isDigit c || isBlank c) in
      if isBlank c then Ok (num, isInteger, inp) else read_digits num c isInteger inp
  end.

(** [SysReadNum] from its test of the first digit on. *)
Definition ReadNum_digits c (isSign : bool) inp : result (Z * list Z) :=
  '(num, isInteger, inp) ← read_digits 0 c (isDigit c) inp;
  if negb isInteger then Ok (0, inp)
  else num ← (if isSign then int_opp num else Ok num); Ok (num, inp).

Definition SysReadNum inp : result (Z * list Z) :=
  '(c, inp) ← skip_blanks inp;
  if c =? minus then
    '(c, inp) ← GetChar inp;
    if isBlank c then Ok (0, inp) else ReadNum_digits c true inp
  else ReadNum_digits c false inp.

(** [while (op1 != 0)]: fills [arr] from [i]; [n] bounds the rounds. *)
Fixpoint split_digits (n : nat) (op1 i : Z) (arr : list Z) : result (Z * list Z) :=
  if op1 =? 0 then Ok (i, arr) else
  match n with
  | O => Fail OutOfFuel
  | S n =>
      arr ← aset arr i (Z.rem op1 10);
      split_digits n (Z.quot op1 10) (i + 1) arr
  end.

(** [for (j = i - 1; j > -1; --j)] *)
Fixpoint print_digits (i : nat) (arr out : list Z) : result (list Z) :=
  match i with
  | O => Ok out
  | S j => d ← aget arr (Z.of_nat j); print_digits j arr (out ++ [char_0 + d])
  end.

(** The output appended to [out]; [arr]: what the local array holds at first. *)
Definition SysPrintNum (op1 : Z) (arr out : list Z) : result (list Z) :=
  if op1 =? 0 then Ok (out ++ [char_0]) else
  '(op1, out) ← (if op1 <? 0 then op1 ← int_opp op1; Ok (op1, out ++ [minus]) else Ok (op1, out));
  '(i, arr) ← split_digits 11 op1 0 arr;
  print_digits (Z.to_nat i) arr out.

Definition SysReadChar inp : result (Z * list Z) := GetChar inp.
Definition SysPrintChar c out : list Z := out ++ [c].

(** [do ch = GetChar (); while (ch == EOF)] and the loop around it, which stores
    from [idx] up to [length]. *)
Fixpoint read_string (idx length : Z) (buffer inp : list Z) : result (list Z * list Z) :=
  if length <=? idx then Ok (buffer, inp) else
  match inp with
  | [] => Fail Blocked
  | ch :: inp =>
      if ch =? char_EOF then read_string idx length buffer inp
      else if (ch =? 1) || (ch =? newline) then Ok (buffer, inp)
      else buffer ← aset buffer idx ch; read_string (idx + 1) length buffer inp
  end.

Definition SysReadString (buffer : list Z) (length : Z) inp : result (list Z * list Z) :=
  buffer ← for_each 0 length (λ idx buffer, aset buffer idx 0) buffer;
  read_string 0 length buffer inp.

(** [while (buffer[length])]: structural on what is left of the buffer; leaving
    it is a read out of bounds. *)
Fixpoint SysPrintString (buffer out : list Z) : result (list Z) :=
  match buffer with
  | [] => Fail OutOfBounds
  | c :: buffer => if c =? 0 then Ok out else SysPrintString buffer (out ++ [c])
  end.

(** ** Decimal numerals *)

(** The digits of [n], most significant first. *)
Fixpoint numeral_fuel (n : nat) (z : Z) : list Z :=
  match n with
  | O => []
  | S n => if z =? 0 then [] else numeral_fuel n (z / 10) ++ [z mod 10]
  end.

Definition value_of (ds : list Z) : Z := foldl (λ num d, num * 10 + d) 0 ds.

Definition digit (d : Z) : Prop := 0 <= d < 10.

Lemma shift_in_ok num c : is_s32 (num * 10) → is_s32 (num * 10 + c) → is_s32 (num * 10 + c - char_0) →
  shift_in num c = Ok (num * 10 + c - char_0).
Proof.
  intros H1 H2 H3. unfold shift_in. rewrite int_mul_in by done. cbn [rbind]. rewrite int_add_in by done. cbn [rbind].
  by rewrite int_add_in by (replace (num * 10 + c + - char_0) with (num * 10 + c - char_0) by lia; done).
Qed.

Lemma isDigit_spec c : isDigit c = bool_decide (digit (c - char_0)).
Proof.
  unfold isDigit, digit, char_0. case_bool_decide; [| destruct (Z.leb_spec 48 c), (Z.leb_spec c 57); lia || done].
  destruct (Z.leb_spec 48 c), (Z.leb_spec c 57); done || lia.
Qed.

Lemma digit_not_blank c : isDigit c = true → isBlank c = false.
Proof.
  unfold isDigit, isBlank, char_0, space, newline. intros [H1%Z.leb_le H2%Z.leb_le]%andb_true_iff.
  destruct (Z.eqb_spec c 32), (Z.eqb_spec c 10); lia || done.
Qed.

Lemma skip_blanks_spec bs c inp : Forall (λ b, isBlank b = true) bs → isBlank c = false →
  skip_blanks (bs ++ c :: inp) = Ok (c, inp).
Proof. induction 1 as [|b bs Hb Hbs IH]; intros Hc; cbn; [by rewrite Hc |]. rewrite Hb. by apply IH. Qed.

(** A value read from the characters of a token, digits or not. *)
Definition token_value (num : Z) (w : list Z) : Z := foldl (λ num c, num * 10 + c - char_0) num w.

(** No [int] of the loop overflows on these characters. *)
Fixpoint fits (num : Z) (w : list Z) : Prop :=
  match w with
  | [] => True
  | c :: w => is_s32 (num * 10) ∧ is_s32 (num * 10 + c) ∧ is_s32 (num * 10 + c - char_0) ∧ fits (num * 10 + c - char_0) w
  end.

Lemma read_digits_spec w num c isInteger t rest : Forall (λ c, isBlank c = false) w → isBlank t = true → fits num (c :: w) →
  read_digits num c isInteger (w ++ t :: rest) = Ok (token_value num (c :: w), isInteger && forallb isDigit w, rest).
Proof.
  revert num c isInteger. induction w as [|d w IH]; intros num c isInteger Hw Ht (H1 & H2 & H3 & Hf); cbn [app read_digits].
  - rewrite shift_in_ok by done. cbn [rbind]. rewrite Ht. cbn. by rewrite orb_true_r.
  - rewrite shift_in_ok by done. cbn [rbind]. inversion_clear Hw as [|? ? Hd Hw']. rewrite Hd, orb_false_r.
    rewrite IH by done. cbn [forallb token_value foldl]. by rewrite andb_assoc.
Qed.

(** Up to eight characters of any kind fit. *)
Lemma short_fits w num (j : nat) : Forall is_char w → (j + length w <= 8)%nat → Z.abs num <= 20 * (10 ^ Z.of_nat j - 1) →
  fits num w.
Proof.
  revert num j. induction w as [|c w IH]; intros num j Hw Hl Hn; [done |]. inversion_clear Hw as [|? ? Hc Hw'].
  unfold is_char in Hc. cbn [length] in Hl.
  assert (10 ^ Z.of_nat (S j) = 10 * 10 ^ Z.of_nat j) as Hp.
  { replace (Z.of_nat (S j)) with (Z.of_nat j + 1) by lia. rewrite Z.pow_add_r by lia. change (10 ^ 1) with 10. lia. }
  assert (10 ^ Z.of_nat (S j) <= 10 ^ 8) by (apply Z.pow_le_mono_r; lia).
  assert (0 < 10 ^ Z.of_nat j) by (apply Z.pow_pos_nonneg; lia).
  cbn [fits]. unfold is_s32, char_0. change (10 ^ 8) with 100000000 in *. repeat (split; [lia |]).
  apply (IH _ (S j)); [done | lia | lia].
Qed.

(** A run of digits fits when the number does, up to the last [+ c]. *)
Lemma token_digits num ds : token_value num (map (λ d, char_0 + d) ds) = foldl (λ num d, num * 10 + d) num ds.
Proof. revert num. induction ds as [|d ds IH]; intros num; cbn; [done |]. rewrite IH. f_equal. unfold char_0. lia. Qed.

Lemma value_mono ds num : Forall digit ds → 0 <= num → num <= foldl (λ num d, num * 10 + d) num ds.
Proof.
  revert num. induction ds as [|d ds IH]; intros num Hd Hn; cbn; [lia |]. inversion_clear Hd as [|? ? H1 H2].
  unfold digit in H1. etransitivity; [| apply IH; [done | lia]]. lia.
Qed.

Lemma digits_fit ds num : Forall digit ds → 0 <= num → foldl (λ num d, num * 10 + d) num ds + char_0 < 2 ^ 31 →
  fits num (map (λ d, char_0 + d) ds).
Proof.
  revert num. induction ds as [|d ds IH]; intros num Hd Hn Hv; cbn; [done |]. inversion_clear Hd as [|? ? H1 H2].
  unfold digit in H1. cbn in Hv. pose proof (value_mono ds (num * 10 + d) H2 ltac:(lia)). unfold is_s32, char_0 in *.
  split; [lia |]. split; [lia |]. split; [lia |]. replace (num * 10 + (48 + d) - 48) with (num * 10 + d) by lia.
  apply IH; [done | lia | lia].
Qed.

(** ** Numerals *)

Lemma numeral_fuel_spec n z : 0 <= z < 10 ^ Z.of_nat n →
  value_of (numeral_fuel n z) = z ∧ Forall digit (numeral_fuel n z) ∧ (length (numeral_fuel n z) <= n)%nat ∧
  (z ≠ 0 → numeral_fuel n z ≠ []).
Proof.
  revert z. induction n as [|n IH]; intros z Hz; cbn [numeral_fuel].
  { change (10 ^ Z.of_nat 0) with 1 in Hz. assert (z = 0) as -> by lia. cbn. split; [done |]. split; [constructor | split; [lia | done]]. }
  destruct (Z.eqb_spec z 0) as [->|Hne]; [cbn; split; [done |]; split; [constructor | split; [lia | done]] |].
  replace (Z.of_nat (S n)) with (Z.of_nat n + 1) in Hz by lia. rewrite Z.pow_add_r in Hz by lia. change (10 ^ 1) with 10 in Hz.
  pose proof (Z.div_mod z 10 ltac:(lia)). pose proof (Z.mod_pos_bound z 10 ltac:(lia)).
  destruct (IH (z / 10)) as (Hv & Hd & Hl & _); [split; [apply Z.div_pos; lia | apply Z.div_lt_upper_bound; lia] |].
  split; [| split; [| split]].
  - unfold value_of in *. rewrite foldl_app. cbn. rewrite Hv. lia.
  - apply Forall_app. split; [done |]. constructor; [exact H0 | constructor].
  - rewrite length_app. cbn. lia.
  - intros _ Hx. by apply app_eq_nil in Hx as [_ ?].
Qed.

Lemma split_digits_spec n z i arr : 0 <= z < 10 ^ Z.of_nat n → 0 <= i →
  i + Z.of_nat (length (numeral_fuel n z)) <= Z.of_nat (length arr) →
  ∃ arr', split_digits n z i arr = Ok (i + Z.of_nat (length (numeral_fuel n z)), arr') ∧ length arr' = length arr ∧
    take (Z.to_nat i + length (numeral_fuel n z)) arr' = take (Z.to_nat i) arr ++ reverse (numeral_fuel n z).
Proof.
  revert z i arr. induction n as [|n IH]; intros z i arr Hz Hi Hl; cbn [numeral_fuel split_digits] in *.
  { change (10 ^ Z.of_nat 0) with 1 in Hz. assert (z = 0) as -> by lia. cbn. exists arr.
    rewrite Z.add_0_r, Nat.add_0_r, app_nil_r. done. }
  destruct (Z.eqb_spec z 0) as [->|Hne]; [cbn; exists arr; by rewrite Z.add_0_r, Nat.add_0_r, app_nil_r |].
  replace (Z.of_nat (S n)) with (Z.of_nat n + 1) in Hz by lia. rewrite Z.pow_add_r in Hz by lia. change (10 ^ 1) with 10 in Hz.
  rewrite length_app in *. cbn [length] in *. rewrite Z.rem_mod_nonneg, Z.quot_div_nonneg by lia.
  rewrite aset_in by lia. cbn [rbind]. pose proof (Z.mod_pos_bound z 10 ltac:(lia)).
  destruct (IH (z / 10) (i + 1) (<[Z.to_nat i := z mod 10]> arr)) as (arr' & Heq & Hl' & Ht);
    [split; [apply Z.div_pos; lia | apply Z.div_lt_upper_bound; lia] | lia | rewrite length_insert; lia |].
  exists arr'. rewrite Heq. split; [f_equal; f_equal; lia |]. split; [by rewrite Hl', length_insert |].
  replace (Z.to_nat i + (length (numeral_fuel n (z / 10)) + 1))%nat with (Z.to_nat (i + 1) + length (numeral_fuel n (z / 10)))%nat by lia.
  rewrite Ht, reverse_app. replace (Z.to_nat (i + 1)) with (S (Z.to_nat i)) by lia.
  rewrite (take_S_r _ _ (z mod 10)) by (apply list_lookup_insert_eq; lia).
  rewrite take_insert_ge by lia. by rewrite <- app_assoc.
Qed.

Lemma print_digits_spec i arr out : (i <= length arr)%nat →
  print_digits i arr out = Ok (out ++ map (λ d, char_0 + d) (reverse (take i arr))).
Proof.
  revert out. induction i as [|j IH]; intros out Hi; cbn [print_digits]; [cbn; by rewrite app_nil_r |].
  destruct (lookup_lt_is_Some_2 arr j) as [d Hd]; [lia |]. rewrite (aget_lookup _ _ _ Hd). cbn [rbind].
  rewrite IH by lia. f_equal. rewrite (take_S_r _ _ d) by done. rewrite reverse_app. cbn. by rewrite <- app_assoc.
Qed.

(** What [n] looks like in decimal. *)
Definition digits (z : Z) : list Z := numeral_fuel 10 z.
Definition numeral (n : Z) : list Z :=
  if n =? 0 then [char_0] else (if n <? 0 then [minus] else []) ++ map (λ d, char_0 + d) (digits (Z.abs n)).

Lemma digits_spec z : 0 < z < 2 ^ 31 → value_of (digits z) = z ∧ Forall digit (digits z) ∧
  (length (digits z) <= 10)%nat ∧ digits z ≠ [] ∧ numeral_fuel 11 z = digits z.
Proof.
  intros Hz. destruct (numeral_fuel_spec 10 z) as (Hv & Hd & Hl & Hne); [change (10 ^ Z.of_nat 10) with 10000000000; lia |].
  split; [done |]. split; [done |]. split; [done |]. split; [apply Hne; lia |]. unfold digits.
  assert (∀ n z, 0 <= z < 10 ^ Z.of_nat n → numeral_fuel (S n) z = numeral_fuel n z) as Hf.
  { clear. induction n as [|n IH]; intros z Hz.
    - change (10 ^ Z.of_nat 0) with 1 in Hz. assert (z = 0) as -> by lia. done.
    - cbn [numeral_fuel]. destruct (Z.eqb_spec z 0); [done |]. f_equal. apply IH.
      replace (Z.of_nat (S n)) with (Z.of_nat n + 1) in Hz by lia. rewrite Z.pow_add_r in Hz by lia. change (10 ^ 1) with 10 in Hz.
      split; [apply Z.div_pos; lia | apply Z.div_lt_upper_bound; lia]. }
  apply Hf. change (10 ^ Z.of_nat 10) with 10000000000. lia.
Qed.

Lemma SysPrintNum_numeral n arr out : - 2 ^ 31 < n < 2 ^ 31 → length arr = 10%nat →
  SysPrintNum n arr out = Ok (out ++ numeral n).
Proof.
  intros Hn Ha. unfold SysPrintNum, numeral. destruct (Z.eqb_spec n 0) as [|Hne]; [done |].
  destruct (digits_spec (Z.abs n)) as (_ & _ & Hl & _ & H11); [lia |].
  assert (∀ o, ('(i, arr) ← split_digits 11 (Z.abs n) 0 arr; print_digits (Z.to_nat i) arr o) =
    Ok (o ++ map (λ d, char_0 + d) (digits (Z.abs n)))) as Hprint.
  { intros o. destruct (split_digits_spec 11 (Z.abs n) 0 arr) as (arr' & -> & Hl' & Ht);
      [change (10 ^ Z.of_nat 11) with 100000000000; lia | lia | rewrite H11; lia |].
    cbn [rbind]. rewrite H11 in *. replace (Z.to_nat (0 + Z.of_nat (length (digits (Z.abs n))))) with (length (digits (Z.abs n))) by lia.
    rewrite print_digits_spec by lia. change (Z.to_nat 0 + length (digits (Z.abs n)))%nat with (length (digits (Z.abs n))) in Ht.
    rewrite Ht. change (Z.to_nat 0) with 0%nat. by rewrite take_0, app_nil_l, reverse_involutive. }
  destruct (Z.ltb_spec n 0).
  - unfold int_opp. rewrite decide_True by (unfold is_s32; lia). cbn [rbind]. replace (- n) with (Z.abs n) by lia.
    rewrite Hprint. by rewrite <- app_assoc.
  - cbn [rbind app]. replace n with (Z.abs n) at 1 by lia. apply Hprint.
Qed.

Lemma SysReadNum_numeral n bs t rest : Z.abs n + char_0 < 2 ^ 31 → Forall (λ b, isBlank b = true) bs → isBlank t = true →
  SysReadNum (bs ++ numeral n ++ t :: rest) = Ok (n, rest).
Proof.
  intros Hn Hbs Ht. unfold numeral, char_0 in *. destruct (Z.eqb_spec n 0) as [->|Hne].
  { cbn [app]. unfold SysReadNum. rewrite (skip_blanks_spec bs 48) by done. cbn [rbind].
    change (48 =? minus) with false. cbn iota. pose proof (read_digits_spec [] 0 48 (isDigit 48) t rest) as Hr. cbn [app] in Hr.
    unfold ReadNum_digits. rewrite Hr; [done | constructor | done | cbn; unfold is_s32, char_0; lia]. }
  destruct (digits_spec (Z.abs n)) as (Hv & Hd & _ & Hnil & _); [lia |].
  destruct (digits (Z.abs n)) as [|d ds] eqn:Hds; [done |]. set (w := map (λ d, 48 + d) ds) in *.
  assert (Forall (λ c, isBlank c = false) w ∧ forallb isDigit w = true ∧ isDigit (48 + d) = true) as (Hnb & Hall & Hd0).
  { inversion_clear Hd as [|? ? H1 H2].
    assert (∀ d, digit d → isDigit (48 + d) = true) as Hdig.
    { intros e He. rewrite isDigit_spec. replace (48 + e - char_0) with e by (unfold char_0; lia). by rewrite bool_decide_eq_true_2. }
    split; [| split; [| by apply Hdig]].
    - apply Forall_map. eapply Forall_impl; [exact H2 |]. intros e He. by apply digit_not_blank, Hdig.
    - apply Is_true_true, forallb_True, Forall_map. eapply Forall_impl; [exact H2 |]. intros e He. cbn. by rewrite Hdig. }
  assert (fits 0 (48 + d :: w)) as Hfit.
  { apply (digits_fit (d :: ds) 0); [done | lia |]. change (value_of (d :: ds) + char_0 < 2 ^ 31). rewrite Hv. unfold char_0. lia. }
  assert (∀ isSign, ReadNum_digits (48 + d) isSign (w ++ t :: rest) = Ok (if isSign then - Z.abs n else Z.abs n, rest)) as Hread.
  { intros isSign. unfold ReadNum_digits. rewrite read_digits_spec by done. rewrite Hd0, Hall. cbn [andb negb rbind].
    assert (token_value 0 (48 + d :: w) = Z.abs n) as ->.
    { change (48 + d :: w) with (map (λ d, char_0 + d) (d :: ds)). rewrite token_digits. exact Hv. }
    destruct isSign; [| done]. unfold int_opp. by rewrite decide_True by (unfold is_s32; lia). }
  assert (isBlank (48 + d) = false) as Hb0 by (by apply digit_not_blank).
  unfold SysReadNum. destruct (Z.ltb_spec n 0).
  - cbn [map app]. rewrite (skip_blanks_spec bs minus) by done. cbn [rbind]. rewrite Z.eqb_refl. cbn [GetChar rbind].
    fold w. rewrite Hb0. rewrite (Hread true). by replace (- Z.abs n) with n by lia.
  - cbn [map app]. rewrite (skip_blanks_spec bs (48 + d)) by done. cbn [rbind].
    destruct (Z.eqb_spec (48 + d) minus) as [Hm|_].
    + rewrite Hm in Hd0. done.
    + fold w. rewrite (Hread false). by replace (Z.abs n) with n by lia.
Qed.

(** The decimal text of a number: a minus for the negative ones, and digits,
    the first not 0 unless it is the only one. *)
Definition decimal (n : Z) (w : list Z) : Prop :=
  ∃ d ds, w = (if n <? 0 then [minus] else []) ++ map (λ d, char_0 + d) (d :: ds) ∧
    Forall digit (d :: ds) ∧ value_of (d :: ds) = Z.abs n ∧ (d = 0 → ds = []).

Lemma numeral_fuel_head n z d ds : 0 <= z < 10 ^ Z.of_nat n → numeral_fuel n z = d :: ds → d ≠ 0.
Proof.
  revert z ds. induction n as [|n IH]; intros z ds Hz; cbn [numeral_fuel]; [done |].
  destruct (Z.eqb_spec z 0) as [|Hne]; [done |].
  replace (Z.of_nat (S n)) with (Z.of_nat n + 1) in Hz by lia. rewrite Z.pow_add_r in Hz by lia. change (10 ^ 1) with 10 in Hz.
  assert (0 <= z / 10 < 10 ^ Z.of_nat n) as Hq by (split; [apply Z.div_pos; lia | apply Z.div_lt_upper_bound; lia]).
  pose proof (numeral_fuel_spec n (z / 10) Hq) as (_ & _ & _ & Hnil). specialize (IH (z / 10)).
  destruct (numeral_fuel n (z / 10)) as [|e es].
  - intros [= <- _]. destruct (decide (z / 10 = 0)) as [H0|H0]; [| by destruct (Hnil H0)].
    pose proof (Z.div_mod z 10 ltac:(lia)). lia.
  - intros [= <- _]. by apply (IH es).
Qed.

Lemma numeral_decimal n : - 2 ^ 31 < n < 2 ^ 31 → decimal n (numeral n).
Proof.
  intros Hn. unfold decimal, numeral. destruct (Z.eqb_spec n 0) as [->|Hne].
  { exists 0, []. split; [done |]. split; [by repeat constructor | done]. }
  destruct (digits_spec (Z.abs n)) as (Hv & Hd & _ & Hnil & _); [lia |].
  destruct (digits (Z.abs n)) as [|d ds] eqn:Hds; [done |]. exists d, ds. split; [done |]. split; [done |]. split; [done |].
  intros H0. exfalso. revert H0. eapply (numeral_fuel_head 10 (Z.abs n)); [change (10 ^ Z.of_nat 10) with 10000000000; lia | exact Hds].
Qed.

(** ** Properties *)

(** C34: numbers survive the console.  [SysPrintNum] prints every [int] other
    than [-2^31] as its decimal text, without a leading zero, a blank or
    anything else, never leaving its array of ten digits; and [SysReadNum], fed
    with that output behind any blanks and before a blank, returns the number
    and leaves the rest of the input.  The reading is stated for numbers less
    than 2147483600 in size: from there on the [+ c] of the last round overflows
    an [int]. *)
Theorem PrintNum_ReadNum n arr out bs t rest (Hn : - 2 ^ 31 < n < 2 ^ 31) (Harr : length arr = 10%nat)
    (Hbs : Forall (λ b, isBlank b = true) bs) (Ht : isBlank t = true) :
  SysPrintNum n arr out = Ok (out ++ numeral n) ∧ decimal n (numeral n) ∧
  (Z.abs n < 2147483600 → SysReadNum (bs ++ numeral n ++ t :: rest) = Ok (n, rest)).
Proof.
  split; [by apply SysPrintNum_numeral |]. split; [by apply numeral_decimal |].
  intros Ha. apply SysReadNum_numeral; [unfold char_0; lia | done | done].
Qed.

Lemma PrintNum_ReadNum_witness : SysPrintNum (-2046) (replicate 10 7) [33] = Ok [33; 45; 50; 48; 52; 54] ∧
  SysReadNum [32; 10; 45; 50; 48; 52; 54; 10; 65] = Ok (-2046, [65]).
Proof.
  destruct (PrintNum_ReadNum (-2046) (replicate 10 7) [33] [32; 10] 10 [65]) as (Hp & _ & Hr);
    [lia | reflexivity | repeat constructor | reflexivity |]. split; [exact Hp | apply Hr; reflexivity].
Defined.

(** The grammar of [SysReadNum], and what it makes of a token. *)
Definition unsign (w : list Z) : list Z := match w with c :: ds => if c =? minus then ds else w | [] => [] end.
Definition token_num (w : list Z) : Z :=
  let ds := unsign w in
  if bool_decide (ds ≠ []) && forallb isDigit ds
  then (if bool_decide (ds = w) then 1 else -1) * value_of (map (λ c, c - char_0) ds) else 0.

Lemma token_value_of num w : token_value num w = foldl (λ num d, num * 10 + d) num (map (λ c, c - char_0) w).
Proof. revert num. induction w as [|c w IH]; intros num; cbn; [done |]. rewrite IH. f_equal. lia. Qed.

(** What [SysReadNum] accepts.  On any word of at most eight characters (a
    sign not counted) behind blanks, it consumes the word and the blank after
    it, and returns the value when the word is an optional minus and at least
    one digit; anything else reads as 0. *)
Theorem ReadNum_spec bs w t rest (Hbs : Forall (λ b, isBlank b = true) bs) (Hw : w ≠ [])
    (Hnb : Forall (λ c, is_char c ∧ isBlank c = false) w) (Hl : (length (unsign w) <= 8)%nat) (Ht : isBlank t = true) :
  SysReadNum (bs ++ w ++ t :: rest) = Ok (token_num w, rest).
Proof.
  destruct w as [|c w]; [done |]. inversion_clear Hnb as [|? ? [Hc Hcb] Hwb]. unfold SysReadNum, token_num. cbn [unsign app] in *.
  rewrite (skip_blanks_spec bs c) by done. cbn [rbind].
  assert (∀ d ds isSign, Forall (λ c, is_char c ∧ isBlank c = false) (d :: ds) → (length (d :: ds) <= 8)%nat →
    ReadNum_digits d isSign (ds ++ t :: rest) =
    Ok (if forallb isDigit (d :: ds) then (if isSign then -1 else 1) * value_of (map (λ c, c - char_0) (d :: ds)) else 0, rest)) as Hrd.
  { intros d ds isSign Hds Hlen. unfold ReadNum_digits.
    assert (Forall is_char (d :: ds)) as Hch by (eapply Forall_impl; [exact Hds | by intros ? [? _]]).
    assert (fits 0 (d :: ds)) as Hfit by (apply (short_fits _ 0 0); [done | lia | cbn; lia]).
    rewrite read_digits_spec; [| inversion_clear Hds as [|? ? _ H2]; eapply Forall_impl; [exact H2 | by intros ? [_ ?]] | done | done].
    cbn [rbind forallb]. destruct (isDigit d && forallb isDigit ds) eqn:Hall; cbn [negb]; [| done].
    rewrite token_value_of. fold (value_of (map (λ c, c - char_0) (d :: ds))). destruct isSign; cbn [rbind]; [| by rewrite Z.mul_1_l].
    unfold int_opp. rewrite decide_True; [cbn [rbind]; f_equal; f_equal; lia |].
    assert (Forall digit (map (λ c, c - char_0) (d :: ds))) as Hdg.
    { apply Forall_map. change (isDigit d && forallb isDigit ds) with (forallb isDigit (d :: ds)) in Hall.
      apply Is_true_true, forallb_True in Hall. eapply Forall_impl; [exact Hall |].
      intros e He. cbn in *. rewrite isDigit_spec in He. by apply bool_decide_unpack in He. }
    assert (0 <= value_of (map (λ c, c - char_0) (d :: ds)) < 2 ^ 31) as Hv; [| unfold is_s32; lia].
    split; [apply value_mono; [done | lia] |].
    assert (∀ l num k, Forall digit l → 0 <= k → 0 <= num < k → foldl (λ num d, num * 10 + d) num l < k * 10 ^ Z.of_nat (length l)) as Hb.
    { clear. induction l as [|e l IH]; intros num k Hl Hk Hn; cbn [foldl length]; [change (10 ^ Z.of_nat 0) with 1; lia |].
      inversion_clear Hl as [|? ? H1 H2]. unfold digit in H1.
      replace (Z.of_nat (S (length l))) with (Z.of_nat (length l) + 1) by lia. rewrite Z.pow_add_r by lia. change (10 ^ 1) with 10.
      pose proof (IH (num * 10 + e) (k * 10) H2 ltac:(lia) ltac:(lia)). lia. }
    eapply Z.lt_le_trans; [apply (Hb _ 0 1); [done | lia | lia] |]. rewrite length_map.
    transitivity (1 * 10 ^ 8); [apply Z.mul_le_mono_nonneg_l, Z.pow_le_mono_r; lia | lia]. }
  destruct (Z.eqb_spec c minus) as [->|Hne].
  - destruct w as [|d ds]; cbn [app GetChar rbind].
    + rewrite Ht. cbn. done.
    + inversion_clear Hwb as [|? ? [Hd Hdb] Hds]. rewrite Hdb. rewrite (Hrd d ds true) by (done || by constructor).
      rewrite (bool_decide_eq_true_2 (d :: ds ≠ [])) by done. rewrite (bool_decide_eq_false_2 (d :: ds = minus :: d :: ds)); [done |].
      intros Hx. apply (f_equal length) in Hx. cbn in Hx. lia.
  - rewrite (Hrd c w false) by (done || by constructor). rewrite (bool_decide_eq_true_2 (c :: w ≠ [])) by done.
    by rewrite (bool_decide_eq_true_2 (c :: w = c :: w)) by done.
Qed.

(** "-17" is a number, "1x" is not. *)
Lemma ReadNum_spec_witness : SysReadNum ([32] ++ [45; 49; 55] ++ 10 :: [66]) = Ok (-17, [66]) ∧
  SysReadNum ([] ++ [49; 120] ++ 32 :: [66]) = Ok (0, [66]).
Proof.
  split.
  - change (-17) with (token_num [45; 49; 55]).
    apply (ReadNum_spec [32] [45; 49; 55] 10 [66]); [repeat constructor | discriminate | | cbn; lia | reflexivity].
    repeat constructor; unfold is_char; lia.
  - replace (Ok (0, [66])) with (Ok (token_num [49; 120], [66])) by reflexivity.
    apply (ReadNum_spec [] [49; 120] 32 [66]); [constructor | discriminate | | cbn; lia | reflexivity].
    repeat constructor; unfold is_char; lia.
Defined.
