(* ===== verification/Console.v ===== *)
(** * The console and the timer (machine/console.cc, userprog/synchconsole.cc,
      machine/timer.cc, threads/alarm.cc)

    The devices that interrupt the kernel.  Each has an interrupt handler
    ([CallBack]); what a thread does with the console is a list of instructions
    of [Threads], since it may have to wait.  The class [HasDevices] says that
    the state of the kernel has the devices' state in it; the handlers
    keep the law [DeviceLaw] of [Synch], and so everything proved
    there holds with these devices. *)

From S2P Require Import Prelude Machine Mips Interrupt Threads Sched Waiters Wakeups Locks Synch Handlers Ksyscall.
Local Open Scope Z_scope.

(** ** State *)

(** The objects with a [CallBack]: the timer, whose client is the alarm, and the
    two halves of the console, whose clients are the synchronous ones. *)
Inductive Device := DTimer | DConsoleInput | DConsoleOutput.

#[export] Instance Device_eq_dec : EqDecision Device.
Proof. solve_decision. Defined.

(** What [PollFile] and [ReadPartial] find when the keyboard is polled. *)
Inductive key := KeyNone | KeyChar (c : Z) | KeyEnd.

(** [keyboard]: the outcomes of the polls to come, [KeyNone] from the end on;
    [display]: all characters shown; [drawn]: how often [RandomNumber] was
    asked. *)
Record Devices := mkDevices {
  incoming : Z; keyboard : list key; putBusy : bool; display : list Z;
  randomize : bool; disable : bool; drawn : Z }.

Definition with_incoming (d : Devices) c : Devices :=
  mkDevices c (keyboard d) (putBusy d) (display d) (randomize d) (disable d) (drawn d).
Definition with_keyboard (d : Devices) k : Devices :=
  mkDevices (incoming d) k (putBusy d) (display d) (randomize d) (disable d) (drawn d).
Definition with_output (d : Devices) busy shown : Devices :=
  mkDevices (incoming d) (keyboard d) busy shown (randomize d) (disable d) (drawn d).
Definition with_drawn (d : Devices) n : Devices :=
  mkDevices (incoming d) (keyboard d) (putBusy d) (display d) (randomize d) (disable d) n.

Class HasDevices (E : Type) := {
  devs : E → Devices;
  with_devs : E → Devices → E;
  devs_with : ∀ e d, devs (with_devs e d) = d }.

(** The semaphores and locks of the synchronous console. *)
Definition console_in : Z := 0.
Definition console_out : Z := 1.

Section console.
Context {X E : Type} `{HasDevices E}.
(** The [n]-th number that the host's generator gives. *)
Variable RandomNumber : Z → Z.
#[local] Abbreviation Sim := (Sim Device (Threads X E)).
#[local] Abbreviation instr := (instr X).
Implicit Types (s : Sim).

Definition get_devs s : Devices := devs (env (devices s)).
Definition set_devs s (d : Devices) : Sim :=
  with_devices s (with_env (devices s) (with_devs (env (devices s)) d)).

Definition count_read (st : Statistics) : result Statistics :=
  n ← int_add (numConsoleCharsRead st) 1;
  Ok (mkStats (totalTicks st) (idleTicks st) (systemTicks st) (userTicks st) (numDiskReads st) (numDiskWrites st)
        n (numConsoleCharsWritten st) (numPageFaults st) (numPacketsSent st) (numPacketsRecvd st)).

Definition count_written (st : Statistics) : result Statistics :=
  n ← int_add (numConsoleCharsWritten st) 1;
  Ok (mkStats (totalTicks st) (idleTicks st) (systemTicks st) (userTicks st) (numDiskReads st) (numDiskWrites st)
        (numConsoleCharsRead st) n (numPageFaults st) (numPacketsSent st) (numPacketsRecvd st)).

(** ** The hardware *)

(** [SynchConsoleInput::CallBack] and [SynchConsoleOutput::CallBack]: a [V] in a
    handler, where interrupts are off before and after. *)
Definition SynchConsoleInput_CallBack s : result Sim := lift s (wake (devices s) (SUser console_in)).
Definition SynchConsoleOutput_CallBack s : result Sim := lift s (wake (devices s) (SUser console_out)).

Definition ConsoleInput_CallBack s : result Sim :=
  let d := get_devs s in
  ASSERT (incoming d =? char_EOF);;
  match keyboard d with
  | [] => Schedule s DConsoleInput ConsoleTime ConsoleReadInt
  | KeyNone :: keys => Schedule (set_devs s (with_keyboard d keys)) DConsoleInput ConsoleTime ConsoleReadInt
  | KeyEnd :: keys => SynchConsoleInput_CallBack (set_devs s (with_keyboard d keys))
  | KeyChar c :: keys =>
      st ← count_read (stats s);
      SynchConsoleInput_CallBack (with_stats (set_devs s (with_incoming (with_keyboard d keys) c)) st)
  end.

Definition ConsoleInput_GetChar s : result (Z * Sim) :=
  let d := get_devs s in
  let ch := incoming d in
  s ← (if negb (ch =? char_EOF) then Schedule s DConsoleInput ConsoleTime ConsoleReadInt else Ok s);
  Ok (ch, set_devs s (with_incoming d char_EOF)).

Definition ConsoleOutput_CallBack s : result Sim :=
  let d := get_devs s in
  st ← count_written (stats s);
  SynchConsoleOutput_CallBack (with_stats (set_devs s (with_output d false (display d))) st).

Definition ConsoleOutput_PutChar s (ch : Z) : result Sim :=
  let d := get_devs s in
  ASSERT (negb (putBusy d));;
  Schedule (set_devs s (with_output d true (display d ++ [ch]))) DConsoleOutput ConsoleTime ConsoleWriteInt.

(** [Timer::SetInterrupt] *)
Definition SetInterrupt s : result Sim :=
  let d := get_devs s in
  if disable d then Ok s
  else if randomize d then
    Schedule (set_devs s (with_drawn d (drawn d + 1))) DTimer
      (1 + Z.rem (RandomNumber (drawn d)) (TimerTicks * 2)) TimerInt
  else Schedule s DTimer TimerTicks TimerInt.

Definition Timer_CallBack s : result Sim := s ← Alarm_CallBack s; SetInterrupt s.

Definition CallBack (d : Device) s : result Sim :=
  match d with
  | DTimer => Timer_CallBack s
  | DConsoleInput => ConsoleInput_CallBack s
  | DConsoleOutput => ConsoleOutput_CallBack s
  end.

(** ** What a thread does with the console

    [take] stands for [ch = consoleInput->GetChar ()] and what becomes of
    [ch] once the lock is released; [put] for [consoleOutput->PutChar (ch)]. *)

Definition SynchConsoleInput_GetChar (take : X) : list instr :=
  [IAcquire console_in; IP (SUser console_in); ICall take].
Definition SynchConsoleInput_GetChar_end : list instr := [IRelease console_in].

Definition SynchConsoleOutput_PutChar (put : X) : list instr :=
  [IAcquire console_out; ICall put; IP (SUser console_out); IRelease console_out].

(** ** The devices keep the law of interrupt handlers *)

Lemma count_read_ok st st' : count_read st = Ok st' → same_ticks st st'.
Proof. unfold count_read. intros ? . by inv_res. Qed.

Lemma count_written_ok st st' : count_written st = Ok st' → same_ticks st st'.
Proof. unfold count_written. intros ?. by inv_res. Qed.

Lemma set_devs_ok s d : handler_ok s (set_devs s d).
Proof. apply handler_env. Qed.

Lemma SetInterrupt_ok s s' : SetInterrupt s = Ok s' → handler_ok s s'.
Proof.
  unfold SetInterrupt. destruct (disable _); [intros [= <-]; reflexivity |].
  destruct (randomize _); intros Hs; [| by eapply handler_Schedule].
  etransitivity; [apply set_devs_ok | by eapply handler_Schedule].
Qed.

Lemma CallBack_ok d s s' : CallBack d s = Ok s' → handler_ok s s'.
Proof.
  destruct d; cbn [CallBack].
  - intros (s1 & H1 & H2)%bind_Ok. etransitivity; [by apply handler_Alarm | by apply SetInterrupt_ok].
  - unfold ConsoleInput_CallBack. intros ([] & _ & Hc)%bind_Ok. destruct (keyboard _) as [|[|c|] keys].
    + by eapply handler_Schedule.
    + etransitivity; [apply set_devs_ok | by eapply handler_Schedule].
    + apply bind_Ok in Hc as (st & Hst%count_read_ok & Hc). etransitivity; [apply set_devs_ok |].
      etransitivity; [by apply handler_count | by eapply handler_wake].
    + etransitivity; [apply set_devs_ok | by eapply handler_wake].
  - unfold ConsoleOutput_CallBack. intros (st & Hst%count_written_ok & Hc)%bind_Ok.
    etransitivity; [apply set_devs_ok |]. etransitivity; [by apply handler_count | by eapply handler_wake].
Qed.

#[export] Instance CallBack_law : DeviceLaw CallBack.
Proof. apply handler_law, CallBack_ok. Qed.
End console.
