(* ===== verification/Disk.v ===== *)
(** * The disk (machine/disk.cc, filesys/synchdisk.cc)

    The simulated disk, an asynchronous device with a head that moves and a
    track buffer, and what a thread does with it through [SynchDisk].  The host
    file behind it is the list of its sectors.  [ReadSector] and [WriteSector]
    are what a request does to this list; the file system ([NachosFile],
    [Directory], [FileSys]) is modelled over them. *)

From S2P Require Import Prelude Machine Mips Lists Interrupt Threads Sched Waiters Wakeups Locks Synch Handlers Ksyscall Console.
Local Open Scope Z_scope.

Definition SectorSize : Z := 128 * 2.
Definition SectorsPerTrack : Z := 32.
Definition NumTracks : Z := 32.
Definition NumSectors : Z := SectorsPerTrack * NumTracks.
Definition RotationTime : Z := 500.
Definition SeekTime : Z := 500.

(** A sector is a list of bytes. *)
Abbreviation sectors_t := (list (list Z)).

Definition sector_ok (n : Z) : bool := (0 <=? n) && (n <? NumSectors).

Definition ReadSector (c : sectors_t) (n : Z) : result (list Z) := ASSERT (sector_ok n);; aget c n.
Definition WriteSector (c : sectors_t) (n : Z) (data : list Z) : result sectors_t := ASSERT (sector_ok n);; aset c n data.

(** ** The head *)

Record Disk := mkDisk { sectors : sectors_t; active : bool; lastSector : Z; bufferInit : Z }.

Definition with_active (d : Disk) b : Disk := mkDisk (sectors d) b (lastSector d) (bufferInit d).
Definition with_sectors (d : Disk) c : Disk := mkDisk c (active d) (lastSector d) (bufferInit d).

Implicit Types (d : Disk) (now : Z).

(** The time to reach the track, and from then to the next sector boundary.
    [now]: [kernel->stats->totalTicks]. *)
Definition TimeToSeek d now (newSector : Z) : result (Z * Z) :=
  let newTrack := Z.quot newSector SectorsPerTrack in
  let oldTrack := Z.quot (lastSector d) SectorsPerTrack in
  seek ← int_mul (Z.abs (newTrack - oldTrack)) SeekTime;
  t ← int_add now seek;
  let over := Z.rem t RotationTime in
  Ok (seek, if over >? 0 then RotationTime - over else 0).

Definition ModuloDiff (to from : Z) : Z :=
  let toOffset := Z.rem to SectorsPerTrack in
  let fromOffset := Z.rem from SectorsPerTrack in
  Z.rem ((toOffset - fromOffset) + SectorsPerTrack) SectorsPerTrack.

Definition ComputeLatency d now (newSector : Z) (writing : bool) : result Z :=
  '(seek, rotation) ← TimeToSeek d now newSector;
  t ← int_add now seek;
  timeAfter ← int_add t rotation;
  buffered ← (if negb writing && (seek =? 0)
              then since ← int_sub timeAfter (bufferInit d);
                   Ok (Z.quot since RotationTime >? ModuloDiff newSector (Z.quot (bufferInit d) RotationTime))
              else Ok false);
  if buffered : bool then Ok RotationTime
  else
    let rotation := rotation + ModuloDiff newSector (Z.quot timeAfter RotationTime) * RotationTime in
    wait ← int_add seek rotation;
    int_add wait RotationTime.

Definition UpdateLast d now (newSector : Z) : result Disk :=
  '(seek, rotate) ← TimeToSeek d now newSector;
  start ← (if negb (seek =? 0) then t ← int_add now seek; int_add t rotate else Ok (bufferInit d));
  Ok (mkDisk (sectors d) (active d) newSector start).

(** The head passes over one sector of the track in [RotationTime] ticks: at
    [t], a multiple of it, the transfer of sector [n] has just ended. *)
Definition transferred (t n : Z) : Prop := t mod RotationTime = 0 ∧ (t / RotationTime - 1) mod SectorsPerTrack = n mod SectorsPerTrack.

Definition seek_time d (n : Z) : Z := Z.abs (n / SectorsPerTrack - lastSector d / SectorsPerTrack) * SeekTime.

(** The first multiple of [RotationTime] from [t] on. *)
Definition boundary (t : Z) : Z := (t + RotationTime - 1) / RotationTime * RotationTime.

Ltac disk_consts := unfold RotationTime, SeekTime, SectorsPerTrack, NumSectors, NumTracks in *.

Lemma boundary_spec t : boundary t mod RotationTime = 0 ∧ t <= boundary t < t + RotationTime.
Proof.
  unfold boundary. split; [apply Z.mod_mul; done |]. disk_consts.
  pose proof (Z.div_mod (t + 500 - 1) 500). pose proof (Z.mod_pos_bound (t + 500 - 1) 500). lia.
Qed.

Lemma TimeToSeek_spec d now n : 0 <= n < NumSectors → 0 <= lastSector d < NumSectors → 0 <= now < 2 ^ 31 - 40000 →
  TimeToSeek d now n = Ok (seek_time d n, boundary (now + seek_time d n) - (now + seek_time d n)) ∧
  0 <= seek_time d n <= 15500.
Proof.
  intros Hn Hl Hnow. disk_consts. unfold TimeToSeek, seek_time. disk_consts.
  rewrite !Z.quot_div_nonneg by lia.
  pose proof (Z.div_pos n 32). pose proof (Z.div_pos (lastSector d) 32).
  assert (n / 32 < 32) by (apply Z.div_lt_upper_bound; lia).
  assert (lastSector d / 32 < 32) by (apply Z.div_lt_upper_bound; lia).
  assert (0 <= Z.abs (n / 32 - lastSector d / 32) * 500 <= 15500) by lia.
  set (k := Z.abs _ * 500) in *. rewrite int_mul_in by (unfold is_s32; lia). cbn [rbind]. fold k.
  rewrite int_add_in by (unfold is_s32; lia). cbn [rbind]. split; [| lia]. f_equal. f_equal.
  rewrite Z.rem_mod_nonneg by lia. unfold boundary. disk_consts.
  pose proof (Z.div_mod (now + k) 500). pose proof (Z.mod_pos_bound (now + k) 500).
  destruct (Z.gtb_spec ((now + k) mod 500) 0) as [Hp|Hp].
  - replace ((now + k + 500 - 1) / 500) with ((now + k) / 500 + 1); [lia |].
    apply Z.div_unique with ((now + k) mod 500 - 1); lia.
  - replace ((now + k + 500 - 1) / 500) with ((now + k) / 500); [lia |].
    apply Z.div_unique with 499; lia.
Qed.

Lemma ModuloDiff_spec n f : 0 <= n → 0 <= f → ModuloDiff n f = (n - f) mod SectorsPerTrack ∧ 0 <= ModuloDiff n f < SectorsPerTrack.
Proof.
  intros Hn Hf. unfold ModuloDiff. disk_consts. rewrite (Z.rem_mod_nonneg n), (Z.rem_mod_nonneg f) by lia.
  pose proof (Z.mod_pos_bound n 32). pose proof (Z.mod_pos_bound f 32).
  rewrite Z.rem_mod_nonneg by lia. split; [| apply Z.mod_pos_bound; lia].
  rewrite <- (Z.mod_add (n mod 32 - f mod 32 + 32) (-1)) by lia. rewrite Zminus_mod. f_equal. lia.
Qed.

(** The first time from [t] on, [t] a sector boundary, at which [n] has been
    transferred whole. *)
Lemma next_transfer t n : t mod RotationTime = 0 → 0 <= t → 0 <= n →
  let w := t + ModuloDiff n (t / RotationTime) * RotationTime + RotationTime in
  transferred w n ∧ ∀ t', transferred t' n → t + RotationTime <= t' → w <= t'.
Proof.
  intros Ht H0 Hn. cbn zeta. destruct (ModuloDiff_spec n (t / RotationTime)) as [Hm Hb]; [done | disk_consts; apply Z.div_pos; lia |].
  revert Hm Hb. set (m := ModuloDiff n (t / RotationTime)). unfold transferred. disk_consts. intros Hm Hb.
  pose proof (Z.div_mod t 500) as Hd. set (q := t / 500) in *.
  assert ((t + m * 500 + 500) = (q + m + 1) * 500) as -> by lia.
  rewrite Z.mod_mul, Z.div_mul by lia. split.
  - split; [done |]. replace (q + m + 1 - 1) with (q + m) by lia. rewrite Hm, Zplus_mod_idemp_r. f_equal. lia.
  - intros t' [Ht' Hn'] Hle. pose proof (Z.div_mod t' 500) as Hd'. set (q' := t' / 500) in *.
    assert (m = (n - q) mod 32) by done. assert (q + 1 <= q') by lia.
    assert (m <= q' - 1 - q); [| lia].
    assert ((q' - 1 - q) mod 32 = m) as <-. { rewrite Zminus_mod, Hn', <- Zminus_mod. done. }
    apply Z.mod_le; lia.
Qed.

(** ** Requests *)

Class HasDisk (E : Type) := {
  disk : E → Disk;
  with_disk : E → Disk → E;
  disk_with : ∀ e d, disk (with_disk e d) = d }.

(** The semaphore and the lock of [SynchDisk]. *)
Definition disk_sem : Z := 16.
Definition disk_lock : Z := 16.

Section device.
Context {C X E : Type} `{HasDisk E}.
(** The object whose [CallBack] the interrupt calls. *)
Variable DDisk : C.
#[local] Abbreviation Sim := (Sim C (Threads X E)).
#[local] Abbreviation instr := (instr X).
Implicit Types (s : Sim).

Definition get_disk s : Disk := disk (env (devices s)).
Definition set_disk s d : Sim := with_devices s (with_env (devices s) (with_disk (env (devices s)) d)).

Definition count_disk_read (st : Statistics) : result Statistics :=
  n ← int_add (numDiskReads st) 1;
  Ok (mkStats (totalTicks st) (idleTicks st) (systemTicks st) (userTicks st) n (numDiskWrites st)
        (numConsoleCharsRead st) (numConsoleCharsWritten st) (numPageFaults st) (numPacketsSent st) (numPacketsRecvd st)).
Definition count_disk_write (st : Statistics) : result Statistics :=
  n ← int_add (numDiskWrites st) 1;
  Ok (mkStats (totalTicks st) (idleTicks st) (systemTicks st) (userTicks st) (numDiskReads st) n
        (numConsoleCharsRead st) (numConsoleCharsWritten st) (numPageFaults st) (numPacketsSent st) (numPacketsRecvd st)).

(** What both requests do after the transfer; [count]: the counter they raise. *)
Definition start_request s d (n ticks : Z) (count : Statistics → result Statistics) : result Sim :=
  d ← UpdateLast (with_active d true) (totalTicks (stats s)) n;
  st ← count (stats s);
  Schedule (with_stats (set_disk s d) st) DDisk ticks DiskInt.

Definition ReadRequest s (n : Z) : result (list Z * Sim) :=
  let d := get_disk s in
  ticks ← ComputeLatency d (totalTicks (stats s)) n false;
  ASSERT (negb (active d));;
  data ← ReadSector (sectors d) n;
  s ← start_request s d n ticks count_disk_read;
  Ok (data, s).

Definition WriteRequest s (n : Z) (data : list Z) : result Sim :=
  let d := get_disk s in
  ticks ← ComputeLatency d (totalTicks (stats s)) n true;
  ASSERT (negb (active d));;
  c ← WriteSector (sectors d) n data;
  start_request s (with_sectors d c) n ticks count_disk_write.

(** [SynchDisk::CallBack]: a [V] in a handler. *)
Definition SynchDisk_CallBack s : result Sim := lift s (wake (devices s) (SUser disk_sem)).

Definition Disk_CallBack s : result Sim := SynchDisk_CallBack (set_disk s (with_active (get_disk s) false)).

(** [SynchDisk::ReadSector] and [WriteSector]; [request] stands for the request
    to the disk. *)
Definition SynchDisk_Sector (request : X) : list instr :=
  [IAcquire disk_lock; ICall request; IP (SUser disk_sem); IRelease disk_lock].

End device.

(** ** Latency *)

(** The head and the times that the disk computes stay in their ranges. *)
Definition disk_ok d now : Prop :=
  0 <= lastSector d < NumSectors ∧ 0 <= bufferInit d < 2 ^ 31 ∧ 0 <= now < 2 ^ 31 - 40000 ∧
  Z.of_nat (length (sectors d)) = NumSectors.

(** The test of [ComputeLatency] for the track buffer. *)
Definition buffer_has d now (n : Z) : bool :=
  (seek_time d n =? 0) && (ModuloDiff n (bufferInit d / RotationTime) <? Z.quot (boundary now - bufferInit d) RotationTime).

Lemma ComputeLatency_cases d now n writing : 0 <= n < NumSectors → disk_ok d now →
  let start := boundary (now + seek_time d n) in
  ComputeLatency d now n writing = Ok (if negb writing && buffer_has d now n then RotationTime
    else start + ModuloDiff n (start / RotationTime) * RotationTime + RotationTime - now).
Proof.
  intros Hn (Hl & Hb & Hnow & _). destruct (TimeToSeek_spec d now n Hn Hl Hnow) as [Hs Hk]. unfold ComputeLatency, buffer_has. rewrite Hs. cbn [rbind]. cbv zeta.
  set (k := seek_time d n) in *. destruct (boundary_spec (now + k)) as [_ Bl]. set (st := boundary (now + k)) in *.
  rewrite int_add_in by (unfold is_s32; lia). cbn [rbind].
  rewrite int_add_in by (unfold is_s32; disk_consts; lia). cbn [rbind].
  replace (now + k + (st - (now + k))) with st by lia.
  rewrite !Z.quot_div_nonneg by (disk_consts; lia).
  destruct (ModuloDiff_spec n (st / RotationTime)) as [_ Hm]; [disk_consts; lia | disk_consts; apply Z.div_pos; lia |].
  assert (k = 0 → st = boundary now) as Hst by (intros ->; unfold st; by rewrite Z.add_0_r).
  replace (if negb writing && (k =? 0)
     then since ← int_sub st (bufferInit d); Ok (Z.quot since RotationTime >? ModuloDiff n (bufferInit d / RotationTime))
     else Ok false) with (Ok (negb writing && ((k =? 0) &&
       (ModuloDiff n (bufferInit d / RotationTime) <? Z.quot (boundary now - bufferInit d) RotationTime)))).
  2: { destruct writing; cbn; [done |]. destruct (Z.eqb_spec k 0) as [Hk0|]; [| done]. cbn.
       rewrite int_sub_in by (unfold is_s32; disk_consts; lia). cbn [rbind]. by rewrite Hst, Z.gtb_ltb by done. }
  cbn [rbind]. destruct (_ && _); [done |].
  rewrite int_add_in by (unfold is_s32; disk_consts; lia). cbn [rbind].
  rewrite int_add_in by (unfold is_s32; disk_consts; lia). f_equal. lia.
Qed.

Lemma ComputeLatency_bounds d now n writing : 0 <= n < NumSectors → disk_ok d now →
  ∃ lat, ComputeLatency d now n writing = Ok lat ∧ 0 < lat < 40000.
Proof.
  intros Hn Hd. pose proof Hd as (Hl & _ & Hnow & _). rewrite (ComputeLatency_cases d now n writing Hn Hd). cbv zeta.
  eexists. split; [done |]. destruct (TimeToSeek_spec d now n Hn Hl Hnow) as [_ Hk].
  destruct (boundary_spec (now + seek_time d n)) as [_ Bl]. set (st := boundary (now + seek_time d n)) in *.
  destruct (ModuloDiff_spec n (st / RotationTime)) as [_ Hm]; [lia | disk_consts; apply Z.div_pos; lia |].
  destruct (_ && _); disk_consts; lia.
Qed.

(** The track buffer has sector [n]: the head has stayed on its track since
    [bufferInit] and has passed over the whole sector since, up to the
    sector boundary at which the request begins. *)
Definition in_buffer d now (n : Z) : Prop :=
  seek_time d n = 0 ∧ ∃ t, transferred t n ∧ bufferInit d + RotationTime <= t <= boundary now.

Lemma buffer_has_spec d now n : 0 <= n → 0 <= bufferInit d → bufferInit d mod RotationTime = 0 →
  buffer_has d now n = true ↔ in_buffer d now n.
Proof.
  intros Hn Hb Hm. unfold buffer_has, in_buffer. rewrite andb_true_iff, Z.eqb_eq, Z.ltb_lt.
  destruct (next_transfer (bufferInit d) n Hm Hb Hn) as [Ht Hmin]. cbv zeta in Ht, Hmin.
  destruct (ModuloDiff_spec n (bufferInit d / RotationTime)) as [_ Hr]; [done | disk_consts; apply Z.div_pos; lia |].
  destruct (boundary_spec now) as [Bm _]. set (r := ModuloDiff n (bufferInit d / RotationTime)) in *.
  assert (r < Z.quot (boundary now - bufferInit d) RotationTime ↔ bufferInit d + r * RotationTime + RotationTime <= boundary now) as ->.
  { disk_consts. destruct (Z.le_gt_cases (boundary now) (bufferInit d)) as [Hle|Hgt].
    - pose proof (Z.quot_opp_l (bufferInit d - boundary now) 500 ltac:(lia)) as Hq.
      replace (- (bufferInit d - boundary now)) with (boundary now - bufferInit d) in Hq by lia.
      pose proof (Z.quot_pos (bufferInit d - boundary now) 500). lia.
    - rewrite Z.quot_div_nonneg by lia. pose proof (Z.div_mod (boundary now - bufferInit d) 500).
      pose proof (Z.mod_pos_bound (boundary now - bufferInit d) 500). lia. }
  split; (intros [Hs H1]; split; [exact Hs |]).
  - exists (bufferInit d + r * RotationTime + RotationTime). split; [exact Ht |]. disk_consts. lia.
  - destruct H1 as (t & Htr & Hlo & Hhi). specialize (Hmin t Htr Hlo). lia.
Qed.

(** [bufferInit] is 0 at first and then the beginning of a sector. *)
Lemma UpdateLast_boundary d now n d' : 0 <= n < NumSectors → disk_ok d now → bufferInit d mod RotationTime = 0 →
  UpdateLast d now n = Ok d' → bufferInit d' mod RotationTime = 0.
Proof.
  intros Hn (Hl & _ & Hnow & _) Hb. unfold UpdateLast. destruct (TimeToSeek_spec d now n Hn Hl Hnow) as [-> _]. cbn [rbind].
  intros (b & Hs & [= <-])%bind_Ok. cbn. destruct (negb _); [| by injection Hs as <-].
  apply bind_Ok in Hs as (t & [-> _]%int_add_Ok & [-> _]%int_add_Ok).
  replace (now + seek_time d n + (boundary (now + seek_time d n) - (now + seek_time d n))) with (boundary (now + seek_time d n)) by lia.
  apply boundary_spec.
Qed.

(** C37: how long a request takes.  A read of a sector that the track buffer has
    takes exactly the transfer of one sector.  For any other request
    the transfer ends exactly when the head has passed over the
    sector, and that is the first time it does so after the seek and after the
    beginning of a sector.  The hypothesis on [bufferInit] is kept by every
    request. *)
Theorem latency_exact d now n writing (Hn : 0 <= n < NumSectors) (Hd : disk_ok d now) (Hb : bufferInit d mod RotationTime = 0) :
  ∃ lat, ComputeLatency d now n writing = Ok lat ∧
    (writing = false ∧ in_buffer d now n → lat = RotationTime) ∧
    (¬ (writing = false ∧ in_buffer d now n) →
     let start := boundary (now + seek_time d n) in
     transferred (now + lat) n ∧ start + RotationTime <= now + lat <= start + RotationTime * SectorsPerTrack ∧
     ∀ t, transferred t n → start + RotationTime <= t → now + lat <= t) ∧
    ∀ d', UpdateLast d now n = Ok d' → bufferInit d' mod RotationTime = 0.
Proof.
  pose proof Hd as (Hl & Hbi & Hnow & _). rewrite (ComputeLatency_cases d now n writing Hn Hd). cbv zeta.
  eexists. split; [done |]. pose proof (buffer_has_spec d now n ltac:(lia) ltac:(lia) Hb) as Hhas.
  split; [| split; [| intros d'; by apply UpdateLast_boundary]].
  - intros [-> ->%Hhas]. done.
  - intros Hno. destruct (negb writing && buffer_has d now n) eqn:Hbuf.
    { apply andb_true_iff in Hbuf as [Hw%negb_true_iff Hbuf%Hhas]. by destruct Hno. }
    destruct (TimeToSeek_spec d now n Hn Hl Hnow) as [_ Hk].
    destruct (boundary_spec (now + seek_time d n)) as [Bm Bl]. set (st := boundary (now + seek_time d n)) in *.
    destruct (next_transfer st n Bm) as [Ht Hmin]; [lia | lia |]. cbv zeta in Ht, Hmin.
    destruct (ModuloDiff_spec n (st / RotationTime)) as [_ Hm]; [lia | disk_consts; apply Z.div_pos; lia |].
    match goal with |- transferred ?x n ∧ _ => replace x with (st + ModuloDiff n (st / RotationTime) * RotationTime + RotationTime) by lia end.
    split; [done |]. split; [disk_consts; lia | done].
Qed.

(** A read served from the track buffer, and a write that must seek. *)
Lemma latency_exact_witness : let d := mkDisk (replicate 1024 []) false 5 0 in
  ComputeLatency d 1234 1 false = Ok RotationTime ∧ in_buffer d 1234 1 ∧
  ∃ lat, ComputeLatency d 1234 40 true = Ok lat ∧ 2500 <= 1234 + lat.
Proof.
  cbv zeta. set (d := mkDisk (replicate 1024 []) false 5 0).
  assert (∀ now, bool_decide (disk_ok d now) = true → disk_ok d now) as Hok by (intros now; apply (bool_decide_eq_true_1 _)).
  assert (in_buffer d 1234 1) as Hbuf.
  { split; [by vm_compute |]. exists 1000. split; [by vm_compute |]. split; by vm_compute. }
  destruct (latency_exact d 1234 1 false) as (lat & Hlat & Hyes & _); [done | by apply Hok; vm_compute | done |].
  split; [rewrite Hlat; f_equal; by apply Hyes |]. split; [exact Hbuf |].
  destruct (latency_exact d 1234 40 true) as (lat2 & Hlat2 & _ & Hno & _); [done | by apply Hok; vm_compute | done |].
  exists lat2. split; [exact Hlat2 |]. destruct Hno as (_ & [Hr _] & _); [by intros [? _] |].
  assert (boundary (1234 + seek_time d 40) = 2000) as Hb by (vm_compute; reflexivity).
  rewrite Hb in Hr. unfold RotationTime in Hr. lia.
Defined.

(** ** One request after the other *)

Section requests.
Context {C X E : Type} `{HasDisk E} (DDisk : C).
#[local] Abbreviation Sim := (Sim C (Threads X E)).
Implicit Types (s : Sim).

Lemma get_set_disk s d : get_disk (set_disk s d) = d.
Proof. unfold get_disk, set_disk. cbn. apply disk_with. Qed.

Lemma wake_env (k k' : Threads X E) w : wake k w = Ok k' → env k' = env k.
Proof.
  unfold wake. intros (sem & _ & Hw)%bind_Ok. apply bind_Ok in Hw as ([k1 q] & Hq & (v & _ & [= <-])%bind_Ok). cbn.
  destruct (queue sem); [by injection Hq as <- _ |]. apply bind_Ok in Hq as ([t q1] & _ & (k2 & Hk & [= <- _])%bind_Ok).
  unfold make_ready in Hk. by inv_res.
Qed.

Lemma UpdateLast_ok d now n : 0 <= n < NumSectors → disk_ok d now →
  ∃ b, UpdateLast d now n = Ok (mkDisk (sectors d) (active d) n b) ∧ 0 <= b < 2 ^ 31.
Proof.
  intros Hn (Hl & Hb & Hnow & _). unfold UpdateLast. destruct (TimeToSeek_spec d now n Hn Hl Hnow) as [-> Hk]. cbn [rbind].
  destruct (boundary_spec (now + seek_time d n)) as [_ Bl]. destruct (Z.eqb_spec (seek_time d n) 0); cbn [negb].
  - cbn [rbind]. eexists. split; [done | lia].
  - rewrite int_add_in by (unfold is_s32; lia). cbn [rbind].
    rewrite int_add_in by (unfold is_s32; disk_consts; lia). cbn [rbind]. eexists. split; [done |]. disk_consts. lia.
Qed.

(** A request that starts. *)
Definition started s s' c (n : Z) (st : Statistics) : Prop :=
  ∃ lat b, 0 < lat < 40000 ∧ 0 <= b < 2 ^ 31 ∧
    s' = with_pending (with_stats (set_disk s (mkDisk c true n b)) st)
           (sinsert PendingCompare (mkPending DDisk (totalTicks (stats s) + lat) DiskInt) (pending (interrupt s))).

Lemma start_request_ok s d n lat count st : 0 <= n < NumSectors → disk_ok d (totalTicks (stats s)) → 0 < lat < 40000 →
  count (stats s) = Ok st → totalTicks st = totalTicks (stats s) →
  ∃ s', start_request DDisk s d n lat count = Ok s' ∧ started s s' (sectors d) n st.
Proof.
  intros Hn Hd Hlat Hst Ht. unfold start_request.
  destruct (UpdateLast_ok (with_active d true) (totalTicks (stats s)) n Hn) as (b & -> & Hb); [done |]. cbn [rbind].
  rewrite Hst. cbn [rbind]. unfold Schedule. cbn [stats with_stats].
  destruct Hd as (_ & _ & Hnow & _). rewrite Ht, int_add_in by (unfold is_s32; lia). cbn [rbind].
  destruct (Z.gtb_spec lat 0); [| lia]. eexists. split; [done |]. by exists lat, b.
Qed.

Lemma sector_get c n : Z.of_nat (length c) = NumSectors → 0 <= n < NumSectors →
  ∃ data, ReadSector c n = Ok data ∧ c !! Z.to_nat n = Some data.
Proof.
  intros Hc Hn. unfold ReadSector, sector_ok. destruct (Z.leb_spec 0 n), (Z.ltb_spec n NumSectors); try lia. cbn.
  destruct (aget_is_Ok c n) as [data Hd]; [lia |]. exists data. split; [done |]. by apply aget_Ok in Hd as [_ Hd].
Qed.

Lemma sector_set c n data : Z.of_nat (length c) = NumSectors → 0 <= n < NumSectors →
  WriteSector c n data = Ok (<[Z.to_nat n := data]> c).
Proof.
  intros Hc Hn. unfold WriteSector, sector_ok. destruct (Z.leb_spec 0 n), (Z.ltb_spec n NumSectors); try lia. cbn.
  apply aset_in. lia.
Qed.

Lemma ReadRequest_ok s n st : 0 <= n < NumSectors → disk_ok (get_disk s) (totalTicks (stats s)) → active (get_disk s) = false →
  count_disk_read (stats s) = Ok st →
  ∃ data s', ReadRequest DDisk s n = Ok (data, s') ∧ sectors (get_disk s) !! Z.to_nat n = Some data ∧
    started s s' (sectors (get_disk s)) n st.
Proof.
  intros Hn Hd Ha Hst. unfold ReadRequest. cbv zeta.
  destruct (ComputeLatency_bounds _ _ n false Hn Hd) as (lat & -> & Hlat). cbn [rbind]. rewrite Ha. cbn [negb rbind].
  destruct (sector_get (sectors (get_disk s)) n) as (data & -> & Hdata); [apply Hd | done |]. cbn [rbind].
  destruct (start_request_ok s (get_disk s) n lat count_disk_read st) as (s' & -> & Hs'); try done.
  - unfold count_disk_read in Hst. by inv_res.
  - cbn [rbind]. by exists data, s'.
Qed.

Lemma WriteRequest_ok s n data st : 0 <= n < NumSectors → disk_ok (get_disk s) (totalTicks (stats s)) → active (get_disk s) = false →
  count_disk_write (stats s) = Ok st →
  ∃ s', WriteRequest DDisk s n data = Ok s' ∧ started s s' (<[Z.to_nat n := data]> (sectors (get_disk s))) n st.
Proof.
  intros Hn Hd Ha Hst. unfold WriteRequest. cbv zeta.
  destruct (ComputeLatency_bounds _ _ n true Hn Hd) as (lat & -> & Hlat). cbn [rbind]. rewrite Ha. cbn [negb rbind].
  rewrite sector_set by (done || apply Hd). cbn [rbind].
  apply (start_request_ok s (with_sectors (get_disk s) (<[Z.to_nat n := data]> (sectors (get_disk s))))); try done.
  - destruct Hd as (? & ? & ? & ?). split; [done |]. split; [done |]. split; [done |]. cbn [sectors with_sectors]. by rewrite length_insert.
  - unfold count_disk_write in Hst. by inv_res.
Qed.

(** A busy disk refuses. *)
Lemma busy_refuses s n data : active (get_disk s) = true →
  (∀ r, ReadRequest DDisk s n ≠ Ok r) ∧ ∀ s', WriteRequest DDisk s n data ≠ Ok s'.
Proof.
  intros Ha. unfold ReadRequest, WriteRequest. cbv zeta. rewrite Ha. cbn [negb].
  split; intros ?; by destruct (ComputeLatency _ _ _ _).
Qed.

(** The disk takes one request at a time.  A write on an idle disk changes
    this sector and no other, moves the head there and announces its end by
    one interrupt within 40000 ticks.  Until then no other request
    is taken.  Its interrupt makes the disk idle again, leaving the sectors
    alone, and a read of any sector then gets what was last written there. *)
Theorem disk_one_request s n data st (Hn : 0 <= n < NumSectors) (Hd : disk_ok (get_disk s) (totalTicks (stats s)))
    (Ha : active (get_disk s) = false) (Hst : count_disk_write (stats s) = Ok st) :
  ∃ s1 lat, WriteRequest DDisk s n data = Ok s1 ∧
    sectors (get_disk s1) = <[Z.to_nat n := data]> (sectors (get_disk s)) ∧ lastSector (get_disk s1) = n ∧ 0 < lat < 40000 ∧
    pending (interrupt s1) = sinsert PendingCompare (mkPending DDisk (totalTicks (stats s) + lat) DiskInt) (pending (interrupt s)) ∧
    (∀ m x, (∀ r, ReadRequest DDisk s1 m ≠ Ok r) ∧ ∀ s', WriteRequest DDisk s1 m x ≠ Ok s') ∧
    ∀ s2, Disk_CallBack s1 = Ok s2 →
      active (get_disk s2) = false ∧ sectors (get_disk s2) = sectors (get_disk s1) ∧
      ∀ m old st', 0 <= m < NumSectors → sectors (get_disk s) !! Z.to_nat m = Some old → count_disk_read (stats s2) = Ok st' →
        ∃ s3, ReadRequest DDisk s2 m = Ok (if decide (m = n) then data else old, s3).
Proof.
  destruct (WriteRequest_ok s n data st Hn Hd Ha Hst) as (s1 & Hw & lat & b & Hlat & Hb & ->).
  set (d1 := mkDisk (<[Z.to_nat n := data]> (sectors (get_disk s))) true n b) in *.
  eexists _, lat. split; [exact Hw |].
  assert (∀ p, get_disk (with_pending (with_stats (set_disk s d1) st) p) = d1) as Hg1.
  { intros p. unfold get_disk, with_pending, with_interrupt, with_stats, set_disk. cbn. apply disk_with. }
  rewrite Hg1. split; [done |]. split; [done |]. split; [done |]. split; [done |].
  split. { intros m x. apply busy_refuses. by rewrite Hg1. }
  intros s2 Hc. unfold Disk_CallBack, SynchDisk_CallBack, lift in Hc. apply bind_Ok in Hc as (k & Hk%wake_env & [= <-]).
  rewrite Hg1 in Hk.
  assert (∀ s0 : Sim, get_disk (with_devices s0 k) = with_active d1 false) as Hg2.
  { intros s0. unfold get_disk. cbn. rewrite Hk. cbn. apply disk_with. }
  rewrite Hg2. split; [done |]. split; [done |]. intros m old st' Hm Hold Hst'.
  edestruct (ReadRequest_ok (with_devices (set_disk (with_pending (with_stats (set_disk s d1) st)
    (sinsert PendingCompare (mkPending DDisk (totalTicks (stats s) + lat) DiskInt) (pending (interrupt s)))) (with_active d1 false)) k) m st')
    as (data' & s3 & Hr & Hdata & _); [done | | by rewrite Hg2 | exact Hst' |].
  - rewrite Hg2. destruct Hd as (? & ? & ? & ?). split; [exact Hn |]. split; [exact Hb |]. split.
    + unfold count_disk_write in Hst. inv_res. done.
    + cbn. by rewrite length_insert.
  - exists s3. rewrite Hg1, Hr. do 2 f_equal. rewrite Hg2 in Hdata. cbn in Hdata. case_decide as Hmn.
    + subst m. rewrite list_lookup_insert_eq in Hdata; [congruence |]. destruct Hd as (_ & _ & _ & Hl). lia.
    + rewrite list_lookup_insert_ne in Hdata by lia. congruence.
Qed.
End requests.

(** ** The law of interrupt handlers *)

#[export] Instance Disk_law {C X E} `{HasDisk E} : DeviceLaw (λ (_ : C) (s : Sim C (Threads X E)), Disk_CallBack s).
Proof.
  apply handler_law. intros _ s s' Hc. transitivity (set_disk s (with_active (get_disk s) false)); [apply handler_env | by eapply handler_wake].
Qed.

(** ** A small disk *)

#[export] Program Instance Disk_itself : HasDisk Disk := {| disk := id; with_disk _ d := d |}.
Next Obligation. done. Qed.

Definition demo_disk_sim : Sim unit (Threads unit Disk) :=
  mkSim Interrupt_new Statistics_new Machine_new
    (mkThreads 1 [] None ∅ {[SUser disk_sem := mkSem 0 []]} ∅ ∅ 2 0 (mkDisk (replicate 1024 [0]) false 5 0)).

Definition demo_written : Sim unit (Threads unit Disk) := from_ok demo_disk_sim (WriteRequest tt demo_disk_sim 40 [7]).
Definition demo_ended : Sim unit (Threads unit Disk) := from_ok demo_disk_sim (Disk_CallBack demo_written).

Lemma is_ok_from {A} (d : A) (r : result A) : is_ok r = true → r = Ok (from_ok d r).
Proof. by destruct r. Qed.

Lemma demo_write_eq : WriteRequest tt demo_disk_sim 40 [7] = Ok demo_written.
Proof. apply is_ok_from. vm_compute. reflexivity. Qed.

Lemma demo_end_eq : Disk_CallBack demo_written = Ok demo_ended.
Proof. apply is_ok_from. vm_compute. reflexivity. Qed.

Lemma disk_one_request_witness : ∃ s3, WriteRequest tt demo_disk_sim 40 [7] = Ok demo_written ∧
  Disk_CallBack demo_written = Ok demo_ended ∧ ReadRequest tt demo_ended 40 = Ok ([7], s3).
Proof.
  destruct (disk_one_request tt demo_disk_sim 40 [7] (mkStats 0 0 0 0 0 1 0 0 0 0 0)) as (s1 & lat & Hw & _ & _ & _ & _ & _ & Hs).
  - done.
  - repeat split; by vm_compute.
  - vm_compute. reflexivity.
  - vm_compute. reflexivity.
  - rewrite demo_write_eq in Hw. injection Hw as <-. destruct (Hs demo_ended demo_end_eq) as (_ & _ & Hr).
    destruct (Hr 40 [0] (mkStats 0 0 0 0 1 1 0 0 0 0 0)) as (s3 & H3); [done | vm_compute; reflexivity | vm_compute; reflexivity |].
    exists s3. split; [exact demo_write_eq |]. split; [exact demo_end_eq | exact H3].
Defined.
