(* ===== verification/NachosFile.v ===== *)
(** * Files on the disk (filesys/filehdr.cc, filesys/openfile.cc)

    File headers, which fill a sector each and name the sectors of the data, and
    [OpenFile], which reads and writes any range of a file through whole
    sectors.  The disk is the list of its sectors ([Disk]); it is used
    by one thread at a time, as filesys.cc says. *)

From S2P Require Import Prelude Bitmap Machine Disk.
Local Open Scope Z_scope.

Definition NumDirect : Z := (SectorSize - 2 * 4) / 4.
Definition MaxFileSize : Z := NumDirect * SectorSize.

Record FileHeader := mkFileHeader { numBytes : Z; numSectors : Z; dataSectors : list Z }.

Implicit Types (c : sectors_t) (h : FileHeader) (m : Bitmap).

Section files.
(** The byte order of the host, and what [new] leaves in a byte array. *)
Variable big_endian : bool.
Variable new_bytes : Z → list Z.

(** ** Words in bytes *)

Definition word_bytes (w : Z) : list Z := host_bytes big_endian 4 (u32 w).
Definition words_bytes (ws : list Z) : list Z := ws ≫= word_bytes.

Fixpoint bytes_words (n : nat) (bs : list Z) : list Z :=
  match n with O => [] | S n => host_word big_endian (take 4 bs) :: bytes_words n (drop 4 bs) end.

(** ** File headers

    An object of the class is the image of its sector. *)

Definition header_bytes h : list Z := words_bytes (numBytes h :: numSectors h :: dataSectors h).
Definition bytes_header (bs : list Z) : FileHeader :=
  let ws := s32 <$> bytes_words 64 bs in
  mkFileHeader (ws !!! 0%nat) (ws !!! 1%nat) (drop 2 ws).

Definition FetchFrom c (sector : Z) : result FileHeader := data ← ReadSector c sector; Ok (bytes_header data).
Definition WriteBack c h (sector : Z) : result sectors_t := WriteSector c sector (header_bytes h).

(** [h]: the header before, uninitialised when it is new. *)
Definition Allocate h m (fileSize : Z) : result (bool * FileHeader * Bitmap) :=
  let ns := divRoundUp fileSize SectorSize in
  free ← NumClear m;
  if free <? ns then Ok (false, mkFileHeader fileSize ns (dataSectors h), m)
  else
    '(ds, m) ← for_each 0 ns (λ i s,
        '(k, m) ← FindAndSet s.2;
        ds ← aset s.1 i k;
        ASSERT (0 <=? k);;
        Ok (ds, m)) (dataSectors h, m);
    Ok (true, mkFileHeader fileSize ns ds, m).

Definition Deallocate h m : result Bitmap :=
  for_each 0 (numSectors h) (λ i m,
    s ← aget (dataSectors h) i;
    t ← Test m s;
    ASSERT t;;
    Clear m s) m.

Definition ByteToSector h (offset : Z) : result Z := aget (dataSectors h) (Z.quot offset SectorSize).
Definition FileLength h : Z := numBytes h.

(** ** Open files *)

Record OpenFile := mkOpenFile { hdr : FileHeader; seekPosition : Z; type : Z }.

Definition OpenFile_new c (sector type : Z) : result OpenFile :=
  h ← FetchFrom c sector; Ok (mkOpenFile h 0 type).

Definition Seek (o : OpenFile) (position : Z) : OpenFile := mkOpenFile (hdr o) position (type o).

(** The bytes read, which the code copies to the front of its argument [into];
    it returns their number. *)
Definition ReadAt h c (numBytes position : Z) : result (list Z) :=
  let fileLength := FileLength h in
  if (numBytes <=? 0) || (fileLength <=? position) then Ok []
  else
    e ← int_add position numBytes;
    numBytes ← (if e >? fileLength then int_sub fileLength position else Ok numBytes);
    e ← int_add position numBytes;
    let firstSector := divRoundDown position SectorSize in
    let lastSector := divRoundDown (e - 1) SectorSize in
    let numSectors := 1 + lastSector - firstSector in
    buf ← for_each firstSector (lastSector + 1) (λ i buf,
            s ← ByteToSector h (i * SectorSize);
            data ← ReadSector c s;
            blk_put buf ((i - firstSector) * SectorSize) data) (new_bytes (numSectors * SectorSize));
    blk_get buf (position - firstSector * SectorSize) numBytes.

Definition WriteAt h c (from : list Z) (numBytes position : Z) : result (Z * sectors_t) :=
  let fileLength := FileLength h in
  if (numBytes <=? 0) || (fileLength <=? position) then Ok (0, c)
  else
    e ← int_add position numBytes;
    numBytes ← (if e >? fileLength then int_sub fileLength position else Ok numBytes);
    e ← int_add position numBytes;
    let firstSector := divRoundDown position SectorSize in
    let lastSector := divRoundDown (e - 1) SectorSize in
    let numSectors := 1 + lastSector - firstSector in
    let buf := new_bytes (numSectors * SectorSize) in
    let firstAligned := position =? firstSector * SectorSize in
    let lastAligned := e =? (lastSector + 1) * SectorSize in
    buf ← (if negb firstAligned
           then bs ← ReadAt h c SectorSize (firstSector * SectorSize); blk_put buf 0 bs
           else Ok buf);
    buf ← (if negb lastAligned && (negb (firstSector =? lastSector) || firstAligned)
           then bs ← ReadAt h c SectorSize (lastSector * SectorSize);
                blk_put buf ((lastSector - firstSector) * SectorSize) bs
           else Ok buf);
    data ← blk_get from 0 numBytes;
    buf ← blk_put buf (position - firstSector * SectorSize) data;
    c ← for_each firstSector (lastSector + 1) (λ i c,
          s ← ByteToSector h (i * SectorSize);
          data ← blk_get buf ((i - firstSector) * SectorSize) SectorSize;
          WriteSector c s data) c;
    Ok (numBytes, c).

Definition Read (o : OpenFile) c (numBytes : Z) : result (list Z * OpenFile) :=
  bs ← ReadAt (hdr o) c numBytes (seekPosition o);
  p ← int_add (seekPosition o) (Z.of_nat (length bs));
  Ok (bs, mkOpenFile (hdr o) p (type o)).

Definition Write (o : OpenFile) c (from : list Z) (numBytes : Z) : result (Z * sectors_t * OpenFile) :=
  '(n, c) ← WriteAt (hdr o) c from numBytes (seekPosition o);
  p ← int_add (seekPosition o) n;
  Ok (n, c, mkOpenFile (hdr o) p (type o)).

Definition Length (o : OpenFile) : Z := FileLength (hdr o).
Definition GetCurrentPos (o : OpenFile) : Z := seekPosition o.

(** ** Words in bytes, and back *)

Lemma word_bytes_length w : length (word_bytes w) = 4%nat.
Proof. apply Nat2Z.inj. unfold word_bytes, host_bytes. destruct big_endian; rewrite ?length_reverse; by apply (length_Z_to_little_endian 4 8). Qed.

Lemma word_bytes_ok w : Forall is_byte (word_bytes w).
Proof. unfold word_bytes, host_bytes. destruct big_endian; [apply reverse_bytes |]; by apply le_is_byte. Qed.

Lemma host_word_bytes w : host_word big_endian (word_bytes w) = u32 w.
Proof.
  unfold word_bytes, host_word, host_bytes.
  assert (little_endian_to_Z 8 (Z_to_little_endian 4 8 (u32 w)) = u32 w) as Heq.
  { rewrite little_endian_to_Z_to_little_endian by lia. apply Z.mod_small. apply u32_range. }
  destruct big_endian; [by rewrite reverse_involutive | done].
Qed.

Lemma word_of_bytes bs : length bs = 4%nat → Forall is_byte bs →
  word_bytes (host_word big_endian bs) = bs ∧ is_u32 (host_word big_endian bs).
Proof.
  intros Hl Hb. unfold word_bytes, host_word, host_bytes.
  assert (∀ l, length l = 4%nat → Forall is_byte l →
    is_u32 (little_endian_to_Z 8 l) ∧ Z_to_little_endian 4 8 (u32 (little_endian_to_Z 8 l)) = l) as Hw.
  { intros l Hll Hlb. pose proof (le_decode_bound l 4 ltac:(lia) Hlb) as Hr. split; [exact Hr |].
    rewrite u32_id by exact Hr. apply Z_to_little_endian_to_Z; [lia | lia | done]. }
  destruct big_endian; [| by apply and_comm, Hw].
  destruct (Hw (reverse bs)) as [H1 H2]; [by rewrite length_reverse | by apply reverse_bytes |].
  split; [| done]. by rewrite H2, reverse_involutive.
Qed.

Lemma words_bytes_length ws : length (words_bytes ws) = (4 * length ws)%nat.
Proof. unfold words_bytes. induction ws as [|w ws IH]; [done |]. cbn. rewrite length_app, IH, word_bytes_length. lia. Qed.

Lemma words_bytes_ok ws : Forall is_byte (words_bytes ws).
Proof. unfold words_bytes. induction ws as [|w ws IH]; [done |]. cbn. apply Forall_app. split; [apply word_bytes_ok | done]. Qed.

Lemma words_bytes_round ws : bytes_words (length ws) (words_bytes ws) = u32 <$> ws.
Proof.
  induction ws as [|w ws IH]; [done |]. unfold words_bytes. cbn [mbind list_bind length bytes_words fmap list_fmap].
  rewrite take_app_length', drop_app_length' by (by rewrite word_bytes_length). by rewrite host_word_bytes, <- IH.
Qed.

Lemma bytes_words_round n : ∀ bs, length bs = (4 * n)%nat → Forall is_byte bs →
  words_bytes (bytes_words n bs) = bs ∧ length (bytes_words n bs) = n ∧ Forall is_u32 (bytes_words n bs).
Proof.
  induction n as [|n IH]; intros bs Hl Hb; [by destruct bs |]. cbn [bytes_words].
  destruct (word_of_bytes (take 4 bs)) as [H1 H2]; [rewrite length_take; lia | by apply Forall_take |].
  destruct (IH (drop 4 bs)) as (H3 & H4 & H5); [rewrite length_drop; lia | by apply Forall_drop |].
  unfold words_bytes in *. cbn [mbind list_bind]. rewrite H1, H3. split; [apply take_drop |].
  split; [cbn; by rewrite H4 | by constructor].
Qed.

Lemma s32_u32_list ws : Forall is_s32 ws → s32 <$> (u32 <$> ws) = ws.
Proof.
  intros Hw. rewrite <- list_fmap_compose. induction Hw as [|w ws H1 _ IH]; [done |]. cbn. by rewrite IH, s32_u32, s32_id.
Qed.

(** A header survives its sector. *)
Definition header_ints h : Prop :=
  is_s32 (numBytes h) ∧ is_s32 (numSectors h) ∧ Forall is_s32 (dataSectors h) ∧ length (dataSectors h) = Z.to_nat NumDirect.

Lemma header_round h : header_ints h → bytes_header (header_bytes h) = h ∧ length (header_bytes h) = Z.to_nat SectorSize.
Proof.
  intros (H1 & H2 & H3 & H4). unfold header_bytes, bytes_header. rewrite words_bytes_length.
  replace 64%nat with (length (numBytes h :: numSectors h :: dataSectors h)) by (cbn [length]; by rewrite H4).
  rewrite words_bytes_round, s32_u32_list by (constructor; [done | by constructor]). split; [destruct h; reflexivity |]. cbn [length]. by rewrite H4.
Qed.

(** ** The bytes of a file *)

Definition disk_wf c : Prop := Z.of_nat (length c) = NumSectors ∧ Forall (λ s, Z.of_nat (length s) = SectorSize) c.

Definition data_sectors h : list Z := take (Z.to_nat (numSectors h)) (dataSectors h).

Record header_ok h : Prop := {
  hok_size : 0 <= numBytes h;
  hok_count : numSectors h = divRoundUp (numBytes h) SectorSize;
  hok_direct : numSectors h <= NumDirect;
  hok_length : length (dataSectors h) = Z.to_nat NumDirect;
  hok_range : Forall (λ s, 0 <= s < NumSectors) (data_sectors h);
  hok_distinct : NoDup (data_sectors h) }.

(** Byte [j] of the file: its sector, and the place in it. *)
Definition file_byte c h (j : Z) : option Z :=
  dataSectors h !! Z.to_nat (j / SectorSize) ≫= λ s, c !! Z.to_nat s ≫= λ data, data !! Z.to_nat (j mod SectorSize).

Definition shows c h (content : list Z) : Prop :=
  Z.of_nat (length content) = numBytes h ∧ ∀ j, 0 <= j < numBytes h → content !! Z.to_nat j = file_byte c h j.

Lemma SectorSize_eq : SectorSize = 256.
Proof. reflexivity. Qed.

Lemma count_bounds h : header_ok h → 0 <= numSectors h <= 62 ∧ numBytes h <= 256 * numSectors h.
Proof.
  intros Hh. pose proof (hok_size h Hh). pose proof (hok_count h Hh) as Hc. pose proof (hok_direct h Hh) as Hd.
  change NumDirect with 62 in Hd. rewrite SectorSize_eq in Hc.
  destruct (divRoundUp_spec (numBytes h) 256) as [|[]]; lia.
Qed.

Lemma sector_at h i : header_ok h → 0 <= i < numSectors h →
  ∃ s, dataSectors h !! Z.to_nat i = Some s ∧ 0 <= s < NumSectors ∧ data_sectors h !! Z.to_nat i = Some s.
Proof.
  intros Hh Hi. pose proof (count_bounds h Hh). pose proof (hok_length h Hh) as Hl. change (Z.to_nat NumDirect) with 62%nat in Hl.
  destruct (lookup_lt_is_Some_2 (dataSectors h) (Z.to_nat i)) as [s Hs]; [lia |].
  assert (data_sectors h !! Z.to_nat i = Some s) as Hd by (unfold data_sectors; by rewrite lookup_take_lt by lia).
  exists s. split; [done |]. split; [| done]. by eapply (Forall_lookup_1 _ _ _ _ (hok_range h Hh)).
Qed.

Lemma sector_data c n : disk_wf c → 0 <= n < NumSectors → ∃ data, ReadSector c n = Ok data ∧ c !! Z.to_nat n = Some data ∧
  Z.of_nat (length data) = SectorSize.
Proof.
  intros [Hc Hf] Hn. destruct (sector_get c n Hc Hn) as (data & Hr & Hd). exists data. split; [done |]. split; [done |].
  by eapply (Forall_lookup_1 _ _ _ _ Hf).
Qed.

Lemma byte_place i q : 0 <= q < SectorSize → (i * SectorSize + q) / SectorSize = i ∧ (i * SectorSize + q) mod SectorSize = q.
Proof.
  rewrite SectorSize_eq. intros Hq. split; [symmetry; apply Z.div_unique with q; lia | symmetry; apply Z.mod_unique with i; lia].
Qed.

Lemma ByteToSector_at h i s : 0 <= i → dataSectors h !! Z.to_nat i = Some s → ByteToSector h (i * SectorSize) = Ok s.
Proof. intros Hi Hs. unfold ByteToSector. rewrite Z.quot_mul by done. by apply aget_Ok. Qed.

(** The loop that reads whole sectors. *)
Lemma read_sectors c h lo hi buf : disk_wf c → header_ok h → 0 <= lo <= hi → hi <= numSectors h →
  Z.of_nat (length buf) = (hi - lo) * SectorSize →
  ∃ buf', for_each lo hi (λ i buf,
      s ← ByteToSector h (i * SectorSize);
      data ← ReadSector c s;
      blk_put buf ((i - lo) * SectorSize) data) buf = Ok buf' ∧ length buf' = length buf ∧
    ∀ q, 0 <= q < (hi - lo) * SectorSize → buf' !! Z.to_nat q = file_byte c h (lo * SectorSize + q).
Proof.
  intros Hc Hh Hlo Hhi Hbuf.
  edestruct (for_each_rule (λ i (b : list Z), length b = length buf ∧ ∀ q, 0 <= q < (i - lo) * SectorSize →
    b !! Z.to_nat q = file_byte c h (lo * SectorSize + q)) lo hi) as (b & Hb & Hl & Hq); [| | | exists b; split; [exact Hb | done]].
  - lia.
  - split; [done |]. intros q Hq. lia.
  - intros i b Hi [Hl Hq]. destruct (sector_at h i) as (s & Hs & Hr & _); [done | lia |].
    rewrite (ByteToSector_at _ _ s) by (done || lia). cbn [rbind].
    destruct (sector_data c s Hc Hr) as (data & -> & Hd & Hdl). cbn [rbind].
    pose proof SectorSize_eq as HS.
    destruct (blk_put b ((i - lo) * SectorSize) data) as [b'|] eqn:Hp; [| rewrite blk_put_in in Hp by nia; done].
    exists b'. split; [done |]. split; [by rewrite (blk_put_length _ _ _ _ Hp) |]. intros q Hqr.
    rewrite (blk_put_lookup _ _ _ _ _ Hp) by lia. case_decide as Hin.
    + unfold file_byte. replace (lo * SectorSize + q) with (i * SectorSize + (q - (i - lo) * SectorSize)) by lia.
      destruct (byte_place i (q - (i - lo) * SectorSize)) as [-> ->]; [lia |]. rewrite Hs. cbn. rewrite Hd. done.
    + apply Hq. nia.
Qed.

Hypothesis new_bytes_length : ∀ n, 0 <= n → Z.of_nat (length (new_bytes n)) = n.

(** The sectors of a range of bytes. *)
Lemma range_sectors h pos n : header_ok h → 0 <= pos → 0 < n → pos + n <= numBytes h →
  let lo := divRoundDown pos SectorSize in
  let hi := divRoundDown (pos + n - 1) SectorSize + 1 in
  0 <= lo < hi ∧ hi <= numSectors h ∧ lo * SectorSize <= pos < (lo + 1) * SectorSize ∧
  (hi - 1) * SectorSize < pos + n <= hi * SectorSize.
Proof.
  intros Hh Hp Hn Hle. cbv zeta. unfold divRoundDown. rewrite SectorSize_eq, !Z.quot_div_nonneg by lia.
  destruct (count_bounds h Hh) as [_ Hc].
  pose proof (Z.div_mod pos 256). pose proof (Z.mod_pos_bound pos 256).
  pose proof (Z.div_mod (pos + n - 1) 256). pose proof (Z.mod_pos_bound (pos + n - 1) 256). lia.
Qed.

Lemma ReadAt_bytes c h content n pos : disk_wf c → header_ok h → shows c h content → 0 <= pos → pos + n < 2 ^ 31 →
  ReadAt h c n pos = Ok (bytes_at content pos n).
Proof.
  intros Hc Hh [Hlen Hs] Hpos Hn. unfold ReadAt, FileLength.
  destruct (Z.leb_spec n 0); [unfold bytes_at; by replace (Z.to_nat n) with 0%nat by lia |].
  destruct (Z.leb_spec (numBytes h) pos); [by rewrite bytes_at_short by lia |]. cbn [orb].
  pose proof (count_bounds h Hh) as Hcb. rewrite int_add_in by (unfold is_s32; lia). cbn [rbind].
  assert (∃ k, (if pos + n >? numBytes h then int_sub (numBytes h) pos else Ok n) = Ok k ∧ 0 < k ∧ pos + k <= numBytes h ∧
    bytes_at content pos n = bytes_at content pos k) as (k & -> & Hk & Hle & ->).
  { destruct (Z.gtb_spec (pos + n) (numBytes h)).
    - exists (numBytes h - pos). rewrite int_sub_in by (unfold is_s32; lia). split; [done |]. split; [lia |]. split; [lia |].
      rewrite bytes_at_clip by lia. by rewrite Hlen.
    - by exists n. }
  cbn [rbind]. rewrite int_add_in by (unfold is_s32; lia). cbn [rbind].
  destruct (range_sectors h pos k Hh Hpos Hk Hle) as (Hr & Hhi & Hlo & He).
  set (lo := divRoundDown pos SectorSize) in *. set (last := divRoundDown (pos + k - 1) SectorSize) in *.
  rewrite SectorSize_eq in *.
  destruct (read_sectors c h lo (last + 1) (new_bytes ((1 + last - lo) * 256)) Hc Hh) as (buf & Hb & Hbl & Hbq); [lia | lia | |].
  { rewrite new_bytes_length by lia. rewrite SectorSize_eq. lia. }
  rewrite SectorSize_eq in Hb, Hbq. rewrite Hb. cbn [rbind].
  pose proof (new_bytes_length ((1 + last - lo) * 256)) as Hnb.
  destruct (blk_get buf (pos - lo * 256) k) as [bs|] eqn:Hg; [| pose proof (blk_get_in buf (pos - lo * 256) k) as Hin; rewrite Hg in Hin; destruct Hin; lia].
  f_equal. apply blk_ext with k; [by eapply blk_get_length | apply bytes_at_length; lia |]. intros j Hj.
  rewrite (blk_get_lookup _ _ _ _ _ Hg) by done. rewrite bytes_at_lookup by lia. rewrite Hbq, Hs by lia. f_equal. lia.
Qed.

(** The loop that writes whole sectors. *)
Lemma write_sectors c h lo hi buf : disk_wf c → header_ok h → 0 <= lo <= hi → hi <= numSectors h →
  Z.of_nat (length buf) = (hi - lo) * SectorSize →
  ∃ c', for_each lo hi (λ i c,
      s ← ByteToSector h (i * SectorSize);
      data ← blk_get buf ((i - lo) * SectorSize) SectorSize;
      WriteSector c s data) c = Ok c' ∧ disk_wf c' ∧
    (∀ s, 0 <= s → s ∉ data_sectors h → c' !! Z.to_nat s = c !! Z.to_nat s) ∧
    ∀ k s, 0 <= k < numSectors h → dataSectors h !! Z.to_nat k = Some s →
      c' !! Z.to_nat s = if decide (lo <= k < hi) then Some (bytes_at buf ((k - lo) * SectorSize) SectorSize) else c !! Z.to_nat s.
Proof.
  intros Hc Hh Hlo Hhi Hbuf. pose proof SectorSize_eq as HS.
  edestruct (for_each_rule (λ i c', disk_wf c' ∧
    (∀ s, 0 <= s → s ∉ data_sectors h → c' !! Z.to_nat s = c !! Z.to_nat s) ∧
    ∀ k s, 0 <= k < numSectors h → dataSectors h !! Z.to_nat k = Some s →
      c' !! Z.to_nat s = if decide (lo <= k < i) then Some (bytes_at buf ((k - lo) * SectorSize) SectorSize) else c !! Z.to_nat s) lo hi)
    as (c' & Hb & Hinv); [| | | exists c'; split; [exact Hb | exact Hinv]].
  - lia.
  - split; [done |]. split; [done |]. intros k s Hk _. by rewrite decide_False by lia.
  - intros i c1 Hi (Hc1 & Hout & Hin). destruct (sector_at h i Hh) as (s & Hs & Hr & Hds); [lia |].
    rewrite (ByteToSector_at _ _ s) by (done || lia). cbn [rbind].
    destruct (blk_get buf ((i - lo) * SectorSize) SectorSize) as [data|] eqn:Hg;
      [| pose proof (blk_get_in buf ((i - lo) * SectorSize) SectorSize) as Hx; rewrite Hg in Hx; destruct Hx; nia].
    cbn [rbind]. pose proof Hc1 as [Hcl Hcf]. rewrite sector_set by done. eexists. split; [done |].
    pose proof (blk_get_length _ _ _ _ Hg) as Hdl. apply blk_get_Ok in Hg as (_ & _ & _ & Hdata).
    split; [split; [by rewrite length_insert | by apply Forall_insert] |]. split.
    + intros s0 H0 Hs0. rewrite list_lookup_insert_ne; [by apply Hout |]. intros Heq. apply Hs0.
      assert (s0 = s) as -> by lia. by eapply list_elem_of_lookup_2.
    + intros k s0 Hk Hs0. destruct (decide (k = i)) as [->|Hne].
      * rewrite Hs in Hs0. injection Hs0 as <-. rewrite list_lookup_insert_eq by lia. rewrite decide_True by lia. by rewrite Hdata.
      * destruct (sector_at h k Hh Hk) as (s1 & Hs1 & Hr1 & Hds1). rewrite Hs0 in Hs1. injection Hs1 as <-.
        rewrite list_lookup_insert_ne.
        { rewrite (Hin k s0) by done. destruct (decide (lo <= k < i)), (decide (lo <= k < i + 1)); done || lia. }
        intros Heq. assert (s0 = s) as -> by lia. pose proof (hok_distinct h Hh) as Hd. rewrite NoDup_alt in Hd.
        specialize (Hd _ _ _ Hds Hds1). lia.
Qed.

(** ... and what it does to the bytes of the file. *)
Lemma written_bytes c c' h lo hi buf j : disk_wf c → header_ok h → 0 <= lo <= hi → hi <= numSectors h →
  Z.of_nat (length buf) = (hi - lo) * SectorSize →
  (∀ k s, 0 <= k < numSectors h → dataSectors h !! Z.to_nat k = Some s →
      c' !! Z.to_nat s = if decide (lo <= k < hi) then Some (bytes_at buf ((k - lo) * SectorSize) SectorSize) else c !! Z.to_nat s) →
  0 <= j < numBytes h →
  file_byte c' h j = if decide (lo * SectorSize <= j < hi * SectorSize) then buf !! Z.to_nat (j - lo * SectorSize) else file_byte c h j.
Proof.
  intros Hc Hh Hlo Hhi Hbuf Hin Hj. unfold file_byte. destruct (count_bounds h Hh) as [_ Hb]. rewrite SectorSize_eq in *.
  pose proof (Z.div_mod j 256). pose proof (Z.mod_pos_bound j 256).
  destruct (sector_at h (j / 256) Hh) as (s & Hs & _); [lia |]. rewrite Hs. cbn. rewrite (Hin (j / 256) s) by (done || lia).
  destruct (decide (lo <= j / 256 < hi)), (decide (lo * 256 <= j < hi * 256)); try lia; [| done].
  cbn. rewrite bytes_at_lookup by lia. f_equal. lia.
Qed.

(** Filling one sector of the buffer of [WriteAt] from the file. *)
Lemma fill_sector c h content lo hi i buf : disk_wf c → header_ok h → shows c h content → 0 <= lo <= i → i < hi → hi <= numSectors h →
  Z.of_nat (length buf) = (hi - lo) * SectorSize →
  ∃ buf', (bs ← ReadAt h c SectorSize (i * SectorSize); blk_put buf ((i - lo) * SectorSize) bs) = Ok buf' ∧ length buf' = length buf ∧
    ∀ q, 0 <= q → buf' !! Z.to_nat q =
      if decide ((i - lo) * SectorSize <= q < (i - lo + 1) * SectorSize ∧ lo * SectorSize + q < numBytes h)
      then content !! Z.to_nat (lo * SectorSize + q) else buf !! Z.to_nat q.
Proof.
  intros Hc Hh Hs Hlo Hi Hhi Hbuf. pose proof (count_bounds h Hh) as Hcb. pose proof Hs as [Hlen _].
  rewrite (ReadAt_bytes c h content) by (done || rewrite SectorSize_eq; lia). cbn [rbind]. rewrite SectorSize_eq in *.
  assert (Z.of_nat (length (bytes_at content (i * 256) 256)) = Z.max 0 (Z.min 256 (numBytes h - i * 256))) as Hbl.
  { unfold bytes_at. rewrite length_take, length_drop. lia. }
  destruct (blk_put buf ((i - lo) * 256) (bytes_at content (i * 256) 256)) as [b'|] eqn:Hp; [| rewrite blk_put_in in Hp by lia; done].
  exists b'. split; [done |]. split; [by eapply blk_put_length |]. intros q Hq. rewrite (blk_put_lookup _ _ _ _ _ Hp) by done.
  rewrite Hbl. repeat case_decide; try lia; [| done]. rewrite bytes_at_lookup by lia. f_equal. lia.
Qed.

(** What a write leaves in the file. *)
Definition write_into (content : list Z) (pos n : Z) (from : list Z) : list Z :=
  if n <=? 0 then content else list_inserts (Z.to_nat pos) (take (Z.to_nat n) from) content.
Definition write_count (content : list Z) (pos n : Z) : Z :=
  if (n <=? 0) || (Z.of_nat (length content) <=? pos) then 0 else Z.min n (Z.of_nat (length content) - pos).

Lemma write_into_length content pos n from : length (write_into content pos n from) = length content.
Proof. unfold write_into. destruct (n <=? 0); [done | apply length_inserts]. Qed.

Lemma write_into_lookup content pos n from j : 0 <= pos → n <= Z.of_nat (length from) → 0 <= j < Z.of_nat (length content) →
  write_into content pos n from !! Z.to_nat j =
    if decide (pos <= j < pos + n) then from !! Z.to_nat (j - pos) else content !! Z.to_nat j.
Proof.
  intros Hp Hn Hj. unfold write_into. destruct (Z.leb_spec n 0); [by rewrite decide_False by lia |].
  case_decide.
  - rewrite list_lookup_inserts by (rewrite ?length_take; lia). rewrite lookup_take_lt by lia. f_equal. lia.
  - destruct (decide (j < pos)).
    + by rewrite list_lookup_inserts_lt by lia.
    + by rewrite list_lookup_inserts_ge by (rewrite length_take; lia).
Qed.

Lemma write_into_all content from n : 0 < n → Z.of_nat (length content) = n → Z.of_nat (length from) = n →
  write_into content 0 n from = from.
Proof.
  intros H0 Hc Hf. apply blk_ext with n; [by rewrite write_into_length | done |].
  intros j Hj. rewrite write_into_lookup, decide_True by lia. f_equal. lia.
Qed.

Lemma WriteAt_bytes c h content from n pos : disk_wf c → header_ok h → shows c h content → 0 <= pos → pos + n < 2 ^ 31 →
  n <= Z.of_nat (length from) →
  ∃ c', WriteAt h c from n pos = Ok (write_count content pos n, c') ∧ disk_wf c' ∧
    shows c' h (write_into content pos n from) ∧
    ∀ s, 0 <= s → s ∉ data_sectors h → c' !! Z.to_nat s = c !! Z.to_nat s.
Proof.
  intros Hc Hh Hs Hpos Hn Hfrom. pose proof Hs as [Hlen Hbytes]. unfold WriteAt, FileLength, write_count. rewrite Hlen.
  destruct (Z.leb_spec n 0).
  { exists c. cbn [orb]. unfold write_into. destruct (Z.leb_spec n 0); [done | lia]. }
  destruct (Z.leb_spec (numBytes h) pos); cbn [orb].
  { exists c. split; [done |]. split; [done |]. split; [| done]. split; [by rewrite write_into_length |].
    intros j Hj. rewrite write_into_lookup, decide_False by lia. by apply Hbytes. }
  pose proof (count_bounds h Hh) as Hcb. rewrite int_add_in by (unfold is_s32; lia). cbn [rbind].
  assert ((if pos + n >? numBytes h then int_sub (numBytes h) pos else Ok n) = Ok (Z.min n (numBytes h - pos))) as ->.
  { destruct (Z.gtb_spec (pos + n) (numBytes h)); [rewrite int_sub_in by (unfold is_s32; lia); f_equal; lia | f_equal; lia]. }
  cbn [rbind]. set (k := Z.min n (numBytes h - pos)). rewrite int_add_in by (unfold is_s32; lia). cbn [rbind].
  destruct (range_sectors h pos k Hh) as (Hr & Hhi & Hlo & He); [lia | lia | lia |].
  set (lo := divRoundDown pos SectorSize) in *. set (last := divRoundDown (pos + k - 1) SectorSize) in *.
  set (b0 := new_bytes ((1 + last - lo) * SectorSize)).
  assert (Z.of_nat (length b0) = (last + 1 - lo) * SectorSize) as Hb0 by (unfold b0; rewrite new_bytes_length; rewrite SectorSize_eq; lia).
  assert (∃ b1, (if negb (pos =? lo * SectorSize)
      then bs ← ReadAt h c SectorSize (lo * SectorSize); blk_put b0 0 bs else Ok b0) = Ok b1 ∧ length b1 = length b0 ∧
    (pos ≠ lo * SectorSize → ∀ q, 0 <= q < SectorSize → lo * SectorSize + q < numBytes h →
       b1 !! Z.to_nat q = content !! Z.to_nat (lo * SectorSize + q))) as (b1 & -> & Hl1 & H1).
  { destruct (Z.eqb_spec pos (lo * SectorSize)); cbn [negb]; [by exists b0 |].
    destruct (fill_sector c h content lo (last + 1) lo b0 Hc Hh Hs) as (b1 & Hb1 & Hl1 & Hq1); [lia | lia | lia | done |].
    rewrite Z.sub_diag, Z.mul_0_l in Hb1. exists b1. split; [exact Hb1 |]. split; [done |]. intros _ q Hq Hlq.
    rewrite Hq1 by lia. rewrite decide_True by lia. done. }
  cbn [rbind].
  assert (∃ b2, (if negb (pos + k =? (last + 1) * SectorSize) && (negb (lo =? last) || (pos =? lo * SectorSize))
      then bs ← ReadAt h c SectorSize (last * SectorSize); blk_put b1 ((last - lo) * SectorSize) bs else Ok b1) = Ok b2 ∧
    length b2 = length b0 ∧ ∀ q, 0 <= q < (last + 1 - lo) * SectorSize → lo * SectorSize + q < numBytes h →
       ¬ pos <= lo * SectorSize + q < pos + k → b2 !! Z.to_nat q = content !! Z.to_nat (lo * SectorSize + q))
    as (b2 & -> & Hl2 & H2).
  { rewrite SectorSize_eq in *. destruct (_ && _) eqn:Hcond.
    - destruct (fill_sector c h content lo (last + 1) last b1 Hc Hh Hs) as (b2 & Hb2 & Hl2 & Hq2); [lia | lia | lia | rewrite SectorSize_eq; lia |].
      rewrite SectorSize_eq in *. exists b2. split; [exact Hb2 |]. split; [lia |]. intros q Hq Hlq Hout. rewrite Hq2 by lia.
      case_decide; [done |]. apply H1; lia.
    - exists b1. split; [done |]. split; [done |]. intros q Hq Hlq Hout. apply H1; [| | done]; lia. }
  cbn [rbind].
  destruct (blk_get from 0 k) as [data|] eqn:Hg; [| pose proof (blk_get_in from 0 k) as Hx; rewrite Hg in Hx; destruct Hx; lia].
  cbn [rbind]. pose proof (blk_get_length _ _ _ _ Hg) as Hdl.
  destruct (blk_put b2 (pos - lo * SectorSize) data) as [b3|] eqn:Hp; [| rewrite blk_put_in in Hp by (rewrite ?SectorSize_eq in *; lia); done].
  cbn [rbind]. pose proof (blk_put_length _ _ _ _ Hp) as Hl3.
  destruct (write_sectors c h lo (last + 1) b3 Hc Hh) as (c' & -> & Hc' & Hout & Hin); [lia | lia | lia |].
  cbn [rbind]. exists c'. split; [done |]. split; [done |]. split; [| done]. split; [by rewrite write_into_length |].
  intros j Hj. rewrite (written_bytes c c' h lo (last + 1) b3 j Hc Hh) by (done || lia). rewrite write_into_lookup by lia.
  case_decide as Hrange; case_decide as Hpn; rewrite SectorSize_eq in *; try lia; [| | by apply Hbytes].
  - rewrite (blk_put_lookup _ _ _ _ _ Hp) by lia. rewrite decide_True by lia.
    replace (j - lo * 256 - (pos - lo * 256)) with (j - pos) by lia.
    rewrite (blk_get_lookup _ _ _ _ _ Hg) by lia. done.
  - rewrite (blk_put_lookup _ _ _ _ _ Hp) by lia. rewrite decide_False by lia. rewrite H2 by lia. f_equal. lia.
Qed.

(** ** An open file as its user sees it

    Its bytes, their number fixed, and the position. *)

Inductive ncall := NSeek (p : Z) | NRead (n : Z) | NWrite (from : list Z) (n : Z)
  | NReadAt (n p : Z) | NWriteAt (from : list Z) (n p : Z).

(** A call gives a number, and the bytes it reads. *)
Definition spec_ncall (v : list Z * Z) (x : ncall) : (Z * list Z) * (list Z * Z) :=
  let '(content, pos) := v in
  let got bs := (Z.of_nat (length bs), bs) in
  match x with
  | NSeek p => ((0, []), (content, p))
  | NRead n => let bs := bytes_at content pos n in (got bs, (content, pos + Z.of_nat (length bs)))
  | NReadAt n p => (got (bytes_at content p n), v)
  | NWrite from n =>
      let k := write_count content pos n in ((k, []), (write_into content pos n from, pos + k))
  | NWriteAt from n p => ((write_count content p n, []), (write_into content p n from, pos))
  end.

Fixpoint spec_ncalls (v : list Z * Z) (xs : list ncall) : list (Z * list Z) * (list Z * Z) :=
  match xs with
  | [] => ([], v)
  | x :: xs => let '(r, v) := spec_ncall v x in let '(rs, v) := spec_ncalls v xs in (r :: rs, v)
  end.

Definition ncall_run (s : OpenFile * sectors_t) (x : ncall) : result ((Z * list Z) * (OpenFile * sectors_t)) :=
  let '(o, c) := s in
  match x with
  | NSeek p => Ok ((0, []), (Seek o p, c))
  | NRead n => '(bs, o) ← Read o c n; Ok ((Z.of_nat (length bs), bs), (o, c))
  | NReadAt n p => bs ← ReadAt (hdr o) c n p; Ok ((Z.of_nat (length bs), bs), s)
  | NWrite from n => '(k, c, o) ← Write o c from n; Ok ((k, []), (o, c))
  | NWriteAt from n p => '(k, c) ← WriteAt (hdr o) c from n p; Ok ((k, []), (o, c))
  end.

Fixpoint ncalls_run (s : OpenFile * sectors_t) (xs : list ncall) : result (list (Z * list Z) * (OpenFile * sectors_t)) :=
  match xs with
  | [] => Ok ([], s)
  | x :: xs => '(r, s) ← ncall_run s x; '(rs, s) ← ncalls_run s xs; Ok (r :: rs, s)
  end.

(** Positions and sizes are not negative and far from the end of an [int];
    buffers hold what they are said to. *)
Definition ncall_ok (x : ncall) : Prop :=
  match x with
  | NSeek p => 0 <= p < 2 ^ 30
  | NRead n => n < 2 ^ 30
  | NReadAt n p => 0 <= p < 2 ^ 30 ∧ n < 2 ^ 30
  | NWrite from n => n < 2 ^ 30 ∧ n <= Z.of_nat (length from)
  | NWriteAt from n p => 0 <= p < 2 ^ 30 ∧ n < 2 ^ 30 ∧ n <= Z.of_nat (length from)
  end.

Definition on_disk (o : OpenFile) c (v : list Z * Z) : Prop :=
  disk_wf c ∧ header_ok (hdr o) ∧ shows c (hdr o) v.1 ∧ seekPosition o = v.2 ∧ 0 <= v.2 < 2 ^ 30.

(** Sectors of other files, and those of nobody. *)
Definition elsewhere h c c' : Prop := ∀ s, 0 <= s → s ∉ data_sectors h → c' !! Z.to_nat s = c !! Z.to_nat s.

Lemma ncall_spec o c v x : on_disk o c v → ncall_ok x →
  ∃ o' c', ncall_run (o, c) x = Ok ((spec_ncall v x).1, (o', c')) ∧ on_disk o' c' (spec_ncall v x).2 ∧
    hdr o' = hdr o ∧ type o' = type o ∧ elsewhere (hdr o) c c'.
Proof.
  destruct v as [content pos]. intros (Hc & Hh & Hs & Hp & Hpos) Hx. cbn [fst snd] in *. pose proof Hs as [Hlen _].
  pose proof (count_bounds _ Hh) as Hcb.
  assert (∀ p n, 0 <= p → Z.of_nat (length (bytes_at content p n)) <= Z.max 0 (numBytes (hdr o) - p)) as Hba.
  { intros p n H0. unfold bytes_at. rewrite length_take, length_drop. lia. }
  destruct x as [p|n|from n|n p|from n p]; cbn [ncall_run spec_ncall ncall_ok fst snd] in *.
  - exists (Seek o p), c. split; [done |]. split; [done |]. done.
  - unfold Read. rewrite (ReadAt_bytes c (hdr o) content) by (done || lia). cbn [rbind]. specialize (Hba pos n).
    rewrite Hp, int_add_in by (unfold is_s32; lia). cbn [rbind]. eexists _, c. split; [done |]. split; [| done].
    split; [done |]. split; [done |]. split; [done |]. split; [done |]. cbn.
    destruct (decide (numBytes (hdr o) <= pos)); lia.
  - unfold Write. rewrite Hp. destruct (WriteAt_bytes c (hdr o) content from n pos) as (c' & -> & Hc' & Hs' & He); [done | done | done | lia | lia | lia |].
    cbn [rbind]. assert (0 <= write_count content pos n /\ pos + write_count content pos n < 2 ^ 30) as Hw.
    { unfold write_count. destruct (Z.leb_spec n 0), (Z.leb_spec (Z.of_nat (length content)) pos); cbn [orb]; lia. }
    rewrite int_add_in by (unfold is_s32; lia). cbn [rbind]. eexists _, c'. split; [done |]. split; [| done].
    split; [done |]. split; [done |]. split; [done |]. split; [done |]. cbn. lia.
  - rewrite (ReadAt_bytes c (hdr o) content) by (done || lia). cbn [rbind]. exists o, c. by split.
  - destruct (WriteAt_bytes c (hdr o) content from n p) as (c' & -> & Hc' & Hs' & He); [done | done | done | lia | lia | lia |].
    cbn [rbind]. exists o, c'. by split.
Qed.

Lemma ncalls_spec o c v xs : on_disk o c v → Forall ncall_ok xs →
  ∃ o' c', ncalls_run (o, c) xs = Ok ((spec_ncalls v xs).1, (o', c')) ∧ on_disk o' c' (spec_ncalls v xs).2 ∧
    hdr o' = hdr o ∧ type o' = type o ∧ elsewhere (hdr o) c c'.
Proof.
  intros Ho Hx. revert o c v Ho. induction Hx as [|x xs Hx Hxs IH]; intros o c v Ho; [by exists o, c |].
  destruct (ncall_spec o c v x Ho Hx) as (o1 & c1 & H1 & Ho1 & Hh1 & Ht1 & He1). cbn [spec_ncalls ncalls_run].
  destruct (spec_ncall v x) as [r v1]. rewrite H1. cbn [rbind fst snd] in *.
  destruct (IH o1 c1 v1 Ho1) as (o2 & c2 & -> & Ho2 & Hh2 & Ht2 & He2). destruct (spec_ncalls v1 xs) as [rs v2]. cbn [rbind fst snd] in *.
  exists o2, c2. split; [done |]. split; [done |]. split; [congruence |]. split; [congruence |].
  intros s H0 Hns. rewrite He2; [by apply He1 | done | by rewrite Hh1].
Qed.

(** C17: a file on the disk is an array of bytes.  On a file with a well-formed
    header, any sequence of [Seek], [Read], [Write], [ReadAt] and [WriteAt]
    gives the results that it gives on the bytes of the file and a
    position: it reads what was last written there, clipped at the end of
    the file, whatever the alignment to sectors; the size does not
    change, and no sector that is not the file's is touched. *)
Theorem OpenFile_refines_bytes o c v xs (Ho : on_disk o c v) (Hx : Forall ncall_ok xs) :
  ∃ o' c', ncalls_run (o, c) xs = Ok ((spec_ncalls v xs).1, (o', c')) ∧ on_disk o' c' (spec_ncalls v xs).2 ∧
    hdr o' = hdr o ∧ type o' = type o ∧ elsewhere (hdr o) c c'.
Proof. by apply ncalls_spec. Qed.

End files.

(** ** Allocation *)

Lemma full_marks (n : Z) (u : gset Z) : 0 <= n → (∀ j, 0 <= j < n → j ∈ u) → n <= Z.of_nat (size u).
Proof.
  intros Hn Hall. assert ((list_to_set (seqZ 0 n) : gset Z) ⊆ u) as Hsub.
  { intros j. rewrite elem_of_list_to_set, elem_of_seqZ. intros Hj. apply Hall. lia. }
  apply subseteq_size in Hsub. rewrite size_list_to_set, length_seqZ in Hsub by apply NoDup_seqZ. lia.
Qed.

(** The sectors found so far, with the map that has them marked. *)
Definition found (u : gset Z) (ds : list Z) (i : Z) (s : list Z * Bitmap) : Prop :=
  ∃ secs, s.1 = secs ++ drop (length secs) ds ∧ Z.of_nat (length secs) = i ∧ NoDup secs ∧
    Forall (λ x, 0 <= x < NumSectors ∧ x ∉ u) secs ∧ marks s.2 NumSectors (list_to_set secs ∪ u).

Lemma found_size u secs : NoDup secs → Forall (λ x, 0 <= x < NumSectors ∧ x ∉ u) secs →
  size (list_to_set secs ∪ u : gset Z) = (length secs + size u)%nat.
Proof.
  intros Hnd Hf. rewrite size_union.
  - by rewrite size_list_to_set.
  - intros x Hx1%elem_of_list_to_set Hx2. rewrite Forall_forall in Hf. by destruct (Hf x Hx1).
Qed.

#[local] Abbreviation find_one := (λ i (s : list Z * Bitmap),
  '(k, m) ← FindAndSet s.2; ds ← aset s.1 i k; ASSERT (0 <=? k);; Ok (ds, m)).

Lemma find_step u ds i s : found u ds i s → i < NumSectors - Z.of_nat (size u) → 
  (i < Z.of_nat (length ds) → ∃ s', find_one i s = Ok s' ∧ found u ds (i + 1) s') ∧
  (Z.of_nat (length ds) <= i → find_one i s = Fail OutOfBounds).
Proof.
  destruct s as [l m]. intros (secs & Hl & Hlen & Hnd & Hf & Hm) Hi. cbn [fst snd] in *.
  destruct (marks_FindAndSet _ _ _ Hm) as [(k & m' & Hfs & Hk & Hku & _ & Hm')|[_ Hall]].
  2: { apply full_marks in Hall; [| done]. rewrite found_size in Hall by done. lia. }
  rewrite Hfs. cbn [rbind]. split; intros Hid.
  - rewrite aset_in by (rewrite Hl, length_app, length_drop; lia). cbn [rbind].
    destruct (Z.leb_spec 0 k); [| lia]. cbn [rbind]. eexists. split; [done |]. exists (secs ++ [k]). cbn [fst snd].
    split; [| split; [| split; [| split]]].
    + rewrite Hl. rewrite insert_app_r_alt by lia. replace (Z.to_nat i - length secs)%nat with 0%nat by lia.
      rewrite <- app_assoc. f_equal. rewrite length_app. cbn [length].
      destruct (drop (length secs) ds) as [|d ds'] eqn:Hd.
      { apply (f_equal length) in Hd. rewrite length_drop in Hd. cbn in Hd. lia. }
      cbn. f_equal. rewrite <- drop_drop, Hd. done.
    + rewrite length_app. cbn. lia.
    + apply NoDup_app. split; [done |]. split; [| apply NoDup_singleton]. intros x Hx ->%list_elem_of_singleton.
      apply Hku. apply elem_of_union_l, elem_of_list_to_set, Hx.
    + apply Forall_app. split; [done |]. apply Forall_singleton. split; [done |]. intros Hx. apply Hku. by apply elem_of_union_r.
    + eapply eq_ind; [exact Hm' |]. set_solver.
  - unfold aset. destruct (Z.ltb_spec i (Z.of_nat (length l))) as [Hlt|]; [| by rewrite andb_false_r].
    rewrite Hl, length_app, length_drop in Hlt. lia.
Qed.

Lemma find_loop u ds m n : marks m NumSectors u → 0 <= n <= NumSectors - Z.of_nat (size u) → n <= Z.of_nat (length ds) →
  ∃ s, for_each 0 n find_one (ds, m) = Ok s ∧ found u ds n s.
Proof.
  intros Hm Hn Hd. apply (for_each_rule (found u ds)).
  - lia.
  - exists []. cbn. split; [done |]. split; [done |]. split; [constructor |]. split; [constructor |]. by rewrite (left_id_L ∅ (∪)).
  - intros i s Hi Hs. destruct (find_step u ds i s Hs) as [Hok _]; [lia | apply Hok; lia].
Qed.

Lemma Allocate_fits h m u fileSize : marks m NumSectors u → length (dataSectors h) = Z.to_nat NumDirect → 0 <= fileSize →
  divRoundUp fileSize SectorSize <= NumSectors - Z.of_nat (size u) → divRoundUp fileSize SectorSize <= NumDirect →
  ∃ h' m', Allocate h m fileSize = Ok (true, h', m') ∧ header_ok h' ∧ numBytes h' = fileSize ∧
    Forall (λ s, s ∉ u) (data_sectors h') ∧ marks m' NumSectors (list_to_set (data_sectors h') ∪ u) ∧
    ∃ k, dataSectors h' = data_sectors h' ++ drop k (dataSectors h).
Proof.
  intros Hm Hl Hsz Hfree Hdir. unfold Allocate. rewrite (marks_NumClear _ _ _ Hm). cbn [rbind].
  set (ns := divRoundUp fileSize SectorSize) in *. destruct (Z.ltb_spec (NumSectors - Z.of_nat (size u)) ns); [lia |].
  assert (0 <= ns) as Hns by (unfold ns; destruct (divRoundUp_spec fileSize SectorSize) as [|[]]; rewrite ?SectorSize_eq in *; lia).
  change NumDirect with 62 in *.
  destruct (find_loop u (dataSectors h) m ns Hm) as ([ds m'] & -> & secs & Hds & Hlen & Hnd & Hf & Hm'); [lia | lia |].
  cbn [rbind fst snd] in *. eexists _, m'. split; [done |].
  assert (data_sectors (mkFileHeader fileSize ns ds) = secs) as Hdata.
  { unfold data_sectors. cbn. rewrite Hds. by rewrite take_app_length' by lia. }
  rewrite Hdata. split; [| split; [done | split; [| split; [done |]]]].
  - constructor; rewrite ?Hdata; cbn; try done.
    + change (Z.to_nat NumDirect) with 62%nat. rewrite Hds, length_app, length_drop. lia.
    + eapply Forall_impl; [exact Hf | intros x [? _]; done].
  - eapply Forall_impl; [exact Hf | intros x [_ ?]; done].
  - exists (length secs). by rewrite Hds.
Qed.

Lemma Deallocate_spec h m u : header_ok h → marks m NumSectors u → Forall (λ s, s ∈ u) (data_sectors h) →
  ∃ m', Deallocate h m = Ok m' ∧ marks m' NumSectors (u ∖ list_to_set (data_sectors h)).
Proof.
  intros Hh Hm Hu. pose proof (count_bounds h Hh) as Hc. unfold Deallocate.
  destruct (for_each_rule (λ i m, marks m NumSectors (u ∖ list_to_set (take (Z.to_nat i) (dataSectors h)))) 0 (numSectors h)
    (λ i m, s ← aget (dataSectors h) i; t ← Test m s; ASSERT t;; Clear m s) m) as (m' & Hm' & Hr).
  - lia.
  - eapply eq_ind; [exact Hm |]. cbn. set_solver.
  - intros i m1 Hi Hm1. destruct (sector_at h i Hh Hi) as (s & Hs & Hr & Hds).
    rewrite (proj2 (aget_Ok _ _ s)) by (split; [lia | done]). cbn [rbind]. rewrite (marks_Test _ _ _ _ Hm1 Hr). cbn [rbind].
    assert (s ∈ u ∖ list_to_set (take (Z.to_nat i) (dataSectors h))) as Hin.
    { apply elem_of_difference. split; [by eapply (Forall_lookup_1 _ _ _ _ Hu) |]. rewrite elem_of_list_to_set.
      intros (k & Hlt)%list_elem_of_lookup_1. pose proof (lookup_lt_Some _ _ _ Hlt) as Hkl. rewrite length_take in Hkl.
      rewrite lookup_take_lt in Hlt by lia. pose proof (hok_distinct h Hh) as Hd. rewrite NoDup_alt in Hd.
      assert (data_sectors h !! k = Some s) as Hk' by (unfold data_sectors; rewrite lookup_take_lt by lia; done).
      specialize (Hd _ _ _ Hds Hk'). lia. }
    rewrite bool_decide_eq_true_2 by done. cbn [rbind]. destruct (marks_Clear _ _ _ _ Hm1 Hr) as (m2 & -> & Hm2).
    exists m2. split; [done |]. replace (Z.to_nat (i + 1)) with (S (Z.to_nat i)) by lia. rewrite (take_S_r _ _ s) by done.
    rewrite list_to_set_app_L. eapply eq_ind; [exact Hm2 |]. cbn. set_solver.
  - exists m'. split; [exact Hm' |]. exact Hr.
Qed.

(** C36: blocks are allocated all or none, and come back.  Without enough free
    sectors for the size [Allocate] says no and marks nothing.  Otherwise, up
    to 62 sectors, it marks exactly as many as the size needs, all free before
    and distinct, and the header is well formed; [Deallocate] frees exactly
    these.  For a larger file it writes behind the table of the header, however
    large the disk. *)
Theorem Allocate_exact h m u fileSize (Hm : marks m NumSectors u) (Hl : length (dataSectors h) = Z.to_nat NumDirect)
    (Hs : 0 <= fileSize) :
  let ns := divRoundUp fileSize SectorSize in
  let free := NumSectors - Z.of_nat (size u) in
  (free < ns → ∃ h', Allocate h m fileSize = Ok (false, h', m)) ∧
  (ns <= free → ns <= NumDirect → ∃ h' m' m'', Allocate h m fileSize = Ok (true, h', m') ∧ header_ok h' ∧
     numBytes h' = fileSize ∧ Z.of_nat (length (data_sectors h')) = ns ∧ Forall (λ s, s ∉ u) (data_sectors h') ∧
     marks m' NumSectors (list_to_set (data_sectors h') ∪ u) ∧ Deallocate h' m' = Ok m'' ∧ marks m'' NumSectors u) ∧
  (ns <= free → NumDirect < ns → Allocate h m fileSize = Fail OutOfBounds).
Proof.
  intros ns free. split; [| split].
  - intros Hf. unfold Allocate. rewrite (marks_NumClear _ _ _ Hm). cbn [rbind]. fold ns free.
    destruct (Z.ltb_spec free ns); [| lia]. by eexists.
  - intros Hf Hd. destruct (Allocate_fits h m u fileSize Hm Hl Hs Hf Hd) as (h' & m' & Ha & Hh & Hn & Hu & Hm' & _).
    destruct (Deallocate_spec h' m' _ Hh Hm') as (m'' & Hde & Hm''); [apply Forall_forall; intros s Hin; by apply elem_of_union_l, elem_of_list_to_set |].
    exists h', m', m''. split; [done |]. split; [done |]. split; [done |]. split.
    { pose proof (count_bounds h' Hh). unfold data_sectors. rewrite length_take, (hok_length h' Hh). change (Z.to_nat NumDirect) with 62%nat.
      rewrite (hok_count h' Hh), Hn in *. fold ns. lia. }
    split; [done |]. split; [done |]. split; [done |]. eapply eq_ind; [exact Hm'' |].
    rewrite Forall_forall in Hu. apply set_eq. intros x. rewrite elem_of_difference, elem_of_union, !elem_of_list_to_set. naive_solver.
  - intros Hf Hd. unfold Allocate. rewrite (marks_NumClear _ _ _ Hm). cbn [rbind]. fold ns free.
    destruct (Z.ltb_spec free ns); [lia |]. change NumDirect with 62 in *. change (Z.to_nat 62) with 62%nat in Hl.
    destruct (find_loop u (dataSectors h) m 62 Hm) as (s & Hs1 & Hfd); [fold free; lia | lia |].
    rewrite (for_each_split 0 62 ns) by lia. rewrite Hs1. cbn [rbind].
    destruct (find_step u (dataSectors h) 62 s Hfd) as [_ Hfail]; [fold free; lia |].
    rewrite (for_each_split 62 (62 + 1) ns) by lia. unfold for_each at 1. change (Z.to_nat (62 + 1 - 62)) with 1%nat.
    cbn [for_each_n]. rewrite Hfail by lia. done.
Qed.

(** ** A small file *)

Definition some_bytes (n : Z) : list Z := replicate (Z.to_nat n) 7.

Definition demo_sectors : sectors_t := replicate 1024 (replicate 256 0).
Definition demo_header : FileHeader := mkFileHeader 300 2 ([5; 9] ++ replicate 60 0).

Lemma demo_sectors_wf : disk_wf demo_sectors.
Proof. split; [done |]. by apply Forall_replicate. Qed.

Lemma demo_header_ok : header_ok demo_header.
Proof.
  constructor; try done.
  - cbn. repeat constructor; done.
  - cbn. repeat constructor; set_solver.
Qed.

Lemma demo_shows : shows demo_sectors demo_header (replicate 300 0).
Proof.
  split; [done |]. intros j Hj. cbn in Hj. unfold file_byte, demo_sectors. rewrite SectorSize_eq.
  rewrite lookup_replicate_2 by lia. pose proof (Z.mod_pos_bound j 256).
  assert (j / 256 = 0 ∨ j / 256 = 1) as Hc.
  { pose proof (Z.div_mod j 256). lia. }
  destruct Hc as [-> | ->]; [change (dataSectors demo_header !! Z.to_nat 0) with (Some 5) | change (dataSectors demo_header !! Z.to_nat 1) with (Some 9)];
    cbn [mbind option_bind]; rewrite lookup_replicate_2 by lia; cbn [mbind option_bind]; by rewrite lookup_replicate_2 by lia.
Qed.

(** Five bytes across the two sectors, read back. *)
Lemma OpenFile_refines_bytes_witness : ∃ o' c',
  ncalls_run some_bytes (mkOpenFile demo_header 0 0, demo_sectors)
    [NSeek 254; NWrite [1; 2; 3; 4; 5] 5; NReadAt 10 253; NRead 100] =
    Ok ([(0, []); (5, []); (10, [0; 1; 2; 3; 4; 5; 0; 0; 0; 0]); (41, replicate 41 0)], (o', c')) ∧
  elsewhere demo_header demo_sectors c'.
Proof.
  destruct (OpenFile_refines_bytes some_bytes) with (o := mkOpenFile demo_header 0 0) (c := demo_sectors) (v := (replicate 300 0, 0))
    (xs := [NSeek 254; NWrite [1; 2; 3; 4; 5] 5; NReadAt 10 253; NRead 100]) as (o' & c' & Hr & _ & _ & _ & He).
  - intros n Hn. unfold some_bytes. rewrite length_replicate. lia.
  - split; [exact demo_sectors_wf |]. split; [exact demo_header_ok |]. split; [exact demo_shows |]. by split.
  - repeat constructor; cbn; lia.
  - exists o', c'. split; [exact Hr | exact He].
Defined.

Lemma Allocate_exact_witness : ∃ m h' m', marks m NumSectors ∅ ∧
  Allocate (mkFileHeader 0 0 (replicate 62 0)) m 300 = Ok (true, h', m') ∧ length (data_sectors h') = 2%nat ∧
  Allocate (mkFileHeader 0 0 (replicate 62 0)) m 16000 = Fail OutOfBounds.
Proof.
  destruct (marks_new (replicate 32 7) NumSectors) as (m & _ & Hm); [done | done |].
  destruct (Allocate_exact (mkFileHeader 0 0 (replicate 62 0)) m ∅ 300 Hm) as (_ & H2 & _); [done | done |].
  destruct (Allocate_exact (mkFileHeader 0 0 (replicate 62 0)) m ∅ 16000 Hm) as (_ & _ & H3); [done | done |].
  destruct H2 as (h' & m' & m'' & Ha & _ & _ & Hl & _); [by vm_compute | by vm_compute |].
  exists m, h', m'. split; [exact Hm |]. split; [exact Ha |]. split; [change (divRoundUp 300 SectorSize) with 2 in Hl; lia |].
  apply H3; by vm_compute.
Defined.
