(* ===== verification/PBitmap.v ===== *)
(** * Bitmaps in files (filesys/pbitmap.cc)

    [PersistentBitmap] is a [Bitmap] whose words are read from and written to
    a file of the disk.  The theorem of this file is in [FileSys]; the lemmas
    here say that what [WriteBack] leaves in a file is what the constructor and
    [FetchFrom] find there. *)

From S2P Require Import Prelude Bitmap Machine Disk NachosFile.
Local Open Scope Z_scope.

Section pbitmap.
Variable big_endian : bool.
Variable new_bytes : Z → list Z.
Implicit Types (b : Bitmap) (file : OpenFile) (c : sectors_t) (h : FileHeader).

(** The constructor without a file; the map comes uninitialised from [new]. *)
Definition PersistentBitmap_new (numItems : Z) : result Bitmap :=
  let nw := divRoundUp numItems BitsInWord in
  Bitmap_new (bytes_words big_endian (Z.to_nat nw) (new_bytes (nw * 4))) numItems.

Definition PBitmap_FetchFrom b file c : result Bitmap :=
  bs ← ReadAt new_bytes (hdr file) c (numWords b * 4) 0;
  map ← blk_put (words_bytes big_endian (words b)) 0 bs;
  Ok (mkBitmap (numBits b) (numWords b) (bytes_words big_endian (length (words b)) map)).

(** The constructor that reads the map from a file. *)
Definition PersistentBitmap_from file (numItems : Z) c : result Bitmap :=
  b ← PersistentBitmap_new numItems; PBitmap_FetchFrom b file c.

Definition PBitmap_WriteBack b file c : result sectors_t :=
  '(_, c) ← WriteAt new_bytes (hdr file) c (words_bytes big_endian (words b)) (numWords b * 4) 0; Ok c.

Hypothesis new_bytes_length : ∀ n, 0 <= n → Z.of_nat (length (new_bytes n)) = n.

Lemma bytes_words_length n bs : length (bytes_words big_endian n bs) = n.
Proof. revert bs. induction n as [|n IH]; intros bs; [done |]. cbn. by rewrite IH. Qed.

Lemma PersistentBitmap_new_spec n : 0 < n → ∃ b, PersistentBitmap_new n = Ok b ∧ marks b n ∅.
Proof.
  intros Hn. unfold PersistentBitmap_new. rewrite BitsInWord_eq. apply marks_new; [done |].
  rewrite bytes_words_length. destruct (divRoundUp_spec n 32) as [|[]]; lia.
Qed.

(** The bytes of a bitmap in its file. *)
Lemma map_length b n u : marks b n u → Z.of_nat (length (words_bytes big_endian (words b))) = numWords b * 4 ∧ 0 < numWords b.
Proof.
  intros [(Hp & Hw & Hl & _) _]. rewrite words_bytes_length. rewrite BitsInWord_eq in Hw. destruct (divRoundUp_spec (numBits b) 32) as [|[]]; lia.
Qed.

Lemma map_bytes b n u : marks b n u → bytes_words big_endian (length (words b)) (words_bytes big_endian (words b)) = words b.
Proof.
  intros [(_ & _ & _ & Hu) _]. rewrite words_bytes_round. induction Hu as [|w ws Hw _ IH]; [done |]. cbn. by rewrite IH, u32_id.
Qed.

Lemma WriteBack_spec b n u file c content : marks b n u → n < 2 ^ 30 → disk_wf c → header_ok (hdr file) → shows c (hdr file) content →
  length content = length (words_bytes big_endian (words b)) →
  ∃ c', PBitmap_WriteBack b file c = Ok c' ∧ disk_wf c' ∧ shows c' (hdr file) (words_bytes big_endian (words b)) ∧
    elsewhere (hdr file) c c'.
Proof.
  intros Hm Hn Hc Hh Hs Hl. destruct (map_length b n u Hm) as [Hb H0].
  assert (numWords b * 4 < 2 ^ 31) as Hlt.
  { destruct Hm as [(Hp & Hw & _) Hnb]. rewrite BitsInWord_eq in Hw. destruct (divRoundUp_spec (numBits b) 32) as [|[]]; lia. }
  unfold PBitmap_WriteBack.
  destruct (WriteAt_bytes new_bytes new_bytes_length c (hdr file) content (words_bytes big_endian (words b)) (numWords b * 4) 0)
    as (c' & -> & Hc' & Hs' & He); [done | done | done | lia | lia | lia |].
  cbn [rbind]. exists c'. split; [done |]. split; [done |]. split; [| done].
  rewrite write_into_all in Hs' by lia. done.
Qed.

Lemma FetchFrom_spec b b' n u u' file c : marks b n u → marks b' n u' → n < 2 ^ 30 → disk_wf c → header_ok (hdr file) →
  shows c (hdr file) (words_bytes big_endian (words b)) → PBitmap_FetchFrom b' file c = Ok b.
Proof.
  intros Hm Hm' Hn Hc Hh Hs. destruct (map_length b n u Hm) as [Hb H0]. destruct (map_length b' n u' Hm') as [Hb' _].
  pose proof Hm as [(Hp & Hw & Hl & _) Hnb]. pose proof Hm' as [(Hp' & Hw' & Hl' & _) Hnb'].
  assert (numBits b' = numBits b) as Heq by lia. rewrite Heq in Hw'. assert (numWords b' = numWords b) as Heqw by congruence.
  assert (numWords b * 4 < 2 ^ 31) as Hlt by (rewrite BitsInWord_eq in Hw; destruct (divRoundUp_spec (numBits b) 32) as [|[]]; lia).
  unfold PBitmap_FetchFrom. rewrite Heqw. rewrite (ReadAt_bytes new_bytes new_bytes_length c (hdr file) (words_bytes big_endian (words b))) by (done || lia).
  cbn [rbind]. rewrite bytes_at_all by lia. rewrite blk_put_all by lia. cbn [rbind]. rewrite Heq.
  replace (length (words b')) with (length (words b)) by lia. rewrite (map_bytes b n u Hm). by destruct b.
Qed.

Lemma from_spec b n u file c : marks b n u → n < 2 ^ 30 → disk_wf c → header_ok (hdr file) →
  shows c (hdr file) (words_bytes big_endian (words b)) → PersistentBitmap_from file n c = Ok b.
Proof.
  intros Hm Hn Hc Hh Hs. unfold PersistentBitmap_from.
  destruct (PersistentBitmap_new_spec n) as (b' & -> & Hm'); [destruct Hm as [(Hp & _) [<- _]]; lia |].
  cbn [rbind]. by eapply (FetchFrom_spec b b' n u ∅).
Qed.
End pbitmap.
