(* ===== verification/Directory.v ===== *)
(** * The directory (filesys/directory.cc)

    A table of file names with the sectors of their headers, kept in a file of
    the disk as an image of its memory: 20 bytes an entry. *)

From S2P Require Import Prelude Bitmap Machine Disk NachosFile.
Local Open Scope Z_scope.

Definition FileNameMaxLen : Z := 9.

(** [inUse] is the byte that holds the [bool]; [pad] and [tail] are the bytes
    that align the members. *)
Record DirectoryEntry := mkEntry { inUse : Z; pad : list Z; sector : Z; name : list Z; tail : list Z }.
Record Directory := mkDirectory { tableSize : Z; table : list DirectoryEntry }.

Implicit Types (e : DirectoryEntry) (d : Directory) (file : OpenFile) (c : sectors_t) (buf : list Z).

(** ** String functions *)

(** [!strncmp (a, b, n)] *)
Fixpoint strncmp_eq (n : nat) (a b : list Z) : result bool :=
  match n with
  | O => Ok true
  | S n => match a, b with
           | x :: a, y :: b => if x =? y then if x =? 0 then Ok true else strncmp_eq n a b else Ok false
           | _, _ => Fail OutOfBounds
           end
  end.

(** The [n] bytes that [strncpy] writes. *)
Fixpoint strncpy (n : nat) (src : list Z) : result (list Z) :=
  match n with
  | O => Ok []
  | S n => match src with
           | [] => Fail OutOfBounds
           | x :: src => if x =? 0 then Ok (replicate (S n) 0) else r ← strncpy n src; Ok (x :: r)
           end
  end.

(** ** The directory in memory *)

Section directory.
Variable big_endian : bool.
Variable new_bytes : Z → list Z.

Definition entry_size : Z := 20.

Definition entry_bytes e : list Z := inUse e :: pad e ++ word_bytes big_endian (sector e) ++ name e ++ tail e.
Definition bytes_entry (bs : list Z) : DirectoryEntry :=
  mkEntry (bs !!! 0%nat) (take 3 (drop 1 bs)) (s32 (host_word big_endian (take 4 (drop 4 bs)))) (take 10 (drop 8 bs)) (take 2 (drop 18 bs)).

Definition table_bytes (t : list DirectoryEntry) : list Z := t ≫= entry_bytes.

Fixpoint bytes_table (n : nat) (bs : list Z) : list DirectoryEntry :=
  match n with O => [] | S n => bytes_entry (take 20 bs) :: bytes_table n (drop 20 bs) end.

(** A [bool] whose byte is neither 0 nor 1 must not be read. *)
Definition used e : result bool :=
  if inUse e =? 0 then Ok false else if inUse e =? 1 then Ok true else Fail Undefined.

Definition with_inUse e (b : bool) : DirectoryEntry := mkEntry (if b then 1 else 0) (pad e) (sector e) (name e) (tail e).
Definition with_table d t : Directory := mkDirectory (tableSize d) t.

Definition Directory_new (size : Z) : result Directory :=
  t ← for_each 0 size (λ i t, e ← aget t i; aset t i (with_inUse e false))
        (bytes_table (Z.to_nat size) (new_bytes (size * entry_size)));
  Ok (mkDirectory size t).

Definition Directory_FetchFrom d file c : result Directory :=
  bs ← ReadAt new_bytes (hdr file) c (s32 (tableSize d * entry_size)) 0;
  raw ← blk_put (table_bytes (table d)) 0 bs;
  Ok (with_table d (bytes_table (length (table d)) raw)).

Definition Directory_WriteBack d file c : result sectors_t :=
  '(_, c) ← WriteAt new_bytes (hdr file) c (table_bytes (table d)) (s32 (tableSize d * entry_size)) 0; Ok c.

Definition FindIndex d buf : result Z :=
  r ← for_ret 0 (tableSize d) (λ i _,
        e ← aget (table d) i;
        u ← used e;
        if u : bool
        then same ← strncmp_eq (Z.to_nat FileNameMaxLen) (name e) buf; Ok (if same : bool then inr i else inl tt)
        else Ok (inl tt)) tt;
  Ok (match r with inl _ => -1 | inr i => i end).

Definition Find d buf : result Z :=
  i ← FindIndex d buf;
  if negb (i =? -1) then e ← aget (table d) i; Ok (sector e) else Ok (-1).

(** The entry [strncpy] and the assignments leave; the tenth byte of the name
    stays as it was. *)
Definition filled e buf (newSector : Z) : result DirectoryEntry :=
  k ← strncpy (Z.to_nat FileNameMaxLen) buf;
  nm ← blk_put (name e) 0 k;
  Ok (mkEntry 1 (pad e) newSector nm (tail e)).

Definition Add d buf (newSector : Z) : result (bool * Directory) :=
  i ← FindIndex d buf;
  if negb (i =? -1) then Ok (false, d)
  else
    r ← for_ret 0 (tableSize d) (λ i _,
          e ← aget (table d) i;
          u ← used e;
          if negb u then e ← filled e buf newSector; t ← aset (table d) i e; Ok (inr (with_table d t)) else Ok (inl tt)) tt;
    Ok (match r with inl _ => (false, d) | inr d' => (true, d') end).

Definition Remove d buf : result (bool * Directory) :=
  i ← FindIndex d buf;
  if i =? -1 then Ok (false, d)
  else e ← aget (table d) i; t ← aset (table d) i (with_inUse e false); Ok (true, with_table d t).

(** The bytes that [List] prints. *)
Definition List d : result (list Z) :=
  for_each 0 (tableSize d) (λ i out,
    e ← aget (table d) i;
    u ← used e;
    if u : bool then s ← c_str (name e); Ok (out ++ s ++ [10]) else Ok out) [].

(** ** Images *)

Definition entry_ok e : Prop :=
  (inUse e = 0 ∨ inUse e = 1) ∧ length (pad e) = 3%nat ∧ is_s32 (sector e) ∧ length (name e) = 10%nat ∧ length (tail e) = 2%nat.

Lemma entry_bytes_length e : entry_ok e → length (entry_bytes e) = 20%nat.
Proof. intros (_ & H1 & _ & H2 & H3). unfold entry_bytes. cbn [length]. rewrite !length_app, word_bytes_length. lia. Qed.

Lemma entry_round e : entry_ok e → bytes_entry (entry_bytes e) = e.
Proof.
  intros (_ & H1 & Hs & H2 & H3). unfold bytes_entry, entry_bytes. destruct e as [u p s nm tl]. cbn [inUse pad sector name tail] in *.
  pose proof (word_bytes_length big_endian s) as Hw.
  destruct p as [|p0 [|p1 [|p2 [|]]]]; try done.
  pose proof (host_word_bytes big_endian s) as Hb.
  destruct (word_bytes big_endian s) as [|w0 [|w1 [|w2 [|w3 [|]]]]]; try done.
  cbn -[take drop host_word]. change (drop 4 _) with (w0 :: w1 :: w2 :: w3 :: nm ++ tl). change (drop 8 _) with (nm ++ tl).
  change (drop 18 _) with (drop 10 (nm ++ tl)). change (take 4 _) with [w0; w1; w2; w3].
  rewrite Hb, s32_u32, s32_id by done. rewrite take_app_length', drop_app_length' by done.
  f_equal. by rewrite take_ge by lia.
Qed.

Lemma table_bytes_length t : Forall entry_ok t → length (table_bytes t) = (20 * length t)%nat.
Proof.
  unfold table_bytes. induction 1 as [|e t He Ht IH]; [done |]. cbn [mbind list_bind]. rewrite length_app, IH, entry_bytes_length by done. cbn. lia.
Qed.

Lemma table_round t : Forall entry_ok t → bytes_table (length t) (table_bytes t) = t.
Proof.
  unfold table_bytes. induction 1 as [|e t He Ht IH]; [done |]. cbn [mbind list_bind length bytes_table].
  rewrite take_app_length', drop_app_length' by (by rewrite entry_bytes_length). by rewrite entry_round, IH by done.
Qed.

Lemma bytes_table_length n bs : length (bytes_table n bs) = n.
Proof. revert bs. induction n as [|n IH]; intros bs; [done |]. cbn. by rewrite IH. Qed.

(** ** Names

    Two names are the same to the directory when their first nine characters
    are. *)

Fixpoint until0 (n : nat) (l : list Z) : list Z :=
  match n, l with S n, x :: l => if x =? 0 then [] else x :: until0 n l | _, _ => [] end.

Abbreviation key := (until0 9).

(** The first [n] characters can be read. *)
Fixpoint readable (n : nat) (l : list Z) : Prop :=
  match n, l with O, _ => True | S n, x :: l => x = 0 ∨ readable n l | _, _ => False end.

Lemma readable_length n l : (n <= length l)%nat → readable n l.
Proof. revert l. induction n as [|n IH]; intros [|x l] Hl; cbn in *; try done; [lia |]. right. apply IH. lia. Qed.

Lemma c_string_readable n buf nm : c_string buf nm → readable n buf ∧ until0 n buf = take n nm.
Proof.
  intros [Hn [rest ->]]. revert n. induction Hn as [|x nm Hx Hn IH]; intros [|n]; cbn; try done; [by split; [left |] |].
  destruct (Z.eqb_spec x 0); [done |]. destruct (IH n) as [Hr ->]. split; [by right | done].
Qed.

Lemma strncmp_spec n : ∀ a b, readable n a → readable n b → strncmp_eq n a b = Ok (bool_decide (until0 n a = until0 n b)).
Proof.
  induction n as [|n IH]; intros [|x a] [|y b]; cbn; try done. intros Ha Hb.
  destruct (Z.eqb_spec x y) as [->|Hne].
  - destruct (Z.eqb_spec y 0); [done |]. destruct Ha, Hb; try done. rewrite IH by done. f_equal. apply bool_decide_ext. split; congruence.
  - rewrite bool_decide_eq_false_2; [done |]. destruct (Z.eqb_spec x 0), (Z.eqb_spec y 0); congruence.
Qed.

Lemma strncpy_spec n : ∀ src rest, readable n src → ∃ k, strncpy n src = Ok k ∧ length k = n ∧ until0 n (k ++ rest) = until0 n src.
Proof.
  induction n as [|n IH]; intros src rest; [by exists [] |]. destruct src as [|x src]; [done |]. cbn. intros Hr.
  destruct (Z.eqb_spec x 0); [exists (0 :: replicate n 0); cbn; by rewrite length_replicate |].
  destruct Hr as [|Hr]; [done |]. destruct (IH src rest Hr) as (k & -> & Hl & Hu). exists (x :: k). cbn. destruct (Z.eqb_spec x 0); [done |].
  by rewrite Hl, Hu.
Qed.

(** ** The directory as a map *)

Definition live e : option (list Z * Z) := if inUse e =? 1 then Some (key (name e), sector e) else None.
Definition entries (t : list DirectoryEntry) : list (list Z * Z) := omap live t.

Definition dir_ok d (M : gmap (list Z) Z) : Prop :=
  Z.of_nat (length (table d)) = tableSize d ∧ Forall entry_ok (table d) ∧ NoDup (entries (table d)).*1 ∧
  M = list_to_map (entries (table d)).

Lemma used_live e : entry_ok e → used e = Ok (bool_decide (is_Some (live e))).
Proof. intros ([H|H] & _); unfold used, live; rewrite H; done. Qed.

Lemma entry_key e : entry_ok e → readable 9 (name e).
Proof. intros (_ & _ & _ & Hl & _). apply readable_length. lia. Qed.

(** Replacing an entry of the table. *)
Lemma entries_set t i e e' : t !! i = Some e →
  ∃ l1 l2, entries t = l1 ++ option_list (live e) ++ l2 ∧ entries (<[i:=e']> t) = l1 ++ option_list (live e') ++ l2.
Proof.
  intros Hi. exists (entries (take i t)), (entries (drop (S i) t)). unfold entries.
  assert (∀ x l2, omap live (x :: l2) = option_list (live x) ++ omap live l2) as Hc by (intros x l2; cbn; by destruct (live x)).
  split.
  - rewrite <- (take_drop_middle t i e) at 1 by done. by rewrite omap_app, Hc.
  - rewrite insert_take_drop by (by eapply lookup_lt_Some). by rewrite omap_app, Hc.
Qed.

Lemma entries_length t : (length (entries t) <= length t)%nat.
Proof. unfold entries. induction t as [|e t IH]; cbn; [done |]. destruct (live e); cbn; lia. Qed.

Lemma entries_full t : (∀ j e, t !! j = Some e → is_Some (live e)) → length (entries t) = length t.
Proof.
  unfold entries. induction t as [|e t IH]; intros Hl; [done |]. cbn. destruct (Hl 0%nat e eq_refl) as [kv ->]. cbn. f_equal. apply IH.
  intros j e0 Hj. by apply (Hl (S j)).
Qed.

Lemma live_entry t i e kv : t !! i = Some e → live e = Some kv → kv ∈ entries t.
Proof. intros Hi Hl. apply list_elem_of_omap. exists e. split; [by eapply list_elem_of_lookup_2 | done]. Qed.

Lemma dir_size d M : dir_ok d M → size M = length (entries (table d)).
Proof. intros (_ & _ & Hd & ->). rewrite map_size_list_to_map by done. done. Qed.

Lemma FindIndex_spec d M buf nm : dir_ok d M → c_string buf nm →
  (∃ i e, FindIndex d buf = Ok (Z.of_nat i) ∧ table d !! i = Some e ∧ live e = Some (take 9 nm, sector e) ∧ M !! take 9 nm = Some (sector e)) ∨
  (FindIndex d buf = Ok (-1) ∧ M !! take 9 nm = None).
Proof.
  intros (Hl & Hok & Hd & HM) Hb. destruct (c_string_readable 9 buf nm Hb) as [Hr Hk]. unfold FindIndex.
  edestruct (for_ret_rule (λ i (_ : unit), ∀ j e, Z.of_nat j < i → table d !! j = Some e → ∀ s, live e ≠ Some (take 9 nm, s))
    (λ i, ∃ j e, i = Z.of_nat j ∧ table d !! j = Some e ∧ live e = Some (take 9 nm, sector e)) 0 (tableSize d)) as (r & -> & Hres);
    [| | | cbn [rbind]].
  - lia.
  - intros j e Hj. lia.
  - intros i [] Hi Hno. destruct (lookup_lt_is_Some_2 (table d) (Z.to_nat i)) as [e He]; [lia |].
    pose proof (Forall_lookup_1 _ _ _ _ Hok He) as Hoke. rewrite (proj2 (aget_Ok _ _ e)) by (split; [lia | done]). cbn [rbind].
    rewrite used_live by done. cbn [rbind].
    assert ((∀ s, live e ≠ Some (take 9 nm, s)) →
      ∀ j e0, Z.of_nat j < i + 1 → table d !! j = Some e0 → ∀ s, live e0 ≠ Some (take 9 nm, s)) as Hnext.
    { intros Hne j e0 Hj Hje. destruct (decide (j = Z.to_nat i)) as [->|]; [| apply (Hno j e0); [lia | done]].
      rewrite He in Hje. by injection Hje as <-. }
    case_bool_decide as Hs.
    + change (Z.to_nat FileNameMaxLen) with 9%nat. rewrite strncmp_spec by (done || by apply entry_key). cbn [rbind]. rewrite Hk.
      destruct Hs as [kv Hkv]. pose proof Hkv as Hkv'. unfold live in Hkv'. destruct (inUse e =? 1) eqn:Hu; [| done]. injection Hkv' as Hkv'.
      eexists. split; [done |]. case_bool_decide as Hsame; cbn.
      * exists (Z.to_nat i), e. split; [lia |]. split; [done |]. unfold live. by rewrite Hu, Hsame.
      * apply Hnext. intros s. rewrite Hkv, <- Hkv'. by intros [= ? _].
    + eexists. split; [done |]. cbn. apply Hnext. intros s Hs'. apply Hs. by eexists.
  - destruct r as [[]|i].
    + right. split; [done |]. rewrite HM. apply not_elem_of_list_to_map_1. intros ([k s] & Hk1 & Hin)%list_elem_of_fmap. cbn in Hk1. subst k.
      apply list_elem_of_omap in Hin as (e & (j & Hj)%list_elem_of_lookup_1 & He). eapply Hres; [| done | done].
      apply lookup_lt_Some in Hj. lia.
    + left. destruct Hres as (j & e & -> & Hj & He). exists j, e. split; [done |]. split; [done |]. split; [done |]. rewrite HM.
      apply elem_of_list_to_map_1; [done |]. by eapply live_entry.
Qed.

(** A pair in the middle of an association list. *)
Lemma assoc_middle (l1 l2 : list (list Z * Z)) k v :
  NoDup (l1 ++ (k, v) :: l2).*1 ↔ NoDup (l1 ++ l2).*1 ∧ (list_to_map (l1 ++ l2) : gmap (list Z) Z) !! k = None.
Proof.
  rewrite <- Permutation_middle. cbn. rewrite NoDup_cons. split.
  - intros [Hk Hd]. split; [done |]. by apply not_elem_of_list_to_map_1.
  - intros [Hd Hk]. split; [| done]. by apply not_elem_of_list_to_map_2.
Qed.

Lemma assoc_middle_map (l1 l2 : list (list Z * Z)) k v : NoDup (l1 ++ (k, v) :: l2).*1 →
  (list_to_map (l1 ++ (k, v) :: l2) : gmap (list Z) Z) = <[k := v]> (list_to_map (l1 ++ l2)).
Proof. intros Hd. rewrite (list_to_map_proper _ ((k, v) :: l1 ++ l2)); [done | done | symmetry; apply Permutation_middle]. Qed.

Lemma set_table d M t : dir_ok d M → length t = length (table d) → Forall entry_ok t → NoDup (entries t).*1 →
  dir_ok (with_table d t) (list_to_map (entries t)).
Proof. intros (Hl & _) Ht Hok Hd. split; [cbn; lia |]. by split. Qed.

Lemma filled_spec e buf nm s : entry_ok e → c_string buf nm → is_s32 s →
  ∃ e', filled e buf s = Ok e' ∧ entry_ok e' ∧ live e' = Some (take 9 nm, s).
Proof.
  intros (Hu & H1 & Hs & H2 & H3) Hb Hs'. destruct (c_string_readable 9 buf nm Hb) as [Hr Hk]. unfold filled.
  change (Z.to_nat FileNameMaxLen) with 9%nat. destruct (strncpy_spec 9 buf (drop 9 (name e)) Hr) as (k & -> & Hl & Hu'). cbn [rbind].
  destruct (blk_put (name e) 0 k) as [n'|] eqn:Hp; [| rewrite blk_put_in in Hp by lia; done]. cbn [rbind]. eexists. split; [done |].
  pose proof (blk_put_length _ _ _ _ Hp) as Hnl. split.
  { split; [by right |]. split; [done |]. split; [done |]. split; [cbn; lia | done]. }
  unfold live. cbn [inUse name sector]. do 2 f_equal. rewrite <- Hk, <- Hu'. f_equal.
  apply blk_ext with 10; [lia | rewrite length_app, length_drop; lia |]. intros j Hj. rewrite (blk_put_lookup _ _ _ _ _ Hp) by lia.
  case_decide; [rewrite lookup_app_l by lia; f_equal; lia |]. rewrite lookup_app_r, lookup_drop by lia. f_equal. lia.
Qed.

Lemma Add_spec d M buf nm s : dir_ok d M → c_string buf nm → is_s32 s →
  if decide (M !! take 9 nm = None ∧ Z.of_nat (size M) < tableSize d)
  then ∃ d', Add d buf s = Ok (true, d') ∧ dir_ok d' (<[take 9 nm := s]> M) ∧ tableSize d' = tableSize d
  else Add d buf s = Ok (false, d).
Proof.
  intros Hd Hb Hs. unfold Add. destruct (FindIndex_spec d M buf nm Hd Hb) as [(i & e & -> & Hi & _ & HM)|[-> HM]]; cbn [rbind].
  { rewrite decide_False by (rewrite HM; by intros [? _]). destruct (Z.eqb_spec (Z.of_nat i) (-1)); [lia | done]. }
  cbn [Z.eqb negb]. pose proof (dir_size d M Hd) as Hsz. pose proof Hd as (Hl & Hok & Hnd & HMe).
  edestruct (for_ret_rule (λ i (_ : unit), ∀ j e, Z.of_nat j < i → table d !! j = Some e → is_Some (live e))
    (λ d', ∃ (i : nat) e e', table d !! i = Some e ∧ live e = None ∧ entry_ok e' ∧ live e' = Some (take 9 nm, s) ∧
      d' = with_table d (<[i := e']> (table d))) 0 (tableSize d)) as (r & -> & Hres); [| | | cbn [rbind]].
  - lia.
  - intros j e Hj. lia.
  - intros i [] Hi Hno. destruct (lookup_lt_is_Some_2 (table d) (Z.to_nat i)) as [e He]; [lia |].
    pose proof (Forall_lookup_1 _ _ _ _ Hok He) as Hoke. rewrite (proj2 (aget_Ok _ _ e)) by (split; [lia | done]). cbn [rbind].
    rewrite used_live by done. cbn [rbind]. case_bool_decide as Hlive; cbn [negb].
    + eexists. split; [done |]. cbn. intros j e0 Hj Hje. destruct (decide (j = Z.to_nat i)) as [->|]; [| apply (Hno j e0); [lia | done]].
      rewrite He in Hje. by injection Hje as <-.
    + destruct (filled_spec e buf nm s Hoke Hb Hs) as (e' & -> & Hok' & Hlive'). cbn [rbind]. rewrite aset_in by lia. cbn [rbind].
      eexists. split; [done |]. cbn. exists (Z.to_nat i), e, e'. split; [done |]. split; [| by split].
      destruct (live e) eqn:Hle; [| done]. destruct Hlive. by eexists.
  - destruct r as [[]|d'].
    + rewrite decide_False; [done |]. intros [_ Hlt]. rewrite Hsz in Hlt.
      rewrite entries_full in Hlt; [lia |]. intros j e Hj. apply (Hres j e); [| done]. apply lookup_lt_Some in Hj. lia.
    + destruct Hres as (i & e & e' & Hi & He & Hok' & He' & ->).
      destruct (entries_set (table d) i e e' Hi) as (l1 & l2 & H1 & H2). rewrite He in H1. rewrite He' in H2. cbn in H1, H2.
      assert (NoDup (l1 ++ (take 9 nm, s) :: l2).*1) as Hnd'.
      { apply assoc_middle. rewrite <- H1. split; [done |]. by rewrite <- HMe. }
      rewrite decide_True.
      * eexists. split; [done |]. split; [| done]. replace (<[take 9 nm := s]> M) with (list_to_map (entries (<[i:=e']> (table d))) : gmap (list Z) Z).
        2: { by rewrite H2, HMe, H1, assoc_middle_map. }
        eapply set_table; [exact Hd | by rewrite length_insert | by apply Forall_insert | by rewrite H2].
      * split; [done |]. rewrite Hsz, H1, <- Hl. pose proof (entries_length (<[i:=e']> (table d))) as Hb2.
        rewrite length_insert, H2 in Hb2. rewrite !length_app in *. cbn in Hb2. lia.
Qed.

Lemma dir_Remove_spec d M buf nm : dir_ok d M → c_string buf nm →
  match M !! take 9 nm with
  | None => Remove d buf = Ok (false, d)
  | Some _ => ∃ d', Remove d buf = Ok (true, d') ∧ dir_ok d' (delete (take 9 nm) M) ∧ tableSize d' = tableSize d
  end.
Proof.
  intros Hd Hb. unfold Remove. destruct (FindIndex_spec d M buf nm Hd Hb) as [(i & e & -> & Hi & He & ->)|[-> ->]]; cbn [rbind]; [| done].
  destruct (Z.eqb_spec (Z.of_nat i) (-1)); [lia |]. rewrite (aget_lookup _ _ _ Hi). cbn [rbind].
  pose proof (lookup_lt_Some _ _ _ Hi) as Hlt. rewrite aset_in by lia. cbn [rbind]. rewrite Nat2Z.id.
  eexists. split; [done |]. split; [| done]. pose proof Hd as (Hl & Hok & Hnd & ->).
  destruct (entries_set (table d) i e (with_inUse e false) Hi) as (l1 & l2 & H1 & H2). rewrite He in H1. cbn in H1, H2.
  rewrite H1 in Hnd. pose proof Hnd as [Hnd' HN]%assoc_middle.
  replace (delete _ _) with (list_to_map (entries (<[i:=with_inUse e false]> (table d))) : gmap (list Z) Z).
  2: { by rewrite H1, H2, assoc_middle_map, delete_insert_id. }
  eapply set_table; [exact Hd | by rewrite length_insert | | by rewrite H2].
  apply Forall_insert; [done |]. destruct (Forall_lookup_1 _ _ _ _ Hok Hi) as (_ & ? & ? & ? & ?). split; [by left | done].
Qed.

Lemma dir_Find_spec d M buf nm : dir_ok d M → c_string buf nm → Find d buf = Ok (default (-1) (M !! take 9 nm)).
Proof.
  intros Hd Hb. unfold Find. destruct (FindIndex_spec d M buf nm Hd Hb) as [(i & e & -> & Hi & _ & ->)|[-> ->]]; cbn [rbind]; [| done].
  destruct (Z.eqb_spec (Z.of_nat i) (-1)); [lia |]. cbn [negb]. by rewrite (aget_lookup _ _ _ Hi).
Qed.

(** ** Between memory and disk *)

Hypothesis new_bytes_length : ∀ n, 0 <= n → Z.of_nat (length (new_bytes n)) = n.

Lemma bytes_table_shape n : ∀ bs, length bs = (20 * n)%nat → Forall (λ e, entry_ok (with_inUse e false)) (bytes_table n bs).
Proof.
  induction n as [|n IH]; intros bs Hl; cbn [bytes_table]; constructor; [| apply IH; rewrite length_drop; lia].
  split; [by left |]. cbn [with_inUse pad sector name tail bytes_entry]. rewrite !length_take, !length_drop, !length_take.
  split; [lia |]. split; [apply s32_range | lia].
Qed.

Lemma Directory_new_spec size : 0 <= size → ∃ d, Directory_new size = Ok d ∧ tableSize d = size ∧ dir_ok d ∅.
Proof.
  intros Hs. unfold Directory_new. set (t0 := bytes_table _ _).
  assert (length t0 = Z.to_nat size) as Hl0 by apply bytes_table_length.
  assert (Forall (λ e, entry_ok (with_inUse e false)) t0) as Hok0.
  { apply bytes_table_shape. pose proof (new_bytes_length (size * entry_size)). unfold entry_size in *. lia. }
  destruct (for_each_rule (λ i t, length t = Z.to_nat size ∧ Forall (λ e, entry_ok (with_inUse e false)) t ∧
      ∀ j e, Z.of_nat j < i → t !! j = Some e → inUse e = 0) 0 size
      (λ i t, e ← aget t i; aset t i (with_inUse e false)) t0) as (t & -> & Hl & Hok & Hz); [done | | |].
  - split; [done |]. split; [done |]. intros. lia.
  - intros i t Hi (Hl & Hok & Hz). destruct (lookup_lt_is_Some_2 t (Z.to_nat i)) as [e He]; [lia |].
    rewrite (proj2 (aget_Ok _ _ e)) by (split; [lia | done]). cbn [rbind]. rewrite aset_in by lia. eexists. split; [done |].
    split; [by rewrite length_insert |]. split.
    + apply Forall_insert; [done |]. by apply (Forall_lookup_1 _ _ _ _ Hok He).
    + intros j e0 Hj Hje. destruct (decide (j = Z.to_nat i)) as [->|Hne].
      * rewrite list_lookup_insert_eq in Hje by lia. by injection Hje as <-.
      * rewrite list_lookup_insert_ne in Hje by done. apply (Hz j); [lia | done].
  - cbn [rbind]. eexists. split; [done |]. split; [done |]. unfold dir_ok. cbn [table tableSize].
    assert (∀ e, e ∈ t → inUse e = 0) as H0.
    { intros e (j & Hj)%list_elem_of_lookup_1. apply (Hz j); [| done]. apply lookup_lt_Some in Hj. lia. }
    assert (entries t = []) as ->.
    { unfold entries. clear -H0. induction t as [|e t IH]; [done |]. cbn. unfold live at 1. rewrite H0 by constructor. cbn.
      apply IH. intros x Hx. apply H0. by constructor. }
    split; [lia |]. split; [| split; [constructor | done]].
    rewrite Forall_forall in Hok |- *. intros e He. destruct (Hok e He) as (_ & Hok'). split; [left; by apply H0 | done].
Qed.

Lemma table_length d M : dir_ok d M → Z.of_nat (length (table_bytes (table d))) = tableSize d * 20.
Proof. intros (Hl & Hok & _). rewrite table_bytes_length by done. lia. Qed.

Lemma Directory_WriteBack_spec d M file c content : dir_ok d M → 0 < tableSize d < 2 ^ 20 → disk_wf c → header_ok (hdr file) →
  shows c (hdr file) content → length content = length (table_bytes (table d)) →
  ∃ c', Directory_WriteBack d file c = Ok c' ∧ disk_wf c' ∧ shows c' (hdr file) (table_bytes (table d)) ∧ elsewhere (hdr file) c c'.
Proof.
  intros Hd Hn Hc Hh Hs Hl. pose proof (table_length d M Hd) as Ht. unfold Directory_WriteBack, entry_size.
  rewrite s32_id by (unfold is_s32; lia).
  destruct (WriteAt_bytes new_bytes new_bytes_length c (hdr file) content (table_bytes (table d)) (tableSize d * 20) 0)
    as (c' & -> & Hc' & Hs' & He); [done | done | done | lia | lia | lia |].
  cbn [rbind]. exists c'. split; [done |]. split; [done |]. split; [| done]. rewrite write_into_all in Hs' by lia. done.
Qed.

Lemma Directory_FetchFrom_spec d d0 M M0 file c : dir_ok d M → dir_ok d0 M0 → tableSize d0 = tableSize d → 0 <= tableSize d < 2 ^ 20 →
  disk_wf c → header_ok (hdr file) → shows c (hdr file) (table_bytes (table d)) → Directory_FetchFrom d0 file c = Ok d.
Proof.
  intros Hd Hd0 Heq Hn Hc Hh Hs. pose proof (table_length d M Hd) as Ht. pose proof (table_length d0 M0 Hd0) as Ht0.
  unfold Directory_FetchFrom, entry_size. rewrite Heq, s32_id by (unfold is_s32; lia).
  rewrite (ReadAt_bytes new_bytes new_bytes_length c (hdr file) (table_bytes (table d))) by (done || lia). cbn [rbind].
  rewrite bytes_at_all, blk_put_all by lia. cbn [rbind]. destruct Hd as (Hl & Hok & _), Hd0 as (Hl0 & _). unfold with_table.
  replace (length (table d0)) with (length (table d)) by lia. rewrite table_round, Heq by done. by destruct d.
Qed.

(** What a new directory fetches from its file. *)
Lemma fetch_spec d M file c : dir_ok d M → 0 <= tableSize d < 2 ^ 20 → disk_wf c → header_ok (hdr file) →
  shows c (hdr file) (table_bytes (table d)) →
  ∃ d0, Directory_new (tableSize d) = Ok d0 ∧ Directory_FetchFrom d0 file c = Ok d.
Proof.
  intros Hd Hn Hc Hh Hs. destruct (Directory_new_spec (tableSize d)) as (d0 & H0 & Ht & Hd0); [lia |]. exists d0. split; [done |].
  by eapply (Directory_FetchFrom_spec d d0 M ∅).
Qed.

(** ** Refinement *)

Inductive dcall := DFind (buf : list Z) | DAdd (buf : list Z) (newSector : Z) | DRemove (buf : list Z) | DSave.

(** [DSave]: written to the file, and fetched into a new directory. *)
Definition dcall_run file (s : Directory * sectors_t) (x : dcall) : result (Z * (Directory * sectors_t)) :=
  let '(d, c) := s in
  match x with
  | DFind buf => r ← Find d buf; Ok (r, s)
  | DAdd buf newSector => '(b, d) ← Add d buf newSector; Ok (Z.b2z b, (d, c))
  | DRemove buf => '(b, d) ← Remove d buf; Ok (Z.b2z b, (d, c))
  | DSave =>
      c ← Directory_WriteBack d file c;
      d0 ← Directory_new (tableSize d);
      d ← Directory_FetchFrom d0 file c;
      Ok (0, (d, c))
  end.

Fixpoint dcalls_run file (s : Directory * sectors_t) (xs : list dcall) : result (list Z * (Directory * sectors_t)) :=
  match xs with
  | [] => Ok ([], s)
  | x :: xs => '(r, s) ← dcall_run file s x; '(rs, s) ← dcalls_run file s xs; Ok (r :: rs, s)
  end.

(** A map of at most [n] pairs. *)
Definition spec_dcall (n : Z) (M : gmap (list Z) Z) (x : dcall) : Z * gmap (list Z) Z :=
  match x with
  | DFind buf => (default (-1) (M !! key buf), M)
  | DAdd buf newSector => if decide (M !! key buf = None ∧ Z.of_nat (size M) < n) then (1, <[key buf := newSector]> M) else (0, M)
  | DRemove buf => match M !! key buf with None => (0, M) | Some _ => (1, delete (key buf) M) end
  | DSave => (0, M)
  end.

Fixpoint spec_dcalls (n : Z) (M : gmap (list Z) Z) (xs : list dcall) : list Z * gmap (list Z) Z :=
  match xs with
  | [] => ([], M)
  | x :: xs => let '(r, M) := spec_dcall n M x in let '(rs, M) := spec_dcalls n M xs in (r :: rs, M)
  end.

Definition dcall_ok (x : dcall) : Prop :=
  match x with
  | DFind buf | DRemove buf => ∃ nm, c_string buf nm
  | DAdd buf newSector => (∃ nm, c_string buf nm) ∧ is_s32 newSector
  | DSave => True
  end.

(** The file that belongs to the directory: its content does not matter, only its size. *)
Definition dir_file file c n : Prop :=
  disk_wf c ∧ header_ok (hdr file) ∧ ∃ content, shows c (hdr file) content ∧ Z.of_nat (length content) = n * 20.

Lemma dcall_spec n M d file c x : dir_ok d M → tableSize d = n → 0 < n < 2 ^ 20 → dir_file file c n → dcall_ok x →
  ∃ d' c', dcall_run file (d, c) x = Ok ((spec_dcall n M x).1, (d', c')) ∧ dir_ok d' (spec_dcall n M x).2 ∧ tableSize d' = n ∧
    dir_file file c' n ∧ elsewhere (hdr file) c c'.
Proof.
  intros Hd Ht Hn (Hc & Hh & content & Hs & Hl) Hx.
  assert (dir_file file c n) as Hdf by (split; [done |]; split; [done |]; by exists content).
  destruct x as [buf|buf s|buf|]; cbn [dcall_ok dcall_run spec_dcall fst snd] in *.
  - destruct Hx as [nm Hb]. rewrite (dir_Find_spec d M buf nm Hd Hb). destruct (c_string_readable 9 buf nm Hb) as [_ ->]. by exists d, c.
  - destruct Hx as [[nm Hb] Hs']. pose proof (Add_spec d M buf nm s Hd Hb Hs') as Ha. destruct (c_string_readable 9 buf nm Hb) as [_ ->].
    rewrite Ht in Ha. case_decide; cbn [fst snd].
    + destruct Ha as (d' & -> & Hd' & Ht'). exists d', c. split; [done |]. split; [done |]. split; [congruence | done].
    + rewrite Ha. by exists d, c.
  - destruct Hx as [nm Hb]. pose proof (dir_Remove_spec d M buf nm Hd Hb) as Hr. destruct (c_string_readable 9 buf nm Hb) as [_ ->].
    destruct (M !! take 9 nm); cbn [fst snd].
    + destruct Hr as (d' & -> & Hd' & Ht'). exists d', c. split; [done |]. split; [done |]. split; [congruence | done].
    + rewrite Hr. by exists d, c.
  - pose proof (table_length d M Hd) as Htl.
    destruct (Directory_WriteBack_spec d M file c content Hd) as (c' & -> & Hc' & Hs' & He); [lia | done | done | done | lia |]. cbn [rbind].
    destruct (fetch_spec d M file c' Hd) as (d0 & -> & H0); [lia | done | done | done |]. cbn [rbind]. rewrite H0. cbn [rbind].
    exists d, c'. split; [done |]. split; [done |]. split; [done |]. split; [| done]. split; [done |]. split; [done |].
    exists (table_bytes (table d)). split; [done |]. lia.
Qed.

(** A directory of [n] entries is a finite map of at most [n] pairs, from
    the first nine characters of a name to a sector.  A new one is empty; any
    sequence of [Find], [Add], [Remove], and of writing it to its file and
    fetching it into a new object, gives the answers of that map; only the
    data sectors of the file change. *)
Theorem Directory_refines_map n file c xs (Hn : 0 < n < 2 ^ 20) (Hf : dir_file file c n) (Hx : Forall dcall_ok xs) :
  ∃ d d' c', Directory_new n = Ok d ∧ dcalls_run file (d, c) xs = Ok ((spec_dcalls n ∅ xs).1, (d', c')) ∧
    dir_ok d' (spec_dcalls n ∅ xs).2 ∧ elsewhere (hdr file) c c'.
Proof.
  destruct (Directory_new_spec n) as (d & H0 & Ht & Hd); [lia |]. exists d.
  assert (∀ M d c, dir_ok d M → tableSize d = n → dir_file file c n → ∃ d' c',
    dcalls_run file (d, c) xs = Ok ((spec_dcalls n M xs).1, (d', c')) ∧ dir_ok d' (spec_dcalls n M xs).2 ∧ elsewhere (hdr file) c c') as Hrun.
  { clear -Hn Hx new_bytes_length. induction Hx as [|x xs Hx Hxs IH]; intros M d c Hd Ht Hf; [by exists d, c |].
    destruct (dcall_spec n M d file c x Hd Ht Hn Hf Hx) as (d1 & c1 & H1 & Hd1 & Ht1 & Hf1 & He1). cbn [dcalls_run spec_dcalls].
    rewrite H1. destruct (spec_dcall n M x) as [r M1]. cbn [rbind fst snd] in *.
    destruct (IH M1 d1 c1 Hd1 Ht1 Hf1) as (d2 & c2 & -> & Hd2 & He2). destruct (spec_dcalls n M1 xs) as [rs M2]. cbn [rbind fst snd] in *.
    exists d2, c2. split; [done |]. split; [done |]. intros s Hs Hns. rewrite He2; [by apply He1 | done | done]. }
  destruct (Hrun ∅ d c Hd Ht Hf) as (d' & c' & Hr & Hd' & He). by exists d', c'.
Qed.
End directory.

(** ** A small directory *)

Lemma one_sector_ok : header_ok (mkFileHeader 40 1 ([5] ++ replicate 61 0)).
Proof. constructor; try done; cbn; repeat constructor; set_solver || lia. Qed.

Lemma one_sector_shows : shows demo_sectors (mkFileHeader 40 1 ([5] ++ replicate 61 0)) (replicate 40 0).
Proof.
  split; [done |]. intros j Hj. cbn in Hj. unfold file_byte, demo_sectors. rewrite SectorSize_eq, Z.div_small, Z.mod_small by lia.
  change (dataSectors _ !! Z.to_nat 0) with (Some 5). cbn [mbind option_bind].
  rewrite (lookup_replicate_2 1024) by lia. cbn [mbind option_bind]. by rewrite !lookup_replicate_2 by lia.
Qed.

Definition demo_dcalls : list dcall :=
  [DAdd (replicate 9 97 ++ [98; 0]) 7; DSave; DFind (replicate 9 97 ++ [99; 0]); DAdd (replicate 9 97 ++ [0]) 8;
   DAdd [0] 9; DAdd [98; 0] 10; DRemove [0]; DSave; DFind [0]].

Lemma c_string_of nm : forallb (λ x, negb (x =? 0)) nm = true → ∃ nm', c_string (nm ++ [0]) nm'.
Proof.
  intros Hb. exists nm. split; [| by exists []]. apply Forall_forall. intros x Hx%list_elem_of_In. rewrite forallb_forall in Hb.
  specialize (Hb x Hx). by destruct (Z.eqb_spec x 0).
Qed.

Lemma demo_dcalls_ok : Forall dcall_ok demo_dcalls.
Proof.
  apply Forall_cons. split; [split; [by apply (c_string_of (replicate 9 97 ++ [98])) | done] |].
  apply Forall_cons. split; [done |].
  apply Forall_cons. split; [by apply (c_string_of (replicate 9 97 ++ [99])) |].
  apply Forall_cons. split; [split; [by apply (c_string_of (replicate 9 97)) | done] |].
  apply Forall_cons. split; [split; [by apply (c_string_of []) | done] |].
  apply Forall_cons. split; [split; [by apply (c_string_of [98]) | done] |].
  apply Forall_cons. split; [by apply (c_string_of []) |].
  apply Forall_cons. split; [done |]. apply Forall_singleton. by apply (c_string_of []).
Qed.

(** Names that agree on nine characters are one name. *)
Lemma Directory_refines_map_witness : ∃ d d' c', Directory_new false some_bytes 2 = Ok d ∧
  dcalls_run false some_bytes (mkOpenFile (mkFileHeader 40 1 ([5] ++ replicate 61 0)) 0 0) (d, demo_sectors) demo_dcalls =
    Ok ([1; 0; 7; 0; 1; 0; 1; 0; -1], (d', c')).
Proof.
  destruct (Directory_refines_map false some_bytes) with (n := 2) (file := mkOpenFile (mkFileHeader 40 1 ([5] ++ replicate 61 0)) 0 0)
    (c := demo_sectors) (xs := demo_dcalls) as (d & d' & c' & H0 & Hr & _).
  - intros n Hn. unfold some_bytes. rewrite length_replicate. lia.
  - lia.
  - split; [exact demo_sectors_wf |]. split; [exact one_sector_ok |]. exists (replicate 40 0). split; [exact one_sector_shows | done].
  - exact demo_dcalls_ok.
  - exists d, d', c'. split; [exact H0 |]. rewrite Hr. by vm_compute.
Defined.
