(* ===== verification/FileSys.v ===== *)
(** * The Nachos file system (filesys/filesys.cc)

    Files on the disk under names: the free map and the directory are themselves
    files, with headers in sectors 0 and 1, read before and written after each
    operation.  This is the class that the build replaces by the stub of
    [HostFile]. *)

From S2P Require Import Prelude Bitmap Machine Disk NachosFile PBitmap Directory.
Local Open Scope Z_scope.

Definition FreeMapSector : Z := 0.
Definition DirectorySector : Z := 1.
Definition FreeMapFileSize : Z := Z.quot NumSectors BitsInByte.
Definition NumDirEntries : Z := 10.
Definition DirectoryFileSize : Z := entry_size * NumDirEntries.
Definition stdin_name : list Z := [115; 116; 100; 105; 110; 0].
Definition stdout_name : list Z := [115; 116; 100; 111; 117; 116; 0].

(** [objects] are the [OpenFile]s that [Open] has made, [None] where one was
    deleted; a pointer of [openf] is [NULL] or the place of an object in it. *)
Record FileSystem := mkFileSystem {
  freeMapFile : OpenFile; directoryFile : OpenFile;
  openf : list (option nat); index : Z; objects : list (option OpenFile) }.

Implicit Types (fs : FileSystem) (c : sectors_t) (h : FileHeader) (name : list Z).

Definition with_openf fs t : FileSystem := mkFileSystem (freeMapFile fs) (directoryFile fs) t (index fs) (objects fs).
Definition with_index fs i : FileSystem := mkFileSystem (freeMapFile fs) (directoryFile fs) (openf fs) i (objects fs).
Definition with_objects fs os : FileSystem := mkFileSystem (freeMapFile fs) (directoryFile fs) (openf fs) (index fs) os.

(** What of a name counts. *)
Abbreviation key := (until0 (Z.to_nat FileNameMaxLen)).

(** The object a pointer leads to. *)
Definition object fs (p : nat) : result OpenFile :=
  match objects fs !! p with Some (Some o) => Ok o | _ => Fail Undefined end.

Section filesys.
(** The byte order of the host, and what [new] leaves in a byte array. *)
Variable big_endian : bool.
Variable new_bytes : Z → list Z.

(** [new FileHeader] *)
Definition FileHeader_new : FileHeader := bytes_header big_endian (new_bytes SectorSize).

(** [new Directory (NumDirEntries)], then [FetchFrom (directoryFile)] *)
Definition get_directory fs c : result Directory :=
  d ← Directory_new big_endian new_bytes NumDirEntries;
  Directory_FetchFrom big_endian new_bytes d (directoryFile fs) c.

Definition Create fs c name (initialSize : Z) : result (bool * sectors_t) :=
  directory ← get_directory fs c;
  s ← Find directory name;
  if negb (s =? -1) then Ok (false, c)
  else
    freeMap ← PersistentBitmap_from big_endian new_bytes (freeMapFile fs) NumSectors c;
    '(sector, freeMap) ← FindAndSet freeMap;
    if sector =? -1 then Ok (false, c)
    else
      '(added, directory) ← Add directory name sector;
      if negb added then Ok (false, c)
      else
        '(fits, h, freeMap) ← Allocate FileHeader_new freeMap initialSize;
        if negb fits then Ok (false, c)
        else
          c ← WriteBack big_endian c h sector;
          c ← Directory_WriteBack big_endian new_bytes directory (directoryFile fs) c;
          c ← PBitmap_WriteBack big_endian new_bytes freeMap (freeMapFile fs) c;
          Ok (true, c).

Definition FindFreeSlot fs : result Z :=
  r ← for_ret 2 10 (λ i _, p ← aget (openf fs) i; Ok (match p with None => inr i | Some _ => inl tt end)) tt;
  Ok (match r with inr i => i | inl _ => -1 end).

(** [Open (name)]: the object is made, and lost. *)
Definition Open1 fs c name : result (option nat * FileSystem) :=
  directory ← get_directory fs c;
  sector ← Find directory name;
  fs ← (if 0 <=? sector
        then o ← OpenFile_new big_endian c sector (s32 (host_word big_endian (new_bytes 4))); Ok (with_objects fs (objects fs ++ [Some o]))
        else Ok fs);
  i ← int_add (index fs) 1;
  p ← aget (openf fs) (i - 1);
  Ok (p, with_index fs i).

(** [Open (name, type)] *)
Definition Open fs c name (type : Z) : result (option nat * FileSystem) :=
  freeSlot ← FindFreeSlot fs;
  directory ← get_directory fs c;
  sector ← Find directory name;
  fs ← (if 0 <=? sector
        then o ← OpenFile_new big_endian c sector type;
             t ← aset (openf fs) freeSlot (Some (length (objects fs)));
             Ok (with_openf (with_objects fs (objects fs ++ [Some o])) t)
        else Ok fs);
  p ← aget (openf fs) freeSlot;
  Ok (p, fs).

Definition Remove fs c name : result (bool * sectors_t) :=
  directory ← get_directory fs c;
  sector ← Find directory name;
  if sector =? -1 then Ok (false, c)
  else
    fileHdr ← FetchFrom big_endian c sector;
    freeMap ← PersistentBitmap_from big_endian new_bytes (freeMapFile fs) NumSectors c;
    freeMap ← Deallocate fileHdr freeMap;
    freeMap ← Clear freeMap sector;
    '(_, directory) ← Directory.Remove directory name;
    c ← PBitmap_WriteBack big_endian new_bytes freeMap (freeMapFile fs) c;
    c ← Directory_WriteBack big_endian new_bytes directory (directoryFile fs) c;
    Ok (true, c).

(** What [List] prints. *)
Definition List fs c : result (list Z) := directory ← get_directory fs c; Directory.List directory.

(** Formatting: the free map and the directory in memory, then on the disk; what
    is printed when debugging is left out. *)
Definition format_disk c : result (OpenFile * OpenFile * sectors_t) :=
  let untyped := s32 (host_word big_endian (new_bytes 4)) in
  freeMap ← PersistentBitmap_new big_endian new_bytes NumSectors;
  directory ← Directory_new big_endian new_bytes NumDirEntries;
  freeMap ← Mark freeMap FreeMapSector;
  freeMap ← Mark freeMap DirectorySector;
  '(fits, mapHdr, freeMap) ← Allocate FileHeader_new freeMap FreeMapFileSize;
  ASSERT fits;;
  '(fits, dirHdr, freeMap) ← Allocate FileHeader_new freeMap DirectoryFileSize;
  ASSERT fits;;
  c ← WriteBack big_endian c mapHdr FreeMapSector;
  c ← WriteBack big_endian c dirHdr DirectorySector;
  freeMapFile ← OpenFile_new big_endian c FreeMapSector untyped;
  directoryFile ← OpenFile_new big_endian c DirectorySector untyped;
  c ← PBitmap_WriteBack big_endian new_bytes freeMap freeMapFile c;
  c ← Directory_WriteBack big_endian new_bytes directory directoryFile c;
  Ok (freeMapFile, directoryFile, c).

Definition open_disk c : result (OpenFile * OpenFile * sectors_t) :=
  let untyped := s32 (host_word big_endian (new_bytes 4)) in
  freeMapFile ← OpenFile_new big_endian c FreeMapSector untyped;
  directoryFile ← OpenFile_new big_endian c DirectorySector untyped;
  Ok (freeMapFile, directoryFile, c).

(** [openf[index++] = Open (name, type)] *)
Definition open_next fs c name (type : Z) : result FileSystem :=
  '(p, fs) ← Open fs c name type;
  t ← aset (openf fs) (index fs) p;
  i ← int_add (index fs) 1;
  Ok (with_index (with_openf fs t) i).

(** The constructor. *)
Definition FileSystem_new (format : bool) c : result (FileSystem * sectors_t) :=
  '(freeMapFile, directoryFile, c) ← (if format then format_disk c else open_disk c);
  let fs := mkFileSystem freeMapFile directoryFile (replicate 10 None) 0 [] in
  fs ← open_next fs c stdin_name 2;
  fs ← open_next fs c stdout_name 3;
  '(_, c) ← Create fs c stdin_name 0;
  '(_, c) ← Create fs c stdout_name 0;
  Ok (fs, c).

(** ** Volumes

    A file as it lies on the disk: the sector of its header, the header, its
    bytes.  A volume is a list of such files that share no sector. *)

Record fil := mkFil { fsec : Z; fhdr : FileHeader; fbytes : list Z }.
Implicit Types (f m d : fil) (l : list fil) (F : gmap (list Z) fil).

Definition with_bytes f bs : fil := mkFil (fsec f) (fhdr f) bs.
Definition sectors_of f : list Z := fsec f :: data_sectors (fhdr f).
Definition occupied l : list Z := l ≫= sectors_of.

Definition stored c f : Prop :=
  0 <= fsec f < NumSectors ∧ c !! Z.to_nat (fsec f) = Some (header_bytes big_endian (fhdr f)) ∧
  header_ok (fhdr f) ∧ header_ints (fhdr f) ∧ shows c (fhdr f) (fbytes f).

Definition volume c l : Prop := disk_wf c ∧ Forall (stored c) l ∧ NoDup (occupied l).

#[export] Instance volume_perm c : Proper (Permutation ==> iff) (volume c).
Proof. intros l l' Hl. unfold volume, occupied. by rewrite Hl. Qed.

Lemma occupied_cons f l : occupied (f :: l) = sectors_of f ++ occupied l.
Proof. done. Qed.

Lemma stored_range c f : stored c f → Forall (λ s, 0 <= s < NumSectors) (sectors_of f).
Proof. intros (Hr & _ & Hh & _). constructor; [done |]. apply (hok_range _ Hh). Qed.

Lemma volume_range c l : volume c l → Forall (λ s, 0 <= s < NumSectors) (occupied l).
Proof.
  intros (_ & Hs & _). unfold occupied. induction Hs as [|f l Hf Hl IH]; [constructor |]. rewrite bind_cons.
  apply Forall_app. split; [by eapply stored_range | done].
Qed.

(** Where two disks agree, they show the same. *)
Lemma file_byte_same c c' h j : header_ok h → 0 <= j < numBytes h →
  (∀ s, s ∈ data_sectors h → c' !! Z.to_nat s = c !! Z.to_nat s) → file_byte c' h j = file_byte c h j.
Proof.
  intros Hh Hj Heq. destruct (count_bounds h Hh) as [_ Hb]. unfold file_byte. pose proof SectorSize_eq as HS.
  destruct (sector_at h (j / SectorSize) Hh) as (s & -> & _ & Hs).
  { rewrite HS. split; [apply Z.div_pos; lia | apply Z.div_lt_upper_bound; lia]. }
  cbn. rewrite Heq; [done | by eapply list_elem_of_lookup_2].
Qed.

Lemma stored_same c c' f : stored c f → (∀ s, s ∈ sectors_of f → c' !! Z.to_nat s = c !! Z.to_nat s) → stored c' f.
Proof.
  intros (Hr & Hc & Hh & Hi & Hl & Hs) Heq. split; [done |]. split; [rewrite Heq by constructor; done |].
  split; [done |]. split; [done |]. split; [done |]. intros j Hj. rewrite Hs by done. symmetry.
  apply file_byte_same; [done | done |]. intros s Hin. apply Heq. by constructor.
Qed.

Lemma volume_same c c' l : Forall (stored c) l → (∀ s, s ∈ occupied l → c' !! Z.to_nat s = c !! Z.to_nat s) → Forall (stored c') l.
Proof.
  intros Hl. induction Hl as [|f l Hf Hl IH]; intros Heq; constructor.
  - apply (stored_same c); [done |]. intros s Hs. apply Heq. rewrite occupied_cons. apply elem_of_app. by left.
  - apply IH. intros s Hs. apply Heq. rewrite occupied_cons. apply elem_of_app. by right.
Qed.

(** Writing one file of a volume. *)
Lemma volume_write c c' f l bs : volume c (f :: l) → disk_wf c' → elsewhere (fhdr f) c c' → shows c' (fhdr f) bs →
  volume c' (with_bytes f bs :: l).
Proof.
  intros (Hc & Hs & Hd) Hc' He Hb. inversion_clear Hs as [|? ? Hf Hl]. pose proof (stored_range c f Hf) as Hr.
  pose proof (volume_range c l) as Hrl. rewrite occupied_cons in Hd. apply NoDup_app in Hd as (Hdf & Hdis & Hdl).
  pose proof Hdf as [Hns _]%NoDup_cons. split; [done |]. split; [| rewrite occupied_cons; by apply NoDup_app].
  constructor.
  - destruct Hf as (Hsr & Hsc & Hh & Hi & _). split; [done |]. split; [| by split].
    cbn. rewrite He; [done | lia | done].
  - apply (volume_same c); [done |]. intros s Hin. apply He.
    + specialize (Hrl (conj Hc (conj Hl Hdl))). rewrite Forall_forall in Hrl. apply (Hrl s Hin).
    + intros Hin'. apply (Hdis s); [by constructor | done].
Qed.

(** The bytes that are there when a header appears. *)
Lemma shows_exists c h : disk_wf c → header_ok h → ∃ bs, shows c h bs.
Proof.
  intros Hc Hh. pose proof (hok_size h Hh) as Hn.
  exists (map (λ j, default 0 (file_byte c h j)) (seqZ 0 (numBytes h))). split; [rewrite length_map, length_seqZ; lia |].
  intros j Hj. change (map ?g ?x) with (g <$> x). rewrite list_lookup_fmap, lookup_seqZ_lt by lia. cbn [fmap option_fmap option_map]. rewrite Z.add_0_l, Z2Nat.id by lia.
  destruct (count_bounds h Hh) as [_ Hb]. unfold file_byte. pose proof SectorSize_eq as HS.
  destruct (sector_at h (j / SectorSize) Hh) as (s & -> & Hr & _).
  { rewrite HS. split; [apply Z.div_pos; lia | apply Z.div_lt_upper_bound; lia]. }
  cbn. destruct (sector_data c s Hc Hr) as (data & _ & -> & Hl). cbn. pose proof (Z.mod_pos_bound j SectorSize).
  destruct (lookup_lt_is_Some_2 data (Z.to_nat (j mod SectorSize))) as [b ->]; [lia | done].
Qed.

(** A header written to a free sector makes a file. *)
Lemma volume_add c l h s : volume c l → 0 <= s < NumSectors → header_ok h → header_ints h → NoDup (s :: data_sectors h ++ occupied l) →
  ∃ c' bs, WriteBack big_endian c h s = Ok c' ∧ volume c' (mkFil s h bs :: l) ∧ Z.of_nat (length bs) = numBytes h.
Proof.
  intros ([Hcl Hcf] & Hs & _) Hr Hh Hi Hnd. unfold WriteBack. rewrite sector_set by done. destruct (header_round big_endian h Hi) as [_ Hhl].
  set (c' := <[Z.to_nat s := header_bytes big_endian h]> c).
  assert (disk_wf c') as Hc'.
  { split; [unfold c'; by rewrite length_insert |]. apply Forall_insert; [done |]. rewrite Hhl. by rewrite SectorSize_eq. }
  destruct (shows_exists c' h Hc' Hh) as [bs Hbs]. exists c', bs. split; [done |]. split; [| apply Hbs].
  pose proof Hnd as [Hns _]%NoDup_cons.
  split; [done |]. split; [| done]. constructor.
  - split; [done |]. split; [unfold c'; by rewrite list_lookup_insert_eq by lia |]. done.
  - apply (volume_same c); [done |]. intros x Hx. unfold c'. apply list_lookup_insert_ne. intros Heq. apply Hns.
    apply elem_of_app. right. replace s with x; [done |]. apply NoDup_cons in Hnd as [_ Hnd]. apply NoDup_app in Hnd as (_ & _ & Hnd).
    assert (volume c l) as Hv by (split; [by split | done]). pose proof (volume_range c l Hv) as Hrl. rewrite Forall_forall in Hrl.
    specialize (Hrl x Hx). lia.
Qed.

Hypothesis new_bytes_length : ∀ n, 0 <= n → Z.of_nat (length (new_bytes n)) = n.

Lemma new_header : length (dataSectors FileHeader_new) = Z.to_nat NumDirect ∧ Forall is_s32 (dataSectors FileHeader_new).
Proof.
  unfold FileHeader_new, bytes_header. cbn [dataSectors]. rewrite length_drop, length_fmap, bytes_words_length. split; [done |].
  apply Forall_drop, Forall_fmap, Forall_true. intros w. apply s32_range.
Qed.

(** ** The files of a disk *)

(** [m] and [d] are the files of the free map and of the directory, [F] the others. *)
Definition vol (m d : fil) (F : gmap (list Z) fil) : list fil := m :: d :: (map_to_list F).*2.

Record fs_shows fs c (m d : fil) (F : gmap (list Z) fil) (b : Bitmap) (dir : Directory) : Prop := {
  sh_map : hdr (freeMapFile fs) = fhdr m;
  sh_dir : hdr (directoryFile fs) = fhdr d;
  sh_mapsec : fsec m = FreeMapSector;
  sh_dirsec : fsec d = DirectorySector;
  sh_volume : volume c (vol m d F);
  sh_words : fbytes m = words_bytes big_endian (words b);
  sh_marks : marks b NumSectors (list_to_set (occupied (vol m d F)));
  sh_table : fbytes d = table_bytes big_endian (table dir);
  sh_dir_ok : dir_ok dir (fsec <$> F);
  sh_size : tableSize dir = NumDirEntries }.

Lemma volume_stored c l f : volume c l → f ∈ l → disk_wf c ∧ header_ok (fhdr f) ∧ shows c (fhdr f) (fbytes f).
Proof. intros (Hc & Hs & _) Hf. rewrite Forall_forall in Hs. destruct (Hs f Hf) as (_ & _ & Hh & _ & Hb). done. Qed.

Lemma get_directory_spec fs c m d F b dir : fs_shows fs c m d F b dir → get_directory fs c = Ok dir.
Proof.
  intros Hs. destruct (volume_stored c (vol m d F) d) as (Hc & Hh & Hb); [apply Hs | unfold vol; set_solver |].
  unfold get_directory. destruct (fetch_spec big_endian new_bytes new_bytes_length dir (fsec <$> F) (directoryFile fs) c) as (d0 & H0 & H1).
  - apply Hs.
  - rewrite (sh_size _ _ _ _ _ _ _ Hs). done.
  - done.
  - by rewrite (sh_dir _ _ _ _ _ _ _ Hs).
  - by rewrite (sh_dir _ _ _ _ _ _ _ Hs), <- (sh_table _ _ _ _ _ _ _ Hs).
  - rewrite (sh_size _ _ _ _ _ _ _ Hs) in H0. rewrite H0. exact H1.
Qed.

Lemma get_map_spec fs c m d F b dir : fs_shows fs c m d F b dir →
  PersistentBitmap_from big_endian new_bytes (freeMapFile fs) NumSectors c = Ok b.
Proof.
  intros Hs. destruct (volume_stored c (vol m d F) m) as (Hc & Hh & Hb); [apply Hs | unfold vol; set_solver |].
  apply (from_spec big_endian new_bytes new_bytes_length b NumSectors (list_to_set (occupied (vol m d F)))); [apply Hs | done | done | |].
  - by rewrite (sh_map _ _ _ _ _ _ _ Hs).
  - by rewrite (sh_map _ _ _ _ _ _ _ Hs), <- (sh_words _ _ _ _ _ _ _ Hs).
Qed.

(** Writing back the free map and the directory. *)
Lemma map_size b u : marks b NumSectors u → length (words_bytes big_endian (words b)) = 128%nat.
Proof.
  intros Hm. destruct (map_length big_endian b _ u Hm) as [Hl _]. destruct Hm as [(_ & Hw & _) [Hn _]]. rewrite Hw, Hn in Hl.
  change (divRoundUp NumSectors BitsInWord * 4) with 128 in Hl. lia.
Qed.

Lemma dir_bytes_size dir M : dir_ok dir M → tableSize dir = NumDirEntries → length (table_bytes big_endian (table dir)) = 200%nat.
Proof. intros Hd Ht. pose proof (table_length big_endian dir M Hd) as Hl. rewrite Ht in Hl. unfold NumDirEntries in Hl. lia. Qed.

Lemma commit_map file c m l b u : volume c (m :: l) → hdr file = fhdr m → length (fbytes m) = 128%nat → marks b NumSectors u →
  ∃ c', PBitmap_WriteBack big_endian new_bytes b file c = Ok c' ∧ volume c' (with_bytes m (words_bytes big_endian (words b)) :: l).
Proof.
  intros Hv Hf Hl Hm. destruct (volume_stored c _ m Hv) as (Hc & Hh & Hb); [by constructor |]. rewrite <- Hf in Hh, Hb.
  destruct (WriteBack_spec big_endian new_bytes new_bytes_length b NumSectors u file c (fbytes m) Hm) as (c' & Hw & Hc' & Hs & He);
    [done | done | done | done | by rewrite (map_size b u) |].
  rewrite Hf in Hs, He. exists c'. split; [done |]. by eapply volume_write.
Qed.

Lemma commit_dir file c d l dir M : volume c (d :: l) → hdr file = fhdr d → length (fbytes d) = 200%nat →
  dir_ok dir M → tableSize dir = NumDirEntries →
  ∃ c', Directory_WriteBack big_endian new_bytes dir file c = Ok c' ∧ volume c' (with_bytes d (table_bytes big_endian (table dir)) :: l).
Proof.
  intros Hv Hf Hl Hd Ht. destruct (volume_stored c _ d Hv) as (Hc & Hh & Hb); [by constructor |]. rewrite <- Hf in Hh, Hb.
  destruct (Directory_WriteBack_spec big_endian new_bytes new_bytes_length dir M file c (fbytes d) Hd) as (c' & Hw & Hc' & Hs & He);
    [by rewrite Ht | done | done | done | by rewrite (dir_bytes_size dir M) |].
  rewrite Hf in Hs, He. exists c'. split; [done |]. by eapply volume_write.
Qed.

Lemma vol_insert m d F k f : F !! k = None → vol m d (<[k := f]> F) ≡ₚ f :: vol m d F.
Proof.
  intros Hk. unfold vol. rewrite (map_to_list_insert F k f Hk). symmetry. apply (Permutation_middle [m; d]).
Qed.

Lemma vol_lookup m d F k f : F !! k = Some f → vol m d F ≡ₚ f :: vol m d (delete k F).
Proof. intros Hk. rewrite <- (insert_delete_id F k f Hk) at 1. apply vol_insert, lookup_delete_eq. Qed.

Definition marked l : gset Z := list_to_set (occupied l).

Lemma marked_perm l l' : l ≡ₚ l' → marked l = marked l'.
Proof. intros Hl. unfold marked, occupied. apply set_eq. intros x. rewrite !elem_of_list_to_set. by rewrite Hl. Qed.

Lemma marked_cons f l : marked (f :: l) = {[fsec f]} ∪ list_to_set (data_sectors (fhdr f)) ∪ marked l.
Proof. unfold marked. rewrite occupied_cons. unfold sectors_of. cbn [app list_to_set]. rewrite list_to_set_app_L. set_solver. Qed.

(** *** Counting sectors *)

Definition needed (bs : list Z) : Z := 1 + divRoundUp (Z.of_nat (length bs)) SectorSize.

(** Four sectors hold the free map, the directory and their headers. *)
Definition free_sectors (M : gmap (list Z) (list Z)) : Z := NumSectors - 4 - foldr Z.add 0 (needed <$> (map_to_list M).*2).

Definition contents F : gmap (list Z) (list Z) := fbytes <$> F.

Lemma stored_needed c f : stored c f → Z.of_nat (length (sectors_of f)) = needed (fbytes f).
Proof.
  intros (_ & _ & Hh & _ & Hl & _). unfold needed, sectors_of. rewrite Hl. rewrite <- (hok_count _ Hh). pose proof (count_bounds _ Hh).
  unfold data_sectors. cbn [length]. rewrite length_take, (hok_length _ Hh). change (Z.to_nat NumDirect) with 62%nat. lia.
Qed.

Lemma occupied_length c l : Forall (stored c) l → Z.of_nat (length (occupied l)) = foldr Z.add 0 (needed <$> (fbytes <$> l)).
Proof.
  induction 1 as [|f l Hf Hl IH]; [done |]. rewrite occupied_cons, length_app. cbn [fmap list_fmap foldr].
  rewrite Nat2Z.inj_add, IH. by rewrite (stored_needed c).
Qed.

Lemma marked_size c l : volume c l → size (marked l) = length (occupied l).
Proof. intros (_ & _ & Hd). unfold marked. by rewrite size_list_to_set. Qed.

Lemma fs_lengths fs c m d F b dir : fs_shows fs c m d F b dir → length (fbytes m) = 128%nat ∧ length (fbytes d) = 200%nat.
Proof.
  intros Hs. rewrite (sh_words _ _ _ _ _ _ _ Hs), (sh_table _ _ _ _ _ _ _ Hs). split.
  - eapply map_size. apply Hs.
  - eapply dir_bytes_size; apply Hs.
Qed.

Lemma contents_list F : (map_to_list (contents F)).*2 = fbytes <$> (map_to_list F).*2.
Proof. unfold contents. rewrite map_to_list_fmap, <- !list_fmap_compose. by apply list_fmap_ext. Qed.

Lemma free_spec fs c m d F b dir : fs_shows fs c m d F b dir →
  NumSectors - Z.of_nat (size (marked (vol m d F))) = free_sectors (contents F).
Proof.
  intros Hs. destruct (fs_lengths _ _ _ _ _ _ _ Hs) as [Hm Hd]. pose proof (sh_volume _ _ _ _ _ _ _ Hs) as Hv.
  rewrite (marked_size c) by done. destruct Hv as (_ & Hst & _). rewrite (occupied_length c) by done.
  unfold free_sectors. rewrite contents_list. unfold vol. cbn [fmap list_fmap foldr]. unfold needed at 1 2. rewrite Hm, Hd.
  change (divRoundUp (Z.of_nat 128) SectorSize) with 1. change (divRoundUp (Z.of_nat 200) SectorSize) with 1. lia.
Qed.

Lemma find_sector fs c m d F b dir k nm name : fs_shows fs c m d F b dir → c_string name nm → k = take 9 nm →
  Find dir name = Ok (match F !! k with Some f => fsec f | None => -1 end) ∧
  ∀ f, F !! k = Some f → stored c f ∧ 0 <= fsec f.
Proof.
  intros Hs Hn ->. split.
  - rewrite (dir_Find_spec dir (fsec <$> F) name nm) by (apply Hs || done). rewrite lookup_fmap. by destruct (F !! take 9 nm).
  - intros f Hf. destruct (sh_volume _ _ _ _ _ _ _ Hs) as (_ & Hst & _). rewrite (vol_lookup _ _ _ _ _ Hf) in Hst.
    apply Forall_inv in Hst. split; [done |]. apply Hst.
Qed.

Lemma header_small h n k : header_ok h → numBytes h = n → 0 <= n < 2 ^ 31 → dataSectors h = data_sectors h ++ drop k (dataSectors FileHeader_new) → header_ints h.
Proof.
  intros Hh Hn Hr Hd. pose proof (count_bounds h Hh) as Hc. split; [unfold is_s32; lia |]. split; [unfold is_s32; lia |].
  split; [| apply (hok_length h Hh)]. rewrite Hd. apply Forall_app. split; [| apply Forall_drop, new_header].
  eapply Forall_impl; [apply (hok_range h Hh) |]. intros x [H0 H1]. change NumSectors with 1024 in H1. unfold is_s32. lia.
Qed.

(** *** Create *)

(** [Create] in this state makes a file. *)
Definition can_create (M : gmap (list Z) (list Z)) (k : list Z) (n : Z) : Prop :=
  M !! k = None ∧ Z.of_nat (size M) < NumDirEntries ∧ 1 + divRoundUp n SectorSize <= free_sectors M.

#[export] Instance can_create_dec M k n : Decision (can_create M k n) := _.

Lemma contents_lookup F k : contents F !! k = fbytes <$> F !! k.
Proof. apply lookup_fmap. Qed.

Lemma contents_size F : size (contents F) = size F.
Proof. apply map_size_fmap. Qed.

(** The sector for the header, the directory and the blocks, in memory. *)
Lemma Create_memory fs c m d F b dir name nm n : fs_shows fs c m d F b dir → c_string name nm → F !! take 9 nm = None →
  Z.of_nat (size F) < NumDirEntries → 1 + divRoundUp n SectorSize <= free_sectors (contents F) → 0 <= n → divRoundUp n SectorSize <= NumDirect →
  ∃ s b1 dir1 h b2, FindAndSet b = Ok (s, b1) ∧ Directory.Add dir name s = Ok (true, dir1) ∧ Allocate FileHeader_new b1 n = Ok (true, h, b2) ∧
    0 <= s < NumSectors ∧ NoDup (s :: data_sectors h ++ occupied (vol m d F)) ∧ header_ok h ∧ header_ints h ∧ numBytes h = n ∧
    dir_ok dir1 (<[take 9 nm := s]> (fsec <$> F)) ∧ tableSize dir1 = NumDirEntries ∧
    marks b2 NumSectors (list_to_set (data_sectors h) ∪ ({[s]} ∪ marked (vol m d F))).
Proof.
  intros Hs Hn Hk Hsz Hfree H0 Hdir. rewrite <- (free_spec fs c m d F b dir Hs) in Hfree.
  assert (0 <= divRoundUp n SectorSize) as Hns by (destruct (divRoundUp_spec n SectorSize) as [|[]]; rewrite ?SectorSize_eq in *; lia).
  destruct (marks_FindAndSet _ _ _ (sh_marks _ _ _ _ _ _ _ Hs)) as [(s & b1 & Hfs & Hr & Hu & _ & Hm1)|[_ Hall]].
  2: { apply full_marks in Hall; [| done]. unfold marked in *. lia. }
  fold (marked (vol m d F)) in Hu, Hm1.
  pose proof (Add_spec dir (fsec <$> F) name nm s (sh_dir_ok _ _ _ _ _ _ _ Hs) Hn) as Ha.
  rewrite decide_True in Ha by (rewrite lookup_fmap, Hk, map_size_fmap, (sh_size _ _ _ _ _ _ _ Hs); done).
  destruct Ha as (dir1 & Ha & Hd1 & Ht1); [change NumSectors with 1024 in Hr; unfold is_s32; lia |].
  assert (size ({[s]} ∪ marked (vol m d F)) = S (size (marked (vol m d F)))) as Hsize.
  { rewrite size_union by set_solver. by rewrite size_singleton. }
  destruct (Allocate_fits FileHeader_new b1 _ n Hm1) as (h & b2 & Hal & Hh & Hnb & Hdis & Hm2 & k & Hk2); [apply new_header | done | lia | done |].
  exists s, b1, dir1, h, b2. split; [done |]. split; [done |]. split; [done |]. split; [done |]. split.
  { pose proof (sh_volume _ _ _ _ _ _ _ Hs) as (_ & _ & Hnd). rewrite Forall_forall in Hdis. constructor.
    - intros [Hin|Hin]%elem_of_app; [by apply (Hdis s Hin), elem_of_union_l, elem_of_singleton |].
      apply Hu. unfold marked. by apply elem_of_list_to_set.
    - apply NoDup_app. split; [apply (hok_distinct h Hh) |]. split; [| done]. intros x Hx Hx'. apply (Hdis x Hx).
      apply elem_of_union_r. unfold marked. by apply elem_of_list_to_set. }
  split; [done |]. split; [eapply header_small; [done | done | | done] |].
  { pose proof (count_bounds h Hh). lia. }
  split; [done |]. split; [done |]. split; [by rewrite Ht1, (sh_size _ _ _ _ _ _ _ Hs) | done].
Qed.

Lemma fs_Create_ok fs c m d F b dir name nm n : fs_shows fs c m d F b dir → c_string name nm →
  can_create (contents F) (take 9 nm) n → 0 <= n → divRoundUp n SectorSize <= NumDirect →
  ∃ c' m' d' f b' dir', Create fs c name n = Ok (true, c') ∧ fs_shows fs c' m' d' (<[take 9 nm := f]> F) b' dir' ∧
    Z.of_nat (length (fbytes f)) = n.
Proof.
  intros Hs Hn (HM & Hsz & Hfree) H0 Hdir. rewrite contents_lookup, fmap_None in HM. rewrite contents_size in Hsz.
  unfold Create. rewrite (get_directory_spec _ _ _ _ _ _ _ Hs). cbn [rbind].
  destruct (find_sector _ _ _ _ _ _ _ _ nm name Hs Hn eq_refl) as [-> _]. rewrite HM. cbn [rbind Z.eqb negb].
  rewrite (get_map_spec _ _ _ _ _ _ _ Hs). cbn [rbind].
  destruct (Create_memory fs c m d F b dir name nm n Hs Hn HM Hsz Hfree H0 Hdir)
    as (s & b1 & dir1 & h & b2 & -> & Ha & Hal & Hr & Hnd & Hh & Hi & Hnb & Hd1 & Ht1 & Hm2).
  cbn [rbind]. destruct (Z.eqb_spec s (-1)); [lia |]. rewrite Ha. cbn [rbind negb]. rewrite Hal. cbn [rbind negb].
  destruct (fs_lengths _ _ _ _ _ _ _ Hs) as [Hlm Hld]. pose proof (sh_volume _ _ _ _ _ _ _ Hs) as Hv.
  destruct (volume_add c (vol m d F) h s Hv Hr Hh Hi Hnd) as (c1 & bs & -> & Hv1 & Hbs). cbn [rbind].
  set (f := mkFil s h bs) in *. set (l := (map_to_list F).*2) in *.
  assert (f :: vol m d F ≡ₚ d :: m :: f :: l) as Hp1.
  { unfold vol. fold l. rewrite (Permutation_middle [m; d] l f). apply Permutation_swap. }
  rewrite Hp1 in Hv1. destruct (commit_dir (directoryFile fs) c1 d _ dir1 _ Hv1 (sh_dir _ _ _ _ _ _ _ Hs) Hld Hd1 Ht1) as (c2 & -> & Hv2).
  cbn [rbind]. set (d' := with_bytes d _) in *. rewrite Permutation_swap in Hv2.
  destruct (commit_map (freeMapFile fs) c2 m _ b2 _ Hv2 (sh_map _ _ _ _ _ _ _ Hs) Hlm Hm2) as (c3 & -> & Hv3).
  cbn [rbind]. set (m' := with_bytes m _) in *.
  assert (vol m' d' (<[take 9 nm := f]> F) ≡ₚ m' :: d' :: f :: l) as Hp.
  { rewrite vol_insert by done. unfold vol. fold l. apply (Permutation_middle [m'; d']). }
  exists c3, m', d', f, b2, dir1. split; [done |]. split; [| cbn; lia].
  constructor; try done; [apply Hs | apply Hs | apply Hs | apply Hs | by rewrite Hp | | by rewrite fmap_insert].
  fold (marked (vol m' d' (<[take 9 nm := f]> F))). rewrite (marked_perm _ _ (vol_insert m' d' F (take 9 nm) f HM)), marked_cons.
  eapply eq_ind; [exact Hm2 |]. change (marked (vol m' d' F)) with (marked (vol m d F)). cbn. set_solver.
Qed.

Lemma Create_refused fs c m d F b dir name nm n : fs_shows fs c m d F b dir → c_string name nm →
  ¬ can_create (contents F) (take 9 nm) n → 0 <= n → divRoundUp n SectorSize <= NumDirect → Create fs c name n = Ok (false, c).
Proof.
  intros Hs Hn Hno H0 Hdir. unfold can_create in Hno. rewrite contents_lookup, fmap_None, contents_size in Hno.
  unfold Create. rewrite (get_directory_spec _ _ _ _ _ _ _ Hs). cbn [rbind].
  destruct (find_sector _ _ _ _ _ _ _ _ nm name Hs Hn eq_refl) as [-> Hf].
  destruct (F !! take 9 nm) as [f|] eqn:HF; cbn [rbind].
  { destruct (Hf f eq_refl). by destruct (Z.eqb_spec (fsec f) (-1)); [lia |]. }
  cbn [Z.eqb negb]. rewrite (get_map_spec _ _ _ _ _ _ _ Hs). cbn [rbind].
  pose proof (free_spec fs c m d F b dir Hs) as Hfree.
  destruct (marks_FindAndSet _ _ _ (sh_marks _ _ _ _ _ _ _ Hs)) as [(s & b1 & -> & Hr & Hu & _ & Hm1)|[-> _]]; [| done].
  fold (marked (vol m d F)) in Hu, Hm1. cbn [rbind]. destruct (Z.eqb_spec s (-1)); [lia |].
  pose proof (Add_spec dir (fsec <$> F) name nm s (sh_dir_ok _ _ _ _ _ _ _ Hs) Hn) as Ha.
  rewrite lookup_fmap, HF, map_size_fmap, (sh_size _ _ _ _ _ _ _ Hs) in Ha.
  specialize (Ha ltac:(change NumSectors with 1024 in Hr; unfold is_s32; lia)). case_decide as Hroom.
  2: { rewrite Ha. done. }
  destruct Ha as (dir1 & -> & _). cbn [rbind negb]. unfold Allocate. rewrite (marks_NumClear _ _ _ Hm1). cbn [rbind].
  rewrite size_union, size_singleton by set_solver.
  destruct (Z.ltb_spec (NumSectors - Z.of_nat (1 + size (marked (vol m d F)))) (divRoundUp n SectorSize)); [done |].
  exfalso. apply Hno. split; [done |]. destruct Hroom as [_ Hroom]. split; [done | lia].
Qed.

(** *** Remove *)

Lemma fetch_header c f : disk_wf c → stored c f → FetchFrom big_endian c (fsec f) = Ok (fhdr f).
Proof.
  intros [Hc _] (Hr & Hs & _ & Hi & _). unfold FetchFrom. destruct (sector_get c (fsec f) Hc Hr) as (data & -> & Hd). cbn [rbind].
  rewrite Hs in Hd. injection Hd as <-. by destruct (header_round big_endian (fhdr f) Hi) as [-> _].
Qed.

Lemma Remove_missing fs c m d F b dir name nm : fs_shows fs c m d F b dir → c_string name nm → F !! take 9 nm = None →
  Remove fs c name = Ok (false, c).
Proof.
  intros Hs Hn Hk. unfold Remove. rewrite (get_directory_spec _ _ _ _ _ _ _ Hs). cbn [rbind].
  destruct (find_sector _ _ _ _ _ _ _ _ nm name Hs Hn eq_refl) as [-> _]. by rewrite Hk.
Qed.

Lemma Remove_ok fs c m d F b dir name nm f : fs_shows fs c m d F b dir → c_string name nm → F !! take 9 nm = Some f →
  ∃ c' m' d' b' dir', Remove fs c name = Ok (true, c') ∧ fs_shows fs c' m' d' (delete (take 9 nm) F) b' dir'.
Proof.
  intros Hs Hn Hk. unfold Remove. rewrite (get_directory_spec _ _ _ _ _ _ _ Hs). cbn [rbind].
  destruct (find_sector _ _ _ _ _ _ _ _ nm name Hs Hn eq_refl) as [-> Hf]. rewrite Hk. cbn [rbind]. destruct (Hf f Hk) as [Hst Hpos].
  destruct (Z.eqb_spec (fsec f) (-1)); [lia |]. pose proof (sh_volume _ _ _ _ _ _ _ Hs) as Hv. pose proof Hv as (Hc & _).
  rewrite (fetch_header c f Hc Hst), (get_map_spec _ _ _ _ _ _ _ Hs). cbn [rbind].
  pose proof (sh_marks _ _ _ _ _ _ _ Hs) as Hm. fold (marked (vol m d F)) in Hm. pose proof (vol_lookup m d F _ f Hk) as Hp.
  rewrite (marked_perm _ _ Hp), marked_cons in Hm. rewrite Hp in Hv. pose proof Hv as (_ & Hst' & Hnd).
  rewrite occupied_cons in Hnd. apply NoDup_app in Hnd as (Hndf & Hdis & Hndl). apply NoDup_cons in Hndf as [Hns Hndd].
  destruct (Deallocate_spec (fhdr f) b _ (proj1 (proj2 (proj2 Hst))) Hm) as (b1 & -> & Hm1); [apply Forall_forall; set_solver |].
  cbn [rbind]. destruct (marks_Clear _ _ _ (fsec f) Hm1 (proj1 Hst)) as (b2 & -> & Hm2). cbn [rbind].
  pose proof (dir_Remove_spec dir (fsec <$> F) name nm (sh_dir_ok _ _ _ _ _ _ _ Hs) Hn) as Hrm. rewrite lookup_fmap, Hk in Hrm.
  destruct Hrm as (dir' & -> & Hd' & Ht'). cbn [rbind]. rewrite (sh_size _ _ _ _ _ _ _ Hs) in Ht'.
  destruct (fs_lengths _ _ _ _ _ _ _ Hs) as [Hlm Hld]. set (G := delete (take 9 nm) F) in *. set (l := (map_to_list G).*2) in *.
  assert (volume c (m :: d :: l)) as Hv1 by (split; [done |]; split; [by inversion_clear Hst' | done]).
  destruct (commit_map (freeMapFile fs) c m _ b2 _ Hv1 (sh_map _ _ _ _ _ _ _ Hs) Hlm Hm2) as (c1 & -> & Hv2). cbn [rbind].
  set (m' := with_bytes m _) in *. rewrite Permutation_swap in Hv2.
  destruct (commit_dir (directoryFile fs) c1 d _ dir' _ Hv2 (sh_dir _ _ _ _ _ _ _ Hs) Hld Hd' Ht') as (c2 & -> & Hv3). cbn [rbind].
  set (d' := with_bytes d _) in *. rewrite Permutation_swap in Hv3.
  exists c2, m', d', b2, dir'. split; [done |].
  constructor; try done; [apply Hs | apply Hs | apply Hs | apply Hs | | unfold G; by rewrite fmap_delete].
  fold (marked (vol m' d' G)). change (marked (vol m' d' G)) with (marked (vol m d G)). eapply eq_ind; [exact Hm2 |].
  assert (∀ x, x ∈ marked (vol m d G) → x ∉ data_sectors (fhdr f) ∧ x ≠ fsec f) as Hout.
  { intros x Hx. unfold marked in Hx. apply elem_of_list_to_set in Hx. split; [intros Hin | intros ->].
    - apply (Hdis x); [by constructor | done].
    - apply (Hdis (fsec f)); [by constructor | done]. }
  apply set_eq. intros x. rewrite !elem_of_difference, !elem_of_union, !elem_of_singleton, !elem_of_list_to_set. naive_solver.
Qed.

(** *** Open *)

(** A slot is free. *)
Definition slots_ok fs : Prop := length (openf fs) = 10%nat ∧ openf fs !! 9%nat = Some None.

Lemma FindFreeSlot_spec fs : slots_ok fs → ∃ i, FindFreeSlot fs = Ok (Z.of_nat i) ∧ (2 <= i < 10)%nat ∧ openf fs !! i = Some None ∧
  ∀ j, (2 <= j < i)%nat → openf fs !! j ≠ Some None.
Proof.
  intros [Hl H9]. unfold FindFreeSlot.
  edestruct (for_ret_rule (λ i (_ : unit), i <= 9 ∧ ∀ j, (2 <= j)%nat → Z.of_nat j < i → openf fs !! j ≠ Some None)
    (λ i, ∃ j, i = Z.of_nat j ∧ (2 <= j < 10)%nat ∧ openf fs !! j = Some None ∧ ∀ j', (2 <= j' < j)%nat → openf fs !! j' ≠ Some None) 2 10)
    as (r & -> & Hr); [lia | split; [lia |]; intros; lia | | cbn [rbind]].
  - intros i [] Hi [Hle Hbefore]. destruct (lookup_lt_is_Some_2 (openf fs) (Z.to_nat i)) as [p Hp]; [lia |].
    rewrite (proj2 (aget_Ok _ _ p)) by (split; [lia | done]). cbn [rbind]. eexists. split; [done |]. destruct p as [p|]; cbn.
    + split.
      * destruct (decide (i = 9)) as [->|]; [| lia]. change (Z.to_nat 9) with 9%nat in Hp. congruence.
      * intros j Hj Hji. destruct (decide (j = Z.to_nat i)) as [->|]; [congruence | apply Hbefore; lia].
    + exists (Z.to_nat i). split; [lia |]. split; [lia |]. split; [done |]. intros j' Hj'. apply Hbefore; lia.
  - destruct r as [[]|i]; [lia |]. destruct Hr as (j & -> & Hj & H). by exists j.
Qed.

Lemma Open_missing fs c m d F b dir name nm type : fs_shows fs c m d F b dir → slots_ok fs → c_string name nm → F !! take 9 nm = None →
  Open fs c name type = Ok (None, fs).
Proof.
  intros Hs Hsl Hn Hk. unfold Open. destruct (FindFreeSlot_spec fs Hsl) as (i & -> & Hi & Hfree & Hfirst). cbn [rbind].
  rewrite (get_directory_spec _ _ _ _ _ _ _ Hs). cbn [rbind]. destruct (find_sector _ _ _ _ _ _ _ _ nm name Hs Hn eq_refl) as [-> _].
  rewrite Hk. cbn [rbind Z.leb Z.compare]. by rewrite (aget_lookup _ _ _ Hfree).
Qed.

Lemma fs_Open_ok fs c m d F b dir name nm type f : fs_shows fs c m d F b dir → slots_ok fs → c_string name nm → F !! take 9 nm = Some f →
  ∃ t, Open fs c name type = Ok (Some (length (objects fs)), with_openf (with_objects fs (objects fs ++ [Some (mkOpenFile (fhdr f) 0 type)])) t) ∧
    length t = 10%nat ∧ ∀ i j, (2 <= i < j)%nat → openf fs !! i = Some None → t !! j = openf fs !! j.
Proof.
  intros Hs Hsl Hn Hk. unfold Open. destruct (FindFreeSlot_spec fs Hsl) as (i & -> & Hi & Hfree & Hfirst). cbn [rbind].
  rewrite (get_directory_spec _ _ _ _ _ _ _ Hs). cbn [rbind]. destruct (find_sector _ _ _ _ _ _ _ _ nm name Hs Hn eq_refl) as [-> Hf].
  rewrite Hk. cbn [rbind]. destruct (Hf f Hk) as [Hst Hpos]. destruct (Z.leb_spec 0 (fsec f)); [| lia].
  unfold OpenFile_new. rewrite (fetch_header c f) by (done || apply (sh_volume _ _ _ _ _ _ _ Hs)). cbn [rbind].
  pose proof Hsl as [Hl _]. rewrite aset_in by lia. cbn [rbind openf with_openf]. rewrite Nat2Z.id.
  rewrite (aget_lookup _ i (Some (length (objects fs)))) by (rewrite list_lookup_insert_eq by lia; done). cbn [rbind].
  eexists. split; [done |]. split; [by rewrite length_insert |]. intros i' j Hij Hi'. apply list_lookup_insert_ne. intros ->.
  by apply (Hfirst i').
Qed.

(** *** Start *)

Lemma open_next_ok fs c m d F b dir name nm type i : fs_shows fs c m d F b dir → slots_ok fs → c_string name nm →
  (i < 2)%nat → index fs = Z.of_nat i → openf fs !! (2 + i)%nat = Some None →
  ∃ fs', open_next fs c name type = Ok fs' ∧ fs_shows fs' c m d F b dir ∧ index fs' = Z.of_nat (S i) ∧ length (openf fs') = 10%nat ∧
    (∀ j, (2 + i < j)%nat → openf fs' !! j = openf fs !! j) ∧
    (F !! take 9 nm = None → openf fs' = <[i := None]> (openf fs)).
Proof.
  intros Hs Hsl Hn Hi Hx Hfree. pose proof Hsl as [Hl _]. unfold open_next. destruct (F !! take 9 nm) as [f|] eqn:Hk.
  - destruct (fs_Open_ok fs c m d F b dir name nm type f Hs Hsl Hn Hk) as (t & -> & Ht & Hj). cbn [rbind openf index with_openf with_objects].
    rewrite Hx, aset_in by lia. cbn [rbind]. rewrite int_add_in by (unfold is_s32; lia). cbn [rbind]. eexists. split; [done |].
    split; [destruct Hs; by constructor |]. split; [cbn; lia |]. cbn. split; [by rewrite length_insert |]. split; [| done].
    intros j Hj'. rewrite list_lookup_insert_ne by lia. apply (Hj (2 + i)%nat); [lia | done].
  - rewrite (Open_missing fs c m d F b dir name nm type Hs Hsl Hn Hk). cbn [rbind].
    rewrite Hx, aset_in by lia. cbn [rbind]. rewrite int_add_in by (unfold is_s32; lia). cbn [rbind]. eexists. split; [done |].
    split; [destruct Hs; by constructor |]. split; [cbn; lia |]. cbn. split; [by rewrite length_insert |]. split; [| intros _; f_equal; lia].
    intros j Hj'. by rewrite list_lookup_insert_ne by lia.
Qed.

Lemma open_disk_spec fs c m d F b dir : fs_shows fs c m d F b dir → ∃ (f1 f2 : OpenFile), open_disk c = Ok (f1, f2, c) ∧
  ∀ t i os, fs_shows (mkFileSystem f1 f2 t i os) c m d F b dir.
Proof.
  intros Hs. pose proof (sh_volume _ _ _ _ _ _ _ Hs) as (Hc & Hst & _). unfold vol in Hst.
  apply Forall_cons in Hst as [Hm Hst]. apply Forall_cons in Hst as [Hd _].
  unfold open_disk, OpenFile_new. rewrite <- (sh_mapsec _ _ _ _ _ _ _ Hs), <- (sh_dirsec _ _ _ _ _ _ _ Hs).
  rewrite (fetch_header c m Hc Hm), (fetch_header c d Hc Hd). cbn [rbind]. eexists _, _. split; [done |].
  intros t i os. destruct Hs. by constructor.
Qed.

Lemma vol_empty m d : vol m d ∅ = [m; d].
Proof. unfold vol. by rewrite map_to_list_empty. Qed.

Lemma format_headers b : marks b NumSectors ({[DirectorySector]} ∪ ({[FreeMapSector]} ∪ ∅)) →
  ∃ mh b3 dh b4, Allocate FileHeader_new b FreeMapFileSize = Ok (true, mh, b3) ∧ Allocate FileHeader_new b3 DirectoryFileSize = Ok (true, dh, b4) ∧
    (header_ok mh ∧ header_ints mh ∧ numBytes mh = FreeMapFileSize) ∧ (header_ok dh ∧ header_ints dh ∧ numBytes dh = DirectoryFileSize) ∧
    NoDup (DirectorySector :: data_sectors dh ++ FreeMapSector :: data_sectors mh) ∧
    marks b4 NumSectors (list_to_set (DirectorySector :: data_sectors dh ++ FreeMapSector :: data_sectors mh)).
Proof.
  intros Hb. destruct new_header as [Hnl _].
  assert (size ({[DirectorySector]} ∪ ({[FreeMapSector]} ∪ ∅) : gset Z) = 2%nat) as Hsz by reflexivity.
  destruct (Allocate_fits FileHeader_new b _ FreeMapFileSize Hb Hnl) as (mh & b3 & -> & Hmh & Hmn & Hmd & Hb3 & k1 & Hk1);
    [done | by rewrite Hsz | done |].
  assert (length (data_sectors mh) = 1%nat) as Hml.
  { unfold data_sectors. rewrite length_take, (hok_length mh Hmh), (hok_count mh Hmh), Hmn. done. }
  rewrite Forall_forall in Hmd.
  assert (size (list_to_set (data_sectors mh) ∪ ({[DirectorySector]} ∪ ({[FreeMapSector]} ∪ ∅)) : gset Z) = 3%nat) as Hsz3.
  { rewrite size_union; [rewrite size_list_to_set by apply (hok_distinct mh Hmh); lia |]. intros x Hx. by apply Hmd, (elem_of_list_to_set (C := gset Z)). }
  destruct (Allocate_fits FileHeader_new b3 _ DirectoryFileSize Hb3 Hnl) as (dh & b4 & Hal & Hdh & Hdn & Hdd & Hb4 & k2 & Hk2);
    [done | by rewrite Hsz3 | done |].
  rewrite Forall_forall in Hdd. exists mh, b3, dh, b4. split; [done |]. split; [done |].
  split; [split; [done |]; split; [| done]; eapply header_small; [done | done | done | exact Hk1] |].
  split; [split; [done |]; split; [| done]; eapply header_small; [done | done | done | exact Hk2] |]. split.
  - constructor.
    + intros [Hin|[Hin|Hin]%elem_of_cons]%elem_of_app; [apply (Hdd _ Hin); set_solver | done | apply (Hmd _ Hin); set_solver].
    + apply NoDup_app. split; [apply (hok_distinct dh Hdh) |]. split.
      * intros x Hx [->|Hin]%elem_of_cons; apply (Hdd _ Hx); set_solver.
      * constructor; [| apply (hok_distinct mh Hmh)]. intros Hin. apply (Hmd _ Hin). set_solver.
  - eapply eq_ind; [exact Hb4 |]. cbn [list_to_set]. rewrite list_to_set_app_L. cbn [list_to_set]. set_solver.
Qed.

Lemma format_disk_spec c : disk_wf c → ∃ (f1 f2 : OpenFile) c' m d b dir, format_disk c = Ok (f1, f2, c') ∧
  ∀ t i os, fs_shows (mkFileSystem f1 f2 t i os) c' m d ∅ b dir.
Proof.
  intros Hc. unfold format_disk.
  destruct (PersistentBitmap_new_spec big_endian new_bytes NumSectors) as (b0 & -> & Hb0); [done |]. cbn [rbind].
  destruct (Directory_new_spec big_endian new_bytes new_bytes_length NumDirEntries) as (dir & -> & Hdt & Hdok); [done |]. cbn [rbind].
  destruct (marks_Mark _ _ _ FreeMapSector Hb0) as (b1 & -> & Hb1); [done |]. cbn [rbind].
  destruct (marks_Mark _ _ _ DirectorySector Hb1) as (b2 & -> & Hb2); [done |]. cbn [rbind].
  destruct (format_headers b2 Hb2) as (mh & b3 & dh & b4 & -> & Hal & (Hmh & Hmi & Hmn) & (Hdh & Hdi & Hdn) & Hnd & Hb4).
  cbn [rbind]. rewrite Hal. cbn [rbind]. assert (volume c []) as Hv0 by (split; [done |]; split; constructor).
  destruct (volume_add c [] mh FreeMapSector Hv0) as (c1 & bs1 & -> & Hv1 & Hl1); [done | done | done | |].
  { rewrite app_nil_r. by apply NoDup_cons in Hnd as [_ (_ & _ & ?)%NoDup_app]. }
  cbn [rbind]. set (m := mkFil FreeMapSector mh bs1) in *.
  destruct (volume_add c1 [m] dh DirectorySector Hv1) as (c2 & bs2 & -> & Hv2 & Hl2); [done | done | done | |].
  { unfold occupied. cbn [mbind list_bind]. by rewrite app_nil_r. }
  cbn [rbind]. set (d := mkFil DirectorySector dh bs2) in *. unfold OpenFile_new.
  pose proof Hv2 as (Hc2 & Hst & _). apply Forall_cons in Hst as [Hd Hst]. apply Forall_cons in Hst as [Hm _].
  rewrite (fetch_header c2 m Hc2 Hm : FetchFrom big_endian c2 FreeMapSector = _).
  rewrite (fetch_header c2 d Hc2 Hd : FetchFrom big_endian c2 DirectorySector = _). cbn [rbind].
  set (f1 := mkOpenFile (fhdr m) 0 _). set (f2 := mkOpenFile (fhdr d) 0 _). rewrite Permutation_swap in Hv2.
  assert (length (fbytes m) = 128%nat ∧ length (fbytes d) = 200%nat) as [Hlm Hld].
  { cbn. rewrite Hmn in Hl1. rewrite Hdn in Hl2. by split; apply (inj Z.of_nat). }
  destruct (commit_map f1 c2 m [d] b4 _ Hv2 eq_refl Hlm Hb4) as (c3 & -> & Hv3).
  cbn [rbind]. rewrite Permutation_swap in Hv3. set (m' := with_bytes m _) in *.
  destruct (commit_dir f2 c3 d [m'] dir ∅ Hv3 eq_refl Hld Hdok Hdt) as (c4 & -> & Hv4).
  cbn [rbind]. rewrite Permutation_swap in Hv4. set (d' := with_bytes d _) in *.
  exists f1, f2, c4, m', d', b4, dir. split; [done |]. intros t i os. constructor; try done; rewrite vol_empty.
  fold (marked [m'; d']). rewrite !marked_cons. eapply eq_ind; [exact Hb4 |]. cbn [list_to_set]. rewrite list_to_set_app_L. cbn. set_solver.
Qed.

(** ** What a user of the file system sees

    A finite map from names, cut to nine characters, to byte arrays. *)

(** A call of [Create], which answers [r]. *)
Definition made (M : gmap (list Z) (list Z)) (k : list Z) (n : Z) (r : bool) (M' : gmap (list Z) (list Z)) : Prop :=
  if decide (can_create M k n) then r = true ∧ ∃ bs, Z.of_nat (length bs) = n ∧ M' = <[k := bs]> M else r = false ∧ M' = M.

(** The constructor makes its two files when they are not there. *)
Definition booted (M M' : gmap (list Z) (list Z)) : Prop :=
  ∃ r1 M1 r2, made M (key stdin_name) 0 r1 M1 ∧ made M1 (key stdout_name) 0 r2 M'.

(** [FUse]: open the file, make calls on it, close it; [FBoot]: start again with
    what is on the disk. *)
Inductive fcall := FCreate name (n : Z) | FRemove name | FUse name (type : Z) (xs : list ncall) | FBoot.

Definition answer : Type := Z * list (Z * list Z).

Definition fstep (M : gmap (list Z) (list Z)) (x : fcall) (r : answer) (M' : gmap (list Z) (list Z)) : Prop :=
  match x with
  | FCreate name n => ∃ b, r = (Z.b2z b, []) ∧ made M (key name) n b M'
  | FRemove name => r = (Z.b2z (bool_decide (is_Some (M !! key name))), []) ∧ M' = delete (key name) M
  | FUse name type xs =>
      match M !! key name with
      | None => r = (-1, []) ∧ M' = M
      | Some bs => r = (0, (spec_ncalls (bs, 0) xs).1) ∧ M' = <[key name := (spec_ncalls (bs, 0) xs).2.1]> M
      end
  | FBoot => r = (0, []) ∧ booted M M'
  end.

Inductive fsteps : gmap (list Z) (list Z) → list fcall → list answer → gmap (list Z) (list Z) → Prop :=
  | fsteps_nil M : fsteps M [] [] M
  | fsteps_cons M x r M1 xs rs M2 : fstep M x r M1 → fsteps M1 xs rs M2 → fsteps M (x :: xs) (r :: rs) M2.

(** A user closes a file by making its slot [NULL] again. *)
Definition use_file fs c name (type : Z) (xs : list ncall) : result (answer * (FileSystem * sectors_t)) :=
  '(p, fs1) ← Open fs c name type;
  match p with
  | None => Ok ((-1, []), (fs1, c))
  | Some p =>
      o ← object fs1 p;
      '(rs, (o, c)) ← ncalls_run new_bytes (o, c) xs;
      Ok ((0, rs), (with_openf (with_objects fs1 (<[p := Some o]> (objects fs1))) (openf fs), c))
  end.

Definition fcall_run (s : FileSystem * sectors_t) (x : fcall) : result (answer * (FileSystem * sectors_t)) :=
  let '(fs, c) := s in
  match x with
  | FCreate name n => '(b, c) ← Create fs c name n; Ok ((Z.b2z b, []), (fs, c))
  | FRemove name => '(b, c) ← Remove fs c name; Ok ((Z.b2z b, []), (fs, c))
  | FUse name type xs => use_file fs c name type xs
  | FBoot => s ← FileSystem_new false c; Ok ((0, []), s)
  end.

Fixpoint fcalls_run (s : FileSystem * sectors_t) (xs : list fcall) : result (list answer * (FileSystem * sectors_t)) :=
  match xs with
  | [] => Ok ([], s)
  | x :: xs => '(r, s) ← fcall_run s x; '(rs, s) ← fcalls_run s xs; Ok (r :: rs, s)
  end.

(** Names are C strings; a file fits one header. *)
Definition fcall_ok (x : fcall) : Prop :=
  match x with
  | FCreate name n => (∃ nm, c_string name nm) ∧ 0 <= n <= MaxFileSize
  | FRemove name => ∃ nm, c_string name nm
  | FUse name _ xs => (∃ nm, c_string name nm) ∧ Forall ncall_ok xs
  | FBoot => True
  end.

(** The disk of [s] holds the files [M]. *)
Definition holds (s : FileSystem * sectors_t) (M : gmap (list Z) (list Z)) : Prop :=
  slots_ok s.1 ∧ ∃ m d F b dir, fs_shows s.1 s.2 m d F b dir ∧ contents F = M.

Lemma fits_header n : 0 <= n <= MaxFileSize → divRoundUp n SectorSize <= NumDirect.
Proof.
  unfold MaxFileSize. change NumDirect with 62. rewrite SectorSize_eq. intros Hn. destruct (divRoundUp_spec n 256) as [|[]]; lia.
Qed.

Lemma key_c_string name nm : c_string name nm → key name = take 9 nm.
Proof. intros Hn. by destruct (c_string_readable 9 name nm Hn). Qed.

Lemma Create_made fs c m d F b dir name n : fs_shows fs c m d F b dir → (∃ nm, c_string name nm) → 0 <= n <= MaxFileSize →
  ∃ r c' m' d' F' b' dir', Create fs c name n = Ok (r, c') ∧ fs_shows fs c' m' d' F' b' dir' ∧ made (contents F) (key name) n r (contents F').
Proof.
  intros Hs [nm Hn] Hr. pose proof (fits_header n Hr) as Hd. rewrite (key_c_string name nm Hn). unfold made.
  destruct (decide (can_create (contents F) (take 9 nm) n)) as [Hc|Hc].
  - destruct (fs_Create_ok fs c m d F b dir name nm n Hs Hn Hc) as (c' & m' & d' & f & b' & dir' & H1 & H2 & Hl); [lia | done |].
    exists true, c', m', d', (<[take 9 nm := f]> F), b', dir'. split; [done |]. split; [done |]. split; [done |].
    exists (fbytes f). split; [done |]. apply fmap_insert.
  - exists false, c, m, d, F, b, dir. split; [eapply Create_refused; [exact Hs | exact Hn | exact Hc | lia | done] |]. done.
Qed.

Lemma boot_files fs c m d F b dir : fs_shows fs c m d F b dir →
  ∃ c' m' d' F' b' dir', ('(_, c) ← Create fs c stdin_name 0; '(_, c) ← Create fs c stdout_name 0; Ok (fs, c)) = Ok (fs, c') ∧
    fs_shows fs c' m' d' F' b' dir' ∧ booted (contents F) (contents F').
Proof.
  intros Hs.
  destruct (Create_made fs c m d F b dir stdin_name 0 Hs) as (r1 & c1 & m1 & d1 & F1 & b1 & dir1 & -> & Hs1 & Hm1); [by apply (c_string_of [115; 116; 100; 105; 110]) | done |].
  cbn [rbind].
  destruct (Create_made fs c1 m1 d1 F1 b1 dir1 stdout_name 0 Hs1) as (r2 & c2 & m2 & d2 & F2 & b2 & dir2 & -> & Hs2 & Hm2);
    [by apply (c_string_of [115; 116; 100; 111; 117; 116]) | done |].
  cbn [rbind]. exists c2, m2, d2, F2, b2, dir2. split; [done |]. split; [done |]. by exists r1, (contents F1), r2.
Qed.

(** The constructor, from the two open files on. *)
Lemma start_spec (f1 f2 : OpenFile) c m d F b dir : (∀ t i os, fs_shows (mkFileSystem f1 f2 t i os) c m d F b dir) →
  ∃ fs' c', (fs ← open_next (mkFileSystem f1 f2 (replicate 10 None) 0 []) c stdin_name 2;
    fs ← open_next fs c stdout_name 3;
    '(_, c) ← Create fs c stdin_name 0;
    '(_, c) ← Create fs c stdout_name 0;
    Ok (fs, c)) = Ok (fs', c') ∧ slots_ok fs' ∧ index fs' = 2 ∧ (F = ∅ → openf fs' = replicate 10 None) ∧
    ∃ m' d' F' b' dir', fs_shows fs' c' m' d' F' b' dir' ∧ booted (contents F) (contents F').
Proof.
  intros Hs. set (fs0 := mkFileSystem f1 f2 (replicate 10 None) 0 []).
  destruct (c_string_of [115; 116; 100; 105; 110] eq_refl) as [nm1 Hn1]. destruct (c_string_of [115; 116; 100; 111; 117; 116] eq_refl) as [nm2 Hn2].
  destruct (open_next_ok fs0 c m d F b dir stdin_name nm1 2 0 (Hs _ _ _)) as (fs1 & -> & Hs1 & Hi1 & Hl1 & Hj1 & He1); [done | done | lia | done | done |].
  cbn [rbind].
  destruct (open_next_ok fs1 c m d F b dir stdout_name nm2 3 1 Hs1) as (fs2 & -> & Hs2 & Hi2 & Hl2 & Hj2 & He2); [| done | lia | done | |].
  { split; [done |]. by rewrite Hj1 by lia. }
  { by rewrite Hj1 by lia. }
  cbn [rbind]. destruct (boot_files fs2 c m d F b dir Hs2) as (c' & m' & d' & F' & b' & dir' & -> & Hs' & Hb).
  exists fs2, c'. split; [done |]. split; [split; [done |]; by rewrite Hj2, Hj1 by lia |]. split; [done |]. split.
  - intros ->. rewrite He2, He1 by done. done.
  - by exists m', d', F', b', dir'.
Qed.

Lemma FileSystem_new_format c : disk_wf c → ∃ fs c' M, FileSystem_new true c = Ok (fs, c') ∧ holds (fs, c') M ∧ booted ∅ M ∧
  openf fs = replicate 10 None ∧ index fs = 2.
Proof.
  intros Hc. unfold FileSystem_new. destruct (format_disk_spec c Hc) as (f1 & f2 & c1 & m & d & b & dir & -> & Hs). cbn [rbind].
  destruct (start_spec f1 f2 c1 m d ∅ b dir Hs) as (fs' & c' & -> & Hsl & Hi & He & m' & d' & F' & b' & dir' & Hs' & Hb).
  exists fs', c', (contents F'). split; [done |]. split; [split; [done |]; by exists m', d', F', b', dir' |].
  split; [| split; [by apply He | done]]. unfold contents at 1 in Hb. by rewrite fmap_empty in Hb.
Qed.

Lemma FileSystem_new_boot fs c M : holds (fs, c) M → ∃ fs' c' M', FileSystem_new false c = Ok (fs', c') ∧ holds (fs', c') M' ∧ booted M M'.
Proof.
  intros (_ & m & d & F & b & dir & Hs & <-). cbn [fst snd] in Hs. unfold FileSystem_new.
  destruct (open_disk_spec fs c m d F b dir Hs) as (f1 & f2 & -> & Hs1). cbn [rbind].
  destruct (start_spec f1 f2 c m d F b dir Hs1) as (fs' & c' & -> & Hsl & Hi & He & m' & d' & F' & b' & dir' & Hs' & Hb).
  exists fs', c', (contents F'). split; [done |]. split; [split; [done |]; by exists m', d', F', b', dir' | done].
Qed.

(** Calls on an open file change its bytes, and nothing else. *)
Lemma use_volume fs c c' m d F b dir k f bs : fs_shows fs c m d F b dir → F !! k = Some f → disk_wf c' →
  elsewhere (fhdr f) c c' → shows c' (fhdr f) bs → fs_shows fs c' m d (<[k := with_bytes f bs]> F) b dir.
Proof.
  intros Hs Hk Hc' He Hb. pose proof (vol_lookup m d F k f Hk) as Hp.
  assert (vol m d (<[k := with_bytes f bs]> F) ≡ₚ with_bytes f bs :: vol m d (delete k F)) as Hp'.
  { rewrite <- insert_delete_eq. apply vol_insert, lookup_delete_eq. }
  destruct Hs. constructor; try done.
  - rewrite Hp'. rewrite Hp in sh_volume0. by eapply volume_write.
  - fold (marked (vol m d (<[k := with_bytes f bs]> F))). fold (marked (vol m d F)) in sh_marks0.
    rewrite (marked_perm _ _ Hp'), marked_cons. rewrite (marked_perm _ _ Hp), marked_cons in sh_marks0. done.
  - rewrite fmap_insert. cbn [with_bytes fsec]. rewrite insert_id; [done |]. by rewrite lookup_fmap, Hk.
Qed.

Lemma use_spec fs c M name type xs : holds (fs, c) M → fcall_ok (FUse name type xs) →
  ∃ r s' M', use_file fs c name type xs = Ok (r, s') ∧ holds s' M' ∧ fstep M (FUse name type xs) r M'.
Proof.
  intros (Hsl & m & d & F & b & dir & Hs & <-) ([nm Hn] & Hx). cbn [fst snd] in Hs, Hsl. unfold fstep, use_file.
  rewrite (key_c_string name nm Hn : key name = _), contents_lookup. destruct (F !! take 9 nm) as [f|] eqn:Hk; cbn [fmap option_fmap option_map].
  - destruct (fs_Open_ok fs c m d F b dir name nm type f Hs Hsl Hn Hk) as (t & -> & Ht & _). unfold object. cbn [rbind objects with_openf with_objects].
    rewrite lookup_app_r, Nat.sub_diag by done. cbn [lookup list_lookup rbind].
    destruct (find_sector _ _ _ _ _ _ _ _ nm name Hs Hn eq_refl) as [_ Hf]. destruct (Hf f Hk) as [Hst _].
    pose proof (sh_volume _ _ _ _ _ _ _ Hs) as (Hc & _).
    destruct (ncalls_spec new_bytes new_bytes_length (mkOpenFile (fhdr f) 0 type) c (fbytes f, 0) xs) as (o' & c' & -> & Ho' & Hh' & Ht' & He).
    { split; [done |]. split; [apply Hst |]. split; [apply Hst |]. by split. }
    { done. }
    cbn [rbind]. destruct Ho' as (Hc' & _ & Hb' & _). rewrite Hh' in Hb'. cbn [hdr] in *.
    set (bs := (spec_ncalls (fbytes f, 0) xs).2.1) in *.
    eexists _, _, _. split; [done |]. split; [| by split]. split; [by split; destruct Hsl |].
    exists m, d, (<[take 9 nm := with_bytes f bs]> F), b, dir. split; [| unfold contents; by rewrite fmap_insert].
    cbn [fst snd]. pose proof (use_volume fs c c' m d F b dir _ f bs Hs Hk Hc' He Hb') as Hu. destruct Hu. by constructor.
  - rewrite (Open_missing fs c m d F b dir name nm type Hs Hsl Hn Hk). cbn [rbind]. eexists _, _, _. split; [done |].
    split; [| by split]. split; [done |]. by exists m, d, F, b, dir.
Qed.

Lemma remove_step fs c M name : holds (fs, c) M → fcall_ok (FRemove name) →
  ∃ r s' M', fcall_run (fs, c) (FRemove name) = Ok (r, s') ∧ holds s' M' ∧ fstep M (FRemove name) r M'.
Proof.
  intros (Hsl & m & d & F & b & dir & Hs & <-) [nm Hn]. cbn [fst snd] in *. cbn [fcall_run fstep].
  rewrite (key_c_string name nm Hn : key name = _), contents_lookup. destruct (F !! take 9 nm) as [f|] eqn:Hk.
  - destruct (Remove_ok fs c m d F b dir name nm f Hs Hn Hk) as (c' & m' & d' & b' & dir' & -> & Hs'). cbn [rbind].
    eexists _, _, _. split; [done |]. split; [| split; [done | done]]. split; [done |].
    exists m', d', (delete (take 9 nm) F), b', dir'. split; [done |]. apply fmap_delete.
  - rewrite (Remove_missing fs c m d F b dir name nm Hs Hn Hk). cbn [rbind]. eexists _, _, _. split; [done |]. split; [by split; [done |]; exists m, d, F, b, dir |].
    split; [done |]. symmetry. apply delete_id. by rewrite contents_lookup, Hk.
Qed.

Lemma fcall_spec s M x : holds s M → fcall_ok x → ∃ r s' M', fcall_run s x = Ok (r, s') ∧ holds s' M' ∧ fstep M x r M'.
Proof.
  destruct s as [fs c]. intros Hh Hx. destruct x as [name n|name|name type xs|].
  - destruct Hh as (Hsl & m & d & F & b & dir & Hs & <-), Hx as [Hn Hr]. cbn [fst snd fcall_run] in *.
    destruct (Create_made fs c m d F b dir name n Hs Hn Hr) as (r & c' & m' & d' & F' & b' & dir' & -> & Hs' & Hm). cbn [rbind].
    exists (Z.b2z r, []), (fs, c'), (contents F'). split; [done |]. split; [split; [done |]; by exists m', d', F', b', dir' |]. by exists r.
  - by apply remove_step.
  - by apply use_spec.
  - destruct (FileSystem_new_boot fs c M Hh) as (fs' & c' & M' & He & Hh' & Hb). cbn [fcall_run]. rewrite He. cbn [rbind].
    exists (0, []), (fs', c'), M'. by split.
Qed.

Lemma booted_fresh M : booted ∅ M → M = <[key stdout_name := []]> (<[key stdin_name := []]> ∅).
Proof.
  assert (∀ M k r M', can_create M k 0 → made M k 0 r M' → M' = <[k := []]> M) as Hmade.
  { intros M1 k r M' Hc. unfold made. rewrite decide_True by done. intros (_ & bs & Hl & ->). destruct bs; [done | cbn in Hl; lia]. }
  intros (r1 & M1 & r2 & H1 & H2). apply Hmade in H1; [| by apply (bool_decide_eq_true_1 _); vm_compute]. subst M1.
  apply Hmade in H2; [done | by apply (bool_decide_eq_true_1 _); vm_compute].
Qed.

Lemma fcalls_spec M s xs : holds s M → Forall fcall_ok xs → ∃ rs s' M', fcalls_run s xs = Ok (rs, s') ∧ holds s' M' ∧ fsteps M xs rs M'.
Proof.
  intros Hh Hx. revert M s Hh. induction Hx as [|x xs Hx _ IH]; intros M s Hh.
  - exists [], s, M. split; [done |]. split; [done | constructor].
  - destruct (fcall_spec s M x Hh Hx) as (r & s1 & M1 & H1 & Hh1 & Hst). destruct (IH M1 s1 Hh1) as (rs & s2 & M2 & H2 & Hh2 & Hst2).
    exists (r :: rs), s2, M2. cbn [fcalls_run]. rewrite H1. cbn [rbind]. rewrite H2. cbn [rbind].
    split; [done |]. split; [done |]. by econstructor.
Qed.

(** C12: the Nachos file system is a finite map from names of nine characters
    to byte arrays.  Formatting any disk gives the map with stdin and stdout,
    empty.  Then any sequence of [Create], [Remove], reads and writes
    through opened files, and restarts of the system from the disk, returns, and
    gives the answers of that map: [Create] succeeds exactly when the name is
    new, the map has less than ten names, and one sector and those for the data
    are free; the bytes of a new file are arbitrary, and after that they are
    what was last written; free sectors are counted from the map alone, so that
    none is lost or used twice. *)
Theorem FileSystem_refines_map c xs (Hc : disk_wf c) (Hx : Forall fcall_ok xs) :
  ∃ fs c' rs s M, FileSystem_new true c = Ok (fs, c') ∧ fcalls_run (fs, c') xs = Ok (rs, s) ∧ holds s M ∧
    fsteps (<[key stdout_name := []]> (<[key stdin_name := []]> ∅)) xs rs M.
Proof.
  destruct (FileSystem_new_format c Hc) as (fs & c' & M0 & Hn & Hh & Hb & _). apply booted_fresh in Hb. subst M0.
  destruct (fcalls_spec _ (fs, c') xs Hh Hx) as (rs & s & M & Hr & Hh' & Hst). exists fs, c', rs, s, M.
  split; [exact Hn |]. split; [exact Hr |]. split; [exact Hh' | exact Hst].
Qed.
End filesys.

(** ** A small volume *)

Definition demo_fcalls : list fcall :=
  [FCreate [97; 0] 300; FUse [97; 0] 0 [NWrite [1; 2; 3] 3; NWriteAt [9; 9] 2 255]; FCreate [97; 0] 5; FRemove stdin_name;
   FBoot; FUse [97; 0] 1 [NRead 4; NReadAt 4 254]; FRemove [98; 0]; FCreate [99; 0] 15872].

Definition demo_answers : list answer :=
  [(1, []); (0, [(3, []); (2, [])]); (0, []); (1, []); (0, []); (0, [(4, [1; 2; 3; 0]); (4, [0; 9; 9; 0])]); (0, []); (1, [])].

Lemma demo_fcalls_ok : Forall fcall_ok demo_fcalls.
Proof.
  assert (∀ x, forallb (λ x, negb (x =? 0)) [x] = true → ∃ nm, c_string [x; 0] nm) as Hc by (intros x Hx; by apply (c_string_of [x])).
  assert (0 <= 300 <= MaxFileSize ∧ 0 <= 5 <= MaxFileSize ∧ 0 <= 15872 <= MaxFileSize) as (H1 & H2 & H3) by (unfold MaxFileSize; by vm_compute).
  apply Forall_cons. split; [by split; [apply Hc |] |].
  apply Forall_cons. split; [split; [by apply Hc | repeat constructor; cbn; lia] |].
  apply Forall_cons. split; [by split; [apply Hc |] |].
  apply Forall_cons. split; [by apply (c_string_of [115; 116; 100; 105; 110]) |].
  apply Forall_cons. split; [done |].
  apply Forall_cons. split; [split; [by apply Hc | repeat constructor; cbn; lia] |].
  apply Forall_cons. split; [by apply Hc |]. apply Forall_singleton. by split; [apply Hc |].
Qed.

Lemma demo_fcalls_run : (s ← FileSystem_new false some_bytes true demo_sectors; '(rs, _) ← fcalls_run false some_bytes s demo_fcalls; Ok rs) = Ok demo_answers.
Proof. by vm_compute. Qed.

Lemma some_bytes_length n : 0 <= n → Z.of_nat (length (some_bytes n)) = n.
Proof. intros Hn. unfold some_bytes. rewrite length_replicate. lia. Qed.

Lemma FileSystem_refines_map_witness : ∃ fs c' s M, FileSystem_new false some_bytes true demo_sectors = Ok (fs, c') ∧
  fcalls_run false some_bytes (fs, c') demo_fcalls = Ok (demo_answers, s) ∧
  fsteps (<[key stdout_name := []]> (<[key stdin_name := []]> ∅)) demo_fcalls demo_answers M.
Proof.
  destruct (FileSystem_refines_map false some_bytes some_bytes_length demo_sectors demo_fcalls demo_sectors_wf demo_fcalls_ok)
    as (fs & c' & rs & s & M & Hn & Hr & _ & Hst).
  pose proof demo_fcalls_run as He. rewrite Hn in He. cbn [rbind] in He. rewrite Hr in He. cbn [rbind] in He. injection He as ->.
  exists fs, c', s, M. split; [exact Hn |]. split; [exact Hr | exact Hst].
Defined.
