(* ===== verification/DiskFile.v ===== *)
(** * The file behind the disk (machine/disk.cc)

    The simulated disk keeps its sectors in a file of the host, behind a magic
    number.  [Disk] and the file system above it use the list of the sectors;
    [disk_file_refines_sectors] shows that the file is as good as this list,
    also when the disk is taken down and set up again. *)

From S2P Require Import Prelude Machine Mips Lists Interrupt Threads Sched Waiters Wakeups Locks Synch Ksyscall Console Disk NachosFile HostFile.
Local Open Scope Z_scope.

Definition MagicNumber : Z := 0x456789ab.
Definition MagicSize : Z := 4.
Definition DiskSize : Z := MagicSize + NumSectors * SectorSize.

Section disk_file.
Variable big_endian : bool.

(** The file's part of [Disk::Disk]; [diskname] is ["DISK_"] and the number of
    the machine.  The result is [fileno]. *)
Definition Disk_new (h : Host) (diskname : list Z) : result (Z * Host) :=
  '(fileno, h) ← OpenForReadWrite h diskname false;
  if 0 <=? fileno then
    '(magicNum, h) ← Read h fileno MagicSize;
    ASSERT (s32 (host_word big_endian magicNum) =? MagicNumber);;
    Ok (fileno, h)
  else
    '(fileno, h) ← OpenForWrite h diskname;
    h ← WriteFile h fileno (host_bytes big_endian 4 MagicNumber);
    h ← Lseek h fileno (DiskSize - 4) 0;
    h ← WriteFile h fileno (host_bytes big_endian 4 0);
    Ok (fileno, h).

Definition Disk_delete (h : Host) (fileno : Z) : result Host := Close h fileno.

(** The transfer of [Disk::ReadRequest] and [Disk::WriteRequest]. *)
Definition file_ReadSector (h : Host) (fileno n : Z) : result (list Z * Host) :=
  ASSERT (sector_ok n);;
  h ← Lseek h fileno (SectorSize * n + MagicSize) 0;
  Read h fileno SectorSize.

Definition file_WriteSector (h : Host) (fileno n : Z) (data : list Z) : result Host :=
  ASSERT (sector_ok n);;
  h ← Lseek h fileno (SectorSize * n + MagicSize) 0;
  WriteFile h fileno (take (Z.to_nat SectorSize) data).

(** ** Sequences of requests and restarts *)

Inductive disk_op := DRead (n : Z) | DWrite (n : Z) (data : list Z) | DRestart.

Definition file_op (diskname : list Z) (st : Host * Z) (op : disk_op) : result (list Z * (Host * Z)) :=
  let '(h, fileno) := st in
  match op with
  | DRead n => '(data, h) ← file_ReadSector h fileno n; Ok (data, (h, fileno))
  | DWrite n data => h ← file_WriteSector h fileno n data; Ok ([], (h, fileno))
  | DRestart => h ← Disk_delete h fileno; '(fileno, h) ← Disk_new h diskname; Ok ([], (h, fileno))
  end.

Definition sectors_op (cs : sectors_t) (op : disk_op) : result (list Z * sectors_t) :=
  match op with
  | DRead n => data ← ReadSector cs n; Ok (data, cs)
  | DWrite n data => cs ← WriteSector cs n data; Ok ([], cs)
  | DRestart => Ok ([], cs)
  end.

Fixpoint run_ops {S} (step : S → disk_op → result (list Z * S)) (s : S) (ops : list disk_op) : result (list (list Z)) :=
  match ops with
  | [] => Ok []
  | op :: ops => '(r, s) ← step s op; rs ← run_ops step s ops; Ok (r :: rs)
  end.

Definition op_ok (op : disk_op) : Prop := match op with DWrite _ data => Z.of_nat (length data) = SectorSize | _ => True end.

Definition blank : sectors_t := replicate (Z.to_nat NumSectors) (replicate (Z.to_nat SectorSize) 0).

(** ** The file and the list *)

Definition disk_contents (cs : sectors_t) : list Z := host_bytes big_endian 4 MagicNumber ++ mjoin cs.

Definition whole (cs : sectors_t) : Prop := Z.of_nat (length cs) = NumSectors ∧ Forall (λ x : list Z, Z.of_nat (length x) = SectorSize) cs.

(** [fd] is open on the file of a disk with the sectors [cs]. *)
Definition disk_is (h : Host) (diskname : list Z) (fd : Z) (cs : sectors_t) : Prop :=
  whole cs ∧ host_ok h ∧ ∃ ino p, names h !! diskname = Some ino ∧ fds h !! fd = Some (ino, p) ∧
    inodes h !! ino = Some (disk_contents cs).

Lemma magic_length : length (host_bytes big_endian 4 MagicNumber) = 4%nat.
Proof. unfold host_bytes. destruct big_endian; reflexivity. Qed.

Lemma mjoin_length cs : Forall (λ x : list Z, Z.of_nat (length x) = SectorSize) cs → Z.of_nat (length (mjoin cs)) = SectorSize * Z.of_nat (length cs).
Proof.
  induction 1 as [|x cs Hx _ IH]; [done |]. change (mjoin (x :: cs)) with (x ++ mjoin cs). rewrite length_app. cbn [length].
  rewrite Nat2Z.inj_add, IH, Hx. lia.
Qed.

(** Sector [n] and what lies before and behind it. *)
Lemma split_sector cs n : whole cs → 0 <= n < NumSectors → ∃ l1 x l2, cs = l1 ++ x :: l2 ∧ cs !! Z.to_nat n = Some x ∧
  Z.to_nat n = length l1 ∧ disk_contents cs = (host_bytes big_endian 4 MagicNumber ++ mjoin l1) ++ x ++ mjoin l2 ∧
  Z.of_nat (length (host_bytes big_endian 4 MagicNumber ++ mjoin l1)) = SectorSize * n + MagicSize ∧
  Z.of_nat (length x) = SectorSize.
Proof.
  intros [Hl Hf] Hn. destruct (lookup_lt_is_Some_2 cs (Z.to_nat n)) as [x Hx]; [lia |].
  pose proof Hx as (l1 & l2 & -> & Hn1)%list_elem_of_split_length. exists l1, x, l2. apply Forall_app in Hf as [H1 H2].
  apply Forall_cons in H2 as [Hx' _]. split; [done |]. split; [done |]. split; [done |]. split; [|].
  - unfold disk_contents. rewrite join_app. change (mjoin (x :: l2)) with (x ++ mjoin l2). by rewrite app_assoc.
  - rewrite length_app, magic_length, Nat2Z.inj_add, mjoin_length by done. split; [unfold MagicSize; lia | done].
Qed.

Lemma whole_insert cs n data : whole cs → Z.of_nat (length data) = SectorSize → whole (<[n := data]> cs).
Proof. intros [Hl Hf] Hd. split; [by rewrite length_insert | by apply Forall_insert]. Qed.

Lemma read_magic : s32 (host_word big_endian (host_bytes big_endian 4 MagicNumber)) = MagicNumber.
Proof. destruct big_endian; reflexivity. Qed.

Lemma host_ok_fds h fd ino p : host_ok h → 0 <= fd → 0 <= p → is_Some (inodes h !! ino) → host_ok (with_fds h (<[fd := (ino, p)]> (fds h))).
Proof. intros (H1 & H2 & H3) Hfd Hp Hi. split; [| done]. by apply map_Forall_insert_2. Qed.

Lemma host_ok_inode h ino c : host_ok h → is_Some (inodes h !! ino) → host_ok (with_inode h ino c).
Proof.
  intros (H1 & H2 & H3) Hi. assert (∀ i, is_Some (inodes h !! i) → is_Some (<[ino := c]> (inodes h) !! i)) as Hs.
  { intros i [x Hx]. destruct (decide (i = ino)) as [->|]; [by rewrite lookup_insert_eq | rewrite lookup_insert_ne by done; by exists x]. }
  split; [| split]; cbn.
  - intros fd e He. destruct (H1 fd e He) as (? & ? & ?). by auto.
  - intros nm i He. apply Hs. by apply (H2 nm).
  - intros i x Hx. destruct Hi as [y Hy]. destruct (decide (i = ino)) as [->|]; [by apply (H3 _ _ Hy) |].
    rewrite lookup_insert_ne in Hx by done. by apply (H3 _ _ Hx).
Qed.

Lemma ReadSector_file h name fd cs n : disk_is h name fd cs →
  match ReadSector cs n with
  | Ok data => ∃ h', file_ReadSector h fd n = Ok (data, h') ∧ disk_is h' name fd cs
  | Fail e => file_ReadSector h fd n = Fail e
  end.
Proof.
  intros (Hw & Hok & ino & p & Hn & Hfd & Hi). unfold file_ReadSector, ReadSector. destruct (sector_ok n) eqn:Hs; [| done]. cbn [rbind].
  unfold sector_ok in Hs. apply andb_prop in Hs as [H1%Z.leb_le H2%Z.ltb_lt].
  destruct (split_sector cs n Hw (conj H1 H2)) as (l1 & x & l2 & Hcs & Hx & Hl & Hc & Hl1 & Hlx).
  assert (aget cs n = Ok x) as -> by by apply aget_Ok.
  pose proof (proj1 Hok _ _ Hfd) as (Hfd0 & _ & _).
  unfold Lseek, host_fd. rewrite Hfd, Hi. cbn [rbind Z.eqb].
  assert (0 <= SectorSize * n + MagicSize < 2 ^ 31) as Hr by (unfold SectorSize, MagicSize, NumSectors, SectorsPerTrack, NumTracks in *; lia).
  rewrite s32_id by (unfold is_s32; lia). destruct (Z.leb_spec 0 (SectorSize * n + MagicSize)); [| lia]. cbn [rbind].
  unfold Read, ReadPartial, host_fd. cbn [fds with_fds inodes]. rewrite lookup_insert_eq, Hi. cbn [rbind]. change (SectorSize <? 0) with false. cbn [rbind].
  assert (bytes_at (disk_contents cs) (SectorSize * n + MagicSize) SectorSize = x) as ->.
  { rewrite Hc. unfold bytes_at. rewrite drop_app_length' by lia. apply take_app_length'. lia. }
  rewrite Hlx, Z.eqb_refl. cbn [rbind]. eexists. split; [done |]. split; [done |]. split.
  - apply host_ok_fds; [apply host_ok_fds |..]; cbn; first [done | by rewrite Hi | unfold SectorSize in *; lia].
  - exists ino, (SectorSize * n + MagicSize + SectorSize). cbn. by rewrite lookup_insert_eq.
Qed.

Lemma WriteSector_file h name fd cs n data : disk_is h name fd cs → Z.of_nat (length data) = SectorSize →
  match WriteSector cs n data with
  | Ok cs' => ∃ h', file_WriteSector h fd n data = Ok h' ∧ disk_is h' name fd cs'
  | Fail e => file_WriteSector h fd n data = Fail e
  end.
Proof.
  intros (Hw & Hok & ino & p & Hn & Hfd & Hi) Hd. unfold file_WriteSector, WriteSector. destruct (sector_ok n) eqn:Hs; [| done]. cbn [rbind].
  unfold sector_ok in Hs. apply andb_prop in Hs as [H1%Z.leb_le H2%Z.ltb_lt].
  destruct (split_sector cs n Hw (conj H1 H2)) as (l1 & x & l2 & Hcs & Hx & Hl & Hc & Hl1 & Hlx).
  rewrite aset_in by (pose proof (proj1 Hw); lia).
  pose proof (proj1 Hok _ _ Hfd) as (Hfd0 & _ & _).
  unfold Lseek, host_fd. rewrite Hfd, Hi. cbn [rbind Z.eqb].
  assert (0 <= SectorSize * n + MagicSize < 2 ^ 31) as Hr by (unfold SectorSize, MagicSize, NumSectors, SectorsPerTrack, NumTracks in *; lia).
  rewrite s32_id by (unfold is_s32; lia). destruct (Z.leb_spec 0 (SectorSize * n + MagicSize)); [| lia]. cbn [rbind].
  unfold WriteFile, host_fd. cbn [fds with_fds inodes]. rewrite lookup_insert_eq, Hi. cbn [rbind]. rewrite take_ge by lia.
  eexists. split; [done |]. split; [by apply whole_insert |]. split.
  - apply host_ok_inode; [apply host_ok_fds; [apply host_ok_fds |..] |]; cbn; first [done | by rewrite Hi | unfold SectorSize in *; lia].
  - exists ino, (SectorSize * n + MagicSize + Z.of_nat (length data)). cbn. rewrite !lookup_insert_eq. split; [done |]. split; [done |]. f_equal.
    rewrite Hc, Hcs, Hl. rewrite insert_app_r_alt, Nat.sub_diag by done. change (<[0%nat:=data]> (x :: l2)) with (data :: l2). unfold disk_contents.
    rewrite join_app. change (mjoin (data :: l2)) with (data ++ mjoin l2). unfold overwrite.
    rewrite decide_False by (intros ->; unfold SectorSize in *; cbn in Hd; lia).
    set (pre := host_bytes big_endian 4 MagicNumber ++ mjoin l1) in *. rewrite (app_assoc _ (mjoin l1)). fold pre.
    rewrite take_app_length' by lia. f_equal.
    replace (Z.to_nat (SectorSize * n + MagicSize) - length (pre ++ x ++ mjoin l2))%nat with 0%nat by (rewrite !length_app; lia).
    cbn [replicate app]. f_equal. rewrite (app_assoc pre). apply drop_app_length'. rewrite length_app. lia.
Qed.

(** Setting the disk up: the file of a disk is taken as it is, a missing one is
    made with zeros. *)
Lemma Disk_new_old h name ino cs : host_ok h → names h !! name = Some ino → inodes h !! ino = Some (disk_contents cs) → whole cs →
  ∃ fd h', Disk_new h name = Ok (fd, h') ∧ disk_is h' name fd cs.
Proof.
  intros Hok Hn Hi Hw. unfold Disk_new, OpenForReadWrite, host_open. rewrite Hn. cbn [negb orb rbind].
  destruct (lowest_fd_spec (fds h)) as [_ Hfd]. set (fd := lowest_fd (fds h)) in *. destruct (Z.leb_spec 0 fd); [| lia].
  unfold Read, ReadPartial, host_fd. cbn [fds with_fds inodes]. rewrite lookup_insert_eq, Hi. cbn [rbind]. change (MagicSize <? 0) with false. cbn [rbind].
  assert (bytes_at (disk_contents cs) 0 MagicSize = host_bytes big_endian 4 MagicNumber) as ->.
  { unfold bytes_at. change (Z.to_nat 0) with 0%nat. rewrite drop_0. apply take_app_length'. by rewrite magic_length. }
  rewrite magic_length. change (Z.of_nat 4 =? MagicSize) with true. cbn [rbind]. rewrite read_magic, Z.eqb_refl. cbn [rbind].
  exists fd. eexists. split; [done |]. split; [done |]. split.
  - apply host_ok_fds; [apply host_ok_fds |..]; cbn; first [done | by rewrite Hi].
  - exists ino, 4. cbn. by rewrite lookup_insert_eq.
Qed.

Lemma blank_contents : overwrite (overwrite [] 0 (host_bytes big_endian 4 MagicNumber)) (DiskSize - 4) (host_bytes big_endian 4 0) = disk_contents blank.
Proof.
  rewrite overwrite_empty. unfold disk_contents, blank, DiskSize, MagicSize.
  assert (∀ n m, mjoin (replicate n (replicate m 0)) = replicate (n * m) 0) as ->.
  { induction n as [|n IH]; intros m; [done |]. change (replicate (S n) (replicate m 0)) with (replicate m 0 :: replicate n (replicate m 0)).
    change (S n * m)%nat with (m + n * m)%nat. rewrite replicate_add, <- IH. done. }
  assert (host_bytes big_endian 4 0 = replicate 4 0) as -> by (destruct big_endian; reflexivity).
  assert (0 < NumSectors * SectorSize - 4) as Hp by done. rewrite <- Z2Nat.inj_mul by done. generalize (NumSectors * SectorSize), Hp. intros n Hn.
  unfold overwrite. rewrite decide_False by done. rewrite take_ge by (rewrite magic_length; lia).
  rewrite drop_ge by (rewrite magic_length; lia). rewrite app_nil_r, <- replicate_add. do 2 f_equal. rewrite magic_length. lia.
Qed.

Lemma blank_whole : whole blank.
Proof. split; [reflexivity |]. unfold blank. apply Forall_replicate. reflexivity. Qed.

Lemma Disk_new_fresh h name : host_ok h → names h !! name = None → ∃ fd h', Disk_new h name = Ok (fd, h') ∧ disk_is h' name fd blank.
Proof.
  intros Hok Hn. unfold Disk_new, OpenForReadWrite, host_open. rewrite Hn. cbn [negb orb rbind Z.leb].
  unfold OpenForWrite. destruct (host_creat_spec h name Hok) as (ino & -> & Hino). cbn [rbind].
  destruct (lowest_fd_spec (fds h)) as [_ Hfd]. set (fd := lowest_fd (fds h)) in *. destruct (Z.leb_spec 0 fd); [| lia]. cbn [rbind].
  unfold WriteFile, Lseek, host_fd. cbn [fds inodes with_fds with_inode]. rewrite !lookup_insert_eq. cbn [rbind].
  cbn [fds inodes with_fds with_inode]. rewrite !lookup_insert_eq. cbn [rbind].
  change (0 =? 0) with true. cbn [rbind]. change (0 <=? DiskSize - 4) with true. change (0 <=? s32 (DiskSize - 4)) with true. cbn [rbind].
  cbn [fds inodes with_fds with_inode]. rewrite !lookup_insert_eq. cbn [rbind].
  exists fd. eexists. split; [done |]. split; [exact blank_whole |]. destruct Hok as (H1 & H2 & H3). split.
  - assert (∀ i, is_Some (inodes h !! i) → is_Some (<[ino := disk_contents blank]> (inodes h) !! i)) as Hs.
    { intros i [x Hx]. destruct (decide (i = ino)) as [->|]; [by rewrite lookup_insert_eq | rewrite lookup_insert_ne by done; by exists x]. }
    rewrite blank_contents. unfold with_inode, with_fds. cbn. rewrite !insert_insert_eq. split; [| split]; cbn.
    + apply map_Forall_insert_2; [| intros f e He; destruct (H1 f e He) as (? & ? & ?); auto].
      cbn. rewrite lookup_insert_eq. split; [done |]. split; [| done]. destruct big_endian; vm_compute; discriminate.
    + apply map_Forall_insert_2; [by rewrite lookup_insert_eq |]. intros nm i He. apply Hs. by apply (H2 nm).
    + apply map_Forall_insert_2; [lia |]. intros i x Hx. pose proof (H3 _ _ Hx) as Hlt. cbn in Hlt. lia.
  - exists ino. eexists. cbn. rewrite !lookup_insert_eq. split; [done |]. split; [done |]. by rewrite blank_contents.
Qed.

Lemma restart_file h name fd cs : disk_is h name fd cs → ∃ fd' h', (h ← Disk_delete h fd; Disk_new h name) = Ok (fd', h') ∧ disk_is h' name fd' cs.
Proof.
  intros (Hw & Hok & ino & p & Hn & Hfd & Hi). unfold Disk_delete, Close. rewrite Hfd, bool_decide_eq_true_2 by done. cbn [rbind].
  apply (Disk_new_old _ name ino cs); [| done | done | done]. destruct Hok as (H1 & H2 & H3). split; [| done]. cbn. by apply map_Forall_delete.
Qed.

Lemma file_op_refines h name fd cs op : disk_is h name fd cs → op_ok op →
  match sectors_op cs op with
  | Ok (r, cs') => ∃ st', file_op name (h, fd) op = Ok (r, st') ∧ disk_is st'.1 name st'.2 cs'
  | Fail e => file_op name (h, fd) op = Fail e
  end.
Proof.
  intros Hd Hop. destruct op as [n|n data|]; cbn [sectors_op file_op].
  - pose proof (ReadSector_file h name fd cs n Hd) as Hr. destruct (ReadSector cs n); cbn [rbind]; [| by rewrite Hr].
    destruct Hr as (h' & -> & Hd'). by exists (h', fd).
  - pose proof (WriteSector_file h name fd cs n data Hd Hop) as Hr. destruct (WriteSector cs n data); cbn [rbind]; [| by rewrite Hr].
    destruct Hr as (h' & -> & Hd'). by exists (h', fd).
  - destruct (restart_file h name fd cs Hd) as (fd' & h' & Hr & Hd').
    destruct (Disk_delete h fd) as [h1|]; [| done]. cbn [rbind] in *. rewrite Hr. by exists (h', fd').
Qed.

Lemma run_ops_refines ops : ∀ h name fd cs, disk_is h name fd cs → Forall op_ok ops →
  run_ops (file_op name) (h, fd) ops = run_ops sectors_op cs ops.
Proof.
  induction ops as [|op ops IH]; intros h name fd cs Hd Hok; [done |]. apply Forall_cons in Hok as [Ho Hok]. cbn [run_ops].
  pose proof (file_op_refines h name fd cs op Hd Ho) as Hr. destruct (sectors_op cs op) as [[r cs']|]; cbn [rbind]; [| by rewrite Hr].
  destruct Hr as ([h' fd'] & -> & Hd'). cbn [rbind fst snd] in *. by rewrite (IH h' name fd' cs').
Qed.

(** C18: the disk's file is as good as its sectors.  Whether the file is that of
    a disk with the sectors [cs] or does not exist yet, in which case the disk
    comes up blank: any sequence of reads, writes and restarts of the
    simulation gets from the file the results it would get from the list of
    sectors, refusals included; and a file without the magic number is refused. *)
Theorem disk_file_refines_sectors h name cs ops (Hh : host_ok h) (Hops : Forall op_ok ops) (Hcs : whole cs) :
  (∀ ino, names h !! name = Some ino → inodes h !! ino = Some (disk_contents cs) →
     ('st ← Disk_new h name; run_ops (file_op name) (st.2, st.1) ops) = run_ops sectors_op cs ops) ∧
  (names h !! name = None → ('st ← Disk_new h name; run_ops (file_op name) (st.2, st.1) ops) = run_ops sectors_op blank ops) ∧
  (∀ ino c, names h !! name = Some ino → inodes h !! ino = Some c → take 4 c ≠ host_bytes big_endian 4 MagicNumber → Forall is_byte c →
     Disk_new h name = Fail AssertFailed).
Proof.
  split; [| split].
  - intros ino Hn Hi. destruct (Disk_new_old h name ino cs) as (fd & h' & -> & Hd); try done. cbn [rbind fst snd]. by apply run_ops_refines.
  - intros Hn. destruct (Disk_new_fresh h name) as (fd & h' & -> & Hd); try done. cbn [rbind fst snd]. by apply run_ops_refines.
  - intros ino c Hn Hi Hm Hb. unfold Disk_new, OpenForReadWrite, host_open. rewrite Hn. cbn [negb orb rbind].
    destruct (lowest_fd_spec (fds h)) as [_ Hfd]. set (fd := lowest_fd (fds h)) in *. destruct (Z.leb_spec 0 fd); [| lia].
    unfold Read, ReadPartial, host_fd. cbn [fds with_fds inodes]. rewrite lookup_insert_eq, Hi. cbn [rbind]. change (MagicSize <? 0) with false. cbn [rbind].
    unfold bytes_at. change (Z.to_nat 0) with 0%nat. rewrite drop_0. change (Z.to_nat MagicSize) with 4%nat.
    destruct (Z.eqb_spec (Z.of_nat (length (take 4 c))) MagicSize) as [Hl|]; [| done]. cbn [rbind].
    destruct (Z.eqb_spec (s32 (host_word big_endian (take 4 c))) MagicNumber) as [He|]; [| done]. exfalso. apply Hm.
    destruct (word_of_bytes big_endian (take 4 c)) as [Hw Hu]; [unfold MagicSize in Hl; lia | by apply Forall_take |].
    rewrite <- Hw. unfold word_bytes. rewrite <- u32_s32, He. reflexivity.
Qed.
End disk_file.

Lemma disk_file_refines_sectors_witness :
  ('st ← Disk_new true (mkHost ∅ ∅ ∅ 0) [68]; run_ops (file_op true [68]) (st.2, st.1)
     [DWrite 3 (replicate 256 7); DRestart; DRead 3; DRead 4]) =
  Ok [[]; []; replicate 256 7; replicate 256 0].
Proof.
  assert (Forall op_ok [DWrite 3 (replicate 256 7); DRestart; DRead 3; DRead 4]) as Hops by (repeat constructor; vm_compute; reflexivity).
  assert (host_ok (mkHost ∅ ∅ ∅ 0)) as Hh by (split; [| split]; apply map_Forall_empty).
  rewrite (proj1 (proj2 (disk_file_refines_sectors true (mkHost ∅ ∅ ∅ 0) [68] blank _ Hh Hops blank_whole)) eq_refl).
  vm_compute. reflexivity.
Defined.
