(* ===== verification/SynchDisk.v ===== *)
(** * Threads that use one disk (filesys/synchdisk.cc)

    A machine with a timer and a disk, whose threads read and write sectors
    through [SynchDisk].  [synchdisk_serializes]: however the threads are
    scheduled and interrupted, what they get is what they would get if the
    requests were done one after the other on the list of the sectors; so
    [NachosFile] and the files above it may take a request for a single step. *)

From S2P Require Import Prelude Machine Mips Lists AddrSpace Interrupt Threads Sched Waiters Wakeups Locks Synch SynchProps Handlers.
From S2P Require Import Ksyscall Console Disk NachosFile HostFile DiskFile Interleave Drivers.
Local Open Scope Z_scope.

(** [buffers]: the variables that the callers of [ReadSector] pass.  [history]:
    every request so far, in order, with the bytes that it read. *)
Record DiskEnv := mkDiskEnv { ddisk : Disk; buffers : gmap Z (list Z); history : list (disk_op * list Z) }.

Definition with_ddisk (e : DiskEnv) d := mkDiskEnv d (buffers e) (history e).
Definition logged (e : DiskEnv) op r := mkDiskEnv (ddisk e) (buffers e) (history e ++ [(op, r)]).
Definition with_buffer (e : DiskEnv) dst data := mkDiskEnv (ddisk e) (<[dst := data]> (buffers e)) (history e).

#[export] Instance DiskEnv_disk : HasDisk DiskEnv := {| disk := ddisk; with_disk := with_ddisk; disk_with e d := eq_refl |}.

Inductive diskdev := DDTimer | DDDisk.

#[export] Instance diskdev_eq_dec : EqDecision diskdev.
Proof. solve_decision. Defined.

(** The points inside [SynchDisk::ReadSector] and [WriteSector] at which the disk
    is asked. *)
Inductive diskcall := DkRead (n dst : Z) | DkWrite (n : Z) (data : list Z).

#[local] Abbreviation Sim := (Sim diskdev (Threads diskcall DiskEnv)).
#[local] Abbreviation instr := (instr diskcall).
Implicit Types (s : Sim) (e : DiskEnv).

Definition env_of s : DiskEnv := env (devices s).
Definition set_env s e : Sim := with_devices s (with_env (devices s) e).

Definition SynchDisk_ReadSector (n dst : Z) : list instr := SynchDisk_Sector (DkRead n dst).
Definition SynchDisk_WriteSector (n : Z) (data : list Z) : list instr := SynchDisk_Sector (DkWrite n data).

Definition client (x : diskcall) s : result (list instr * Sim) :=
  match x with
  | DkRead n dst =>
      '(data, s) ← ReadRequest DDDisk s n;
      Ok ([], set_env s (with_buffer (logged (env_of s) (DRead n) data) dst data))
  | DkWrite n data =>
      s ← WriteRequest DDDisk s n data;
      Ok ([], set_env s (logged (env_of s) (DWrite n data) []))
  end.

Definition CallBack (d : diskdev) s : result Sim :=
  match d with
  | DDTimer => s ← Alarm_CallBack s; Schedule s DDTimer TimerTicks TimerInt
  | DDDisk => Disk_CallBack s
  end.

(** This machine runs no user programs. *)
Definition no_program (m : Machine) : result (list instr * Machine) := Fail Undefined.

(** [SynchDisk::SynchDisk] and [Disk::Disk] on a machine whose main thread goes
    on with [main]; [cs] are the sectors ([DiskFile.Disk_new]). *)
Definition main_thread : Z := 0.

Definition first_threads (cs : sectors_t) (main : list instr) : Threads diskcall DiskEnv :=
  mkThreads main_thread [] None {[main_thread := mkThread RUNNING (ISetLevel IntOn :: main ++ [IFinish]) None (replicate (Z.to_nat NumTotalRegs) 0) None]}
    {[SUser disk_sem := Semaphore_new 0; SLock disk_lock := Semaphore_new 1]} {[disk_lock := None]} ∅ (main_thread + 1) 0
    (mkDiskEnv (mkDisk cs false 0 0) ∅ []).

Definition Disk_boot (cs : sectors_t) (main : list instr) : result Sim :=
  Schedule (mkSim Interrupt_new Statistics_new Machine_new (first_threads cs main)) DDTimer TimerTicks TimerInt.

(** ** The laws *)

#[export] Instance no_program_law : UserLaw no_program.
Proof. by intros m ins m' _ H. Qed.

#[export] Instance disk_device_law : DeviceLaw CallBack.
Proof.
  apply handler_law. intros [] s s' Hc; cbn [CallBack] in Hc.
  - apply bind_Ok in Hc as (s1 & H1%handler_Alarm & H2%handler_Schedule). by transitivity s1.
  - transitivity (set_disk s (with_active (get_disk s) false)); [apply handler_env | by eapply handler_wake].
Qed.

(** The driver of [SynchDisk]. *)
Definition synchdisk : Driver diskdev diskcall DiskEnv :=
  mkDriver _ _ _ disk_lock disk_sem (λ _, true) (λ e, active (ddisk e)) true (λ d, match d with DDDisk => true | _ => false end).

(** What both requests have in common. *)
Lemma start_shape s d n ticks count s' : (∀ st st', count st = Ok st' → same_ticks st st') → settled s →
  start_request DDDisk s d n ticks count = Ok s' →
  settled s' ∧ dev_events synchdisk s' = dev_events synchdisk s + 1 ∧
  ∃ d', devices s' = with_env (devices s) (with_ddisk (env_of s) d') ∧ sectors d' = sectors d ∧ active d' = true.
Proof.
  intros Hcount Hs Hr. unfold start_request in Hr. apply bind_Ok in Hr as (d' & Hd & Hr). apply bind_Ok in Hr as (st & Hst%Hcount & Hr).
  split; [eapply Schedule_settled; [| exact Hr]; by apply settled_stats |].
  apply (Schedule_device synchdisk) in Hr as [He Hdev]. split; [exact He |]. exists d'. split; [exact Hdev |].
  unfold UpdateLast in Hd. apply bind_Ok in Hd as ([k r] & _ & (b & _ & [= <-])%bind_Ok). done.
Qed.

Lemma count_disk_read_ok st st' : count_disk_read st = Ok st' → same_ticks st st'.
Proof. unfold count_disk_read. intros ?. by inv_res. Qed.

Lemma count_disk_write_ok st st' : count_disk_write st = Ok st' → same_ticks st st'.
Proof. unfold count_disk_write. intros ?. by inv_res. Qed.

Definition op_of (x : diskcall) : disk_op := match x with DkRead n _ => DRead n | DkWrite n data => DWrite n data end.

(** A call is one request on the list of the sectors, to an idle disk. *)
Lemma client_shape x s ins s' : settled s → client x s = Ok (ins, s') →
  ins = [] ∧ settled s' ∧ dev_events synchdisk s' = dev_events synchdisk s + 1 ∧ active (ddisk (env_of s)) = false ∧
  ∃ e' r, devices s' = with_env (devices s) e' ∧ active (ddisk e') = true ∧ history e' = history (env_of s) ++ [(op_of x, r)] ∧
    sectors_op (sectors (ddisk (env_of s))) (op_of x) = Ok (r, sectors (ddisk e')).
Proof.
  intros Hs Hc. destruct x as [n dst|n data]; cbn [client] in Hc.
  - apply bind_Ok in Hc as ([data s1] & Hr & [= <- <-]). unfold ReadRequest in Hr. apply bind_Ok in Hr as (ticks & _ & Hr).
    apply bind_Ok in Hr as ([] & Ha%assert_Ok%negb_true_iff & Hr). apply bind_Ok in Hr as (data' & Hd & Hr).
    apply bind_Ok in Hr as (s2 & Hr & [= -> ->]). apply start_shape in Hr as (H1 & H2 & d' & H3 & H4 & H5); [| exact count_disk_read_ok | done].
    split; [done |]. split; [done |]. split; [exact H2 |]. split; [exact Ha |]. eexists _, data. unfold set_env, env_of. cbn [devices with_devices]. rewrite H3.
    split; [done |]. cbn. rewrite H4, H5. split; [done |]. split; [done |]. change (ddisk (env (devices s))) with (get_disk s). by rewrite Hd.
  - apply bind_Ok in Hc as (s1 & Hr & [= <- <-]). unfold WriteRequest in Hr. apply bind_Ok in Hr as (ticks & _ & Hr).
    apply bind_Ok in Hr as ([] & Ha%assert_Ok%negb_true_iff & Hr). apply bind_Ok in Hr as (c & Hd & Hr).
    apply start_shape in Hr as (H1 & H2 & d' & H3 & H4 & H5); [| exact count_disk_write_ok | done].
    split; [done |]. split; [done |]. split; [exact H2 |]. split; [exact Ha |]. eexists _, []. unfold set_env, env_of. cbn [devices with_devices]. rewrite H3.
    split; [done |]. cbn. rewrite H4, H5. split; [done |]. split; [done |]. change (ddisk (env (devices s))) with (get_disk s). by rewrite Hd.
Qed.

#[export] Instance disk_client_law : ClientLaw client.
Proof.
  intros x s ins s' Hs Hc. destruct (client_shape x s ins s' Hs Hc) as (-> & H1 & _ & _ & e' & r & Hd & _). split; [constructor |]. split; [done |].
  exists (semaphores (devices s)), e'. split; [apply grows_refl |]. rewrite Hd. by destruct (devices s).
Qed.

(** ** One request after the other *)

Fixpoint serial (cs : sectors_t) (l : list (disk_op * list Z)) (cs' : sectors_t) : Prop :=
  match l with
  | [] => cs' = cs
  | (op, r) :: l => ∃ cs1, sectors_op cs op = Ok (r, cs1) ∧ serial cs1 l cs'
  end.

Lemma serial_snoc cs l op r cs1 cs2 : serial cs l cs1 → sectors_op cs1 op = Ok (r, cs2) → serial cs (l ++ [(op, r)]) cs2.
Proof.
  revert cs. induction l as [|[op' r'] l IH]; intros cs; cbn [serial app].
  - intros -> Ho. by exists cs2.
  - intros (cs0 & H1 & H2) Ho. exists cs0. split; [done | by apply IH].
Qed.

Lemma serial_run cs l cs' : serial cs l cs' → run_ops sectors_op cs l.*1 = Ok l.*2.
Proof.
  revert cs. induction l as [|[op r] l IH]; intros cs; cbn [serial]; [done |]. intros (cs1 & H1 & H2).
  rewrite !fmap_cons. cbn [run_ops fst snd]. rewrite H1. cbn [rbind]. by rewrite (IH cs1 H2).
Qed.

Section run.
Variable cs : sectors_t.

Definition recorded e : Prop := serial cs (history e) (sectors (ddisk e)).

#[export] Instance synchdisk_law : DriverLaw synchdisk recorded CallBack client no_program.
Proof.
  split; [| | done].
  - intros [] s s' _ _ Hc Hg; cbn [CallBack] in Hc; cbn [is_dev synchdisk].
    + apply bind_Ok in Hc as (s1 & H1%Alarm_cases & [H2 D2]%(Schedule_device synchdisk)). rewrite H2, Z.add_0_r. unfold dev_busy, dev_value. rewrite D2.
      by destruct H1 as [->| ->].
    + apply (wake_device synchdisk) in Hc as (He & Hev & Hv). rewrite He, Hev, Hv. unfold dev_busy. rewrite He. done.
  - intros x s ins s' Hs Hg _ Hc. destruct (client_shape x s ins s' Hs Hc) as (-> & _ & He & Ha & e' & r & Hd & Hb & Hh & Ho).
    unfold dev_busy. rewrite Hd. split; [| by split_and!]. unfold recorded in *. cbn [env with_env]. rewrite Hh. by eapply serial_snoc.
Qed.

(** ** The start *)

Variable main : list instr.
Hypothesis main_static : Forall static main.

Lemma Disk_boot_shape s : Disk_boot cs main = Ok s → settled s ∧ devices s = first_threads cs main ∧ dev_events synchdisk s = 0.
Proof.
  unfold Disk_boot. intros H1.
  assert (settled (mkSim Interrupt_new Statistics_new Machine_new (first_threads cs main) : Sim)) as H0.
  { split; [| constructor]. split; [constructor |]. split; [constructor |]. split; [unfold clock_ok, is_s32; cbn; lia |]. split; [exact Machine_new_typed | done]. }
  split; [exact (Schedule_settled _ _ _ _ _ H0 H1) |]. apply (Schedule_device synchdisk) in H1 as [E1 D1]. split; [exact D1 | by rewrite E1].
Qed.

Lemma Disk_boot_booted s : Disk_boot cs main = Ok s → booted s ∧ made (devices s).
Proof.
  intros (Hs & Hd & _)%Disk_boot_shape. split; [constructor | intros l; rewrite Hd]; rewrite ?Hd; try done.
  - eexists _, (ISetLevel IntOn :: main). split; [reflexivity |]. repeat (split; [done |]). split; [by constructor | done].
  - intros w sem. cbn. intros [[_ <-]|[_ [_ <-]%lookup_singleton_Some]]%lookup_insert_Some; done.
  - intros l h. cbn. intros [<- <-]%lookup_singleton_Some. by split.
  - cbn. rewrite lookup_insert_ne by done. intros Hl%not_eq_None_Some. destruct Hl as [x Hl]. apply lookup_singleton_Some in Hl as [[= <-] _].
    done.
Qed.

Lemma Disk_boot_unused s : Disk_boot cs main = Ok s → foreign synchdisk main → unused synchdisk recorded s.
Proof.
  intros (Hs & Hd & He)%Disk_boot_shape Hf. constructor; rewrite ?Hd; try done.
  - intros t th. cbn. intros [<- <-]%lookup_singleton_Some. cbn [code]. split.
    + constructor; [done |]. apply Forall_app. split; [done | by repeat constructor].
    + exact (foreign_app synchdisk main [IFinish] Hf eq_refl).
  - unfold dev_value. by rewrite Hd.
  - unfold dev_busy. by rewrite Hd.
Qed.
End run.

Lemma disk_events s : dev_events synchdisk s = Z.of_nat (length (filter (λ p, callOnInterrupt p = DDDisk) (pending (interrupt s)))).
Proof. refine (dev_events_filter synchdisk (λ d, d = DDDisk) s _). by intros []. Qed.

(** C29: requests to the disk are done one after the other.  On a machine
    whose threads, as many as they fork, use the disk through [SynchDisk], in every
    reachable state: a thread that is about to ask the disk finds it idle, so
    that the assertion in the request cannot fail; the disk is busy exactly while its
    interrupt is pending; and all results so far are those of the
    requests, in the order in which they were made, as single steps on the list of
    the sectors - hence also those of the same requests on a host file
    with the same sectors. *)
Theorem synchdisk_serializes cs main s s' (Hst : Forall static main) (Hf : foreign synchdisk main) (Hboot : Disk_boot cs main = Ok s)
    (Hr : rtc (exec_step CallBack client no_program) s s') :
  let e := env_of s' in
  (∀ th x c, threads (devices s') !! currentThread (devices s') = Some th → code th = ICall x :: c → active (ddisk e) = false) ∧
  length (filter (λ p, callOnInterrupt p = DDDisk) (pending (interrupt s'))) = (if active (ddisk e) then 1%nat else 0%nat) ∧
  serial cs (history e) (sectors (ddisk e)) ∧
  (∀ be h name ino, host_ok h → whole cs → names h !! name = Some ino → inodes h !! ino = Some (disk_contents be cs) →
     Forall op_ok (history e).*1 →
     ('st ← Disk_new be h name; run_ops (file_op be name) (st.2, st.1) (history e).*1) = Ok (history e).*2).
Proof.
  destruct (Disk_boot_booted cs main Hst s Hboot) as [Hb Hm]. pose proof (Disk_boot_unused cs main Hst s Hboot Hf) as Hu.
  destruct (device_never_disturbed synchdisk CallBack client no_program (recorded cs) s s' Hb Hm Hu Hr) as (Hd & _ & He).
  destruct (driven_run synchdisk CallBack client no_program (recorded cs) s s' Hb Hm Hu Hr) as (a & _ & _ & Hg).
  cbv zeta. split; [intros th x c Ht Hc; by apply (Hd th x c Ht Hc) |]. split; [| split; [exact Hg |]].
  - specialize (He eq_refl). rewrite disk_events in He. change (dev_busy synchdisk s') with (active (ddisk (env_of s'))) in He. destruct (active _); lia.
  - intros be h name ino Hh Hw Hn Hi Hok. destruct (Disk_new_old be h name ino cs) as (fd & h' & -> & Hfd); try done. cbn [rbind fst snd].
    rewrite (run_ops_refines be _ h' name fd cs Hfd Hok). by eapply serial_run.
Qed.

(** Two threads at sector 5: the second read of the first comes after the
    other's write. *)
Definition demo_readers : list instr := IFork (SynchDisk_WriteSector 5 [7]) :: SynchDisk_ReadSector 5 0 ++ [IYield] ++ SynchDisk_ReadSector 5 1.
Definition demo_sectors : sectors_t := replicate 1024 [0].
Definition disk_start := from_ok (mkSim Interrupt_new Statistics_new Machine_new (first_threads [] [])) (Disk_boot demo_sectors demo_readers).
Definition disk_state (n : nat) := from_ok disk_start (run CallBack client no_program n disk_start).

Lemma disk_start_eq : Disk_boot demo_sectors demo_readers = Ok disk_start.
Proof. apply is_ok_from. vm_compute. reflexivity. Qed.

Lemma disk_reached n : is_ok (run CallBack client no_program n disk_start) = true → rtc (exec_step CallBack client no_program) disk_start (disk_state n).
Proof. intros Hn. apply (run_steps _ _ _ n). by apply is_ok_from. Qed.

Lemma synchdisk_serializes_witness : history (env_of (disk_state 300)) = [(DRead 5, [0]); (DWrite 5 [7], []); (DRead 5, [7])] ∧
  serial demo_sectors (history (env_of (disk_state 300))) (sectors (ddisk (env_of (disk_state 300)))).
Proof.
  split; [vm_compute; reflexivity |].
  refine (proj1 (proj2 (proj2 (synchdisk_serializes demo_sectors demo_readers disk_start (disk_state 300) _ _ disk_start_eq _)))).
  - by repeat constructor.
  - reflexivity.
  - apply disk_reached. vm_compute. reflexivity.
Defined.
