(* ===== verification/Copy.v ===== *)
(** * Files in and out of the Nachos file system (threads/main.cc)

    The commands that copy a host file into the file system and print a file of
    it; they open it with [FileSystem::Open (name)]. *)

From S2P Require Import Prelude Bitmap Machine HostFile Disk NachosFile PBitmap Directory FileSys.
Local Open Scope Z_scope.

Definition TransferSize : Z := 128.

Section copy.
Variable big_endian : bool.
Variable new_bytes : Z → list Z.
Implicit Types (host : Host) (fs : FileSystem) (c : sectors_t).

(** The state the commands change. *)
Abbreviation world := (Host * FileSystem * sectors_t)%type.

(** [delete] on what the pointer leads to. *)
Definition delete_object fs (p : nat) : FileSystem := with_objects fs (<[p := None]> (objects fs)).

(** [while ((amountRead = ReadPartial (fd, buffer, TransferSize)) > 0) openFile->Write (buffer, amountRead)];
    [fuel] bounds the rounds. *)
Fixpoint copy_loop (fuel : nat) host (fd : Z) (o : OpenFile) c : result (Host * OpenFile * sectors_t) :=
  match fuel with
  | O => Fail OutOfFuel
  | S fuel =>
      '(bs, host) ← ReadPartial host fd TransferSize;
      let amountRead := Z.of_nat (length bs) in
      if 0 <? amountRead
      then '(_, c, o) ← NachosFile.Write new_bytes o c bs amountRead; copy_loop fuel host fd o c
      else Ok (host, o, c)
  end.

(** [Copy] up to the creation of [to]: the descriptor of [from], unless the
    command has said what is wrong and returned.  [from] without its NUL, as the
    host has it. *)
Definition Copy_create host fs c (from to : list Z) : result (option Z * Host * sectors_t) :=
  '(fd, host) ← OpenForReadWrite host from false;
  if fd <? 0 then Ok (None, host, c)
  else
    host ← Lseek host fd 0 2;
    fileLength ← Tell host fd;
    host ← Lseek host fd 0 0;
    '(created, c) ← FileSys.Create big_endian new_bytes fs c to fileLength;
    if negb created then host ← Close host fd; Ok (None, host, c)
    else Ok (Some fd, host, c).

(** ... and from [openFile = Open (to)] on. *)
Definition Copy_data (fuel : nat) host (fd : Z) fs c (to : list Z) : result world :=
  '(p, fs) ← Open1 big_endian new_bytes fs c to;
  match p with
  | None => Fail AssertFailed
  | Some p =>
      o ← object fs p;
      '(host, o, c) ← copy_loop fuel host fd o c;
      let fs := delete_object (with_objects fs (<[p := Some o]> (objects fs))) p in
      host ← Close host fd;
      Ok (host, fs, c)
  end.

Definition Copy (fuel : nat) host fs c (from to : list Z) : result world :=
  '(fd, host, c) ← Copy_create host fs c from to;
  match fd with
  | None => Ok (host, fs, c)
  | Some fd => Copy_data fuel host fd fs c to
  end.

(** What [Print] prints of the file: [None] when it says that it cannot open it. *)
Fixpoint print_loop (fuel : nat) (o : OpenFile) c (out : list Z) : result (list Z * OpenFile) :=
  match fuel with
  | O => Fail OutOfFuel
  | S fuel =>
      '(bs, o) ← NachosFile.Read new_bytes o c TransferSize;
      if 0 <? Z.of_nat (length bs) then print_loop fuel o c (out ++ bs) else Ok (out, o)
  end.

Definition Print (fuel : nat) fs c (name : list Z) : result (option (list Z) * FileSystem) :=
  '(p, fs) ← Open1 big_endian new_bytes fs c name;
  match p with
  | None => Ok (None, fs)
  | Some p => o ← object fs p; '(out, _) ← print_loop fuel o c []; Ok (Some out, delete_object fs p)
  end.

Hypothesis new_bytes_length : ∀ n, 0 <= n → Z.of_nat (length (new_bytes n)) = n.

(** How [Copy] finds the length of an open host file. *)
Lemma measure host fd ino off content : fds host !! fd = Some (ino, off) → inodes host !! ino = Some content →
  Z.of_nat (length content) < 2 ^ 31 →
  ∃ h1 h2, Lseek host fd 0 2 = Ok h1 ∧ Tell h1 fd = Ok (Z.of_nat (length content)) ∧ Lseek h1 fd 0 0 = Ok h2.
Proof.
  intros Hf Hi Hl. unfold Lseek, Tell, host_fd. rewrite Hf, Hi. cbn [rbind Z.eqb]. rewrite Z.add_0_r, s32_id by (unfold is_s32; lia).
  destruct (Z.leb_spec 0 (Z.of_nat (length content))); [| lia]. cbn [rbind]. eexists. eexists. split; [done |].
  cbn [fds inodes with_fds]. rewrite lookup_insert_eq, Hi. cbn [rbind]. rewrite s32_id by (unfold is_s32; lia). done.
Qed.

(** The pointer that [Open (name)] returns does not depend on the name. *)
Lemma Open1_spec fs c M name nm : holds big_endian (fs, c) M → c_string name nm → 0 <= index fs < 10 →
  ∃ p os, openf fs !! Z.to_nat (index fs) = Some p ∧
    Open1 big_endian new_bytes fs c name = Ok (p, with_index (with_objects fs os) (index fs + 1)).
Proof.
  intros ([Hl _] & m & d & F & b & dir & Hs & _) Hn Hi. cbn [fst snd] in *.
  destruct (lookup_lt_is_Some_2 (openf fs) (Z.to_nat (index fs))) as [p Hp]; [lia |]. unfold Open1.
  rewrite (get_directory_spec big_endian new_bytes new_bytes_length fs c m d F b dir Hs). cbn [rbind].
  destruct (find_sector big_endian fs c m d F b dir _ nm name Hs Hn eq_refl) as [-> Hf]. cbn [rbind].
  assert (∃ os, (if 0 <=? match F !! take 9 nm with Some f => fsec f | None => -1 end
    then o ← OpenFile_new big_endian c match F !! take 9 nm with Some f => fsec f | None => -1 end (s32 (host_word big_endian (new_bytes 4)));
         Ok (with_objects fs (objects fs ++ [Some o]))
    else Ok fs) = Ok (with_objects fs os)) as [os ->].
  { destruct (F !! take 9 nm) as [f|].
    - destruct (Hf f eq_refl) as [Hst Hpos]. destruct (Z.leb_spec 0 (fsec f)); [| lia]. unfold OpenFile_new.
      rewrite (fetch_header big_endian c f) by (done || apply (sh_volume _ _ _ _ _ _ _ _ Hs)). by eexists.
    - exists (objects fs). by destruct fs. }
  cbn [rbind index openf with_objects]. rewrite int_add_in by (unfold is_s32; lia). cbn [rbind].
  replace (index fs + 1 - 1) with (index fs) by lia. rewrite (proj2 (aget_Ok _ _ p)) by (split; [lia | done]). cbn [rbind].
  by exists p, os.
Qed.

Lemma Open1_fresh fs c M name nm : holds big_endian (fs, c) M → c_string name nm → openf fs !! 2%nat = Some None → index fs = 2 →
  ∃ fs', Open1 big_endian new_bytes fs c name = Ok (None, fs').
Proof.
  intros Hh Hn Ho Hi. destruct (Open1_spec fs c M name nm Hh Hn) as (p & os & Hp & He); [rewrite Hi; lia |].
  rewrite Hi in Hp. change (Z.to_nat 2) with 2%nat in Hp. rewrite Ho in Hp. injection Hp as <-. by eexists.
Qed.

(** Where the file system has room, [Copy_create] adds a file of the length of
    the host's. *)
Lemma Copy_create_ok host fs c M from to nm ino content : holds big_endian (fs, c) M → c_string to nm →
  names host !! from = Some ino → inodes host !! ino = Some content → Z.of_nat (length content) <= MaxFileSize →
  can_create M (take 9 nm) (Z.of_nat (length content)) →
  ∃ fd host' c' bs, Copy_create host fs c from to = Ok (Some fd, host', c') ∧
    holds big_endian (fs, c') (<[take 9 nm := bs]> M) ∧ length bs = length content.
Proof.
  intros Hh Hto Hfrom Hino Hlen Hnew. unfold Copy_create, OpenForReadWrite, host_open. rewrite Hfrom. cbn [negb orb rbind].
  destruct (lowest_fd_spec (fds host)) as [_ Hfd]. set (fd := lowest_fd (fds host)) in *. destruct (Z.ltb_spec fd 0); [lia |].
  destruct (measure (with_fds host (<[fd := (ino, 0)]> (fds host))) fd ino 0 content) as (h1 & h2 & -> & Ht & Hl2);
    [cbn; by rewrite lookup_insert_eq | done | change MaxFileSize with 15872 in Hlen; lia |].
  cbn [rbind]. rewrite Ht. cbn [rbind]. rewrite Hl2. cbn [rbind].
  destruct Hh as (Hsl & m & d & F & b & dir & Hs & <-). cbn [fst snd] in *.
  destruct (fs_Create_ok big_endian new_bytes new_bytes_length fs c m d F b dir to nm (Z.of_nat (length content)) Hs Hto Hnew)
    as (c2 & m' & d' & f & b' & dir' & -> & Hs' & Hf); [lia | by apply fits_header; lia |].
  cbn [rbind negb]. exists fd, h2, c2, (fbytes f). split; [done |]. split; [| lia]. split; [exact Hsl |].
  exists m', d', (<[take 9 nm := f]> F), b', dir'. split; [exact Hs' |]. unfold contents. by rewrite fmap_insert.
Qed.

(** C39: on a disk just formatted the commands do not work.  [Open (name)]
    makes an object for the file and then returns the next entry of [openf],
    which is empty.  So [Print] says of any file that it cannot open it, and
    [Copy] creates the file, with the length of the host's and whatever the
    sectors hold, gets NULL from [Open], and stops at
    [ASSERT (openFile != NULL)]. *)
Theorem Copy_fresh_disk fuel c host from to nm ino content (Hc : disk_wf c) (Hto : c_string to nm)
    (Hfrom : names host !! from = Some ino) (Hino : inodes host !! ino = Some content) (Hlen : Z.of_nat (length content) <= MaxFileSize)
    (Hnew : can_create (<[key stdout_name := []]> (<[key stdin_name := []]> ∅)) (take 9 nm) (Z.of_nat (length content))) :
  ∃ fs c' fd host' c'' bs fs', FileSystem_new big_endian new_bytes true c = Ok (fs, c') ∧
    Copy_create host fs c' from to = Ok (Some fd, host', c'') ∧
    holds big_endian (fs, c'') (<[take 9 nm := bs]> (<[key stdout_name := []]> (<[key stdin_name := []]> ∅))) ∧
    length bs = length content ∧
    Open1 big_endian new_bytes fs c'' to = Ok (None, fs') ∧ Copy fuel host fs c' from to = Fail AssertFailed ∧
    ∀ name nm', c_string name nm' → ∃ fs'', Print fuel fs c' name = Ok (None, fs'').
Proof.
  destruct (FileSystem_new_format big_endian new_bytes new_bytes_length c Hc) as (fs & c' & M & Hnew' & Hh & Hb & Ho & Hi).
  apply booted_fresh in Hb. subst M.
  assert (openf fs !! 2%nat = Some None) as Ho2 by (by rewrite Ho).
  destruct (Copy_create_ok host fs c' _ from to nm ino content Hh Hto Hfrom Hino Hlen Hnew) as (fd & host' & c'' & bs & Hcr & Hh2 & Hbs).
  destruct (Open1_fresh fs c'' _ to nm Hh2 Hto Ho2 Hi) as [fs' Hopen].
  exists fs, c', fd, host', c'', bs, fs'. do 5 (split; [done |]). split.
  - unfold Copy. rewrite Hcr. cbn [rbind]. unfold Copy_data. by rewrite Hopen.
  - intros name nm' Hn'. unfold Print. destruct (Open1_fresh fs c' _ name nm' Hh Hn' Ho2 Hi) as [fs2 ->]. by eexists.
Qed.
End copy.

Definition demo_disk_host : Host := mkHost {[ 0 := [1; 2; 3] ]} {[ [97] := 0 ]} ∅ 1.

Lemma Copy_fresh_disk_witness : ∃ fs c' fd host' c'', FileSystem_new false some_bytes true demo_sectors = Ok (fs, c') ∧
  Copy_create false some_bytes demo_disk_host fs c' [97] [98; 0] = Ok (Some fd, host', c'') ∧
  Copy false some_bytes 9 demo_disk_host fs c' [97] [98; 0] = Fail AssertFailed.
Proof.
  destruct (Copy_fresh_disk false some_bytes some_bytes_length 9 demo_sectors demo_disk_host [97] [98; 0] [98] 0 [1; 2; 3])
    as (fs & c' & fd & host' & c'' & bs & fs' & Hn & Hcr & _ & _ & _ & Hcopy & _).
  - exact demo_sectors_wf.
  - split; [by repeat constructor | by exists []].
  - done.
  - done.
  - by vm_compute.
  - apply (bool_decide_eq_true_1 _). by vm_compute.
  - exists fs, c', fd, host', c''. split; [exact Hn |]. split; [exact Hcr | exact Hcopy].
Defined.
