(* ===== verification/STable.v ===== *)
(** * Named semaphores (threads/stable.h, threads/stable.cc)

    The table behind the system calls CreateSemaphore, Wait and Signal: ten
    slots, a bitmap of those in use, and in each a name and a semaphore.  The
    bitmap is any implementation of [BitmapLaws]; the semaphores are those of
    [Threads], and the operations return what the calling thread has to do on
    them.  A name is the characters of a C string, without its NUL. *)

From S2P Require Import Prelude Bitmap Lists Threads.
Local Open Scope Z_scope.

Definition MAX_SEMAPHORE : Z := 10.

(** [sem]: the number of the semaphore allocated by the constructor. *)
Record Sem := mkSemEntry { sem_name : list Z; sem : Z }.

Section stable.
Context {X : Type} {B : Type} `{BitmapLaws B}.
#[local] Abbreviation instr := (instr X).

Record STable := mkSTable { mSemBitMap : B; semTable : list (option Sem) }.

Implicit Types (t : STable) (name : list Z).

(** ** Operations *)

(** [new Semaphore (name, value)] is the caller's: it allocates number [fresh]. *)
Definition Sem_new name (fresh : Z) : Sem := mkSemEntry name fresh.

Definition Sem_wait (s : Sem) : list instr := [IP (SUser (sem s))].
Definition Sem_signal (s : Sem) : list instr := [IV (SUser (sem s))].

(** [bits]: the bitmap that [new Bitmap (MAX_SEMAPHORE)] gives. *)
Definition STable_new (bits : B) (raw : list (option Sem)) : result STable :=
  tab ← for_each 0 MAX_SEMAPHORE (λ i tab, aset tab i None) raw;
  Ok (mkSTable bits tab).

(** The entry at a slot in use; the code dereferences it unseen. *)
Definition entry t (i : Z) : result Sem :=
  s ← aget (semTable t) i;
  match s with Some s => Ok s | None => Fail NullDeref end.

(** The loop shared by [Create], [Wait] and [Signal]: the entry of this name. *)
Definition search t name : result (option Sem) :=
  r ← for_ret 0 MAX_SEMAPHORE (λ i u,
    b ← bm_Test (mSemBitMap t) i;
    if b then s ← entry t i; if bool_decide (name = sem_name s) then Ok (inr s) else Ok (inl u)
    else Ok (inl u)) tt;
  Ok (match r with inr s => Some s | inl _ => None end).

Definition FindFreeSlot t : result (Z * STable) :=
  '(i, b) ← bm_FindAndSet (mSemBitMap t); Ok (i, mkSTable b (semTable t)).

Definition STable_Create t name (fresh : Z) : result (Z * STable) :=
  s ← search t name;
  match s with
  | Some _ => Ok (-1, t)
  | None =>
      '(idx, t) ← FindFreeSlot t;
      if idx <? 0 then Ok (-1, t)
      else tab ← aset (semTable t) idx (Some (Sem_new name fresh)); Ok (idx, mkSTable (mSemBitMap t) tab)
  end.

Definition STable_Wait t name : result (Z * list instr) :=
  s ← search t name;
  Ok (match s with Some s => (1, Sem_wait s) | None => (-1, []) end).

Definition STable_Signal t name : result (Z * list instr) :=
  s ← search t name;
  Ok (match s with Some s => (1, Sem_signal s) | None => (-1, []) end).

(** ** What the table stands for

    The semaphores in the order of their creation: nothing ever leaves. *)

Definition table_of (es : list Sem) t : Prop :=
  (length es <= 10)%nat ∧ length (semTable t) = 10%nat ∧ NoDup (map sem_name es) ∧
  (∀ i e, es !! i = Some e → semTable t !! i = Some (Some e)) ∧
  bm_repr (mSemBitMap t) MAX_SEMAPHORE (list_to_set (seqZ 0 (Z.of_nat (length es)))).

Definition named es name : option Sem := list_find (λ e, sem_name e = name) es ≫= λ p, Some p.2.

Lemma in_use es t i : table_of es t → 0 <= i < MAX_SEMAPHORE →
  bm_Test (mSemBitMap t) i = Ok (bool_decide (i < Z.of_nat (length es))).
Proof.
  intros (_ & _ & _ & _ & Hb) Hi. rewrite (bm_Test_in _ _ _ i Hb) by done. f_equal. apply bool_decide_ext.
  rewrite elem_of_list_to_set, elem_of_seqZ. lia.
Qed.

Lemma named_None es name : named es name = None ↔ name ∉ map sem_name es.
Proof.
  unfold named. destruct (list_find _ es) as [[i e]|] eqn:Hf; cbn.
  - apply list_find_Some in Hf as (Hi & <- & _). split; [done |]. intros Hx. destruct Hx.
    apply list_elem_of_fmap. exists e. split; [done |]. by eapply list_elem_of_lookup_2.
  - apply list_find_None in Hf. split; [| done]. intros _ Hin. apply list_elem_of_fmap in Hin as (e & -> & He).
    rewrite Forall_forall in Hf. by apply (Hf e).
Qed.

Lemma search_spec es t name : table_of es t → search t name = Ok (named es name).
Proof.
  intros Ht. unfold search.
  destruct (for_ret_rule (λ i _, ∀ j e, es !! j = Some e → Z.of_nat j < i → sem_name e ≠ name)
    (λ s, named es name = Some s) 0 MAX_SEMAPHORE (λ i u,
    b ← bm_Test (mSemBitMap t) i;
    if b then s ← entry t i; if bool_decide (name = sem_name s) then Ok (inr s) else Ok (inl u)
    else Ok (inl u)) tt) as (r & -> & Hr).
  - done.
  - intros j e _. lia.
  - intros i [] Hi Hno. rewrite (in_use es t i Ht Hi). cbn [rbind]. case_bool_decide as Hlt.
    + destruct (lookup_lt_is_Some_2 es (Z.to_nat i)) as [e He]; [lia |].
      destruct Ht as (_ & _ & _ & Hent & _). unfold entry.
      rewrite (proj2 (aget_Ok (semTable t) i (Some e))) by (split; [lia | by apply Hent]). cbn [rbind].
      case_bool_decide as Hn.
      * eexists. split; [done |]. cbn. unfold named.
        assert (list_find (λ e, sem_name e = name) es = Some (Z.to_nat i, e)) as ->; [| done].
        apply list_find_Some. split; [done |]. split; [done |]. intros j e' He' Hj. apply (Hno j e' He'). lia.
      * eexists. split; [done |]. cbn. intros j e' He' Hj. destruct (decide (Z.of_nat j = i)) as [Hx|].
        -- assert (e' = e) as -> by (replace (Z.to_nat i) with j in He by lia; congruence). congruence.
        -- apply (Hno j e' He'). lia.
    + eexists. split; [done |]. cbn. intros j e' He' Hj. apply (Hno j e' He'). apply lookup_lt_Some in He'. lia.
  - cbn [rbind]. destruct r as [[]|s]; [| by rewrite Hr]. f_equal. symmetry. apply named_None.
    intros (e & -> & (j & Hj)%list_elem_of_lookup)%list_elem_of_fmap. apply (Hr j e Hj); [| done].
    apply lookup_lt_Some in Hj. destruct Ht as (Hl & _). unfold MAX_SEMAPHORE. lia.
Qed.

Lemma Create_full es t name fresh : table_of es t → name ∉ map sem_name es → length es = 10%nat →
  STable_Create t name fresh = Ok (-1, t).
Proof.
  intros Ht Hn Hl. unfold STable_Create. rewrite (search_spec es t name Ht). apply named_None in Hn. rewrite Hn.
  cbn [rbind]. unfold FindFreeSlot. destruct Ht as (_ & _ & _ & _ & Hb).
  destruct (bm_FindAndSet_spec _ _ _ Hb) as [(i & b' & _ & Hi & Hni & _)|[-> _]].
  - exfalso. apply Hni. rewrite elem_of_list_to_set, elem_of_seqZ, Hl. unfold MAX_SEMAPHORE in Hi. lia.
  - cbn. by destruct t.
Qed.

Lemma Create_fresh es t name fresh : table_of es t → name ∉ map sem_name es → (length es < 10)%nat →
  ∃ t', STable_Create t name fresh = Ok (Z.of_nat (length es), t') ∧ table_of (es ++ [mkSemEntry name fresh]) t'.
Proof.
  intros Ht Hn Hl. unfold STable_Create. rewrite (search_spec es t name Ht). pose proof Hn as Hn'. apply named_None in Hn. rewrite Hn.
  cbn [rbind]. unfold FindFreeSlot. pose proof Ht as (_ & Htl & Hnd & Hent & Hb).
  destruct (bm_FindAndSet_spec _ _ _ Hb) as [(i & b' & -> & Hi & Hni & Hall & Hb')|[_ Hall]].
  2: { exfalso. specialize (Hall (Z.of_nat (length es))). rewrite elem_of_list_to_set, elem_of_seqZ in Hall.
       unfold MAX_SEMAPHORE in Hall. lia. }
  assert (i = Z.of_nat (length es)) as ->.
  { rewrite elem_of_list_to_set, elem_of_seqZ in Hni. unfold MAX_SEMAPHORE in Hi.
    destruct (decide (i = Z.of_nat (length es))) as [|Hne]; [done |]. exfalso.
    specialize (Hall (Z.of_nat (length es))). rewrite elem_of_list_to_set, elem_of_seqZ in Hall. lia. }
  cbn [rbind]. destruct (Z.ltb_spec (Z.of_nat (length es)) 0); [lia |]. cbn [semTable mSemBitMap].
  rewrite aset_in by lia. cbn [rbind]. eexists. split; [done |]. rewrite Nat2Z.id.
  unfold table_of. cbn [semTable mSemBitMap]. split; [rewrite length_app; cbn; lia |]. split; [by rewrite length_insert |]. split; [| split].
  - rewrite map_app. apply NoDup_app. split; [done |]. split; [| apply NoDup_singleton].
    intros x Hx ->%list_elem_of_singleton. done.
  - intros j e Hj. cbn. destruct (decide (j = length es)) as [->|Hne].
    + rewrite list_lookup_insert_eq by lia. rewrite lookup_app_r, Nat.sub_diag in Hj by lia. by injection Hj as <-.
    + rewrite list_lookup_insert_ne by done. apply Hent. rewrite lookup_app_l in Hj; [done |].
      apply lookup_lt_Some in Hj. rewrite length_app in Hj. cbn in Hj. lia.
  - cbn. replace (list_to_set (seqZ 0 (Z.of_nat (length (es ++ [mkSemEntry name fresh])))))
      with ({[Z.of_nat (length es)]} ∪ list_to_set (seqZ 0 (Z.of_nat (length es))) : gset Z); [done |].
    rewrite length_app. cbn. apply set_eq. intros j.
    rewrite elem_of_union, elem_of_singleton, !elem_of_list_to_set, !elem_of_seqZ. lia.
Qed.

Lemma STable_new_spec bits raw : bm_repr bits MAX_SEMAPHORE ∅ → length raw = 10%nat →
  ∃ t, STable_new bits raw = Ok t ∧ table_of [] t.
Proof.
  intros Hb Hl. unfold STable_new.
  destruct (for_each_rule (λ _ tab, length tab = 10%nat) 0 MAX_SEMAPHORE (λ i tab, aset tab i None) raw)
    as (tab & -> & Ht); [done | done | |].
  - intros i tab Hi Ht. rewrite aset_in by (unfold MAX_SEMAPHORE in Hi; lia). eexists. split; [done |]. cbn beta. by rewrite length_insert.
  - cbn [rbind]. eexists. split; [done |]. split; [cbn; lia |]. split; [done |]. split; [constructor |]. split; [done |]. exact Hb.
Qed.

(** ** Sequences of system calls *)

Inductive sem_call := CreateSem (name : list Z) (fresh : Z) | WaitSem (name : list Z) | SignalSem (name : list Z).

Definition table_call t (c : sem_call) : result (Z * list instr * STable) :=
  match c with
  | CreateSem name fresh => '(r, t) ← STable_Create t name fresh; Ok (r, [], t)
  | WaitSem name => '(r, ins) ← STable_Wait t name; Ok (r, ins, t)
  | SignalSem name => '(r, ins) ← STable_Signal t name; Ok (r, ins, t)
  end.

Fixpoint table_calls t (cs : list sem_call) : result (list (Z * list instr)) :=
  match cs with
  | [] => Ok []
  | c :: cs => '(a, t) ← table_call t c; rest ← table_calls t cs; Ok (a :: rest)
  end.

(** What the calls promise, on the list of the semaphores created so far. *)
Definition spec_call (es : list Sem) (c : sem_call) : Z * list instr * list Sem :=
  match c with
  | CreateSem name fresh =>
      if bool_decide (name ∈ map sem_name es) || bool_decide (length es = 10%nat) then (-1, [], es)
      else (Z.of_nat (length es), [], es ++ [mkSemEntry name fresh])
  | WaitSem name => match named es name with Some e => (1, [IP (SUser (sem e))], es) | None => (-1, [], es) end
  | SignalSem name => match named es name with Some e => (1, [IV (SUser (sem e))], es) | None => (-1, [], es) end
  end.

Fixpoint spec_calls (es : list Sem) (cs : list sem_call) : list (Z * list instr) :=
  match cs with
  | [] => []
  | c :: cs => let '(a, es) := spec_call es c in a :: spec_calls es cs
  end.

Lemma table_call_spec es t c : table_of es t →
  ∃ t', table_call t c = Ok (let '(a, _) := spec_call es c in (a, t')) ∧ table_of (spec_call es c).2 t'.
Proof.
  intros Ht. destruct c as [name fresh|name|name]; cbn [table_call spec_call].
  - case_bool_decide as Hin; cbn [orb].
    + exists t. unfold STable_Create. rewrite (search_spec es t name Ht).
      destruct (named es name) as [e|] eqn:Hn; [done |]. by apply named_None in Hn.
    + case_bool_decide as Hl.
      * exists t. rewrite (Create_full es) by done. done.
      * destruct (Create_fresh es t name fresh Ht Hin) as (t' & -> & Ht'); [destruct Ht as [? _]; lia |].
        by exists t'.
  - exists t. unfold STable_Wait. rewrite (search_spec es t name Ht). by destruct (named es name).
  - exists t. unfold STable_Signal. rewrite (search_spec es t name Ht). by destruct (named es name).
Qed.

(** C27: the semaphore table is a table.  Whatever calls are made, the table
    answers as a list of the semaphores created so far would, at most ten and
    each name once: Create returns the next slot, or -1 when the name is taken
    or the table full; Wait and Signal act on the semaphore that was created
    under the name and return 1 (the comments in ksyscall.h promise the
    semaphore's id), or -1 when there is none; nothing faults. *)
Theorem STable_refines_names (bits : B) (raw : list (option Sem)) (cs : list sem_call)
    (Hb : bm_repr bits MAX_SEMAPHORE ∅) (Hraw : length raw = 10%nat) :
  (t ← STable_new bits raw; table_calls t cs) = Ok (spec_calls [] cs).
Proof.
  destruct (STable_new_spec bits raw Hb Hraw) as (t & -> & Ht). cbn [rbind].
  revert t Ht. generalize (@nil Sem) as es. induction cs as [|c cs IH]; intros es t Ht; cbn [table_calls spec_calls]; [done |].
  destruct (table_call_spec es t c Ht) as (t' & -> & Ht'). destruct (spec_call es c) as [a es'] eqn:Hs. cbn [rbind].
  by rewrite (IH es' t' Ht').
Qed.
End stable.
Arguments STable : clear implicits.

Lemma STable_refines_names_witness : ∃ bits : Bitmap.Bitmap, Bitmap_new [0] MAX_SEMAPHORE = Ok bits ∧
  (t ← STable_new bits (replicate 10 None);
   table_calls (X := unit) t [CreateSem [65] 3; WaitSem [66]; CreateSem [65] 4; CreateSem [66] 5; SignalSem [66]]) =
  Ok [(0, []); (-1, []); (-1, []); (1, []); (1, [IV (SUser 5)])].
Proof.
  destruct (marks_new [0] MAX_SEMAPHORE) as (bits & Hn & Hm); [reflexivity | reflexivity |].
  exists bits. split; [exact Hn |].
  apply (STable_refines_names (X := unit) bits (replicate 10 None)
    [CreateSem [65] 3; WaitSem [66]; CreateSem [65] 4; CreateSem [66] 5; SignalSem [66]]); [exact Hm | reflexivity].
Defined.
