(* ===== verification/PCB.v ===== *)
(** * A process and its files (threads/pcb.h, threads/pcb.cc)

    The process control block: the three semaphores of the exit protocol (their
    numbers in [Threads]), the exit code and the number of waiting joins, and
    the table of ten open files, whose first two are the console.  The files
    are the host's ([HostFile]); the console is the pair of streams of
    [Ksyscall].  Buffers are the kernel's copies of user memory. *)

From S2P Require Import Prelude HostFile Ksyscall.
Local Open Scope Z_scope.

Definition MAX_FILENAME_LENGTH : Z := 32.
Definition MAX_OPEN : Z := 10.
Definition CONSOLE_INPUT : Z := 0.
Definition CONSOLE_OUTPUT : Z := 1.

(** [thread]: the thread that runs the process, once [Exec] has forked it. *)
Record PCB := mkPCB {
  joinsem : Z; exitsem : Z; multex : Z;
  thread : option Z; name_buffer : list Z; exitcode : Z; numwait : Z;
  parentID : Z; fileTable : list (option OpenFile); next_file : Z }.

Implicit Types (p : PCB) (h : Host) (buffer inp out : list Z).

Definition with_files p ft := mkPCB (joinsem p) (exitsem p) (multex p) (thread p) (name_buffer p)
  (exitcode p) (numwait p) (parentID p) ft (next_file p).
Definition with_name p n := mkPCB (joinsem p) (exitsem p) (multex p) (thread p) n
  (exitcode p) (numwait p) (parentID p) (fileTable p) (next_file p).
Definition with_parent p i := mkPCB (joinsem p) (exitsem p) (multex p) (thread p) (name_buffer p)
  (exitcode p) (numwait p) i (fileTable p) (next_file p).
Definition with_thread p t := mkPCB (joinsem p) (exitsem p) (multex p) t (name_buffer p)
  (exitcode p) (numwait p) (parentID p) (fileTable p) (next_file p).
Definition with_numwait p n := mkPCB (joinsem p) (exitsem p) (multex p) (thread p) (name_buffer p)
  (exitcode p) n (parentID p) (fileTable p) (next_file p).

(** ** Construction and the small operations *)

(** The constructor: [current] is the process of the current thread, [sems] the
    semaphores it allocates, and the rest what [new] leaves in its arrays. *)
Definition PCB_new h (id current : Z) (sems : Z * Z * Z) (rawname : list Z) (rawtab : list (option OpenFile))
    (raw0 raw1 : list Z) : result (PCB * Host) :=
  let '(joinsem, exitsem, multex) := sems in
  let parent := if id =? 0 then -1 else current in
  ft ← for_each 0 MAX_OPEN (λ i ft, aset ft i None) rawtab;
  '(_, h) ← Create h stdin;
  '(_, h) ← Create h stdout;
  '(f0, h) ← Open h stdin 2 raw0;
  ft ← aset ft 0 f0;
  '(f1, h) ← Open h stdout 3 raw1;
  ft ← aset ft 1 f1;
  Ok (mkPCB joinsem exitsem multex None rawname 0 0 parent ft 2, h).

Definition GetNumWait p : Z := numwait p.
Definition GetExitCode p : Z := exitcode p.
Definition SetExitCode p (ec : Z) : PCB :=
  mkPCB (joinsem p) (exitsem p) (multex p) (thread p) (name_buffer p) ec (numwait p) (parentID p) (fileTable p) (next_file p).

(** [strcpy (filename, fn)]: [fn] with its NUL must fit the 32 bytes. *)
Definition SetFileName p (fn : list Z) : result PCB :=
  buf ← blk_put (name_buffer p) 0 (fn ++ [0]); Ok (with_name p buf).
Definition GetFileName p : list Z := name_buffer p.

(** The critical sections of [IncNumWait] and [DecNumWait]. *)
Definition IncNumWait p : result PCB := n ← int_add (numwait p) 1; Ok (with_numwait p n).
Definition DecNumWait p : PCB := if numwait p >? 0 then with_numwait p (numwait p - 1) else p.

(** [strcmp (a, b) == 0], reading both until they differ or end. *)
Fixpoint strcmp_eq (a b : list Z) : result bool :=
  match a, b with
  | x :: a, y :: b => if x =? y then if x =? 0 then Ok true else strcmp_eq a b else Ok false
  | _, _ => Fail OutOfBounds
  end.

(** ** Files *)

Definition PCB_FindFreeSlot p : result Z :=
  r ← for_ret 2 MAX_OPEN (λ i _,
        e ← aget (fileTable p) i;
        Ok (match e with None => inr i | Some _ => inl tt end)) tt;
  Ok (match r with inl _ => -1 | inr i => i end).

(** [name]: a C string; [raw]: what [new] leaves in the name buffer of the file. *)
Definition PCB_Open p h (name raw : list Z) (type : Z) : result (Z * PCB * Host) :=
  r ← for_ret 0 MAX_OPEN (λ i _,
        e ← aget (fileTable p) i;
        match e with
        | None => Ok (inl tt)
        | Some o => same ← strcmp_eq (filename o) (name ++ [0]); Ok (if same then inr tt else inl tt)
        end) tt;
  match r with
  | inr _ => Ok (-1, p, h)
  | inl _ =>
      freeSlot ← PCB_FindFreeSlot p;
      if freeSlot =? -1 then Ok (-1, p, h)
      else if (type =? 0) || (type =? 1) then
        '(o, h) ← Open h name type raw;
        ft ← aset (fileTable p) freeSlot o;
        Ok (match o with Some _ => freeSlot | None => -1 end, with_files p ft, h)
      else if type =? 2 then Ok (0, p, h)
      else Ok (1, p, h)
  end.

Definition PCB_Close p h (id : Z) : result (Z * PCB * Host) :=
  if (0 <=? id) && (id <=? 9) then
    e ← aget (fileTable p) id;
    match e with
    | Some o => h ← OpenFile_delete h o; ft ← aset (fileTable p) id None; Ok (0, with_files p ft, h)
    | None => Ok (-1, p, h)
    end
  else Ok (-1, p, h).

(** The second loop of [readString]; the first cleared the buffer. *)
Fixpoint read_line (idx length : Z) buffer inp : result (Z * list Z * list Z) :=
  if length <=? idx then Ok (idx, buffer, inp) else
  match inp with
  | [] => Fail Blocked
  | ch :: inp =>
      if ch =? char_EOF then read_line idx length buffer inp
      else if ch =? newline then Ok (idx, buffer, inp)
      else buffer ← aset buffer idx ch; read_line (idx + 1) length buffer inp
  end.

Definition readString buffer (length : Z) inp : result (Z * list Z * list Z) :=
  buffer ← for_each 0 length (λ idx buffer, aset buffer idx 0) buffer;
  '(idx, buffer, inp) ← read_line 0 length buffer inp;
  buffer ← aset buffer (idx + 1) 0;
  Ok (idx, buffer, inp).

Definition PCB_Read p h inp buffer (size id : Z) : result (Z * PCB * Host * list Z * list Z) :=
  if (id <? 0) || (id >? 9) then Ok (-1, p, h, inp, buffer)
  else if id =? CONSOLE_OUTPUT then Ok (-1, p, h, inp, buffer)
  else
    e ← aget (fileTable p) id;
    match e with
    | None => Ok (-1, p, h, inp, buffer)
    | Some o =>
        '(oldPos, o) ← GetCurrentPos h o;
        ft ← aset (fileTable p) id (Some o);
        if id =? CONSOLE_INPUT then
          '(actualSize, buffer, inp) ← readString buffer size inp;
          Ok (actualSize, with_files p ft, h, inp, buffer)
        else
          '(bs, h, o) ← OpenFile_Read h o size;
          buffer ← blk_put buffer 0 bs;
          if Z.of_nat (length bs) >? 0 then
            '(newPos, o) ← GetCurrentPos h o;
            ft ← aset ft id (Some o);
            Ok (newPos - oldPos, with_files p ft, h, inp, buffer)
          else ft ← aset ft id (Some o); Ok (-2, with_files p ft, h, inp, buffer)
    end.

(** [while (buffer[i] != 0 && buffer[i] != '\n' && i < size) PutChar (buffer[i++])];
    [n] bounds the rounds. *)
Fixpoint put_line (n : nat) (i size : Z) buffer out : result (Z * list Z) :=
  c ← aget buffer i;
  if negb (c =? 0) && negb (c =? newline) && (i <? size) then
    match n with O => Fail OutOfFuel | S n => put_line n (i + 1) size buffer (out ++ [c]) end
  else Ok (i, out).

Definition PCB_Write p h out buffer (size id : Z) : result (Z * PCB * Host * list Z * list Z) :=
  if (id <? 0) || (id >? 9) then Ok (-1, p, h, out, buffer)
  else if id =? CONSOLE_INPUT then Ok (-1, p, h, out, buffer)
  else
    e ← aget (fileTable p) id;
    match e with
    | None => Ok (-1, p, h, out, buffer)
    | Some o =>
        if type o =? 1 then Ok (-1, p, h, out, buffer)
        else
          '(oldPos, o) ← GetCurrentPos h o;
          ft ← aset (fileTable p) id (Some o);
          if id =? CONSOLE_OUTPUT then
            '(i, out) ← put_line (length buffer) 0 size buffer out;
            buffer ← aset buffer i newline;
            Ok (i, with_files p ft, h, out ++ [newline], buffer)
          else
            bs ← blk_get buffer 0 size;
            '(n, h, o) ← OpenFile_Write h o bs;
            if n >? 0 then
              '(newPos, o) ← GetCurrentPos h o;
              ft ← aset ft id (Some o);
              Ok (newPos - oldPos, with_files p ft, h, out, buffer)
            else ft ← aset ft id (Some o); Ok (-1, with_files p ft, h, out, buffer)
    end.

Definition PCB_Seek p h (position id : Z) : result (Z * PCB * Host) :=
  if (id <? 0) || (id >? 9) then Ok (-1, p, h)
  else
    e ← aget (fileTable p) id;
    match e with
    | None => Ok (-1, p, h)
    | Some o =>
        if (id =? 1) || (id =? 0) then Ok (-1, p, h)
        else
          '(position, h) ← (if position =? -1 then Length h o else Ok (position, h));
          '(len, h) ← Length h o;
          if (position >? len) || (position <? 0) then Ok (-1, p, h)
          else
            '(_, h, o) ← Seek h o position;
            ft ← aset (fileTable p) id (Some o);
            Ok (position, with_files p ft, h)
    end.

(** The destructor, as far as it gets: when the process has a thread,
    [thread->Finish ()] does not return, and the files stay open. *)
Definition PCB_delete p h : result Host :=
  match thread p with
  | Some _ => Fail Blocked
  | None => for_each 0 MAX_OPEN (λ i h,
      e ← aget (fileTable p) i; match e with Some o => OpenFile_delete h o | None => Ok h end) h
  end.

(** ** A file of a process as its program sees it

    The contents and the position; [ro]: opened read-only.  A call gives its
    result and what it leaves in the buffer. *)

Inductive pcall := PRead (buffer : list Z) (size : Z) | PWrite (buffer : list Z) (size : Z) | PSeek (position : Z).

Definition spec_pcall (ro : bool) (v : list Z * Z) (c : pcall) : Z * list Z * (list Z * Z) :=
  let '(content, pos) := v in
  match c with
  | PRead buffer size =>
      let bs := bytes_at content pos size in
      if bool_decide (bs = []) then (-2, buffer, v)
      else (Z.of_nat (length bs), bs ++ drop (length bs) buffer, (content, pos + Z.of_nat (length bs)))
  | PWrite buffer size =>
      if ro || (size =? 0) then (-1, buffer, v)
      else (size, buffer, (overwrite content pos (take (Z.to_nat size) buffer), pos + size))
  | PSeek position =>
      let target := if position =? -1 then Z.of_nat (length content) else position in
      if (target >? Z.of_nat (length content)) || (target <? 0) then (-1, [], v)
      else (target, [], (content, target))
  end.

Fixpoint spec_pcalls ro v (cs : list pcall) : list (Z * list Z) * (list Z * Z) :=
  match cs with
  | [] => ([], v)
  | c :: cs => let '(r, v) := spec_pcall ro v c in let '(rs, v) := spec_pcalls ro v cs in (r :: rs, v)
  end.

Definition pcb_call (id : Z) (s : PCB * Host) (c : pcall) : result (Z * list Z * (PCB * Host)) :=
  let '(p, h) := s in
  match c with
  | PRead buffer size => '(r, p, h, _, buffer) ← PCB_Read p h [] buffer size id; Ok (r, buffer, (p, h))
  | PWrite buffer size => '(r, p, h, _, buffer) ← PCB_Write p h [] buffer size id; Ok (r, buffer, (p, h))
  | PSeek position => '(r, p, h) ← PCB_Seek p h position id; Ok (r, [], (p, h))
  end.

Fixpoint pcb_calls (id : Z) (s : PCB * Host) (cs : list pcall) : result (list (Z * list Z) * (PCB * Host)) :=
  match cs with
  | [] => Ok ([], s)
  | c :: cs => '(r, s) ← pcb_call id s c; '(rs, s) ← pcb_calls id s cs; Ok (r :: rs, s)
  end.

(** The buffers hold what they are said to, and the file stays within an [int]. *)
Definition pcall_ok (c : pcall) : Prop :=
  match c with PRead b n | PWrite b n => 0 <= n <= Z.of_nat (length b) | PSeek p => is_s32 p end.

Definition written (c : pcall) : Z := match c with PWrite _ n => n | _ => 0 end.
Definition total_written (cs : list pcall) : Z := foldr (λ c n, written c + n) 0 cs.

Definition room (v : list Z * Z) (n : Z) : Prop :=
  0 <= v.2 <= Z.of_nat (length v.1) ∧ Z.of_nat (length v.1) + n < 2 ^ 31.

(** Slot [id] of [p] is open on the inode [ino], which shows as [v]. *)
Definition file_open p h id o ino (v : list Z * Z) : Prop :=
  2 <= id <= 9 ∧ fileTable p !! Z.to_nat id = Some (Some o) ∧ opens h o ino (mkView v.1 v.2 v.2).

(** What a call on slot [id] leaves alone. *)
Definition others_kept p h p' h' (id : Z) (o o' : OpenFile) ino : Prop :=
  p' = with_files p (<[Z.to_nat id := Some o']> (fileTable p)) ∧ file o' = file o ∧ type o' = type o ∧ others h h' o ino.

(** ** The operations on an open file *)

Lemma bytes_at_le c pos n : 0 <= pos → 0 <= n → pos <= Z.of_nat (length c) →
  pos + Z.of_nat (length (bytes_at c pos n)) <= Z.of_nat (length c) ∧ Z.of_nat (length (bytes_at c pos n)) <= n.
Proof. intros. unfold bytes_at. rewrite length_take, length_drop. lia. Qed.

Lemma length_overwrite c pos bs : 0 <= pos <= Z.of_nat (length c) →
  Z.of_nat (length (overwrite c pos bs)) = Z.max (Z.of_nat (length c)) (pos + Z.of_nat (length bs)).
Proof.
  intros. unfold overwrite. case_decide as Hb; [subst; cbn; lia |].
  rewrite !length_app, length_take, length_replicate, length_drop. lia.
Qed.

Lemma with_offset_id o (p : Z) : currentOffset o = p → with_offset o p = o.
Proof. intros <-. by destruct o. Qed.

Lemma GetCurrentPos_at h o ino c (p : Z) : opens h o ino (mkView c p p) → GetCurrentPos h o = Ok (p, o).
Proof.
  intros Ho. unfold GetCurrentPos. rewrite (Tell_spec _ _ _ _ Ho). destruct Ho as (_ & _ & Hc & Hp). cbn in *.
  rewrite s32_id by done. by rewrite with_offset_id.
Qed.

(** [file_call_spec] again, with what does not change in the [OpenFile]. *)
Lemma file_call_at h o ino v c r v' : opens h o ino v → fcall_ok c → view_call v c = Ok (r, v') →
  ∃ h' o', file_call h o c = Ok (r, h', o') ∧ opens h' o' ino v' ∧ others h h' o ino ∧
    file o' = file o ∧ type o' = type o ∧ filename o' = filename o.
Proof.
  intros Ho Hc Hv. pose proof (file_call_spec h o ino v c Ho Hc) as Hs. rewrite Hv in Hs.
  destruct Hs as (h' & o' & Heq & _ & Ho' & Hx). exists h', o'. split; [done |]. split; [done |]. split; [done |].
  destruct c; cbn [file_call] in Heq; unfold Seek, OpenFile_Read, OpenFile_Write, GetCurrentPos in Heq;
    repeat (apply bind_Ok in Heq as (? & ? & Heq); repeat case_match; simplify_eq/=);
    repeat match goal with
      | H : (_ ← _; _) = Ok _ |- _ => apply bind_Ok in H as (? & ? & H); repeat case_match; simplify_eq/=
      end; try done.
Qed.

Lemma Read_at h o ino c (p : Z) n : opens h o ino (mkView c p p) → 0 <= p → 0 <= n → room (c, p) 0 →
  ∃ h' o', OpenFile_Read h o n = Ok (bytes_at c p n, h', o') ∧
    opens h' o' ino (mkView c (p + Z.of_nat (length (bytes_at c p n))) (p + Z.of_nat (length (bytes_at c p n)))) ∧
    others h h' o ino ∧ file o' = file o ∧ type o' = type o ∧ filename o' = filename o.
Proof.
  intros Ho Hp Hn [Hr1 Hr2]. cbn in *. destruct (bytes_at_le c p n) as [Hb _]; [lia.. |].
  destruct (file_call_at h o ino _ (FRead n) (RBytes (bytes_at c p n))
    (mkView c (p + Z.of_nat (length (bytes_at c p n))) (p + Z.of_nat (length (bytes_at c p n)))) Ho) as (h' & o' & Heq & Hrest).
  - done.
  - cbn. unfold view_read. destruct (Z.leb_spec 0 p); [| lia]. destruct (Z.ltb_spec n 0); [lia |]. cbn.
    rewrite s32_id by (unfold is_s32; lia). done.
  - exists h', o'. split; [| done]. cbn [file_call] in Heq. apply bind_Ok in Heq as ([[bs h1] o1] & -> & [= -> -> ->]). done.
Qed.

Lemma Write_at h o ino c (p : Z) bs : opens h o ino (mkView c p p) → room (c, p) (Z.of_nat (length bs)) →
  ∃ h' o', OpenFile_Write h o bs = Ok (Z.of_nat (length bs), h', o') ∧
    opens h' o' ino (mkView (overwrite c p bs) (p + Z.of_nat (length bs)) (p + Z.of_nat (length bs))) ∧
    others h h' o ino ∧ file o' = file o ∧ type o' = type o ∧ filename o' = filename o.
Proof.
  intros Ho [Hr1 Hr2]. cbn in *.
  destruct (file_call_at h o ino _ (FWrite bs) (RInt (Z.of_nat (length bs)))
    (mkView (overwrite c p bs) (p + Z.of_nat (length bs)) (p + Z.of_nat (length bs))) Ho) as (h' & o' & Heq & Hrest).
  - done.
  - cbn. destruct (Z.leb_spec 0 p); [| lia]. cbn. rewrite s32_id by (unfold is_s32; lia). done.
  - exists h', o'. split; [| done]. cbn [file_call] in Heq. apply bind_Ok in Heq as ([[n h1] o1] & -> & [= -> -> ->]). done.
Qed.

Lemma Length_at h o ino c (p : Z) : opens h o ino (mkView c p p) → room (c, p) 0 →
  ∃ h', Length h o = Ok (Z.of_nat (length c), h') ∧ opens h' o ino (mkView c p p) ∧ others h h' o ino.
Proof.
  intros Ho [Hr1 Hr2]. cbn in *. pose proof (Length_spec h o ino _ Ho) as Hl. cbv zeta in Hl. cbn [contents pos] in Hl.
  rewrite s32_id in Hl by (unfold is_s32; lia).
  destruct (Z.leb_spec 0 (Z.of_nat (length c))); [| lia]. by destruct (Z.leb_spec 0 p); [| lia].
Qed.

Lemma Seek_at h o ino c (p : Z) q : opens h o ino (mkView c p p) → 0 <= q < 2 ^ 31 →
  ∃ h' o', Seek h o q = Ok (q, h', o') ∧ opens h' o' ino (mkView c q q) ∧
    others h h' o ino ∧ file o' = file o ∧ type o' = type o ∧ filename o' = filename o.
Proof.
  intros Ho Hq. destruct (file_call_at h o ino _ (FSeek q) (RInt q) (mkView c q q) Ho) as (h' & o' & Heq & Hrest).
  - cbn. unfold is_s32. lia.
  - cbn. by destruct (Z.leb_spec 0 q); [| lia].
  - exists h', o'. split; [| done]. cbn [file_call] in Heq. apply bind_Ok in Heq as ([[n h1] o1] & -> & [= -> -> ->]). done.
Qed.

Lemma with_files_twice p f g : with_files (with_files p f) g = with_files p g.
Proof. done. Qed.

Lemma blk_put_front {A} (l k : list A) : (length k <= length l)%nat → blk_put l 0 k = Ok (k ++ drop (length k) l).
Proof.
  intros Hl. rewrite blk_put_in by lia. f_equal. apply list_eq. intros i.
  destruct (decide (i < length k)%nat) as [Hi|Hi].
  - rewrite list_lookup_inserts by lia. rewrite lookup_app_l by done. f_equal. lia.
  - rewrite list_lookup_inserts_ge by lia. rewrite lookup_app_r, lookup_drop by lia. f_equal. lia.
Qed.

Lemma blk_get_front {A} (l : list A) n : 0 <= n <= Z.of_nat (length l) → blk_get l 0 n = Ok (take (Z.to_nat n) l).
Proof. intros Hn. apply blk_get_Ok. split_and!; [lia.. |]. by rewrite drop_0. Qed.

Lemma slot_get p h id o ino v : file_open p h id o ino v → aget (fileTable p) id = Ok (Some o).
Proof. intros (Hid & Hs & _). apply aget_Ok. split; [lia | done]. Qed.

Lemma slot_set p h id o ino v x : file_open p h id o ino v →
  aset (fileTable p) id x = Ok (<[Z.to_nat id := x]> (fileTable p)).
Proof. intros (Hid & Hs & _). apply lookup_lt_Some in Hs. rewrite aset_in by lia. done. Qed.

Lemma slot_set_twice p h id o ino v x y : file_open p h id o ino v →
  aset (<[Z.to_nat id := x]> (fileTable p)) id y = Ok (<[Z.to_nat id := y]> (fileTable p)).
Proof.
  intros (Hid & Hs & _). apply lookup_lt_Some in Hs. rewrite aset_in by (rewrite length_insert; lia).
  by rewrite list_insert_insert_eq.
Qed.

Lemma slot_checks p h id o ino v : file_open p h id o ino v →
  (id <? 0) || (id >? 9) = false ∧ (id =? CONSOLE_INPUT) = false ∧ (id =? CONSOLE_OUTPUT) = false ∧
  (id =? 1) || (id =? 0) = false.
Proof. intros ((H1 & H2) & _). unfold CONSOLE_INPUT, CONSOLE_OUTPUT. split_and!; lia. Qed.

(** The slot after a call that leaves it holding [o']. *)
Lemma slot_after p h id o ino v h' o' v' : file_open p h id o ino v → opens h' o' ino (mkView v'.1 v'.2 v'.2) →
  file_open (with_files p (<[Z.to_nat id := Some o']> (fileTable p))) h' id o' ino v'.
Proof.
  intros (Hid & Hs & _) Ho. split; [done |]. split; [| done]. cbn. apply lookup_lt_Some in Hs.
  by rewrite list_lookup_insert_eq.
Qed.

Lemma room_after ro v c n : pcall_ok c → room v (written c + n) → 0 <= n → room (spec_pcall ro v c).2 n.
Proof.
  destruct v as [content pos]. intros Hc [H1 H2] Hn. cbn in *. unfold room.
  destruct c as [buffer size|buffer size|target]; cbn in *.
  - case_bool_decide; cbn; [lia |]. pose proof (bytes_at_le content pos size). lia.
  - destruct (ro || (size =? 0)); cbn; [lia |]. rewrite length_overwrite by lia. rewrite length_take. lia.
  - destruct (target =? -1); case_match eqn:E; cbn; [lia | | lia |]; apply orb_false_iff in E; lia.
Qed.

Lemma pcb_call_spec p h id o ino v c : file_open p h id o ino v → pcall_ok c → room v (written c) →
  ∃ p' h' o', let '(r, v') := spec_pcall (type o =? 1) v c in
    pcb_call id (p, h) c = Ok (r, (p', h')) ∧ file_open p' h' id o' ino v' ∧ others_kept p h p' h' id o o' ino.
Proof.
  intros Hf Hc Hr. pose proof (slot_checks _ _ _ _ _ _ Hf) as (E1 & E2 & E3 & E4).
  pose proof Hf as (Hid & Hs & Ho). destruct v as [content pos]. cbn [fst snd] in *.
  destruct c as [buffer size|buffer size|target]; cbn [spec_pcall pcb_call pcall_ok written] in *.
  - unfold PCB_Read. rewrite E1, E3, (slot_get _ _ _ _ _ _ Hf). cbn [rbind].
    rewrite (GetCurrentPos_at _ _ _ _ _ Ho). cbn [rbind]. rewrite (slot_set _ _ _ _ _ _ _ Hf), E2. cbn [rbind].
    destruct (Read_at h o ino content pos size Ho) as (h' & o' & -> & Ho' & Hx & Hfd & Hty & _); [apply Hr | lia | apply Hr |].
    cbn [rbind]. set (bs := bytes_at content pos size) in *.
    assert (Z.of_nat (length bs) <= size) as Hbs by (apply bytes_at_le; destruct Hr; cbn in *; lia).
    rewrite blk_put_front by lia. cbn [rbind]. case_bool_decide as Hnil.
    + rewrite Hnil. cbn [length Z.of_nat Z.gtb Z.compare take drop app Z.to_nat rbind].
      rewrite (slot_set_twice _ _ _ _ _ _ _ _ Hf). cbn [rbind]. rewrite drop_0.
      do 3 eexists. split; [done |]. split; [| done]. apply (slot_after _ _ _ _ _ _ _ _ _ Hf).
      rewrite Hnil in Ho'. cbn in Ho'. by rewrite Z.add_0_r in Ho'.
    + assert (length bs ≠ 0%nat) by (by intros ?%length_zero_iff_nil). assert (Z.of_nat (length bs) >? 0 = true) as -> by lia.
      rewrite (GetCurrentPos_at _ _ _ _ _ Ho'). cbn [rbind]. rewrite (slot_set_twice _ _ _ _ _ _ _ _ Hf). cbn [rbind].
      replace (pos + Z.of_nat (length bs) - pos) with (Z.of_nat (length bs)) by lia.
      do 3 eexists. split; [done |]. split; [| done]. by apply (slot_after _ _ _ _ _ _ _ _ _ Hf).
  - unfold PCB_Write. rewrite E1, E2, (slot_get _ _ _ _ _ _ Hf). cbn [rbind].
    destruct (type o =? 1); cbn [orb].
    { exists p, h, o. split; [done |]. split; [done |]. split; [| split; [done | split; [done | apply others_refl]]].
      rewrite list_insert_id by done. by destruct p. }
    rewrite (GetCurrentPos_at _ _ _ _ _ Ho). cbn [rbind]. rewrite (slot_set _ _ _ _ _ _ _ Hf), E3. cbn [rbind].
    rewrite blk_get_front by lia. cbn [rbind]. set (bs := take (Z.to_nat size) buffer).
    assert (Z.of_nat (length bs) = size) as Hbs by (unfold bs; rewrite length_take; lia).
    destruct (Write_at h o ino content pos bs Ho) as (h' & o' & -> & Ho' & Hx & Hfd & Hty & _); [by rewrite Hbs |].
    cbn [rbind]. rewrite Hbs in *. destruct (Z.eqb_spec size 0) as [->|Hz].
    + cbn [Z.gtb Z.compare]. rewrite (slot_set_twice _ _ _ _ _ _ _ _ Hf). cbn [rbind].
      do 3 eexists. split; [done |]. split; [| done]. apply (slot_after _ _ _ _ _ _ _ _ _ Hf).
      unfold bs, overwrite in Ho'. cbn in Ho'. by rewrite Z.add_0_r in Ho'.
    + assert (size >? 0 = true) as -> by lia.
      rewrite (GetCurrentPos_at _ _ _ _ _ Ho'). cbn [rbind]. rewrite (slot_set_twice _ _ _ _ _ _ _ _ Hf). cbn [rbind].
      replace (pos + size - pos) with size by lia.
      do 3 eexists. split; [done |]. split; [| done]. by apply (slot_after _ _ _ _ _ _ _ _ _ Hf).
  - unfold PCB_Seek. rewrite E1, (slot_get _ _ _ _ _ _ Hf). cbn [rbind]. rewrite E4.
    assert (∃ h1, (if target =? -1 then Length h o else Ok (target, h)) =
      Ok (if target =? -1 then Z.of_nat (length content) else target, h1) ∧
      opens h1 o ino (mkView content pos pos) ∧ others h h1 o ino) as (h1 & -> & Ho1 & Hx1).
    { destruct (target =? -1); [by apply Length_at |]. exists h. split; [done |]. split; [done | apply others_refl]. }
    cbn [rbind]. destruct (Length_at h1 o ino content pos Ho1 Hr) as (h2 & -> & Ho2 & Hx2). cbn [rbind].
    pose proof (others_trans _ _ _ _ _ Hx1 Hx2) as Hx. set (q := if target =? -1 then _ else _).
    destruct ((q >? _) || (q <? 0)) eqn:Hq; cbn [rbind].
    + exists p, h2, o. split; [done |]. split; [done |]. split; [| split; [done | split; [done | done]]].
      rewrite list_insert_id by done. by destruct p.
    + apply orb_false_iff in Hq. destruct Hr as [_ Hr]. cbn in Hr.
      destruct (Seek_at h2 o ino content pos q Ho2) as (h3 & o3 & -> & Ho3 & Hx3 & Hfd & Hty & _); [lia |].
      cbn [rbind]. rewrite (slot_set _ _ _ _ _ _ _ Hf). cbn [rbind].
      do 3 eexists. split; [done |]. split; [by apply (slot_after _ _ _ _ _ _ _ _ _ Hf) |].
      split; [done |]. split; [done |]. split; [done |]. by eapply others_trans.
Qed.

Lemma total_written_nonneg cs : Forall pcall_ok cs → 0 <= total_written cs.
Proof.
  induction 1 as [|c cs Hc _ IH]; cbn; [lia |]. fold (total_written cs). destruct c; cbn in *; lia.
Qed.

Lemma room_after_all ro cs : ∀ v, Forall pcall_ok cs → room v (total_written cs) → room (spec_pcalls ro v cs).2 0.
Proof.
  induction cs as [|c cs IH]; intros v Hcs Hr; [done |]. inversion_clear Hcs as [|? ? Hc Hcs']. cbn in Hr |- *.
  fold (total_written cs) in Hr.
  pose proof (room_after ro v c (total_written cs) Hc Hr (total_written_nonneg cs Hcs')) as Hr1.
  destruct (spec_pcall ro v c) as [r v1]. specialize (IH v1 Hcs' Hr1). by destruct (spec_pcalls ro v1 cs).
Qed.

Lemma pcb_calls_spec cs : ∀ p h id o ino v, file_open p h id o ino v → Forall pcall_ok cs → room v (total_written cs) →
  ∃ p' h' o', pcb_calls id (p, h) cs = Ok ((spec_pcalls (type o =? 1) v cs).1, (p', h')) ∧
    file_open p' h' id o' ino (spec_pcalls (type o =? 1) v cs).2 ∧ others_kept p h p' h' id o o' ino.
Proof.
  induction cs as [|c cs IH]; intros p h id o ino v Hf Hcs Hr.
  { exists p, h, o. split; [done |]. split; [done |]. pose proof Hf as (_ & Hs & _).
    split; [by rewrite list_insert_id by done; destruct p |]. split; [done |]. split; [done | apply others_refl]. }
  inversion_clear Hcs as [|? ? Hc Hcs']. cbn [total_written foldr] in Hr. fold (total_written cs) in Hr.
  pose proof (total_written_nonneg cs Hcs') as Hn.
  assert (room v (written c)) as Hrc by (destruct Hr; split; [done | lia]).
  destruct (pcb_call_spec p h id o ino v c Hf Hc Hrc) as (p1 & h1 & o1 & H1).
  pose proof (room_after (type o =? 1) v c (total_written cs) Hc Hr Hn) as Hr1.
  cbn [spec_pcalls pcb_calls]. destruct (spec_pcall (type o =? 1) v c) as [r v1]. destruct H1 as (-> & Hf1 & Hk1).
  cbn [rbind]. destruct Hk1 as (-> & Hfd & Hty & Hx1). destruct (IH _ _ _ _ _ _ Hf1 Hcs' Hr1) as (p2 & h2 & o2 & H2).
  rewrite Hty in H2. destruct (spec_pcalls (type o =? 1) v1 cs) as [rs v2]. destruct H2 as (-> & Hf2 & Hk2). cbn [rbind fst snd] in *.
  destruct Hk2 as (-> & Hfd2 & Hty2 & Hx2).
  exists (with_files p (<[Z.to_nat id := Some o2]> (fileTable p))), h2, o2. split; [| split].
  - cbn [fileTable with_files]. by rewrite list_insert_insert_eq.
  - cbn [fileTable with_files] in Hf2. by rewrite list_insert_insert_eq in Hf2.
  - split; [done |]. split; [congruence |]. split; [congruence |]. eapply others_trans; [exact Hx1 |].
    destruct Hx2 as (? & ? & ? & Hd). split_and!; try done. by rewrite <- Hfd.
Qed.

(** ** Opening and closing *)

Lemma strcmp_eq_both buf1 a buf2 b : c_string buf1 a → c_string buf2 b → strcmp_eq buf1 buf2 = Ok (bool_decide (a = b)).
Proof.
  intros [Ha [r1 ->]] [Hb [r2 ->]]. revert b Hb. induction Ha as [|x a Hx Ha IH]; intros [|y b] Hb; cbn.
  - done.
  - inversion_clear Hb as [|? ? Hy]. by destruct y.
  - destruct (Z.eqb_spec x 0); [done |]. by rewrite bool_decide_eq_false_2.
  - inversion_clear Hb as [|? ? Hy Hb']. destruct (Z.eqb_spec x y) as [->|Hne].
    + destruct (Z.eqb_spec y 0); [done |]. rewrite IH by done. f_equal. apply bool_decide_ext. split; [by intros -> | by intros [= ->]].
    + rewrite bool_decide_eq_false_2; congruence.
Qed.

Lemma strcmp_eq_spec buf name a : c_string buf a → Forall (λ c, c ≠ 0) name →
  strcmp_eq buf (name ++ [0]) = Ok (bool_decide (a = name)).
Proof. intros Ha Hn. apply strcmp_eq_both; [done | split; [done | by exists []]]. Qed.

(** No open file of the process has this name. *)
Definition not_open p (name : list Z) : Prop :=
  ∀ i o, fileTable p !! i = Some (Some o) → ∃ a, c_string (filename o) a ∧ a ≠ name.

(** [i] is the first free slot. *)
Definition first_free p (i : nat) : Prop :=
  (2 <= i < 10)%nat ∧ fileTable p !! i = Some None ∧ ∀ j, (2 <= j < i)%nat → ∃ o, fileTable p !! j = Some (Some o).

Lemma PCB_FindFreeSlot_spec p i : length (fileTable p) = 10%nat → first_free p i → PCB_FindFreeSlot p = Ok (Z.of_nat i).
Proof.
  intros Hl (Hi & Hfree & Hused). unfold PCB_FindFreeSlot.
  destruct (for_ret_rule (λ j (_ : unit), j <= Z.of_nat i) (λ r, r = Z.of_nat i) 2 MAX_OPEN
    (λ i _, e ← aget (fileTable p) i; Ok (match e with None => inr i | Some _ => inl tt end)) tt) as (r & -> & Hr).
  - unfold MAX_OPEN. lia.
  - lia.
  - intros j [] Hj Hle. unfold MAX_OPEN in Hj. destruct (decide (j = Z.of_nat i)) as [->|Hne].
    + rewrite (aget_lookup _ _ _ Hfree). cbn [rbind]. by eexists.
    + destruct (Hused (Z.to_nat j)) as [o Ho]; [lia |].
      rewrite (proj2 (aget_Ok _ _ (Some o))) by (split; [lia | done]). cbn [rbind]. eexists. split; [done |]. cbn. lia.
  - cbn [rbind]. destruct r as [[]|z]; [unfold MAX_OPEN in Hr; lia | by subst].
Qed.

Lemma not_open_scan p name : length (fileTable p) = 10%nat → Forall (λ c, c ≠ 0) name → not_open p name →
  for_ret 0 MAX_OPEN (λ i _,
        e ← aget (fileTable p) i;
        match e with
        | None => Ok (inl tt)
        | Some o => same ← strcmp_eq (filename o) (name ++ [0]); Ok (if same then inr tt else inl tt)
        end) tt = Ok (inl tt).
Proof.
  intros Hl Hn Hno.
  match goal with |- for_ret _ _ ?b _ = _ => destruct (for_ret_rule (λ _ _, True) (λ _, False) 0 MAX_OPEN b tt) as ([[]|[]] & -> & Hr) end;
    [unfold MAX_OPEN; lia | done | | done | done].
  intros i [] Hi _. unfold MAX_OPEN in Hi. destruct (aget_is_Ok (fileTable p) i) as [[o|] He]; [lia | |]; rewrite He; cbn [rbind]; [| by eexists].
  apply aget_Ok in He as [_ He]. destruct (Hno _ _ He) as (a & Ha & Hne).
  rewrite (strcmp_eq_spec _ _ _ Ha Hn), bool_decide_eq_false_2 by done. cbn [rbind]. by eexists.
Qed.

Lemma PCB_Open_spec p h name raw t ino c i : length (fileTable p) = 10%nat → Forall (λ c, c ≠ 0) name →
  not_open p name → first_free p i → names h !! name = Some ino → inodes h !! ino = Some c →
  strlen name <= Z.of_nat (length raw) → t = 0 ∨ t = 1 →
  ∃ o h', PCB_Open p h name raw t = Ok (Z.of_nat i, with_files p (<[i := Some o]> (fileTable p)), h') ∧
    h' = with_fds h (<[file o := (ino, 0)]> (fds h)) ∧ fds h !! file o = None ∧ type o = t ∧
    file_open (with_files p (<[i := Some o]> (fileTable p))) h' (Z.of_nat i) o ino (c, 0).
Proof.
  intros Hl Hn Hno Hi Hname Hino Hraw Ht. unfold PCB_Open. rewrite not_open_scan by done. cbn [rbind].
  rewrite (PCB_FindFreeSlot_spec p i Hl Hi). cbn [rbind]. destruct Hi as (Hi & Hfree & _).
  destruct (Z.eqb_spec (Z.of_nat i) (-1)); [lia |].
  assert ((t =? 0) || (t =? 1) = true) as -> by (destruct Ht as [-> | ->]; done).
  destruct (Open_spec h name t raw ino c Hname Hino Hraw) as (o & h' & Ho & Hh & Hfd & _ & Hv).
  rewrite Ho. cbn [rbind]. rewrite aset_in by lia. rewrite Nat2Z.id. cbn [rbind].
  exists o, h'. split; [done |]. split; [done |]. split; [done |]. split.
  - unfold Open, OpenForReadWrite, host_open in Ho. rewrite Hname in Ho. cbn [negb orb rbind] in Ho.
    destruct (_ =? -1); [done |]. apply bind_Ok in Ho as (o' & Ho & [= -> _]). unfold OpenFile_new in Ho.
    by apply bind_Ok in Ho as (? & _ & [= <-]).
  - split; [lia |]. rewrite Nat2Z.id. split; [| done]. cbn. apply list_lookup_insert_eq. lia.
Qed.

Lemma PCB_Close_spec p h id o ino v : file_open p h id o ino v →
  PCB_Close p h id = Ok (0, with_files p (<[Z.to_nat id := None]> (fileTable p)), with_fds h (delete (file o) (fds h))).
Proof.
  intros Hf. unfold PCB_Close. pose proof Hf as ((H1 & H2) & _ & Ho).
  assert ((0 <=? id) && (id <=? 9) = true) as -> by lia. rewrite (slot_get _ _ _ _ _ _ Hf). cbn [rbind].
  unfold OpenFile_delete, Close. rewrite (proj1 Ho), bool_decide_eq_true_2 by done. cbn [rbind].
  by rewrite (slot_set _ _ _ _ _ _ _ Hf).
Qed.

(** C26: a process's files are files.  [Open] on an existing name that the
    process has not open gives the first free slot; any sequence of Read, Write
    and Seek calls on it gives the results of the same calls on the contents and
    a position that never leaves them (-2 at the end, -1 for a write to a file
    opened read-only, for an empty write, for a position outside the file);
    [Close] then leaves the process and every descriptor as before, and the
    contents are on the host.  The results are those of the code, where its
    comments promise others: syscall.h has Close return 1 (it is 0) and Read
    whatever is available at the end (it is -2), exception.cc has Open return the type
    (it is the slot). *)
Theorem process_file_session p h name raw t ino c i cs (Hl : length (fileTable p) = 10%nat)
    (Hn : Forall (λ c, c ≠ 0) name) (Hno : not_open p name) (Hi : first_free p i)
    (Hname : names h !! name = Some ino) (Hino : inodes h !! ino = Some c)
    (Hraw : strlen name <= Z.of_nat (length raw)) (Ht : t = 0 ∨ t = 1)
    (Hcs : Forall pcall_ok cs) (Hroom : Z.of_nat (length c) + total_written cs < 2 ^ 31) :
  ∃ p1 h1 p2 h2 h3, let '(rs, (c', pos)) := spec_pcalls (t =? 1) (c, 0) cs in
    PCB_Open p h name raw t = Ok (Z.of_nat i, p1, h1) ∧
    pcb_calls (Z.of_nat i) (p1, h1) cs = Ok (rs, (p2, h2)) ∧
    PCB_Close p2 h2 (Z.of_nat i) = Ok (0, p, h3) ∧
    0 <= pos <= Z.of_nat (length c') ∧
    inodes h3 = <[ino := c']> (inodes h) ∧ names h3 = names h ∧ fds h3 = fds h.
Proof.
  destruct (PCB_Open_spec p h name raw t ino c i) as (o & h1 & Hopen & Hh1 & Hfree & Hty & Hf1); try done.
  assert (room (c, 0) (total_written cs)) as Hr by (split; cbn; lia).
  destruct (pcb_calls_spec cs _ _ _ _ _ _ Hf1 Hcs Hr) as (p2 & h2 & o2 & Hcalls & Hf2 & Hp2 & Hfd & _ & Hx).
  destruct (room_after_all (t =? 1) cs (c, 0) Hcs Hr) as [Hpos _].
  rewrite Hty in *. destruct (spec_pcalls (t =? 1) (c, 0) cs) as [rs [c' pos]]. cbn [fst snd] in *.
  do 5 eexists. split; [exact Hopen |]. split; [exact Hcalls |].
  split; [| split; [done |]].
  - rewrite (PCB_Close_spec _ _ _ _ _ _ Hf2), Hp2, Nat2Z.id. cbn. rewrite !list_insert_insert_eq.
    rewrite (list_insert_id _ _ None) by apply Hi. by destruct p.
  - destruct Hf2 as (_ & _ & Hd2 & Hc2 & _). cbn in *. destruct Hx as (Hx1 & _ & Hx3 & Hx4). subst h1. cbn in *.
    split; [| split; [done |]]; apply map_eq; intros j.
    + destruct (decide (j = ino)) as [->|Hne]; [by rewrite lookup_insert_eq | by rewrite lookup_insert_ne, Hx3].
    + destruct (decide (j = file o2)) as [->|Hne]; [by rewrite lookup_delete_eq, Hfd, Hfree |].
      rewrite lookup_delete_ne, Hx4, lookup_insert_ne by congruence. done.
Qed.

(** A process with the console in its first two slots. *)
Definition demo_console (fd : Z) (name : list Z) : OpenFile := mkOpenFile fd 0 (fd + 2) (name ++ [0]).
Definition demo_pcb : PCB := mkPCB 0 1 2 None (replicate 32 0) 0 0 (-1)
  ([Some (demo_console 0 stdin); Some (demo_console 1 stdout)] ++ replicate 8 None) 2.
Definition demo_fs : Host :=
  mkHost {[ 0 := [1; 2; 3]; 1 := []; 2 := [] ]} {[ [97] := 0; stdin := 1; stdout := 2 ]} {[ 0 := (1, 0); 1 := (2, 0) ]} 3.
Definition demo_session : list pcall :=
  [PRead [0; 0; 0] 2; PSeek (-1); PWrite [9] 1; PSeek 0; PRead [7; 7; 7; 7; 7] 5; PRead [7] 1; PSeek 5].

Lemma process_file_session_witness : ∃ p1 h1 p2 h2 h3,
  PCB_Open demo_pcb demo_fs [97] [0; 0] 0 = Ok (2, p1, h1) ∧
  pcb_calls 2 (p1, h1) demo_session =
    Ok ([(2, [1; 2; 0]); (3, []); (1, [9]); (0, []); (4, [1; 2; 3; 9; 7]); (-2, [7]); (-1, [])], (p2, h2)) ∧
  PCB_Close p2 h2 2 = Ok (0, demo_pcb, h3) ∧ 0 <= 4 <= 4 ∧
  inodes h3 = <[0 := [1; 2; 3; 9]]> (inodes demo_fs) ∧ names h3 = names demo_fs ∧ fds h3 = fds demo_fs.
Proof.
  apply (process_file_session demo_pcb demo_fs [97] [0; 0] 0 0 [1; 2; 3] 2 demo_session); try reflexivity.
  - by repeat constructor.
  - intros i o Hi. destruct i as [|[|i]]; cbn in Hi; simplify_eq.
    + exists stdin. split; [split; [by repeat constructor | by exists []] | done].
    + exists stdout. split; [split; [by repeat constructor | by exists []] | done].
    + exfalso. clear -Hi. do 8 (destruct i as [|i]; [done |]). cbn in Hi. done.
  - split; [lia |]. split; [done |]. intros j Hj. lia.
  - cbn. unfold strlen. cbn. lia.
  - by left.
  - repeat constructor; cbn; unfold is_s32; lia.
Defined.

(** ** Refusals *)

(** What a file call refuses it refuses cleanly.  On an identifier
    outside the table or on a slot that is not open, Close, Read, Write and
    Seek give -1, as do Read on the console's output, Write on its input and
    Seek on either; Open gives -1 for a name the process has open already, and
    for a name that is on no disk.  In each case the process, the host, the
    streams and the buffer are unchanged. *)
Theorem file_call_refusals p h inp out buffer size position name raw t (Hl : length (fileTable p) = 10%nat) :
  (∀ id, ¬ 0 <= id <= 9 ∨ fileTable p !! Z.to_nat id = Some None →
    PCB_Close p h id = Ok (-1, p, h) ∧ PCB_Read p h inp buffer size id = Ok (-1, p, h, inp, buffer) ∧
    PCB_Write p h out buffer size id = Ok (-1, p, h, out, buffer) ∧ PCB_Seek p h position id = Ok (-1, p, h)) ∧
  PCB_Read p h inp buffer size CONSOLE_OUTPUT = Ok (-1, p, h, inp, buffer) ∧
  PCB_Write p h out buffer size CONSOLE_INPUT = Ok (-1, p, h, out, buffer) ∧
  PCB_Seek p h position CONSOLE_INPUT = Ok (-1, p, h) ∧ PCB_Seek p h position CONSOLE_OUTPUT = Ok (-1, p, h) ∧
  (∀ i o, fileTable p !! i = Some (Some o) → c_string (filename o) name →
    (∀ j o', (j < i)%nat → fileTable p !! j = Some (Some o') → ∃ a, c_string (filename o') a) →
    PCB_Open p h name raw t = Ok (-1, p, h)) ∧
  (∀ i, Forall (λ c, c ≠ 0) name → not_open p name → first_free p i → names h !! name = None → t = 0 ∨ t = 1 →
    PCB_Open p h name raw t = Ok (-1, p, h)).
Proof.
  assert (∀ position id, id = CONSOLE_INPUT ∨ id = CONSOLE_OUTPUT → PCB_Seek p h position id = Ok (-1, p, h)) as Hseek.
  { intros q id Hid. unfold PCB_Seek. destruct (aget_is_Ok (fileTable p) id) as [e He];
      [unfold CONSOLE_INPUT, CONSOLE_OUTPUT in *; lia |]. rewrite He. destruct Hid as [-> | ->]; by destruct e. }
  split; [| split; [done | split; [done | split; [by apply Hseek; left | split; [by apply Hseek; right | split]]]]].
  - intros id [Hid|Hid]; unfold PCB_Close, PCB_Read, PCB_Write, PCB_Seek.
    + assert ((id <? 0) || (id >? 9) = true) as -> by lia. by assert ((0 <=? id) && (id <=? 9) = false) as -> by lia.
    + destruct ((id <? 0) || (id >? 9)) eqn:Hr; [by assert ((0 <=? id) && (id <=? 9) = false) as -> by lia |].
      assert ((0 <=? id) && (id <=? 9) = true) as -> by lia.
      rewrite (proj2 (aget_Ok (fileTable p) id None)) by (split; [lia | done]). cbn [rbind].
      split; [done |]. split; [by destruct (id =? _) |]. split; [by destruct (id =? _) | done].
  - intros i o Hi Hs Hprev. unfold PCB_Open.
    match goal with |- context [for_ret 0 MAX_OPEN ?b tt] =>
      destruct (for_ret_rule (λ j _, j <= Z.of_nat i) (λ _, True) 0 MAX_OPEN b tt) as (r & -> & Hr) end.
    + unfold MAX_OPEN. lia.
    + lia.
    + intros j [] Hj Hle. unfold MAX_OPEN in Hj. destruct (decide (j = Z.of_nat i)) as [->|Hne].
      * rewrite (aget_lookup _ _ _ Hi). cbn [rbind]. rewrite (strcmp_eq_spec _ _ _ Hs) by apply Hs.
        rewrite bool_decide_eq_true_2 by done. by eexists.
      * destruct (aget_is_Ok (fileTable p) j) as [[o'|] He]; [unfold MAX_OPEN in *; lia | |]; rewrite He; cbn [rbind].
        -- apply aget_Ok in He as [_ He]. destruct (Hprev (Z.to_nat j) o' ltac:(lia) He) as [a Ha].
           rewrite (strcmp_eq_spec _ _ _ Ha) by apply Hs. cbn [rbind]. case_bool_decide; eexists; (split; [done |]); cbn; [done | lia].
        -- eexists. split; [done |]. cbn. lia.
    + apply lookup_lt_Some in Hi. cbn [rbind]. destruct r as [[]|[]]; [unfold MAX_OPEN in Hr; lia | done].
  - intros i Hn Hno Hi Hname Ht. unfold PCB_Open. rewrite not_open_scan by done. cbn [rbind].
    rewrite (PCB_FindFreeSlot_spec p i Hl Hi). cbn [rbind]. destruct Hi as (Hi & Hfree & _).
    destruct (Z.eqb_spec (Z.of_nat i) (-1)); [lia |].
    assert ((t =? 0) || (t =? 1) = true) as -> by (destruct Ht as [-> | ->]; done).
    unfold Open, OpenForReadWrite, host_open. rewrite Hname. cbn. rewrite aset_in by lia. cbn. rewrite Nat2Z.id.
    rewrite list_insert_id by done. by destruct p.
Qed.

Lemma file_call_refusals_witness :
  PCB_Read demo_pcb demo_fs [65] [0; 0] 2 7 = Ok (-1, demo_pcb, demo_fs, [65], [0; 0]) ∧
  PCB_Seek demo_pcb demo_fs 0 (-1) = Ok (-1, demo_pcb, demo_fs) ∧
  PCB_Open demo_pcb demo_fs [98] [0; 0] 0 = Ok (-1, demo_pcb, demo_fs).
Proof.
  destruct (file_call_refusals demo_pcb demo_fs [65] [] [0; 0] 2 0 [98] [0; 0] 0 eq_refl) as (H & _ & _ & _ & _ & _ & Ho).
  split; [apply (H 7); by right | split; [apply (H (-1)); left; lia |]]. apply (Ho 2%nat).
  - by repeat constructor.
  - intros i o Hi. destruct i as [|[|i]]; cbn in Hi; simplify_eq.
    + exists stdin. split; [split; [by repeat constructor | by exists []] | done].
    + exists stdout. split; [split; [by repeat constructor | by exists []] | done].
    + exfalso. clear -Hi. do 8 (destruct i as [|i]; [done |]). cbn in Hi. done.
  - split; [lia |]. split; [done |]. intros j Hj. lia.
  - reflexivity.
  - by left.
Defined.

(** ** The console *)

(** What of the characters typed reaches the line: all but the end-of-file marks. *)
Definition typed_line (typed : list Z) : list Z := filter (λ c, c ≠ char_EOF) typed.

Lemma read_line_short typed size rest : newline ∉ typed → ∀ idx buffer,
  0 <= idx → idx + Z.of_nat (length (typed_line typed)) < size → size <= Z.of_nat (length buffer) →
  read_line idx size buffer (typed ++ newline :: rest) =
    Ok (idx + Z.of_nat (length (typed_line typed)), list_inserts (Z.to_nat idx) (typed_line typed) buffer, rest).
Proof.
  unfold typed_line. induction typed as [|ch typed IH]; intros Hnl idx buffer Hidx Hlt Hb.
  - cbn in *. destruct (Z.leb_spec size idx); [lia |]. cbn. by rewrite Z.add_0_r.
  - apply not_elem_of_cons in Hnl as [Hch Hnl]. rewrite filter_cons in *. cbn [app read_line].
    destruct (Z.leb_spec size idx); [lia |]. case_decide as He.
    + destruct (Z.eqb_spec ch char_EOF); [done |]. destruct (Z.eqb_spec ch newline); [congruence |]. cbn [length] in *.
      rewrite aset_in by lia. cbn [rbind]. rewrite IH by (rewrite ?length_insert; lia || done). cbn [list_inserts].
      replace (Z.to_nat (idx + 1)) with (S (Z.to_nat idx)) by lia. do 2 f_equal. f_equal; [lia |].
      symmetry. apply list_insert_inserts_lt. lia.
    + destruct (Z.eqb_spec ch char_EOF); [| done]. by apply IH.
Qed.

Lemma read_line_full typed size rest : newline ∉ typed → ∀ idx buffer,
  0 <= idx <= size → size <= idx + Z.of_nat (length (typed_line typed)) → size <= Z.of_nat (length buffer) →
  ∃ buffer' rest', read_line idx size buffer (typed ++ rest) = Ok (size, buffer', rest') ∧ length buffer' = length buffer.
Proof.
  unfold typed_line. induction typed as [|ch typed IH]; intros Hnl idx buffer Hidx Hle Hb.
  - cbn in *. replace idx with size by lia. exists buffer, rest. split; [| done].
    destruct rest; cbn; by destruct (Z.leb_spec size size); [| lia].
  - apply not_elem_of_cons in Hnl as [Hch Hnl]. rewrite filter_cons in *. cbn [app read_line].
    destruct (Z.leb_spec size idx); [replace idx with size by lia; by eexists _, _ |]. case_decide as He.
    + destruct (Z.eqb_spec ch char_EOF); [done |]. destruct (Z.eqb_spec ch newline); [congruence |]. cbn [length] in *.
      rewrite aset_in by lia. cbn [rbind].
      destruct (IH Hnl (idx + 1) (<[Z.to_nat idx := ch]> buffer)) as (b & r & Hr & Hlen); [lia.. | rewrite length_insert; lia |].
      exists b, r. by rewrite Hlen, length_insert.
    + destruct (Z.eqb_spec ch char_EOF); [| done]. by apply IH.
Qed.

Lemma clear_buffer buffer size : 0 <= size <= Z.of_nat (length buffer) →
  for_each 0 size (λ idx buffer, aset buffer idx 0) buffer =
    Ok (replicate (Z.to_nat size) 0 ++ drop (Z.to_nat size) buffer).
Proof.
  intros Hs. destruct (for_each_rule (λ i b, length b = length buffer ∧
    b = replicate (Z.to_nat i) 0 ++ drop (Z.to_nat i) buffer) 0 size (λ idx buffer, aset buffer idx 0) buffer)
    as (b & -> & _ & ->); [lia | done | | done].
  intros i b Hi (Hlen & ->). rewrite aset_in by lia. eexists. split; [done |]. rewrite length_insert. split; [done |].
  rewrite insert_app_r_alt by (rewrite length_replicate; lia). rewrite length_replicate, Nat.sub_diag.
  destruct (drop (Z.to_nat i) buffer) as [|x l] eqn:Hd.
  { apply (f_equal length) in Hd. rewrite length_drop in Hd. cbn in Hd. lia. }
  replace (Z.to_nat (i + 1)) with (S (Z.to_nat i)) by lia. rewrite replicate_S_end, <- app_assoc. cbn.
  do 2 f_equal. replace (S (Z.to_nat i)) with (Z.to_nat i + 1)%nat by lia. by rewrite <- drop_drop, Hd.
Qed.

(** What a write of [n] characters to the console shows. *)
Fixpoint shown (n : nat) (l : list Z) : list Z :=
  match n, l with
  | S n, c :: l => if (c =? 0) || (c =? newline) then [] else c :: shown n l
  | _, _ => []
  end.

Lemma put_line_spec size buffer : (size < length buffer)%nat → ∀ m n k out, (size - k = m)%nat → (k <= size)%nat → (m <= n)%nat →
  put_line n (Z.of_nat k) (Z.of_nat size) buffer out =
    Ok (Z.of_nat k + Z.of_nat (length (shown (size - k) (drop k buffer))), out ++ shown (size - k) (drop k buffer)).
Proof.
  intros Hs. induction m as [|m IH]; intros n k out Hm Hk Hn; destruct (lookup_lt_is_Some_2 buffer k) as [c Hc]; try lia.
  - assert (k = size) as -> by lia. rewrite Hm. cbn [shown length]. rewrite app_nil_r, Z.add_0_r.
    destruct n; cbn [put_line]; rewrite (aget_lookup _ _ _ Hc); cbn [rbind];
      by destruct (Z.ltb_spec (Z.of_nat size) (Z.of_nat size)); [lia |]; rewrite andb_false_r.
  - destruct n as [|n]; [lia |]. cbn [put_line]. rewrite (aget_lookup _ _ _ Hc). cbn [rbind].
    destruct (Z.ltb_spec (Z.of_nat k) (Z.of_nat size)); [| lia]. rewrite andb_true_r, Hm, (drop_S _ _ _ Hc). cbn [shown].
    rewrite <- negb_orb. destruct ((c =? 0) || (c =? newline)); cbn [negb length].
    + by rewrite app_nil_r, Z.add_0_r.
    + replace (Z.of_nat k + 1) with (Z.of_nat (S k)) by lia. rewrite (IH n (S k)) by lia.
      replace (size - S k)%nat with m by lia. rewrite <- app_assoc. do 2 f_equal. lia.
Qed.

(** The console behind descriptors 0 and 1, with buffers one byte longer
    than the size asked for, which is what the system calls pass.  A read
    returns the line typed (end-of-file marks dropped) and its length, as a C
    string, provided it is shorter than [size]; a line that fills [size] makes
    [readString] store a byte behind its buffer.  A write shows the buffer up
    to a newline, a NUL or [size], then a newline, and returns the count. *)
Theorem console_line p h o ino v typed rest inp out buffer size
    (Hi : fileTable p !! 0%nat = Some (Some o)) (Ho : opens h o ino v) (Hb : length buffer = S size) :
  (newline ∉ typed → inp = typed ++ newline :: rest →
    let line := typed_line typed in
    if decide (length line < size)%nat then
      ∃ p' buffer', PCB_Read p h inp buffer (Z.of_nat size) CONSOLE_INPUT = Ok (Z.of_nat (length line), p', h, rest, buffer') ∧
        take (S (length line)) buffer' = line ++ [0] ∧ length buffer' = length buffer
    else PCB_Read p h inp buffer (Z.of_nat size) CONSOLE_INPUT = Fail OutOfBounds) ∧
  (∀ o1 ino1 v1, fileTable p !! 1%nat = Some (Some o1) → opens h o1 ino1 v1 → type o1 ≠ 1 →
    let text := shown size buffer in
    ∃ p' buffer', PCB_Write p h out buffer (Z.of_nat size) CONSOLE_OUTPUT =
      Ok (Z.of_nat (length text), p', h, out ++ text ++ [newline], buffer')).
Proof.
  split.
  - intros Hnl -> line. unfold PCB_Read. cbn [Z.ltb Z.gtb Z.compare orb Z.eqb CONSOLE_INPUT CONSOLE_OUTPUT].
    rewrite (aget_lookup (fileTable p) 0 (Some o) Hi : aget (fileTable p) CONSOLE_INPUT = _). cbn [rbind]. unfold GetCurrentPos. rewrite (Tell_spec _ _ _ _ Ho). cbn [rbind].
    rewrite aset_in by (apply lookup_lt_Some in Hi; unfold CONSOLE_INPUT; lia). cbn [rbind]. unfold readString. rewrite clear_buffer by lia. cbn [rbind].
    rewrite Nat2Z.id. set (zeros := replicate size 0 ++ _).
    assert (length zeros = S size) as Hz by (unfold zeros; rewrite length_app, length_replicate, length_drop; lia).
    case_decide as Hlt.
    + rewrite read_line_short by (done || (fold line; lia)). fold line. cbn [rbind Z.add]. rewrite aset_in by (rewrite length_inserts; lia). cbn [rbind].
      eexists _, _. split; [done |]. split; [| by rewrite length_insert, length_inserts, Hz].
      apply list_eq. intros i. destruct (decide (i < S (length line))%nat) as [Hil|Hil].
      2: { rewrite lookup_take_ge, lookup_ge_None_2; [done | rewrite length_app; cbn; lia | lia]. }
      rewrite lookup_take_lt by lia. rewrite list_lookup_insert_ne by lia.
      destruct (decide (i < length line)%nat) as [Hi1|Hi1].
      * rewrite list_lookup_inserts by lia. rewrite lookup_app_l by done. f_equal. lia.
      * rewrite list_lookup_inserts_ge by lia. rewrite lookup_app_r by lia. replace (i - length line)%nat with 0%nat by lia.
        unfold zeros. rewrite lookup_app_l by (rewrite length_replicate; lia). apply lookup_replicate_2. lia.
    + destruct (read_line_full typed (Z.of_nat size) (newline :: rest) Hnl 0 zeros) as (b & r & -> & Hbl); [lia | fold line; lia | lia |].
      cbn [rbind]. unfold aset. rewrite Hbl, Hz. destruct (Z.ltb_spec (Z.of_nat size + 1) (Z.of_nat (S size))); [lia |]. by rewrite andb_false_r.
  - intros o1 ino1 v1 Hi1 Ho1 Hty text. unfold PCB_Write. cbn [Z.ltb Z.gtb Z.compare orb Z.eqb CONSOLE_INPUT CONSOLE_OUTPUT Pos.compare Pos.compare_cont].
    rewrite (aget_lookup (fileTable p) 1 (Some o1) Hi1 : aget (fileTable p) CONSOLE_OUTPUT = _). cbn [rbind]. destruct (Z.eqb_spec (type o1) 1); [done |].
    unfold GetCurrentPos. rewrite (Tell_spec _ _ _ _ Ho1). cbn [rbind]. rewrite aset_in by (apply lookup_lt_Some in Hi1; unfold CONSOLE_OUTPUT; lia). cbn [rbind].
    rewrite (put_line_spec size buffer ltac:(lia) size (length buffer) 0) by lia. cbn [rbind]. rewrite Nat.sub_0_r, drop_0. fold text.
    assert (length text <= size)%nat as Ht.
    { unfold text. clear. revert buffer. induction size as [|n IH]; intros [|c b]; cbn; try lia. case_match; cbn; [lia |]. specialize (IH b). lia. }
    rewrite aset_in by lia. cbn [rbind]. rewrite <- app_assoc. by eexists _, _.
Qed.

Lemma console_line_witness : ∃ p' buffer',
  PCB_Read demo_pcb demo_fs [-1; 104; 105; 10; 33] [1; 1; 1; 1] 3 CONSOLE_INPUT = Ok (2, p', demo_fs, [33], buffer') ∧
  take 3 buffer' = [104; 105; 0] ∧ length buffer' = 4%nat.
Proof.
  apply (proj1 (console_line demo_pcb demo_fs (demo_console 0 stdin) 1 (mkView [] 0 0) [-1; 104; 105] [33]
    [-1; 104; 105; 10; 33] [] [1; 1; 1; 1] 3 eq_refl ltac:(by split_and!) eq_refl) ltac:(set_solver) eq_refl).
Defined.
