(* ===== verification/PTable.v ===== *)
(** * The process table (threads/ptable.h, threads/ptable.cc)

    Ten slots for process control blocks and a bitmap of those in use.  The
    operations that do not wait are here; [ExecUpdate], [JoinUpdate] and
    [ExitUpdate], which do, are cut at their waits in [Kernel].  The bitmap is
    any implementation of [BitmapLaws]. *)

From S2P Require Import Prelude Bitmap HostFile PCB.
Local Open Scope Z_scope.

Definition MAX_PROCESS : Z := 10.

(** A pointer to a [PCB].  The destructor of a process that has a thread frees
    its semaphores and then does not return ([Thread::Finish]): the object
    stays allocated, with three dangling pointers in it ([Dead]).  One that has
    no thread is freed whole. *)
Inductive slot := Null | Live (p : PCB) | Dead (p : PCB) | Freed.

(** What [pcb->member] reads; the three semaphores need [live]. *)
Definition block (e : slot) : result PCB :=
  match e with Null => Fail NullDeref | Live p | Dead p => Ok p | Freed => Fail Undefined end.
Definition live (e : slot) : result PCB :=
  match e with Null => Fail NullDeref | Live p => Ok p | Dead _ | Freed => Fail Undefined end.

(** [pcb->member = ...] *)
Definition update (e : slot) (p : PCB) : slot :=
  match e with Null => Null | Live _ => Live p | Dead _ => Dead p | Freed => Freed end.

Section ptable.
Context {B : Type} `{BitmapOps B}.

(** [bmsem]: the number of the semaphore. *)
Record PTable := mkPTable { bm : B; pcb : list slot; psize : Z; bmsem : Z }.

Implicit Types (t : PTable) (h : Host).

(** [bits]: [new Bitmap (size)]; [raw]: the uninitialised array.  A negative size leaves the whole object uninitialised. *)
Definition PTable_new (size : Z) (bits : Z → result B) (raw : list slot) (bmsem : Z) : result PTable :=
  if size <? 0 then Fail Undefined
  else
    let size := if size >? MAX_PROCESS then MAX_PROCESS else size in
    b ← bits size;
    pcb ← for_each 0 size (λ i pcb, aset pcb i Null) raw;
    Ok (mkPTable b pcb size bmsem).

Definition GetFreeSlot t : result (Z * PTable) :=
  '(i, b) ← bm_FindAndSet (bm t); Ok (i, mkPTable b (pcb t) (psize t) (bmsem t)).

Definition IsExist t (pid : Z) : result bool := bm_Test (bm t) pid.

Definition pcb_block t (pid : Z) : result PCB := e ← aget (pcb t) pid; block e.
Definition pcb_live t (pid : Z) : result PCB := e ← aget (pcb t) pid; live e.

Definition set_slot t (pid : Z) (e : slot) : result PTable :=
  tab ← aset (pcb t) pid e; Ok (mkPTable (bm t) tab (psize t) (bmsem t)).
Definition set_block t (pid : Z) (p : PCB) : result PTable :=
  e ← aget (pcb t) pid; set_slot t pid (update e p).

(** [pcb[i] = new PCB (i)], its file name, and its parent. *)
Definition new_process t h (id current parent : Z) (sems : Z * Z * Z) (name rawname raw0 raw1 : list Z) :
    result (PTable * Host) :=
  '(p, h) ← PCB_new h id current sems rawname (replicate (Z.to_nat MAX_OPEN) None) raw0 raw1;
  p ← SetFileName p name;
  t ← set_slot t id (Live (with_parent p parent));
  Ok (t, h).

Definition initStartProcess t h (current : Z) (sems : Z * Z * Z) (name rawname raw0 raw1 : list Z) :
    result (PTable * Host) :=
  b ← bm_Mark (bm t) 0;
  new_process (mkPTable b (pcb t) (psize t) (bmsem t)) h 0 current (-1) sems name rawname raw0 raw1.

(** [Remove], and whether the destructor goes on to [thread->FreeSpace ()] and
    [thread->Finish ()], which are the current thread's to do.  Deleting a
    second time frees what is gone. *)
Definition PTable_Remove t h (pid : Z) : result (bool * PTable * Host) :=
  b ← bm_Clear (bm t) pid;
  let t := mkPTable b (pcb t) (psize t) (bmsem t) in
  e ← aget (pcb t) pid;
  match e with
  | Null => Ok (false, t, h)
  | Live p =>
      match thread p with
      | Some _ => t ← set_slot t pid (Dead p); Ok (true, t, h)
      | None => h ← PCB_delete p h; t ← set_slot t pid Freed; Ok (false, t, h)
      end
  | Dead _ | Freed => Fail Undefined
  end.

Definition PTable_GetFileName t (pid : Z) : result (list Z) := p ← pcb_block t pid; Ok (GetFileName p).

(** ** The files of a process *)

Definition PTable_Open t h (pid : Z) (name raw : list Z) (type : Z) : result (Z * PTable * Host) :=
  p ← pcb_block t pid;
  '(r, p, h) ← PCB_Open p h name raw type;
  t ← set_block t pid p; Ok (r, t, h).

Definition PTable_Close t h (pid id : Z) : result (Z * PTable * Host) :=
  p ← pcb_block t pid;
  '(r, p, h) ← PCB_Close p h id;
  t ← set_block t pid p; Ok (r, t, h).

Definition PTable_Read t h (pid : Z) (inp buffer : list Z) (size id : Z) :
    result (Z * PTable * Host * list Z * list Z) :=
  p ← pcb_block t pid;
  '(r, p, h, inp, buffer) ← PCB_Read p h inp buffer size id;
  t ← set_block t pid p; Ok (r, t, h, inp, buffer).

Definition PTable_Write t h (pid : Z) (out buffer : list Z) (size id : Z) :
    result (Z * PTable * Host * list Z * list Z) :=
  p ← pcb_block t pid;
  '(r, p, h, out, buffer) ← PCB_Write p h out buffer size id;
  t ← set_block t pid p; Ok (r, t, h, out, buffer).

Definition PTable_Seek t h (pid position id : Z) : result (Z * PTable * Host) :=
  p ← pcb_block t pid;
  '(r, p, h) ← PCB_Seek p h position id;
  t ← set_block t pid p; Ok (r, t, h).
End ptable.
Arguments PTable : clear implicits.
