(* ===== verification/Usermem.v ===== *)
(** * Moving data between a user program and the kernel (userprog/exception.cc)

    [User2System] and [System2User] copy byte by byte through the program's
    page table, as every system call with a string or a buffer does, and
    [IncreasePC] steps the program over the system call.  An access that fails
    goes to the exception handler, which in this kernel halts the machine. *)

From S2P Require Import Prelude Machine Ksyscall.
Local Open Scope Z_scope.

Section usermem.
Variable big_endian : bool.
Variable ExceptionHandler : ExceptionType → Machine → result Machine.

Implicit Types (m : Machine) (buffer raw : list Z).

Definition IncreasePC m : result Machine :=
  pc ← ReadRegister m PCReg;
  m ← WriteRegister m PrevPCReg pc;
  pc ← ReadRegister m PCReg; pc ← int_add pc 4;
  m ← WriteRegister m PCReg pc;
  pc ← ReadRegister m PCReg; pc ← int_add pc 4;
  WriteRegister m NextPCReg pc.

(** [ReadMem (virtualAddr, 1, &oneChar)]: when the access fails and the handler
    returns, [oneChar] keeps its value, [None] when it had none yet. *)
Definition read_char m (addr : Z) (oneChar : option Z) : result (Z * Machine) :=
  '(r, m) ← ReadMem big_endian ExceptionHandler m addr 1;
  match r, oneChar with
  | Some c, _ => Ok (c, m)
  | None, Some c => Ok (c, m)
  | None, None => Fail Undefined
  end.

(** One round of the loop of [User2System]. *)
Definition copy_in (virtualAddr idx : Z) (s : option Z * list Z * Machine) :
    result ((option Z * list Z * Machine) + (list Z * Machine)) :=
  let '(oneChar, kernelBuffer, m) := s in
  addr ← int_add virtualAddr idx;
  '(c, m) ← read_char m addr oneChar;
  kernelBuffer ← aset kernelBuffer idx c;
  Ok (if c =? 0 then inr (kernelBuffer, m) else inl (Some c, kernelBuffer, m)).

(** [raw]: the [limit + 1] bytes that [new] returns; no array has a negative
    size. *)
Definition User2System m (virtualAddr limit : Z) raw : result (list Z * Machine) :=
  n ← int_add limit 1;
  if n <? 0 then Fail Undefined else
  r ← for_ret 0 limit (copy_in virtualAddr) (None, raw, m);
  Ok (match r with inl (_, kernelBuffer, m) => (kernelBuffer, m) | inr r => r end).

(** The loop of [System2User]; [n] bounds its rounds after the first. *)
Fixpoint copy_out (n : nat) (virtualAddr i len : Z) buffer m : result (Z * Machine) :=
  oneChar ← aget buffer i;
  addr ← int_add virtualAddr i;
  '(_, m) ← WriteMem big_endian ExceptionHandler m addr 1 oneChar;
  if (i + 1 <? len) && negb (oneChar =? 0) then
    match n with O => Fail OutOfFuel | S n => copy_out n virtualAddr (i + 1) len buffer m end
  else Ok (i + 1, m).

Definition System2User m (virtualAddr len : Z) buffer : result (Z * Machine) :=
  if len <? 0 then Ok (-1, m)
  else if len =? 0 then Ok (0, m)
  else copy_out (Z.to_nat len) virtualAddr 0 len buffer m.
End usermem.

(** ** User memory

    The byte a program finds at an address. *)

Definition user_byte (mem : list Z) (pt : list TranslationEntry) (va : Z) : option Z :=
  match page_lookup pt va false with inr pa => mem !! Z.to_nat pa | inl _ => None end.

(** The [n] addresses from [va] on can be accessed. *)
Definition mapped (pt : list TranslationEntry) (w : bool) (va : Z) (n : nat) : Prop :=
  0 <= va ∧ va + Z.of_nat n < 2 ^ 31 ∧ ∀ i, (i < n)%nat → ∃ pa, page_lookup pt (va + Z.of_nat i) w = inr pa.

(** [text] lies at [va]. *)
Definition user_text (mem : list Z) (pt : list TranslationEntry) (va : Z) (text : list Z) : Prop :=
  ∀ i c, text !! i = Some c → user_byte mem pt (va + Z.of_nat i) = Some (c mod 256).

(** Up to the use and dirty bits, one page table is another. *)
Definition same_pages (pt pt' : list TranslationEntry) : Prop :=
  length pt = length pt' ∧ ∀ va w, page_lookup pt' va w = page_lookup pt va w.

Lemma same_pages_refl pt : same_pages pt pt.
Proof. done. Qed.

Lemma same_pages_trans pt1 pt2 pt3 : same_pages pt1 pt2 → same_pages pt2 pt3 → same_pages pt1 pt3.
Proof. intros [L1 H1] [L2 H2]. split; [congruence |]. intros. by rewrite H2, H1. Qed.

Lemma same_pages_touch pt va w : same_pages pt (touch pt va w).
Proof. split; [by rewrite length_touch |]. intros. apply touch_lookup. Qed.

Lemma user_byte_same mem pt pt' va : same_pages pt pt' → user_byte mem pt' va = user_byte mem pt va.
Proof. intros [_ H]. unfold user_byte. by rewrite H. Qed.

Lemma mapped_same pt pt' w va n : same_pages pt pt' → mapped pt w va n → mapped pt' w va n.
Proof. intros [_ H] (? & ? & Hm). split_and!; [done.. |]. intros i Hi. rewrite H. by apply Hm. Qed.

Lemma page_lookup_read pt va pa : page_lookup pt va true = inr pa → page_lookup pt va false = inr pa.
Proof.
  unfold page_lookup. destruct (pt !! _) as [e|]; [| done]. destruct (negb (valid e)); [done |].
  by destruct (readOnly e).
Qed.

(** No frame is mapped twice. *)
Definition unshared (pt : list TranslationEntry) : Prop :=
  ∀ va va' pa, page_lookup pt va false = inr pa → page_lookup pt va' false = inr pa → u32 va = u32 va'.

Lemma NoDup_unshared pt : NoDup (frames pt) → unshared pt.
Proof.
  intros Hnd va va' pa H1 H2. unfold page_lookup in *.
  destruct (pt !! Z.to_nat (u32 va / PageSize)) as [e1|] eqn:E1; [| done].
  destruct (pt !! Z.to_nat (u32 va' / PageSize)) as [e2|] eqn:E2; [| done].
  destruct (negb (valid e1)), (negb (valid e2)); try done. rewrite !andb_false_r in *.
  destruct (NumPhysPages <=? u32 (physicalPage e1)), (NumPhysPages <=? u32 (physicalPage e2)); try done.
  injection H1 as H1. injection H2 as H2. pose proof (u32_range va). pose proof (u32_range va').
  pose proof (Z.mod_pos_bound (u32 va) PageSize ltac:(done)). pose proof (Z.mod_pos_bound (u32 va') PageSize ltac:(done)).
  assert (u32 (physicalPage e1) = u32 (physicalPage e2)) as Hf by (unfold PageSize in *; nia).
  assert (Z.to_nat (u32 va / PageSize) = Z.to_nat (u32 va' / PageSize)) as Hi.
  { apply (NoDup_lookup (frames pt) _ _ (u32 (physicalPage e1)) Hnd); unfold frames; rewrite list_lookup_fmap.
    - by rewrite E1.
    - rewrite E2. cbn. by rewrite Hf. }
  assert (u32 va / PageSize = u32 va' / PageSize) as Hq.
  { unfold is_u32 in *. apply Z2Nat.inj in Hi; [done | apply Z.div_pos; [lia | done] ..]. }
  rewrite (Z.div_mod (u32 va) PageSize), (Z.div_mod (u32 va') PageSize) by done. lia.
Qed.

Section usermem_lemmas.
Variable be : bool.
Variable H : ExceptionType → Machine → result Machine.

Lemma misaligned_1 va : misaligned va 1 = false.
Proof. done. Qed.

(** One byte in or out. *)
Lemma read_byte m pt va old c : paged m pt → mem_ok (mainMemory m) → user_byte (mainMemory m) pt va = Some (c mod 256) →
  is_char c → read_char be H m va old = Ok (c, touched m pt va false).
Proof.
  intros Hp Hm Hb Hc. unfold user_byte in Hb. destruct (page_lookup pt va false) as [|pa] eqn:Hpa; [done |].
  destruct (ReadMem_ok be H m pt va 1 pa) as (bs & Hg & Hr); [done | done | by left | done | done |].
  unfold read_char. rewrite Hr. cbn [rbind]. destruct (page_lookup_bound pt va 1 false pa) as [H1 H2]; [by left | done | done |].
  pose proof (blk_get_length _ _ _ _ Hg) as Hlen. pose proof (blk_get_lookup _ _ _ _ 0 Hg ltac:(lia)) as Hl. rewrite Z.add_0_r in Hl.
  destruct bs as [|b [|? ?]]; cbn in Hlen; try lia. cbn in Hl. rewrite Hb in Hl. injection Hl as Hl.
  assert (int_of_bytes 1 [b] = c) as ->; [| by destruct old].
  unfold int_of_bytes. cbn. rewrite Z.shiftl_0_l, Z.lor_0_r. unfold s8, is_char in *.
  subst b. destruct (Z.ltb_spec (c mod 256) 128); Z.div_mod_to_equations; lia.
Qed.

Lemma write_byte m pt va c pa : paged m pt → mem_ok (mainMemory m) → page_lookup pt va true = inr pa →
  ∃ mem', WriteMem be H m va 1 c = Ok (true, with_memory (touched m pt va true) mem') ∧
    mem_ok mem' ∧ mem' = <[Z.to_nat pa := c mod 256]> (mainMemory m).
Proof.
  intros Hp Hm Hpa. destruct (WriteMem_ok be H m pt va 1 c pa) as (mem' & Hput & Hw); [done | done | by left | done | done |].
  exists mem'. split; [done |]. split.
  - eapply blk_put_mem_ok; [exact Hput | | done]. apply le_is_byte. lia.
  - destruct (page_lookup_bound pt va 1 true pa) as [H1 H2]; [by left | done | done |].
    rewrite blk_put_in in Hput by (rewrite ?length_Z_to_little_endian; destruct Hm; lia). injection Hput as <-.
    change (Z_to_little_endian 1 8 c) with [Z.land c 255]. cbn. by rewrite (Z.land_ones c 8).
Qed.

Lemma user_byte_insert m pt va pa c va' : mem_ok (mainMemory m) → unshared pt → page_lookup pt va true = inr pa →
  user_byte (<[Z.to_nat pa := c mod 256]> (mainMemory m)) pt va' =
    if decide (u32 va = u32 va') then Some (c mod 256) else user_byte (mainMemory m) pt va'.
Proof.
  intros [Hlen _] Hu Hpa. pose proof (page_lookup_read _ _ _ Hpa) as Hr.
  destruct (page_lookup_bound pt va 1 true pa) as [H1 H2]; [by left | done | done |]. unfold user_byte. case_decide as Hva.
  - assert (page_lookup pt va' false = inr pa) as ->; [| apply list_lookup_insert_eq; lia].
    revert Hr. unfold page_lookup. by rewrite Hva.
  - destruct (page_lookup pt va' false) as [|pa'] eqn:Hpa'; [done |]. rewrite list_lookup_insert_ne; [done |].
    destruct (page_lookup_bound pt va' 1 false pa') as [H3 H4]; [by left | done | done |].
    intros Heq. apply Z2Nat.inj in Heq; [| done | done]. subst pa'. destruct Hva. by apply (Hu va va' pa).
Qed.

(** [m'] is [m] but for the use and dirty bits of its pages. *)
Definition only_touched m m' (pt pt' : list TranslationEntry) : Prop :=
  paged m' pt' ∧ same_pages pt pt' ∧ mainMemory m' = mainMemory m ∧ registers m' = registers m ∧ status m' = status m.

Lemma only_touched_trans m1 m2 m3 pt1 pt2 pt3 :
  only_touched m1 m2 pt1 pt2 → only_touched m2 m3 pt2 pt3 → only_touched m1 m3 pt1 pt3.
Proof.
  intros (? & ? & ? & ? & ?) (? & ? & ? & ? & ?). split; [done |]. split; [by eapply same_pages_trans |].
  split_and!; congruence.
Qed.

Lemma only_touched_refl m pt : paged m pt → only_touched m m pt pt.
Proof. done. Qed.

Lemma only_touched_touch m pt va w : paged m pt → only_touched m (touched m pt va w) pt (touch pt va w).
Proof. intros Hp. split; [by apply paged_touched |]. split; [apply same_pages_touch | done]. Qed.

Lemma User2System_spec m pt va limit text raw : paged m pt → mem_ok (mainMemory m) →
  0 <= va → 0 <= limit → va + limit + 1 < 2 ^ 31 → Z.of_nat (length raw) = limit + 1 →
  Z.of_nat (length text) <= limit → Forall (λ c, is_char c ∧ c ≠ 0) text →
  user_text (mainMemory m) pt va (text ++ if decide (Z.of_nat (length text) < limit) then [0] else []) →
  ∃ m' pt', User2System be H m va limit raw = Ok (text ++
      (if decide (Z.of_nat (length text) < limit) then 0 :: drop (S (length text)) raw else drop (length text) raw), m') ∧
    only_touched m m' pt pt'.
Proof.
  intros Hp Hm Hva Hlim Hmax Hraw Hk Htext Hut. unfold User2System, int_add.
  destruct (decide (is_s32 (limit + 1))) as [_|Hx]; [| destruct Hx; unfold is_s32; lia]. cbn [rbind].
  destruct (Z.ltb_spec (limit + 1) 0); [lia |]. remember (length text) as k eqn:Hkt.
  destruct (for_ret_rule
    (λ i s, i <= Z.of_nat k ∧ s.1.2 = take (Z.to_nat i) text ++ drop (Z.to_nat i) raw ∧ ∃ pt', only_touched m s.2 pt pt')
    (λ s, Z.of_nat k < limit ∧ s.1 = text ++ 0 :: drop (S k) raw ∧ ∃ pt', only_touched m s.2 pt pt')
    0 limit (copy_in be H va) (None, raw, m)) as (r & -> & Hr).
  - done.
  - cbn. split; [lia |]. split; [done |]. exists pt. by apply only_touched_refl.
  - intros i [[old buf] m1] Hi (Hik & Hbuf & pt1 & Hm1). cbn [fst snd] in *. subst buf. pose proof Hm1 as (Hp1 & Hs1 & Hmem1 & _).
    unfold copy_in, int_add. destruct (decide (is_s32 (va + i))) as [_|Hx]; [| destruct Hx; unfold is_s32; lia]. cbn [rbind].
    assert (length (take (Z.to_nat i) text) = Z.to_nat i) as Hti by (rewrite length_take; lia).
    assert (∃ c, is_char c ∧ (text ++ if decide (Z.of_nat k < limit) then [0] else []) !! Z.to_nat i = Some c ∧
      (c = 0 ↔ i = Z.of_nat k)) as (c & Hc & Hci & Hc0).
    { destruct (decide (i = Z.of_nat k)) as [->|Hne].
      - exists 0. split; [unfold is_char; lia |]. split; [| done]. rewrite lookup_app_r by lia.
        rewrite decide_True by lia. by replace (Z.to_nat (Z.of_nat k) - length text)%nat with 0%nat by lia.
      - destruct (lookup_lt_is_Some_2 text (Z.to_nat i)) as [c Hc]; [lia |]. exists c.
        pose proof (Forall_lookup_1 _ _ _ _ Htext Hc) as [Hch Hnz]. split; [done |]. split; [by apply lookup_app_l_Some | done]. }
    rewrite (read_byte m1 pt1 (va + i) old c) ; [| done | by rewrite Hmem1 | | done].
    2: { rewrite Hmem1, (user_byte_same _ pt pt1) by done. replace i with (Z.of_nat (Z.to_nat i)) by lia. by apply Hut. }
    cbn [rbind]. rewrite aset_in by (rewrite length_app, Hti, length_drop; lia). cbn [rbind].
    assert (<[Z.to_nat i := c]> (take (Z.to_nat i) text ++ drop (Z.to_nat i) raw) =
      take (Z.to_nat i) text ++ c :: drop (S (Z.to_nat i)) raw) as ->.
    { destruct (lookup_lt_is_Some_2 raw (Z.to_nat i)) as [x Hx]; [lia |]. rewrite (drop_S _ _ _ Hx).
      rewrite insert_app_r_alt by lia. by rewrite Hti, Nat.sub_diag. }
    assert (∃ pt', only_touched m (touched m1 pt1 (va + i) false) pt pt') as Hot.
    { eexists. eapply only_touched_trans; [exact Hm1 | by apply only_touched_touch]. }
    eexists. split; [done |]. destruct (Z.eqb_spec c 0) as [Hz|Hz].
    + apply Hc0 in Hz as Hik'. cbn [fst snd]. split; [lia |]. split; [| done].
      subst i. rewrite Nat2Z.id. by rewrite Hz, take_ge by lia.
    + assert (i < Z.of_nat k) as Hlt by (destruct (decide (i = Z.of_nat k)) as [Hx|]; [by apply Hc0 in Hx | lia]).
      cbn [fst snd]. split; [lia |]. split; [| done]. replace (Z.to_nat (i + 1)) with (S (Z.to_nat i)) by lia.
      rewrite lookup_app_l in Hci by lia. by rewrite (take_S_r _ _ _ Hci), <- app_assoc.
  - cbn [rbind]. destruct r as [[[old buf] m1]|[buf m1]]; cbn [fst snd] in Hr.
    + destruct Hr as (Hle & -> & pt1 & Hm1). exists m1, pt1. split; [| done]. rewrite decide_False by lia.
      replace (Z.to_nat limit) with k by lia. by rewrite take_ge by lia.
    + destruct Hr as (Hlt & -> & pt1 & Hm1). exists m1, pt1. split; [| done]. by rewrite decide_True.
Qed.
(** The user's memory once the first [n] of [bytes] were stored from [va] on,
    the ones before [i] earlier. *)
Definition stored (va : Z) (i n : nat) (bytes : list Z) (old : Z → option Z) (va' : Z) : option Z :=
  if decide (va + Z.of_nat i <= va' < va + Z.of_nat n) then (λ c, c mod 256) <$> bytes !! Z.to_nat (va' - va) else old va'.

Definition stored_in (va : Z) (i n : nat) (bytes : list Z) m pt m' pt' : Prop :=
  paged m' pt' ∧ same_pages pt pt' ∧ mem_ok (mainMemory m') ∧ registers m' = registers m ∧ status m' = status m ∧
  ∀ va', 0 <= va' < 2 ^ 31 →
    user_byte (mainMemory m') pt' va' = stored va i n bytes (user_byte (mainMemory m) pt) va'.

Lemma copy_out_spec va len text junk n : Forall (λ c, is_char c ∧ c ≠ 0) text → 0 < len →
  n = Nat.min (Z.to_nat len) (S (length text)) →
  ∀ d i fuel m pt, n = S (i + d) → (d <= fuel)%nat → paged m pt → mem_ok (mainMemory m) → unshared pt → mapped pt true va n →
  ∃ m' pt', copy_out be H fuel va (Z.of_nat i) len (text ++ 0 :: junk) m = Ok (Z.of_nat n, m') ∧
    stored_in va i n (text ++ [0]) m pt m' pt'.
Proof.
  intros Htext Hlen Hn. induction d as [|d IH]; intros i fuel m pt Hni Hfuel Hp Hm Hu Hmap.
  all: assert (∃ c, (text ++ [0]) !! i = Some c ∧ (text ++ 0 :: junk) !! i = Some c ∧ (c = 0 ↔ i = length text)) as (c & Hc & Hcb & Hc0).
  1, 3: destruct (decide (i = length text)) as [->|Hne];
    [exists 0; rewrite !lookup_app_r by lia; rewrite Nat.sub_diag; done |
     destruct (lookup_lt_is_Some_2 text i) as [c Hc]; [lia |]; exists c; rewrite !lookup_app_l by lia;
     pose proof (Forall_lookup_1 _ _ _ _ Htext Hc) as [_ Hnz]; done].
  all: pose proof Hmap as (Hva & Hmax & Hmapped); destruct (Hmapped i) as [pa Hpa]; [lia |].
  all: destruct (write_byte m pt (va + Z.of_nat i) c pa Hp Hm Hpa) as (mem' & Hw & Hm' & Hmem').
  all: set (m1 := with_memory _ mem') in *; set (pt1 := touch pt (va + Z.of_nat i) true).
  all: assert (paged m1 pt1) as Hp1 by (apply (paged_touched m pt _ true); done).
  all: assert (same_pages pt pt1) as Hs1 by apply same_pages_touch.
  all: assert (∀ va', 0 <= va' < 2 ^ 31 → user_byte mem' pt1 va' =
    if decide (va' = va + Z.of_nat i) then Some (c mod 256) else user_byte (mainMemory m) pt va') as Hbyte
    by (intros va' Hva'; rewrite (user_byte_same _ pt pt1) by done; subst mem';
        rewrite (user_byte_insert m pt (va + Z.of_nat i) pa c va') by done; rewrite !u32_id by (unfold is_u32; lia);
        by repeat case_decide; try lia).
  - destruct fuel as [|fuel]; cbn [copy_out]; rewrite (aget_lookup _ _ _ Hcb); cbn [rbind]; unfold int_add;
      (destruct (decide (is_s32 (va + Z.of_nat i))) as [_|Hx]; [| destruct Hx; unfold is_s32; lia]); cbn [rbind]; rewrite Hw; cbn [rbind];
      (assert ((Z.of_nat i + 1 <? len) && negb (c =? 0) = false) as ->;
        [destruct (Z.ltb_spec (Z.of_nat i + 1) len); [| done]; cbn; apply negb_false_iff, Z.eqb_eq, Hc0; lia |]);
      (replace (Z.of_nat i + 1) with (Z.of_nat n) by lia);
      exists m1, pt1; (split; [done |]); (split; [done |]); (split; [done |]); (split; [done |]); (split; [done |]); (split; [done |]);
      intros va' Hva'; cbn [mainMemory with_memory m1]; rewrite Hbyte by done; unfold stored; repeat case_decide; try lia; subst;
      (rewrite ?Hc; by replace (Z.to_nat (va + Z.of_nat i - va)) with i by lia; rewrite ?Hc) || done.
  - destruct fuel as [|fuel]; [lia |]. cbn [copy_out]. rewrite (aget_lookup _ _ _ Hcb). cbn [rbind]. unfold int_add.
    destruct (decide (is_s32 (va + Z.of_nat i))) as [_|Hx]; [| destruct Hx; unfold is_s32; lia]. cbn [rbind]. rewrite Hw. cbn [rbind].
    assert ((Z.of_nat i + 1 <? len) && negb (c =? 0) = true) as ->.
    { destruct (Z.ltb_spec (Z.of_nat i + 1) len); [| lia]. cbn. apply negb_true_iff, Z.eqb_neq. intros Hz. apply Hc0 in Hz. lia. }
    replace (Z.of_nat i + 1) with (Z.of_nat (S i)) by lia.
    destruct (IH (S i) fuel m1 pt1) as (m' & pt' & -> & Hp' & Hs' & Hok' & Hr' & Hst' & Hb'); [lia | lia | done | done | | |].
    { intros a b q Ha Hb. rewrite (proj2 Hs1) in Ha, Hb. by apply (Hu a b q). }
    { by apply (mapped_same pt). }
    exists m', pt'. split; [done |]. split; [done |]. split; [by eapply same_pages_trans |]. split; [done |]. split; [done |]. split; [done |].
    intros va' Hva'. rewrite Hb' by done. unfold stored. cbn [mainMemory with_memory m1]. rewrite Hbyte by done.
    repeat case_decide; try lia; try done. subst va'. by replace (Z.to_nat (va + Z.of_nat i - va)) with i by lia; rewrite Hc.
Qed.
End usermem_lemmas.

(** ** Property *)

(** C33: copies between the kernel and a user program.  [System2User] stores a
    C string with its NUL, or its first [len] bytes, at the address given, and
    nothing else of the program's memory or registers changes; [User2System]
    of [limit] bytes then returns that string and its NUL in a buffer whose rest
    it leaves alone.  A string of [limit] characters or more comes back cut to
    [limit] and, as nothing writes the buffer's last byte, without a NUL. *)
Theorem user_kernel_copies be H m pt va len text junk
    (Hp : paged m pt) (Hm : mem_ok (mainMemory m)) (Hnd : NoDup (frames pt))
    (Htext : Forall (λ c, is_char c ∧ c ≠ 0) text) (Hlen : 0 < len)
    (Hmap : mapped pt true va (Nat.min (Z.to_nat len) (S (length text)))) :
  let n := Nat.min (Z.to_nat len) (S (length text)) in
  ∃ m' pt', System2User be H m va len (text ++ 0 :: junk) = Ok (Z.of_nat n, m') ∧
    registers m' = registers m ∧ paged m' pt' ∧
    (∀ va', 0 <= va' < 2 ^ 31 → ¬ va <= va' < va + Z.of_nat n →
      user_byte (mainMemory m') pt' va' = user_byte (mainMemory m) pt va') ∧
    ∀ limit raw, 0 <= limit → limit <= len ∨ Z.of_nat (length text) < len → va + limit + 1 < 2 ^ 31 →
      Z.of_nat (length raw) = limit + 1 →
      ∃ m'', User2System be H m' va limit raw = Ok (if decide (Z.of_nat (length text) < limit)
        then text ++ 0 :: drop (S (length text)) raw else take (Z.to_nat limit) text ++ drop (Z.to_nat limit) raw, m'').
Proof.
  intros n. pose proof Hmap as (Hva & Hmax & _).
  destruct (copy_out_spec be H va len text junk n Htext Hlen eq_refl (n - 1) 0 (Z.to_nat len) m pt)
    as (m' & pt' & Hout & Hp' & Hs' & Hm' & Hr' & _ & Hb'); [lia | lia | done | done | by apply NoDup_unshared | done |].
  exists m', pt'. unfold System2User. destruct (Z.ltb_spec len 0); [lia |]. destruct (Z.eqb_spec len 0); [lia |].
  split; [exact Hout |]. split; [done |]. split; [done |]. split.
  { intros va' Hva' Hout'. rewrite Hb' by done. unfold stored. case_decide; [lia | done]. }
  intros limit raw Hlim Hor Hlmax Hraw.
  assert (∀ i c, (i < n)%nat → (text ++ [0]) !! i = Some c → user_byte (mainMemory m') pt' (va + Z.of_nat i) = Some (c mod 256)) as Hst.
  { intros i c Hi Hc. rewrite Hb' by lia. unfold stored. rewrite decide_True by lia.
    by replace (Z.to_nat (va + Z.of_nat i - va)) with i by lia; rewrite Hc. }
  case_decide as Hk.
  - destruct (User2System_spec be H m' pt' va limit text raw) as (m'' & pt'' & Heq & _); try done; try lia.
    { intros i c Hc. rewrite decide_True in Hc by done. apply Hst; [| done]. apply lookup_lt_Some in Hc.
      rewrite length_app in Hc. cbn in Hc. lia. }
    rewrite decide_True in Heq by done. by eexists.
  - assert (length (take (Z.to_nat limit) text) = Z.to_nat limit) as Hl by (rewrite length_take; lia).
    destruct (User2System_spec be H m' pt' va limit (take (Z.to_nat limit) text) raw) as (m'' & pt'' & Heq & _); try done; try lia.
    { by apply Forall_take. }
    { intros i c Hc. rewrite Hl, decide_False, app_nil_r in Hc by lia. apply lookup_take_Some in Hc as [Hc Hi].
      apply Hst; [lia |]. by apply lookup_app_l_Some. }
    rewrite Hl, decide_False in Heq by lia. by eexists.
Qed.

Lemma user_kernel_copies_witness : ∃ m' pt',
  System2User false (λ _ m, Ok m) demo_machine 40 9 [104; 105; 0; 7] = Ok (3, m') ∧ paged m' pt' ∧
  (∃ m'', User2System false (λ _ m, Ok m) m' 40 33 (replicate 34 1) = Ok ([104; 105; 0] ++ replicate 31 1, m'')) ∧
  (∃ m'', User2System false (λ _ m, Ok m) m' 40 2 [1; 1; 1] = Ok ([104; 105; 1], m'')).
Proof.
  destruct (user_kernel_copies false (λ _ m, Ok m) demo_machine demo_pt 40 9 [104; 105] [7]) as (m' & pt' & Hs & _ & Hp & _ & Hu).
  - split_and!; reflexivity.
  - split; [vm_compute; reflexivity |]. apply Forall_replicate. unfold is_byte. lia.
  - by apply (bool_decide_unpack _).
  - repeat constructor; unfold is_char; cbn; lia.
  - lia.
  - split; [lia |]. split; [cbn; lia |]. intros i Hi. cbn in Hi. do 3 (destruct i as [|i]; [by eexists |]). lia.
  - exists m', pt'. split; [exact Hs |]. split; [exact Hp |]. split.
    + apply (Hu 33 (replicate 34 1)); [lia | right; cbn; lia | lia | done].
    + apply (Hu 2 [1; 1; 1]); [lia | left; lia | lia | done].
Defined.
