(* ===== verification/Hash.v ===== *)
(** * Self-expanding hash tables (lib/hash.h, lib/hash.cc)

    Chained buckets, four at first and four times as many whenever there are
    three items to a bucket.  The buckets are [List]s, here the sequences they
    refine ([Lists]); a list iterator is the part of the sequence still ahead. *)

From S2P Require Import Prelude Lists Ksyscall.
Local Open Scope Z_scope.

Definition InitialBuckets : Z := 4.
Definition ResizeRatio : Z := 3.
Definition IncreaseSizeBy : Z := 4.

Section hash.
Context {Key T : Type} `{Countable Key} `{EqDecision T}.
Variable getKey : T → Key.
Variable hash : Key → Z.

Record HashTable := mkHash { buckets : list (list T); numBuckets : Z; numItems : Z }.

Implicit Types (t : HashTable) (k : Key) (x item : T).

(** ** Operations *)

Definition InitBuckets (sz numItems : Z) : HashTable := mkHash (replicate (Z.to_nat sz) []) sz numItems.

Definition HashTable_new : HashTable := InitBuckets InitialBuckets 0.

Definition HashTable_IsEmpty t : bool := numItems t =? 0.

Definition HashTable_delete t : result unit := ASSERT (HashTable_IsEmpty t).

(** [unsigned % int] is unsigned; the result is kept in an [int]. *)
Definition HashValue t k : result Z :=
  let r := s32 (hash k mod u32 (numBuckets t)) in
  ASSERT ((0 <=? r) && (r <? numBuckets t));;
  Ok r.

(** The loop over a bucket's iterator. *)
Fixpoint find_key (iterator : list T) k : option T :=
  match iterator with
  | [] => None
  | x :: iterator => if decide (k = getKey x) then Some x else find_key iterator k
  end.

Definition FindInBucket t (bucket : Z) k : result (option T) :=
  l ← aget (buckets t) bucket; Ok (find_key l k).

Definition Find t k : result (option T) := bucket ← HashValue t k; FindInBucket t bucket k.

Definition IsInTable t k : result bool := r ← Find t k; Ok (bool_decide (is_Some r)).

(** [buckets[HashValue (getKey (item))]->Append (item)] *)
Definition append_item t item : result HashTable :=
  b ← HashValue t (getKey item);
  l ← aget (buckets t) b;
  l ← seq_Append l item;
  bs ← aset (buckets t) b l;
  Ok (mkHash bs (numBuckets t) (numItems t)).

Definition HashTable_SanityCheck t : result unit :=
  numFound ← for_each 0 (numBuckets t) (λ i numFound,
    l ← aget (buckets t) i;
    numFound ← int_add numFound (Z.of_nat (length l));
    for_each 0 (Z.of_nat (length l)) (λ j _,
      item ← aget l j; h ← HashValue t (getKey item); ASSERT (i =? h)) tt;;
    Ok numFound) 0;
  ASSERT (numItems t =? numFound).

(** The loop that empties one old bucket; [n] bounds its rounds. *)
Fixpoint move_items (n : nat) (old : list T) t : result HashTable :=
  match old with
  | [] => Ok t
  | _ :: _ =>
      match n with
      | O => Fail OutOfFuel
      | S n => '(item, old) ← seq_RemoveFront old; t ← append_item t item; move_items n old t
      end
  end.

Definition ReHash t : result HashTable :=
  let oldTable := buckets t in
  let oldSize := numBuckets t in
  HashTable_SanityCheck t;;
  sz ← int_mul (numBuckets t) IncreaseSizeBy;
  t ← for_each 0 oldSize (λ i t', l ← aget oldTable i; move_items (Z.to_nat (numItems t)) l t')
        (InitBuckets sz (numItems t));
  HashTable_SanityCheck t;;
  Ok t.

Definition HashTable_Insert t item : result HashTable :=
  let key := getKey item in
  there ← IsInTable t key;
  ASSERT (negb there);;
  t ← (if ResizeRatio <=? Z.quot (numItems t) (numBuckets t) then ReHash t else Ok t);
  t ← append_item t item;
  n ← int_add (numItems t) 1;
  let t := mkHash (buckets t) (numBuckets t) n in
  there ← IsInTable t key;
  ASSERT there;;
  Ok t.

Definition HashTable_Remove t k : result (T * HashTable) :=
  bucket ← HashValue t k;
  found ← FindInBucket t bucket k;
  match found with
  | None => Fail AssertFailed
  | Some item =>
      l ← aget (buckets t) bucket;
      ASSERT (bool_decide (item ∈ l));;
      bs ← aset (buckets t) bucket (seq_remove item l);
      let t := mkHash bs (numBuckets t) (numItems t - 1) in
      there ← IsInTable t k;
      ASSERT (negb there);;
      Ok (item, t)
  end.

Definition HashTable_Apply {S} t (func : S → T → result S) (s : S) : result S :=
  for_each 0 (numBuckets t) (λ bucket s,
    l ← aget (buckets t) bucket;
    for_each 0 (Z.of_nat (length l)) (λ j s, x ← aget l j; func s x) s) s.

Definition FindNextFullBucket t (start : Z) : result Z :=
  r ← for_ret start (numBuckets t) (λ bucket u,
        l ← aget (buckets t) bucket;
        Ok (match l with [] => inl u | _ :: _ => inr bucket end)) tt;
  Ok (match r with inl _ => Z.max start (numBuckets t) | inr b => b end).

(** [bucketIter]: what is left of the current bucket, [None] for [NULL]. *)
Record HashIterator := mkHashIter { bucket : Z; bucketIter : option (list T) }.

(** The iterator at the next full bucket, if there is one. *)
Definition enter_bucket t (b : Z) : result HashIterator :=
  if b <? numBuckets t then l ← aget (buckets t) b; Ok (mkHashIter b (Some l)) else Ok (mkHashIter b None).

Definition HashIterator_new t : result HashIterator := b ← FindNextFullBucket t 0; enter_bucket t b.

Definition HashIterator_IsDone t (it : HashIterator) : bool := bucket it =? numBuckets t.

Definition HashIterator_Item t (it : HashIterator) : result T :=
  ASSERT (negb (HashIterator_IsDone t it));;
  match bucketIter it with Some (x :: _) => Ok x | Some [] => Fail AssertFailed | None => Fail NullDeref end.

Definition HashIterator_Next t (it : HashIterator) : result HashIterator :=
  match bucketIter it with
  | None => Fail NullDeref
  | Some [] => Fail NullDeref
  | Some (_ :: rest) =>
      match rest with
      | [] => b ← FindNextFullBucket t (bucket it + 1); enter_bucket t b
      | _ :: _ => Ok (mkHashIter (bucket it) (Some rest))
      end
  end.

(** [for (; !iter->IsDone (); iter->Next ()) operation on iter->Item ()] *)
Fixpoint iterate (n : nat) t (it : HashIterator) : result (list T) :=
  if HashIterator_IsDone t it then Ok []
  else match n with
       | O => Fail OutOfFuel
       | S n =>
           x ← HashIterator_Item t it;
           it ← HashIterator_Next t it;
           xs ← iterate n t it;
           Ok (x :: xs)
       end.

Definition HashTable_SelfTest t (p : list T) (numEntries : Z) : result HashTable :=
  iterator ← HashIterator_new t;
  HashTable_SanityCheck t;;
  ASSERT (HashTable_IsEmpty t);;
  ASSERT (HashIterator_IsDone t iterator);;
  t ← for_each 0 numEntries (λ i t,
    x ← aget p i;
    t ← HashTable_Insert t x;
    there ← IsInTable t (getKey x);
    ASSERT there;;
    ASSERT (negb (HashTable_IsEmpty t));;
    Ok t) t;
  t ← for_each 0 numEntries (λ i t,
    x ← aget p i;
    '(y, t) ← HashTable_Remove t (getKey x);
    ASSERT (bool_decide (y = x));;
    Ok t) t;
  ASSERT (HashTable_IsEmpty t);;
  HashTable_SanityCheck t;;
  Ok t.

(** ** What a table stands for

    [holds t m]: bucket [i] has exactly the items of [m] whose keys hash to [i],
    each once. *)

Definition holds t (m : gmap Key T) : Prop :=
  0 < numBuckets t < 2 ^ 31 ∧ length (buckets t) = Z.to_nat (numBuckets t) ∧
  (∀ k x, m !! k = Some x → getKey x = k) ∧
  ∀ i l, buckets t !! i = Some l → NoDup l ∧
    ∀ x, x ∈ l ↔ m !! getKey x = Some x ∧ hash (getKey x) mod numBuckets t = Z.of_nat i.

Definition hash_repr t (m : gmap Key T) : Prop := holds t m ∧ numItems t = Z.of_nat (size m).

Lemma HashValue_Ok t m k : holds t m → HashValue t k = Ok (hash k mod numBuckets t).
Proof.
  intros (Hn & _). unfold HashValue. rewrite u32_id by (unfold is_u32; lia).
  pose proof (Z.mod_pos_bound (hash k) (numBuckets t) ltac:(lia)).
  rewrite s32_id by (unfold is_s32; lia). destruct (Z.leb_spec 0 (hash k mod numBuckets t)); [| lia].
  by destruct (Z.ltb_spec (hash k mod numBuckets t) (numBuckets t)); [| lia].
Qed.

Lemma bucket_of t m k : holds t m → ∃ l, buckets t !! Z.to_nat (hash k mod numBuckets t) = Some l ∧
  aget (buckets t) (hash k mod numBuckets t) = Ok l.
Proof.
  intros (Hn & Hl & _). pose proof (Z.mod_pos_bound (hash k) (numBuckets t) ltac:(lia)).
  destruct (lookup_lt_is_Some_2 (buckets t) (Z.to_nat (hash k mod numBuckets t))) as [l Hb]; [lia |].
  exists l. split; [done |]. apply aget_Ok. split; [lia | done].
Qed.

Lemma find_key_spec t m k l : holds t m → buckets t !! Z.to_nat (hash k mod numBuckets t) = Some l → find_key l k = m !! k.
Proof.
  intros (Hn & _ & Hkey & Hb) Hl. destruct (Hb _ _ Hl) as [_ Hin].
  rewrite Z2Nat.id in Hin by (apply Z.mod_pos_bound; lia). clear Hl Hb.
  destruct (find_key l k) as [x|] eqn:Hf.
  - assert (x ∈ l ∧ getKey x = k) as [Hx <-].
    { clear Hin. induction l as [|y l IH]; [done |]. cbn in Hf. case_decide as Hk.
      - injection Hf as ->. split; [by left | done].
      - destruct (IH Hf). split; [by right | done]. }
    symmetry. by apply Hin.
  - destruct (m !! k) as [x|] eqn:Hm; [| done]. pose proof (Hkey _ _ Hm) as <-. exfalso.
    assert (x ∈ l) as Hx by (by apply Hin). clear -Hx Hf. induction Hx as [l|y l Hx IH]; cbn in Hf; case_decide; naive_solver.
Qed.

Lemma Find_spec t m k : holds t m → Find t k = Ok (m !! k).
Proof.
  intros Ht. unfold Find, FindInBucket. rewrite (HashValue_Ok t m) by done. cbn [rbind].
  destruct (bucket_of t m k Ht) as (l & Hl & ->). cbn [rbind]. by rewrite (find_key_spec t m).
Qed.

Lemma IsInTable_spec t m k : holds t m → IsInTable t k = Ok (bool_decide (is_Some (m !! k))).
Proof. intros Ht. unfold IsInTable. by rewrite (Find_spec t m). Qed.

Lemma append_item_spec t m x : holds t m → m !! getKey x = None →
  ∃ t', append_item t x = Ok t' ∧ holds t' (<[getKey x := x]> m) ∧ numBuckets t' = numBuckets t ∧ numItems t' = numItems t.
Proof.
  intros Ht Hm. unfold append_item. rewrite (HashValue_Ok t m) by done. cbn [rbind].
  destruct (bucket_of t m (getKey x) Ht) as (l & Hl & ->). cbn [rbind].
  pose proof Ht as (Hn & Hlen & Hkey & Hb). destruct (Hb _ _ Hl) as [Hnd Hin].
  pose proof (Z.mod_pos_bound (hash (getKey x)) (numBuckets t) ltac:(lia)) as Hr.
  assert (x ∉ l) as Hx by (intros [Hx _]%Hin; congruence).
  unfold seq_Append. rewrite bool_decide_eq_true_2 by done. cbn [rbind]. rewrite aset_in by lia. cbn [rbind].
  eexists. split; [done |]. split; [| done]. split; [done |]. split; [by cbn; rewrite length_insert |]. split.
  { intros k y [[<- <-]|[_ Hy]]%lookup_insert_Some; [done | by apply Hkey]. }
  cbn [buckets numBuckets]. intros i l'. rewrite list_lookup_insert_Some. intros [(<- & <- & _)|[Hne Hi]].
  - split.
    + apply NoDup_app. split; [done |]. split; [| apply NoDup_singleton]. intros y Hy ->%list_elem_of_singleton. done.
    + intros y. rewrite elem_of_app, list_elem_of_singleton, Hin, lookup_insert_Some, Z2Nat.id by lia. split.
      * intros [[Hy Hh]| ->]; [| by auto]. split; [| done]. right. split; [congruence | done].
      * intros [[[Hk ->]|[_ Hy]] Hh]; auto.
  - destruct (Hb _ _ Hi) as [Hnd' Hin']. split; [done |]. intros y. rewrite Hin', lookup_insert_Some. split.
    + intros [Hy Hh]. split; [| done]. right. split; [congruence | done].
    + intros [[[Hk ->]|[_ Hy]] Hh]; [| done]. exfalso. apply Hne. rewrite Hh. by rewrite Nat2Z.id.
Qed.
(** ** All the items *)

Lemma NoDup_mjoin {A} (ls : list (list A)) : (∀ i l, ls !! i = Some l → NoDup l) →
  (∀ i j li lj (x : A), ls !! i = Some li → ls !! j = Some lj → x ∈ li → x ∈ lj → i = j) → NoDup (mjoin ls).
Proof.
  induction ls as [|l ls IH]; intros Hnd Hdisj; [constructor |]. cbn. apply NoDup_app. split; [by apply (Hnd 0%nat) |]. split.
  - intros x Hx (l' & Hl' & Hx')%list_elem_of_join. apply list_elem_of_lookup in Hx' as [j Hj].
    by specialize (Hdisj 0%nat (S j) l l' x eq_refl Hj Hx Hl').
  - apply IH; [intros i; apply (Hnd (S i)) |]. intros i j li lj x Hi Hj Hxi Hxj.
    specialize (Hdisj (S i) (S j) li lj x Hi Hj Hxi Hxj). lia.
Qed.

Lemma all_items t m : holds t m → NoDup (mjoin (buckets t)) ∧ ∀ x, x ∈ mjoin (buckets t) ↔ m !! getKey x = Some x.
Proof.
  intros (Hn & Hlen & Hkey & Hb). split.
  - apply NoDup_mjoin; [intros i l Hl; by apply (Hb i) |]. intros i j li lj x Hi Hj Hx Hx'.
    apply (Hb _ _ Hi) in Hx as [_ Hx]. apply (Hb _ _ Hj) in Hx' as [_ Hx']. lia.
  - intros x. rewrite list_elem_of_join. split.
    + intros (l & Hx & Hl). apply list_elem_of_lookup_1 in Hl as (i0 & Hi). apply (proj1 (proj2 (Hb _ _ Hi) x) Hx).
    + intros Hx. pose proof (Z.mod_pos_bound (hash (getKey x)) (numBuckets t) ltac:(lia)) as Hr.
      destruct (lookup_lt_is_Some_2 (buckets t) (Z.to_nat (hash (getKey x) mod numBuckets t))) as [l Hl]; [lia |].
      exists l. split; [| by eapply list_elem_of_lookup_2]. apply (Hb _ _ Hl). split; [done |]. lia.
Qed.

(** The items of [m], in some order. *)
Lemma items_NoDup (m : gmap Key T) : (∀ k x, m !! k = Some x → getKey x = k) → NoDup (map_to_list m).*2.
Proof.
  intros Hkey. apply NoDup_fmap_2_strong; [| apply NoDup_map_to_list].
  intros [k x] [k' x'] Hx%elem_of_map_to_list Hx'%elem_of_map_to_list Heq. cbn in Heq. subst x'.
  by rewrite <- (Hkey _ _ Hx), (Hkey _ _ Hx').
Qed.

Lemma items_elem (m : gmap Key T) x : (∀ k x, m !! k = Some x → getKey x = k) →
  x ∈ (map_to_list m).*2 ↔ m !! getKey x = Some x.
Proof.
  intros Hkey. rewrite list_elem_of_fmap. split.
  - intros ([k y] & -> & Hx%elem_of_map_to_list). cbn. by rewrite (Hkey _ _ Hx).
  - intros Hx. exists (getKey x, x). split; [done |]. by apply elem_of_map_to_list.
Qed.

Lemma all_items_perm t m : holds t m → mjoin (buckets t) ≡ₚ (map_to_list m).*2.
Proof.
  intros Ht. destruct (all_items t m Ht) as [Hnd Hin]. pose proof Ht as (_ & _ & Hkey & _).
  apply NoDup_Permutation; [done | by apply items_NoDup |]. intros x. by rewrite Hin, items_elem.
Qed.

Lemma all_items_length t m : holds t m → length (mjoin (buckets t)) = size m.
Proof. intros Ht. rewrite (all_items_perm t m Ht), length_fmap. apply length_map_to_list. Qed.

Lemma SanityCheck_passes t m : holds t m → numItems t = Z.of_nat (size m) → Z.of_nat (size m) < 2 ^ 31 →
  HashTable_SanityCheck t = Ok tt.
Proof.
  intros Ht Hni Hsz. unfold HashTable_SanityCheck. pose proof Ht as (Hn & Hlen & _ & Hb).
  pose proof (all_items_length t m Ht) as Hall.
  match goal with |- (_ ← for_each 0 _ ?b 0; _) = _ => destruct (for_each_rule
    (λ i n, n = Z.of_nat (length (mjoin (take (Z.to_nat i) (buckets t))))) 0 (numBuckets t) b 0) as (n & -> & ->) end.
  - lia.
  - done.
  - intros i n Hi ->. destruct (lookup_lt_is_Some_2 (buckets t) (Z.to_nat i)) as [l Hl]; [lia |].
    rewrite (proj2 (aget_Ok (buckets t) i l)) by (split; [lia | done]). cbn [rbind].
    assert (length (mjoin (take (S (Z.to_nat i)) (buckets t))) = length (mjoin (take (Z.to_nat i) (buckets t))) + length l)%nat as Hstep.
    { rewrite (take_S_r _ _ _ Hl), join_app, length_app. cbn. by rewrite app_nil_r. }
    assert (length (mjoin (take (S (Z.to_nat i)) (buckets t))) <= size m)%nat as Hle.
    { rewrite <- Hall. rewrite <- (take_drop (S (Z.to_nat i)) (buckets t)) at 2. rewrite join_app, length_app. lia. }
    unfold int_add. rewrite decide_True by (unfold is_s32; lia). cbn [rbind].
    match goal with |- context [for_each 0 (Z.of_nat (length l)) ?b tt] =>
      destruct (for_each_rule (λ _ _, True) 0 (Z.of_nat (length l)) b tt) as ([] & -> & _) end; [lia | done | |].
    + intros j [] Hj _. destruct (aget_is_Ok l j) as [x Hx]; [lia |]. rewrite Hx. cbn [rbind].
      rewrite (HashValue_Ok t m) by done. cbn [rbind]. apply aget_Ok in Hx as [_ Hx%list_elem_of_lookup_2].
      apply (Hb _ _ Hl) in Hx as [_ Hx]. exists tt. split; [| done]. by destruct (Z.eqb_spec i (hash (getKey x) mod numBuckets t)); [| lia].
    + cbn [rbind]. eexists. split; [done |]. replace (Z.to_nat (i + 1)) with (S (Z.to_nat i)) by lia. lia.
  - cbn [rbind]. rewrite take_ge by lia. rewrite Hall, Hni. by rewrite Z.eqb_refl.
Qed.
(** ** Rehashing *)

Lemma holds_empty sz n : 0 < sz < 2 ^ 31 → holds (InitBuckets sz n) ∅.
Proof.
  intros Hsz. split; [done |]. cbn. split; [apply length_replicate |]. split; [done |].
  intros i l [-> _]%lookup_replicate. split; [constructor |]. intros x. rewrite lookup_empty. set_solver.
Qed.

Lemma move_items_spec old : ∀ n t m, holds t m → NoDup (getKey <$> old) → (∀ x, x ∈ old → m !! getKey x = None) →
  (length old <= n)%nat →
  ∃ t' m', move_items n old t = Ok t' ∧ holds t' m' ∧ numBuckets t' = numBuckets t ∧ numItems t' = numItems t ∧
    ∀ k x, m' !! k = Some x ↔ m !! k = Some x ∨ x ∈ old ∧ getKey x = k.
Proof.
  induction old as [|x old IH]; intros n t m Ht Hnd Hnew Hn.
  { exists t, m. split; [by destruct n |]. split; [done |]. split; [done |]. split; [done |]. set_solver. }
  destruct n as [|n]; [cbn in Hn; lia |]. cbn [move_items seq_RemoveFront rbind]. cbn in Hnd. apply NoDup_cons in Hnd as [Hx Hnd].
  destruct (append_item_spec t m x Ht) as (t1 & -> & Ht1 & Hnb & Hni); [apply Hnew; by left |]. cbn [rbind].
  destruct (IH n t1 _ Ht1 Hnd) as (t' & m' & -> & Ht' & Hnb' & Hni' & Hin).
  - intros y Hy. rewrite lookup_insert_ne; [apply Hnew; by right |]. intros Heq. apply Hx. rewrite Heq. by apply list_elem_of_fmap_2.
  - cbn in Hn. lia.
  - exists t', m'. split; [done |]. split; [done |]. split; [congruence |]. split; [congruence |].
    intros k y. rewrite Hin, lookup_insert_Some, elem_of_cons.
    assert (m !! k = Some y → getKey x ≠ k) by (intros Hm <-; rewrite (Hnew x) in Hm by (by left); done). naive_solver.
Qed.

Lemma bucket_keys t m i l : holds t m → buckets t !! i = Some l → NoDup (getKey <$> l) ∧ (length l <= size m)%nat.
Proof.
  intros Ht Hl. pose proof Ht as (_ & _ & Hkey & Hb). destruct (Hb _ _ Hl) as [Hnd Hin]. split.
  - apply NoDup_fmap_2_strong; [| done]. intros x y Hx Hy Heq. apply Hin in Hx as [Hx _]. apply Hin in Hy as [Hy _]. congruence.
  - rewrite <- (all_items_length t m Ht). apply submseteq_length, NoDup_submseteq; [done |]. intros x Hx.
    apply list_elem_of_join. exists l. split; [done |]. by eapply list_elem_of_lookup_2.
Qed.

Lemma ReHash_spec t m : hash_repr t m → Z.of_nat (size m) < 2 ^ 31 → numBuckets t * IncreaseSizeBy < 2 ^ 31 →
  ∃ t', ReHash t = Ok t' ∧ hash_repr t' m ∧ numBuckets t' = numBuckets t * IncreaseSizeBy.
Proof.
  intros [Ht Hni] Hsz Hgrow. unfold ReHash. rewrite (SanityCheck_passes t m) by done. cbn [rbind].
  pose proof Ht as (Hn & Hlen & Hkey & Hb). unfold int_mul. rewrite decide_True by (unfold is_s32, IncreaseSizeBy in *; lia). cbn [rbind].
  set (sz := numBuckets t * IncreaseSizeBy) in *. assert (0 < sz) by (unfold sz, IncreaseSizeBy; lia).
  match goal with |- context [for_each 0 (numBuckets t) ?b ?s0] => destruct (for_each_rule
    (λ i t', ∃ m', holds t' m' ∧ numBuckets t' = sz ∧ numItems t' = numItems t ∧
      ∀ k x, m' !! k = Some x ↔ m !! k = Some x ∧ hash k mod numBuckets t < i) 0 (numBuckets t) b s0)
    as (t' & -> & m' & Ht' & Hnb & Hni' & Hin) end.
  - lia.
  - exists ∅. split; [by apply holds_empty |]. split; [done |]. split; [done |]. intros k x. rewrite lookup_empty. split; [done |].
    intros [_ Hlt]. pose proof (Z.mod_pos_bound (hash k) (numBuckets t)). lia.
  - intros i t1 Hi (m1 & Ht1 & Hnb1 & Hni1 & Hin1). destruct (lookup_lt_is_Some_2 (buckets t) (Z.to_nat i)) as [l Hl]; [lia |].
    rewrite (proj2 (aget_Ok (buckets t) i l)) by (split; [lia | done]). cbn [rbind]. destruct (bucket_keys _ _ _ _ Ht Hl) as [Hlk Hls].
    destruct (Hb _ _ Hl) as [_ Hlx]. rewrite Z2Nat.id in Hlx by lia.
    destruct (move_items_spec l (Z.to_nat (numItems t)) t1 m1 Ht1 Hlk) as (t2 & m2 & -> & Ht2 & Hnb2 & Hni2 & Hin2).
    + intros x Hx. destruct (m1 !! getKey x) as [y|] eqn:Hy; [| done]. apply Hin1 in Hy as [_ Hy]. apply Hlx in Hx as [_ Hx]. lia.
    + rewrite Hni. lia.
    + exists t2. split; [done |]. exists m2. split; [done |]. split; [congruence |]. split; [congruence |].
      intros k x. rewrite Hin2, Hin1. rewrite Hlx. split.
      * intros [[Hx Hlt]|[[Hx Hi'] <-]]; (split; [done | lia]).
      * intros [Hx Hlt]. destruct (decide (hash k mod numBuckets t = i)) as [He|]; [right | left; split; [done | lia]].
        by rewrite (Hkey _ _ Hx).
  - cbn [rbind]. assert (m' = m) as ->.
    { apply map_eq. intros k. apply option_eq. intros x. rewrite Hin. split; [by intros [? _] |]. intros Hx. split; [done |].
      apply Z.mod_pos_bound. lia. }
    rewrite (SanityCheck_passes t' m) by (done || congruence). cbn [rbind]. exists t'. split; [done |]. split; [| done].
    split; [done | congruence].
Qed.

(** ** The calls *)

Definition small (m : gmap Key T) : Prop := Z.of_nat (size m) < 2 ^ 30.

Lemma table_Insert_spec t m x : hash_repr t m → small m →
  match m !! getKey x with
  | Some _ => HashTable_Insert t x = Fail AssertFailed
  | None => ∃ t', HashTable_Insert t x = Ok t' ∧ hash_repr t' (<[getKey x := x]> m)
  end.
Proof.
  intros Hr Hsm. unfold small in Hsm. pose proof Hr as [Ht Hni]. unfold HashTable_Insert. rewrite (IsInTable_spec t m) by done. cbn [rbind].
  destruct (m !! getKey x) eqn:Hm; [done |]. cbn [negb bool_decide rbind].
  assert (∃ t1, (if ResizeRatio <=? Z.quot (numItems t) (numBuckets t) then ReHash t else Ok t) = Ok t1 ∧ hash_repr t1 m)
    as (t1 & -> & Ht1 & Hni1).
  { destruct (Z.leb_spec ResizeRatio (Z.quot (numItems t) (numBuckets t))) as [Hg|]; [| by exists t].
    destruct (ReHash_spec t m Hr) as (t1 & ? & ? & _); [lia | | by exists t1].
    pose proof Ht as (Hn & _). rewrite Z.quot_div_nonneg in Hg by lia. unfold ResizeRatio, IncreaseSizeBy in *.
    pose proof (Z.mul_div_le (numItems t) (numBuckets t) ltac:(lia)). nia. }
  cbn [rbind]. destruct (append_item_spec t1 m x Ht1 Hm) as (t2 & -> & Ht2 & Hnb2 & Hni2). cbn [rbind].
  unfold int_add. rewrite decide_True by (unfold is_s32; rewrite Hni2, Hni1; lia). cbn [rbind].
  assert (holds (mkHash (buckets t2) (numBuckets t2) (numItems t2 + 1)) (<[getKey x:=x]> m)) as Ht3 by done.
  rewrite (IsInTable_spec _ _ _ Ht3), lookup_insert_eq. cbn. eexists. split; [done |]. split; [done |]. cbn.
  rewrite map_size_insert_None by done. lia.
Qed.

Lemma table_Remove_spec t m k : hash_repr t m →
  match m !! k with
  | None => HashTable_Remove t k = Fail AssertFailed
  | Some x => ∃ t', HashTable_Remove t k = Ok (x, t') ∧ hash_repr t' (delete k m)
  end.
Proof.
  intros [Ht Hni]. unfold HashTable_Remove. rewrite (HashValue_Ok t m) by done. cbn [rbind]. unfold FindInBucket.
  destruct (bucket_of t m k Ht) as (l & Hl & Hget). rewrite Hget. cbn [rbind]. rewrite (find_key_spec t m) by done.
  pose proof Ht as (Hn & Hlen & Hkey & Hb). destruct (m !! k) as [x|] eqn:Hm; [| done]. pose proof (Hkey _ _ Hm) as <-.
  destruct (Hb _ _ Hl) as [Hnd Hin]. pose proof (Z.mod_pos_bound (hash (getKey x)) (numBuckets t) ltac:(lia)) as Hr.
  rewrite Z2Nat.id in Hin by lia.
  assert (x ∈ l) as Hx by (by apply Hin). rewrite bool_decide_eq_true_2 by done. cbn [rbind]. rewrite aset_in by lia. cbn [rbind].
  set (t' := mkHash _ _ _). assert (holds t' (delete (getKey x) m)) as Ht'.
  { split; [done |]. split; [by cbn; rewrite length_insert |]. split; [by intros k y [_ Hy]%lookup_delete_Some; apply Hkey |].
    cbn [buckets numBuckets t']. intros i l'. rewrite list_lookup_insert_Some. intros [(<- & <- & _)|[Hne Hi]].
    - unfold seq_remove. split; [by apply NoDup_filter |]. intros y. rewrite list_elem_of_filter, Hin, lookup_delete_Some, Z2Nat.id by lia.
      assert (m !! getKey y = Some y → getKey x = getKey y → y = x) by (intros Hy Heq; rewrite Heq in Hm; congruence). naive_solver.
    - destruct (Hb _ _ Hi) as [Hnd' Hin']. split; [done |]. intros y. rewrite Hin', lookup_delete_Some. split; [| naive_solver].
      intros [Hy Hh]. split; [split; [| done] | done]. intros Heq. apply Hne. by rewrite Heq, Hh, Nat2Z.id. }
  rewrite (IsInTable_spec _ _ _ Ht'), lookup_delete_eq. cbn. eexists. split; [done |]. split; [done |]. cbn.
  rewrite map_size_delete, Hm. assert (size m ≠ 0%nat) by (rewrite map_size_non_empty_iff; intros ->; done). lia.
Qed.
(** ** Walking through a table *)

Lemma FindNextFullBucket_spec t m (b : nat) : holds t m → (b <= length (buckets t))%nat →
  ∃ b', FindNextFullBucket t (Z.of_nat b) = Ok (Z.of_nat b') ∧ (b <= b' <= length (buckets t))%nat ∧
    mjoin (drop b (buckets t)) = mjoin (drop b' (buckets t)) ∧
    ((b' < length (buckets t))%nat → ∃ x l, buckets t !! b' = Some (x :: l)).
Proof.
  intros (Hn & Hlen & _) Hb. unfold FindNextFullBucket.
  match goal with |- context [for_ret (Z.of_nat b) (numBuckets t) ?f tt] => destruct (for_ret_rule
    (λ i _, Z.of_nat b <= i <= numBuckets t ∧ mjoin (drop b (buckets t)) = mjoin (drop (Z.to_nat i) (buckets t)))
    (λ i, Z.of_nat b <= i < numBuckets t ∧ mjoin (drop b (buckets t)) = mjoin (drop (Z.to_nat i) (buckets t)) ∧
      ∃ x l, buckets t !! Z.to_nat i = Some (x :: l)) (Z.of_nat b) (numBuckets t) f tt) as (r & -> & Hr) end.
  - lia.
  - rewrite Nat2Z.id. split; [lia | done].
  - intros i [] Hi [_ Heq]. destruct (lookup_lt_is_Some_2 (buckets t) (Z.to_nat i)) as [l Hl]; [lia |].
    rewrite (proj2 (aget_Ok (buckets t) i l)) by (split; [lia | done]). cbn [rbind]. eexists. split; [done |].
    destruct l as [|x l].
    + split; [lia |]. rewrite Heq, (drop_S _ _ _ Hl). cbn. by replace (Z.to_nat (i + 1)) with (S (Z.to_nat i)) by lia.
    + split; [lia |]. split; [done |]. by exists x, l.
  - cbn [rbind]. destruct r as [[]|i].
    + destruct Hr as [Hr Heq]. exists (Z.to_nat (numBuckets t)). split; [f_equal; lia |]. split; [lia |]. split; [done |]. lia.
    + destruct Hr as (Hr & Heq & Hx). exists (Z.to_nat i). split; [f_equal; lia |]. split; [lia |]. split; [done |]. done.
Qed.

(** [at_items t it xs]: the iterator has [xs] still to visit. *)
Definition at_items t (it : HashIterator) (xs : list T) : Prop :=
  ∃ b : nat, bucket it = Z.of_nat b ∧ (b <= length (buckets t))%nat ∧
    if decide (b < length (buckets t))%nat
    then ∃ x l, bucketIter it = Some (x :: l) ∧ xs = (x :: l) ++ mjoin (drop (S b) (buckets t))
    else xs = [].

Lemma enter_bucket_spec t m (b : nat) : holds t m → (b <= length (buckets t))%nat →
  ∃ it, (b' ← FindNextFullBucket t (Z.of_nat b); enter_bucket t b') = Ok it ∧ at_items t it (mjoin (drop b (buckets t))).
Proof.
  intros Ht Hb. destruct (FindNextFullBucket_spec t m b Ht Hb) as (b' & -> & Hb' & -> & Hx). cbn [rbind].
  pose proof Ht as (Hn & Hlen & _). unfold enter_bucket. destruct (Z.ltb_spec (Z.of_nat b') (numBuckets t)).
  - destruct Hx as (x & l & Hl); [lia |]. rewrite (aget_lookup _ _ _ Hl). cbn [rbind]. eexists. split; [done |].
    exists b'. split; [done |]. split; [lia |]. rewrite decide_True by lia. exists x, l. split; [done |]. by rewrite (drop_S _ _ _ Hl).
  - eexists. split; [done |]. exists b'. split; [done |]. split; [lia |]. rewrite decide_False by lia.
    by rewrite drop_ge by lia.
Qed.

Lemma at_end t m it : holds t m → at_items t it [] → HashIterator_IsDone t it = true.
Proof.
  intros (Hn & Hlen & _) (b & Hb & Hbl & Hxs). unfold HashIterator_IsDone.
  case_decide; [by destruct Hxs as (? & ? & _ & ?) |]. apply Z.eqb_eq. lia.
Qed.

Lemma at_item t m it x xs : holds t m → at_items t it (x :: xs) →
  HashIterator_IsDone t it = false ∧ HashIterator_Item t it = Ok x ∧
  ∃ it', HashIterator_Next t it = Ok it' ∧ at_items t it' xs.
Proof.
  intros Ht (b & Hb & Hbl & Hxs). pose proof Ht as (Hn & Hlen & _).
  case_decide as Hlt; [| done]. destruct Hxs as (y & l & Hit & [= -> ->]).
  assert (HashIterator_IsDone t it = false) as Hd by (apply Z.eqb_neq; lia).
  unfold HashIterator_Item, HashIterator_Next. rewrite Hd, Hit. split; [done |]. split; [done |]. destruct l as [|z l].
  - rewrite Hb. replace (Z.of_nat b + 1) with (Z.of_nat (S b)) by lia. cbn [app]. by apply (enter_bucket_spec t m).
  - eexists. split; [done |]. exists b. split; [done |]. split; [done |]. rewrite decide_True by done. by exists z, l.
Qed.

(** The walk takes as many rounds as there are items, no fewer. *)
Lemma table_iterate_spec t m : holds t m → ∀ xs n it, at_items t it xs →
  iterate n t it = if decide (length xs <= n)%nat then Ok xs else Fail OutOfFuel.
Proof.
  intros Ht. induction xs as [|x xs IH]; intros n it Hit.
  - pose proof (at_end t m it Ht Hit) as Hd. rewrite decide_True by (cbn; lia). destruct n; cbn; by rewrite Hd.
  - destruct (at_item t m it x xs Ht Hit) as (Hd & Hi & it' & Hnext & Hit'). destruct n as [|n]; cbn [iterate]; rewrite Hd.
    + by rewrite decide_False by (cbn; lia).
    + rewrite Hi, Hnext. cbn [rbind]. rewrite (IH n it' Hit'). cbn [length]. repeat case_decide; try lia; done.
Qed.

Lemma table_Apply_spec {S} t m (func : S → T → result S) (s : S) (step : S → T → S) :
  holds t m → (∀ s x, x ∈ mjoin (buckets t) → func s x = Ok (step s x)) →
  HashTable_Apply t func s = Ok (foldl step s (mjoin (buckets t))).
Proof.
  intros (Hn & Hlen & _) Hf. unfold HashTable_Apply.
  match goal with |- for_each 0 _ ?f s = _ => destruct (for_each_rule
    (λ i s', s' = foldl step s (mjoin (take (Z.to_nat i) (buckets t)))) 0 (numBuckets t) f s) as (s' & -> & ->) end.
  - lia.
  - done.
  - intros i s' Hi ->. destruct (lookup_lt_is_Some_2 (buckets t) (Z.to_nat i)) as [l Hl]; [lia |].
    rewrite (proj2 (aget_Ok (buckets t) i l)) by (split; [lia | done]). cbn [rbind].
    replace (Z.to_nat (i + 1)) with (Datatypes.S (Z.to_nat i)) by lia. rewrite (take_S_r _ _ _ Hl), join_app, foldl_app.
    cbn. rewrite app_nil_r. set (s1 := foldl step s _).
    destruct (for_each_rule (λ j s', s' = foldl step s1 (take (Z.to_nat j) l)) 0 (Z.of_nat (length l)) (λ j s, x ← aget l j; func s x) s1)
      as (s' & -> & ->).
    + lia.
    + done.
    + intros j s' Hj ->. destruct (lookup_lt_is_Some_2 l (Z.to_nat j)) as [x Hx]; [lia |].
      rewrite (proj2 (aget_Ok l j x)) by (split; [lia | done]). cbn [rbind]. rewrite Hf.
      2: { apply list_elem_of_join. exists l. split; by eapply list_elem_of_lookup_2. }
      eexists. split; [done |]. replace (Z.to_nat (j + 1)) with (Datatypes.S (Z.to_nat j)) by lia.
      by rewrite (take_S_r _ _ _ Hx), foldl_app.
    + eexists. split; [done |]. by rewrite Nat2Z.id, firstn_all.
  - by rewrite take_ge by lia.
Qed.
(** ** Properties *)

Inductive hcall := HInsert (x : T) | HFind (k : Key) | HIsIn (k : Key) | HRemove (k : Key) | HIsEmpty.
Inductive hret := HUnit | HItem (x : option T) | HBool (b : bool).

Definition hash_call t (c : hcall) : result (hret * HashTable) :=
  match c with
  | HInsert x => t ← HashTable_Insert t x; Ok (HUnit, t)
  | HFind k => r ← Find t k; Ok (HItem r, t)
  | HIsIn k => r ← IsInTable t k; Ok (HBool r, t)
  | HRemove k => '(x, t) ← HashTable_Remove t k; Ok (HItem (Some x), t)
  | HIsEmpty => Ok (HBool (HashTable_IsEmpty t), t)
  end.

(** The same on a finite map from keys to items. *)
Definition map_call (m : gmap Key T) (c : hcall) : result (hret * gmap Key T) :=
  match c with
  | HInsert x => ASSERT (bool_decide (m !! getKey x = None));; Ok (HUnit, <[getKey x := x]> m)
  | HFind k => Ok (HItem (m !! k), m)
  | HIsIn k => Ok (HBool (bool_decide (is_Some (m !! k))), m)
  | HRemove k => match m !! k with Some x => Ok (HItem (Some x), delete k m) | None => Fail AssertFailed end
  | HIsEmpty => Ok (HBool (bool_decide (m = ∅)), m)
  end.

Fixpoint calls {S} (call : S → hcall → result (hret * S)) (s : S) (cs : list hcall) : result (list hret * S) :=
  match cs with
  | [] => Ok ([], s)
  | c :: cs => '(r, s) ← call s c; '(rs, s) ← calls call s cs; Ok (r :: rs, s)
  end.

Lemma hash_call_spec t m c : hash_repr t m → small m →
  match map_call m c with
  | Ok (r, m') => ∃ t', hash_call t c = Ok (r, t') ∧ hash_repr t' m' ∧ (size m' <= S (size m))%nat
  | Fail e => hash_call t c = Fail e
  end.
Proof.
  intros Hr Hsm. pose proof Hr as [Ht Hni]. destruct c as [x|k|k|k|]; cbn [map_call hash_call].
  - pose proof (table_Insert_spec t m x Hr Hsm) as Hi. destruct (m !! getKey x) eqn:Hm; cbn; [by rewrite Hi |].
    destruct Hi as (t' & -> & Hr'). exists t'. split; [done |]. split; [done |]. rewrite map_size_insert_None; done.
  - rewrite (Find_spec t m) by done. exists t. split; [done |]. split; [done | lia].
  - rewrite (IsInTable_spec t m) by done. exists t. split; [done |]. split; [done | lia].
  - pose proof (table_Remove_spec t m k Hr) as Hi. destruct (m !! k) eqn:Hm; cbn; [| by rewrite Hi].
    destruct Hi as (t' & -> & Hr'). exists t'. split; [done |]. split; [done |]. rewrite map_size_delete, Hm. lia.
  - exists t. unfold HashTable_IsEmpty. rewrite Hni. split; [| split; [done | lia]]. do 3 f_equal.
    destruct (decide (m = ∅)) as [-> |Hne]; [by rewrite bool_decide_eq_true_2 by done; rewrite map_size_empty |].
    rewrite bool_decide_eq_false_2 by done. apply map_size_non_empty_iff in Hne. apply Z.eqb_neq. lia.
Qed.

Lemma hash_calls_spec cs : ∀ t m, hash_repr t m → Z.of_nat (size m + length cs) < 2 ^ 30 →
  match calls map_call m cs with
  | Ok (rs, m') => ∃ t', calls hash_call t cs = Ok (rs, t') ∧ hash_repr t' m'
  | Fail e => calls hash_call t cs = Fail e
  end.
Proof.
  induction cs as [|c cs IH]; intros t m Hr Hsz; cbn [calls]; [by exists t |]. cbn [length] in Hsz.
  pose proof (hash_call_spec t m c Hr ltac:(unfold small; lia)) as Hc.
  destruct (map_call m c) as [[r m1]|e]; cbn [rbind]; [| by rewrite Hc]. destruct Hc as (t1 & -> & Hr1 & Hs1). cbn [rbind].
  specialize (IH t1 m1 Hr1 ltac:(lia)). destruct (calls map_call m1 cs) as [[rs m2]|e]; cbn [rbind]; [| by rewrite IH].
  destruct IH as (t2 & -> & Hr2). by exists t2.
Qed.

Lemma hash_repr_new : hash_repr HashTable_new ∅.
Proof. split; [by apply holds_empty | done]. Qed.
Lemma SelfTest_loops (p : list T) t : hash_repr t ∅ → NoDup (getKey <$> p) → Z.of_nat (length p) < 2 ^ 30 →
  ∃ t', HashTable_SelfTest t p (Z.of_nat (length p)) = Ok t' ∧ hash_repr t' ∅.
Proof.
  intros Hr Hnd Hlen. pose proof Hr as [Ht Hni]. unfold HashTable_SelfTest.
  destruct (enter_bucket_spec t ∅ 0 Ht ltac:(lia)) as (it & Hit & Hat).
  change (HashIterator_new t = Ok it) in Hit. rewrite Hit. cbn [rbind].
  rewrite (SanityCheck_passes t ∅) by done. unfold HashTable_IsEmpty at 1. rewrite Hni, map_size_empty. cbn [rbind Z.eqb Z.of_nat].
  rewrite drop_0 in Hat. assert (mjoin (buckets t) = []) as Hnil.
  { apply nil_length_inv. rewrite (all_items_length t ∅) by done. apply map_size_empty. }
  rewrite Hnil in Hat. rewrite (at_end t ∅ it Ht Hat). cbn [rbind].
  match goal with |- context [for_each 0 _ ?b t] => destruct (for_each_rule (λ i t', ∃ m, hash_repr t' m ∧ Z.of_nat (size m) = i ∧
    ∀ k x, m !! k = Some x ↔ x ∈ take (Z.to_nat i) p ∧ getKey x = k) 0 (Z.of_nat (length p)) b t) as (t1 & -> & m1 & Hr1 & _ & Hm1) end.
  - lia.
  - exists ∅. split; [done |]. split; [by rewrite map_size_empty |]. intros k x. rewrite lookup_empty. set_solver.
  - intros i t1 Hi (m & Hrm & Hsz & Hm). destruct (lookup_lt_is_Some_2 p (Z.to_nat i)) as [x Hx]; [lia |].
    rewrite (proj2 (aget_Ok p i x)) by (split; [lia | done]). cbn [rbind].
    assert (m !! getKey x = None) as Hnone.
    { destruct (m !! getKey x) as [y|] eqn:Hy; [| done]. apply Hm in Hy as [(j & Hj)%list_elem_of_lookup_1 Heq].
      apply lookup_take_Some in Hj as [Hj Hlt].
      assert (j = Z.to_nat i); [| lia]. apply (NoDup_lookup (getKey <$> p) _ _ (getKey x) Hnd); rewrite list_lookup_fmap.
      - rewrite Hj. cbn. by rewrite Heq.
      - by rewrite Hx. }
    pose proof (table_Insert_spec t1 m x Hrm ltac:(unfold small; lia)) as Hins. rewrite Hnone in Hins. destruct Hins as (t2 & -> & Hr2). cbn [rbind].
    pose proof Hr2 as [Ht2 Hn2]. rewrite (IsInTable_spec _ _ _ Ht2), lookup_insert_eq. cbn [rbind].
    unfold HashTable_IsEmpty. rewrite Hn2, map_size_insert_None by done. rewrite bool_decide_eq_true_2 by done. cbn [rbind].
    destruct (Z.eqb_spec (Z.of_nat (S (size m))) 0); [lia |]. cbn [negb rbind]. exists t2. split; [done |]. eexists. split; [done |].
    split; [rewrite map_size_insert_None by done; lia |]. intros k y. replace (Z.to_nat (i + 1)) with (S (Z.to_nat i)) by lia.
    rewrite lookup_insert_Some, (take_S_r _ _ _ Hx), elem_of_app, list_elem_of_singleton, Hm.
    assert (y ∈ take (Z.to_nat i) p → getKey y = k → getKey x ≠ k) as Hne.
    { intros Hy Hk Hkx. assert (m !! k = Some y) as Hmy by (by apply Hm). rewrite <- Hkx, Hnone in Hmy. done. }
    naive_solver.
  - rewrite Nat2Z.id, firstn_all in Hm1. cbn [rbind].
    match goal with |- context [for_each 0 _ ?b t1] => destruct (for_each_rule (λ i t', ∃ m, hash_repr t' m ∧
      ∀ k x, m !! k = Some x ↔ x ∈ drop (Z.to_nat i) p ∧ getKey x = k) 0 (Z.of_nat (length p)) b t1) as (t2 & -> & m2 & Hr2 & Hm2) end.
    + lia.
    + by exists m1.
    + intros i t2 Hi (m & Hrm & Hm). destruct (lookup_lt_is_Some_2 p (Z.to_nat i)) as [x Hx]; [lia |].
      rewrite (proj2 (aget_Ok p i x)) by (split; [lia | done]). cbn [rbind]. rewrite (drop_S _ _ _ Hx) in Hm.
      assert (m !! getKey x = Some x) as Hin by (apply Hm; split; [by left | done]).
      pose proof (table_Remove_spec t2 m (getKey x) Hrm) as Hrem. rewrite Hin in Hrem. destruct Hrem as (t3 & -> & Hr3). cbn [rbind].
      rewrite bool_decide_eq_true_2 by done. cbn [rbind]. exists t3. split; [done |]. eexists. split; [done |].
      intros k y. replace (Z.to_nat (i + 1)) with (S (Z.to_nat i)) by lia. rewrite lookup_delete_Some, Hm, elem_of_cons.
      assert (y ∈ drop (S (Z.to_nat i)) p → getKey x ≠ getKey y) as Hne.
      { intros (j & Hj)%list_elem_of_lookup_1 Heq. rewrite lookup_drop in Hj.
        assert (Z.to_nat i = S (Z.to_nat i) + j)%nat; [| lia]. apply (NoDup_lookup (getKey <$> p) _ _ (getKey x) Hnd); rewrite list_lookup_fmap.
        - by rewrite Hx.
        - rewrite Hj. cbn. by rewrite Heq. }
      naive_solver.
    + rewrite Nat2Z.id, drop_all in Hm2. cbn [rbind]. assert (m2 = ∅) as ->.
      { apply map_eq. intros k. apply option_eq. intros x. rewrite Hm2, lookup_empty. set_solver. }
      pose proof Hr2 as [Ht2 Hn2]. unfold HashTable_IsEmpty. rewrite Hn2, map_size_empty. cbn [rbind Z.eqb Z.of_nat].
      rewrite (SanityCheck_passes t2 ∅) by done. cbn [rbind]. by exists t2.
Qed.

(** C19: a hash table is a finite map.  Whatever the hash function, any
    sequence of calls from an empty table gives the results of the same calls
    on a map from keys to items, through every growth of the table: inserting a
    key twice and removing one that is absent are the only assertions that
    fail. *)
Theorem HashTable_refines_map (cs : list hcall) (Hcs : Z.of_nat (length cs) < 2 ^ 30) :
  match calls map_call ∅ cs with
  | Ok (rs, m) => ∃ t, calls hash_call HashTable_new cs = Ok (rs, t) ∧ hash_repr t m
  | Fail e => calls hash_call HashTable_new cs = Fail e
  end.
Proof. apply (hash_calls_spec cs HashTable_new ∅ hash_repr_new). by rewrite map_size_empty. Qed.

(** C40: the loops over a hash table end.  Walking a table with an iterator
    takes as many rounds as there are items, no fewer, and meets every item
    exactly once, in the order in which Apply calls its function; moving the
    items into four times the buckets succeeds; and the module's self test
    runs to its end on any items with different keys, leaving the table
    empty. *)
Theorem HashTable_loops_end t m (Hr : hash_repr t m) (Hm : Z.of_nat (size m) < 2 ^ 31)
    (Hn : numBuckets t * IncreaseSizeBy < 2 ^ 31) :
  (∃ it xs, HashIterator_new t = Ok it ∧ xs ≡ₚ (map_to_list m).*2 ∧ Z.of_nat (length xs) = numItems t ∧
    (∀ n, iterate n t it = if decide (length xs <= n)%nat then Ok xs else Fail OutOfFuel) ∧
    HashTable_Apply t (λ seen x, Ok (seen ++ [x])) [] = Ok xs) ∧
  (∃ t', ReHash t = Ok t' ∧ hash_repr t' m) ∧
  (∀ p, m = ∅ → NoDup (getKey <$> p) → Z.of_nat (length p) < 2 ^ 30 →
    ∃ t', HashTable_SelfTest t p (Z.of_nat (length p)) = Ok t' ∧ hash_repr t' ∅).
Proof.
  pose proof Hr as [Ht Hni]. split; [| split].
  - destruct (enter_bucket_spec t m 0 Ht ltac:(lia)) as (it & Hit & Hat). rewrite drop_0 in Hat.
    exists it, (mjoin (buckets t)). split; [done |]. split; [by apply all_items_perm |].
    split; [by rewrite (all_items_length t m Ht) |]. split; [intros n; by apply (table_iterate_spec t m) |].
    rewrite (table_Apply_spec t m _ _ (λ seen x, seen ++ [x])) by done. f_equal.
    assert (∀ xs acc, foldl (λ seen (x : T), seen ++ [x]) acc xs = acc ++ xs) as Hfold; [| by rewrite Hfold].
    induction xs as [|x xs IH]; intros acc; cbn; [by rewrite app_nil_r |]. by rewrite IH, <- app_assoc.
  - destruct (ReHash_spec t m Hr Hm Hn) as (t' & ? & ? & _). by exists t'.
  - intros p -> Hnd Hp. by apply SelfTest_loops.
Qed.

End hash.

(** Items that are pairs of a key and a number, in a table where all keys collide. *)
Definition demo_items : list (Z * Z) := (λ k, (k, k * k)) <$> seqZ 0 13.

Lemma HashTable_refines_map_witness : ∃ t,
  calls (hash_call (fst : Z * Z → Z) (λ _, 7)) HashTable_new (HInsert <$> demo_items) =
    Ok (replicate 13 HUnit, t) ∧ hash_repr fst (λ _, 7) t (list_to_map ((λ x, (x.1, x)) <$> reverse demo_items)).
Proof.
  assert (Z.of_nat (length (HInsert (Key:=Z) <$> demo_items)) < 2 ^ 30) as Hlen by (rewrite length_fmap; reflexivity).
  pose proof (HashTable_refines_map (fst : Z * Z → Z) (λ _, 7) (HInsert <$> demo_items) Hlen) as H.
  assert (calls (map_call fst) ∅ (HInsert <$> demo_items) =
    Ok (replicate 13 HUnit, list_to_map ((λ x, (x.1, x)) <$> reverse demo_items))) as Hm by (vm_compute; reflexivity).
  rewrite Hm in H. exact H.
Defined.

Lemma HashTable_loops_end_witness : ∃ t', ReHash (fst : Z * Z → Z) (λ k, k) HashTable_new = Ok t' ∧
  hash_repr fst (λ k, k) t' ∅.
Proof.
  apply (HashTable_loops_end (fst : Z * Z → Z) (λ k, k) HashTable_new ∅).
  - apply hash_repr_new.
  - vm_compute. reflexivity.
  - vm_compute. reflexivity.
Defined.
