(* ===== verification/Kernel.v ===== *)
(** * The kernel (userprog/exception.cc, userprog/ksyscall.h, threads/ptable.cc,
      threads/pcb.cc, threads/kernel.cc, threads/main.cc)

    The parts put together.  [Env] is the state the kernel adds to that of
    [Threads]; [kcall] are the points at which its code goes on after it may have
    lost the processor, and [client] is what it does at each; [user_step] is one
    user instruction, with the way a system call takes into [ExceptionHandler].
    With [Console.CallBack] this instantiates [Threads.exec]. *)

From S2P Require Import Prelude Bitmap Machine Mips HostFile AddrSpace Interrupt Threads Sched Waiters Wakeups Locks.
From S2P Require Import Synch SynchProps Ksyscall Console STable PCB PTable Usermem.
Local Open Scope Z_scope.

(** Semaphores made at start-up, after those of the console. *)
Definition addrLock : Z := 2.
Definition bmsem_number : Z := 3.

(** The number of the next semaphore: where [new] puts it.  A semaphore that the
    code deletes stays in the map; what could still name it is dead
    ([PTable.Dead]). *)
Definition fresh_sem (m : gmap semid Semaphore) : Z :=
  map_fold (λ i _ n, match i with SUser k => Z.max n (k + 1) | _ => n end) 0 m.

(** The thread that runs [main]. *)
Definition main_thread : Z := 1.

(** ** System call numbers (userprog/syscall.h) *)
Definition SC_Halt : Z := 0.
Definition SC_Exit : Z := 1.
Definition SC_Exec : Z := 2.
Definition SC_Join : Z := 3.
Definition SC_Create : Z := 4.
Definition SC_Remove : Z := 5.
Definition SC_Open : Z := 6.
Definition SC_Read : Z := 7.
Definition SC_Write : Z := 8.
Definition SC_Seek : Z := 9.
Definition SC_Close : Z := 10.
Definition SC_ThreadFork : Z := 11.
Definition SC_ThreadYield : Z := 12.
Definition SC_ExecV : Z := 13.
Definition SC_ThreadExit : Z := 14.
Definition SC_ThreadJoin : Z := 15.
Definition SC_CreateSemaphore : Z := 16.
Definition SC_Wait : Z := 17.
Definition SC_Signal : Z := 18.
Definition SC_GetPID : Z := 19.
Definition SC_Add : Z := 42.
Definition SC_ReadNum : Z := 43.
Definition SC_PrintNum : Z := 44.
Definition SC_ReadChar : Z := 45.
Definition SC_PrintChar : Z := 46.
Definition SC_RandomNum : Z := 47.
Definition SC_ReadString : Z := 48.
Definition SC_PrintString : Z := 49.
Definition SC_CreateFile : Z := 50.

(** A system call that reads the console: what it has to do with the characters. *)
Inductive reader :=
  | RNum | RChar
  | RString (va len : Z) (buffer : list Z)
  | RFile (va size id : Z) (buffer : list Z).

(** Where kernel code goes on.  [typed]: the characters a reader has got so far. *)
Inductive kcall :=
  | KMain (name : list Z)                          (* main, after Initialize *)
  | KSyscall                                       (* ExceptionHandler *)
  | KReturn (v : Z)                                (* WriteRegister (2, v); IncreasePC () *)
  | KReturnPC                                      (* IncreasePC () *)
  | KReader (r : reader) (typed : list Z)
  | KTake (r : reader) (typed : list Z)            (* SynchConsoleInput::GetChar, after P *)
  | KPut (c : Z)                                   (* SynchConsoleOutput::PutChar, after Acquire *)
  | KExecUpdate (name : list Z)                    (* PTable::ExecUpdate, after bmsem->P *)
  | KPCBExec (pid : Z)                             (* PCB::Exec, after multex->P *)
  | KStartProcess (pid : Z)
  | KFrames (main : bool) (o : OpenFile) (h : NoffHeader)   (* AddrSpace::Load, after addrLock->P *)
  | KSegments (o : OpenFile) (h : NoffHeader) (pt : list TranslationEntry) (np : Z)  (* ... after addrLock->V *)
  | KLoadFailed (main : bool)
  | KIncNumWait (pid mx : Z) | KDecNumWait (pid mx : Z)  (* between multex->P and V *)
  | KJoinWait (pid : Z)                            (* PTable::JoinUpdate, after IncNumWait *)
  | KJoined (pid : Z)                              (* ... after JoinWait *)
  | KExitRelease (pid : Z)                         (* PTable::ExitUpdate, after DecNumWait *)
  | KRemove (pid : Z).                             (* ... after ExitWait *)

Section kernel.
Context {B : Type} `{BitmapOps B}.

(** [processIDs]: the field of each thread. *)
Record Env := mkEnv {
  edevices : Devices; pTab : PTable B; semTab : STable B; gPhysPageBitMap : B; ehost : Host;
  processIDs : gmap Z Z }.

Definition with_edevices (e : Env) d := mkEnv d (pTab e) (semTab e) (gPhysPageBitMap e) (ehost e) (processIDs e).
Definition with_pTab (e : Env) t := mkEnv (edevices e) t (semTab e) (gPhysPageBitMap e) (ehost e) (processIDs e).
Definition with_semTab (e : Env) t := mkEnv (edevices e) (pTab e) t (gPhysPageBitMap e) (ehost e) (processIDs e).
Definition with_frames (e : Env) b := mkEnv (edevices e) (pTab e) (semTab e) b (ehost e) (processIDs e).
Definition with_host (e : Env) h := mkEnv (edevices e) (pTab e) (semTab e) (gPhysPageBitMap e) h (processIDs e).
Definition with_processIDs (e : Env) p := mkEnv (edevices e) (pTab e) (semTab e) (gPhysPageBitMap e) (ehost e) p.

#[export] Program Instance Env_devices : HasDevices Env := {| devs := edevices; with_devs := with_edevices |}.
Next Obligation. done. Qed.

#[local] Abbreviation instr := (instr kcall).
#[local] Abbreviation Threads := (Threads kcall Env).
#[local] Abbreviation Sim := (Sim Device Threads).
Implicit Types (s : Sim) (e : Env).

(** What the C++ program leaves open: the byte order of the host, the numbers of
    its generator, what [new] returns for a byte array and for a page table, and
    what lies behind the name of a thread other than main's, whose buffer
    [ExceptionHandler] has deleted. *)
Variable big_endian : bool.
Variable RandomNumber : Z → Z.
Variable new_bytes : Z → list Z.
Variable new_table : Z → list TranslationEntry.
Variable stale_name : Z → list Z.

Definition env_of s : Env := env (devices s).
Definition set_env s e : Sim := with_devices s (with_env (devices s) e).
Definition new_semaphore s (n value : Z) : Sim :=
  with_devices s (with_semaphores (devices s) (<[SUser n := Semaphore_new value]> (semaphores (devices s)))).

(** ** Exceptions

    All but system calls print a message and halt the machine. *)
Definition SysHalt {A} : result A := Fail Halted.

Definition HandleException (which : ExceptionType) (m : Machine) : result Machine :=
  match which with
  | NoException => Ok m
  | SyscallException => Fail Blocked
  | _ => SysHalt
  end.

(** A user instruction.  When it raises [SyscallException] ([Blocked] from the
    handler above), the machine is as [RaiseException] hands it to
    [ExceptionHandler], which runs as kernel code of the thread. *)
Definition user_step (m : Machine) : result (list instr * Machine) :=
  match OneInstruction big_endian HandleException m with
  | Ok m => Ok ([], m)
  | Fail Blocked =>
      m ← OneInstruction big_endian (λ _ m, Ok m) m;
      Ok ([IStatus SystemMode; ICall KSyscall; IStatus UserMode], m)
  | Fail f => Fail f
  end.

Definition copy_from_user (m : Machine) (va limit : Z) : result (list Z * Machine) :=
  User2System big_endian HandleException m va limit (new_bytes (limit + 1)).
Definition copy_to_user (m : Machine) (va len : Z) (buffer : list Z) : result (Z * Machine) :=
  System2User big_endian HandleException m va len buffer.

(** A string argument: its buffer and its characters. *)
Definition user_string s (va : Z) : result (list Z * list Z * Sim) :=
  '(buffer, m) ← copy_from_user (machine s) va (MAX_FILENAME_LENGTH + 1);
  name ← c_str buffer;
  Ok (buffer, name, with_machine s m).

(** [WriteRegister (2, (int) v)] *)
Definition WriteReg2 s (v : Z) : result Sim := m ← WriteRegister (machine s) 2 (s32 v); Ok (with_machine s m).
Definition ReturnPC s : result Sim := m ← IncreasePC (machine s); Ok (with_machine s m).
Definition Return s (v : Z) : result Sim := s ← WriteReg2 s v; ReturnPC s.

Definition done_with s (v : Z) : result (list instr * Sim) := s ← Return s v; Ok ([], s).

(** [kernel->currentThread->processID] *)
Definition current_pid s : result Z :=
  match processIDs (env_of s) !! currentThread (devices s) with Some p => Ok p | None => Fail Undefined end.

(** [kernel->currentThread->getName ()] *)
Definition current_name s : list Z :=
  if currentThread (devices s) =? main_thread then [109; 97; 105; 110; 0] else stale_name (currentThread (devices s)).

(** ** The console *)

(** Each character goes through [SynchConsoleOutput::PutChar]. *)
Definition put_all (out : list Z) : list instr := out ≫= λ c, SynchConsoleOutput_PutChar (KPut c).

(** The rest of a reading system call with the characters [typed] so far:
    [Blocked] when it needs another. *)
Definition reader_step (r : reader) (typed : list Z) s : result Sim :=
  match r with
  | RNum => '(num, _) ← SysReadNum typed; Return s num
  | RChar => '(c, _) ← SysReadChar typed; Return s c
  | RString va len buffer =>
      '(buffer, _) ← SysReadString buffer len typed;
      '(_, m) ← copy_to_user (machine s) va len buffer;
      ReturnPC (with_machine s m)
  | RFile va size id buffer =>
      pid ← current_pid s;
      '(res, t, h, _, buffer) ← PTable_Read (pTab (env_of s)) (ehost (env_of s)) pid typed buffer size id;
      s ← WriteReg2 (set_env s (with_host (with_pTab (env_of s) t) h)) res;
      '(_, m) ← (if negb (res =? -1) && negb (res =? -2) then copy_to_user (machine s) va res buffer
                 else Ok (0, machine s));
      ReturnPC (with_machine s m)
  end.

(** It asks for one character after the other. *)
Definition KReader_step (r : reader) (typed : list Z) s : result (list instr * Sim) :=
  match reader_step r typed s with
  | Ok s => Ok ([], s)
  | Fail Blocked => Ok (SynchConsoleInput_GetChar (KTake r typed), s)
  | Fail f => Fail f
  end.

Definition KTake_step (r : reader) (typed : list Z) s : result (list instr * Sim) :=
  '(ch, s) ← ConsoleInput_GetChar s;
  Ok (SynchConsoleInput_GetChar_end ++ [ICall (KReader r (typed ++ [ch]))], s).

(** ** Loading a program *)

(** The executable as [Load] reads it, its characters as bytes. *)
Definition file_view (h : Host) (o : OpenFile) : result view :=
  '(_, off, c) ← host_fd h (file o); Ok (mkView ((λ x, x mod 256) <$> c) (currentOffset o) off).

Definition KLoadFailed_step (main : bool) s : result (list instr * Sim) :=
  if main then SysHalt else Fail AssertFailed.

(** [AddrSpace::Load] up to [addrLock->P ()]; [main]: called by [main], not by
    [StartProcess]. *)
Definition Load_start (main : bool) (name : list Z) s : result (list instr * Sim) :=
  let e := env_of s in
  '(o, h) ← Open (ehost e) name 0 (new_bytes (strlen name + 1));
  match o with
  | None => KLoadFailed_step main s
  | Some o =>
      exe ← file_view h o;
      hdr ← read_noff big_endian exe (new_bytes sizeof_NoffHeader);
      Ok ([IP (SUser addrLock); ICall (KFrames main o hdr)], set_env s (with_host e h))
  end.

(** Up to [addrLock->V ()]. *)
Definition KFrames_step (main : bool) (o : OpenFile) (h : NoffHeader) s : result (list instr * Sim) :=
  let e := env_of s in
  '(r, k) ← load_frames new_table (mkKernel (machine s) (gPhysPageBitMap e) 0) h;
  match r with
  | None =>
      host ← OpenFile_delete (ehost e) o;
      Ok ([IV (SUser addrLock); ICall (KLoadFailed main)], set_env s (with_host e host))
  | Some (pt, np) =>
      Ok ([IV (SUser addrLock); ICall (KSegments o h pt np)],
          set_env (with_machine s (AddrSpace.machine k)) (with_frames e (AddrSpace.gPhysPageBitMap k)))
  end.

Definition KSegments_step (o : OpenFile) (h : NoffHeader) (pt : list TranslationEntry) (np : Z) s :
    result (list instr * Sim) :=
  let e := env_of s in
  exe ← file_view (ehost e) o;
  mem ← load_segments exe h pt (mainMemory (machine s));
  host ← OpenFile_delete (ehost e) o;
  Ok ([IExecute (mkAddrSpace (Some pt) np)], set_env (with_machine s (with_memory (machine s) mem)) (with_host e host)).

(** [Thread::FreeSpace] of the current thread. *)
Definition FreeSpace s : result Sim :=
  th ← find (threads (devices s)) (currentThread (devices s));
  match Threads.space th with
  | None => Ok s
  | Some a =>
      k ← AddrSpace_delete (mkKernel (machine s) (gPhysPageBitMap (env_of s)) 0) a;
      Ok (set_env s (with_frames (env_of s) (AddrSpace.gPhysPageBitMap k)))
  end.
(** ** Processes *)

(** [IncNumWait] and [DecNumWait] of process [p]. *)
Definition locked_by (p : PCB) (body : kcall) : list instr :=
  [IP (SUser (multex p)); ICall body; IV (SUser (multex p))].

(** Their bodies, on the object whose semaphore is [mx]: it was process [pid]
    when they were called, and may have left the table while they waited. *)
Definition on_object (t : PTable B) (pid mx : Z) (f : PCB → result PCB) : result (PTable B) :=
  e ← aget (pcb t) pid;
  match block e with
  | Ok p => if multex p =? mx then p ← f p; set_slot t pid (update e p) else Ok t
  | Fail _ => Ok t
  end.

Definition KIncNumWait_step (pid mx : Z) s : result (list instr * Sim) :=
  t ← on_object (pTab (env_of s)) pid mx IncNumWait;
  Ok ([], set_env s (with_pTab (env_of s) t)).

Definition KDecNumWait_step (pid mx : Z) s : result (list instr * Sim) :=
  t ← on_object (pTab (env_of s)) pid mx (λ p, Ok (DecNumWait p));
  Ok ([], set_env s (with_pTab (env_of s) t)).

(** The three semaphores of a new process. *)
Definition new_process_sems s : (Z * Z * Z) * Sim :=
  let n := fresh_sem (semaphores (devices s)) in
  ((n, n + 1, n + 2), new_semaphore (new_semaphore (new_semaphore s n 0) (n + 1) 0) (n + 2) 1).

Definition make_process s (init : bool) (id : Z) (name : list Z) : result Sim :=
  cur ← current_pid s;
  let '(sems, s) := new_process_sems s in
  let e := env_of s in
  '(t, h) ← (if init
             then initStartProcess (pTab e) (ehost e) cur sems name (new_bytes MAX_FILENAME_LENGTH) (new_bytes 6) (new_bytes 7)
             else new_process (pTab e) (ehost e) id cur cur sems name (new_bytes MAX_FILENAME_LENGTH) (new_bytes 6) (new_bytes 7));
  Ok (set_env s (with_host (with_pTab e t) h)).

(** [PTable::ExecUpdate] between [bmsem->P ()] and [multex->P ()] of the new
    process.  [buffer]: the name as it came from the user. *)
Definition KExecUpdate_step (buffer : list Z) s : result (list instr * Sim) :=
  let refuse := [IV (SUser (bmsem (pTab (env_of s)))); ICall (KReturn (-1))] in
  running ← strcmp_eq buffer (current_name s);
  if running then Ok (refuse, s) else
  main ← PTable_GetFileName (pTab (env_of s)) 0;
  is_main ← strcmp_eq buffer main;
  if is_main then Ok (refuse, s) else
  '(index, t) ← GetFreeSlot (pTab (env_of s));
  let s := set_env s (with_pTab (env_of s) t) in
  if index <? 0 then Ok (refuse, s) else
  name ← c_str buffer;
  s ← make_process s false index name;
  p ← pcb_live (pTab (env_of s)) index;
  Ok ([IP (SUser (multex p)); ICall (KPCBExec index)], s).

(** The rest of [PCB::Exec] and of [ExecUpdate]: the thread that [IFork] makes is
    the next one. *)
Definition KPCBExec_step (pid : Z) s : result (list instr * Sim) :=
  let e := env_of s in
  let t := nextThread (devices s) in
  p ← pcb_live (pTab e) pid;
  cur ← current_pid s;
  tab ← set_block (pTab e) pid (with_parent (with_thread p (Some t)) cur);
  Ok ([IFork [ICall (KStartProcess pid)]; IV (SUser (multex p)); IV (SUser (bmsem (pTab e))); ICall (KReturn pid)],
      set_env s (with_processIDs (with_pTab e tab) (<[t := pid]> (processIDs e)))).

Definition KStartProcess_step (pid : Z) s : result (list instr * Sim) :=
  buffer ← PTable_GetFileName (pTab (env_of s)) pid;
  name ← c_str buffer;
  Load_start false name s.

(** [main] once the kernel is initialised, for the program given by [-x]. *)
Definition KMain_step (name : list Z) s : result (list instr * Sim) :=
  s ← make_process s true 0 name; Load_start true name s.

Definition JoinUpdate (id : Z) s : result (list instr * Sim) :=
  if id <? 0 then done_with s (-1) else
  cur ← current_pid s;
  p ← pcb_block (pTab (env_of s)) id;
  if negb (cur =? parentID p) then done_with s (-1) else
  parent ← pcb_live (pTab (env_of s)) (parentID p);
  Ok (locked_by parent (KIncNumWait (parentID p) (multex parent)) ++ [ICall (KJoinWait id)], s).

Definition KJoinWait_step (id : Z) s : result (list instr * Sim) :=
  p ← pcb_live (pTab (env_of s)) id;
  Ok ([IP (SUser (joinsem p)); ICall (KJoined id)], s).

Definition KJoined_step (id : Z) s : result (list instr * Sim) :=
  p ← pcb_block (pTab (env_of s)) id;
  let ec := GetExitCode p in
  p ← pcb_live (pTab (env_of s)) id;
  Ok ([IV (SUser (exitsem p)); ICall (KReturn ec)], s).

(** [PTable::ExitUpdate] up to its first wait. *)
Definition ExitUpdate (exitcode : Z) s : result (list instr * Sim) :=
  id ← current_pid s;
  if id =? 0 then _ ← FreeSpace s; SysHalt else
  _ ← IsExist (pTab (env_of s)) id;
  p ← pcb_block (pTab (env_of s)) id;
  t ← set_block (pTab (env_of s)) id (SetExitCode p exitcode);
  parent ← pcb_live t (parentID p);
  Ok (locked_by parent (KDecNumWait (parentID p) (multex parent)) ++ [ICall (KExitRelease id)], set_env s (with_pTab (env_of s) t)).

(** [JoinRelease], then [ExitWait]. *)
Definition KExitRelease_step (id : Z) s : result (list instr * Sim) :=
  p ← pcb_live (pTab (env_of s)) id;
  Ok ([IV (SUser (joinsem p)); IP (SUser (exitsem p)); ICall (KRemove id)], s).

(** [Remove], and the end of [SysExit] should it come back. *)
Definition KRemove_step (id : Z) s : result (list instr * Sim) :=
  '(running, t, h) ← PTable_Remove (pTab (env_of s)) (ehost (env_of s)) id;
  s ← FreeSpace (set_env s (with_host (with_pTab (env_of s) t) h));
  Ok ([IFinish], s).

(** ** System calls (userprog/ksyscall.h, ExceptionHandler) *)

Definition SysCreateFile (name : list Z) s : result Sim :=
  if strlen name =? 0 then WriteReg2 s (-1)
  else
    '(ok, h) ← Create (ehost (env_of s)) name;
    WriteReg2 (set_env s (with_host (env_of s) h)) (if ok : bool then 0 else -1).

(** Up to [bmsem->P ()] of [ExecUpdate]. *)
Definition SysExec (buffer name : list Z) s : result (list instr * Sim) :=
  '(o, h) ← Open (ehost (env_of s)) name 0 (new_bytes (strlen name + 1));
  match o with
  | None => done_with s (-1)
  | Some o =>
      h ← OpenFile_delete h o;
      Ok ([IP (SUser (bmsem (pTab (env_of s)))); ICall (KExecUpdate buffer)], set_env s (with_host (env_of s) h))
  end.

Definition SysCreateSemaphore (name : list Z) (semval : Z) s : result Sim :=
  let e := env_of s in
  let n := fresh_sem (semaphores (devices s)) in
  '(res, t) ← STable_Create (semTab e) name n;
  let s := set_env s (with_semTab e t) in
  Return (if res =? -1 then s else new_semaphore s n semval) res.

Definition ExceptionHandler s : result (list instr * Sim) :=
  let e := env_of s in
  let m := machine s in
  type ← ReadRegister m 2;
  arg1 ← ReadRegister m 4;
  arg2 ← ReadRegister m 5;
  arg3 ← ReadRegister m 6;
  if type =? SC_Halt then SysHalt
  else if type =? SC_Add then r ← SysAdd arg1 arg2; done_with s r
  else if type =? SC_ReadNum then KReader_step RNum [] s
  else if type =? SC_PrintNum then
    out ← SysPrintNum arg1 (new_bytes 10) [];
    Ok (put_all out ++ [ICall KReturnPC], s)
  else if type =? SC_ReadChar then KReader_step RChar [] s
  else if type =? SC_PrintChar then
    Ok (put_all (SysPrintChar (s8 (arg1 mod 256)) []) ++ [ICall KReturnPC], s)
  else if type =? SC_RandomNum then
    let d := edevices e in
    done_with (set_env s (with_edevices e (with_drawn d (drawn d + 1)))) (s32 (RandomNumber (drawn d)))
  else if type =? SC_ReadString then
    '(buffer, m) ← copy_from_user m arg1 arg2;
    KReader_step (RString arg1 arg2 buffer) [] (with_machine s m)
  else if type =? SC_PrintString then
    '(buffer, m) ← copy_from_user m arg1 255;
    out ← SysPrintString buffer [];
    Ok (put_all out ++ [ICall KReturnPC], with_machine s m)
  else if type =? SC_CreateFile then
    '(_, name, s) ← user_string s arg1;
    s ← SysCreateFile name s; s ← ReturnPC s; Ok ([], s)
  else if type =? SC_Open then
    '(_, name, s) ← user_string s arg1;
    pid ← current_pid s;
    '(r, t, h) ← PTable_Open (pTab e) (ehost e) pid name (new_bytes (strlen name + 1)) arg2;
    done_with (set_env s (with_host (with_pTab e t) h)) r
  else if type =? SC_Close then
    pid ← current_pid s;
    '(r, t, h) ← PTable_Close (pTab e) (ehost e) pid arg1;
    done_with (set_env s (with_host (with_pTab e t) h)) r
  else if type =? SC_Exec then '(buffer, name, s) ← user_string s arg1; SysExec buffer name s
  else if type =? SC_Join then JoinUpdate arg1 s
  else if type =? SC_Exit then ExitUpdate arg1 s
  else if type =? SC_GetPID then pid ← current_pid s; done_with s pid
  else if type =? SC_CreateSemaphore then
    '(_, name, s) ← user_string s arg1;
    s ← SysCreateSemaphore name arg2 s; Ok ([], s)
  else if type =? SC_Wait then
    '(_, name, s) ← user_string s arg1;
    '(r, ins) ← STable_Wait (semTab e) name; Ok (ins ++ [ICall (KReturn r)], s)
  else if type =? SC_Signal then
    '(_, name, s) ← user_string s arg1;
    '(r, ins) ← STable_Signal (semTab e) name; Ok (ins ++ [ICall (KReturn r)], s)
  else if type =? SC_Read then
    '(buffer, m) ← copy_from_user m arg1 arg2;
    KReader_step (RFile arg1 arg2 arg3 buffer) [] (with_machine s m)
  else if type =? SC_Write then
    '(buffer, m) ← copy_from_user m arg1 arg2;
    pid ← current_pid s;
    '(r, t, h, out, _) ← PTable_Write (pTab e) (ehost e) pid [] buffer arg2 arg3;
    Ok (put_all out ++ [ICall (KReturn r)], set_env (with_machine s m) (with_host (with_pTab e t) h))
  else if type =? SC_Seek then
    pid ← current_pid s;
    '(r, t, h) ← PTable_Seek (pTab e) (ehost e) pid arg1 arg2;
    done_with (set_env s (with_host (with_pTab e t) h)) r
  else if bool_decide (type ∈ [SC_Create; SC_ThreadFork; SC_ThreadYield; SC_ExecV; SC_ThreadExit; SC_ThreadJoin; SC_Remove])
  then SysHalt
  else Fail AssertFailed.

(** What the kernel does at each of these points. *)
Definition client (x : kcall) s : result (list instr * Sim) :=
  match x with
  | KMain name => KMain_step name s
  | KSyscall => ExceptionHandler s
  | KReturn v => done_with s v
  | KReturnPC => s ← ReturnPC s; Ok ([], s)
  | KReader r typed => KReader_step r typed s
  | KTake r typed => KTake_step r typed s
  | KPut c => s ← ConsoleOutput_PutChar s c; Ok ([], s)
  | KExecUpdate buffer => KExecUpdate_step buffer s
  | KPCBExec pid => KPCBExec_step pid s
  | KStartProcess pid => KStartProcess_step pid s
  | KFrames main o h => KFrames_step main o h s
  | KSegments o h pt np => KSegments_step o h pt np s
  | KLoadFailed main => KLoadFailed_step main s
  | KIncNumWait pid mx => KIncNumWait_step pid mx s
  | KDecNumWait pid mx => KDecNumWait_step pid mx s
  | KJoinWait pid => KJoinWait_step pid s
  | KJoined pid => KJoined_step pid s
  | KExitRelease pid => KExitRelease_step pid s
  | KRemove pid => KRemove_step pid s
  end.

(** ** Start-up

    [Kernel::Initialize] and the [main] thread behind it, for [nachos -x name];
    the disk and the post office are left out.  [keys]: what will be typed;
    [main_pid]: the [processID] that the constructor of the main thread leaves
    uninitialised. *)
Variable new_bitmap : Z → result B.

Definition Kernel_Initialize (randomSlice : bool) (keys : list key) (main_pid : Z) (host : Host) (name : list Z) :
    result Sim :=
  frames ← new_bitmap FrameBits;
  ptab ← PTable_new MAX_PROCESS new_bitmap (replicate (Z.to_nat MAX_PROCESS) Null) bmsem_number;
  sembits ← new_bitmap MAX_SEMAPHORE;
  stab ← STable_new sembits (replicate (Z.to_nat MAX_SEMAPHORE) None);
  '(_, host) ← FileSystem_new host (replicate 10 None) (new_bytes 6) (new_bytes 7);
  let e := mkEnv (mkDevices char_EOF keys false [] randomSlice false 0) ptab stab frames host
             {[main_thread := main_pid]} in
  let main := mkThread RUNNING ([ISetLevel IntOn; ICall (KMain name)] ++ [IFinish]) None
                (replicate (Z.to_nat NumTotalRegs) 0) None in
  let sems := list_to_map [
    (SUser console_in, Semaphore_new 0); (SUser console_out, Semaphore_new 0);
    (SUser addrLock, Semaphore_new 1); (SUser bmsem_number, Semaphore_new 1);
    (SLock console_in, Semaphore_new 1); (SLock console_out, Semaphore_new 1)] in
  let locks := list_to_map [(console_in, None); (console_out, None)] in
  let k := mkThreads main_thread [] None {[main_thread := main]} sems locks ∅ (main_thread + 1) 0 e in
  s ← SetInterrupt RandomNumber (mkSim Interrupt_new Statistics_new Machine_new k);
  Schedule s DConsoleInput ConsoleTime ConsoleReadInt.
End kernel.
