(* ===== verification/KernelLaws.v ===== *)
(** * The kernel keeps the laws of its parts

    [Kernel.user_step] is a [UserLaw] and [Kernel.client] a [ClientLaw]: whatever
    a user program executes and whatever it asks for, the registers hold words,
    memory holds bytes, the clock and the pending interrupts stay in order, and
    the threads are touched only through the operations of [Threads]. *)

From S2P Require Import Prelude Bitmap Machine Mips HostFile AddrSpace Interrupt Threads Sched Waiters Wakeups Locks.
From S2P Require Import Synch SynchProps Ksyscall Console STable PCB PTable Usermem Kernel.
Local Open Scope Z_scope.

(** ** The machine *)

Lemma typed_inv m : machine_typed m ↔ machine_inv (λ _, True) m.
Proof. unfold machine_typed, machine_inv. naive_solver. Qed.

Lemma WriteRegister_typed m r v m' : machine_typed m → r ≠ LoadReg → is_s32 v →
  WriteRegister m r v = Ok m' → machine_typed m'.
Proof.
  intros [Hr Hm] Hne Hv Hw. unfold WriteRegister in Hw. inv_res. apply andb_true_iff in Hx as [H0%Z.leb_le H1%Z.ltb_lt].
  destruct (regs_ok_set (registers m) r v) as [Hs Ho]; [done | unfold NumTotalRegs in *; lia | done | done |].
  rewrite Hs in Hx0. injection Hx0 as <-. split; [exact Ho | exact Hm].
Qed.

Lemma ReadRegister_s32 m r v : machine_typed m → ReadRegister m r = Ok v → is_s32 v.
Proof.
  intros [(_ & Hf & _) _] Hr. unfold ReadRegister in Hr. inv_res. apply aget_Ok in Hr as [_ Hr]. by eapply Forall_lookup_1.
Qed.

Lemma IncreasePC_typed m m' : machine_typed m → IncreasePC m = Ok m' → machine_typed m'.
Proof.
  intros Hm Hi. unfold IncreasePC in Hi.
  apply bind_Ok in Hi as (pc & Hpc & Hi). apply bind_Ok in Hi as (m1 & H1 & Hi).
  apply WriteRegister_typed in H1 as Hm1; [| done | done | by eapply ReadRegister_s32].
  apply bind_Ok in Hi as (pc1 & _ & Hi). apply bind_Ok in Hi as (pc2 & [-> Hs2]%int_add_Ok & Hi).
  apply bind_Ok in Hi as (m2 & H2 & Hi). apply WriteRegister_typed in H2 as Hm2; [| done | done | done].
  apply bind_Ok in Hi as (pc3 & _ & Hi). apply bind_Ok in Hi as (pc4 & [-> Hs4]%int_add_Ok & Hi).
  apply WriteRegister_typed in Hi; done.
Qed.

Section machine_laws.
Variable be : bool.
Variable H : ExceptionType → Machine → result Machine.
Hypothesis H_same : ∀ ex m m', H ex m = Ok m' → m' = m.

Lemma H_any ex m m' : machine_ok (λ _, True) m → H ex m = Ok m' → machine_ok (λ _, True) m'.
Proof. intros Hm Hh. by rewrite (H_same _ _ _ Hh). Qed.

Lemma ReadMem_typed m va r m' : machine_typed m → is_s32 va → ReadMem be H m va 1 = Ok (r, m') → machine_typed m'.
Proof.
  intros Hm Hva Hr. pose proof (any_ReadMem be H H_any m m va 1 (proj1 (typed_inv m) Hm) ltac:(by left) Hva) as Hp.
  rewrite Hr in Hp. cbn in Hp. destruct r; [by apply typed_inv, Hp | by apply typed_inv, (proj1 Hp)].
Qed.

Lemma WriteMem_typed m va v r m' : machine_typed m → is_s32 va → WriteMem be H m va 1 v = Ok (r, m') → machine_typed m'.
Proof.
  intros Hm Hva Hr. pose proof (any_WriteMem be H H_any m m va 1 v (proj1 (typed_inv m) Hm) ltac:(by left) Hva) as Hp.
  rewrite Hr in Hp. cbn in Hp. destruct r; [by apply typed_inv | by apply typed_inv, (proj1 Hp)].
Qed.

Lemma User2System_typed m va limit raw buffer m' : machine_typed m →
  User2System be H m va limit raw = Ok (buffer, m') → machine_typed m'.
Proof.
  intros Hm Hu. unfold User2System in Hu. apply bind_Ok in Hu as (n & _ & Hu). destruct (n <? 0); [done |].
  apply bind_Ok in Hu as (r & Hr & Hu).
  apply (for_ret_kept (λ s, machine_typed s.2) (λ s : list Z * Machine, machine_typed s.2)) in Hr; [| | done].
  - destruct r as [[[oc kb] m1]|[kb m1]]; injection Hu as _ <-; exact Hr.
  - intros i [[oc kb] m1] r1 Hm1 Hc. unfold copy_in in Hc. cbn in Hm1.
    apply bind_Ok in Hc as (addr & [-> Ha]%int_add_Ok & Hc). apply bind_Ok in Hc as ([c m2] & Hrc & Hc).
    apply bind_Ok in Hc as (kb2 & _ & [= <-]).
    assert (machine_typed m2) as Hm2.
    { unfold read_char in Hrc. apply bind_Ok in Hrc as ([r2 m3] & Hrm & Hrc).
      apply ReadMem_typed in Hrm; [| done | done]. by destruct r2, oc; inv_res. }
    by destruct (c =? 0).
Qed.

Lemma copy_out_typed n va len buffer : ∀ i m r m', machine_typed m →
  copy_out be H n va i len buffer m = Ok (r, m') → machine_typed m'.
Proof.
  induction n as [|n IH]; intros i m r m' Hm Hc; cbn in Hc;
    apply bind_Ok in Hc as (c & _ & Hc); apply bind_Ok in Hc as (addr & [-> Ha]%int_add_Ok & Hc);
    apply bind_Ok in Hc as ([b m1] & Hw & Hc); apply WriteMem_typed in Hw as Hm1; try done;
    destruct (_ && _); try done; try (by injection Hc as _ <-). by eapply IH.
Qed.

Lemma System2User_typed m va len buffer r m' : machine_typed m →
  System2User be H m va len buffer = Ok (r, m') → machine_typed m'.
Proof.
  intros Hm Hs. unfold System2User in Hs. destruct (len <? 0); [by injection Hs as _ <-|].
  destruct (len =? 0); [by injection Hs as _ <-|]. by eapply copy_out_typed.
Qed.

Lemma instruction_typed m m' : machine_typed m → OneInstruction be H m = Ok m' → machine_typed m'.
Proof. apply OneInstruction_typed, H_any. Qed.
End machine_laws.

Lemma HandleException_same ex m m' : HandleException ex m = Ok m' → m' = m.
Proof. destruct ex; cbn; try discriminate. congruence. Qed.

#[export] Instance user_step_law be : UserLaw (user_step be).
Proof.
  intros m ins m' Hm Hu. unfold user_step in Hu. destruct (OneInstruction be HandleException m) as [m1|f] eqn:Ho.
  - injection Hu as <- <-. split; [| done]. by eapply (instruction_typed be _ HandleException_same).
  - destruct f; try done. apply bind_Ok in Hu as (m1 & H1 & [= <- <-]). split; [| by repeat constructor].
    eapply (instruction_typed be (λ _ m, Ok m)); [| done | exact H1]. congruence.
Qed.

(** ** Loading keeps memory made of bytes *)

Lemma view_read_bytes exe n p bs : Forall is_byte (contents exe) → view_read exe n p = Ok bs → Forall is_byte bs.
Proof.
  intros Hb Hv. unfold view_read in Hv. apply bind_Ok in Hv as ([] & _ & Hv). destruct (n <? 0); [done |].
  injection Hv as <-. by apply Forall_take, Forall_drop.
Qed.

Lemma file_view_bytes h o exe : file_view h o = Ok exe → Forall is_byte (contents exe).
Proof.
  unfold file_view. intros ([[ino off] c] & _ & [= <-])%bind_Ok. cbn. apply Forall_fmap, Forall_true.
  intros x. unfold is_byte. cbn. apply Z.mod_pos_bound. lia.
Qed.

Section loading.
Context {B : Type} `{BitmapOps B}.

Lemma copy_pages_mem exe pt base i0 num lastp filepos mem mem' : Forall is_byte (contents exe) → mem_ok mem →
  copy_pages exe pt base i0 num lastp filepos mem = Ok mem' → mem_ok mem'.
Proof.
  intros Hb. apply (for_each_kept mem_ok). intros i m m' Hm Hc.
  apply bind_Ok in Hc as (e & _ & Hc). apply bind_Ok in Hc as (bs & Hbs & Hc).
  apply blk_put_mem_ok in Hc; [done | | done]. by eapply view_read_bytes.
Qed.

Lemma copy_head_mem exe pt base i off n filepos mem mem' : Forall is_byte (contents exe) → mem_ok mem →
  copy_head exe pt base i off n filepos mem = Ok mem' → mem_ok mem'.
Proof.
  intros Hb Hm Hc. apply bind_Ok in Hc as (e & _ & Hc). apply bind_Ok in Hc as (bs & Hbs & Hc).
  apply blk_put_mem_ok in Hc; [done | | done]. by eapply view_read_bytes.
Qed.

Lemma load_segments_mem exe h pt mem mem' : Forall is_byte (contents exe) → mem_ok mem →
  load_segments exe h pt mem = Ok mem' → mem_ok mem'.
Proof.
  intros Hb Hm Hl. unfold load_segments in Hl. apply bind_Ok in Hl as ([i1 m1] & H1 & Hl).
  assert (mem_ok m1) as Hm1.
  { unfold load_code in H1. destruct (_ >? 0); [| by injection H1 as _ <-].
    apply bind_Ok in H1 as (m & Hc & [= _ <-]). by eapply copy_pages_mem. }
  apply bind_Ok in Hl as ([i2 m2] & H2 & Hl).
  assert (mem_ok m2) as Hm2.
  { unfold load_data in H2. cbv zeta in H2. destruct (_ >? 0); [| by injection H2 as _ <-].
    apply bind_Ok in H2 as (m & Hc & H2). apply bind_Ok in H2 as (m' & Hc' & [= _ <-]).
    eapply copy_pages_mem; [done | | exact Hc']. destruct (_ && _); [by eapply copy_head_mem | congruence]. }
  unfold load_rdata in Hl. cbv zeta in Hl. destruct (_ >? 0); [| congruence].
  apply bind_Ok in Hl as (m & Hc & Hl). eapply copy_pages_mem; [done | | exact Hl].
  destruct (_ && _); [by eapply copy_head_mem | congruence].
Qed.

Lemma load_frames_mem new_table (k : Kernel B) h r k' : mem_ok (mainMemory (AddrSpace.machine k)) →
  load_frames new_table k h = Ok (r, k') →
  mem_ok (mainMemory (AddrSpace.machine k')) ∧ registers (AddrSpace.machine k') = registers (AddrSpace.machine k).
Proof.
  intros Hm Hl. unfold load_frames in Hl. cbv zeta in Hl. apply bind_Ok in Hl as ([] & _ & Hl).
  apply bind_Ok in Hl as (free & _ & Hl). destruct (_ >? free); [by injection Hl as _ <-|].
  apply bind_Ok in Hl as ([[bm pt] mem] & Ha & [= _ <-]). split; [| done]. cbn.
  apply (for_each_kept (λ s, mem_ok s.2)) in Ha; [done | | done].
  intros i [[b1 p1] m1] [[b2 p2] m2] Hm1 Hs. unfold alloc_page in Hs.
  apply bind_Ok in Hs as ([f b] & _ & Hs). apply bind_Ok in Hs as (p & _ & Hs).
  apply bind_Ok in Hs as (m & Hp & [= _ _ <-]). cbn in *.
  eapply blk_put_mem_ok; [exact Hp | | done]. apply Forall_replicate. unfold is_byte. lia.
Qed.
End loading.

(** ** Fresh semaphores *)

Lemma fresh_sem_above (m : gmap semid Semaphore) n sem : m !! SUser n = Some sem → n < fresh_sem m.
Proof.
  unfold fresh_sem. revert n sem.
  apply (map_fold_weak_ind (λ r (m : gmap semid Semaphore), ∀ n sem, m !! SUser n = Some sem → n < r)).
  - intros n sem. by rewrite lookup_empty.
  - intros i x m0 r Hi IH n sem. destruct (decide (i = SUser n)) as [->|Hne].
    + intros _. lia.
    + rewrite lookup_insert_ne by done. intros Hn. specialize (IH n sem Hn). destruct i; lia.
Qed.

Lemma fresh_sem_below (m : gmap semid Semaphore) b : 0 <= b →
  (∀ n sem, m !! SUser n = Some sem → n < b) → fresh_sem m <= b.
Proof.
  intros Hb. unfold fresh_sem.
  apply (map_fold_weak_ind (λ r (m : gmap semid Semaphore), (∀ n sem, m !! SUser n = Some sem → n < b) → r <= b)).
  - done.
  - intros i x m0 r Hi IH Hm. assert (r <= b) as Hr.
    { apply IH. intros n sem Hn. apply (Hm n sem). rewrite lookup_insert_ne; [done |]. intros ->. congruence. }
    destruct i as [n|l|w]; [| exact Hr | exact Hr]. specialize (Hm n x (lookup_insert_eq _ _ _)). lia.
Qed.

Lemma fresh_sem_nonneg (m : gmap semid Semaphore) : 0 <= fresh_sem m.
Proof.
  unfold fresh_sem. apply (map_fold_weak_ind (λ r (m : gmap semid Semaphore), 0 <= r)); [done |].
  intros i x m0 r _ Hr. destruct i; lia.
Qed.

Lemma fresh_sem_next (m : gmap semid Semaphore) n x : fresh_sem m <= n → fresh_sem (<[SUser n := x]> m) <= n + 1.
Proof.
  intros Hn. apply fresh_sem_below; [pose proof (fresh_sem_nonneg m); lia |].
  intros k sem [[[= <-] _]|[_ Hk%fresh_sem_above]]%lookup_insert_Some; lia.
Qed.

Lemma grows_trans m1 m2 m3 : grows m1 m2 → grows m2 m3 → grows m1 m3.
Proof. intros [A1 A2] [B1 B2]. split; [by auto |]. intros s sem [H|H]%B2; [by apply A2 | by right]. Qed.

Lemma grows_insert m n v : fresh_sem m <= n → grows m (<[SUser n := Semaphore_new v]> m).
Proof.
  intros Hn. split.
  - intros s sem Hs. rewrite lookup_insert_ne; [done |]. intros <-. apply fresh_sem_above in Hs. lia.
  - intros s sem [[<- <-]|[_ Hs]]%lookup_insert_Some; [right; eauto | by left].
Qed.

(** ** What kernel code does to the simulation *)

Section client_laws.
Context {B : Type} `{BitmapOps B}.
#[local] Abbreviation instr := (instr kcall).
#[local] Abbreviation Sim := (Sim Device (Threads kcall (Env (B := B)))).
Implicit Types (s : Sim).

Definition client_step s s' : Prop := (settled s → settled s') ∧
  ∃ m e, grows (semaphores (devices s)) m ∧ devices s' = with_env (with_semaphores (devices s) m) e.

Lemma same_threads s s' : devices s' = devices s →
  ∃ m e, grows (semaphores (devices s)) m ∧ devices s' = with_env (with_semaphores (devices s) m) e.
Proof.
  intros ->. exists (semaphores (devices s)), (env (devices s)). split; [apply grows_refl |]. by destruct (devices s).
Qed.

Lemma client_refl s : client_step s s.
Proof. split; [done | by apply same_threads]. Qed.

Lemma client_trans s1 s2 s3 : client_step s1 s2 → client_step s2 s3 → client_step s1 s3.
Proof.
  intros [A1 (m & e & Hg & Hd)] [A2 (m' & e' & Hg' & Hd')]. split; [by auto |]. exists m', e'.
  rewrite Hd in Hg', Hd'. split; [exact (grows_trans _ _ _ Hg Hg') | exact Hd'].
Qed.

Lemma client_env s e : client_step s (set_env s e).
Proof. split; [done |]. exists (semaphores (devices s)), e. split; [apply grows_refl |]. done. Qed.

Lemma client_machine s m : (machine_typed (machine s) → machine_typed m) → client_step s (with_machine s m).
Proof.
  intros Hm. split.
  - intros Hs. apply settled_machine; [done |]. by apply Hm, Hs.
  - by apply same_threads.
Qed.

Lemma client_new s n v : fresh_sem (semaphores (devices s)) <= n → client_step s (new_semaphore s n v).
Proof.
  intros Hn. split; [done |]. eexists _, (env (devices s)). split; [by apply grows_insert |]. done.
Qed.

(** A computation that, when it succeeds, leaves [s] so. *)
Definition keeps s (r : result Sim) : Prop := ∀ s', r = Ok s' → client_step s s'.
Definition lawful s (r : result (list instr * Sim)) : Prop :=
  ∀ ins s', r = Ok (ins, s') → Forall static ins ∧ client_step s s'.

Lemma keeps_bind {A} s (m : result A) f : (∀ a, m = Ok a → keeps s (f a)) → keeps s (rbind m f).
Proof. intros Hf s' (a & Ha & He)%bind_Ok. by apply (Hf a Ha). Qed.

Lemma lawful_bind {A} s (m : result A) f : (∀ a, m = Ok a → lawful s (f a)) → lawful s (rbind m f).
Proof. intros Hf ins s' (a & Ha & He)%bind_Ok. by apply (Hf a Ha). Qed.

Lemma keeps_after s s1 r : client_step s s1 → keeps s1 r → keeps s r.
Proof. intros H1 H2 s' He. eapply client_trans; [done | by apply H2]. Qed.

Lemma lawful_after s s1 r : client_step s s1 → lawful s1 r → lawful s r.
Proof. intros H1 H2 ins s' He. destruct (H2 ins s' He). split; [done |]. by eapply client_trans. Qed.

Lemma keeps_Ok s s1 : client_step s s1 → keeps s (Ok s1).
Proof. intros Hs s' [= <-]. exact Hs. Qed.

Lemma lawful_Ok s ins s1 : Forall static ins → client_step s s1 → lawful s (Ok (ins, s1)).
Proof. intros Hi Hs ins' s' [= <- <-]. done. Qed.

Lemma keeps_Fail s f : keeps s (Fail f).
Proof. done. Qed.

Lemma lawful_Fail s f : lawful s (Fail f).
Proof. done. Qed.

Lemma lawful_keeps s r ins : Forall static ins → keeps s r → lawful s (s' ← r; Ok (ins, s')).
Proof. intros Hi Hr ins' s' (s1 & H1 & [= <- <-])%bind_Ok. split; [done |]. by apply Hr. Qed.

Lemma WriteReg2_keeps s v : keeps s (WriteReg2 s v).
Proof.
  intros s' He. unfold WriteReg2 in He. apply bind_Ok in He as (m & Hw & [= <-]). apply client_machine. intros Hm.
  apply WriteRegister_typed in Hw; [done | done | done | apply s32_range].
Qed.

Lemma ReturnPC_keeps s : keeps s (ReturnPC s).
Proof.
  intros s' He. unfold ReturnPC in He. apply bind_Ok in He as (m & Hw & [= <-]). apply client_machine. intros Hm.
  by eapply IncreasePC_typed.
Qed.

Lemma Return_keeps s v : keeps s (Return s v).
Proof. intros s' (s1 & H1%WriteReg2_keeps & H2%ReturnPC_keeps)%bind_Ok. by eapply client_trans. Qed.

Lemma done_with_lawful s v : lawful s (done_with s v).
Proof. apply lawful_keeps; [done | apply Return_keeps]. Qed.

Lemma Schedule_client s d t ty : keeps s (Schedule s d t ty).
Proof.
  intros s' He. split.
  - intros Hs. by eapply Schedule_settled.
  - unfold Schedule in He. inv_res. by apply same_threads.
Qed.

(** ** Each point of the kernel's code *)

Variable big_endian : bool.
Variable RandomNumber : Z → Z.
Variable new_bytes : Z → list Z.
Variable new_table : Z → list TranslationEntry.
Variable stale_name : Z → list Z.

Lemma reader_step_keeps r typed s : keeps s (reader_step big_endian r typed s).
Proof.
  destruct r as [| |va len buffer|va size id buffer]; cbn [reader_step].
  - apply keeps_bind. intros [num rest] _. apply Return_keeps.
  - apply keeps_bind. intros [c rest] _. apply Return_keeps.
  - apply keeps_bind. intros [buf rest] _. apply keeps_bind. intros [n m] Hm.
    eapply keeps_after; [apply client_machine | apply ReturnPC_keeps]. intros Ht.
    by eapply System2User_typed; [apply HandleException_same | exact Ht |].
  - apply keeps_bind. intros pid _. apply keeps_bind. intros [[[[res t] h] rest] buf] _.
    intros s' (s1 & H1%WriteReg2_keeps & He)%bind_Ok. apply bind_Ok in He as ([n m] & Hm & He%ReturnPC_keeps).
    eapply client_trans; [apply client_env |]. eapply client_trans; [exact H1 |]. eapply client_trans; [| exact He].
    apply client_machine. intros Ht. destruct (_ && _); [| by injection Hm as _ <-].
    by eapply System2User_typed; [apply HandleException_same | exact Ht |].
Qed.

Lemma KReader_lawful r typed s : lawful s (KReader_step big_endian r typed s).
Proof.
  unfold KReader_step. destruct (reader_step big_endian r typed s) as [s1|f] eqn:Hr.
  - apply lawful_Ok; [done |]. by apply reader_step_keeps in Hr.
  - destruct f; try apply lawful_Fail. apply lawful_Ok; [by repeat constructor | apply client_refl].
Qed.

Lemma KTake_lawful r typed s : lawful s (KTake_step r typed s).
Proof.
  unfold KTake_step. intros ins s' ([ch s1] & Hg & [= <- <-])%bind_Ok. split; [by repeat constructor |].
  unfold ConsoleInput_GetChar in Hg. apply bind_Ok in Hg as (s2 & Hs & [= _ <-]).
  eapply client_trans; [| apply client_env]. destruct (negb _); [by eapply Schedule_client | injection Hs as <-; apply client_refl].
Qed.

Lemma KPut_lawful c s : lawful s (s ← ConsoleOutput_PutChar s c; Ok ([], s)).
Proof.
  apply lawful_keeps; [done |]. apply keeps_bind. intros [] _. eapply keeps_after; [apply client_env | apply Schedule_client].
Qed.

Lemma Load_start_lawful main name s : lawful s (Load_start big_endian new_bytes main name s).
Proof.
  unfold Load_start. apply lawful_bind. intros [[o|] h] _; [| by destruct main].
  apply lawful_bind. intros exe _. apply lawful_bind. intros hdr _.
  apply lawful_Ok; [by repeat constructor | apply client_env].
Qed.

Lemma KFrames_lawful main o h s : lawful s (KFrames_step new_table main o h s).
Proof.
  unfold KFrames_step. apply lawful_bind. intros [[[pt np]|] k] Hk.
  - apply lawful_Ok; [by repeat constructor |]. eapply client_trans; [apply client_machine | apply client_env].
    intros [Hr Hm]. apply load_frames_mem in Hk as [Hm' Hr']; [| exact Hm]. split; [by rewrite Hr' | exact Hm'].
  - apply lawful_bind. intros host _. apply lawful_Ok; [by repeat constructor | apply client_env].
Qed.

Lemma KSegments_lawful o h pt np s : lawful s (KSegments_step o h pt np s).
Proof.
  unfold KSegments_step. apply lawful_bind. intros exe Hexe. apply lawful_bind. intros mem Hmem.
  apply lawful_bind. intros host _. apply lawful_Ok; [by repeat constructor |].
  eapply client_trans; [apply client_machine | apply client_env]. intros [Hr Hm]. split; [exact Hr |]. cbn.
  eapply load_segments_mem; [by eapply file_view_bytes | exact Hm | exact Hmem].
Qed.

Lemma FreeSpace_keeps s : keeps s (FreeSpace s).
Proof.
  apply keeps_bind. intros th _. destruct (Threads.space th) as [a|]; [| apply keeps_Ok, client_refl].
  apply keeps_bind. intros k _. apply keeps_Ok, client_env.
Qed.

Lemma new_process_sems_step s : client_step s (new_process_sems s).2.
Proof.
  unfold new_process_sems. cbn [snd]. set (n := fresh_sem (semaphores (devices s))).
  assert (∀ s n v, fresh_sem (semaphores (devices s)) <= n →
    client_step s (new_semaphore s n v) ∧ fresh_sem (semaphores (devices (new_semaphore s n v))) <= n + 1) as Hnew.
  { intros s0 k v Hk. split; [by apply client_new | by apply fresh_sem_next]. }
  destruct (Hnew s n 0) as [H1 F1]; [done |]. destruct (Hnew (new_semaphore s n 0) (n + 1) 0) as [H2 F2]; [exact F1 |].
  destruct (Hnew (new_semaphore (new_semaphore s n 0) (n + 1) 0) (n + 2) 1) as [H3 _]; [lia |].
  eapply client_trans; [exact H1 |]. by eapply client_trans.
Qed.

Lemma make_process_keeps s init id name : keeps s (make_process new_bytes s init id name).
Proof.
  unfold make_process. apply keeps_bind. intros cur _.
  pose proof (new_process_sems_step s) as Hn. destruct (new_process_sems s) as [sems s1]. cbn in Hn.
  eapply keeps_after; [exact Hn |]. apply keeps_bind. intros [t h] _. apply keeps_Ok, client_env.
Qed.

Lemma KExecUpdate_lawful buffer s : lawful s (KExecUpdate_step new_bytes stale_name buffer s).
Proof.
  unfold KExecUpdate_step. cbv zeta. apply lawful_bind. intros [] _; [apply lawful_Ok; [by repeat constructor | apply client_refl] |].
  apply lawful_bind. intros main _. apply lawful_bind. intros [] _; [apply lawful_Ok; [by repeat constructor | apply client_refl] |].
  apply lawful_bind. intros [index t] _. destruct (index <? 0); [apply lawful_Ok; [by repeat constructor | apply client_env] |].
  apply lawful_bind. intros name _. apply lawful_bind. intros s1 H1%make_process_keeps.
  apply lawful_bind. intros p _. apply lawful_Ok; [by repeat constructor |]. eapply client_trans; [apply client_env | exact H1].
Qed.

Lemma KPCBExec_lawful pid s : lawful s (KPCBExec_step pid s).
Proof.
  unfold KPCBExec_step. cbv zeta. apply lawful_bind. intros p _. apply lawful_bind. intros cur _.
  apply lawful_bind. intros tab _. apply lawful_Ok; [by repeat constructor | apply client_env].
Qed.

Lemma locked_by_static p x : Forall (λ i : instr, static i) (locked_by p x).
Proof. by repeat constructor. Qed.

Lemma put_all_static out : Forall (λ i : instr, static i) (put_all out).
Proof. unfold put_all. induction out as [|c out IH]; [done |]. cbn. by repeat constructor. Qed.

(** Everything else asks a table and answers. *)
Ltac lawful_step :=
  match goal with
  | |- lawful _ (rbind _ _) => apply lawful_bind; intros ? ?
  | |- lawful _ (let '_ := ?x in _) => destruct x
  | |- lawful _ (if ?b then _ else _) => destruct b
  | |- lawful _ (done_with _ _) => apply done_with_lawful
  | |- lawful _ (Fail _) => apply lawful_Fail
  | |- lawful _ SysHalt => apply lawful_Fail
  | |- lawful _ (Ok (_, _)) => apply lawful_Ok; [| first [apply client_refl | apply client_env]]
  end.

Lemma JoinUpdate_lawful id s : lawful s (JoinUpdate id s).
Proof.
  unfold JoinUpdate. repeat lawful_step. apply Forall_app. split; [apply locked_by_static | by repeat constructor].
Qed.

Lemma ExitUpdate_lawful ec s : lawful s (ExitUpdate ec s).
Proof.
  unfold ExitUpdate. repeat lawful_step. apply Forall_app. split; [apply locked_by_static | by repeat constructor].
Qed.

Lemma KRemove_lawful id s : lawful s (KRemove_step id s).
Proof.
  unfold KRemove_step. apply lawful_bind. intros [[running t] h] _. eapply lawful_after; [apply client_env |].
  apply lawful_keeps; [by repeat constructor | apply FreeSpace_keeps].
Qed.

Lemma user_string_step s va buffer name s' : user_string big_endian new_bytes s va = Ok (buffer, name, s') → client_step s s'.
Proof.
  unfold user_string. intros ([buf m] & Hu & ?)%bind_Ok. inv_res. apply client_machine. intros Hm.
  by eapply User2System_typed; [apply HandleException_same | exact Hm |].
Qed.

Lemma from_user_step s va limit buffer m : copy_from_user big_endian new_bytes (machine s) va limit = Ok (buffer, m) →
  client_step s (with_machine s m).
Proof.
  intros Hu. apply client_machine. intros Hm. by eapply User2System_typed; [apply HandleException_same | exact Hm |].
Qed.

Lemma SysCreateFile_keeps name s : keeps s (SysCreateFile name s).
Proof.
  unfold SysCreateFile. destruct (_ =? 0); [apply WriteReg2_keeps |]. apply keeps_bind. intros [ok h] _.
  eapply keeps_after; [apply client_env | apply WriteReg2_keeps].
Qed.

Lemma SysCreateSemaphore_keeps name v s : keeps s (SysCreateSemaphore name v s).
Proof.
  unfold SysCreateSemaphore. cbv zeta. apply keeps_bind. intros [res t] _. eapply keeps_after; [| apply Return_keeps].
  eapply client_trans; [apply client_env |]. destruct (res =? -1); [apply client_refl |]. apply client_new. done.
Qed.

Lemma lawful_env_done s e v : lawful s (done_with (set_env s e) v).
Proof. eapply lawful_after; [apply client_env | apply done_with_lawful]. Qed.

Lemma lawful_printed s s1 out x : client_step s s1 → lawful s (Ok (put_all out ++ [ICall x], s1)).
Proof. intros Hs. apply lawful_Ok; [| done]. apply Forall_app. split; [apply put_all_static | by repeat constructor]. Qed.

Lemma sem_calls_static (ins : list instr) t name r : STable_Wait t name = Ok (r, ins) ∨ STable_Signal t name = Ok (r, ins) →
  Forall (λ i, static i) ins.
Proof.
  unfold STable_Wait, STable_Signal. intros [(o & _ & Ho)%bind_Ok|(o & _ & Ho)%bind_Ok];
    destruct o; injection Ho as <- <-; by repeat constructor.
Qed.

(** A call with a string. *)
Lemma lawful_string s va f :
  (∀ buffer name s', client_step s s' → lawful s' (f buffer name s')) →
  lawful s ('(buffer, name, s) ← user_string big_endian new_bytes s va; f buffer name s).
Proof.
  intros Hf. apply lawful_bind. intros [[buffer name] s1] H1%user_string_step.
  eapply lawful_after; [exact H1 | by apply Hf].
Qed.

Lemma ExceptionHandler_lawful s : lawful s (ExceptionHandler big_endian RandomNumber new_bytes s).
Proof.
  unfold ExceptionHandler. cbv zeta. do 4 (apply lawful_bind; intros ? _).
  repeat match goal with |- lawful _ (if ?b then _ else _) => destruct b end.
  all: try apply lawful_Fail.
  all: try apply KReader_lawful.
  all: try apply JoinUpdate_lawful.
  all: try apply ExitUpdate_lawful.
  all: try apply lawful_env_done.
  all: try (apply lawful_printed, client_refl).
  all: try (apply lawful_string; intros buffer name s1 _).
  - apply lawful_bind. intros r _. apply done_with_lawful.
  - apply lawful_bind. intros out _. apply lawful_printed, client_refl.
  - apply lawful_bind. intros [buffer m] Hu%from_user_step. eapply lawful_after; [exact Hu | apply KReader_lawful].
  - apply lawful_bind. intros [buffer m] Hu%from_user_step. apply lawful_bind. intros out _. by apply lawful_printed.
  - apply lawful_bind. intros s2 H2%SysCreateFile_keeps. eapply lawful_after; [exact H2 |].
    apply lawful_keeps; [done | apply ReturnPC_keeps].
  - repeat (first [apply lawful_env_done | lawful_step]).
  - repeat (first [apply lawful_env_done | lawful_step]).
  - unfold SysExec. apply lawful_bind. intros [[o|] h] _; repeat lawful_step. by repeat constructor.
  - repeat lawful_step.
  - apply lawful_keeps; [done | apply SysCreateSemaphore_keeps].
  - apply lawful_bind. intros [r ins] Hr. apply lawful_Ok; [| apply client_refl].
    apply Forall_app. split; [eapply sem_calls_static; by left | by repeat constructor].
  - apply lawful_bind. intros [r ins] Hr. apply lawful_Ok; [| apply client_refl].
    apply Forall_app. split; [eapply sem_calls_static; by right | by repeat constructor].
  - apply lawful_bind. intros [buffer m] Hu%from_user_step. eapply lawful_after; [exact Hu | apply KReader_lawful].
  - apply lawful_bind. intros [buffer m] Hu%from_user_step. apply lawful_bind. intros pid _.
    apply lawful_bind. intros [[[[r t] h] out] buf] _. apply lawful_printed.
    eapply client_trans; [exact Hu | apply client_env].
  - repeat (first [apply lawful_env_done | lawful_step]).
Qed.

#[local] Abbreviation client := (client big_endian RandomNumber new_bytes new_table stale_name).

Lemma client_lawful x s : lawful s (client x s).
Proof.
  destruct x; cbn [Kernel.client].
  - unfold KMain_step. apply lawful_bind. intros s1 H1%make_process_keeps.
    eapply lawful_after; [exact H1 | apply Load_start_lawful].
  - apply ExceptionHandler_lawful.
  - apply done_with_lawful.
  - apply lawful_keeps; [done | apply ReturnPC_keeps].
  - apply KReader_lawful.
  - apply KTake_lawful.
  - apply KPut_lawful.
  - apply KExecUpdate_lawful.
  - apply KPCBExec_lawful.
  - unfold KStartProcess_step. do 2 (apply lawful_bind; intros ? _). apply Load_start_lawful.
  - apply KFrames_lawful.
  - apply KSegments_lawful.
  - unfold KLoadFailed_step. repeat lawful_step.
  - unfold KIncNumWait_step. by repeat lawful_step.
  - unfold KDecNumWait_step. by repeat lawful_step.
  - unfold KJoinWait_step. repeat lawful_step. by repeat constructor.
  - unfold KJoined_step. cbv zeta. repeat lawful_step. by repeat constructor.
  - unfold KExitRelease_step. repeat lawful_step. by repeat constructor.
  - apply KRemove_lawful.
Qed.

#[export] Instance client_law : ClientLaw client.
Proof. intros x s ins s' Hs He. destruct (client_lawful x s ins s' He) as (Hi & Hset & Hd). split; [done |]. by split; [apply Hset |]. Qed.
End client_laws.
