(* ===== verification/Exec.v ===== *)
(** * Starting a process

    What [PTable::ExecUpdate] and [PCB::Exec] do for a name that may run: the
    process they put into the table, its semaphores, files and thread, and what
    they refuse. *)

From S2P Require Import Prelude Bitmap Machine Mips HostFile AddrSpace Interrupt Threads Sched Waiters Wakeups Locks.
From S2P Require Import Synch SynchProps Ksyscall Console STable PCB PTable Usermem Kernel KernelLaws.
Local Open Scope Z_scope.

(** ** The host's files *)

(** What a process keeps when others open and create files by other names. *)
Definition files_kept (h h' : Host) (new : list (list Z)) : Prop :=
  (∀ fd x, fds h !! fd = Some x → fds h' !! fd = Some x) ∧
  (∀ name, name ∉ new → names h' !! name = names h !! name).

Lemma Create_ok h name : host_ok h → ∃ ino h', Create h name = Ok (true, h') ∧ host_ok h' ∧ files_kept h h' [name] ∧
  names h' !! name = Some ino ∧ inodes h' !! ino = Some [] ∧ ∀ i, inodes h !! i = Some [] → inodes h' !! i = Some [].
Proof.
  intros Hok. destruct (Create_spec h name Hok) as (ino & h' & -> & Hf & Hn & Hi & Hino & Hnext).
  destruct Hok as (H1 & H2 & H3). exists ino, h'. split; [done |]. split; [| split; [| split]].
  - split; [| split].
    + rewrite Hf, Hi. intros fd e He. destruct (H1 fd e He) as (? & ? & ?). split; [done |]. split; [done |].
      destruct (decide (e.1 = ino)) as [->|]; [rewrite lookup_insert_eq; by eexists | by rewrite lookup_insert_ne].
    + rewrite Hn, Hi. intros n i Hni. destruct (decide (i = ino)) as [->|Hne]; [rewrite lookup_insert_eq; by eexists |].
      rewrite lookup_insert_ne by done. apply lookup_insert_Some in Hni as [[_ ->]|[_ Hni]]; [done | by eapply (H2 n)].
    + rewrite Hi, Hnext. intros i c [[<- _]|[_ Hc]]%lookup_insert_Some; [lia |]. specialize (H3 i c Hc). cbn in H3. lia.
  - split; [by rewrite Hf |]. intros n Hnn. rewrite Hn. apply lookup_insert_ne. set_solver.
  - by rewrite Hn, lookup_insert_eq.
  - rewrite Hi. split; [by rewrite lookup_insert_eq |]. intros i Hic.
    destruct (decide (i = ino)) as [->|]; [by rewrite lookup_insert_eq | by rewrite lookup_insert_ne].
Qed.

Lemma Open_ok h name t raw ino c : host_ok h → names h !! name = Some ino → inodes h !! ino = Some c →
  strlen name <= Z.of_nat (length raw) →
  ∃ o h', Open h name t raw = Ok (Some o, h') ∧ host_ok h' ∧ files_kept h h' [] ∧ names h' = names h ∧ inodes h' = inodes h ∧
    fds h !! file o = None ∧ opens h' o ino (mkView c 0 0).
Proof.
  intros Hok Hn Hi Hr. destruct (Open_spec h name t raw ino c Hn Hi Hr) as (o & h' & -> & -> & Hfree & Hfd & Ho).
  destruct Hok as (H1 & H2 & H3). exists o. eexists. split; [done |]. split; [| split; [| done]].
  - split; [| done]. cbn [fds with_fds inodes]. intros fd e [[<- <-]|[_ He]]%lookup_insert_Some; [| by apply (H1 fd)]. cbn. rewrite Hi. split; [done |]. by eexists.
  - split; [| done]. intros fd x Hx. cbn [fds with_fds]. rewrite lookup_insert_ne; [done |]. congruence.
Qed.

Lemma files_kept_trans h1 h2 h3 n1 n2 : files_kept h1 h2 n1 → files_kept h2 h3 n2 → files_kept h1 h3 (n1 ++ n2).
Proof.
  intros [A1 A2] [B1 B2]. split; [by auto |]. intros name Hn. rewrite B2, A2; [done | set_solver | set_solver].
Qed.

(** ** The constructor *)

Lemma PCB_new_spec h id current j e m rawname rawtab raw0 raw1 : host_ok h → length rawtab = 10%nat →
  5 <= Z.of_nat (length raw0) → 6 <= Z.of_nat (length raw1) →
  ∃ o0 o1 h', PCB_new h id current (j, e, m) rawname rawtab raw0 raw1 =
      Ok (mkPCB j e m None rawname 0 0 (if id =? 0 then -1 else current) (Some o0 :: Some o1 :: replicate 8 None) 2, h') ∧
    host_ok h' ∧ files_kept h h' [stdin; stdout] ∧ file o0 ≠ file o1 ∧ ∃ i0 i1,
    opens h' o0 i0 (mkView [] 0 0) ∧ opens h' o1 i1 (mkView [] 0 0).
Proof.
  intros Hok Hl Hr0 Hr1. unfold PCB_new.
  assert (for_each 0 MAX_OPEN (λ i ft, aset ft i None) rawtab = Ok (replicate 10 None)) as ->.
  { do 10 (destruct rawtab as [|? rawtab]; [done |]). by destruct rawtab. }
  destruct (Create_ok h stdin Hok) as (i0 & h1 & -> & Hok1 & Hk1 & Hn1 & Hi1 & _). cbn [rbind].
  destruct (Create_ok h1 stdout Hok1) as (i1 & h2 & -> & Hok2 & Hk2 & Hn2 & Hi2 & Hm2). cbn [rbind].
  destruct (Open_ok h2 stdin 2 raw0 i0 [] Hok2) as (o0 & h3 & -> & Hok3 & Hk3 & Hn3 & Hi3 & _ & Ho0);
    [rewrite (proj2 Hk2); [done | set_solver] | by apply Hm2 | done |]. cbn [rbind].
  rewrite aset_in by done. cbn [rbind].
  destruct (Open_ok h3 stdout 3 raw1 i1 [] Hok3) as (o1 & h4 & -> & Hok4 & Hk4 & Hn4 & Hi4 & Hfree & Ho1);
    [by rewrite Hn3 | by rewrite Hi3 | done |]. cbn [rbind].
  rewrite aset_in by done. cbn [rbind].
  exists o0, o1, h4. split; [done |]. split; [done |].
  split. { pose proof (files_kept_trans _ _ _ _ _ (files_kept_trans _ _ _ _ _ Hk1 Hk2) (files_kept_trans _ _ _ _ _ Hk3 Hk4)) as Hk. exact Hk. }
  assert (fds h4 !! file o0 = Some (i0, 0)) as Hf0 by (apply Hk4; apply Ho0).
  split. { intros Heq. destruct Ho0 as [Ho0 _]. congruence. }
  exists i0, i1. split; [| done]. destruct Ho0 as (_ & Hc0 & Hp0). split; [done |]. by rewrite Hi4.
Qed.

(** ** Exec *)

Lemma SetFileName_spec p name : Forall (λ c, c ≠ 0) name → (length name < length (name_buffer p))%nat →
  ∃ buf, SetFileName p name = Ok (with_name p buf) ∧ c_string buf name.
Proof.
  intros Hn Hl. unfold SetFileName. rewrite blk_put_front by (rewrite length_app; cbn; lia).
  eexists. split; [done |]. split; [done |]. eexists. by rewrite <- app_assoc.
Qed.

Section exec_process.
Context {B : Type} `{BitmapLaws B}.
Variable new_bytes : Z → list Z.
Variable stale_name : Z → list Z.
Hypothesis new_bytes_length : ∀ n, 0 <= n → length (new_bytes n) = Z.to_nat n.
#[local] Abbreviation Sim := (Sim Device (Threads kcall (Env (B := B)))).
Implicit Types (s : Sim) (u : gset Z).

#[local] Abbreviation table s := (pTab (env_of s)).

(** The name in [buffer] and those it must not be; [u]: the slots in use. *)
Record exec_call s (buffer name self main : list Z) (cur : Z) u : Prop := {
  call_name : c_string buffer name;
  call_length : (length name < 32)%nat;
  call_current : current_pid s = Ok cur;
  call_self : c_string (current_name stale_name s) self;
  call_main : ∃ p, pcb (table s) !! 0%nat = Some (Live p) ∧ c_string (name_buffer p) main;
  call_bits : bm_repr (bm (table s)) MAX_PROCESS u;
  call_slots : length (pcb (table s)) = 10%nat;
  call_host : host_ok (ehost (env_of s)) }.

(** A process that has not run yet. *)
Record new_pcb p (name : list Z) (parent n : Z) : Prop := {
  new_thread : thread p = None;
  new_name : c_string (name_buffer p) name;
  new_parent : parentID p = parent;
  new_codes : exitcode p = 0 ∧ numwait p = 0;
  new_sems : joinsem p = n ∧ exitsem p = n + 1 ∧ multex p = n + 2;
  new_files : ∃ o0 o1, fileTable p = Some o0 :: Some o1 :: replicate 8 None }.

Lemma new_process_spec (t : PTable B) h id cur parent j e m name :
  host_ok h → Forall (λ c, c ≠ 0) name → (length name < 32)%nat → 0 <= id < 10 → length (pcb t) = 10%nat →
  ∃ p h', new_process t h id cur parent (j, e, m) name (new_bytes MAX_FILENAME_LENGTH) (new_bytes 6) (new_bytes 7) =
      Ok (mkPTable (bm t) (<[Z.to_nat id := Live p]> (pcb t)) (psize t) (bmsem t), h') ∧
    thread p = None ∧ c_string (name_buffer p) name ∧ parentID p = parent ∧ (exitcode p = 0 ∧ numwait p = 0) ∧
    (joinsem p = j ∧ exitsem p = e ∧ multex p = m) ∧ (∃ o0 o1, fileTable p = Some o0 :: Some o1 :: replicate 8 None) ∧
    host_ok h' ∧ files_kept h h' [stdin; stdout].
Proof.
  intros Hh Hn Hlen Hid Hl. unfold new_process.
  destruct (PCB_new_spec h id cur j e m (new_bytes MAX_FILENAME_LENGTH) (replicate (Z.to_nat MAX_OPEN) None) (new_bytes 6) (new_bytes 7))
    as (o0 & o1 & h' & -> & Hh' & Hk & _); [done | done | by rewrite new_bytes_length.. |]. cbn [rbind].
  match goal with |- context [SetFileName ?p _] => destruct (SetFileName_spec p name Hn) as (buf & -> & Hbuf) end.
  { cbn [name_buffer]. rewrite new_bytes_length by done. unfold MAX_FILENAME_LENGTH. lia. }
  cbn [rbind]. unfold set_slot. rewrite aset_in by lia. cbn [rbind].
  eexists _, h'. split; [done |]. cbn. split_and!; try done. by eexists _, _.
Qed.

Lemma set_env_same s : set_env s (env_of s) = s.
Proof. unfold set_env, env_of. destruct s as [? ? ? d]. cbn. by destruct d. Qed.

Section call.
Context s buffer name self main cur u (Hc : exec_call s buffer name self main cur u).

Lemma exec_checks : strcmp_eq buffer (current_name stale_name s) = Ok (bool_decide (name = self)) ∧
  ∃ buf, PTable_GetFileName (table s) 0 = Ok buf ∧ strcmp_eq buffer buf = Ok (bool_decide (name = main)).
Proof.
  destruct Hc as [Hn _ _ Hself (p & Hp & Hm) _ _ _]. split; [by apply strcmp_eq_both |].
  exists (name_buffer p). split; [| by apply strcmp_eq_both].
  unfold PTable_GetFileName, pcb_block. by rewrite (proj2 (aget_Ok _ 0 (Live p)) (conj (Z.le_refl 0) Hp)).
Qed.
End call.

#[local] Abbreviation update_step := (KExecUpdate_step new_bytes stale_name).

(** C7: what [Exec] starts.  For a name that is neither the current thread's
    nor the first process's, with a slot free, [ExecUpdate] takes the least
    free slot [i] and puts a new process there: it has this name, the caller
    for its parent, exit code 0, nobody waiting for it, console files and three
    semaphores of its own with the values 0, 0 and 1; the other slots, the
    machine, the threads and the files of the others stay as they are.  Then
    [PCB::Exec] forks a thread, whose process number is [i] and which starts at
    [StartProcess], and [Exec] returns [i]. *)
Theorem exec_new_process s buffer name self main cur u i (Hc : exec_call s buffer name self main cur u)
    (Hself : name ≠ self) (Hmain : name ≠ main) (Hi : 0 <= i < MAX_PROCESS) (Hfree : i ∉ u) (Hlow : ∀ j, 0 <= j < i → j ∈ u) :
  let n := fresh_sem (semaphores (devices s)) in
  ∃ p b h, let s1 := set_env (with_devices s (with_semaphores (devices s)
        (<[SUser (n + 2) := Semaphore_new 1]> (<[SUser (n + 1) := Semaphore_new 0]> (<[SUser n := Semaphore_new 0]> (semaphores (devices s)))))))
        (with_host (with_pTab (env_of s) (mkPTable b (<[Z.to_nat i := Live p]> (pcb (table s))) (psize (table s)) (bmsem (table s)))) h) in
    update_step buffer s = Ok ([IP (SUser (multex p)); ICall (KPCBExec i)], s1) ∧
    new_pcb p name cur n ∧ bm_repr b MAX_PROCESS ({[i]} ∪ u) ∧ host_ok h ∧ files_kept (ehost (env_of s)) h [stdin; stdout] ∧
    (∀ k, n <= k → semaphores (devices s) !! SUser k = None) ∧
    ∀ s2, env_of s2 = env_of s1 → currentThread (devices s2) = currentThread (devices s) → ∃ s3,
      KPCBExec_step i s2 = Ok ([IFork [ICall (KStartProcess i)]; IV (SUser (multex p)); IV (SUser (bmsem (table s)));
        ICall (KReturn i)], s3) ∧
      pcb (table s3) = <[Z.to_nat i := Live (with_thread p (Some (nextThread (devices s2))))]> (pcb (table s)) ∧
      processIDs (env_of s3) = <[nextThread (devices s2) := i]> (processIDs (env_of s)) ∧ machine s3 = machine s2.
Proof.
  intros n. destruct (exec_checks _ _ _ _ _ _ _ Hc) as (E1 & buf & E2 & E3). pose proof Hc as [Hn Hlen Hcur _ _ Hbits Hslots Hhost].
  unfold MAX_PROCESS in Hi.
  destruct (bm_FindAndSet_spec _ _ _ Hbits) as [(j & b & Hf & Hj & Hju & Hjl & Hb)|[_ Hall]];
    [| exfalso; apply Hfree, Hall, Hi].
  assert (j = i) as ->.
  { destruct (Z.lt_trichotomy i j) as [Hlt|[Heq|Hgt]]; [exfalso; apply Hfree, Hjl; lia | done | exfalso; apply Hju, Hlow; lia]. }
  destruct (new_process_spec (mkPTable b (pcb (table s)) (psize (table s)) (bmsem (table s))) (ehost (env_of s)) i cur cur n (n + 1) (n + 2) name)
    as (p & h & Hp & P1 & P2 & P3 & P4 & P5 & P6 & Hh & Hk); [done | apply Hn | done | done | done |].
  exists p, b, h. cbv zeta. split; [| split; [by constructor |]].
  - unfold KExecUpdate_step. rewrite E1, bool_decide_eq_false_2 by done. cbn [rbind]. rewrite E2. cbn [rbind].
    rewrite E3, bool_decide_eq_false_2 by done. cbn [rbind]. unfold GetFreeSlot. rewrite Hf. cbn [rbind].
    destruct (Z.ltb_spec i 0); [lia |]. rewrite (c_str_spec _ _ Hn). cbn [rbind].
    unfold make_process. change (current_pid (set_env s _)) with (current_pid s). rewrite Hcur. cbn [rbind new_process_sems].
    cbn [env_of set_env devices with_devices env with_env pTab with_pTab ehost new_semaphore with_semaphores semaphores].
    fold n. rewrite Hp. cbn [rbind].
    unfold pcb_live. cbn [env_of set_env devices with_devices env with_env pTab with_pTab ehost with_host pcb].
    rewrite (proj2 (aget_Ok _ i (Live p))) by (split; [lia | by rewrite list_lookup_insert_eq by lia]). cbn [rbind live]. done.
  - split; [exact Hb |]. split; [exact Hh |]. split; [exact Hk |]. split.
    { intros k Hnk. destruct (semaphores (devices s) !! SUser k) as [sem|] eqn:Hs; [| done].
      apply fresh_sem_above in Hs. unfold n in Hnk. lia. }
    intros s2 He Ht. unfold KPCBExec_step. rewrite He.
    cbn [env_of set_env devices with_devices env with_env pTab with_pTab ehost with_host pcb]. cbv zeta.
    unfold pcb_live. cbn [pcb]. rewrite (proj2 (aget_Ok _ i (Live p))) by (split; [lia | by rewrite list_lookup_insert_eq by lia]).
    cbn [rbind live].
    assert (current_pid s2 = Ok cur) as ->.
    { unfold current_pid. rewrite He, Ht. exact Hcur. }
    cbn [rbind]. unfold set_block. cbn [pcb].
    rewrite (proj2 (aget_Ok _ i (Live p))) by (split; [lia | by rewrite list_lookup_insert_eq by lia]). cbn [rbind update].
    unfold set_slot. cbn [pcb]. rewrite aset_in by (rewrite length_insert; lia). cbn [rbind].
    eexists. split; [done |]. cbn. split; [| done]. rewrite list_insert_insert_eq. do 2 f_equal.
    rewrite <- P3. unfold with_parent, with_thread. by destruct p.
Qed.

(** What [Exec] refuses.  The name of the current thread, the name of the
    first process, and any name when all ten slots are taken: it returns -1 and
    nothing changes. *)
Theorem exec_refusals s buffer name self main cur u (Hc : exec_call s buffer name self main cur u)
    (Hr : name = self ∨ name = main ∨ ∀ i, 0 <= i < MAX_PROCESS → i ∈ u) :
  update_step buffer s = Ok ([IV (SUser (bmsem (table s))); ICall (KReturn (-1))], s).
Proof.
  destruct (exec_checks _ _ _ _ _ _ _ Hc) as (E1 & buf & E2 & E3). pose proof Hc as [Hn _ _ _ _ Hbits _ _].
  unfold KExecUpdate_step. rewrite E1. cbn [rbind]. destruct (bool_decide_reflect (name = self)) as [|Hs]; [done |].
  rewrite E2. cbn [rbind]. rewrite E3. cbn [rbind]. destruct (bool_decide_reflect (name = main)) as [|Hm]; [done |].
  destruct Hr as [?|[?|Hall]]; [done | done |].
  destruct (bm_FindAndSet_spec _ _ _ Hbits) as [(j & b & _ & Hj & Hju & _)|[Hf _]]; [exfalso; by apply Hju, Hall |].
  unfold GetFreeSlot. rewrite Hf. cbn [rbind]. cbv zeta. change (-1 <? 0) with true. cbn match.
  assert (set_env s (with_pTab (env_of s) (mkPTable (bm (table s)) (pcb (table s)) (psize (table s)) (bmsem (table s)))) = s) as ->; [| done].
  etransitivity; [| apply set_env_same]. f_equal. unfold with_pTab. destruct (env_of s) as [? t ? ? ? ?]. cbn. by destruct t.
Qed.
End exec_process.

(** ** A small table *)

Definition zeros (n : Z) : list Z := replicate (Z.to_nat n) 0.

Definition demo_proc : PCB := mkPCB 4 5 6 None ([112; 0] ++ replicate 30 0) 0 0 (-1) (replicate 10 None) 2.

(** Process 0 alone, in the program [p], with the name [main]. *)
Definition demo_exec (b : Bitmap) : Sim Device (Threads kcall (Env (B := Bitmap))) :=
  mkSim Interrupt_new Statistics_new Machine_new
    (mkThreads main_thread [] None ∅ ∅ ∅ ∅ 2 0
      (mkEnv (mkDevices char_EOF [] false [] false false 0) (mkPTable b (Live demo_proc :: replicate 9 Null) MAX_PROCESS bmsem_number)
         (mkSTable b []) b demo_host {[main_thread := 0]})).

Lemma demo_call b name : bm_repr b MAX_PROCESS {[0]} → Forall (λ c, c ≠ 0) name → (length name < 32)%nat →
  exec_call (λ _, [0]) (demo_exec b) (name ++ [0]) name [109; 97; 105; 110] [112] 0 {[0]}.
Proof.
  intros Hb Hn Hl. constructor.
  - split; [done | by exists []].
  - done.
  - reflexivity.
  - split; [by repeat constructor | by exists []].
  - exists demo_proc. split; [done |]. split; [by repeat constructor | by eexists].
  - exact Hb.
  - done.
  - exact demo_host_ok.
Qed.

Lemma demo_bits : ∃ b : Bitmap, bm_repr b MAX_PROCESS {[0]}.
Proof.
  destruct (marks_new [0] MAX_PROCESS) as (b0 & _ & H0); [done | done |].
  change (bm_repr b0 MAX_PROCESS ∅) in H0. destruct (bm_Mark_in b0 MAX_PROCESS ∅ 0 H0) as (b & _ & Hb); [unfold MAX_PROCESS; lia |]. exists b. by rewrite (right_id_L ∅ (∪)) in Hb.
Qed.

Lemma exec_new_process_witness : ∃ b p s1,
  KExecUpdate_step zeros (λ _, [0]) [99; 0] (demo_exec b) = Ok ([IP (SUser (multex p)); ICall (KPCBExec 1)], s1) ∧
  new_pcb p [99] 0 0.
Proof.
  destruct demo_bits as [b Hb].
  destruct (exec_new_process zeros (λ _, [0]) (λ n _, length_replicate (Z.to_nat n) 0) (demo_exec b) [99; 0] [99]
    [109; 97; 105; 110] [112] 0 {[0]} 1) as (p & b' & h & He & Hp & _).
  - apply (demo_call b [99] Hb); [by repeat constructor | cbn; lia].
  - done.
  - done.
  - done.
  - set_solver.
  - intros j Hj. apply elem_of_singleton. lia.
  - exists b, p. eexists. split; [exact He | exact Hp].
Defined.

Lemma exec_refusals_witness : ∃ b,
  KExecUpdate_step zeros (λ _, [0]) [112; 0] (demo_exec b) = Ok ([IV (SUser bmsem_number); ICall (KReturn (-1))], demo_exec b).
Proof.
  destruct demo_bits as [b Hb]. exists b.
  apply (exec_refusals zeros (λ _, [0]) (demo_exec b) [112; 0] [112] [109; 97; 105; 110] [112] 0 {[0]}).
  - apply (demo_call b [112] Hb); [by repeat constructor | cbn; lia].
  - by right; left.
Defined.
