(* ===== verification/KernelProps.v ===== *)
(** * What the whole kernel does

    Theorems about the system that [Kernel.Kernel_Initialize] starts: user
    programs, system calls, processes, console and timer on the threads of
    [Threads]. *)

From S2P Require Import Prelude Bitmap Machine Mips HostFile AddrSpace Interrupt Threads Sched Waiters Wakeups Locks.
From S2P Require Import Synch SynchProps Ksyscall Console STable PCB PTable Usermem Kernel KernelLaws Exec.
Local Open Scope Z_scope.

(** An access that succeeds does so without an exception: all of those halt. *)
Lemma raised_halts m ex a m' : ex ≠ NoException → RaiseException HandleException m ex a ≠ Ok m'.
Proof.
  intros He Hr. unfold RaiseException in Hr. apply bind_Ok in Hr as (r & _ & Hr). apply bind_Ok in Hr as (m1 & _ & Hr).
  apply bind_Ok in Hr as (m2 & Hh & _). destruct ex; done.
Qed.

Lemma ReadMem_regs be m va size r m' : ReadMem be HandleException m va size = Ok (r, m') → registers m' = registers m.
Proof.
  unfold ReadMem. intros ([ex|[pa m1]] & Ht & Hr)%bind_Ok.
  - apply Translate_raises in Ht. apply bind_Ok in Hr as (m2 & Hr & _). by apply raised_halts in Hr.
  - apply Translate_keeps in Ht as (<- & _). repeat case_match; inv_res; done.
Qed.

Lemma WriteMem_regs be m va size v r m' : WriteMem be HandleException m va size v = Ok (r, m') → registers m' = registers m.
Proof.
  unfold WriteMem. intros ([ex|[pa m1]] & Ht & Hr)%bind_Ok.
  - apply Translate_raises in Ht. apply bind_Ok in Hr as (m2 & Hr & _). by apply raised_halts in Hr.
  - apply Translate_keeps in Ht as (<- & _). repeat case_match; inv_res; done.
Qed.

Section nachos.
Context {B : Type} `{BitmapOps B}.
Variable big_endian : bool.
Variable RandomNumber : Z → Z.
Variable new_bytes : Z → list Z.
Variable new_table : Z → list TranslationEntry.
Variable stale_name : Z → list Z.
Variable new_bitmap : Z → result B.
#[local] Abbreviation Sim := (Sim Device (Threads kcall (Env (B := B)))).
#[local] Abbreviation client := (client big_endian RandomNumber new_bytes new_table stale_name).
#[local] Abbreviation exec := (exec (CallBack RandomNumber) client (user_step big_endian)).
#[local] Abbreviation exec_step := (exec_step (CallBack RandomNumber) client (user_step big_endian)).
#[local] Abbreviation Initialize := (Kernel_Initialize RandomNumber new_bytes new_bitmap).
Implicit Types (s : Sim).

Lemma set_interrupt_settled s s' : settled s → SetInterrupt RandomNumber s = Ok s' →
  settled s' ∧ currentThread (devices s') = currentThread (devices s) ∧
  ∃ e, devices s' = with_env (devices s) e.
Proof.
  intros Hs Hi. unfold SetInterrupt in Hi. destruct (disable _); [| destruct (randomize _)].
  - injection Hi as <-. split; [done |]. split; [done |]. exists (env (devices s)). by destruct (devices s).
  - split; [eapply Schedule_settled; [| exact Hi]; exact Hs |]. unfold Schedule in Hi. inv_res. split; [done |]. by eexists.
  - split; [eapply Schedule_settled; [exact Hs | exact Hi] |]. unfold Schedule in Hi. inv_res. split; [done |].
    exists (env (devices s)). cbn. by destruct (devices s).
Qed.

Lemma Initialize_booted slice keys pid host name s : Initialize slice keys pid host name = Ok s → booted s.
Proof.
  intros Hi. unfold Kernel_Initialize in Hi.
  apply bind_Ok in Hi as (frames & _ & Hi). apply bind_Ok in Hi as (ptab & _ & Hi).
  apply bind_Ok in Hi as (sembits & _ & Hi). apply bind_Ok in Hi as (stab & _ & Hi).
  apply bind_Ok in Hi as ([fs h] & _ & Hi). apply bind_Ok in Hi as (s1 & H1 & H2).
  match type of H1 with SetInterrupt _ ?s0 = _ => set (s0' := s0) in * end.
  assert (settled s0') as Hs0.
  { split; [| constructor]. split; [constructor |]. split; [constructor |].
    split; [unfold clock_ok, is_s32; cbn; lia |]. split; [exact Machine_new_typed | done]. }
  apply set_interrupt_settled in H1 as (Hs1 & _ & e1 & Hd1); [| done].
  pose proof (Schedule_settled _ _ _ _ _ Hs1 H2) as Hs. unfold Schedule in H2. inv_res.
  constructor; cbn [devices with_pending with_interrupt]; rewrite ?Hd1.
  - exact Hs.
  - eexists _, [ISetLevel IntOn; ICall (KMain name)]. split; [reflexivity |]. repeat (split; [done |]). by repeat constructor.
  - done.
  - done.
  - intros w sem Hw. apply (elem_of_list_to_map_2 (M := gmap semid)) in Hw.
    repeat (apply elem_of_cons in Hw as [[= -> ->]|Hw]; [done |]). by apply elem_of_nil in Hw.
  - intros l hd Hl. apply (elem_of_list_to_map_2 (M := gmap Z)) in Hl.
    repeat (apply elem_of_cons in Hl as [[= -> ->]|Hl]; [split; [done | reflexivity] |]). by apply elem_of_nil in Hl.
  - done.
  - done.
Qed.

(** ** A system call steps the program counter once *)

(** What a point of the code still has to do for the program: return to it, or
    end it. *)
Definition returns (x : kcall) : bool :=
  match x with
  | KSyscall | KReturn _ | KReturnPC | KReader _ _ | KTake _ _ | KExecUpdate _ | KPCBExec _
  | KJoinWait _ | KJoined _ | KExitRelease _ | KRemove _ => true
  | _ => false
  end.
Definition is_return (i : instr kcall) : bool :=
  match i with ICall x => returns x | IFinish => true | _ => false end.

(** The registers after a call: the counters moved on by one instruction, the
    result, if any, in register 2. *)
Definition stepped (m m' : Machine) : Prop :=
  ∃ pc, registers m !! 34%nat = Some pc ∧
    registers m' !! 36%nat = Some pc ∧ registers m' !! 34%nat = Some (pc + 4) ∧ registers m' !! 35%nat = Some (pc + 8) ∧
    ∀ r : nat, r ≠ 2%nat → r ≠ 34%nat → r ≠ 35%nat → r ≠ 36%nat → registers m' !! r = registers m !! r.

(** Nothing else has happened to the program's registers. *)
Definition waits (ins : list (instr kcall)) (m m' : Machine) : Prop :=
  registers m' = registers m ∧ ∃ pre i, ins = pre ++ [i] ∧ is_return i = true ∧ Forall (λ i, is_return i = false) pre.

Definition answered (m : Machine) (r : result (list (instr kcall) * Sim)) : Prop :=
  ∀ ins s', r = Ok (ins, s') → ins = [] ∧ stepped m (machine s') ∨ waits ins m (machine s').
Definition answers (m : Machine) (r : result Sim) : Prop := ∀ s', r = Ok s' → stepped m (machine s').

Lemma WriteRegister_regs m r v m' : WriteRegister m r v = Ok m' →
  registers m' = <[Z.to_nat r := v]> (registers m) ∧ (Z.to_nat r < length (registers m))%nat.
Proof.
  unfold WriteRegister. intros (? & _ & (l & Hl & [= <-])%bind_Ok)%bind_Ok. apply aset_Ok in Hl as (Hr & ->). cbn. split; [done | lia].
Qed.

Lemma ReadRegister_regs m r v : ReadRegister m r = Ok v → registers m !! Z.to_nat r = Some v.
Proof. unfold ReadRegister. intros (? & _ & [_ Hr]%aget_Ok)%bind_Ok. exact Hr. Qed.

Lemma IncreasePC_stepped m m' : IncreasePC m = Ok m' → stepped m m'.
Proof.
  unfold IncreasePC. intros (pc & H1%ReadRegister_regs & Hi)%bind_Ok.
  apply bind_Ok in Hi as (m1 & [E1 L1]%WriteRegister_regs & Hi). apply bind_Ok in Hi as (pc1 & H2%ReadRegister_regs & Hi).
  apply bind_Ok in Hi as (pc2 & [-> _]%int_add_Ok & Hi). apply bind_Ok in Hi as (m2 & [E2 L2]%WriteRegister_regs & Hi).
  apply bind_Ok in Hi as (pc3 & H3%ReadRegister_regs & Hi). apply bind_Ok in Hi as (pc4 & [-> _]%int_add_Ok & Hi).
  apply WriteRegister_regs in Hi as [E3 L3].
  change (Z.to_nat PCReg) with 34%nat in *. change (Z.to_nat NextPCReg) with 35%nat in *. change (Z.to_nat PrevPCReg) with 36%nat in *.
  rewrite E1, list_lookup_insert_ne in H2 by done. rewrite H1 in H2. injection H2 as <-.
  rewrite E2, list_lookup_insert_eq in H3 by done. injection H3 as <-.
  rewrite E2, E1, !length_insert in L3. rewrite E1, length_insert in L2.
  exists pc. split; [exact H1 |]. rewrite E3, E2, E1. split; [| split; [| split]].
  - rewrite !list_lookup_insert_ne by done. by apply list_lookup_insert_eq.
  - rewrite list_lookup_insert_ne by done. apply list_lookup_insert_eq. by rewrite length_insert.
  - rewrite list_lookup_insert_eq by (rewrite !length_insert; lia). f_equal. lia.
  - intros r _ N1 N2 N3. by rewrite !list_lookup_insert_ne by done.
Qed.

(** A write of the result, and nothing else, before the step. *)
Lemma stepped_after m m1 m' v : registers m1 = <[2%nat := v]> (registers m) ∨ registers m1 = registers m →
  stepped m1 m' → stepped m m'.
Proof.
  intros Hm (pc & H1 & H2 & H3 & H4 & H5). exists pc. split.
  { destruct Hm as [Hm|Hm]; rewrite Hm in H1; [by rewrite list_lookup_insert_ne in H1 by done | done]. }
  split; [done |]. split; [done |]. split; [done |]. intros r N0 N1 N2 N3. rewrite H5 by done.
  destruct Hm as [-> | ->]; [by apply list_lookup_insert_ne | done].
Qed.

Lemma ReturnPC_answers s : answers (machine s) (ReturnPC s).
Proof. intros s'. unfold ReturnPC. intros (m & Hm & [= <-])%bind_Ok. by apply IncreasePC_stepped. Qed.

Lemma Return_answers s v : answers (machine s) (Return s v).
Proof.
  intros s' (s1 & H1 & H2)%bind_Ok. unfold WriteReg2 in H1. apply bind_Ok in H1 as (m & [Hm _]%WriteRegister_regs & [= <-]).
  eapply stepped_after; [left; exact Hm | exact (ReturnPC_answers _ _ H2)].
Qed.

(** Copying to and from the program leaves its registers alone. *)
Lemma User2System_regs m va limit raw buffer m' :
  User2System big_endian HandleException m va limit raw = Ok (buffer, m') → registers m' = registers m.
Proof.
  intros Hu. unfold User2System in Hu. apply bind_Ok in Hu as (n & _ & Hu). destruct (n <? 0); [done |].
  apply bind_Ok in Hu as (r & Hr & Hu).
  apply (for_ret_kept (λ x, registers x.2 = registers m) (λ x : list Z * Machine, registers x.2 = registers m)) in Hr; [| | done].
  - destruct r as [[[oc kb] m1]|[kb m1]]; injection Hu as _ <-; exact Hr.
  - intros i [[oc kb] m1] r1 Hm1 Hc. unfold copy_in in Hc. cbn in Hm1.
    apply bind_Ok in Hc as (addr & _ & Hc). apply bind_Ok in Hc as ([c m2] & Hrc & Hc).
    apply bind_Ok in Hc as (kb2 & _ & [= <-]).
    assert (registers m2 = registers m) as Hm2.
    { unfold read_char in Hrc. apply bind_Ok in Hrc as ([r2 m3] & Hrm & Hrc).
      apply ReadMem_regs in Hrm. rewrite <- Hm1, <- Hrm. by destruct r2, oc; inv_res. }
    by destruct (c =? 0).
Qed.

Lemma copy_out_regs n va len buffer : ∀ i m r m',
  copy_out big_endian HandleException n va i len buffer m = Ok (r, m') → registers m' = registers m.
Proof.
  induction n as [|n IH]; intros i m r m' Hc; cbn in Hc;
    apply bind_Ok in Hc as (c & _ & Hc); apply bind_Ok in Hc as (addr & _ & Hc);
    apply bind_Ok in Hc as ([b m1] & Hw%WriteMem_regs & Hc);
    destruct (_ && _); try done; try (by injection Hc as _ <-). rewrite <- Hw. by eapply IH.
Qed.

Lemma System2User_regs m va len buffer r m' :
  System2User big_endian HandleException m va len buffer = Ok (r, m') → registers m' = registers m.
Proof.
  unfold System2User. destruct (len <? 0); [by intros [= _ <-]|]. destruct (len =? 0); [by intros [= _ <-]|].
  apply copy_out_regs.
Qed.

Lemma reader_step_answers r typed s : answers (machine s) (reader_step big_endian r typed s).
Proof.
  intros s' Hr. destruct r as [| |va len buffer|va size id buffer]; cbn [reader_step] in Hr.
  - apply bind_Ok in Hr as ([num rest] & _ & Hr). by apply Return_answers in Hr.
  - apply bind_Ok in Hr as ([c rest] & _ & Hr). by apply Return_answers in Hr.
  - apply bind_Ok in Hr as ([buf rest] & _ & Hr). apply bind_Ok in Hr as ([n m] & Hm%System2User_regs & Hr%ReturnPC_answers).
    by eapply (stepped_after _ m _ 0); [right |].
  - apply bind_Ok in Hr as (pid & _ & Hr). apply bind_Ok in Hr as ([[[[res t] h] rest] buf] & _ & Hr).
    apply bind_Ok in Hr as (s1 & H1 & Hr). apply bind_Ok in Hr as ([n m] & Hm & Hr%ReturnPC_answers).
    unfold WriteReg2 in H1. apply bind_Ok in H1 as (m1 & [H1 _]%WriteRegister_regs & [= <-]).
    eapply stepped_after; [left; exact H1 |]. eapply (stepped_after _ m _ 0); [right | exact Hr].
    destruct (_ && _); [by apply System2User_regs in Hm | by injection Hm as _ <-].
Qed.

Lemma answered_Fail m f : answered m (Fail f).
Proof. done. Qed.

Lemma answered_bind {A} m (r : result A) f : (∀ a, r = Ok a → answered m (f a)) → answered m (rbind r f).
Proof. intros Hf ins s' (a & Ha & He)%bind_Ok. by apply (Hf a Ha). Qed.

Lemma answered_now m r : answers m r → answered m (s ← r; Ok ([], s)).
Proof. intros Hr ins s' (s1 & H1 & [= <- <-])%bind_Ok. left. split; [done | by apply Hr]. Qed.

Lemma answered_done s v : answered (machine s) (done_with s v).
Proof. apply answered_now, Return_answers. Qed.

Lemma answered_later m s pre i : registers (machine s) = registers m → is_return i = true →
  Forall (λ i, is_return i = false) pre → answered m (Ok (pre ++ [i], s)).
Proof. intros Hr Hi Hp ins s' [= <- <-]. right. split; [done |]. by eexists _, _. Qed.

Lemma answered_regs m m1 r : registers m1 = registers m → answered m1 r → answered m r.
Proof.
  intros Hm Ha ins s' He. destruct (Ha ins s' He) as [[-> Hs]|[Hr Hi]].
  - left. split; [done |]. eapply (stepped_after _ m1 _ 0); [by right | done].
  - right. split; [by rewrite Hr |]. done.
Qed.

Lemma KReader_answered r typed s : answered (machine s) (KReader_step big_endian r typed s).
Proof.
  unfold KReader_step. destruct (reader_step big_endian r typed s) as [s1|f] eqn:Hr.
  - intros ins s' [= <- <-]. left. split; [done |]. by apply reader_step_answers in Hr.
  - destruct f; try apply answered_Fail. by apply (answered_later _ _ [_; _]); repeat constructor.
Qed.

Lemma put_all_no_return out : Forall (λ i, is_return i = false) (put_all out).
Proof. unfold put_all. induction out as [|c out IH]; [done |]. cbn. by repeat constructor. Qed.

Lemma sem_calls_no_return (ins : list (instr kcall)) t name r : STable_Wait t name = Ok (r, ins) ∨ STable_Signal t name = Ok (r, ins) →
  Forall (λ i, is_return i = false) ins.
Proof.
  unfold STable_Wait, STable_Signal. intros [(o & _ & Ho)%bind_Ok|(o & _ & Ho)%bind_Ok];
    destruct o; injection Ho as <- <-; by repeat constructor.
Qed.

Ltac answered_step :=
  match goal with
  | |- answered _ (rbind _ _) => apply answered_bind; intros ? ?
  | |- answered _ (let '_ := ?x in _) => destruct x
  | |- answered _ (if ?b then _ else _) => destruct b
  | |- answered _ (done_with _ _) => apply answered_done
  | |- answered _ (Fail _) => apply answered_Fail
  | |- answered _ SysHalt => apply answered_Fail
  | |- answered _ (Ok (_ ++ [_], _)) => apply answered_later; [done | done | by repeat constructor]
  end.

Lemma done_env_answered s e v : answered (machine s) (done_with (set_env s e) v).
Proof. apply (answered_done (set_env s e)). Qed.

Lemma JoinUpdate_answered id s : answered (machine s) (JoinUpdate id s).
Proof. unfold JoinUpdate. repeat answered_step. Qed.

Lemma ExitUpdate_answered ec s : answered (machine s) (ExitUpdate ec s).
Proof. unfold ExitUpdate. repeat answered_step. Qed.

Lemma string_answered s va f :
  (∀ buffer name s', registers (machine s') = registers (machine s) → answered (machine s') (f buffer name s')) →
  answered (machine s) ('(buffer, name, s) ← user_string big_endian new_bytes s va; f buffer name s).
Proof.
  intros Hf. apply answered_bind. intros [[buffer name] s1] Hu. unfold user_string in Hu.
  apply bind_Ok in Hu as ([buf m] & Hm%User2System_regs & (nm & _ & [= _ _ <-])%bind_Ok).
  by eapply answered_regs; [| apply Hf].
Qed.

Lemma printed_answered m s out x : registers (machine s) = registers m → returns x = true →
  answered m (Ok (put_all out ++ [ICall x], s)).
Proof. intros Hr Hx. apply answered_later; [done | done | apply put_all_no_return]. Qed.

Lemma ExceptionHandler_answered s : answered (machine s) (ExceptionHandler big_endian RandomNumber new_bytes s).
Proof.
  unfold ExceptionHandler. cbv zeta. do 4 (apply answered_bind; intros ? _).
  repeat match goal with |- answered _ (if ?b then _ else _) => destruct b end.
  all: try apply answered_Fail.
  all: try apply KReader_answered.
  all: try apply JoinUpdate_answered.
  all: try apply ExitUpdate_answered.
  all: try apply done_env_answered.
  all: try (apply printed_answered; done).
  all: try (apply string_answered; intros buffer name s1 _).
  - repeat answered_step.
  - apply answered_bind. intros out _. by apply printed_answered.
  - apply answered_bind. intros [buffer m] Hu%User2System_regs. by eapply answered_regs; [| apply KReader_answered].
  - apply answered_bind. intros [buffer m] Hu%User2System_regs. apply answered_bind. intros out _. by apply printed_answered.
  - intros ins s' (s2 & H2 & (s3 & H3 & [= <- <-])%bind_Ok)%bind_Ok. left. split; [done |].
    apply ReturnPC_answers in H3. unfold SysCreateFile in H2. destruct (_ =? 0).
    + unfold WriteReg2 in H2. apply bind_Ok in H2 as (m & [Hm _]%WriteRegister_regs & [= <-]). eapply stepped_after; [left; exact Hm | exact H3].
    + apply bind_Ok in H2 as ([ok h] & _ & H2). unfold WriteReg2 in H2.
      apply bind_Ok in H2 as (m & [Hm _]%WriteRegister_regs & [= <-]). eapply stepped_after; [left; exact Hm | exact H3].
  - repeat (first [apply done_env_answered | answered_step]).
  - repeat (first [apply done_env_answered | answered_step]).
  - unfold SysExec. apply answered_bind. intros [[o|] h] _; [| apply answered_done].
    apply answered_bind. intros h1 _. by apply (answered_later _ _ [_]); repeat constructor.
  - repeat answered_step.
  - apply answered_now. unfold SysCreateSemaphore. cbv zeta. intros s' ([res t] & _ & Hr)%bind_Ok.
    apply Return_answers in Hr. eapply (stepped_after _ _ _ 0); [right | exact Hr]. by destruct (res =? -1).
  - apply answered_bind. intros [r ins] Hr. apply answered_later; [done.. |]. eapply sem_calls_no_return. by left.
  - apply answered_bind. intros [r ins] Hr. apply answered_later; [done.. |]. eapply sem_calls_no_return. by right.
  - apply answered_bind. intros [buffer m] Hu%User2System_regs. by eapply answered_regs; [| apply KReader_answered].
  - apply answered_bind. intros [buffer m] Hu%User2System_regs. apply answered_bind. intros pid _.
    apply answered_bind. intros [[[[r t] h] out] buf] _. by apply printed_answered.
  - repeat (first [apply done_env_answered | answered_step]).
Qed.

(** C6: a system call steps the program over itself exactly once.  At each
    point of the kernel's code from [ExceptionHandler] on that leads back to
    the program, either the call ends there, the program counters moved on by
    one instruction and no register changed but these and the result's, or
    all registers are still as they were and exactly one of the
    instructions left to the thread, the last, leads back to the program or
    ends it. *)
Theorem syscall_steps_pc_once x s ins s' (Hx : returns x = true) (Hc : client x s = Ok (ins, s')) :
  ins = [] ∧ stepped (machine s) (machine s') ∨ waits ins (machine s) (machine s').
Proof.
  revert ins s' Hc. change (answered (machine s) (client x s)). destruct x; try done; cbn [Kernel.client].
  - apply ExceptionHandler_answered.
  - apply answered_done.
  - apply answered_now, ReturnPC_answers.
  - apply KReader_answered.
  - unfold KTake_step. apply answered_bind. intros [ch s1] Hg. unfold ConsoleInput_GetChar in Hg.
    apply bind_Ok in Hg as (s2 & H2 & [= _ <-]). apply (answered_later _ _ [_]); [| done | by repeat constructor].
    destruct (negb _); [unfold Schedule in H2; inv_res; done | by injection H2 as <-].
  - unfold KExecUpdate_step. cbv zeta. apply answered_bind. intros [] _; [by apply (answered_later _ _ [_]); repeat constructor |].
    apply answered_bind. intros main _. apply answered_bind. intros [] _; [by apply (answered_later _ _ [_]); repeat constructor |].
    apply answered_bind. intros [index t] _. destruct (index <? 0); [by apply (answered_later _ _ [_]); repeat constructor |].
    apply answered_bind. intros fname _. apply answered_bind. intros s1 H1. apply answered_bind. intros p _.
    apply (answered_later _ _ [_]); [| done | by repeat constructor]. unfold make_process in H1.
    apply bind_Ok in H1 as (cur & _ & H1). cbn in H1. by apply bind_Ok in H1 as ([t1 h1] & _ & [= <-]).
  - unfold KPCBExec_step. cbv zeta. do 3 (apply answered_bind; intros ? _).
    by apply (answered_later _ _ [_; _; _]); repeat constructor.
  - unfold KJoinWait_step. apply answered_bind. intros p _. by apply (answered_later _ _ [_]); repeat constructor.
  - unfold KJoined_step. cbv zeta. do 2 (apply answered_bind; intros ? _). by apply (answered_later _ _ [_]); repeat constructor.
  - unfold KExitRelease_step. apply answered_bind. intros p _. by apply (answered_later _ _ [_; _]); repeat constructor.
  - unfold KRemove_step. apply answered_bind. intros [[running t] h] _. apply answered_bind. intros s1 H1.
    apply (answered_later _ _ []); [| done | constructor]. unfold FreeSpace in H1. apply bind_Ok in H1 as (th & _ & H1).
    destruct (Threads.space th); [by apply bind_Ok in H1 as (k & _ & [= <-]) | by injection H1 as <-].
Qed.
End nachos.

(** ** A run of the whole system *)

(** The host has the files [p] and [c] in the Noff format:
<<
    p: v = Exec ("c"); r = Join (v); PrintNum (r); Halt ();
    c: Exit (42);
>> *)
Definition demo_parent : list Z :=
  [173; 223; 186; 0; 0; 0; 0; 0; 52; 0; 0; 0; 48; 0; 0; 0] ++ replicate 36 0 ++
  [2; 0; 2; 36; 44; 0; 4; 36; 12; 0; 0; 0; 0; 0; 68; 36; 3; 0; 2; 36; 12; 0; 0; 0; 0; 0; 68; 36; 44; 0; 2; 36;
   12; 0; 0; 0; 0; 0; 2; 36; 12; 0; 0; 0; 99; 0; 0; 0].
Definition demo_child : list Z :=
  [173; 223; 186; 0; 0; 0; 0; 0; 52; 0; 0; 0; 12; 0; 0; 0] ++ replicate 36 0 ++
  [42; 0; 4; 36; 1; 0; 2; 36; 12; 0; 0; 0].
Definition demo_disk : Host :=
  mkHost (list_to_map [(0, demo_parent); (1, demo_child)]) (list_to_map [([112], 0); ([99], 1)]) ∅ 2.

#[local] Abbreviation fresh_table := (λ n, replicate (Z.to_nat n) invalidTE).
#[local] Abbreviation seven := (λ _ : Z, 7).
#[local] Abbreviation demo_client := (client false seven zeros fresh_table (λ _, [0]) (B := Bitmap)).
#[local] Abbreviation demo_exec := (exec (CallBack seven) demo_client (user_step false)).
#[local] Abbreviation demo_run := (run (CallBack seven) demo_client (user_step false)).

Definition demo_start : result (Sim Device (Threads kcall (Env (B := Bitmap)))) :=
  Kernel_Initialize seven zeros (λ n, Bitmap_new (zeros (divRoundUp n 32)) n) false [] 0 demo_disk [112].

Definition demo_boot := from_ok (mkSim Interrupt_new Statistics_new Machine_new (mkThreads 0 [] None ∅ ∅ ∅ ∅ 0 0
  (mkEnv (mkDevices 0 [] false [] false false 0) (mkPTable (mkBitmap 0 0 []) [] 0 0) (mkSTable (mkBitmap 0 0 []) [])
    (mkBitmap 0 0 []) (mkHost ∅ ∅ ∅ 0) ∅))) demo_start.
Definition demo_state (n : nat) := from_ok demo_boot (demo_run n demo_boot).

Lemma demo_boot_eq : demo_start = Ok demo_boot.
Proof.
  assert (is_ok demo_start = true) as Hs by (vm_compute; reflexivity). revert Hs. unfold demo_boot. by destruct demo_start.
Qed.

Lemma demo_state_eq n : is_ok (demo_run n demo_boot) = true → demo_run n demo_boot = Ok (demo_state n).
Proof. unfold demo_state. by destruct (demo_run n demo_boot). Qed.

Lemma demo_reached n : is_ok (demo_run n demo_boot) = true →
  rtc (exec_step (CallBack seven) demo_client (user_step false)) demo_boot (demo_state n).
Proof. intros Hn. apply (run_steps _ _ _ n). by apply demo_state_eq. Qed.

(** [nachos -x p] loads [p], which executes [c], joins it, prints the exit code it
    got, and halts: after 121 steps the display shows 42 and the machine stops. *)
Example demo_halts : is_ok (demo_run 121 demo_boot) = true ∧ display (get_devs (demo_state 121)) = [52; 50] ∧
  demo_exec (demo_state 121) = Fail Halted.
Proof. split; [vm_compute; reflexivity |]. split; vm_compute; reflexivity. Qed.

(** [Exec] of the child, seen in the register file. *)
Lemma syscall_steps_pc_once_witness : ∃ ins s', demo_client KSyscall (demo_state 14) = Ok (ins, s') ∧
  (ins = [] ∧ stepped (machine (demo_state 14)) (machine s') ∨ waits ins (machine (demo_state 14)) (machine s')).
Proof.
  assert (is_ok (demo_client KSyscall (demo_state 14)) = true) as Hok by (vm_compute; reflexivity).
  destruct (demo_client KSyscall (demo_state 14)) as [[ins s']|] eqn:Hc; [| done]. exists ins, s'. split; [done |].
  by apply (syscall_steps_pc_once false seven zeros fresh_table (λ _, [0]) KSyscall (demo_state 14) ins s').
Defined.
