(* ===== verification/KernelConsole.v ===== *)
(** * The kernel's console driver

    [Kernel] prints through [SynchConsoleOutput_PutChar] only, and so the theorem
    of [Drivers] holds for its console. *)

From S2P Require Import Prelude Bitmap Machine Lists Mips HostFile AddrSpace Interrupt Threads Sched Waiters Wakeups Locks.
From S2P Require Import Synch SynchProps Handlers Interleave Drivers Ksyscall Console STable PCB PTable Usermem Kernel KernelLaws Exec KernelProps.
Local Open Scope Z_scope.

Section printing.
Context {B : Type} `{BitmapOps B}.
#[local] Abbreviation instr := (instr kcall).
#[local] Abbreviation Sim := (Sim Device (Threads kcall (Env (B := B)))).
Implicit Types (s : Sim).
Variable big_endian : bool.
Variable RandomNumber : Z → Z.
Variable new_bytes : Z → list Z.
Variable new_table : Z → list TranslationEntry.
Variable stale_name : Z → list Z.

Definition printer : Driver Device kcall (Env (B := B)) :=
  mkDriver _ _ _ console_out console_out (λ x, match x with KPut _ => true | _ => false end)
    (λ e, putBusy (edevices e)) true (λ d, match d with DConsoleOutput => true | _ => false end).

Lemma foreign_put_all out : foreign printer (put_all out).
Proof. unfold put_all. induction out as [|c out IH]; [done |]. cbn [mbind list_bind]. apply foreign_app; [by apply foreign_drive | exact IH]. Qed.

(** The semaphore of the display is not one that the tables name. *)
Definition pcb_good (p : PCB) : Prop := joinsem p ≠ console_out ∧ exitsem p ≠ console_out ∧ multex p ≠ console_out.
Definition slot_good (e : slot) : Prop := match e with Live p | Dead p => pcb_good p | Null | Freed => True end.
Definition table_good (t : PTable B) : Prop := Forall slot_good (pcb t) ∧ bmsem t ≠ console_out.
Definition sem_good (o : option Sem) : Prop := match o with Some s => sem s ≠ console_out | None => True end.
Definition env_good (e : Env (B := B)) : Prop := table_good (pTab e) ∧ Forall sem_good (semTable (semTab e)).

(** Its operations on a process leave its semaphores alone. *)
Definition same_sems (p p' : PCB) : Prop := joinsem p' = joinsem p ∧ exitsem p' = exitsem p ∧ multex p' = multex p.

Lemma same_good p p' : same_sems p p' → pcb_good p → pcb_good p'.
Proof. unfold same_sems, pcb_good. by intros (-> & -> & ->). Qed.

Ltac unroll H :=
  repeat match type of H with
  | rbind _ _ = Ok _ => let x := fresh in apply bind_Ok in H as (x & _ & H)
  | (let '_ := ?x in _) = Ok _ => destruct x
  | (if ?b then _ else _) = Ok _ => destruct b
  | match ?x with _ => _ end = Ok _ => destruct x
  end.

Lemma PCB_Open_sems p h name raw type r p' h' : PCB_Open p h name raw type = Ok (r, p', h') → same_sems p p'.
Proof. unfold PCB_Open. intros Ho. unroll Ho; by injection Ho as _ <- _. Qed.

Lemma PCB_Close_sems p h id r p' h' : PCB_Close p h id = Ok (r, p', h') → same_sems p p'.
Proof. unfold PCB_Close. intros Ho. unroll Ho; by injection Ho as _ <- _. Qed.

Lemma PCB_Read_sems p h inp buf size id r p' h' inp' buf' : PCB_Read p h inp buf size id = Ok (r, p', h', inp', buf') → same_sems p p'.
Proof. unfold PCB_Read. intros Ho. unroll Ho; by injection Ho as _ <- _ _ _. Qed.

Lemma PCB_Write_sems p h out buf size id r p' h' out' buf' : PCB_Write p h out buf size id = Ok (r, p', h', out', buf') → same_sems p p'.
Proof. unfold PCB_Write. intros Ho. unroll Ho; by injection Ho as _ <- _ _ _. Qed.

Lemma PCB_Seek_sems p h pos id r p' h' : PCB_Seek p h pos id = Ok (r, p', h') → same_sems p p'.
Proof. unfold PCB_Seek. intros Ho. unroll Ho; by injection Ho as _ <- _. Qed.

Lemma pcb_block_good t pid p : table_good t → pcb_block t pid = Ok p → pcb_good p.
Proof.
  intros [Hg _]. unfold pcb_block. intros (e & [_ He]%aget_Ok & Hp)%bind_Ok. pose proof (Forall_lookup_1 _ _ _ _ Hg He) as Hs.
  by destruct e; try done; injection Hp as <-.
Qed.

Lemma pcb_live_good t pid p : table_good t → pcb_live t pid = Ok p → pcb_good p.
Proof.
  intros [Hg _]. unfold pcb_live. intros (e & [_ He]%aget_Ok & Hp)%bind_Ok. pose proof (Forall_lookup_1 _ _ _ _ Hg He) as Hs.
  by destruct e; try done; injection Hp as <-.
Qed.

Lemma set_slot_good t pid e t' : table_good t → slot_good e → set_slot t pid e = Ok t' → table_good t'.
Proof.
  intros [Hg Hb] He. unfold set_slot. intros (tab & [_ ->]%aset_Ok & [= <-])%bind_Ok. split; [by apply Forall_insert | done].
Qed.

Lemma set_block_good t pid p t' : table_good t → pcb_good p → set_block t pid p = Ok t' → table_good t'.
Proof. intros Ht Hp. unfold set_block. intros (e & _ & Hs)%bind_Ok. eapply set_slot_good; [exact Ht | | exact Hs]. by destruct e. Qed.

Lemma through_block t pid p p' t' : table_good t → pcb_block t pid = Ok p → same_sems p p' → set_block t pid p' = Ok t' → table_good t'.
Proof. intros Ht Hp Hs. apply set_block_good; [done |]. eapply same_good; [exact Hs | by eapply pcb_block_good]. Qed.

Lemma PTable_Open_good t h pid name raw type r t' h' : table_good t → PTable_Open t h pid name raw type = Ok (r, t', h') → table_good t'.
Proof.
  intros Ht. unfold PTable_Open. intros (p & Hp & ([[r0 p'] h0] & Ho%PCB_Open_sems & (t1 & Hs & [= _ <- _])%bind_Ok)%bind_Ok)%bind_Ok.
  by eapply through_block.
Qed.

Lemma PTable_Close_good t h pid id r t' h' : table_good t → PTable_Close t h pid id = Ok (r, t', h') → table_good t'.
Proof.
  intros Ht. unfold PTable_Close. intros (p & Hp & ([[r0 p'] h0] & Ho%PCB_Close_sems & (t1 & Hs & [= _ <- _])%bind_Ok)%bind_Ok)%bind_Ok.
  by eapply through_block.
Qed.

Lemma PTable_Seek_good t h pid pos id r t' h' : table_good t → PTable_Seek t h pid pos id = Ok (r, t', h') → table_good t'.
Proof.
  intros Ht. unfold PTable_Seek. intros (p & Hp & ([[r0 p'] h0] & Ho%PCB_Seek_sems & (t1 & Hs & [= _ <- _])%bind_Ok)%bind_Ok)%bind_Ok.
  by eapply through_block.
Qed.

Lemma PTable_Read_good t h pid inp buf size id r t' h' inp' buf' : table_good t →
  PTable_Read t h pid inp buf size id = Ok (r, t', h', inp', buf') → table_good t'.
Proof.
  intros Ht. unfold PTable_Read.
  intros (p & Hp & ([[[[r0 p'] h0] i0] b0] & Ho%PCB_Read_sems & (t1 & Hs & [= _ <- _ _ _])%bind_Ok)%bind_Ok)%bind_Ok.
  by eapply through_block.
Qed.

Lemma PTable_Write_good t h pid out buf size id r t' h' out' buf' : table_good t →
  PTable_Write t h pid out buf size id = Ok (r, t', h', out', buf') → table_good t'.
Proof.
  intros Ht. unfold PTable_Write.
  intros (p & Hp & ([[[[r0 p'] h0] i0] b0] & Ho%PCB_Write_sems & (t1 & Hs & [= _ <- _ _ _])%bind_Ok)%bind_Ok)%bind_Ok.
  by eapply through_block.
Qed.

Lemma PTable_Remove_good t h pid r t' h' : table_good t → PTable_Remove t h pid = Ok (r, t', h') → table_good t'.
Proof.
  intros Ht. unfold PTable_Remove. intros (b & _ & (e & [_ He]%aget_Ok & Hr)%bind_Ok)%bind_Ok.
  set (t1 := mkPTable b (pcb t) (psize t) (bmsem t)) in *. assert (table_good t1) as Ht1 by exact Ht.
  pose proof (Forall_lookup_1 _ _ _ _ (proj1 Ht1) He) as Hp. destruct e as [|p|p|]; try done.
  - by injection Hr as _ <- _.
  - destruct (thread p).
    + apply bind_Ok in Hr as (t2 & Hs & [= _ <- _]). by eapply set_slot_good; [exact Ht1 | | exact Hs].
    + apply bind_Ok in Hr as (h1 & _ & (t2 & Hs & [= _ <- _])%bind_Ok). by eapply set_slot_good; [exact Ht1 | | exact Hs].
Qed.

Lemma GetFreeSlot_good t i t' : table_good t → GetFreeSlot t = Ok (i, t') → table_good t'.
Proof. intros Ht. unfold GetFreeSlot. by intros ([j b] & _ & [= _ <-])%bind_Ok. Qed.

Lemma on_object_good t pid mx f t' : table_good t → (∀ p p', f p = Ok p' → same_sems p p') → on_object t pid mx f = Ok t' → table_good t'.
Proof.
  intros Ht Hf. unfold on_object. intros (e & [_ He]%aget_Ok & Hr)%bind_Ok.
  pose proof (Forall_lookup_1 _ _ _ _ (proj1 Ht) He) as Hg. destruct (block e) as [p|] eqn:Hb; [| by injection Hr as <-].
  destruct (multex p =? mx); [| by injection Hr as <-]. apply bind_Ok in Hr as (p' & Hp & Hs).
  eapply set_slot_good; [exact Ht | | exact Hs]. apply Hf in Hp. destruct e; try done; injection Hb as <-; by eapply same_good.
Qed.

Lemma new_process_good t h id cur parent sems name r1 r2 r3 t' h' : table_good t →
  sems.1.1 ≠ console_out ∧ sems.1.2 ≠ console_out ∧ sems.2 ≠ console_out →
  new_process t h id cur parent sems name r1 r2 r3 = Ok (t', h') → table_good t'.
Proof.
  intros Ht Hs. unfold new_process.
  intros ([p h1] & Hp & (p' & Hn & (t1 & Hset & [= <- _])%bind_Ok)%bind_Ok)%bind_Ok.
  assert (pcb_good p) as Hg.
  { unfold PCB_new in Hp. destruct sems as [[j e] m]. unroll Hp. by injection Hp as <- _. }
  eapply set_slot_good; [exact Ht | | exact Hset]. unfold SetFileName in Hn. by apply bind_Ok in Hn as (b & _ & [= <-]).
Qed.

(** Everything but [KPut] and the handler leaves the display alone. *)
Definition sound s : Prop := env_good (env_of s) ∧ is_Some (dev_value printer s).
Definition aside s s' : Prop :=
  (sound s → sound s') ∧ dev_busy printer s' = dev_busy printer s ∧ dev_events printer s' = dev_events printer s.
Definition spares s (r : result Sim) : Prop := ∀ s', r = Ok s' → aside s s'.
Definition yields s (r : result (list instr * Sim)) : Prop := ∀ ins s', r = Ok (ins, s') → aside s s' ∧ (sound s → foreign printer ins).

Lemma aside_trans s1 s2 s3 : aside s1 s2 → aside s2 s3 → aside s1 s3.
Proof. intros (? & ? & ?) (? & ? & ?). split; [by auto |]. split; congruence. Qed.

Lemma spares_bind {A} s (m : result A) f : (∀ a, m = Ok a → spares s (f a)) → spares s (rbind m f).
Proof. intros Hf s' (a & Ha & He)%bind_Ok. by apply (Hf a Ha). Qed.

Lemma spares_Ok s s1 : aside s s1 → spares s (Ok s1).
Proof. intros Hs s' [= <-]. exact Hs. Qed.

Lemma spares_after s s1 r : aside s s1 → spares s1 r → spares s r.
Proof. intros H1 H2 s' He. eapply aside_trans; [exact H1 | by apply H2]. Qed.

Lemma yields_bind {A} s (m : result A) f : (∀ a, m = Ok a → yields s (f a)) → yields s (rbind m f).
Proof. intros Hf ins s' (a & Ha & He)%bind_Ok. by apply (Hf a Ha). Qed.

Lemma yields_then s r f : spares s r → (∀ s1, aside s s1 → yields s (f s1)) → yields s (rbind r f).
Proof. intros Hr Hf ins s' (s1 & H1 & He)%bind_Ok. apply (Hf s1); [by apply Hr | done]. Qed.

Lemma yields_after s s1 r : aside s s1 → yields s1 r → yields s r.
Proof. intros H1 H2 ins s' He. destruct (H2 ins s' He) as [H3 H4]. split; [by eapply aside_trans |]. intros Hs. apply H4, H1, Hs. Qed.

Lemma yields_Ok s s1 ins : aside s s1 → (sound s → foreign printer ins) → yields s (Ok (ins, s1)).
Proof. intros Hs Hi ins' s' [= <- <-]. done. Qed.

Lemma yields_Fail s f : yields s (Fail f).
Proof. done. Qed.

Lemma Schedule_events s d t ty s' : Schedule s d t ty = Ok s' →
  dev_busy printer s' = dev_busy printer s ∧
  dev_events printer s' = dev_events printer s + (if is_dev printer d then 1 else 0) ∧ devices s' = devices s.
Proof. intros [H1 H2]%(Schedule_device printer). unfold dev_busy. by rewrite H2. Qed.

Ltac aside_step :=
  match goal with
  | |- spares _ (rbind _ _) => apply spares_bind; intros ? ?
  | |- spares _ (let '_ := ?x in _) => destruct x
  | |- spares _ (if ?b then _ else _) => destruct b
  | |- spares _ (Ok _) => apply spares_Ok; done
  | |- yields _ (rbind _ _) => apply yields_bind; intros ? ?
  | |- yields _ (let '_ := ?x in _) => destruct x
  | |- yields _ (if ?b then _ else _) => destruct b
  | |- yields _ (Fail _) => apply yields_Fail
  | |- yields _ SysHalt => apply yields_Fail
  | |- yields _ (Ok (_, _)) => apply yields_Ok; [done | first [done | apply foreign_app; [apply foreign_put_all | done]]]
  end.

Lemma WriteReg2_spares s v : spares s (WriteReg2 s v).
Proof. unfold WriteReg2. repeat aside_step. Qed.

Lemma ReturnPC_spares s : spares s (ReturnPC s).
Proof. unfold ReturnPC. repeat aside_step. Qed.

Lemma Return_spares s v : spares s (Return s v).
Proof. intros s' (s1 & H1%WriteReg2_spares & H2%ReturnPC_spares)%bind_Ok. by eapply aside_trans. Qed.

Lemma done_with_yields s s1 v : aside s s1 → yields s (done_with s1 v).
Proof.
  intros Hs. eapply yields_after; [exact Hs |]. unfold done_with. apply yields_then; [apply Return_spares |]. intros s2 H2. by apply yields_Ok.
Qed.

Lemma ReturnPC_yields s s1 : aside s s1 → yields s (s ← ReturnPC s1; Ok ([], s)).
Proof. intros Hs. eapply yields_after; [exact Hs |]. apply yields_then; [apply ReturnPC_spares |]. intros s2 H2. by apply yields_Ok. Qed.

Lemma aside_env s e : (env_good (env_of s) → env_good e) → putBusy (edevices e) = putBusy (edevices (env_of s)) → aside s (set_env s e).
Proof. intros Hg Hb. split; [| done]. intros [H1 H2]. split; [by apply Hg | exact H2]. Qed.

Lemma aside_table s t h : (table_good (pTab (env_of s)) → table_good t) → aside s (set_env s (with_host (with_pTab (env_of s) t) h)).
Proof. intros Ht. apply aside_env; [| done]. intros [H1 H2]. split; [by apply Ht | exact H2]. Qed.

Lemma reader_step_spares r typed s : spares s (reader_step big_endian r typed s).
Proof.
  destruct r as [| |va len buffer|va size id buffer]; cbn [reader_step].
  - apply spares_bind. intros [num rest] _. apply Return_spares.
  - apply spares_bind. intros [c rest] _. apply Return_spares.
  - apply spares_bind. intros [buf rest] _. apply spares_bind. intros [n m] _. apply (ReturnPC_spares (with_machine s m)).
  - apply spares_bind. intros pid _. apply spares_bind. intros [[[[res t] h] rest] buf] Hr.
    intros s' (s1 & H1%WriteReg2_spares & ([n m] & _ & H2%ReturnPC_spares)%bind_Ok)%bind_Ok.
    eapply aside_trans; [apply aside_table; intros Ht; by eapply PTable_Read_good |]. exact (aside_trans _ _ _ H1 H2).
Qed.

Lemma KReader_yields r typed s s1 : aside s s1 → yields s (KReader_step big_endian r typed s1).
Proof.
  intros Hs. unfold KReader_step. destruct (reader_step big_endian r typed s1) as [s2|f] eqn:Hr.
  - apply yields_Ok; [| done]. eapply aside_trans; [exact Hs |]. by apply reader_step_spares in Hr.
  - destruct f; try apply yields_Fail. by apply yields_Ok.
Qed.

Lemma Schedule_aside s d t ty s' : is_dev printer d = false → Schedule s d t ty = Ok s' → aside s s'.
Proof.
  intros Hd Hs. apply Schedule_events in Hs as (H1 & H2 & H3). rewrite Hd, Z.add_0_r in H2.
  split; [| done]. unfold sound, dev_value, env_of. by rewrite H3.
Qed.

Lemma KTake_yields r typed s : yields s (KTake_step r typed s).
Proof.
  unfold KTake_step, ConsoleInput_GetChar. intros ins s' ([ch s1] & (s2 & Hs & [= _ <-])%bind_Ok & [= <- <-])%bind_Ok. split; [| done].
  assert (devices s2 = devices s ∧ aside s s2) as [Hd Ha].
  { destruct (negb _); [| by injection Hs as <-]. split; [by apply Schedule_events in Hs as (_ & _ & ?) | eapply Schedule_aside; [| exact Hs]; done]. }
  eapply aside_trans; [exact Ha |]. unfold aside, sound, dev_value, dev_busy, dev_events, env_of, get_devs, set_devs. cbn. by rewrite Hd.
Qed.

(** New semaphores are new. *)
Lemma fresh_sound s : sound s → console_out < fresh_sem (semaphores (devices s)).
Proof. intros [_ [v Hv]]. unfold dev_value in Hv. apply fmap_Some in Hv as (se & Hs & _). by eapply fresh_sem_above. Qed.

Lemma new_semaphore_aside s n v : (sound s → n ≠ console_out) → aside s (new_semaphore s n v).
Proof.
  intros Hn. split; [| done]. intros Hs. specialize (Hn Hs). destruct Hs as [H1 H2]. split; [exact H1 |].
  unfold dev_value, new_semaphore in *. cbn in *. by rewrite lookup_insert_ne by congruence.
Qed.

Lemma make_process_spares s init id name : spares s (make_process new_bytes s init id name).
Proof.
  unfold make_process, new_process_sems. apply spares_bind. intros cur _. cbv zeta. set (n := fresh_sem (semaphores (devices s))).
  set (s3 := new_semaphore (new_semaphore (new_semaphore s n 0) (n + 1) 0) (n + 2) 1).
  apply spares_bind. intros [t h] Hp. apply spares_Ok. split; [| done]. intros Hs. pose proof (fresh_sound s Hs) as Hn. fold n in Hn.
  destruct Hs as [[Ht Hst] Hv]. assert (env_of s3 = env_of s) as He by done. rewrite He in *. split; [split; [| exact Hst] |].
  - destruct init.
    + unfold initStartProcess in Hp. apply bind_Ok in Hp as (b & _ & Hp). eapply new_process_good; [| | exact Hp]; [exact Ht |]. cbn. unfold console_out in *. lia.
    + eapply new_process_good; [| | exact Hp]; [exact Ht |]. cbn. unfold console_out in *. lia.
  - unfold dev_value in *. unfold s3, new_semaphore. cbn in *. unfold console_out in *. by rewrite !lookup_insert_ne by (intros [=]; lia).
Qed.

Lemma Load_start_yields main name s s1 : aside s s1 → yields s (Load_start big_endian new_bytes main name s1).
Proof.
  intros Hs. eapply yields_after; [exact Hs |]. unfold Load_start. apply yields_bind. intros [[o|] h] _; [| by destruct main]. repeat aside_step.
Qed.

Lemma FreeSpace_spares s : spares s (FreeSpace s).
Proof. unfold FreeSpace. apply spares_bind. intros th _. destruct (Threads.space th); repeat aside_step. Qed.

Lemma SysCreateFile_spares name s : spares s (SysCreateFile name s).
Proof.
  unfold SysCreateFile. destruct (_ =? 0); [apply WriteReg2_spares |]. apply spares_bind. intros [ok h] _.
  eapply (spares_after s (set_env s (with_host (env_of s) h))); [done | apply WriteReg2_spares].
Qed.

Lemma search_good t name so : Forall sem_good (semTable t) → search t name = Ok (Some so) → sem so ≠ console_out.
Proof.
  intros Hg. unfold search. intros ([u|o] & Hr & [= <-])%bind_Ok.
  apply (for_ret_kept (λ _, True) (λ o : Sem, sem o ≠ console_out)) in Hr; [exact Hr | | done].
  intros i st r _ Hb. apply bind_Ok in Hb as (b & _ & Hb). destruct b; [| by injection Hb as <-].
  apply bind_Ok in Hb as (e & He & Hb). unfold entry in He. apply bind_Ok in He as (o' & [_ Ho]%aget_Ok & He).
  pose proof (Forall_lookup_1 _ _ _ _ Hg Ho) as Hs. destruct o' as [o'|]; [| done]. injection He as <-.
  case_bool_decide; by injection Hb as <-.
Qed.

Lemma STable_Create_good t name n r t' : Forall sem_good (semTable t) → (r ≠ -1 → n ≠ console_out) →
  STable_Create t name n = Ok (r, t') → Forall sem_good (semTable t').
Proof.
  intros Hg Hn. unfold STable_Create. intros ([o|] & _ & Hc)%bind_Ok; [by injection Hc as _ <-|].
  apply bind_Ok in Hc as ([idx t1] & Hf & Hc). unfold FindFreeSlot in Hf. apply bind_Ok in Hf as ([j b] & _ & [= -> <-]).
  destruct (Z.ltb_spec idx 0); [by injection Hc as _ <-|]. apply bind_Ok in Hc as (tab & [_ ->]%aset_Ok & [= -> <-]).
  cbn. apply Forall_insert; [exact Hg |]. cbn. apply Hn. lia.
Qed.

Lemma SysCreateSemaphore_spares name v s : spares s (SysCreateSemaphore name v s).
Proof.
  unfold SysCreateSemaphore. cbv zeta. set (n := fresh_sem (semaphores (devices s))). apply spares_bind. intros [res t] Hc.
  eapply spares_after; [| apply Return_spares]. split; [| by destruct (res =? -1)]. intros Hs.
  pose proof (fresh_sound s Hs) as Hn. fold n in Hn. destruct Hs as [[Ht Hst] Hv].
  assert (Forall sem_good (semTable t)) as Hg by (eapply STable_Create_good; [exact Hst | | exact Hc]; intros _; unfold console_out in *; lia).
  destruct (res =? -1); (split; [split; [exact Ht | exact Hg] |]); [exact Hv |].
  unfold dev_value, new_semaphore in *. cbn in *. unfold console_out in *. by rewrite !lookup_insert_ne by (intros [=]; lia).
Qed.

(** *** The points of the code *)

Lemma foreign_sems (w : Z) c : w ≠ console_out → foreign printer c → foreign printer (IP (SUser w) :: c).
Proof. intros Hw Hc. unfold foreign, parse in *. cbn [foldr before]. rewrite decide_False by (by intros [=]). by rewrite Hc. Qed.

Lemma foreign_sig (w : Z) c : w ≠ console_out → foreign printer c → foreign printer (IV (SUser w) :: c).
Proof. intros Hw Hc. unfold foreign, parse in *. cbn [foldr before]. rewrite decide_False by (by intros [=]). by rewrite Hc. Qed.

Lemma locked_foreign p x c : pcb_good p → starts printer x = false → foreign printer c → foreign printer (locked_by p x ++ c).
Proof.
  intros (_ & _ & Hm) Hx Hc. unfold locked_by. cbn [app]. apply foreign_sems; [exact Hm |].
  assert (foreign printer (IV (SUser (multex p)) :: c)) as Hv by (by apply foreign_sig).
  unfold foreign, parse in *. cbn [foldr before] in *. rewrite Hx. by rewrite Hv.
Qed.

Lemma KFrames_yields main o h s : yields s (KFrames_step new_table main o h s).
Proof.
  unfold KFrames_step. apply yields_bind. intros [[[pt np]|] k] _.
  - by apply yields_Ok.
  - apply yields_bind. intros host _. by apply yields_Ok.
Qed.

Lemma KSegments_yields o h pt np s : yields s (KSegments_step o h pt np s).
Proof. unfold KSegments_step. repeat aside_step. Qed.

Lemma bmsem_good s : sound s → bmsem (pTab (env_of s)) ≠ console_out.
Proof. by intros [[[_ H1] _] _]. Qed.

Lemma table_sound s : sound s → table_good (pTab (env_of s)).
Proof. by intros [[? _] _]. Qed.

Lemma KExecUpdate_yields buffer s : yields s (KExecUpdate_step new_bytes stale_name buffer s).
Proof.
  unfold KExecUpdate_step. cbv zeta.
  assert (∀ s1, aside s s1 → yields s (Ok ([IV (SUser (bmsem (pTab (env_of s)))); ICall (KReturn (-1))], s1))) as Hrefuse.
  { intros s1 H1. apply yields_Ok; [exact H1 |]. intros Hs. apply foreign_sig; [by apply bmsem_good | done]. }
  apply yields_bind. intros [] _; [by apply Hrefuse |]. apply yields_bind. intros main _.
  apply yields_bind. intros [] _; [by apply Hrefuse |]. apply yields_bind. intros [index t] Hf.
  assert (aside s (set_env s (with_pTab (env_of s) t))) as Ha.
  { apply aside_env; [| done]. intros [H1 H2]. split; [by eapply GetFreeSlot_good | exact H2]. }
  destruct (index <? 0); [by apply Hrefuse |]. apply yields_bind. intros name _.
  eapply yields_after; [exact Ha |]. apply yields_then; [apply make_process_spares |]. intros s1 H1.
  eapply yields_after; [exact H1 |]. apply yields_bind. intros p Hp. apply yields_Ok; [done |]. intros Hs.
  apply foreign_sems; [| done]. by apply (pcb_live_good _ _ _ (table_sound s1 Hs) Hp).
Qed.

Lemma KPCBExec_yields pid s : yields s (KPCBExec_step pid s).
Proof.
  unfold KPCBExec_step. cbv zeta. apply yields_bind. intros p Hp. apply yields_bind. intros cur _. apply yields_bind. intros tab Ht.
  apply yields_Ok.
  - apply aside_env; [| done]. intros [H1 H2]. split; [| exact H2]. eapply set_block_good; [exact H1 | | exact Ht].
    by apply (pcb_live_good _ _ _ H1 Hp).
  - intros Hs. pose proof (pcb_live_good _ _ _ (table_sound s Hs) Hp) as (_ & _ & Hm).
    assert (foreign printer [IV (SUser (multex p)); IV (SUser (bmsem (pTab (env_of s)))); ICall (KReturn pid)]) as Hf
      by (apply foreign_sig; [done |]; apply foreign_sig; [by apply bmsem_good | done]).
    unfold foreign, parse in *. cbn [foldr] in *. by rewrite Hf.
Qed.

Lemma JoinUpdate_yields id s : yields s (JoinUpdate id s).
Proof.
  unfold JoinUpdate. destruct (id <? 0); [by apply done_with_yields |]. apply yields_bind. intros cur _. apply yields_bind. intros p Hp.
  destruct (negb _); [by apply done_with_yields |]. apply yields_bind. intros par Hpar. apply yields_Ok; [done |].
  intros Hs. apply locked_foreign; [by apply (pcb_live_good _ _ _ (table_sound s Hs) Hpar) | done | done].
Qed.

Lemma ExitUpdate_yields ec s : yields s (ExitUpdate ec s).
Proof.
  unfold ExitUpdate. apply yields_bind. intros id _. destruct (id =? 0); [apply yields_bind; intros ? _; apply yields_Fail |].
  apply yields_bind. intros ? _. apply yields_bind. intros p Hp. apply yields_bind. intros t Ht. apply yields_bind. intros par Hpar.
  assert (table_good (pTab (env_of s)) → table_good t) as Hg.
  { intros H1. eapply set_block_good; [exact H1 | | exact Ht]. by apply (pcb_block_good _ _ _ H1 Hp). }
  apply yields_Ok.
  - apply aside_env; [| done]. intros [H1 H2]. split; [by apply Hg | exact H2].
  - intros Hs. apply locked_foreign; [by apply (pcb_live_good t _ _ (Hg (table_sound s Hs)) Hpar) | done | done].
Qed.

Lemma on_object_yields pid mx f s : (∀ p p', f p = Ok p' → same_sems p p') →
  yields s (t ← on_object (pTab (env_of s)) pid mx f; Ok ([], set_env s (with_pTab (env_of s) t))).
Proof.
  intros Hf. apply yields_bind. intros t Ht. apply yields_Ok; [| done]. apply aside_env; [| done]. intros [H1 H2].
  split; [by eapply on_object_good | exact H2].
Qed.

Lemma KJoinWait_yields id s : yields s (KJoinWait_step id s).
Proof.
  unfold KJoinWait_step. apply yields_bind. intros p Hp. apply yields_Ok; [done |]. intros Hs.
  apply foreign_sems; [by apply (pcb_live_good _ _ _ (table_sound s Hs) Hp) | done].
Qed.

Lemma KJoined_yields id s : yields s (KJoined_step id s).
Proof.
  unfold KJoined_step. cbv zeta. apply yields_bind. intros p _. apply yields_bind. intros q Hq. apply yields_Ok; [done |]. intros Hs.
  apply foreign_sig; [by apply (pcb_live_good _ _ _ (table_sound s Hs) Hq) | done].
Qed.

Lemma KExitRelease_yields id s : yields s (KExitRelease_step id s).
Proof.
  unfold KExitRelease_step. apply yields_bind. intros p Hp. apply yields_Ok; [done |]. intros Hs.
  destruct (pcb_live_good _ _ _ (table_sound s Hs) Hp) as (H1 & H2 & _). apply foreign_sig; [done |]. by apply foreign_sems.
Qed.

Lemma KRemove_yields id s : yields s (KRemove_step id s).
Proof.
  unfold KRemove_step. apply yields_bind. intros [[running t] h] Hr.
  eapply yields_after; [apply (aside_table s t h); intros Ht; by eapply PTable_Remove_good |].
  apply yields_then; [apply FreeSpace_spares |]. intros s1 H1. by apply yields_Ok.
Qed.

Lemma printed_yields s s1 out x : aside s s1 → starts printer x = false → yields s (Ok (put_all out ++ [ICall x], s1)).
Proof.
  intros Hs Hx. apply yields_Ok; [done |]. intros _. apply foreign_app; [apply foreign_put_all |]. unfold foreign, parse. cbn [foldr before]. by rewrite Hx.
Qed.

Lemma table_yields {A} s (m : result (A * PTable B * Host)) r : (∀ a t h, m = Ok (a, t, h) → table_good (pTab (env_of s)) → table_good t) →
  yields s ('(a, t, h) ← m; done_with (set_env s (with_host (with_pTab (env_of s) t) h)) (r a)).
Proof. intros Hm. apply yields_bind. intros [[a t] h] Hr. apply done_with_yields, aside_table. by eapply Hm. Qed.

Lemma string_yields s va f : (∀ buffer name s', aside s s' → env_of s' = env_of s → yields s (f buffer name s')) →
  yields s ('(buffer, name, s') ← user_string big_endian new_bytes s va; f buffer name s').
Proof.
  intros Hf. apply yields_bind. intros [[buffer name] s1] Hu. unfold user_string in Hu.
  apply bind_Ok in Hu as ([buf m] & _ & (nm & _ & [= _ _ <-])%bind_Ok). by apply Hf.
Qed.

Lemma sem_call_yields s s1 (ins : list instr) t name r : aside s s1 → t = semTab (env_of s) →
  STable_Wait t name = Ok (r, ins) ∨ STable_Signal t name = Ok (r, ins) → yields s (Ok (ins ++ [ICall (KReturn r)], s1)).
Proof.
  intros Ha -> Hc. apply yields_Ok; [exact Ha |]. intros [[_ Hg] _]. unfold STable_Wait, STable_Signal in Hc.
  destruct Hc as [Hc|Hc]; apply bind_Ok in Hc as ([so|] & Hs & [= <- <-]); try done; pose proof (search_good _ _ _ Hg Hs) as Hn.
  - by apply (foreign_sems (sem so) [ICall (KReturn 1)]).
  - by apply (foreign_sig (sem so) [ICall (KReturn 1)]).
Qed.

Lemma ExceptionHandler_yields s : yields s (ExceptionHandler big_endian RandomNumber new_bytes s).
Proof.
  unfold ExceptionHandler. cbv zeta. do 4 (apply yields_bind; intros ? _).
  repeat match goal with |- yields _ (if ?b then _ else _) => destruct b end.
  all: try apply yields_Fail.
  all: try (by apply KReader_yields).
  all: try apply JoinUpdate_yields.
  all: try apply ExitUpdate_yields.
  all: try (by apply printed_yields).
  all: try (apply string_yields; intros buffer name s1 H1 He).
  - apply yields_bind. intros r _. by apply done_with_yields.
  - apply yields_bind. intros out _. by apply printed_yields.
  - by apply done_with_yields, aside_env.
  - apply yields_bind. intros [buffer m] _. by apply (KReader_yields _ _ s (with_machine s m)).
  - apply yields_bind. intros [buffer m] _. apply yields_bind. intros out _. by apply printed_yields.
  - eapply yields_after; [exact H1 |]. apply yields_then; [apply SysCreateFile_spares |]. intros s2 H2. by apply ReturnPC_yields.
  - apply yields_bind. intros pid _. eapply yields_after; [exact H1 |]. rewrite <- He.
    apply table_yields. intros r t h Ht Hg. by eapply PTable_Open_good.
  - apply yields_bind. intros pid _. apply table_yields. intros r t h Ht Hg. by eapply PTable_Close_good.
  - unfold SysExec. eapply yields_after; [exact H1 |]. apply yields_bind. intros [[o|] h] _; [| by apply done_with_yields].
    apply yields_bind. intros h' _. apply yields_Ok; [done |]. intros Hs. apply foreign_sems; [by apply bmsem_good | done].
  - apply yields_bind. intros pid _. by apply done_with_yields.
  - eapply yields_after; [exact H1 |]. apply yields_then; [apply SysCreateSemaphore_spares |]. intros s2 H2. by apply yields_Ok.
  - apply yields_bind. intros [r ins] Hr. eapply sem_call_yields; [exact H1 | done | by left; exact Hr].
  - apply yields_bind. intros [r ins] Hr. eapply sem_call_yields; [exact H1 | done | by right; exact Hr].
  - apply yields_bind. intros [buffer m] _. by apply (KReader_yields _ _ s (with_machine s m)).
  - apply yields_bind. intros [buffer m] _. apply yields_bind. intros pid _. apply yields_bind. intros [[[[r t] h] out] buf] Hw.
    apply printed_yields; [| done]. apply (aside_table (with_machine s m)). intros Ht. by eapply PTable_Write_good.
  - apply yields_bind. intros pid _. apply table_yields. intros r t h Ht Hg. by eapply PTable_Seek_good.
Qed.

#[local] Abbreviation client := (client big_endian RandomNumber new_bytes new_table stale_name).

Lemma client_yields x s : starts printer x = false → yields s (client x s).
Proof.
  destruct x; cbn [Kernel.client starts printer]; try discriminate; intros _.
  - unfold KMain_step. apply yields_then; [apply make_process_spares |]. intros s1 H1. by apply Load_start_yields.
  - apply ExceptionHandler_yields.
  - by apply done_with_yields.
  - by apply ReturnPC_yields.
  - by apply KReader_yields.
  - apply KTake_yields.
  - apply KExecUpdate_yields.
  - apply KPCBExec_yields.
  - unfold KStartProcess_step. do 2 (apply yields_bind; intros ? _). by apply Load_start_yields.
  - apply KFrames_yields.
  - apply KSegments_yields.
  - unfold KLoadFailed_step. repeat aside_step.
  - apply on_object_yields. intros p p' Hp. unfold IncNumWait in Hp. by apply bind_Ok in Hp as (n & _ & [= <-]).
  - apply on_object_yields. intros p p' [= <-]. unfold DecNumWait. by destruct (_ >? 0).
  - apply KJoinWait_yields.
  - apply KJoined_yields.
  - apply KExitRelease_yields.
  - apply KRemove_yields.
Qed.

(** The handlers. *)
Lemma wake_effect s n s' : lift s (wake (devices s) (SUser n)) = Ok s' →
  env_of s' = env_of s ∧ dev_events printer s' = dev_events printer s ∧
  dev_value printer s' = (if decide (n = console_out) then (λ v, v + 1) <$> dev_value printer s else dev_value printer s).
Proof. exact (wake_device printer s n s'). Qed.

Definition unmoved s s' : Prop :=
  (env_good (env_of s) → env_good (env_of s')) ∧ dev_events printer s' = dev_events printer s ∧
  dev_busy printer s' = dev_busy printer s ∧ dev_value printer s' = dev_value printer s.

Lemma unmoved_trans s1 s2 s3 : unmoved s1 s2 → unmoved s2 s3 → unmoved s1 s3.
Proof. intros (? & ? & ? & ?) (? & ? & ? & ?). split; [by auto |]. repeat split; congruence. Qed.

Lemma Schedule_unmoved s d t ty s' : is_dev printer d = false → Schedule s d t ty = Ok s' → unmoved s s'.
Proof.
  intros Hd Hs. apply Schedule_events in Hs as (H1 & H2 & H3). rewrite Hd, Z.add_0_r in H2.
  unfold unmoved, dev_value, env_of. by rewrite H3.
Qed.

Lemma input_unmoved s s' : SynchConsoleInput_CallBack s = Ok s' → unmoved s s'.
Proof. intros Hw. apply wake_effect in Hw as (He & Hev & Hv). unfold unmoved, dev_busy, env_of in *. by rewrite He. Qed.

Lemma timer_unmoved s s' : Timer_CallBack RandomNumber s = Ok s' → unmoved s s'.
Proof.
  unfold Timer_CallBack. intros (s1 & H1 & H2)%bind_Ok. apply (unmoved_trans s s1).
  - by apply Alarm_cases in H1 as [->| ->].
  - unfold SetInterrupt in H2. destruct (disable _); [by injection H2 as <- |]. destruct (randomize _).
    + eapply unmoved_trans; [| eapply Schedule_unmoved; [| exact H2]]; done.
    + by eapply Schedule_unmoved; [| exact H2].
Qed.

Lemma keyboard_unmoved s s' : ConsoleInput_CallBack s = Ok s' → unmoved s s'.
Proof.
  unfold ConsoleInput_CallBack. intros ([] & _ & Hc)%bind_Ok. destruct (keyboard _) as [|[|c|] keys].
  - by eapply Schedule_unmoved; [| exact Hc].
  - eapply unmoved_trans; [| eapply Schedule_unmoved; [| exact Hc]]; done.
  - apply bind_Ok in Hc as (st & _ & Hc). eapply unmoved_trans; [| by eapply input_unmoved]. done.
  - eapply unmoved_trans; [| by eapply input_unmoved]. done.
Qed.

#[export] Instance printer_law : DriverLaw printer env_good (CallBack RandomNumber) client (user_step big_endian).
Proof.
  split.
  - intros d s s' _ _ Hc Hg. destruct d; cbn [CallBack is_dev printer] in *.
    + apply timer_unmoved in Hc as (H1 & H2 & H3 & H4). split; [by apply H1 | done].
    + apply keyboard_unmoved in Hc as (H1 & H2 & H3 & H4). split; [by apply H1 | done].
    + unfold ConsoleOutput_CallBack in Hc. apply bind_Ok in Hc as (st & _ & Hc). apply wake_effect in Hc as (He & Hev & Hv).
      unfold env_of, dev_busy in *. rewrite He. split; [exact Hg |]. split; [exact Hev |]. split; [done | exact Hv].
  - intros x s ins s' _ Hg Hv Hc. destruct (starts printer x) eqn:Hx.
    + destruct x as [| | | | | |ch| | | | | | | | | | | |]; try done. cbn [Kernel.client] in Hc. unfold ConsoleOutput_PutChar in Hc.
      apply bind_Ok in Hc as (s1 & (u & Hb & Hs)%bind_Ok & [= <- <-]). apply Schedule_events in Hs as (H1 & H2 & H3).
      unfold dev_busy, get_devs, env_of in *. rewrite H3. split; [exact Hg |]. split; [| split; [done | split; [exact H2 | done]]].
      cbn. destruct (putBusy _) eqn:Hp in Hb; [done |]. exact Hp.
    + destruct (client_yields x s Hx ins s' Hc) as [(Hs & Hb & He) Hf]. destruct (Hs (conj Hg Hv)) as [Hg' _].
      split; [exact Hg' |]. split; [exact Hb |]. split; [exact He |]. by apply Hf.
  - intros m ins m' _ Hu. unfold user_step in Hu. destruct (OneInstruction _ _ _) as [m1|[]]; try done; [by injection Hu as <- _ |].
    by apply bind_Ok in Hu as (m1 & _ & [= <- _]).
Qed.

(** ** From the start on *)

Variable new_bitmap : Z → result B.

Lemma PTable_new_good n b m t : m ≠ console_out → PTable_new n b (replicate (Z.to_nat MAX_PROCESS) Null) m = Ok t → table_good t.
Proof.
  intros Hm. unfold PTable_new. destruct (n <? 0); [done |]. cbv zeta.
  intros (bits & _ & (tab & Ht & [= <-])%bind_Ok)%bind_Ok. split; [| exact Hm]. cbn.
  apply (for_each_kept (Forall slot_good)) in Ht; [exact Ht | | by apply Forall_replicate].
  intros i l l' Hl [_ ->]%aset_Ok. by apply Forall_insert.
Qed.

Lemma STable_new_good (bits : B) (t : STable B) : STable_new bits (replicate (Z.to_nat MAX_SEMAPHORE) None) = Ok t → Forall sem_good (semTable t).
Proof.
  unfold STable_new. intros (tab & Ht & [= <-])%bind_Ok. cbn.
  apply (for_each_kept (Forall sem_good)) in Ht; [exact Ht | | by apply Forall_replicate].
  intros i l l' Hl [_ ->]%aset_Ok. by apply Forall_insert.
Qed.

Lemma display_events s : dev_events printer s = Z.of_nat (length (filter (λ p, callOnInterrupt p = DConsoleOutput) (pending (interrupt s)))).
Proof. refine (dev_events_filter printer (λ d, d = DConsoleOutput) s _). by intros []. Qed.

Lemma Initialize_unused slice keys pid host name s : Kernel_Initialize RandomNumber new_bytes new_bitmap slice keys pid host name = Ok s →
  unused printer env_good s ∧ made (devices s).
Proof.
  unfold Kernel_Initialize. intros (frames & _ & (ptab & Hp%PTable_new_good & (sembits & _ & (stab & Hst%STable_new_good & Hi)%bind_Ok)%bind_Ok)%bind_Ok)%bind_Ok; [| done].
  apply bind_Ok in Hi as ([fs h] & _ & Hi). apply bind_Ok in Hi as (s1 & H1 & H2).
  match type of H1 with SetInterrupt _ ?s0 = _ => set (s0' := s0) in * end.
  assert (env_good (env_of s0')) as Hg by (by split).
  assert (unmoved s0' s1 ∧ ∃ e, devices s1 = with_env (devices s0') e) as [(G1 & E1 & B1 & V1) [e D1]].
  { unfold SetInterrupt in H1. destruct (disable _); [injection H1 as <-; split; [done | by eexists] |].
    destruct (randomize _); pose proof H1 as (_ & _ & Hd)%Schedule_events; apply Schedule_unmoved in H1; try done.
    - split; [eapply unmoved_trans; [| exact H1]; done |]. rewrite Hd. by eexists.
    - split; [done |]. rewrite Hd. by eexists. }
  pose proof H2 as (_ & _ & D2)%Schedule_events. apply Schedule_unmoved in H2 as (G2 & E2 & B2 & V2); [| done].
  split; [constructor |].
  - intros t th. rewrite D2, D1. cbn. intros Ht. apply lookup_singleton_Some in Ht as [<- <-]. cbn. split; [by repeat constructor | done].
  - rewrite D2, D1. reflexivity.
  - rewrite V2, V1. reflexivity.
  - apply G2, G1, Hg.
  - rewrite B2, B1. reflexivity.
  - rewrite E2, E1. reflexivity.
  - rewrite D2, D1. intros l Hl. cbn in *. apply not_eq_None_Some in Hl as [se Hl].
    repeat (apply lookup_insert_Some in Hl as [[Heq _]|[_ Hl]]; [first [discriminate Heq | injection Heq as <-; done] |]).
    by rewrite lookup_empty in Hl.
Qed.

(** C11: the console driver never disturbs the display.  In every state of the
    running system, whatever its programs do: a thread that is about to put a
    character on the display finds it idle, so that the assertion in
    [ConsoleOutput::PutChar] cannot fail, and exactly one interrupt of the
    display is pending while it is busy, and none otherwise, so that the thread
    that waits for it is woken. *)
Theorem putchar_finds_display_idle slice keys pid host name s s'
    (Hi : Kernel_Initialize RandomNumber new_bytes new_bitmap slice keys pid host name = Ok s)
    (Hr : rtc (exec_step (CallBack RandomNumber) client (user_step big_endian)) s s') :
  (∀ th ch c, threads (devices s') !! currentThread (devices s') = Some th → code th = ICall (KPut ch) :: c →
     putBusy (get_devs s') = false) ∧
  length (filter (λ p, callOnInterrupt p = DConsoleOutput) (pending (interrupt s'))) = if putBusy (get_devs s') then 1%nat else 0%nat.
Proof.
  destruct (Initialize_unused _ _ _ _ _ _ Hi) as [Hu Hm].
  pose proof (Initialize_booted RandomNumber new_bytes new_bitmap _ _ _ _ _ _ Hi) as Hb.
  destruct (device_never_disturbed printer (CallBack RandomNumber) client (user_step big_endian) env_good s s' Hb Hm Hu Hr) as (Hd & _ & Hp).
  split; [intros th ch c Ht Hc; by apply (Hd th (KPut ch) c) |]. specialize (Hp eq_refl). rewrite display_events in Hp.
  change (dev_busy printer s') with (putBusy (get_devs s')) in Hp. destruct (putBusy _); lia.
Qed.
End printing.

(** On the machine of [KernelProps]: the parent is about to print. *)
Definition about_to_put (n : nat) : bool :=
  match threads (devices (demo_state n)) !! currentThread (devices (demo_state n)) with
  | Some th => match code th with ICall (KPut _) :: _ => true | _ => false end
  | None => false
  end.

Lemma about_to_put_code n : about_to_put n = true → ∃ th ch c,
  threads (devices (demo_state n)) !! currentThread (devices (demo_state n)) = Some th ∧ code th = ICall (KPut ch) :: c.
Proof.
  unfold about_to_put. destruct (threads _ !! _) as [th|] eqn:Ht; [| done]. destruct (code th) as [|i c] eqn:Hc; [done |].
  destruct i; try done. destruct x; try done. intros _. by eexists _, _, _.
Qed.

(** The second character is about to be put, and later the display is busy with it. *)
Lemma putchar_finds_display_idle_witness : about_to_put 105 = true ∧ putBusy (get_devs (demo_state 105)) = false ∧
  putBusy (get_devs (demo_state 107)) = true ∧
  length (filter (λ p, callOnInterrupt p = DConsoleOutput) (pending (interrupt (demo_state 107)))) = 1%nat.
Proof.
  assert (about_to_put 105 = true) as H1 by (vm_compute; reflexivity).
  assert (putBusy (get_devs (demo_state 107)) = true) as H2 by (vm_compute; reflexivity).
  split; [exact H1 |]. split; [| split; [exact H2 |]].
  - destruct (about_to_put_code 105 H1) as (th & ch & c & Ht & Hc).
    refine (proj1 (putchar_finds_display_idle false (λ _ : Z, 7) zeros (λ n, replicate (Z.to_nat n) invalidTE) (λ _, [0]) _ _ _ _ _ _ demo_boot (demo_state 105) demo_boot_eq _) th ch c Ht Hc).
    apply demo_reached. vm_compute. reflexivity.
  - pose proof (proj2 (putchar_finds_display_idle false (λ _ : Z, 7) zeros (λ n, replicate (Z.to_nat n) invalidTE) (λ _, [0]) _ _ _ _ _ _ demo_boot (demo_state 107) demo_boot_eq
      (demo_reached 107 ltac:(vm_compute; reflexivity)))) as H. rewrite H2 in H. exact H.
Defined.
