(* ===== verification/Faults.v ===== *)
(** * What can fail in the running system

    The reasons that [SynchProps.kernel_never_stuck] allows are traced to their
    causes for the whole kernel: no interrupt handler fails, no lock is released
    by a thread that does not hold it, and no [ASSERT] of the threads, the
    scheduler, the synchronisation, the clock, the timer and the console fails,
    whatever the programs do. *)

From S2P Require Import Prelude Bitmap Machine Lists Mips HostFile AddrSpace Interrupt Threads Sched Waiters Wakeups Locks.
From S2P Require Import Synch SynchProps Handlers Interleave Drivers Discipline Ksyscall Console STable PCB PTable Usermem.
From S2P Require Import Kernel KernelLaws Exec KernelProps KernelConsole.
Local Open Scope Z_scope.

Section faults.
Context {B : Type} `{BitmapOps B}.
#[local] Abbreviation instr := (instr kcall).
#[local] Abbreviation Env := (Env (B := B)).
#[local] Abbreviation Sim := (Sim Device (Threads kcall Env)).
Implicit Types (s : Sim) (ins : list instr).
Variable big_endian : bool.
Variable RandomNumber : Z → Z.
Variable new_bytes : Z → list Z.
Variable new_table : Z → list TranslationEntry.
Variable stale_name : Z → list Z.
#[local] Abbreviation client := (client big_endian RandomNumber new_bytes new_table stale_name).

(** ** The locks and the keyboard *)

(** The console's locks: [PutChar] holds one when it starts the display,
    [GetChar] the other when it takes a character. *)
Definition console_pre (x : kcall) (n : option Z) : option (option Z) :=
  match x with
  | KTake _ _ => if decide (n = None) then Some (Some console_in) else None
  | KPut _ => if decide (n = Some console_out) then Some n else None
  | _ => if decide (n = None) then Some None else None
  end.
#[local] Abbreviation tidy := (tidy console_pre).

Definition is_input (d : Device) : bool := match d with DConsoleInput => true | _ => false end.

(** The keyboard is polled by at most one interrupt, and by none while a
    character waits to be taken. *)
Definition keyboard_ok (e : Env) (ev : list Device) : Prop :=
  count is_input ev <= 1 ∧ (incoming (edevices e) ≠ char_EOF → count is_input ev = 0).

Lemma keyboard_perm (e : Env) ev ev' : ev ≡ₚ ev' → keyboard_ok e ev → keyboard_ok e ev'.
Proof.
  intros Hp. assert (count is_input ev = count is_input ev') as Hc by (induction Hp; cbn; lia). unfold keyboard_ok. by rewrite Hc.
Qed.

Definition inputs s : Z := count is_input (events s).

Lemma Schedule_inputs s d t ty s' : Schedule s d t ty = Ok s' →
  inputs s' = inputs s + (if is_input d then 1 else 0) ∧ devices s' = devices s.
Proof.
  unfold Schedule. intros (w & _ & (u & _ & [= <-])%bind_Ok)%bind_Ok. split; [| done].
  assert (∀ ev ev', ev ≡ₚ ev' → count is_input ev = count is_input ev') as Hperm by (intros ev ev'; induction 1; cbn; lia).
  transitivity (count is_input (callOnInterrupt <$> (mkPending d w ty :: pending (interrupt s)))).
  - apply Hperm, fmap_Permutation, sinsert_perm.
  - rewrite fmap_cons. unfold inputs, events. cbn [count callOnInterrupt]. lia.
Qed.

(** Everything but [GetChar] and the keyboard's handler leaves the keyboard alone. *)
Definition unread s s' : Prop := incoming (edevices (env_of s')) = incoming (edevices (env_of s)) ∧ inputs s' = inputs s.
Definition silent s (r : result Sim) : Prop := ∀ s', r = Ok s' → unread s s'.
Definition orderly s (r : result (list instr * Sim)) : Prop := ∀ ins s', r = Ok (ins, s') → unread s s' ∧ tidy ins.

Lemma unread_trans s1 s2 s3 : unread s1 s2 → unread s2 s3 → unread s1 s3.
Proof. intros [? ?] [? ?]. split; congruence. Qed.

Lemma silent_bind {A} s (m : result A) f : (∀ a, m = Ok a → silent s (f a)) → silent s (rbind m f).
Proof. intros Hf s' (a & Ha & He)%bind_Ok. by apply (Hf a Ha). Qed.

Lemma silent_Ok s s1 : unread s s1 → silent s (Ok s1).
Proof. intros Hs s' [= <-]. exact Hs. Qed.

Lemma silent_after s s1 r : unread s s1 → silent s1 r → silent s r.
Proof. intros H1 H2 s' He. eapply unread_trans; [exact H1 | by apply H2]. Qed.

Lemma orderly_bind {A} s (m : result A) f : (∀ a, m = Ok a → orderly s (f a)) → orderly s (rbind m f).
Proof. intros Hf ins s' (a & Ha & He)%bind_Ok. by apply (Hf a Ha). Qed.

Lemma orderly_after s s1 r : unread s s1 → orderly s1 r → orderly s r.
Proof. intros H1 H2 ins s' He. destruct (H2 ins s' He) as [H3 H4]. split; [by eapply unread_trans | done]. Qed.

Lemma orderly_then s r f : silent s r → (∀ s1, unread s s1 → orderly s (f s1)) → orderly s (rbind r f).
Proof. intros Hr Hf ins s' (s1 & H1 & He)%bind_Ok. apply (Hf s1); [by apply Hr | done]. Qed.

Lemma orderly_Ok s s1 ins : unread s s1 → tidy ins → orderly s (Ok (ins, s1)).
Proof. intros Hs Hi ins' s' [= <- <-]. done. Qed.

Lemma orderly_Fail s f : orderly s (Fail f).
Proof. done. Qed.

Lemma tidy_put_all out : tidy (put_all out).
Proof. unfold put_all. induction out as [|c out IH]; [done |]. cbn [mbind list_bind]. by apply tidy_app. Qed.

Ltac silent_step :=
  match goal with
  | |- silent _ (rbind _ _) => apply silent_bind; intros ? ?
  | |- silent _ (let '_ := ?x in _) => destruct x
  | |- silent _ (if ?b then _ else _) => destruct b
  | |- silent _ (Fail _) => done
  | |- silent _ (Ok _) => apply silent_Ok; done
  | |- orderly _ (rbind _ _) => apply orderly_bind; intros ? ?
  | |- orderly _ (let '_ := ?x in _) => destruct x
  | |- orderly _ (if ?b then _ else _) => destruct b
  | |- orderly _ (Fail _) => apply orderly_Fail
  | |- orderly _ SysHalt => apply orderly_Fail
  | |- orderly _ (Ok (_, _)) => apply orderly_Ok; [done | first [done | apply tidy_app; [apply tidy_put_all | done]]]
  end.

Lemma WriteReg2_silent s v : silent s (WriteReg2 s v).
Proof. unfold WriteReg2. repeat silent_step. Qed.

Lemma ReturnPC_silent s : silent s (ReturnPC s).
Proof. unfold ReturnPC. repeat silent_step. Qed.

Lemma Return_silent s v : silent s (Return s v).
Proof. intros s' (s1 & H1%WriteReg2_silent & H2%ReturnPC_silent)%bind_Ok. by eapply unread_trans. Qed.

Lemma done_orderly s s1 v : unread s s1 → orderly s (done_with s1 v).
Proof.
  intros Hs. eapply orderly_after; [exact Hs |]. unfold done_with. apply orderly_then; [apply Return_silent |]. intros s2 H2. by apply orderly_Ok.
Qed.

Lemma ReturnPC_orderly s s1 : unread s s1 → orderly s (s ← ReturnPC s1; Ok ([], s)).
Proof. intros Hs. eapply orderly_after; [exact Hs |]. apply orderly_then; [apply ReturnPC_silent |]. intros s2 H2. by apply orderly_Ok. Qed.

Lemma unread_env s e : incoming (edevices e) = incoming (edevices (env_of s)) → unread s (set_env s e).
Proof. done. Qed.

Lemma reader_step_silent r typed s : silent s (reader_step big_endian r typed s).
Proof.
  destruct r as [| |va len buffer|va size id buffer]; cbn [reader_step].
  - apply silent_bind. intros [num rest] _. apply Return_silent.
  - apply silent_bind. intros [c rest] _. apply Return_silent.
  - apply silent_bind. intros [buf rest] _. apply silent_bind. intros [n m] _. apply (ReturnPC_silent (with_machine s m)).
  - apply silent_bind. intros pid _. apply silent_bind. intros [[[[res t] h] rest] buf] Hr.
    intros s' (s1 & H1%WriteReg2_silent & ([n m] & _ & H2%ReturnPC_silent)%bind_Ok)%bind_Ok. exact (unread_trans _ _ _ H1 H2).
Qed.

Lemma KReader_orderly r typed s s1 : unread s s1 → orderly s (KReader_step big_endian r typed s1).
Proof.
  intros Hs. unfold KReader_step. destruct (reader_step big_endian r typed s1) as [s2|f] eqn:Hr.
  - apply orderly_Ok; [| done]. eapply unread_trans; [exact Hs |]. by apply reader_step_silent in Hr.
  - destruct f; try apply orderly_Fail. by apply orderly_Ok.
Qed.

Lemma make_process_silent s init id name : silent s (make_process new_bytes s init id name).
Proof. unfold make_process, new_process_sems. cbv zeta. apply silent_bind. intros cur _. apply silent_bind. intros [t h] _. by apply silent_Ok. Qed.

Lemma Load_start_orderly main name s s1 : unread s s1 → orderly s (Load_start big_endian new_bytes main name s1).
Proof.
  intros Hs. eapply orderly_after; [exact Hs |]. unfold Load_start. apply orderly_bind. intros [[o|] h] _; [| by destruct main]. repeat silent_step.
Qed.

Lemma FreeSpace_silent s : silent s (FreeSpace s).
Proof. unfold FreeSpace. apply silent_bind. intros th _. destruct (Threads.space th); repeat silent_step. Qed.

Lemma SysCreateFile_silent name s : silent s (SysCreateFile name s).
Proof.
  unfold SysCreateFile. destruct (_ =? 0); [apply WriteReg2_silent |]. apply silent_bind. intros [ok h] _.
  by apply (silent_after s (set_env s (with_host (env_of s) h))); [| apply WriteReg2_silent].
Qed.

Lemma SysCreateSemaphore_silent name v s : silent s (SysCreateSemaphore name v s).
Proof.
  unfold SysCreateSemaphore. cbv zeta. apply silent_bind. intros [res t] _. eapply silent_after; [| apply Return_silent].
  by destruct (res =? -1).
Qed.

Lemma string_orderly s va f : (∀ buffer name s', unread s s' → orderly s (f buffer name s')) →
  orderly s ('(buffer, name, s') ← user_string big_endian new_bytes s va; f buffer name s').
Proof.
  intros Hf. apply orderly_bind. intros [[buffer name] s1] Hu. unfold user_string in Hu.
  apply bind_Ok in Hu as ([buf m] & _ & (nm & _ & [= _ _ <-])%bind_Ok). by apply Hf.
Qed.

Lemma sem_call_orderly s s1 ins t name r : unread s s1 → STable_Wait t name = Ok (r, ins) ∨ STable_Signal t name = Ok (r, ins) →
  orderly s (Ok (ins ++ [ICall (KReturn r)], s1)).
Proof.
  intros Ha Hc. apply orderly_Ok; [exact Ha |]. unfold STable_Wait, STable_Signal in Hc.
  by destruct Hc as [Hc|Hc]; apply bind_Ok in Hc as ([so|] & _ & [= <- <-]).
Qed.

Lemma KExecUpdate_orderly buffer s : orderly s (KExecUpdate_step new_bytes stale_name buffer s).
Proof.
  unfold KExecUpdate_step. cbv zeta. apply orderly_bind. intros [] _; [by apply orderly_Ok |]. apply orderly_bind. intros main _.
  apply orderly_bind. intros [] _; [by apply orderly_Ok |]. apply orderly_bind. intros [index t] _.
  destruct (index <? 0); [by apply orderly_Ok |]. apply orderly_bind. intros name _.
  eapply (orderly_after s (set_env s (with_pTab (env_of s) t))); [done |]. apply orderly_then; [apply make_process_silent |].
  intros s1 H1. apply orderly_bind. intros p _. by apply orderly_Ok.
Qed.

Lemma KRemove_orderly id s : orderly s (KRemove_step id s).
Proof.
  unfold KRemove_step. apply orderly_bind. intros [[running t] h] _.
  eapply (orderly_after s (set_env s (with_host (with_pTab (env_of s) t) h))); [done |].
  apply orderly_then; [apply FreeSpace_silent |]. intros s1 H1. by apply orderly_Ok.
Qed.

Lemma ExceptionHandler_orderly s : orderly s (ExceptionHandler big_endian RandomNumber new_bytes s).
Proof.
  unfold ExceptionHandler. cbv zeta. do 4 (apply orderly_bind; intros ? _).
  repeat match goal with |- orderly _ (if ?b then _ else _) => destruct b end.
  all: try apply orderly_Fail.
  all: try (by apply KReader_orderly).
  all: try (by apply done_orderly).
  all: try (apply string_orderly; intros buffer name s1 H1).
  all: try (by unfold JoinUpdate, ExitUpdate; repeat first [silent_step | by apply done_orderly]).
  all: try (by repeat first [silent_step | by apply done_orderly]).
  - apply orderly_bind. intros [buffer m] _. by apply (KReader_orderly _ _ s (with_machine s m)).
  - eapply orderly_after; [exact H1 |]. apply orderly_then; [apply SysCreateFile_silent |]. intros s2 H2. by apply ReturnPC_orderly.
  - apply orderly_bind. intros pid _. apply orderly_bind. intros [[r t] h] _. apply done_orderly. split; [done | apply H1].
  - eapply orderly_after; [exact H1 |]. unfold SysExec. apply orderly_bind. intros [[o|] h] _; [| by apply done_orderly]. repeat silent_step.
  - eapply orderly_after; [exact H1 |]. apply orderly_then; [apply SysCreateSemaphore_silent |]. intros s2 H2. by apply orderly_Ok.
  - apply orderly_bind. intros [r ins] Hr. eapply sem_call_orderly; [exact H1 | left; exact Hr].
  - apply orderly_bind. intros [r ins] Hr. eapply sem_call_orderly; [exact H1 | right; exact Hr].
  - apply orderly_bind. intros [buffer m] _. by apply (KReader_orderly _ _ s (with_machine s m)).
Qed.

Lemma client_orderly x s : match x with KTake _ _ | KPut _ => False | _ => True end → orderly s (client x s).
Proof.
  destruct x; cbn [Kernel.client]; try done; intros _.
  - unfold KMain_step. apply orderly_then; [apply make_process_silent |]. intros s1 H1. by apply Load_start_orderly.
  - apply ExceptionHandler_orderly.
  - by apply done_orderly.
  - by apply ReturnPC_orderly.
  - by apply KReader_orderly.
  - apply KExecUpdate_orderly.
  - unfold KPCBExec_step. cbv zeta. repeat silent_step.
  - unfold KStartProcess_step. do 2 (apply orderly_bind; intros ? _). by apply Load_start_orderly.
  - unfold KFrames_step. apply orderly_bind. intros [[[pt np]|] k] _; repeat silent_step.
  - unfold KSegments_step. repeat silent_step.
  - unfold KLoadFailed_step. repeat silent_step.
  - unfold KIncNumWait_step. repeat silent_step.
  - unfold KDecNumWait_step. repeat silent_step.
  - unfold KJoinWait_step. repeat silent_step.
  - unfold KJoined_step. cbv zeta. repeat silent_step.
  - unfold KExitRelease_step. repeat silent_step.
  - apply KRemove_orderly.
Qed.

Lemma set_devs_inputs s d : inputs (set_devs s d) = inputs s.
Proof. done. Qed.

(** [GetChar] takes the character and has the keyboard polled again. *)
Lemma KTake_keyboard r typed s ins s' : KTake_step r typed s = Ok (ins, s') → keyboard_ok (env_of s) (events s) →
  keyboard_ok (env_of s') (events s').
Proof.
  unfold KTake_step, ConsoleInput_GetChar. intros ([ch s1] & (s2 & Hs & [= _ <-])%bind_Ok & [= _ <-])%bind_Ok [H1 H2].
  unfold keyboard_ok. match goal with |- count is_input (events ?x) <= 1 ∧ _ => change (count is_input (events x)) with (inputs s2) end.
  split; [| done]. fold (inputs s) in H1, H2. unfold get_devs in Hs. cbn [devs Env_devices] in Hs.
  destruct (Z.eqb_spec (incoming (edevices (env (devices s)))) char_EOF) as [Heof|Heof]; cbn [negb] in Hs.
  - by injection Hs as <-.
  - apply Schedule_inputs in Hs as [-> _]. cbn [is_input]. by rewrite (H2 Heof).
Qed.

Lemma KPut_silent ch s : silent s (ConsoleOutput_PutChar s ch).
Proof.
  intros s' Hp. unfold ConsoleOutput_PutChar in Hp. apply bind_Ok in Hp as (u & _ & [Hi Hd]%Schedule_inputs).
  split; [unfold env_of; by rewrite Hd | by rewrite Hi, Z.add_0_r].
Qed.

Lemma unread_keyboard s s' : unread s s' → keyboard_ok (env_of s) (events s) → keyboard_ok (env_of s') (events s').
Proof. intros [Hi Hn]. unfold keyboard_ok. rewrite Hi. fold (inputs s) (inputs s'). by rewrite Hn. Qed.

Lemma client_discipline x s ins s' : client x s = Ok (ins, s') →
  (∀ n m, console_pre x n = Some m → foldr (needs console_pre) (Some n) ins = Some m) ∧
  (keyboard_ok (env_of s) (events s) → keyboard_ok (env_of s') (events s')).
Proof.
  intros Hc. assert (match x with KTake _ _ | KPut _ => False | _ => True end ∨ (∃ r typed, x = KTake r typed) ∨ ∃ ch, x = KPut ch) as [Hx|[(r & typed & ->)|[ch ->]]]
    by (destruct x; eauto).
  - destruct (client_orderly x s Hx ins s' Hc) as [Hu Ht]. split; [| by apply unread_keyboard].
    intros n m Hn. assert (n = None ∧ m = None) as [-> ->] by (destruct x; try done; unfold console_pre in Hn; by case_decide; inv Hn). exact Ht.
  - cbn [Kernel.client] in Hc. split; [| by eapply KTake_keyboard]. unfold KTake_step in Hc. apply bind_Ok in Hc as ([c s1] & _ & [= <- _]).
    intros n m. cbn. case_decide; [| done]. intros [= <-]. by subst n.
  - cbn [Kernel.client] in Hc. apply bind_Ok in Hc as (s1 & H1%KPut_silent & [= <- <-]). split; [| by apply unread_keyboard].
    intros n m. cbn. by case_decide; [intros [= <-] |].
Qed.

(** ** Interrupt handlers *)

Lemma wake_silent s n : silent s (lift s (wake (devices s) (SUser n))).
Proof.
  unfold lift. intros s' (k & Hk & [= <-])%bind_Ok. pose proof (wake_user _ _ _ Hk) as [He _]. split; [| done].
  unfold env_of. cbn. by rewrite He.
Qed.

Lemma timer_silent s : silent s (Timer_CallBack RandomNumber s).
Proof.
  unfold Timer_CallBack. intros s' (s1 & H1 & H2)%bind_Ok. apply (unread_trans s s1); [by apply Alarm_cases in H1 as [->| ->] |].
  unfold SetInterrupt in H2. destruct (disable _); [by injection H2 as <- |].
  assert (∀ s0 n, silent s0 (Schedule s0 DTimer n TimerInt)) as Hsch.
  { intros s0 n s2 [Hi Hd]%Schedule_inputs. split; [unfold env_of; by rewrite Hd | by rewrite Hi, Z.add_0_r]. }
  destruct (randomize _); [| by apply Hsch in H2]. eapply unread_trans; [| by apply Hsch in H2]. done.
Qed.

Lemma display_silent s : silent s (ConsoleOutput_CallBack s).
Proof.
  unfold ConsoleOutput_CallBack. apply silent_bind. intros st _. eapply silent_after; [| apply wake_silent]. done.
Qed.

(** A poll finds nothing, and is repeated, or a character, or the end of the
    file, and is not. *)
Lemma keyboard_handler s s' : ConsoleInput_CallBack s = Ok s' → keyboard_ok (env_of s) (DConsoleInput :: events s) →
  keyboard_ok (env_of s') (events s').
Proof.
  unfold ConsoleInput_CallBack. intros ([] & Heof & Hc)%bind_Ok [H1 _]. cbn [count is_input] in H1. fold (inputs s) in H1.
  pose proof (count_nonneg is_input (events s)) as H0. fold (inputs s) in H0.
  assert (incoming (edevices (env_of s)) = char_EOF) as He.
  { unfold get_devs in Heof. cbn [devs Env_devices] in Heof. by destruct (Z.eqb_spec (incoming (edevices (env (devices s)))) char_EOF). }
  unfold keyboard_ok. fold (inputs s').
  assert (∀ s0, inputs s0 = inputs s → incoming (edevices (env_of s0)) = char_EOF →
    Schedule s0 DConsoleInput ConsoleTime ConsoleReadInt = Ok s' → inputs s' <= 1 ∧ (incoming (edevices (env_of s')) ≠ char_EOF → inputs s' = 0)) as Hpoll.
  { intros s0 Hi Hin [-> Hd]%Schedule_inputs. cbn [is_input]. unfold env_of in *. rewrite Hd. split; [lia | done]. }
  assert (∀ s0, inputs s0 = inputs s → SynchConsoleInput_CallBack s0 = Ok s' → inputs s' <= 1 ∧ (incoming (edevices (env_of s')) ≠ char_EOF → inputs s' = 0)) as Hgot.
  { intros s0 Hi [_ ->]%wake_silent. lia. }
  destruct (keyboard _) as [|[|c|] keys].
  - by apply (Hpoll s).
  - eapply Hpoll; [| | exact Hc]; [done | exact He].
  - apply bind_Ok in Hc as (st & _ & Hc). eapply Hgot; [| exact Hc]. done.
  - eapply Hgot; [| exact Hc]. done.
Qed.

#[export] Instance console_discipline : DisciplineLaw console_pre keyboard_ok (CallBack RandomNumber) client (user_step big_endian).
Proof.
  split.
  - intros d s s' _ _ Hc Hg. destruct d; cbn [CallBack] in Hc.
    + apply timer_silent in Hc. eapply unread_keyboard; [exact Hc | exact Hg].
    + by eapply keyboard_handler.
    + apply display_silent in Hc. eapply unread_keyboard; [exact Hc | exact Hg].
  - intros x s ins s' _. apply client_discipline.
  - intros m ins m' _ Hu. unfold user_step in Hu. destruct (OneInstruction _ _ _) as [m1|[]]; try done; [by injection Hu as <- _ |].
    by apply bind_Ok in Hu as (m1 & _ & [= <- _]).
Qed.

(** In every state from [Initialize] on. *)
Variable new_bitmap : Z → result B.

Lemma Initialize_inputs slice keys pid host name s : Kernel_Initialize RandomNumber new_bytes new_bitmap slice keys pid host name = Ok s →
  (∀ t th, threads (devices s) !! t = Some th → Forall static (code th) ∧ tidy (code th)) ∧
  (∀ n, n ∈ [console_in; console_out] → is_Some (semaphores (devices s) !! SUser n)) ∧ keyboard_ok (env (devices s)) (events s).
Proof.
  unfold Kernel_Initialize. intros (frames & _ & (ptab & _ & (sembits & _ & (stab & _ & Hi)%bind_Ok)%bind_Ok)%bind_Ok)%bind_Ok.
  apply bind_Ok in Hi as ([fs h] & _ & Hi). apply bind_Ok in Hi as (s1 & H1 & H2).
  match type of H1 with SetInterrupt _ ?s0 = _ => set (s0' := s0) in * end.
  assert (unread s0' s1 ∧ ∃ e, devices s1 = with_env (devices s0') e) as [[Hin1 Hi1] [e D1]].
  { unfold SetInterrupt in H1. destruct (disable _); [injection H1 as <-; split; [done | by eexists] |].
    destruct (randomize _); apply Schedule_inputs in H1 as [Hi Hd]; (split; [split; [unfold env_of; by rewrite Hd | by rewrite Hi, Z.add_0_r] |]); rewrite Hd; by eexists. }
  apply Schedule_inputs in H2 as [Hi2 D2]. cbn [is_input] in Hi2. assert (inputs s0' = 0) as H0 by done. rewrite D2, D1. split; [| split].
  - intros t th. cbn. intros Ht. apply lookup_singleton_Some in Ht as [<- <-]. cbn. split; [by repeat constructor | done].
  - intros n Hn. apply elem_of_cons in Hn as [->|Hn]; [by eexists |]. apply list_elem_of_singleton in Hn as ->. by eexists.
  - split; fold (inputs s); [lia |]. intros Hne. exfalso. apply Hne. unfold env_of in Hin1. rewrite D1 in Hin1. exact Hin1.
Qed.

(** ** No handler fails *)

(** Every failure is an overflow. *)
Definition overflows {A} (r : result A) : Prop := ∀ e, r = Fail e → e = Undefined.

Lemma overflows_bind {A A'} (r : result A) (f : A → result A') : overflows r → (∀ a, r = Ok a → overflows (f a)) → overflows (rbind r f).
Proof. intros Hr Hf e. destruct r as [a|e0]; cbn [rbind]; [by apply Hf | by intros [= <-]; apply Hr]. Qed.

Lemma overflows_Ok {A} (a : A) : overflows (Ok a).
Proof. done. Qed.

Lemma overflows_add x y : overflows (int_add x y).
Proof. intros e. unfold int_add. case_decide; [done | by intros [= <-]]. Qed.

Lemma overflows_Schedule s d t ty : 0 < t → overflows (Schedule s d t ty).
Proof.
  intros Ht. unfold Schedule. apply overflows_bind; [apply overflows_add |]. intros w _.
  destruct (Z.gtb_spec t 0); [| lia]. apply overflows_Ok.
Qed.

Lemma overflows_wake s n : sched_inv (devices s) → is_Some (semaphores (devices s) !! SUser n) → overflows (lift s (wake (devices s) (SUser n))).
Proof.
  intros Hk [sem Hn]. unfold lift. apply overflows_bind; [| done]. intros e He. pose proof (wake_total _ _ _ Hk Hn) as Hw.
  rewrite He in Hw. exact Hw.
Qed.

(** The state in which a handler is called. *)
Record handler_ready s (d : Device) : Prop := {
  hr_level : level (interrupt s) = IntOff;
  hr_inside : inHandler (interrupt s) = true;
  hr_kernel : kernel_ok (devices s);
  hr_sems : ∀ n, n ∈ [console_in; console_out] → is_Some (semaphores (devices s) !! SUser n);
  hr_keyboard : keyboard_ok (env_of s) (d :: events s) }.

Hypothesis RandomNumber_unsigned : ∀ n, 0 <= RandomNumber n.

Lemma CallBack_overflows d s : handler_ready s d → overflows (CallBack RandomNumber d s).
Proof.
  intros [Hl Hi (Hk & _) Hn Hkey]. destruct d; cbn [CallBack].
  - unfold Timer_CallBack, Alarm_CallBack, YieldOnReturn. rewrite Hi. apply overflows_bind; [by case_decide |]. intros s1 _.
    unfold SetInterrupt. destruct (disable _); [done |]. destruct (randomize _); [| by apply overflows_Schedule].
    apply overflows_Schedule. unfold get_devs. pose proof (Z.rem_nonneg (RandomNumber (drawn (devs (env (devices s1))))) (TimerTicks * 2) ltac:(done) (RandomNumber_unsigned _)). lia.
  - unfold ConsoleInput_CallBack. destruct Hkey as [Hone Hnone]. cbn [count is_input] in Hone, Hnone.
    pose proof (count_nonneg is_input (events s)).
    assert (incoming (get_devs s) = char_EOF) as ->.
    { destruct (decide (incoming (edevices (env_of s)) = char_EOF)) as [He|He]; [exact He |]. specialize (Hnone He). lia. }
    rewrite Z.eqb_refl. cbn [rbind]. assert (is_Some (semaphores (devices s) !! SUser console_in)) as Hin by (apply Hn; by left).
    destruct (keyboard _) as [|[|c|] keys]; [by apply overflows_Schedule | by apply overflows_Schedule | | ].
    + apply overflows_bind; [unfold count_read; apply overflows_bind; [apply overflows_add | done] |]. intros st _.
      by apply overflows_wake; [apply (sched_same (devices s)) |].
    + by apply overflows_wake; [apply (sched_same (devices s)) |].
  - unfold ConsoleOutput_CallBack. apply overflows_bind; [unfold count_written; apply overflows_bind; [apply overflows_add | done] |].
    intros st _. apply overflows_wake; [by apply (sched_same (devices s)) |]. apply Hn. by right; left.
Qed.

(** One handler leaves the others' states in order. *)
Lemma fires_ready ps s s' p rest : fires (CallBack RandomNumber) ps s s' → pending (interrupt s') = p :: rest →
  level (interrupt s) = IntOff → inHandler (interrupt s) = true → kernel_ok (devices s) →
  (∀ n, n ∈ [console_in; console_out] → is_Some (semaphores (devices s) !! SUser n)) → keyboard_ok (env_of s) (events s) →
  handler_ready (with_pending s' rest) (callOnInterrupt p).
Proof.
  intros Hf Hp. induction Hf as [s|q ps s r s1 s2 Hq Hc Hf IH]; intros Hl Hi Hk Hn Hkey.
  - constructor; try done. unfold events in Hkey. by rewrite Hp in Hkey.
  - pose proof (CallBack_ok _ _ _ _ Hc) as [(Hl1 & Hi1 & _) Hst].
    apply IH; [done | by rewrite Hl1 | by rewrite Hi1 | | |].
    + eapply kernel_steps; [exact Hk |]. by apply handler_steps in Hst as [Hm _].
    + intros n Hnn. exact (handler_user _ _ Hst n (Hn n Hnn)).
    + refine (dl_handler console_pre keyboard_ok (client := client) (user_step := user_step big_endian) (callOnInterrupt q) (with_pending s r) s1 Hl Hi Hc _).
      unfold events in Hkey. by rewrite Hq in Hkey.
Qed.

#[local] Abbreviation disciplined := (disciplined console_pre [console_in; console_out] keyboard_ok).
#[local] Abbreviation exec := (exec (CallBack RandomNumber) client (user_step big_endian)).
#[local] Abbreviation exec_step := (exec_step (CallBack RandomNumber) client (user_step big_endian)).
#[local] Abbreviation Initialize := (Kernel_Initialize RandomNumber new_bytes new_bitmap).

Lemma tick_overflows s a e : disciplined a → shows s a → tick_fault (CallBack RandomNumber) s e → e = Undefined.
Proof.
  intros Ha Hsh [->|(s1 & Hp & [He Hu] & Hk & s2 & t & (Hp2 & _ & Hi & Hl & Hd) & ps & p & rest & s3 & Hf & Hp3 & Hc)]; [done |].
  refine (CallBack_overflows _ _ _ e Hc). eapply (fires_ready ps s2 s3); try done.
  - by rewrite Hd.
  - intros n Hn. rewrite Hd. destruct (di_sems _ _ _ a Ha n Hn) as [v Hv]. rewrite (sh_val s a Hsh) in Hv by done.
    apply fmap_Some in Hv as (sem & Hv & _). by eapply Hu.
  - unfold events, env_of. rewrite Hp2, Hp, Hd, He. eapply keyboard_perm; [apply (sh_events s a Hsh) |]. rewrite <- (sh_env s a Hsh). apply Ha.
Qed.

(** ** The points of the kernel's code that have no assertion, or one that holds *)

Definition sure {A} (r : result A) : Prop := r ≠ Fail AssertFailed.

Lemma sure_bind {A A'} (r : result A) (f : A → result A') : sure r → (∀ a, r = Ok a → sure (f a)) → sure (rbind r f).
Proof. intros Hr Hf. destruct r as [a|e]; cbn [rbind]; [by apply Hf | congruence]. Qed.

Lemma sure_overflows {A} (r : result A) : overflows r → sure r.
Proof. intros Hr He. by apply Hr in He. Qed.

Lemma sure_aget {A} (l : list A) i : sure (aget l i).
Proof. unfold sure, aget. repeat case_match; congruence. Qed.

Lemma sure_aset {A} (l : list A) i x : sure (aset l i x).
Proof. unfold sure, aset. repeat case_match; congruence. Qed.

Lemma sure_block t pid : sure (pcb_block (B := B) t pid).
Proof. apply sure_bind; [apply sure_aget |]. by intros []. Qed.

Lemma sure_live t pid : sure (pcb_live (B := B) t pid).
Proof. apply sure_bind; [apply sure_aget |]. by intros []. Qed.

Lemma sure_set_block t pid p : sure (set_block (B := B) t pid p).
Proof. apply sure_bind; [apply sure_aget |]. intros e _. apply sure_bind; [apply sure_aset | done]. Qed.

Lemma sure_pid s : sure (current_pid s).
Proof. unfold current_pid. by destruct (_ !! _). Qed.

Lemma sure_Return s v : sure (Return s v).
Proof.
  unfold Return, WriteReg2, ReturnPC, IncreasePC, WriteRegister, ReadRegister.
  repeat first [apply sure_aget | apply sure_aset | apply sure_overflows, overflows_add | done | apply sure_bind; [| intros ? _]].
Qed.

Lemma sure_ReturnPC s : sure (ReturnPC s).
Proof.
  unfold ReturnPC, IncreasePC, WriteRegister, ReadRegister.
  repeat first [apply sure_aget | apply sure_aset | apply sure_overflows, overflows_add | done | apply sure_bind; [| intros ? _]].
Qed.

Lemma sure_read_digits num c b inp : sure (read_digits num c b inp).
Proof.
  assert (∀ num c, sure (shift_in num c)) as Hsh.
  { intros n c0. apply sure_overflows. unfold shift_in. apply overflows_bind; [| intros ? _; apply overflows_bind; [apply overflows_add | intros ? _; apply overflows_add]].
    intros e. unfold int_mul. case_decide; [done | by intros [= <-]]. }
  revert num c b. induction inp as [|d inp IH]; intros num c b; cbn [read_digits]; (apply sure_bind; [apply Hsh |]); intros n _; [done |].
  by destruct (isBlank d).
Qed.

Lemma sure_ReadNum inp : sure (SysReadNum inp).
Proof.
  assert (∀ c b inp, sure (ReadNum_digits c b inp)) as Hd.
  { intros c b inp0. unfold ReadNum_digits. apply sure_bind; [apply sure_read_digits |]. intros [[n i] r] _. destruct (negb i); [done |].
    apply sure_bind; [| done]. destruct b; [| done]. unfold int_opp. by case_decide. }
  assert (∀ inp, sure (skip_blanks inp)) as Hs by (intros l; induction l as [|c l IH]; cbn; [done | by destruct (isBlank c)]).
  unfold SysReadNum. apply sure_bind; [apply Hs |]. intros [c rest] _. destruct (c =? minus); [| apply Hd].
  apply sure_bind; [by destruct rest |]. intros [c' rest'] _. by destruct (isBlank c').
Qed.

Lemma sure_on_object t pid mx f : (∀ p, sure (f p)) → sure (on_object (B := B) t pid mx f).
Proof.
  intros Hf. unfold on_object. apply sure_bind; [apply sure_aget |]. intros e _. destruct (block e) as [p|]; [| done].
  destruct (multex p =? mx); [| done]. apply sure_bind; [apply Hf |]. intros p' _. apply sure_bind; [apply sure_aset | done].
Qed.

(** The points whose code can come to an assertion on what a program does: a
    system call that does not exist, a bad executable, an address that is not
    mapped, a program that cannot be loaded, and the bitmaps of processes and
    frames. *)
Definition asserts (x : kcall) : bool :=
  match x with
  | KMain _ | KSyscall | KReader (RString _ _ _) _ | KReader (RFile _ _ _ _) _ | KExecUpdate _ | KStartProcess _
  | KFrames _ _ _ | KSegments _ _ _ _ | KLoadFailed false | KRemove _ => true
  | _ => false
  end.

Lemma client_sure x s : asserts x = false → (∀ ch, x = KPut ch → putBusy (get_devs s) = false) → sure (client x s).
Proof.
  intros Hx Hput. destruct x as [| |v| |[] typed|r typed|ch| | | | | |[]| | | | | |]; try done; cbn [Kernel.client]; clear Hx.
  - apply sure_bind; [apply sure_Return | done].
  - apply sure_bind; [apply sure_ReturnPC | done].
  - unfold KReader_step. cbn [reader_step]. destruct (rbind _ _) as [s1|[]] eqn:Hr; try done. exfalso. revert Hr.
    change (sure ('(num, _) ← SysReadNum typed; Return s num)). apply sure_bind; [apply sure_ReadNum |]. intros [n r] _. apply sure_Return.
  - unfold KReader_step. cbn [reader_step]. destruct (rbind _ _) as [s1|[]] eqn:Hr; try done. exfalso. revert Hr.
    match goal with |- ?r = _ → False => change (sure r) end. apply sure_bind; [by destruct typed |]. intros [n r] _. apply sure_Return.
  - unfold KTake_step, ConsoleInput_GetChar. apply sure_bind; [| by intros [] _]. apply sure_bind; [| done].
    destruct (negb _); [| done]. by apply sure_overflows, overflows_Schedule.
  - apply sure_bind; [| done]. unfold ConsoleOutput_PutChar. rewrite (Hput ch eq_refl). by apply sure_overflows, overflows_Schedule.
  - unfold KPCBExec_step. cbv zeta. apply sure_bind; [apply sure_live |]. intros p _. apply sure_bind; [apply sure_pid |]. intros cur _.
    apply sure_bind; [apply sure_set_block | done].
  - unfold KIncNumWait_step. apply sure_bind; [| done]. apply sure_on_object. intros p. apply sure_bind; [apply sure_overflows, overflows_add | done].
  - unfold KDecNumWait_step. apply sure_bind; [| done]. by apply sure_on_object.
  - unfold KJoinWait_step. apply sure_bind; [apply sure_live | done].
  - unfold KJoined_step. cbv zeta. apply sure_bind; [apply sure_block |]. intros p _. apply sure_bind; [apply sure_live | done].
  - unfold KExitRelease_step. apply sure_bind; [apply sure_live | done].
Qed.

(** ** The user's instruction *)

(** With a page table it has no assertion that fails: it overflows in its
    division, or its exception halts the machine. *)
Lemma user_step_faults m e : machine_typed m → (∃ pt, paged m pt) → user_step big_endian m = Fail e → e = Undefined ∨ e = Halted.
Proof.
  intros [Hr Hmem] Hpt. assert (machine_inv by_page_table m) as Hm by done.
  assert (∀ H, (∀ ex m1 m2, H ex m1 = Ok m2 → m2 = m1) →
    post (blame by_page_table H (λ _, False) m) cpu_ok (OneInstruction big_endian H m)) as Hone.
  { intros H0 HH. assert (∀ ex m1 m2, cpu_ok m1 → H0 ex m1 = Ok m2 → cpu_ok m2) as Hk by (by intros ex m1 m2 ? ->%HH).
    exact (OneInstruction_post by_page_table page_table_regs page_table_status big_endian H0 Hk (λ _, False)
      (paged_ReadMem big_endian H0 Hk) (paged_WriteMem big_endian H0 Hk) m Hm). }
  unfold user_step. pose proof (Hone HandleException HandleException_same) as H1.
  destruct (OneInstruction big_endian HandleException m) as [m1|f]; [done |].
  destruct H1 as [[-> _]|[(ex & m1 & _ & Hx)|[]]]; [intros [= <-]; by left |].
  destruct ex; try discriminate Hx; injection Hx as <-; try (intros [= <-]; by right).
  pose proof (Hone (λ _ m, Ok m) ltac:(congruence)) as H2. destruct (OneInstruction big_endian (λ _ m, Ok m) m) as [m2|f]; [done |].
  destruct H2 as [[-> _]|[(ex & m3 & _ & Hx)|[]]]; [intros [= <-]; by left | done].
Qed.

(** ** Every state of the running system *)

Lemma reached slice keys pid host name s s' : Initialize slice keys pid host name = Ok s → rtc exec_step s s' →
  ksim s' ∧ (∃ a, disciplined a ∧ shows s' a) ∧
  ∀ th ch c, threads (devices s') !! currentThread (devices s') = Some th → code th = ICall (KPut ch) :: c → putBusy (get_devs s') = false.
Proof.
  intros Hi Hr. pose proof (Initialize_booted _ _ _ _ _ _ _ _ _ Hi) as Hb. destruct (Initialize_unused _ _ _ _ _ _ _ _ _ Hi) as [Hu Hm].
  split; [exact (booted_run _ _ _ s s' Hb Hr) |]. split.
  - destruct (Initialize_inputs _ _ _ _ _ _ Hi) as (Hc & Hn & Hk).
    exact (disciplined_run console_pre _ keyboard_ok keyboard_perm (CallBack RandomNumber) client (user_step big_endian) s s' Hb Hm Hc Hn Hk Hr).
  - intros th ch c Ht Hc. destruct (device_never_disturbed printer (CallBack RandomNumber) client (user_step big_endian) env_good s s' Hb Hm Hu Hr) as (Hd & _).
    by apply (Hd th (KPut ch) c).
Qed.

(** C8: what can go wrong in the running system.  Start the kernel on any host
    files, typing and programs and let it run, as long as you like; the next
    instruction of the current thread fails only
    - because a C++ [int] overflows (a counter, the clock), or
    - because, in this very state, the user's instruction fails, or the
      kernel's own code for a system call does (the instruction, under a page
      table, only on an overflow or to halt the machine), or
    - because nothing is left to wait for, or it names a semaphore or a lock that
      is not there.
    No interrupt handler fails otherwise.  In particular an [ASSERT] fails only
    in the code of a system call, of the loader or of the process table, or in an
    instruction executed without a page table: none of
    thread.cc, scheduler.cc, synch.cc, interrupt.cc, timer.cc, alarm.cc,
    console.cc and synchconsole.cc does, however threads and interrupts
    interleave.  The numbers of the random generator are not negative, as
    [RandomNumber] is [unsigned]. *)
Theorem nachos_asserts slice keys pid host name s s' e (Hi : Initialize slice keys pid host name = Ok s)
    (Hr : rtc exec_step s s') (He : exec s' = Fail e) :
  e = Undefined ∨ ∃ th i c, threads (devices s') !! currentThread (devices s') = Some th ∧ code th = i :: c ∧
    match i with
    | IRun => user_step big_endian (machine s') = Fail e ∧ ((∃ pt, paged (machine s') pt) → e = Undefined ∨ e = Halted)
    | ICall x => client x (popped s' th c) = Fail e ∧ (e = AssertFailed → asserts x = true)
    | IIdle _ => e = Halted
    | IV w | ILoop w _ => semaphores (devices s') !! w = None ∧ e = NullDeref
    | IHolder l => locks (devices s') !! l = None ∧ e = NullDeref
    | _ => False
    end.
Proof.
  destruct (reached _ _ _ _ _ _ _ Hi Hr) as (Hs & (a & Ha & Hsh) & Hput).
  pose proof (exec_ok (CallBack RandomNumber) client (user_step big_endian) s' Hs) as Hex. rewrite He in Hex.
  destruct Hex as [Htick|(th & i & c & Ht & Hc & Href)]; [left; by eapply tick_overflows |]. right. exists th, i, c.
  split; [done |]. split; [done |].
  pose proof (no_monitor _ _ _ s' a th i c Hs Ha Hsh Ht Hc) as Hmon. destruct i; try done; cbn [refused] in Href.
  - rewrite (release_held _ _ _ s' a th l c Hs Ha Hsh Ht Hc) in Href. by destruct Href as [[? _]|[? _]].
  - split; [exact Href |]. intros Hpt. eapply user_step_faults; [| exact Hpt | exact Href]. apply Hs.
  - split; [exact Href |]. intros ->. destruct (asserts x) eqn:Hx; [done |]. exfalso. revert Href. apply client_sure; [done |].
    intros ch ->. by apply (Hput th ch c).
Qed.
End faults.

#[local] Abbreviation fresh_table := (λ n, replicate (Z.to_nat n) invalidTE).
#[local] Abbreviation seven := (λ _ : Z, 7).
#[local] Abbreviation demo_client := (client false seven zeros fresh_table (λ _, [0]) (B := Bitmap)).
#[local] Abbreviation demo_exec := (exec (CallBack seven) demo_client (user_step false)).

(** On the machine of [KernelProps]: the parent asks to halt. *)
Definition about_to_call (n : nat) : bool :=
  match threads (devices (demo_state n)) !! currentThread (devices (demo_state n)) with
  | Some th => match code th with ICall KSyscall :: _ => true | _ => false end
  | None => false
  end.

Lemma nachos_asserts_witness : about_to_call 121 = true ∧ demo_exec (demo_state 121) = Fail Halted ∧
  ∃ th c, code th = ICall KSyscall :: c ∧ demo_client KSyscall (popped (demo_state 121) th c) = Fail Halted.
Proof.
  assert (about_to_call 121 = true) as Hcall by (vm_compute; reflexivity).
  assert (demo_exec (demo_state 121) = Fail Halted) as Hh by (vm_compute; reflexivity).
  split; [exact Hcall |]. split; [exact Hh |].
  destruct (nachos_asserts false seven zeros fresh_table (λ _, [0]) (λ n, Bitmap_new (zeros (divRoundUp n 32)) n) ltac:(intros n; lia)
    false [] 0 demo_disk [112] demo_boot (demo_state 121) Halted demo_boot_eq (demo_reached 121 ltac:(vm_compute; reflexivity)) Hh)
    as [?|(th & i & c & Ht & Hc & Hi)]; [done |].
  revert Hcall. unfold about_to_call. rewrite Ht, Hc. destruct i as [| | | | | | | | | | | | |[]| | | | | | | |]; intros Hx; try discriminate Hx.
  exists th, c. split; [exact Hc |]. exact (proj1 Hi).
Defined.
