(* ===== verification/SynchList.v ===== *)
(** * Synchronized lists (threads/synchlist.h, threads/synchlist.cc)

    A list with a lock and a condition: whoever removes an item waits until there
    is one.  The operations are instructions of [Threads]; what they do to the
    list in between is a call [X] of the kernel that uses them. *)

From S2P Require Import Prelude Threads.
Local Open Scope Z_scope.

(** The list, as all that was ever put on it and how many items are gone. *)
Record SList (T : Type) := mkSList { items : list T; removed : nat }.
Arguments mkSList {T}.
Arguments items {T}.
Arguments removed {T}.

Section synchlist.
Context {T X : Type}.
Implicit Types (l : SList T).

Definition SList_new : SList T := mkSList [] 0.
Definition content l : list T := drop (removed l) (items l).
Definition list_IsEmpty l : bool := match content l with [] => true | _ => false end.
Definition list_Append l (item : T) : SList T := mkSList (items l ++ [item]) (removed l).
Definition list_RemoveFront l : result (T * SList T) :=
  match content l with [] => Fail AssertFailed | x :: _ => Ok (x, mkSList (items l) (S (removed l))) end.

Section operations.
(** The list's [lock] and [listEmpty]. *)
Variables lock listEmpty : Z.

(** [append]: the call of [list->Append (item)]. *)
Definition SynchList_Append (append : X) : list (instr X) :=
  [IAcquire lock; ICall append; ISignal listEmpty lock; IRelease lock].

(** [take]: the test of the loop and what follows it; [rest]: what the caller
    does with the item. *)
Definition SynchList_RemoveFront (take : X) : list (instr X) := [IAcquire lock; ICall take].

Definition RemoveFront_step (take : X) (rest : T → list (instr X)) l : result (list (instr X) * SList T) :=
  if list_IsEmpty l then Ok ([IWait listEmpty lock; ICall take], l)
  else
    '(item, l) ← list_RemoveFront l;
    Ok (IRelease lock :: rest item, l).

(** [f]: the call of [list->Apply (func)]. *)
Definition SynchList_Apply (f : X) : list (instr X) := [IAcquire lock; ICall f; IRelease lock].
End operations.

Lemma content_Append l x : (removed l <= length (items l))%nat → content (list_Append l x) = content l ++ [x].
Proof. intros Hl. unfold content. cbn. by rewrite drop_app_le. Qed.

(** The loop leaves only with an item: its assertion cannot fail. *)
Lemma RemoveFront_step_cases lock cv take rest l : (removed l <= length (items l))%nat →
  content l = [] ∧ RemoveFront_step lock cv take rest l = Ok ([IWait cv lock; ICall take], l) ∨
  ∃ x, content l = x :: content (mkSList (items l) (S (removed l))) ∧ (S (removed l) <= length (items l))%nat ∧
    RemoveFront_step lock cv take rest l = Ok (IRelease lock :: rest x, mkSList (items l) (S (removed l))).
Proof.
  intros Hl. unfold RemoveFront_step, list_IsEmpty, list_RemoveFront. destruct (content l) as [|x c] eqn:Hc; [by left | right].
  exists x. cbn [rbind]. unfold content in *. cbn [items removed]. assert (items l !! removed l = Some x) as Hx.
  { pose proof (lookup_drop (items l) (removed l) 0) as H. rewrite Hc, Nat.add_0_r in H. by rewrite <- H. }
  split; [| split; [by apply lookup_lt_Some in Hx | done]]. rewrite <- Hc. by apply drop_S.
Qed.
End synchlist.
