(* ===== verification/SelfTests.v ===== *)
(** * The self tests of threads and synchronization (Kernel::ThreadSelfTest)

    Thread::SelfTest of threads/thread.cc, Semaphore::SelfTest of synch.cc and
    SynchList::SelfTest of synchlist.cc, as one thread runs them one after the
    other; the tests of the library, which come before, are in [Bitmap], [Lists] and
    [Hash].  [self_tests_run] runs the whole of it; [self_test_assertions]
    says that the assertions of the list test hold whatever is scheduled when. *)

From S2P Require Import Prelude Machine Mips Lists Interrupt Threads Sched Waiters Wakeups Locks Synch SynchProps Handlers Interleave Calls SynchList.
Local Open Scope Z_scope.

(** The two lists of SynchList::SelfTest: [selfTestPing] and the list under
    test.  [shown]: what SimpleThread prints, the thread and the round. *)
Inductive which := Ping | This.

Record TestEnv := mkTestEnv { ping : SList Z; this : SList Z; shown : list (Z * Z) }.

Definition get_list (e : TestEnv) w : SList Z := match w with Ping => ping e | This => this e end.
Definition set_list (e : TestEnv) w l : TestEnv :=
  match w with Ping => mkTestEnv l (this e) (shown e) | This => mkTestEnv (ping e) l (shown e) end.
Definition lock_of w : Z := match w with Ping => 0 | This => 1 end.

(** The semaphores of Semaphore::SelfTest: [ping], made by it, and the one that is tested. *)
Definition ping_sem : Z := 0.
Definition test_sem : Z := 1.

Inductive testcall :=
  | TPrint (i num : Z)                 (* cout in SimpleThread *)
  | TZero                              (* ASSERT (value == 0) in Semaphore::SelfTest *)
  | TEmpty                             (* ASSERT (list->IsEmpty ()) in SynchList::SelfTest *)
  | TAppend (w : which) (item : Z)     (* list->Append in SynchList::Append *)
  | TPass                              (* selfTestPing->RemoveFront () in SelfTestHelper *)
  | TTake (val : Z)                    (* this->RemoveFront () in SelfTest *)
  | TCheck (val item : Z).             (* its ASSERT *)

#[local] Abbreviation Sim := (Sim unit (Threads testcall TestEnv)).
#[local] Abbreviation instr := (instr testcall).
Implicit Types (s : Sim) (w : which).

Definition env_of s : TestEnv := env (devices s).
Definition set_env s e : Sim := with_devices s (with_env (devices s) e).

(** A loop of [n] rounds. *)
Definition rounds (n : Z) (body : Z → list instr) : list instr := seqZ 0 n ≫= body.

(** ** thread.cc *)

Definition SimpleThread (i : Z) : list instr := rounds 5 (λ num, [ICall (TPrint i num); IYield]).
Definition Thread_SelfTest : list instr := IFork (SimpleThread 1) :: IYield :: SimpleThread 0.

(** ** synch.cc *)

Definition Semaphore_SelfTestHelper : list instr := rounds 10 (λ _, [IP (SUser ping_sem); IV (SUser test_sem)]).
Definition Semaphore_SelfTest : list instr :=
  ICall TZero :: IFork Semaphore_SelfTestHelper :: rounds 10 (λ _, [IV (SUser ping_sem); IP (SUser test_sem)]).

(** ** synchlist.cc *)

Definition Append w (item : Z) : list instr := SynchList_Append (lock_of w) (lock_of w) (TAppend w item).

Definition SynchList_SelfTestHelper : list instr := rounds 10 (λ _, SynchList_RemoveFront (lock_of Ping) TPass).
Definition SynchList_SelfTest (val : Z) : list instr :=
  ICall TEmpty :: IFork SynchList_SelfTestHelper ::
  rounds 10 (λ _, Append Ping val ++ SynchList_RemoveFront (lock_of This) (TTake val)).

(** [rest]: what the caller does with the item. *)
Definition Take_step s w (take : testcall) (rest : Z → list instr) : result (list instr * Sim) :=
  let e := env_of s in
  '(ins, l) ← RemoveFront_step (lock_of w) (lock_of w) take rest (get_list e w);
  Ok (ins, set_env s (set_list e w l)).

Definition client (x : testcall) s : result (list instr * Sim) :=
  let e := env_of s in
  match x with
  | TPrint i num => Ok ([], set_env s (mkTestEnv (ping e) (this e) (shown e ++ [(i, num)])))
  | TZero => v ← find (semaphores (devices s)) (SUser test_sem); ASSERT (value v =? 0);; Ok ([], s)
  | TEmpty => ASSERT (list_IsEmpty (this e));; Ok ([], s)
  | TAppend w item => Ok ([], set_env s (set_list e w (list_Append (get_list e w) item)))
  | TPass => Take_step s Ping TPass (λ item, Append This item)
  | TTake val => Take_step s This (TTake val) (λ item, [ICall (TCheck val item)])
  | TCheck val item => ASSERT (val =? item);; Ok ([], s)
  end.

(** The timer, the only device. *)
Definition CallBack (_ : unit) s : result Sim := s ← Alarm_CallBack s; Schedule s tt TimerTicks TimerInt.
Definition no_program (m : Machine) : result (list instr * Machine) := Fail Undefined.

(** ** kernel.cc *)

Definition ThreadSelfTest : list instr := Thread_SelfTest ++ Semaphore_SelfTest ++ SynchList_SelfTest 9.

Definition main_thread : Z := 0.

Definition SelfTest_boot : result Sim :=
  let th := mkThread RUNNING (ISetLevel IntOn :: ThreadSelfTest ++ [IFinish]) None (replicate (Z.to_nat NumTotalRegs) 0) None in
  let lock l := (SLock l, Semaphore_new 1) in
  let k := mkThreads main_thread [] None {[main_thread := th]}
             (list_to_map [lock 0; lock 1; (SUser ping_sem, Semaphore_new 0); (SUser test_sem, Semaphore_new 0)])
             (list_to_map [(0, None); (1, None)]) (list_to_map [(0, []); (1, [])]) (main_thread + 1) 0 (mkTestEnv SList_new SList_new []) in
  Schedule (mkSim Interrupt_new Statistics_new Machine_new k) tt TimerTicks TimerInt.

(** ** The laws *)

#[export] Instance no_program_law : UserLaw no_program.
Proof. by intros m ins m' _ H. Qed.

#[export] Instance test_device_law : DeviceLaw CallBack.
Proof.
  apply handler_law. intros [] s s' Hc. unfold CallBack in Hc.
  apply bind_Ok in Hc as (s1 & H1%handler_Alarm & H2%handler_Schedule). by transitivity s1.
Qed.

Lemma Take_step_cases s w take rest ins s' : Take_step s w take rest = Ok (ins, s') →
  ∃ l, items l = items (get_list (env_of s) w) ∧ s' = set_env s (set_list (env_of s) w l) ∧
    (ins = [IWait (lock_of w) (lock_of w); ICall take] ∨ ∃ item, item ∈ items l ∧ ins = IRelease (lock_of w) :: rest item).
Proof.
  unfold Take_step. cbv zeta. intros ([ins' l] & Hr & [= <- <-])%bind_Ok. unfold RemoveFront_step in Hr. exists l.
  destruct (list_IsEmpty _); [injection Hr as <- <-; split; [done |]; split; [done | by left] |].
  apply bind_Ok in Hr as ([item l'] & Hr & [= <- <-]). unfold list_RemoveFront in Hr.
  destruct (content (get_list (env_of s) w)) as [|x q] eqn:Hc; [done |]. injection Hr as <- <-. split; [done |]. split; [done |]. right.
  exists x. split; [| done]. cbn.
  rewrite <- (take_drop (removed (get_list (env_of s) w)) (items (get_list (env_of s) w))). apply elem_of_app. right.
  change (drop _ _) with (content (get_list (env_of s) w)). rewrite Hc. left.
Qed.

(** Every item is the one that the test is given. *)
Definition of_nine (x : testcall) : bool :=
  match x with TAppend _ v | TTake v => v =? 9 | TCheck v item => (v =? 9) && (item =? 9) | _ => true end.

Definition all_nine (e : TestEnv) : Prop := ∀ w x, x ∈ items (get_list e w) → x = 9.

Lemma all_nine_set e w l : all_nine e → (∀ x, x ∈ items l → x = 9) → all_nine (set_list e w l).
Proof. intros He Hl [] x Hx; destruct w; cbn in *; first [by apply Hl | by apply (He Ping) | by apply (He This)]. Qed.

Lemma client_nine x s ins s' : client x s = Ok (ins, s') → of_nine x = true → all_nine (env_of s) →
  Forall (λ i, calls_ok of_nine i = true) ins ∧ all_nine (env_of s').
Proof.
  intros Hc Hx He. destruct x as [i num| | |w v| |v|v item]; cbn [client of_nine] in *; cbv zeta in Hc.
  - injection Hc as <- <-. split; [done |]. intros [] x Hx'; [by apply (He Ping) | by apply (He This)].
  - by apply bind_Ok in Hc as (v & _ & (u & _ & [= <- <-])%bind_Ok).
  - by apply bind_Ok in Hc as (u & _ & [= <- <-]).
  - injection Hc as <- <-. apply Z.eqb_eq in Hx as ->. split; [done |]. apply all_nine_set; [done |]. cbn.
    intros x [Hx'|Hx']%elem_of_app; [by apply (He w) | by apply list_elem_of_singleton in Hx'].
  - apply Take_step_cases in Hc as (l & Hl & -> & Hc). assert (∀ x, x ∈ items l → x = 9) as H9 by (intros x; rewrite Hl; apply He).
    split; [| by apply all_nine_set]. destruct Hc as [->|(item & Hi & ->)]; [by repeat constructor |]. apply H9 in Hi as ->. by repeat constructor.
  - apply Take_step_cases in Hc as (l & Hl & -> & Hc). assert (∀ x, x ∈ items l → x = 9) as H9 by (intros x; rewrite Hl; apply He).
    split; [| by apply all_nine_set]. destruct Hc as [->|(item & Hi & ->)]; (repeat constructor); cbn; [exact Hx |]. by rewrite (H9 item Hi), Hx.
  - by apply bind_Ok in Hc as (u & _ & [= <- <-]).
Qed.

#[export] Instance test_client_law : ClientLaw client.
Proof.
  assert (∀ s e, settled s → Forall static ([] : list instr) ∧ settled (set_env s e) ∧ ∃ m e', grows (semaphores (devices s)) m ∧
    devices (set_env s e) = with_env (with_semaphores (devices s) m) e') as Hk.
  { intros s e Hs. split; [done |]. split; [exact Hs |]. exists (semaphores (devices s)), e. by split; [apply grows_refl |]. }
  assert (∀ s, s = set_env s (env_of s)) as Hi by (by intros [?? ? []]).
  intros x s ins s' Hs Hc. assert (Forall static ins ∧ ∃ e, s' = set_env s e) as [Hst [e ->]]; [| split; [done | apply Hk, Hs]].
  destruct x as [i num| | |w v| |v|v item]; cbn [client] in *; cbv zeta in Hc.
  - injection Hc as <- <-. split; [done | by eexists].
  - apply bind_Ok in Hc as (v & _ & (u & _ & [= <- <-])%bind_Ok). split; [done | by eexists].
  - apply bind_Ok in Hc as (u & _ & [= <- <-]). split; [done | by eexists].
  - injection Hc as <- <-. split; [done | by eexists].
  - apply Take_step_cases in Hc as (l & _ & -> & [->|(item & _ & ->)]); (split; [by repeat constructor | by eexists]).
  - apply Take_step_cases in Hc as (l & _ & -> & [->|(item & _ & ->)]); (split; [by repeat constructor | by eexists]).
  - apply bind_Ok in Hc as (u & _ & [= <- <-]). split; [done | by eexists].
Qed.

(** ** The test *)

Lemma static_rounds n body : (∀ i, Forall static (body i)) → Forall static (rounds n body).
Proof. intros Hb. unfold rounds. induction (seqZ 0 n) as [|i l IH]; [constructor |]. rewrite bind_cons. apply Forall_app. by split. Qed.

Lemma test_static : Forall static (ISetLevel IntOn :: ThreadSelfTest).
Proof.
  unfold ThreadSelfTest, Thread_SelfTest, Semaphore_SelfTest, SynchList_SelfTest. repeat (apply Forall_app; split) || constructor; try done;
    by (try apply static_rounds; intros; repeat constructor).
Qed.

Lemma test_nine : Forall (λ i, calls_ok of_nine i = true) (ISetLevel IntOn :: ThreadSelfTest).
Proof. apply all_ok_body. vm_compute. reflexivity. Qed.

Lemma SelfTest_boot_ok s : SelfTest_boot = Ok s → booted s ∧ made (devices s) ∧
  (∀ t th, threads (devices s) !! t = Some th → Forall static (code th) ∧ Forall (λ i, calls_ok of_nine i = true) (code th)) ∧
  all_nine (env_of s).
Proof.
  unfold SelfTest_boot. cbv zeta. match goal with |- Schedule ?x _ _ _ = _ → _ => set (s0 := x) end. intros H1.
  assert (settled s0) as H0.
  { split; [| constructor]. split; [constructor |]. split; [constructor |]. split; [unfold clock_ok, is_s32; cbn; lia |]. split; [exact Machine_new_typed | done]. }
  pose proof (Schedule_settled _ _ _ _ _ H0 H1) as Hs. assert (devices s = devices s0) as Hd by (unfold Schedule in H1; by inv_res).
  assert (∀ (sid : semid) sem, semaphores (devices s0) !! sid = Some sem → 0 <= value sem ∧ queue sem = []) as Hsem.
  { intros sid sem Hw. apply (elem_of_list_to_map_2 (M := gmap semid)) in Hw.
    repeat (apply elem_of_cons in Hw as [[= -> ->]|Hw]; [done |]). by apply elem_of_nil in Hw. }
  assert (∀ l h, locks (devices s0) !! l = Some h → h = None ∧ semaphores (devices s0) !! SLock l = Some (mkSem 1 [])) as Hlk.
  { intros l h Hl. apply (elem_of_list_to_map_2 (M := gmap Z)) in Hl.
    repeat (apply elem_of_cons in Hl as [[= -> ->]|Hl]; [by split |]). by apply elem_of_nil in Hl. }
  split; [constructor; rewrite ?Hd; try done | split; [| split]].
  - eexists _, (ISetLevel IntOn :: ThreadSelfTest). split; [reflexivity |]. repeat (split; [done |]). split; [exact test_static | done].
  - intros cv q Hq. apply (elem_of_list_to_map_2 (M := gmap Z)) in Hq. repeat (apply elem_of_cons in Hq as [[= -> ->]|Hq]; [done |]). by apply elem_of_nil in Hq.
  - intros l. rewrite Hd. intros Hl%not_eq_None_Some Hn. destruct Hl as [sem Hl]. apply (elem_of_list_to_map_2 (M := gmap semid)) in Hl.
    repeat (apply elem_of_cons in Hl as [Hx|Hl]; [first [discriminate Hx | injection Hx as -> _; done] |]). by apply elem_of_nil in Hl.
  - intros t th. rewrite Hd. cbn. intros [<- <-]%lookup_singleton_Some. cbn [code].
    split; refine (proj2 (Forall_app _ (ISetLevel IntOn :: ThreadSelfTest) [IFinish]) (conj _ _));
      [exact test_static | by repeat constructor | exact test_nine | by repeat constructor].
  - unfold env_of. rewrite Hd. by intros [] x ?%elem_of_nil.
Qed.

(** The test of the synchronized lists passes whatever the scheduler does: in every
    state that ThreadSelfTest reaches, a thread that is about to compare what has
    come back with what was sent finds them equal. *)
Theorem self_test_assertions s s' (Hboot : SelfTest_boot = Ok s) (Hr : rtc (exec_step CallBack client no_program) s s') :
  ∀ th val item c, threads (devices s') !! currentThread (devices s') = Some th → code th = ICall (TCheck val item) :: c → val = item.
Proof.
  destruct (SelfTest_boot_ok s Hboot) as (Hb & Hm & Hc & Hg). intros th val item c Ht Hx.
  destruct (calls_hold of_nine all_nine CallBack client no_program client_nine) with (s := s) (s' := s') as [_ Hok]; try done.
  - intros [] s1 s2 Hcb Hn. unfold CallBack in Hcb. apply bind_Ok in Hcb as (s3 & H3%Alarm_cases & H4). unfold Schedule in H4. inv_res. by destruct H3 as [->| ->].
  - pose proof (Hok th _ c Ht Hx) as H9. cbn in H9. apply andb_prop in H9 as [->%Z.eqb_eq ->%Z.eqb_eq]. done.
Qed.

(** The whole of it, with time slices of the timer: the two simple threads take
    turns, but for one that a time slice takes from thread 0, and all ten items
    make their way through both lists. *)
Definition test_start := from_ok (mkSim Interrupt_new Statistics_new Machine_new
  (mkThreads 0 [] None ∅ ∅ ∅ ∅ 0 0 (mkTestEnv SList_new SList_new []))) SelfTest_boot.
Definition test_state (n : nat) := from_ok test_start (run CallBack client no_program n test_start).

Theorem self_tests_run : is_ok (run CallBack client no_program 800 test_start) = true ∧
  shown (env_of (test_state 800)) = [(1, 0); (0, 0); (1, 1); (0, 1); (1, 2); (0, 2); (1, 3); (1, 4); (0, 3); (0, 4)] ∧
  (λ w, (items (get_list (env_of (test_state 800)) w), removed (get_list (env_of (test_state 800)) w))) <$> [Ping; This] =
    [(replicate 10 9, 10%nat); (replicate 10 9, 10%nat)] ∧
  threads (devices (test_state 800)) !! main_thread = None.
Proof. vm_compute. by split_and!. Qed.
