(* ===== verification/Network.v ===== *)
(** * The network device (machine/network.cc, the sockets of lib/sysdep.cc)

    Packets of a fixed size between machines, in order but not reliably.  The
    host's datagram sockets are represented by what they answer: [polls] is
    what one [PollSocket] after the other finds, [replies] are the results of
    [sendto], and [wire] is what has been sent.  [wire_round_trip] is the
    round trip of a packet from one machine's [Send] to another's [Receive]. *)

From S2P Require Import Prelude Machine Mips Lists Interrupt Threads Sched Waiters Wakeups Locks Synch Ksyscall Console Disk NachosFile.
From Stdlib Require Import QArith.
Local Open Scope Z_scope.

Definition NetworkTime : Z := 100.
Definition MaxWireSize : Z := 64.
Definition sizeof_PacketHeader : Z := 12.
Definition MaxPacketSize : Z := MaxWireSize - sizeof_PacketHeader.

Record PacketHeader := mkPacketHeader { pkt_to : Z; pkt_from : Z; pkt_length : Z }.

(** [inHdr], [inbox]: the fields of [NetworkInput]; [packetAvail], which is
    never used, is left out.  [sendBusy], [chanceToWork]: those of
    [NetworkOutput]; a [double] is the rational number it stands for.  [drawn]:
    how often [RandomNumber] was asked. *)
Record Net := mkNet {
  hostName : Z; inHdr : PacketHeader; inbox : list Z; polls : list (option (list Z));
  sendBusy : bool; chanceToWork : Q; ndrawn : Z; replies : list Z; wire : list (Z * list Z) }.

Definition with_in (n : Net) h b p : Net := mkNet (hostName n) h b p (sendBusy n) (chanceToWork n) (ndrawn n) (replies n) (wire n).
Definition with_sendBusy (n : Net) b : Net :=
  mkNet (hostName n) (inHdr n) (inbox n) (polls n) b (chanceToWork n) (ndrawn n) (replies n) (wire n).
Definition with_out (n : Net) drawn rs w : Net :=
  mkNet (hostName n) (inHdr n) (inbox n) (polls n) (sendBusy n) (chanceToWork n) drawn rs w.

Class HasNet (E : Type) := {
  net : E → Net;
  with_net : E → Net → E;
  net_with : ∀ e n, net (with_net e n) = n }.

(** The semaphores of the post office, which the handlers raise. *)
Definition message_available : Z := 0.
Definition message_sent : Z := 1.

(** ** Headers in memory *)

Section headers.
Variable big_endian : bool.

Definition header_bytes (ws : list Z) : list Z := ws ≫= word_bytes big_endian.

Definition packet_bytes (h : PacketHeader) : list Z := header_bytes [pkt_to h; pkt_from h; pkt_length h].

(** The three words of a header at the start of a buffer: two [int]s and an
    [unsigned]. *)
Definition header_at (buf : list Z) : result (Z * Z * Z) :=
  a ← blk_get buf 0 4;
  b ← blk_get buf 4 4;
  c ← blk_get buf 8 4;
  Ok (s32 (host_word big_endian a), s32 (host_word big_endian b), host_word big_endian c).

Definition packet_at (buf : list Z) : result PacketHeader :=
  '(to, from, len) ← header_at buf;
  Ok (mkPacketHeader to from len).
End headers.

Section network.
Context {C X E : Type} `{HasNet E}.
Variable big_endian : bool.
(** The objects whose [CallBack] the interrupts call, the [n]-th random number,
    and what [new] leaves in an array. *)
Variables DNetworkInput DNetworkOutput : C.
Variable RandomNumber : Z → Z.
Variable new_bytes : Z → list Z.
#[local] Abbreviation Sim := (Sim C (Threads X E)).
Implicit Types (s : Sim) (n : Net).

Definition get_net s : Net := net (env (devices s)).
Definition set_net s n : Sim := with_devices s (with_env (devices s) (with_net (env (devices s)) n)).

Definition count_sent (st : Statistics) : result Statistics :=
  n ← int_add (numPacketsSent st) 1;
  Ok (mkStats (totalTicks st) (idleTicks st) (systemTicks st) (userTicks st) (numDiskReads st) (numDiskWrites st)
        (numConsoleCharsRead st) (numConsoleCharsWritten st) (numPageFaults st) n (numPacketsRecvd st)).
Definition count_recvd (st : Statistics) : result Statistics :=
  n ← int_add (numPacketsRecvd st) 1;
  Ok (mkStats (totalTicks st) (idleTicks st) (systemTicks st) (userTicks st) (numDiskReads st) (numDiskWrites st)
        (numConsoleCharsRead st) (numConsoleCharsWritten st) (numPageFaults st) (numPacketsSent st) n).

(** ** Receiving *)

(** [recvfrom] cuts a datagram to the size asked for. *)
Definition ReadFromSocket (datagram : list Z) (packetSize : Z) : result (list Z) :=
  let buffer := take (Z.to_nat packetSize) datagram in
  ASSERT (Z.of_nat (length buffer) =? packetSize);;
  Ok buffer.

(** [PostOfficeInput::CallBack] and [PostOfficeOutput::CallBack]. *)
Definition PostOfficeInput_CallBack s : result Sim := lift s (wake (devices s) (SUser message_available)).
Definition PostOfficeOutput_CallBack s : result Sim := lift s (wake (devices s) (SUser message_sent)).

Definition NetworkInput_CallBack s : result Sim :=
  s ← Schedule s DNetworkInput NetworkTime NetworkRecvInt;
  let n := get_net s in
  if negb (pkt_length (inHdr n) =? 0) then Ok s
  else
    match polls n with
    | [] => Ok s
    | None :: ps => Ok (set_net s (with_in n (inHdr n) (inbox n) ps))
    | Some datagram :: ps =>
        buffer ← ReadFromSocket datagram MaxWireSize;
        h ← packet_at big_endian buffer;
        ASSERT ((pkt_to h =? hostName n) && (pkt_length h <=? MaxPacketSize));;
        data ← blk_get buffer sizeof_PacketHeader (pkt_length h);
        b ← blk_put (inbox n) 0 data;
        st ← count_recvd (stats s);
        PostOfficeInput_CallBack (with_stats (set_net s (with_in n h b ps)) st)
    end.

(** The data is [None] when there is no packet and nothing is copied. *)
Definition NetworkInput_Receive s : result (PacketHeader * option (list Z) * Sim) :=
  let n := get_net s in
  let hdr := inHdr n in
  data ← (if negb (pkt_length hdr =? 0) then d ← blk_get (inbox n) 0 (pkt_length hdr); Ok (Some d) else Ok None);
  Ok (hdr, data, set_net s (with_in n (mkPacketHeader (pkt_to hdr) (pkt_from hdr) 0) (inbox n) (polls n))).

(** ** Sending *)

(** The result: whether one of ten attempts succeeded, and the replies left. *)
Definition SendToSocket (rs : list Z) (packetSize : Z) : result (bool * list Z) :=
  r ← for_ret 0 10 (λ _ rs,
    match rs with
    | [] => Ok (inr [])
    | retVal :: rs => if retVal =? packetSize then Ok (inr rs) else ASSERT (retVal <? 0);; Ok (inl rs)
    end) rs;
  Ok (match r with inl rs => (false, rs) | inr rs => (true, rs) end).

(** [RandomNumber () % 100 >= chanceToWork * 100]; the product of a [double] and
    100 is exact in the floating point registers. *)
Definition lost (chance : Q) (random : Z) : bool := Qle_bool (chance * 100) (inject_Z (Z.rem (u32 random) 100)).

(** Header and data in one buffer of the size of a packet. *)
Definition wire_bytes (hdr : PacketHeader) (data : list Z) : result (list Z) :=
  buffer ← blk_put (new_bytes MaxWireSize) 0 (packet_bytes big_endian hdr);
  d ← blk_get data 0 (pkt_length hdr);
  blk_put buffer sizeof_PacketHeader d.

Definition NetworkOutput_Send s (hdr : PacketHeader) (data : list Z) : result Sim :=
  let n := get_net s in
  ASSERT (negb (sendBusy n) && (pkt_length hdr >? 0) && (pkt_length hdr <=? MaxPacketSize) && (pkt_from hdr =? hostName n));;
  s ← Schedule s DNetworkOutput NetworkTime NetworkSendInt;
  if lost (chanceToWork n) (RandomNumber (ndrawn n)) then Ok (set_net s (with_out n (ndrawn n + 1) (replies n) (wire n)))
  else
    buffer ← wire_bytes hdr data;
    '(sent, rs) ← SendToSocket (replies n) MaxWireSize;
    Ok (set_net s (with_out n (ndrawn n + 1) rs (if sent : bool then wire n ++ [(pkt_to hdr, buffer)] else wire n))).

Definition NetworkOutput_CallBack s : result Sim :=
  st ← count_sent (stats s);
  PostOfficeOutput_CallBack (with_stats (set_net s (with_sendBusy (get_net s) false)) st).

(** The constructors: the reliability is kept between 0 and 1, and the input
    starts to poll. *)
Definition chance_of (reliability : Q) : Q :=
  if negb (Qle_bool 0 reliability) then 0%Q else if negb (Qle_bool reliability 1) then 1%Q else reliability.

Definition Net_new (host : Z) (reliability : Q) (ps : list (option (list Z))) (rs : list Z) (raw : PacketHeader) (box : list Z) : Net :=
  mkNet host (mkPacketHeader (pkt_to raw) (pkt_from raw) 0) box ps false (chance_of reliability) 0 rs [].

Definition NetworkInput_new s : result Sim := Schedule s DNetworkInput NetworkTime NetworkRecvInt.
End network.

(** ** Round trips *)

Section round_trip.
Variable be : bool.

Lemma header_bytes_length ws : length (header_bytes be ws) = (4 * length ws)%nat.
Proof.
  unfold header_bytes. induction ws as [|w ws IH]; [done |]. rewrite bind_cons, length_app, word_bytes_length, IH. cbn [length]. lia.
Qed.

(** What lies at the start of a buffer is there after a write behind it. *)
Lemma header_at_ok buf a b c : is_s32 a → is_s32 b → is_u32 c → blk_get buf 0 12 = Ok (header_bytes be [a; b; c]) →
  header_at be buf = Ok (a, b, c).
Proof.
  intros Ha Hb Hc (_ & _ & Hl & Hk)%blk_get_Ok. unfold header_bytes in Hk. cbn [mbind list_bind] in Hk. rewrite app_nil_r in Hk.
  change (Z.to_nat 0) with 0%nat in Hk. rewrite drop_0 in Hk. change (Z.to_nat 12) with 12%nat in Hk.
  pose proof (word_bytes_length be a) as La. pose proof (word_bytes_length be b) as Lb. pose proof (word_bytes_length be c) as Lc.
  assert (∀ i w pre post, (i <= 2)%nat → word_bytes be a ++ word_bytes be b ++ word_bytes be c = pre ++ word_bytes be w ++ post →
    length pre = (4 * i)%nat → blk_get buf (4 * Z.of_nat i) 4 = Ok (word_bytes be w)) as Hw.
  { intros i w pre post Hi He Hp. apply blk_get_Ok. split; [lia |]. split; [lia |]. split; [lia |].
    replace (Z.to_nat (4 * Z.of_nat i)) with (4 * i)%nat by lia. change (Z.to_nat 4) with 4%nat.
    assert (take 4 (drop (4 * i) buf) = take 4 (drop (4 * i) (take 12 buf))) as ->.
    { rewrite skipn_firstn_comm, take_take. f_equal. lia. }
    rewrite <- Hk, He, drop_app_length' by done. symmetry. apply take_app_length'. by rewrite word_bytes_length. }
  unfold header_at. rewrite (Hw 0%nat a [] (word_bytes be b ++ word_bytes be c) ltac:(lia) eq_refl eq_refl : blk_get buf 0 4 = _).
  rewrite (Hw 1%nat b (word_bytes be a) (word_bytes be c) ltac:(lia) eq_refl La : blk_get buf 4 4 = _).
  rewrite (Hw 2%nat c (word_bytes be a ++ word_bytes be b) [] ltac:(lia) ltac:(by rewrite app_nil_r, app_assoc) ltac:(rewrite length_app; lia) : blk_get buf 8 4 = _).
  cbn [rbind]. rewrite !host_word_bytes, !s32_u32, !s32_id, u32_id by done. done.
Qed.

Lemma inserts_front (k l : list Z) : (length k <= length l)%nat → list_inserts 0 k l = k ++ drop (length k) l.
Proof.
  intros Hl. rewrite <- (take_drop (length k) l) at 1. apply list_inserts_0_r. rewrite length_take. lia.
Qed.

(** A block written at the start, then one behind it. *)
Lemma two_blocks (raw h d buf : list Z) n : Z.of_nat (length h) = n → (b ← blk_put raw 0 h; blk_put b n d) = Ok buf →
  blk_get buf 0 n = Ok h ∧ blk_get buf n (Z.of_nat (length d)) = Ok d ∧ length buf = length raw.
Proof.
  intros Hn (b & Hb & Hd)%bind_Ok. pose proof (blk_put_length _ _ _ _ Hb) as L1. pose proof (blk_put_length _ _ _ _ Hd) as L2.
  split; [| split; [by apply (blk_get_put_same b n) | congruence]].
  rewrite (blk_get_put_disjoint b n d buf 0 n Hd) by (lia || (left; lia)). subst n. by apply (blk_get_put_same raw 0).
Qed.

Definition packet_ok (h : PacketHeader) : Prop := is_s32 (pkt_to h) ∧ is_s32 (pkt_from h) ∧ is_u32 (pkt_length h).

(** The packet that is sent is the packet that is read. *)
Lemma wire_round_trip (new_bytes : Z → list Z) hdr data d : wire_bytes be new_bytes hdr data = Ok d → packet_ok hdr →
  Z.of_nat (length (new_bytes MaxWireSize)) = MaxWireSize →
  ∃ bs, blk_get data 0 (pkt_length hdr) = Ok bs ∧ ReadFromSocket d MaxWireSize = Ok d ∧ packet_at be d = Ok hdr ∧
    blk_get d sizeof_PacketHeader (pkt_length hdr) = Ok bs.
Proof.
  intros Hw (H1 & H2 & H3) Hl. unfold wire_bytes in Hw. apply bind_Ok in Hw as (b & Hb & Hw). apply bind_Ok in Hw as (bs & Hbs & Hd).
  exists bs. split; [done |]. pose proof (header_bytes_length [pkt_to hdr; pkt_from hdr; pkt_length hdr]) as Lh. cbn [length] in Lh.
  destruct (two_blocks (new_bytes MaxWireSize) (packet_bytes be hdr) bs d sizeof_PacketHeader) as (E1 & E2 & E3).
  - unfold packet_bytes, sizeof_PacketHeader. lia.
  - by rewrite Hb.
  - rewrite (blk_get_length _ _ _ _ Hbs) in E2. split; [| split; [| done]].
    + unfold ReadFromSocket. rewrite take_ge by lia. by rewrite E3, Hl, Z.eqb_refl.
    + unfold packet_at. rewrite (header_at_ok d _ _ _ H1 H2 H3 E1). by destruct hdr.
Qed.
End round_trip.

(** Reliability 1 loses nothing, reliability 0 everything. *)
Lemma lost_exact random : lost (chance_of 1) random = false ∧ lost (chance_of 0) random = true.
Proof.
  pose proof (u32_range random) as Hr. pose proof (Z.rem_bound_pos (u32 random) 100) as Hb.
  assert (chance_of 1 = 1%Q) as -> by reflexivity. assert (chance_of 0 = 0%Q) as -> by reflexivity.
  split; unfold lost, Qle_bool; cbn; [apply Z.leb_gt | apply Z.leb_le]; unfold is_u32 in *; lia.
Qed.
