(* ===== verification/Post.v ===== *)
(** * The post office (network/post.h, network/post.cc)

    Mail between boxes of machines.  A thread of its own, the postal worker,
    takes each packet from the network device and puts the mail into the box it
    is for; a thread that receives waits at the box.  [netcall] has a
    constructor for every point at which a thread goes on with work of this
    component, [client] does what it does there; [Post_boot] is a machine that
    has nothing but the post office and a timer. *)

From S2P Require Import Prelude Machine Mips Lists Interrupt Threads Sched Waiters Wakeups Locks Synch SynchProps Handlers Ksyscall Console Disk NachosFile.
From S2P Require Import SynchList Network.
From Stdlib Require Import QArith.
Local Open Scope Z_scope.

Definition sizeof_MailHeader : Z := 12.
Definition MaxMailSize : Z := MaxPacketSize - sizeof_MailHeader.

Record MailHeader := mkMailHeader { mail_to : Z; mail_from : Z; mail_length : Z }.

(** [data]: an array of [MaxMailSize] characters. *)
Record Mail := mkMail { pktHdr : PacketHeader; mailHdr : MailHeader; mail_data : list Z }.

(** [boxes]: the lists of the mail boxes.  [buffer]: the array of the postal
    worker.  [received]: the variables of the callers of [Receive], by name. *)
Record NetEnv := mkNetEnv {
  enet : Net; numBoxes : Z; boxes : list (SList Mail); buffer : list Z;
  received : gmap Z (PacketHeader * MailHeader * list Z) }.

Definition with_enet (e : NetEnv) n := mkNetEnv n (numBoxes e) (boxes e) (buffer e) (received e).
Definition with_boxes (e : NetEnv) b := mkNetEnv (enet e) (numBoxes e) b (buffer e) (received e).
Definition with_buffer (e : NetEnv) b := mkNetEnv (enet e) (numBoxes e) (boxes e) b (received e).
Definition with_received (e : NetEnv) r := mkNetEnv (enet e) (numBoxes e) (boxes e) (buffer e) r.

#[export] Instance NetEnv_net : HasNet NetEnv := {| net := enet; with_net := with_enet; net_with e n := eq_refl |}.

Inductive netdev := NDTimer | NDInput | NDOutput.

#[export] Instance netdev_eq_dec : EqDecision netdev.
Proof. solve_decision. Defined.

Inductive netcall :=
  | NPost (p : PacketHeader) (m : MailHeader) (data : list Z)   (* PostOfficeOutput::Send *)
  | NSend (hdr : PacketHeader) (buf : list Z)                   (* ... its network->Send *)
  | NReceive (box dst : Z)                                      (* PostOfficeInput::Receive *)
  | NTake (box dst : Z)                                         (* ... in SynchList::RemoveFront *)
  | NGet (dst : Z) (m : Mail)                                   (* ... MailBox::Get after it *)
  | NDeliver                                                    (* PostalDelivery, after P *)
  | NPut (box : Z) (m : Mail)                                   (* list->Append in SynchList::Append *)
  | NTest                                                       (* Kernel::NetworkTest *)
  | NAck.                                                       (* ... after the first Receive *)

(** The locks: one per mail box, and [sendLock]. *)
Definition box_lock (box : Z) : Z := box.
Definition sendLock : Z := -1.

Section post.
Variable big_endian : bool.
Variable RandomNumber : Z → Z.
Variable new_bytes : Z → list Z.
#[local] Abbreviation Sim := (Sim netdev (Threads netcall NetEnv)).
#[local] Abbreviation instr := (instr netcall).
Implicit Types (s : Sim) (e : NetEnv).

Definition env_of s : NetEnv := env (devices s).
Definition set_env s e : Sim := with_devices s (with_env (devices s) e).

Definition mail_bytes (h : MailHeader) : list Z := header_bytes big_endian [mail_to h; mail_from h; mail_length h].
Definition mail_at (buf : list Z) : result MailHeader :=
  '(to, from, len) ← header_at big_endian buf;
  Ok (mkMailHeader to from len).

Definition Mail_new (pktH : PacketHeader) (mailH : MailHeader) (msgData : list Z) : result Mail :=
  ASSERT (mail_length mailH <=? MaxMailSize);;
  d ← blk_get msgData 0 (mail_length mailH);
  data ← blk_put (new_bytes MaxMailSize) 0 d;
  Ok (mkMail pktH mailH data).

(** [MailBox::Put], up to the list. *)
Definition MailBox_Put (box : Z) (pktH : PacketHeader) (mailH : MailHeader) (data : list Z) : result (list instr) :=
  mail ← Mail_new pktH mailH data;
  Ok (SynchList_Append (box_lock box) box (NPut box mail)).

(** The thread of [PostOfficeInput::PostalDelivery], from the head of its loop. *)
Definition PostalDelivery : list instr := [IP (SUser message_available); ICall NDeliver].

Definition PostalDelivery_step s : result (list instr * Sim) :=
  '(hdr, data, s) ← NetworkInput_Receive s;
  let e := env_of s in
  buf ← (match data with Some d => blk_put (buffer e) 0 d | None => Ok (buffer e) end);
  m ← mail_at buf;
  ASSERT ((0 <=? mail_to m) && (mail_to m <? numBoxes e));;
  ASSERT (mail_length m <=? MaxMailSize);;
  put ← MailBox_Put (mail_to m) hdr m (drop (Z.to_nat sizeof_MailHeader) buf);
  Ok (put ++ PostalDelivery, set_env s (with_buffer e buf)).

(** [PostOfficeInput::Receive]; [NGet] is [MailBox::Get] once it has the mail. *)
Definition PostOfficeInput_Receive s (box dst : Z) : result (list instr * Sim) :=
  ASSERT ((0 <=? box) && (box <? numBoxes (env_of s)));;
  Ok (SynchList_RemoveFront (box_lock box) (NTake box dst), s).

Definition NTake_step s (box dst : Z) : result (list instr * Sim) :=
  let e := env_of s in
  l ← aget (boxes e) box;
  '(ins, l) ← RemoveFront_step (box_lock box) box (NTake box dst) (λ m, [ICall (NGet dst m)]) l;
  b ← aset (boxes e) box l;
  Ok (ins, set_env s (with_boxes e b)).

Definition NGet_step s (dst : Z) (m : Mail) : result (list instr * Sim) :=
  let e := env_of s in
  d ← blk_get (mail_data m) 0 (mail_length (mailHdr m));
  ASSERT (mail_length (mailHdr m) <=? MaxMailSize);;
  Ok ([], set_env s (with_received e (<[dst := (pktHdr m, mailHdr m, d)]> (received e)))).

Definition NPut_step s (box : Z) (m : Mail) : result (list instr * Sim) :=
  let e := env_of s in
  l ← aget (boxes e) box;
  b ← aset (boxes e) box (list_Append l m);
  Ok ([], set_env s (with_boxes e b)).

(** [PostOfficeOutput::Send]: the packet, and what the thread does with it. *)
Definition post_buffer (host : Z) (p : PacketHeader) (m : MailHeader) (data : list Z) : result (PacketHeader * list Z) :=
  ASSERT (mail_length m <=? MaxMailSize);;
  ASSERT (0 <=? mail_to m);;
  let p := mkPacketHeader (pkt_to p) host (u32 (mail_length m + sizeof_MailHeader)) in
  buf ← blk_put (new_bytes MaxPacketSize) 0 (mail_bytes m);
  d ← blk_get data 0 (mail_length m);
  buf ← blk_put buf sizeof_MailHeader d;
  Ok (p, buf).

Definition PostOfficeOutput_Send s (p : PacketHeader) (m : MailHeader) (data : list Z) : result (list instr * Sim) :=
  '(p, buf) ← post_buffer (hostName (enet (env_of s))) p m data;
  Ok ([IAcquire sendLock; ICall (NSend p buf); IP (SUser message_sent); IRelease sendLock], s).

(** [Kernel::NetworkTest] (threads/kernel.cc); the fields of [outPktHdr] that are
    not set are overwritten by [Send]. *)
Definition hello : list Z := [72; 101; 108; 108; 111; 32; 116; 104; 101; 114; 101; 33; 0].
Definition got_it : list Z := [71; 111; 116; 32; 105; 116; 33; 0].

Definition NetworkTest s : list instr :=
  let host := hostName (enet (env_of s)) in
  if (host =? 0) || (host =? 1) then
    let farHost := if host =? 0 then 1 else 0 in
    [ICall (NPost (mkPacketHeader farHost 0 0) (mkMailHeader 0 1 (Z.of_nat (length hello))) hello);
     ICall (NReceive 0 0); ICall NAck; ICall (NReceive 1 0)]
  else [].

Definition NAck_step s : result (list instr * Sim) :=
  '(p, m, _) ← find (received (env_of s)) 0;
  Ok ([ICall (NPost (mkPacketHeader (pkt_from p) 0 0) (mkMailHeader (mail_from m) 1 (Z.of_nat (length got_it))) got_it)], s).

Definition client (x : netcall) s : result (list instr * Sim) :=
  match x with
  | NPost p m data => PostOfficeOutput_Send s p m data
  | NSend hdr buf => s ← NetworkOutput_Send big_endian NDOutput RandomNumber new_bytes s hdr buf; Ok ([], s)
  | NReceive box dst => PostOfficeInput_Receive s box dst
  | NTake box dst => NTake_step s box dst
  | NGet dst m => NGet_step s dst m
  | NDeliver => PostalDelivery_step s
  | NPut box m => NPut_step s box m
  | NTest => Ok (NetworkTest s, s)
  | NAck => NAck_step s
  end.

(** The handlers; the timer of this machine has fixed time slices, and its client
    is the alarm. *)
Definition CallBack (d : netdev) s : result Sim :=
  match d with
  | NDTimer => s ← Alarm_CallBack s; Schedule s NDTimer TimerTicks TimerInt
  | NDInput => NetworkInput_CallBack big_endian NDInput s
  | NDOutput => NetworkOutput_CallBack s
  end.

(** ** The machine *)

(** The constructors of both halves, as the main thread runs them in
    [Kernel::Initialize]: the semaphores and locks, the first poll, and [Fork] of
    the postal worker; then interrupts are enabled and the thread goes on with
    [main]. *)
Definition PostOffice_new (nBoxes : Z) (n : Net) : NetEnv :=
  mkNetEnv n nBoxes (replicate (Z.to_nat nBoxes) SList_new) (new_bytes MaxPacketSize) ∅.

Definition post_semaphores (nBoxes : Z) : gmap semid Semaphore :=
  <[SUser message_available := Semaphore_new 0]> (<[SUser message_sent := Semaphore_new 0]> (<[SLock sendLock := Semaphore_new 1]>
    (list_to_map ((λ b, (SLock (box_lock b), Semaphore_new 1)) <$> seqZ 0 nBoxes)))).
Definition post_locks (nBoxes : Z) : gmap Z (option Z) :=
  <[sendLock := None]> (list_to_map ((λ b, (box_lock b, None)) <$> seqZ 0 nBoxes)).
Definition post_conditions (nBoxes : Z) : gmap Z (list semid) := list_to_map ((λ b, (b, [])) <$> seqZ 0 nBoxes).

Definition main_thread : Z := 0.

Definition Post_boot (nBoxes : Z) (n : Net) (main : list instr) : result Sim :=
  let th := mkThread RUNNING (IFork PostalDelivery :: ISetLevel IntOn :: main ++ [IFinish]) None (replicate (Z.to_nat NumTotalRegs) 0) None in
  let k := mkThreads main_thread [] None {[main_thread := th]} (post_semaphores nBoxes) (post_locks nBoxes) (post_conditions nBoxes)
             (main_thread + 1) 0 (PostOffice_new nBoxes n) in
  s ← Schedule (mkSim Interrupt_new Statistics_new Machine_new k) NDTimer TimerTicks TimerInt;
  NetworkInput_new NDInput s.
End post.
