(* ===== verification/PostLaws.v ===== *)
(** * The post office keeps the kernel's laws

    The instances of [DeviceLaw], [ClientLaw] and, for the sending half, of
    [DriverLaw], so that what [Synch], [Interleave] and [Drivers] prove holds of
    a machine with a post office. *)

From S2P Require Import Prelude Machine Mips Lists AddrSpace Interrupt Threads Sched Waiters Wakeups Locks Synch SynchProps Handlers Interleave Drivers.
From S2P Require Import Ksyscall Console Disk NachosFile SynchList Network Post.
Local Open Scope Z_scope.

(** This machine runs no user programs. *)
Definition no_user (m : Machine) : result (list (instr netcall) * Machine) := Fail Undefined.

#[export] Instance no_user_law : UserLaw no_user.
Proof. by intros m ins m' _ H. Qed.

Section laws.
Variable big_endian : bool.
Variable RandomNumber : Z → Z.
Variable new_bytes : Z → list Z.
#[local] Abbreviation Sim := (Sim netdev (Threads netcall NetEnv)).
#[local] Abbreviation instr := (instr netcall).
#[local] Abbreviation client := (client big_endian RandomNumber new_bytes).
#[local] Abbreviation CallBack := (CallBack big_endian).
Implicit Types (s : Sim).

(** ** What a call changes *)

(** All calls but [NSend] change the environment only. *)
Definition is_send (x : netcall) : bool := match x with NSend _ _ => true | _ => false end.
Definition env_only s s' : Prop := ∃ e, s' = set_env s e.

Lemma NetworkInput_Receive_env s r s' : NetworkInput_Receive s = Ok (r, s') → ∃ n, s' = set_net s n.
Proof. unfold NetworkInput_Receive. intros (d & _ & [= _ <-])%bind_Ok. by eexists. Qed.

Lemma client_env_only x s ins s' : client x s = Ok (ins, s') → is_send x = false → env_only s s' ∧ Forall static ins.
Proof.
  intros Hc Hx. destruct x; cbn [Post.client] in Hc.
  - unfold PostOfficeOutput_Send in Hc. apply bind_Ok in Hc as ([h b] & _ & [= <- <-]). split; [by exists (env (devices s)); destruct s as [?? ? []] | by repeat constructor].
  - done.
  - unfold PostOfficeInput_Receive in Hc. apply bind_Ok in Hc as (u & _ & [= <- <-]). split; [by exists (env (devices s)); destruct s as [?? ? []] | by repeat constructor].
  - unfold NTake_step in Hc. cbv zeta in Hc. apply bind_Ok in Hc as (l & _ & Hc). apply bind_Ok in Hc as ([ins' l'] & Hr & Hc).
    apply bind_Ok in Hc as (b & _ & [= <- <-]). split; [by eexists |]. unfold RemoveFront_step in Hr.
    destruct (list_IsEmpty l); [by injection Hr as <- _; repeat constructor |]. apply bind_Ok in Hr as ([m l1] & _ & [= <- _]). by repeat constructor.
  - unfold NGet_step in Hc. cbv zeta in Hc. apply bind_Ok in Hc as (d & _ & Hc). apply bind_Ok in Hc as (u & _ & [= <- <-]). split; [by eexists | done].
  - unfold PostalDelivery_step in Hc. apply bind_Ok in Hc as ([[hdr data] s1] & Hr & Hc). apply NetworkInput_Receive_env in Hr as [n ->].
    cbv zeta in Hc. apply bind_Ok in Hc as (buf & _ & Hc). apply bind_Ok in Hc as (m & _ & Hc). apply bind_Ok in Hc as (u & _ & Hc).
    apply bind_Ok in Hc as (u' & _ & Hc). apply bind_Ok in Hc as (put & Hp & [= <- <-]). split; [by eexists |].
    unfold MailBox_Put in Hp. apply bind_Ok in Hp as (mail & _ & [= <-]). by repeat constructor.
  - unfold NPut_step in Hc. cbv zeta in Hc. apply bind_Ok in Hc as (l & _ & Hc). apply bind_Ok in Hc as (b & _ & [= <- <-]). split; [by eexists | done].
  - injection Hc as <- <-. split; [by exists (env (devices s)); destruct s as [?? ? []] |]. unfold NetworkTest. destruct (_ || _); by repeat constructor.
  - unfold NAck_step in Hc. apply bind_Ok in Hc as ([[p m] d] & _ & [= <- <-]). split; [by exists (env (devices s)); destruct s as [?? ? []] | by repeat constructor].
Qed.

Lemma NetworkOutput_Send_shape s hdr buf s' : NetworkOutput_Send big_endian NDOutput RandomNumber new_bytes s hdr buf = Ok s' →
  sendBusy (enet (env_of s)) = false ∧ ∃ s1 n, Schedule s NDOutput NetworkTime NetworkSendInt = Ok s1 ∧ s' = set_net s1 n ∧
    sendBusy n = false ∧ inHdr n = inHdr (enet (env_of s)) ∧ inbox n = inbox (enet (env_of s)) ∧ polls n = polls (enet (env_of s)) ∧
    hostName n = hostName (enet (env_of s)).
Proof.
  unfold NetworkOutput_Send. cbv zeta. intros ([] & Ha%assert_Ok & Hs)%bind_Ok. apply bind_Ok in Hs as (s1 & H1 & Hs).
  apply andb_prop in Ha as [Ha _]. apply andb_prop in Ha as [Ha _]. apply andb_prop in Ha as [Ha _]. apply negb_true_iff in Ha.
  split; [exact Ha |]. destruct (lost _ _).
  - injection Hs as <-. exists s1. eexists. split; [exact H1 |]. split; [done |]. done.
  - apply bind_Ok in Hs as (b & _ & Hs). apply bind_Ok in Hs as ([sent rs] & _ & [= <-]). exists s1. eexists. by split.
Qed.

#[export] Instance post_client_law : ClientLaw client.
Proof.
  intros x s ins s' Hs Hc. destruct (is_send x) eqn:Hx.
  - destruct x; try done. cbn [Post.client] in Hc. apply bind_Ok in Hc as (s1 & H1 & [= <- <-]).
    destruct (NetworkOutput_Send_shape _ _ _ _ H1) as (_ & s2 & n & H2 & -> & _). pose proof (Schedule_settled _ _ _ _ _ Hs H2) as Hs2.
    apply Schedule_device with (drv := mkDriver _ _ _ 0 0 (λ _, false) (λ _, false) false (λ _, false)) in H2 as [_ Hd].
    split; [done |]. split; [exact Hs2 |]. exists (semaphores (devices s)), (with_net (env (devices s2)) n). split; [apply grows_refl |].
    unfold set_net. cbn. by rewrite Hd.
  - destruct (client_env_only x s ins s' Hc) as [[e ->] Hst]; [done |].
    split; [done |]. split; [exact Hs |]. exists (semaphores (devices s)), e. by split; [apply grows_refl |].
Qed.

(** ** The handlers *)

Lemma handler_net s n : handler_ok s (set_net s n).
Proof. apply handler_env. Qed.

(** What the input handler does, on each of its ways. *)
Lemma NetworkInput_CallBack_cases s s' : NetworkInput_CallBack big_endian NDInput s = Ok s' →
  ∃ s1, Schedule s NDInput NetworkTime NetworkRecvInt = Ok s1 ∧ let n := get_net s in
    (pkt_length (inHdr n) ≠ 0 ∧ s' = s1 ∨ pkt_length (inHdr n) = 0 ∧ polls n = [] ∧ s' = s1 ∨
     pkt_length (inHdr n) = 0 ∧ (∃ ps, polls n = None :: ps ∧ s' = set_net s1 (with_in n (inHdr n) (inbox n) ps)) ∨
     pkt_length (inHdr n) = 0 ∧ ∃ d ps h data b st, polls n = Some d :: ps ∧
       (buf ← ReadFromSocket d MaxWireSize; packet_at big_endian buf) = Ok h ∧ pkt_to h = hostName n ∧ pkt_length h <= MaxPacketSize ∧
       (buf ← ReadFromSocket d MaxWireSize; blk_get buf sizeof_PacketHeader (pkt_length h)) = Ok data ∧ blk_put (inbox n) 0 data = Ok b ∧
       count_recvd (stats s1) = Ok st ∧
       lift (with_stats (set_net s1 (with_in n h b ps)) st) (wake (devices (with_stats (set_net s1 (with_in n h b ps)) st)) (SUser message_available)) = Ok s').
Proof.
  unfold NetworkInput_CallBack. intros (s1 & H1 & Hs)%bind_Ok. exists s1. split; [exact H1 |].
  assert (get_net s1 = get_net s) as Hn. { unfold Schedule in H1. by inv_res. }
  rewrite Hn in Hs. cbv zeta in Hs |- *. set (n := get_net s) in *.
  destruct (Z.eqb_spec (pkt_length (inHdr n)) 0) as [Hz|Hz]; cbn [negb] in Hs; [right | left; split; [done | congruence]].
  destruct (polls n) as [|[d|] ps] eqn:Hp; [left; split_and!; try done; congruence | right; right | right; left; split; [done |]; exists ps; split; [done | congruence]].
  split; [done |]. destruct (ReadFromSocket d MaxWireSize) as [buf|] eqn:Hr; [| done]. cbn [rbind] in *.
  apply bind_Ok in Hs as (h & Hh & Hs). apply bind_Ok in Hs as (u & Ha%assert_Ok & Hs). apply andb_prop in Ha as [Ha1%Z.eqb_eq Ha2%Z.leb_le].
  apply bind_Ok in Hs as (data & Hd & Hs). apply bind_Ok in Hs as (b & Hb & Hs). apply bind_Ok in Hs as (st & Hst & Hs).
  exists d, ps, h, data, b, st. rewrite Hr. repeat (split; [done |]). exact Hs.
Qed.

Lemma recvd_ok st st' : count_recvd st = Ok st' → same_ticks st st'.
Proof. unfold count_recvd. intros ?. by inv_res. Qed.

Lemma sent_ok st st' : count_sent st = Ok st' → same_ticks st st'.
Proof. unfold count_sent. intros ?. by inv_res. Qed.

#[export] Instance post_device_law : DeviceLaw CallBack.
Proof.
  apply handler_law. intros [] s s' Hc; cbn [Post.CallBack] in Hc.
  - apply bind_Ok in Hc as (s1 & H1%handler_Alarm & H2%handler_Schedule). by transitivity s1.
  - apply NetworkInput_CallBack_cases in Hc as (s1 & H1%handler_Schedule & Hc). cbv zeta in Hc.
    destruct Hc as [[_ ->]|[(_ & _ & ->)|[(_ & ps & _ & ->)|(_ & d & ps & h & data & b & st & _ & _ & _ & _ & _ & _ & Hst%recvd_ok & Hw)]]];
      [done | done | |]; (etransitivity; [exact H1 |]).
    + apply handler_net.
    + etransitivity; [apply handler_net |]. etransitivity; [by apply handler_count | by eapply handler_wake].
  - unfold NetworkOutput_CallBack in Hc. apply bind_Ok in Hc as (st & Hst%sent_ok & Hc).
    etransitivity; [apply handler_net |]. etransitivity; [by apply handler_count | by eapply handler_wake].
Qed.

(** ** The sending half as a driver *)

Definition sender : Driver netdev netcall NetEnv :=
  mkDriver _ _ _ sendLock message_sent is_send (λ e, sendBusy (enet e)) false (λ d, match d with NDOutput => true | _ => false end).

#[local] Abbreviation dev_events := (dev_events sender).
#[local] Abbreviation dev_busy := (dev_busy sender).
#[local] Abbreviation dev_value := (dev_value sender).

Lemma foreign_client x s ins s' : client x s = Ok (ins, s') → is_send x = false → foreign sender ins.
Proof.
  intros Hc Hx. destruct x; cbn [Post.client] in Hc; try done.
  - unfold PostOfficeOutput_Send in Hc. apply bind_Ok in Hc as ([h b] & _ & [= <- _]). by apply (foreign_drive sender (NSend h b)).
  - unfold PostOfficeInput_Receive in Hc. apply bind_Ok in Hc as (u & Ha%assert_Ok & [= <- _]). apply andb_prop in Ha as [Ha%Z.leb_le _].
    unfold foreign, parse, SynchList_RemoveFront, box_lock. cbn. unfold sendLock. by rewrite decide_False by lia.
  - unfold NTake_step in Hc. cbv zeta in Hc. apply bind_Ok in Hc as (l & Hl%aget_bound & Hc). apply bind_Ok in Hc as ([ins' l'] & Hr & Hc).
    apply bind_Ok in Hc as (b & _ & [= <- _]). unfold RemoveFront_step in Hr.
    destruct (list_IsEmpty l); [injection Hr as <- _ | apply bind_Ok in Hr as ([m l1] & _ & [= <- _])];
      unfold foreign, parse, box_lock; cbn; unfold sendLock; by rewrite decide_False by lia.
  - unfold NGet_step in Hc. cbv zeta in Hc. apply bind_Ok in Hc as (d & _ & Hc). by apply bind_Ok in Hc as (u & _ & [= <- _]).
  - unfold PostalDelivery_step in Hc. apply bind_Ok in Hc as ([[hdr data] s1] & Hr & Hc).
    cbv zeta in Hc. apply bind_Ok in Hc as (buf & _ & Hc). apply bind_Ok in Hc as (m & _ & Hc). apply bind_Ok in Hc as (u & Ha%assert_Ok & Hc).
    apply andb_prop in Ha as [Ha%Z.leb_le _]. apply bind_Ok in Hc as (u' & _ & Hc). apply bind_Ok in Hc as (put & Hp & [= <- _]).
    unfold MailBox_Put in Hp. apply bind_Ok in Hp as (mail & _ & [= <-]). unfold foreign, parse, SynchList_Append, box_lock. cbn. unfold sendLock.
    by rewrite !decide_False by (lia || done).
  - unfold NPut_step in Hc. cbv zeta in Hc. apply bind_Ok in Hc as (l & _ & Hc). by apply bind_Ok in Hc as (b & _ & [= <- _]).
  - injection Hc as <- _. unfold NetworkTest. by destruct (_ || _).
  - unfold NAck_step in Hc. by apply bind_Ok in Hc as ([[p m] d] & _ & [= <- _]).
Qed.

(** The calls that set the environment leave [sendBusy] alone. *)
Lemma client_busy x s ins s' : client x s = Ok (ins, s') → is_send x = false → dev_busy s' = dev_busy s.
Proof.
  intros Hc Hx. destruct x; cbn [Post.client] in Hc; try done; try (injection Hc as _ <-; done).
  - unfold PostOfficeOutput_Send in Hc. by apply bind_Ok in Hc as ([h b] & _ & [= _ <-]).
  - unfold PostOfficeInput_Receive in Hc. by apply bind_Ok in Hc as (u & _ & [= _ <-]).
  - unfold NTake_step in Hc. cbv zeta in Hc. apply bind_Ok in Hc as (l & _ & Hc). apply bind_Ok in Hc as ([ins' l'] & _ & Hc).
    by apply bind_Ok in Hc as (b & _ & [= _ <-]).
  - unfold NGet_step in Hc. cbv zeta in Hc. apply bind_Ok in Hc as (d & _ & Hc). by apply bind_Ok in Hc as (u & _ & [= _ <-]).
  - unfold PostalDelivery_step in Hc. apply bind_Ok in Hc as ([[hdr data] s1] & Hr & Hc).
    cbv zeta in Hc. apply bind_Ok in Hc as (buf & _ & Hc). apply bind_Ok in Hc as (m & _ & Hc). apply bind_Ok in Hc as (u & _ & Hc).
    apply bind_Ok in Hc as (u' & _ & Hc). apply bind_Ok in Hc as (put & _ & [= _ <-]).
    unfold NetworkInput_Receive in Hr. by apply bind_Ok in Hr as (d & _ & [= _ _ <-]).
  - unfold NPut_step in Hc. cbv zeta in Hc. apply bind_Ok in Hc as (l & _ & Hc). by apply bind_Ok in Hc as (b & _ & [= _ <-]).
  - unfold NAck_step in Hc. by apply bind_Ok in Hc as ([[p m] d] & _ & [= _ <-]).
Qed.

#[export] Instance sender_law : DriverLaw sender (λ _, True) CallBack client no_user.
Proof.
  split; [| | done].
  - intros d s s' _ _ Hc _. split; [done |]. destruct d; cbn [Post.CallBack is_dev sender] in *.
    + apply bind_Ok in Hc as (s1 & H1%Alarm_cases & [H2 D2]%(Schedule_device sender)). unfold Drivers.dev_busy, Drivers.dev_value.
      rewrite H2, D2, Z.add_0_r. by destruct H1 as [->| ->].
    + apply NetworkInput_CallBack_cases in Hc as (s1 & [H1 D1]%(Schedule_device sender) & Hc). cbv zeta in Hc. cbn [is_dev sender] in H1. rewrite Z.add_0_r in H1.
      assert (∀ n : Net, sendBusy n = sendBusy (get_net s) → dev_events (set_net s1 n) = dev_events s ∧ dev_busy (set_net s1 n) = dev_busy s ∧ dev_value (set_net s1 n) = dev_value s) as Hn.
      { intros n Hn. split; [exact H1 |]. split; [exact Hn |]. unfold Drivers.dev_value. cbn. by rewrite D1. }
      assert (dev_events s1 = dev_events s ∧ dev_busy s1 = dev_busy s ∧ dev_value s1 = dev_value s) as Hs1.
      { split; [exact H1 |]. unfold Drivers.dev_busy, Drivers.dev_value. by rewrite D1. }
      destruct Hc as [[_ ->]|[(_ & _ & ->)|[(_ & ps & _ & ->)|(_ & d & ps & h & data & b & st & _ & _ & _ & _ & _ & _ & _ & Hw)]]]; [done | done | by apply Hn |].
      apply (wake_device sender) in Hw as (He & Hev & Hv). rewrite decide_False in Hv by done.
      destruct (Hn (with_in (get_net s) h b ps) eq_refl) as (N1 & N2 & N3). unfold Drivers.dev_busy in *. rewrite He. rewrite Hev, Hv. by split; [| split].
    + unfold NetworkOutput_CallBack in Hc. apply bind_Ok in Hc as (st & _ & Hc). apply (wake_device sender) in Hc as (He & Hev & Hv).
      rewrite decide_True in Hv by done. unfold Drivers.dev_busy in *. rewrite He. split; [exact Hev |]. split; [done | exact Hv].
  - intros x s ins s' _ _ _ Hc. split; [done |]. change (starts sender x) with (is_send x). destruct (is_send x) eqn:Hx.
    + destruct x; try done. cbn [Post.client] in Hc. apply bind_Ok in Hc as (s1 & H1 & [= <- <-]).
      destruct (NetworkOutput_Send_shape _ _ _ _ H1) as (Hb & s2 & n & [H2 D2]%(Schedule_device sender) & -> & Hn & _).
      split; [exact Hb |]. split; [exact Hn |]. split; [exact H2 | done].
    + split; [by eapply client_busy |]. split; [| by eapply foreign_client].
      by destruct (client_env_only x s ins s' Hc Hx) as [[e ->] _].
Qed.
End laws.
