(* ===== verification/PostProps.v ===== *)
(** * What the post office promises

    [sends_one_at_a_time]: the sending half never overlaps two packets.
    [mail_arrives_in_order]: whatever the scheduler and the interrupts do, each
    mail box holds the mail that arrived for it, all of it, in order and intact. *)

From S2P Require Import Prelude Machine Mips Lists AddrSpace Interrupt Threads Sched Waiters Wakeups Locks Synch SynchProps Handlers.
From S2P Require Import Ksyscall Console Disk NachosFile SynchList Network Interleave Drivers Post PostLaws.
Local Open Scope Z_scope.

#[local] Abbreviation Sim := (Sim netdev (Threads netcall NetEnv)).
#[local] Abbreviation instr := (instr netcall).
#[local] Abbreviation Sys := (Sys (C := netdev) (X := netcall) (E := NetEnv)).
(** What a receiver gets of a mail. *)
#[local] Abbreviation view := (PacketHeader * MailHeader * list Z)%type.

Implicit Types (a : Sys) (s : Sim).

(** ** A letter from the sender's [Send] to the receiver's buffer *)

Section letters.
Variable be : bool.

(** The datagram [d] is what [Send] makes on machine [host] of this mail; [l] is
    the box it is for and what should come out of it. *)
Definition posted (d : list Z) (l : Z * view) : Prop :=
  ∃ (new_bytes : Z → list Z) host p m data hdr buf, (∀ n, 0 <= n → Z.of_nat (length (new_bytes n)) = n) ∧
    post_buffer be new_bytes host p m data = Ok (hdr, buf) ∧ wire_bytes be new_bytes hdr buf = Ok d ∧
    is_s32 (pkt_to p) ∧ is_s32 host ∧ is_s32 (mail_to m) ∧ is_s32 (mail_from m) ∧ 0 <= mail_length m ∧
    l = (mail_to m, (hdr, m, take (Z.to_nat (mail_length m)) data)).

Definition mail_ok (m : MailHeader) : Prop :=
  is_s32 (mail_to m) ∧ is_s32 (mail_from m) ∧ 0 <= mail_length m <= MaxMailSize.

(** A packet and its mail. *)
Definition enclosed (h : PacketHeader) (x : list Z) (l : Z * view) : Prop :=
  ∃ m dat, l = (mail_to m, (h, m, dat)) ∧ x = mail_bytes be m ++ dat ∧ Z.of_nat (length dat) = mail_length m ∧ mail_ok m ∧
    pkt_length h = mail_length m + sizeof_MailHeader.

Lemma posted_enclosed d l : posted d l → ∃ h x, ReadFromSocket d MaxWireSize = Ok d ∧ packet_at be d = Ok h ∧
  blk_get d sizeof_PacketHeader (pkt_length h) = Ok x ∧ enclosed h x l.
Proof.
  intros (nb & host & p & m & data & hdr & buf & Hnb & Hp & Hw & H1 & H2 & H3 & H4 & H5 & ->).
  unfold post_buffer in Hp. apply bind_Ok in Hp as ([] & Ha%assert_Ok & Hp). apply Z.leb_le in Ha.
  apply bind_Ok in Hp as ([] & _ & Hp). cbv zeta in Hp. apply bind_Ok in Hp as (b1 & Hb1 & Hp).
  apply bind_Ok in Hp as (dat & Hdat & Hp). apply bind_Ok in Hp as (b2 & Hb2 & [= <- <-]).
  assert (mail_length m <= 40) as Hm by exact Ha.
  assert (u32 (mail_length m + sizeof_MailHeader) = mail_length m + 12) as Hlen by (apply u32_id; unfold is_u32, sizeof_MailHeader; lia).
  rewrite Hlen in *. pose proof (blk_get_length _ _ _ _ Hdat) as Hdl.
  pose proof (header_bytes_length be [mail_to m; mail_from m; mail_length m]) as Lh. cbn [length] in Lh. change (header_bytes be _) with (mail_bytes be m) in Lh.
  destruct (two_blocks (nb MaxPacketSize) (mail_bytes be m) dat b2 sizeof_MailHeader) as (E1 & E2 & E3).
  { unfold sizeof_MailHeader. lia. } { by rewrite Hb1. }
  destruct (wire_round_trip be nb (mkPacketHeader (pkt_to p) host (mail_length m + 12)) b2 d Hw) as (bs & Hbs & Hr & Hpk & Hg).
  { split; [done |]. split; [done |]. cbn. unfold is_u32. lia. } { apply Hnb. done. }
  eexists _, bs. split; [exact Hr |]. split; [exact Hpk |]. split; [exact Hg |]. exists m, (take (Z.to_nat (mail_length m)) data).
  apply blk_get_Ok in Hdat as (_ & _ & Hd & ->). change (Z.to_nat 0) with 0%nat in *. rewrite drop_0 in *.
  split; [done |]. cbn [pkt_length] in *. rewrite length_take in Hdl. split; [| split; [rewrite length_take; lia | split; [split_and!; done || (unfold MaxMailSize, MaxPacketSize, MaxWireSize, sizeof_PacketHeader, sizeof_MailHeader; lia) | done]]].
  apply blk_get_Ok in E1 as (_ & _ & F1 & G1), E2 as (_ & _ & F2 & G2), Hbs as (_ & _ & F3 & ->).
  change (Z.to_nat 0) with 0%nat in *. rewrite drop_0 in *. rewrite G1. rewrite length_take in G2.
  replace (Z.to_nat (mail_length m + 12)) with (Z.to_nat sizeof_MailHeader + Z.to_nat (mail_length m))%nat by (unfold sizeof_MailHeader; lia).
  rewrite <- take_take_drop. f_equal. rewrite G2. f_equal. lia.
Qed.

(** What the postal worker makes of it. *)
Lemma enclosed_delivered (new_bytes : Z → list Z) h x l buf : (∀ n, 0 <= n → Z.of_nat (length (new_bytes n)) = n) → enclosed h x l → Z.of_nat (length buf) = MaxPacketSize →
  ∃ buf' m arr, blk_put buf 0 x = Ok buf' ∧ Z.of_nat (length buf') = MaxPacketSize ∧ mail_at be buf' = Ok m ∧ mail_length m <= MaxMailSize ∧
    MailBox_Put new_bytes (mail_to m) h m (drop (Z.to_nat sizeof_MailHeader) buf') =
      Ok (SynchList_Append (box_lock (mail_to m)) (mail_to m) (NPut (mail_to m) (mkMail h m arr))) ∧
    l = (mail_to m, (h, m, take (Z.to_nat (mail_length m)) arr)).
Proof.
  intros Hnb (m & dat & -> & -> & Hdl & (M1 & M2 & M3) & Hlen) Hbuf. unfold MaxMailSize, MaxPacketSize, MaxWireSize, sizeof_PacketHeader, sizeof_MailHeader in *.
  pose proof (header_bytes_length be [mail_to m; mail_from m; mail_length m]) as Lh. cbn [length] in Lh. change (header_bytes be _) with (mail_bytes be m) in Lh.
  rewrite blk_put_in by (rewrite ?length_app; lia). eexists _, m, _. split; [done |].
  assert (list_inserts (Z.to_nat 0) (mail_bytes be m ++ dat) buf = mail_bytes be m ++ dat ++ drop (12 + length dat) buf) as Hins.
  { change (Z.to_nat 0) with 0%nat. rewrite inserts_front by (rewrite length_app; lia). rewrite length_app, <- app_assoc. do 3 f_equal. lia. }
  rewrite Hins. split; [rewrite !length_app, length_drop; lia |]. split; [| split; [lia |]].
  - unfold mail_at. rewrite (header_at_ok be _ (mail_to m) (mail_from m) (mail_length m)); try done.
    + by destruct m. + unfold is_u32; lia.
    + apply blk_get_Ok. split; [lia |]. split; [lia |]. split; [rewrite !length_app; lia |]. change (Z.to_nat 0) with 0%nat. rewrite drop_0.
      symmetry. apply take_app_length'. exact (eq_sym Lh).
  - rewrite drop_app_length' by exact (eq_sym Lh). unfold MailBox_Put, Mail_new.
    destruct (Z.leb_spec (mail_length m) MaxMailSize) as [_|Hx]; [| unfold MaxMailSize, MaxPacketSize, MaxWireSize, sizeof_PacketHeader, sizeof_MailHeader in Hx; lia]. cbn [rbind].
    assert (blk_get (dat ++ drop (12 + length dat) buf) 0 (mail_length m) = Ok dat) as ->.
    { apply blk_get_Ok. split; [lia |]. split; [lia |]. split; [rewrite length_app; lia |]. change (Z.to_nat 0) with 0%nat. rewrite drop_0. symmetry. apply take_app_length'. lia. }
    cbn [rbind]. rewrite blk_put_in; [| lia | rewrite Hnb; unfold MaxMailSize, MaxPacketSize, MaxWireSize, sizeof_PacketHeader, sizeof_MailHeader; lia]. cbn [rbind].
    split; [done |]. do 2 f_equal. change (Z.to_nat 0) with 0%nat. rewrite inserts_front by (pose proof (Hnb MaxMailSize ltac:(done)) as Hx; unfold MaxMailSize, MaxPacketSize, MaxWireSize, sizeof_PacketHeader, sizeof_MailHeader in Hx |- *; lia).
    symmetry. apply take_app_length'. lia.
Qed.
End letters.

(** ** The postal worker and the others *)

(** Code of threads other than the worker: it does not touch what is his. *)
Fixpoint civil (i : instr) : bool :=
  match i with
  | ICall NDeliver | ICall (NPut _ _) => false
  | IP w | IV w | IDelete w => negb (bool_decide (w = SUser message_available))
  | IFork body => forallb civil body
  | _ => true
  end.

(** Where the worker is in his loop. *)
Inductive phase := WIdle | WReady | WPut (k : nat) (b : Z) (m : Mail).

Definition wcode (p : phase) : list instr :=
  match p with
  | WIdle => PostalDelivery ++ [IFinish]
  | WReady => [ICall NDeliver; IFinish]
  | WPut k b m => drop k (SynchList_Append (box_lock b) b (NPut b m)) ++ PostalDelivery ++ [IFinish]
  end.

(** Whether he still has the mail. *)
Definition in_hand (p : phase) : list (Z * Mail) :=
  match p with WPut k b m => if (k <=? 1)%nat then [(b, m)] else [] | _ => [] end.

Definition phase_ok (p : phase) : Prop := match p with WPut k _ _ => (k <= 3)%nat | _ => True end.

(** Before he is forked, or with his thread. *)
Definition staffed (a : Sys) (p : phase) : Prop :=
  ∃ w cw, scode a !! w = Some cw ∧ (∀ t c, t ≠ w → scode a !! t = Some c → Forall (λ i, civil i = true) c) ∧
    (p = WIdle ∧ (∃ c, cw = IFork PostalDelivery :: c ∧ Forall (λ i, civil i = true) c) ∨ phase_ok p ∧ cw = wcode p).

#[local] Abbreviation civils := (Forall (λ i, civil i = true)).

Lemma civil_flat ins : Forall static ins → civils ins → civils (flat ins).
Proof.
  intros Hs Hc. induction Hs as [|i ins Hi _ IH]; [done |]. apply Forall_cons in Hc as [H1 H2]. specialize (IH H2).
  destruct i as [[]| | | | | | | | | | | | | |[]| | |[]| | | |]; cbn in *; try done; by constructor.
Qed.

Lemma wcode_not_civil p c : phase_ok p → wcode p = c → ¬ civils c.
Proof.
  intros Hp <- Hc. assert (ICall NDeliver ∈ wcode p) as Hin.
  { destruct p as [| |k b m]; cbn [wcode PostalDelivery]; [right; left | left |]. apply elem_of_app. right. right. left. }
  rewrite Forall_forall in Hc. by specialize (Hc _ Hin).
Qed.

(** A thread is the worker, is about to fork him, or is another. *)
Lemma staffed_cases a p t c : staffed a p → scode a !! t = Some c →
  civils c ∨ (phase_ok p ∧ c = wcode p ∧ ∀ t' c', t' ≠ t → scode a !! t' = Some c' → civils c') ∨
  (p = WIdle ∧ (∃ c1, c = IFork PostalDelivery :: c1 ∧ civils c1) ∧ ∀ t' c', t' ≠ t → scode a !! t' = Some c' → civils c').
Proof.
  intros (w & cw & Hw & Ho & Hp) Hc. destruct (decide (t = w)) as [->|Hne]; [| left; by apply (Ho t)].
  right. assert (c = cw) as -> by congruence. destruct Hp as [[-> Hp]|[Hp ->]]; [right | left]; done.
Qed.

(** Another thread goes on. *)
Lemma staffed_other a a' p t c c' : staffed a p → scode a !! t = Some c → civils c → civils c' →
  (∀ t', scode a' !! t' = if decide (t' = t) then Some c' else scode a !! t') → staffed a' p.
Proof.
  intros (w & cw & Hw & Ho & Hp) Hc Hci Hc' Ha. assert (w ≠ t) as Hne.
  { intros ->. assert (cw = c) as -> by congruence. destruct Hp as [[_ (c1 & -> & _)]|[Hp Heq]]; [| by eapply wcode_not_civil].
    apply Forall_cons in Hci as [Hci _]. done. }
  exists w, cw. split; [by rewrite Ha, decide_False |]. split; [| done]. intros t0 c0 H0. rewrite Ha. case_decide; [by intros [= <-] | by apply Ho].
Qed.

(** The worker goes on. *)
Lemma staffed_worker a a' t p' : (∀ t' c', t' ≠ t → scode a !! t' = Some c' → civils c') → phase_ok p' →
  (∀ t', scode a' !! t' = if decide (t' = t) then Some (wcode p') else scode a !! t') → staffed a' p'.
Proof.
  intros Ho Hp Ha. exists t, (wcode p'). split; [by rewrite Ha, decide_True |]. split; [| by right].
  intros t0 c0 H0. rewrite Ha, decide_False by done. by apply Ho.
Qed.

Lemma staffed_same a a' (p : phase) : scode a' = scode a → staffed a p → staffed a' p.
Proof. unfold staffed. by intros ->. Qed.

Lemma staffed_new a p t c : staffed a p → scode a !! t = None → civils c → staffed (go a t c) p.
Proof.
  intros (w & cw & Hw & Ho & Hp) Hn Hc. exists w, cw. split; [cbn; rewrite lookup_insert_ne; congruence |]. split; [| done].
  intros t0 c0 H0. cbn. destruct (decide (t0 = t)) as [->|Hne]; [rewrite lookup_insert_eq; by intros [= <-] | rewrite lookup_insert_ne by done; by apply Ho].
Qed.

Lemma staffed_gone a p t : staffed a p → scode a !! t = Some [] → staffed (with_scode a (delete t (scode a))) p.
Proof.
  intros (w & cw & Hw & Ho & Hp) Hn. assert (w ≠ t) as Hne.
  { intros ->. rewrite Hn in Hw. injection Hw as <-. destruct Hp as [[_ (c & ? & _)]|[Hp He]]; [done |]. eapply wcode_not_civil; [exact Hp | by symmetry | done]. }
  exists w, cw. split; [cbn; by rewrite lookup_delete_ne |]. split; [| done].
  intros t0 c0 H0. cbn. destruct (decide (t0 = t)) as [->|Hd]; [by rewrite lookup_delete_eq | rewrite lookup_delete_ne by done; by apply Ho].
Qed.

(** The calls of the worker's are his. *)
Lemma his_delivery a p t c : staffed a p → scode a !! t = Some (ICall NDeliver :: c) → p = WReady.
Proof.
  intros Ha Hc. destruct (staffed_cases a p t _ Ha Hc) as [[Hx _]%Forall_cons|[(Hp & Hx & _)|(_ & (c1 & [=] & _) & _)]]; [done |].
  destruct p as [| |[|[|[|[|k]]]] b m]; cbn in Hx, Hp; done || lia.
Qed.

(** ** The way of the mail *)

Section delivery.
Variable be : bool.
Variable RandomNumber : Z → Z.
Variable new_bytes : Z → list Z.
Hypothesis new_bytes_length : ∀ n, 0 <= n → Z.of_nat (length (new_bytes n)) = n.
(** The machine, the number of its boxes, and the letters that its socket will
    give it, poll by poll. *)
Variables host nBoxes : Z.
Variable letters : list (option (Z * view)).
#[local] Abbreviation client := (client be RandomNumber new_bytes).
#[local] Abbreviation CallBack := (CallBack be).

Definition seen (m : Mail) : view := (pktHdr m, mailHdr m, take (Z.to_nat (mail_length (mailHdr m))) (mail_data m)).

(** What is for box [b]. *)
Definition boxed {A} (b : Z) (l : list (Z * A)) : list A := omap (λ x, if decide (x.1 = b) then Some x.2 else None) l.

(** One answer of the socket, and the letter in it. *)
Definition answers (o : option (list Z)) (l : option (Z * view)) : Prop :=
  match o, l with
  | None, None => True
  | Some d, Some l => posted be d l ∧ pkt_to l.2.1.1 = host ∧ 0 <= l.1 < nBoxes
  | _, _ => False
  end.

(** The device: empty, or with a packet that has been announced to the worker. *)
Definition staged (n : Net) (v : Z) (p : phase) (stage : option (Z * view)) : Prop :=
  match stage with
  | None => pkt_length (inHdr n) = 0 ∧ v = 0 ∧ p ≠ WReady
  | Some l => (∃ x, blk_get (inbox n) 0 (pkt_length (inHdr n)) = Ok x ∧ enclosed be (inHdr n) x l) ∧ 0 <= l.1 < nBoxes ∧
      (v = 1 ∧ p ≠ WReady ∨ v = 0 ∧ p = WReady)
  end.

(** Each letter for a box is in it or was, in the worker's hands, in the device or
    on the way, in this order. *)
Definition accounted (e : NetEnv) (p : phase) (stage : option (Z * view)) (rest : list (option (Z * view))) : Prop :=
  ∀ b, 0 <= b < nBoxes → ∃ l, boxes e !! Z.to_nat b = Some l ∧
    boxed b (omap id letters) = (seen <$> items l) ++ (seen <$> boxed b (in_hand p)) ++ boxed b (option_list stage) ++ boxed b (omap id rest).

Record flow (e : NetEnv) (v : Z) (p : phase) : Prop := {
  fl_host : hostName (enet e) = host;
  fl_num : numBoxes e = nBoxes;
  fl_boxes : Z.of_nat (length (boxes e)) = nBoxes;
  fl_inbox : Z.of_nat (length (inbox (enet e))) = MaxPacketSize;
  fl_buffer : Z.of_nat (length (buffer e)) = MaxPacketSize;
  fl_hand : ∀ b m, (b, m) ∈ in_hand p → 0 <= b < nBoxes;
  fl_mail : ∃ stage rest, Forall2 answers (polls (enet e)) rest ∧ staged (enet e) v p stage ∧ accounted e p stage rest }.

Lemma boxed_app {A} b (l1 l2 : list (Z * A)) : boxed b (l1 ++ l2) = boxed b l1 ++ boxed b l2.
Proof. apply omap_app. Qed.

(** What is neither in a box nor in the socket. *)
Lemma flow_arrived e v p : flow e v p → ∃ rest, Forall2 answers (polls (enet e)) rest ∧
  ∀ b, 0 <= b < nBoxes → ∃ l transit, boxes e !! Z.to_nat b = Some l ∧ (length transit <= 2)%nat ∧
    boxed b (omap id letters) = (seen <$> items l) ++ transit ++ boxed b (omap id rest).
Proof.
  intros [F1 F2 F3 F4 F5 F6 (stage & rest & R1 & R2 & R3)]. exists rest. split; [done |]. intros b Hb. destruct (R3 b Hb) as (l & Hl & Heq).
  exists l, ((seen <$> boxed b (in_hand p)) ++ boxed b (option_list stage)). split; [done |]. split; [| by rewrite Heq, <- app_assoc].
  assert (∀ {A} (q : list (Z * A)), (length (boxed b q) <= length q)%nat) as Hle.
  { intros A q. induction q as [|[b' x] q IH]; [done |]. unfold boxed in *. cbn. destruct (decide _); cbn; lia. }
  rewrite length_app, length_fmap. pose proof (Hle _ (in_hand p)). pose proof (Hle _ (option_list stage)).
  assert (length (in_hand p) <= 1)%nat by (destruct p as [| |k b' m]; cbn; [lia.. | by destruct (k <=? 1)%nat; cbn; lia]).
  assert (length (option_list stage) <= 1)%nat by (by destruct stage; cbn; lia). lia.
Qed.

(** The next mail that leaves a box. *)
Lemma flow_taken s v p b l dst : flow (env_of s) v p → 0 <= b < nBoxes → boxes (env_of s) !! Z.to_nat b = Some l → list_IsEmpty l = false →
  ∃ m s', NTake_step s b dst = Ok ([IRelease (box_lock b); ICall (NGet dst m)], s') ∧ boxed b (omap id letters) !! removed l = Some (seen m) ∧
    boxes (env_of s') !! Z.to_nat b = Some (mkSList (items l) (S (removed l))).
Proof.
  intros Hf Hb Hl He. pose proof (flow_arrived _ _ _ Hf) as (rest & _ & Hr). destruct (Hr b Hb) as (l' & tr & Hl' & _ & Heq).
  assert (l' = l) as -> by congruence. pose proof (lookup_lt_Some _ _ _ Hl) as Hlt.
  unfold NTake_step. cbv zeta. rewrite (proj2 (aget_Ok _ _ _) (conj (proj1 Hb) Hl)). cbn [rbind]. unfold RemoveFront_step. rewrite He.
  unfold list_IsEmpty, list_RemoveFront in *. destruct (content l) as [|m c] eqn:Hc; [done |]. cbn [rbind].
  rewrite aset_in by lia. cbn [rbind]. exists m. eexists. split; [done |]. split; [| cbn; by rewrite list_lookup_insert_eq by lia].
  pose proof (lookup_drop (items l) (removed l) 0) as H0. change (drop (removed l) (items l)) with (content l) in H0. rewrite Hc, Nat.add_0_r in H0.
  rewrite Heq, lookup_app_l; [by rewrite list_lookup_fmap, <- H0 |]. rewrite length_fmap. by eapply lookup_lt_Some.
Qed.

(** Only the fields that [flow] speaks of matter. *)
Lemma flow_same e e' v p : flow e v p → hostName (enet e') = hostName (enet e) → inHdr (enet e') = inHdr (enet e) →
  inbox (enet e') = inbox (enet e) → polls (enet e') = polls (enet e) → numBoxes e' = numBoxes e → buffer e' = buffer e →
  length (boxes e') = length (boxes e) → (∀ i l, boxes e !! i = Some l → ∃ l', boxes e' !! i = Some l' ∧ items l' = items l) → flow e' v p.
Proof.
  intros [F1 F2 F3 F4 F5 F6 (stage & rest & R1 & R2 & R3)] E1 E2 E3 E4 E5 E6 E7 E8. constructor; try congruence; [done |].
  exists stage, rest. rewrite E4. split; [done |]. split; [unfold staged in *; by rewrite E2, E3 |].
  intros b Hb. destruct (R3 b Hb) as (l & Hl & Heq). destruct (E8 _ _ Hl) as (l' & Hl' & Hi). exists l'. by rewrite Hi.
Qed.

(** Another phase in which the worker has nothing more or less in hand. *)
Lemma flow_phase e v p p' : flow e v p → in_hand p' = in_hand p → p ≠ WReady → p' ≠ WReady → flow e v p'.
Proof.
  intros [F1 F2 F3 F4 F5 F6 (stage & rest & R1 & R2 & R3)] Hh Hp Hp'. constructor; try done; [by rewrite Hh |].
  exists stage, rest. split; [done |]. split.
  - destruct stage; cbn in *; [| naive_solver]. destruct R2 as (? & ? & [[? _]|[_ ?]]); [| done]. split; [done |]. split; [done |]. by left.
  - intros b Hb. rewrite Hh. by apply R3.
Qed.

(** Waking up for a packet. *)
Lemma flow_ready e v : flow e v WIdle → v ≠ 0 → flow e (v + -1) WReady.
Proof.
  intros [F1 F2 F3 F4 F5 F6 (stage & rest & R1 & R2 & R3)] Hv. constructor; try done.
  exists stage, rest. split; [done |]. split; [| exact R3]. destruct stage as [l|]; cbn in *; [| naive_solver].
  destruct R2 as (? & ? & [[-> _]|[? _]]); [| done]. split; [done |]. split; [done |]. by right.
Qed.

(** Calls of the other threads. *)
Lemma flow_client x s ins s' v p : client x s = Ok (ins, s') → civil (ICall x) = true → flow (env_of s) v p →
  flow (env_of s') v p ∧ civils ins.
Proof.
  intros Hc Hx Hf. destruct x; try done; cbn [Post.client] in Hc.
  - unfold PostOfficeOutput_Send in Hc. apply bind_Ok in Hc as ([h b] & _ & [= <- <-]). split; [done | by repeat constructor].
  - apply bind_Ok in Hc as (s1 & H1 & [= <- <-]). split; [| done].
    destruct (NetworkOutput_Send_shape _ _ _ _ _ _ _ H1) as (_ & s2 & n & [_ D2]%(Schedule_device sender) & -> & _ & N1 & N2 & N3 & N4).
    apply (flow_same _ _ _ _ Hf); unfold env_of, set_net in *; cbn; rewrite ?D2; try done. intros i l Hl. by exists l.
  - unfold PostOfficeInput_Receive in Hc. apply bind_Ok in Hc as (u & _ & [= <- <-]). split; [done | by repeat constructor].
  - unfold NTake_step in Hc. cbv zeta in Hc. apply bind_Ok in Hc as (l & Hl & Hc). apply bind_Ok in Hc as ([ins' l'] & Hr & Hc).
    apply bind_Ok in Hc as (b & [Hb ->]%aset_Ok & [= <- <-]). assert (items l' = items l ∧ civils ins') as [Hi Hins].
    { unfold RemoveFront_step in Hr. destruct (list_IsEmpty l); [injection Hr as <- <-; split; [done | by repeat constructor] |].
      apply bind_Ok in Hr as ([m l1] & Hr & [= <- <-]). unfold list_RemoveFront in Hr. destruct (content l); [done |]. injection Hr as _ <-.
      split; [done | by repeat constructor]. }
    split; [| done]. apply (flow_same _ _ _ _ Hf); try done; cbn; [by rewrite length_insert |]. intros i l0 H0.
    apply aget_Ok in Hl as [_ Hl]. destruct (decide (i = Z.to_nat box)) as [->|Hne].
    + exists l'. rewrite list_lookup_insert_eq by lia. split; [done |]. unfold env_of in *. congruence.
    + exists l0. by rewrite list_lookup_insert_ne by done.
  - unfold NGet_step in Hc. cbv zeta in Hc. apply bind_Ok in Hc as (d & _ & Hc). apply bind_Ok in Hc as (u & _ & [= <- <-]). split; [| done].
    apply (flow_same _ _ _ _ Hf); try done. intros i l Hl. by exists l.
  - injection Hc as <- <-. split; [done |]. unfold NetworkTest. destruct (_ || _); by repeat constructor.
  - unfold NAck_step in Hc. apply bind_Ok in Hc as ([[q m] d] & _ & [= <- <-]). split; [done | by repeat constructor].
Qed.

(** The worker puts the mail into its box. *)
Lemma flow_put s ins s' v b m : client (NPut b m) s = Ok (ins, s') → flow (env_of s) v (WPut 1 b m) →
  flow (env_of s') v (WPut 2 b m) ∧ ins = [].
Proof.
  intros Hc [F1 F2 F3 F4 F5 F6 (stage & rest & R1 & R2 & R3)]. cbn [Post.client] in Hc. unfold NPut_step in Hc. cbv zeta in Hc.
  apply bind_Ok in Hc as (l & [Hl0 Hl]%aget_Ok & Hc). apply bind_Ok in Hc as (bs & [Hb ->]%aset_Ok & [= <- <-]). split; [| done].
  constructor; try done; cbn; [by rewrite length_insert | by intros ? ? ?%elem_of_nil |].
  exists stage, rest. split; [done |]. split; [destruct stage as [l1|]; cbn in *; naive_solver |].
  intros b' Hb'. destruct (R3 b' Hb') as (l' & Hl' & Heq). cbn [in_hand] in *. destruct (decide (b' = b)) as [->|Hne].
  - exists (list_Append l m). cbn. rewrite list_lookup_insert_eq by lia. split; [done |]. rewrite fmap_app, <- app_assoc.
    assert (l' = l) as -> by (unfold env_of in *; congruence). rewrite Heq. unfold boxed at 1. cbn. by rewrite decide_True.
  - exists l'. cbn. rewrite list_lookup_insert_ne by lia. split; [done |]. rewrite Heq. f_equal. unfold boxed at 1. cbn. by rewrite decide_False by congruence.
Qed.

(** He takes the packet out of the device: no assertion of his can fail. *)
Lemma flow_deliver s v : flow (env_of s) v WReady → ∃ b m s', 0 <= b < nBoxes ∧
  client NDeliver s = Ok (SynchList_Append (box_lock b) b (NPut b m) ++ PostalDelivery, s') ∧ flow (env_of s') v (WPut 0 b m) ∧
  pkt_length (inHdr (enet (env_of s))) ≠ 0.
Proof.
  intros [F1 F2 F3 F4 F5 F6 (stage & rest & R1 & R2 & R3)]. destruct stage as [l|]; cbn in R2; [| naive_solver].
  destruct R2 as ((x & Hx & He) & Hl & [[_ ?]|[-> _]]); [done |].
  assert (pkt_length (inHdr (enet (env_of s))) ≠ 0) as Hnz.
  { destruct He as (m & dat & _ & _ & _ & (_ & _ & Hm) & ->). unfold sizeof_MailHeader. lia. }
  destruct (enclosed_delivered be new_bytes _ _ _ (buffer (env_of s)) new_bytes_length He F5) as (buf & m & arr & Hput & Hbl & Hm & Hle & Hbox & ->).
  cbn [fst] in *. unfold Post.client, PostalDelivery_step, NetworkInput_Receive. cbv zeta.
  change (get_net s) with (enet (env_of s)). apply Z.eqb_neq in Hnz as Hnz'. rewrite Hnz'. cbn [negb]. rewrite Hx. cbn [rbind].
  change (env_of (set_net s ?n)) with (with_enet (env_of s) n). cbn [buffer numBoxes with_enet]. rewrite Hput. cbn [rbind]. rewrite Hm. cbn [rbind].
  rewrite F2. destruct (Z.leb_spec 0 (mail_to m)), (Z.ltb_spec (mail_to m) nBoxes); try lia. cbn [andb rbind].
  destruct (Z.leb_spec (mail_length m) MaxMailSize); [| lia]. cbn [rbind]. rewrite Hbox. cbn [rbind].
  exists (mail_to m). eexists _, _. split; [lia |]. split; [done |]. split; [| done].
  constructor; cbn; try done.
  - intros b m' [= -> ->]%list_elem_of_singleton. lia.
  - exists None, rest. split; [done |]. split; [done |]. intros b Hb. destruct (R3 b Hb) as (lst & Hlst & Heq). exists lst. split; [done |].
    rewrite Heq. cbn [in_hand]. f_equal. unfold boxed. cbn. destruct (decide (mail_to m = b)); done.
Qed.

(** The semaphore of the worker, as [wake_device] and [Schedule_device] see it. *)
Definition reader : Driver netdev netcall NetEnv := mkDriver _ _ _ 0 message_available (λ _, false) (λ _, false) false (λ _, false).
#[local] Abbreviation value_of := (dev_value reader).

(** A datagram arrives. *)
Lemma flow_arrival e v p d ps h x b : flow e v p → pkt_length (inHdr (enet e)) = 0 → polls (enet e) = Some d :: ps →
  (buf ← ReadFromSocket d MaxWireSize; packet_at be buf) = Ok h →
  (buf ← ReadFromSocket d MaxWireSize; blk_get buf sizeof_PacketHeader (pkt_length h)) = Ok x →
  blk_put (inbox (enet e)) 0 x = Ok b → flow (with_enet e (with_in (enet e) h b ps)) (v + 1) p.
Proof.
  intros [F1 F2 F3 F4 F5 F6 (stage & rest & R1 & R2 & R3)] Hz Hps Hh Hx Hb.
  rewrite Hps in R1. inversion R1 as [|? l ? rest' Ha Hrest]; subst. destruct l as [l|]; [| done]. destruct Ha as (Hpost & Hto & Hl).
  destruct (posted_enclosed be d l Hpost) as (h' & x' & E1 & E2 & E3 & E4). rewrite E1 in Hh, Hx. cbn [rbind] in Hh, Hx.
  assert (h' = h) as -> by congruence. assert (x' = x) as -> by congruence.
  assert (stage = None) as ->.
  { destruct stage as [l'|]; [| done]. destruct R2 as ((x0 & _ & m & dat & _ & _ & _ & (_ & _ & Hm) & Hlen) & _). unfold sizeof_MailHeader in Hlen. lia. }
  cbn in R2. destruct R2 as (_ & -> & Hp).
  constructor; cbn; try done.
  - by rewrite (blk_put_length _ _ _ _ Hb).
  - exists (Some l), rest'. split; [done |]. split.
    + split; [| split; [done | by left]]. exists x. split; [| done]. cbn. apply blk_get_put_same in Hb. by rewrite (blk_get_length _ _ _ _ E3) in Hb.
    + intros b0 Hb0. destruct (R3 b0 Hb0) as (lst & Hlst & Heq). exists lst. split; [done |]. rewrite Heq. cbn. do 2 f_equal.
      unfold boxed. cbn. by destruct (decide _).
Qed.

(** Nothing has arrived. *)
Lemma flow_poll e v p n ps : flow e v p → polls (enet e) = None :: ps → n = with_in (enet e) (inHdr (enet e)) (inbox (enet e)) ps → flow (with_enet e n) v p.
Proof.
  intros [F1 F2 F3 F4 F5 F6 (stage & rest & R1 & R2 & R3)] Hps ->. rewrite Hps in R1.
  inversion R1 as [|? l ? rest' Ha Hrest]; subst. destruct l as [l|]; [done |].
  constructor; try done. by exists stage, rest'.
Qed.

Lemma flow_interrupt d s s' v p : CallBack d s = Ok s' → flow (env_of s) v p → value_of s = Some v →
  ∃ v', value_of s' = Some v' ∧ flow (env_of s') v' p.
Proof.
  intros Hc Hf Hv. destruct d; cbn [Post.CallBack] in Hc.
  - apply bind_Ok in Hc as (s1 & H1%Alarm_cases & [_ D2]%(Schedule_device reader)). exists v. unfold env_of, dev_value in *. rewrite D2. by destruct H1 as [->| ->].
  - apply NetworkInput_CallBack_cases in Hc as (s1 & [_ D1]%(Schedule_device reader) & Hc). cbv zeta in Hc. unfold get_net in Hc. cbn [net NetEnv_net] in Hc.
    assert (value_of s1 = Some v) as Hv1 by (unfold dev_value in *; by rewrite D1).
    destruct Hc as [[_ ->]|[(_ & _ & ->)|[(_ & ps & Hps & ->)|(Hz & d & ps & h & data & b & st & Hps & Hh & Hto & _ & Hx & Hb & _ & Hw)]]].
    + exists v. split; [done |]. unfold env_of in *. by rewrite D1.
    + exists v. split; [done |]. unfold env_of in *. by rewrite D1.
    + exists v. split; [done |]. unfold env_of, set_net in *. cbn. rewrite D1. by eapply flow_poll.
    + apply (wake_device reader) in Hw as (He & _ & Hv'). rewrite decide_True in Hv' by done. exists (v + 1). split.
      * rewrite Hv'. change (value_of (with_stats (set_net s1 (with_in (enet (env (devices s))) h b ps)) st)) with (value_of s1). by rewrite Hv1.
      * unfold env_of in *. rewrite He. cbn. rewrite D1. by eapply flow_arrival.
  - unfold NetworkOutput_CallBack in Hc. apply bind_Ok in Hc as (st & _ & Hc). apply (wake_device reader) in Hc as (He & _ & Hv').
    rewrite decide_False in Hv' by done. exists v. split; [by rewrite Hv' |]. unfold env_of in *. rewrite He.
    eapply flow_same; [exact Hf | done..|]. intros i l Hl. by exists l.
Qed.

(** ** The invariant *)

Definition queued a : Prop := ∀ cv q w, scond a !! cv = Some q → w ∈ q → ∃ n, w = SWait n.

Record received_at a (p : phase) (v : Z) : Prop := {
  rc_staff : staffed a p;
  rc_value : sval a !! SUser message_available = Some v;
  rc_flow : flow (senv a) v p;
  rc_cond : queued a }.

Definition receiving a : Prop := ∃ p v, received_at a p v.

#[local] Abbreviation step := (sys_step CallBack client no_user).

(** Another thread, or the worker, goes on. *)
Lemma receiving_other a a' p v t c c' : received_at a p v → scode a !! t = Some c → civils c → civils c' →
  (∀ t', scode a' !! t' = if decide (t' = t) then Some c' else scode a !! t') →
  sval a' !! SUser message_available = sval a !! SUser message_available → flow (senv a') v p → queued a' → receiving a'.
Proof. intros [R1 R2 R3 R4] Hc H1 H2 Ha Hv He Hq. exists p, v. constructor; [by eapply staffed_other | congruence | done | done]. Qed.

Lemma receiving_worker a a' t p' v' : (∀ t' c', t' ≠ t → scode a !! t' = Some c' → civils c') → phase_ok p' →
  (∀ t', scode a' !! t' = if decide (t' = t) then Some (wcode p') else scode a !! t') →
  sval a' !! SUser message_available = Some v' → flow (senv a') v' p' → queued a' → receiving a'.
Proof. intros Ho Hp Ha Hv Hf Hq. exists p', v'. constructor; [by eapply staffed_worker | done..]. Qed.

(** The worker does one of these only. *)
Definition his (i : instr) : bool :=
  match i with IP _ | ICall _ | IAcquire _ | ISignal _ _ | IRelease _ | IFork _ => true | _ => false end.

Lemma not_his a p t i c : staffed a p → scode a !! t = Some (i :: c) → his i = false → civil i = true ∧ civils c.
Proof.
  intros Ha Hc Hi. destruct (staffed_cases a p t _ Ha Hc) as [Hx|[(Hp & Hx & _)|(_ & (c1 & [= -> ->] & _) & _)]]; [by apply Forall_cons in Hx | | done].
  destruct p as [| |[|[|[|[|k]]]] b m]; cbn in Hx, Hp; try (injection Hx as -> ->; done). lia.
Qed.

Lemma receiving_same a p v t i c c' : received_at a p v → scode a !! t = Some (i :: c) → his i = false → (civils c → civils c') → receiving (go a t c').
Proof.
  intros Hr Hc Hi Hc'. pose proof Hr as [R1 R2 R3 R4]. destruct (not_his a p t i c R1 Hc Hi) as [H1 H2].
  eapply (receiving_other a _ p v t _ c' Hr Hc); [by constructor | by apply Hc' | apply lookup_go | done..].
Qed.

Lemma receiving_P a p v t w c u : received_at a p v → scode a !! t = Some (IP w :: c) → sval a !! w = Some u → u ≠ 0 →
  receiving (add_value (go a t c) w (-1)).
Proof.
  intros Hr Hc Hw Hu. pose proof Hr as [R1 R2 R3 R4].
  destruct (staffed_cases a p t _ R1 Hc) as [Hx|[(Hp & Hx & Ho)|(_ & (c1 & [=] & _) & _)]].
  - pose proof Hx as [Hi Hci]%Forall_cons. cbn in Hi. apply negb_true_iff, bool_decide_eq_false in Hi.
    eapply (receiving_other a _ p v t _ c Hr Hc); [done | done | exact (lookup_go a t c) | cbn; by rewrite lookup_alter_ne | done..].
  - destruct p as [| |[|[|[|[|k]]]] b m]; cbn in Hx, Hp; try done; [| lia]. injection Hx as -> ->. assert (u = v) as -> by congruence.
    eapply (receiving_worker a _ t WReady (v + -1) Ho); [done | exact (lookup_go a t _) | cbn; by rewrite lookup_alter_eq, Hw | by apply flow_ready | done].
Qed.

(** Steps at the lock and the condition of a box. *)
Lemma receiving_lock a a' p v t i c : received_at a p v → scode a !! t = Some (i :: c) →
  match i with IAcquire _ | IRelease _ | ISignal _ _ => True | _ => False end →
  (∀ t', scode a' !! t' = if decide (t' = t) then Some c else scode a !! t') →
  sval a' !! SUser message_available = sval a !! SUser message_available → senv a' = senv a → queued a' → receiving a'.
Proof.
  intros Hr Hc Hi Ha Hv He Hq. pose proof Hr as [R1 R2 R3 R4].
  destruct (staffed_cases a p t _ R1 Hc) as [Hx|[(Hp & Hx & Ho)|(_ & (c1 & [= -> _] & _) & _)]]; [| | done].
  - pose proof Hx as [_ Hci]%Forall_cons. by eapply (receiving_other a _ p v t _ c Hr Hc); [| | | | rewrite He |].
  - destruct p as [| |k b m]; [injection Hx as -> _; done.. |].
    assert (∀ p', in_hand p' = in_hand (WPut k b m) → p' ≠ WReady → phase_ok p' → wcode p' = c → receiving a') as Hgo.
    { intros p' Hh Hn Hok <-. eapply (receiving_worker a _ t p' v Ho Hok Ha); [congruence | | done].
      rewrite He. by apply (flow_phase _ _ _ _ R3). }
    destruct k as [|[|[|[|k]]]]; cbn in Hx, Hp; [| injection Hx as -> _; done | | | lia]; injection Hx as -> ->.
    + by apply (Hgo (WPut 1 b m)); cbn; try lia.
    + by apply (Hgo (WPut 3 b m)); cbn; try lia.
    + by apply (Hgo WIdle).
Qed.

Lemma receiving_fork a p v t body c t' : Forall static body → received_at a p v → scode a !! t = Some (IFork body :: c) → scode a !! t' = None →
  receiving (go (go a t c) t' (flat (body ++ [IFinish]))).
Proof.
  intros Hst Hr Hc Hn. pose proof Hr as [R1 R2 R3 R4]. exists p, v. constructor; [| done..].
  assert (t' ≠ t) as Hne by congruence. assert (scode (go a t c) !! t' = None) as Hn' by (rewrite lookup_go; by rewrite decide_False).
  destruct (staffed_cases a p t _ R1 Hc) as [Hx|[(Hp & Hx & Ho)|(-> & (c1 & [= -> ->] & Hci) & Ho)]].
  - pose proof Hx as [Hi Hci]%Forall_cons. apply staffed_new; [by apply (staffed_other a _ p t _ c R1 Hc); [| | apply lookup_go] | done |].
    apply civil_flat; [apply Forall_app; by split; [| repeat constructor] |]. apply Forall_app. split; [| by repeat constructor].
    cbn in Hi. apply Forall_forall. intros i Hii. rewrite forallb_True in Hi || idtac. apply Is_true_eq_true. apply Is_true_eq_left in Hi.
    rewrite forallb_True in Hi. by rewrite Forall_forall in Hi; apply Hi.
  - destruct p as [| |[|[|[|[|k]]]] b m]; cbn in Hx, Hp; try done. lia.
  - exists t', (wcode WIdle). split; [cbn; by rewrite lookup_insert_eq |]. split; [| by right].
    intros t0 c0 H0. cbn. rewrite lookup_insert_ne by done. destruct (decide (t0 = t)) as [->|H1]; [rewrite lookup_insert_eq; by intros [= <-] |].
    rewrite lookup_insert_ne by done. by apply Ho.
Qed.

Lemma call_value x s ins s' v : settled s → client x s = Ok (ins, s') → value_of s = Some v → value_of s' = Some v ∧ Forall static ins.
Proof.
  intros Hs Hx Hv. destruct (client_law x s ins s' Hs Hx) as (Hst & _ & m & e & [Hg _] & Hd). split; [| done].
  unfold dev_value in *. rewrite Hd. cbn in Hv |- *. apply fmap_Some in Hv as (sem & Hv & ->). by rewrite (Hg _ _ Hv).
Qed.

Lemma receiving_call a p v t x c ins s s' a' : received_at a p v → scode a !! t = Some (ICall x :: c) → settled s → shows s (go a t c) →
  client x s = Ok (ins, s') → shows s' a' → scode a' = <[t := c]> (scode a) → scond a' = scond a → receiving (go a' t (flat ins ++ c)).
Proof.
  intros Hr Hc Hs Hsh Hx Hsh' Hco Hcv. pose proof Hr as [R1 R2 R3 R4].
  change (senv a) with (senv (go a t c)) in R3. rewrite (sh_env s _ Hsh) in R3. change (env (devices s)) with (env_of s) in R3.
  assert (value_of s = Some v) as Hv by (rewrite (shown_value reader s _ Hsh); exact R2).
  destruct (call_value x s ins s' v Hs Hx Hv) as [Hv' Hst]. rewrite (shown_value reader s' _ Hsh') in Hv'. cbn [dsem reader] in Hv'.
  assert (∀ c1 t', scode (go a' t c1) !! t' = if decide (t' = t) then Some c1 else scode a !! t') as Hgo.
  { intros c1 t'. rewrite lookup_go, Hco. case_decide; [done | by rewrite lookup_insert_ne]. }
  assert (queued (go a' t (flat ins ++ c))) as Hq by (intros cv; cbn; rewrite Hcv; apply R4).
  assert (∀ p' ins', senv (go a' t ins') = env_of s' ∧ (flow (env_of s') v p' → flow (senv (go a' t ins')) v p')) as Hen.
  { intros p' ins'. change (senv (go a' t ins')) with (senv a'). by rewrite (sh_env s' _ Hsh'). }
  destruct (staffed_cases a p t _ R1 Hc) as [Hx1|[(Hp & Hx1 & Ho)|(_ & (c1 & [=] & _) & _)]].
  - pose proof Hx1 as [Hi Hci]%Forall_cons. destruct (flow_client x s ins s' v p Hx Hi R3) as [Hf Hins].
    eapply (receiving_other a _ p v t _ (flat ins ++ c) Hr Hc); [done | | apply Hgo | cbn; congruence | by apply Hen | done].
    apply Forall_app. split; [by apply civil_flat | done].
  - destruct p as [| |[|[|[|[|k]]]] b m]; cbn in Hx1, Hp; try done; [| | lia]; injection Hx1 as -> ->.
    + destruct (flow_deliver s v R3) as (b & m & s1 & Hb & Hd & Hf & _). rewrite Hd in Hx. injection Hx as <- <-.
      eapply (receiving_worker a _ t (WPut 0 b m) v Ho); [cbn; lia | apply Hgo | done | by apply Hen | done].
    + destruct (flow_put s ins s' v b m Hx R3) as [Hf ->].
      eapply (receiving_worker a _ t (WPut 2 b m) v Ho); [cbn; lia | apply Hgo | done | by apply Hen | done].
Qed.

Lemma receiving_step a a' : receiving a → step a a' → receiving a'.
Proof.
  intros (p & v & Hr) Hst. pose proof Hr as [R1 R2 R3 R4]. destruct Hst as [a t w c u Hc Hw Hu|a t w c u Hc Hw|a t l c Hc Hl|a t l c Hc Hl|a t cv l c q n Hc Hl Hq _ _
    |a t cv l c Hc Hl Hq|a t cv l c w q Hc Hl Hq|a t cv l c q Hc Hq|a t w c Hc Hw|a t body c t' Hc Hb Hn|a t c Hc|a t Hc|a t sp c Hc
    |a t c ins m m' Hc Hm Hu|a t x c ins s s' a' Hc Hs Hcur Hsh Hx Hsh' Hco Hlk Hcv|a d ev s s' a' Hev Hl Hi Hsh Hx Hsh' Hco Hlk Hcv].
  - by eapply receiving_P.
  - destruct (not_his a p t _ c R1 Hc eq_refl) as [Hx Hci]. cbn in Hx. apply negb_true_iff, bool_decide_eq_false in Hx.
    eapply (receiving_other a _ p v t _ c Hr Hc); [by constructor; [cbn; rewrite bool_decide_eq_false_2 |] | done | exact (lookup_go a t c) | cbn; by rewrite lookup_alter_ne | done..].
  - by eapply (receiving_lock a _ p v t _ c Hr Hc); [| exact (lookup_go a t c) | ..].
  - by eapply (receiving_lock a _ p v t _ c Hr Hc); [| exact (lookup_go a t c) | ..].
  - destruct (not_his a p t _ c R1 Hc eq_refl) as [Hx Hci].
    eapply (receiving_other a _ p v t _ _ Hr Hc); [by constructor | | exact (lookup_go a t _) | cbn; by rewrite lookup_insert_ne | done |].
    + apply Forall_app. split; [| done]. repeat constructor.
    + intros cv' q' w. cbn. destruct (decide (cv' = cv)) as [->|Hne]; [rewrite lookup_insert_eq | rewrite lookup_insert_ne by done; apply R4].
      intros [= <-] [Hw|Hw]%elem_of_app; [by apply (R4 cv q) |]. apply list_elem_of_singleton in Hw. by exists n.
  - by eapply (receiving_lock a _ p v t _ c Hr Hc); [| exact (lookup_go a t c) | ..].
  - destruct (R4 cv _ w Hq) as [n ->]; [by left |].
    eapply (receiving_lock a _ p v t _ c Hr Hc); [done | exact (lookup_go a t c) | cbn; by rewrite lookup_alter_ne | done |].
    intros cv' q' w. cbn. destruct (decide (cv' = cv)) as [->|Hne]; [rewrite lookup_insert_eq | rewrite lookup_insert_ne by done; apply R4].
    intros [= <-] Hw. apply (R4 cv (SWait n :: q) w Hq). by right.
  - eapply (receiving_same a p v t _ c _ Hr Hc eq_refl). intros Hci. destruct q; [done |]. by repeat constructor.
  - destruct (not_his a p t _ c R1 Hc eq_refl) as [Hx Hci]. cbn in Hx. apply negb_true_iff, bool_decide_eq_false in Hx.
    eapply (receiving_other a _ p v t _ c Hr Hc); [by constructor; [cbn; rewrite bool_decide_eq_false_2 |] | done | exact (lookup_go a t c) | cbn; by rewrite lookup_delete_ne | done..].
  - by eapply receiving_fork.
  - by eapply (receiving_same a p v t _ c _ Hr Hc eq_refl).
  - exists p, v. constructor; [by apply staffed_gone | done..].
  - eapply (receiving_same a p v t _ c _ Hr Hc eq_refl). intros Hci. by constructor.
  - done.
  - by eapply receiving_call.
  - destruct (flow_interrupt d s s' v p Hx) as (v' & Hv' & Hf).
    + unfold env_of. rewrite <- (sh_env s _ Hsh). done.
    + by rewrite (shown_value reader s _ Hsh).
    + exists p, v'. rewrite (shown_value reader s' _ Hsh') in Hv'. constructor; [by eapply staffed_same | done | by rewrite (sh_env s' _ Hsh') |].
      intros cv. rewrite Hcv. apply R4.
Qed.

Lemma receiving_steps a a' : rtc step a a' → receiving a → receiving a'.
Proof. induction 1 as [|a1 a2 a3 H1 _ IH]; [done |]. intros Ha. apply IH. by eapply receiving_step. Qed.
End delivery.

(** ** The start *)

Lemma const_map `{Countable K} {A V} (f : A → K) (l : list A) (v : V) k :
  (list_to_map ((λ b, (f b, v)) <$> l) : gmap K V) !! k = if decide (k ∈ f <$> l) then Some v else None.
Proof.
  induction l as [|b l IH]; [done |]. cbn. destruct (decide (k = f b)) as [->|Hne].
  - rewrite lookup_insert_eq, decide_True by (by left). done.
  - rewrite lookup_insert_ne by done. change (list_to_map _ !! k) with ((list_to_map ((λ b, (f b, v)) <$> l) : gmap K V) !! k). rewrite IH.
    destruct (decide (k ∈ f <$> l)); [rewrite decide_True by (by right) | rewrite decide_False]; try done. by rewrite elem_of_cons; intros [?|?].
Qed.

Section boot.
Variable new_bytes : Z → list Z.
Variables (nBoxes : Z) (n : Net) (main : list instr).
Hypothesis main_static : Forall static main.

Definition first_threads : Threads netcall NetEnv :=
  mkThreads main_thread [] None {[main_thread := mkThread RUNNING (IFork PostalDelivery :: ISetLevel IntOn :: main ++ [IFinish]) None (replicate (Z.to_nat NumTotalRegs) 0) None]}
    (post_semaphores nBoxes) (post_locks nBoxes) (post_conditions nBoxes) (main_thread + 1) 0 (PostOffice_new new_bytes nBoxes n).

Lemma Post_boot_shape s : Post_boot new_bytes nBoxes n main = Ok s → settled s ∧ devices s = first_threads ∧ dev_events sender s = 0.
Proof.
  unfold Post_boot. cbv zeta. intros (s1 & H1 & H2)%bind_Ok. unfold NetworkInput_new in H2.
  assert (settled (mkSim Interrupt_new Statistics_new Machine_new first_threads : Sim)) as H0.
  { split; [| constructor]. split; [constructor |]. split; [constructor |]. split; [unfold clock_ok, is_s32; cbn; lia |]. split; [exact Machine_new_typed | done]. }
  split; [exact (Schedule_settled _ _ _ _ _ (Schedule_settled _ _ _ _ _ H0 H1) H2) |].
  apply (Schedule_device sender) in H1 as [E1 D1], H2 as [E2 D2]. split; [by rewrite D2, D1 |]. by rewrite E2, E1.
Qed.

Lemma post_lock l : (post_locks nBoxes !! l = None ∨ post_locks nBoxes !! l = Some None ∧ post_semaphores nBoxes !! SLock l = Some (mkSem 1 [])) ∧
  (post_semaphores nBoxes !! SLock l ≠ None → post_locks nBoxes !! l ≠ None).
Proof.
  unfold post_locks, post_semaphores. rewrite !(lookup_insert_ne _ (SUser _)) by done. destruct (decide (l = sendLock)) as [->|Hne].
  - rewrite !lookup_insert_eq. split; [by right | done].
  - rewrite !lookup_insert_ne by congruence. rewrite !const_map.
    destruct (decide (SLock l ∈ (λ b, SLock (box_lock b)) <$> seqZ 0 nBoxes)) as [Hs|Hs].
    + apply list_elem_of_fmap in Hs as (b & [= ->] & Hb). rewrite decide_True by (apply list_elem_of_fmap; by exists b). split; [by right | done].
    + rewrite decide_False; [split; [by left | done] |]. intros (b & -> & Hb)%list_elem_of_fmap. apply Hs, list_elem_of_fmap. by exists b.
Qed.

Lemma Post_boot_booted s : Post_boot new_bytes nBoxes n main = Ok s → booted s ∧ made (devices s).
Proof.
  intros (Hs & Hd & _)%Post_boot_shape. split; [constructor | intros l; rewrite Hd; apply post_lock]; rewrite ?Hd; try done.
  - eexists _, (IFork PostalDelivery :: ISetLevel IntOn :: main). split; [reflexivity |]. repeat (split; [done |]).
    split; [| done]. constructor; [by repeat constructor |]. by constructor.
  - intros w sem. cbn. unfold post_semaphores. do 3 (intros [[_ <-]|[_ Hx]]%lookup_insert_Some; [done | revert Hx]).
    rewrite const_map. case_decide; [by intros [= <-] | done].
  - intros l h Hl. cbn in *. destruct (post_lock l) as [[Hx|[Hx Hw]] _]; rewrite Hx in Hl; [done |]. by injection Hl as <-.
  - intros cv q. cbn. unfold post_conditions. rewrite const_map. case_decide; [by intros [= <-] | done].
Qed.

Lemma Post_boot_unused s : Post_boot new_bytes nBoxes n main = Ok s → foreign sender main → sendBusy n = false → unused sender (λ _, True) s.
Proof.
  intros (Hs & Hd & He)%Post_boot_shape Hf Hb. constructor; rewrite ?Hd; try done.
  - intros t th. cbn. intros [<- <-]%lookup_singleton_Some. cbn [code]. split.
    + constructor; [by repeat constructor |]. constructor; [done |]. apply Forall_app. split; [done | by repeat constructor].
    + unfold foreign, parse. cbn [foldr before]. change (foldr (before sender) (Some Outside) (main ++ [IFinish])) with (parse sender (main ++ [IFinish])).
      rewrite (foreign_app sender main [IFinish] Hf eq_refl). done.
  - cbn. unfold post_locks. by rewrite lookup_insert_eq.
  - unfold dev_value. rewrite Hd. cbn. unfold post_semaphores. rewrite lookup_insert_ne by done. by rewrite lookup_insert_eq.
  - unfold dev_busy. by rewrite Hd.
Qed.
End boot.

Lemma sender_events s : dev_events sender s = Z.of_nat (length (filter (λ p, callOnInterrupt p = NDOutput) (pending (interrupt s)))).
Proof. refine (dev_events_filter sender (λ d, d = NDOutput) s _). by intros []. Qed.

(** C30: packets leave one at a time.  The device's own test says nothing:
    [sendBusy] is reset but never set.  Yet on a machine with a post office,
    whatever its threads send and however they are interrupted, a thread that is about to
    hand a packet to the device finds the completion of the one before
    delivered, and there is never more than one to come. *)
Theorem sends_one_at_a_time be RandomNumber new_bytes nBoxes n main s s' (Hst : Forall static main) (Hf : foreign sender main)
    (Hidle : sendBusy n = false) (Hboot : Post_boot new_bytes nBoxes n main = Ok s)
    (Hr : rtc (exec_step (CallBack be) (client be RandomNumber new_bytes) no_user) s s') :
  let sends := filter (λ p, callOnInterrupt p = NDOutput) (pending (interrupt s')) in
  (∀ th hdr buf c, threads (devices s') !! currentThread (devices s') = Some th → code th = ICall (NSend hdr buf) :: c →
     sends = [] ∧ sendBusy (enet (env_of s')) = false) ∧ (length sends <= 1)%nat.
Proof.
  destruct (Post_boot_booted new_bytes nBoxes n main Hst s Hboot) as [Hb Hm].
  pose proof (Post_boot_unused new_bytes nBoxes n main Hst s Hboot Hf Hidle) as Hu.
  destruct (device_never_disturbed sender (CallBack be) (client be RandomNumber new_bytes) no_user (λ _, True) s s' Hb Hm Hu Hr) as (Hd & He & _).
  cbv zeta. rewrite sender_events in He. split; [| lia]. intros th hdr buf c Ht Hc.
  destruct (Hd th (NSend hdr buf) c Ht Hc eq_refl) as [H1 H2]. rewrite sender_events in H2. split; [by apply length_zero_iff_nil; lia | exact H1].
Qed.

(** Before anything has arrived. *)
Record quiet_net (n : Net) (host : Z) : Prop := {
  qn_host : hostName n = host;
  qn_empty : pkt_length (inHdr n) = 0;
  qn_inbox : Z.of_nat (length (inbox n)) = MaxPacketSize }.

Lemma boxed_nothing nBoxes b : 0 <= b < nBoxes → (replicate (Z.to_nat nBoxes) (SList_new (T := Mail))) !! Z.to_nat b = Some SList_new.
Proof. intros Hb. apply lookup_replicate_2. lia. Qed.

Lemma Post_boot_receiving be new_bytes host nBoxes letters n main s : (∀ k, 0 <= k → Z.of_nat (length (new_bytes k)) = k) →
  Forall static main → Forall (λ i, civil i = true) main → 0 <= nBoxes → quiet_net n host → Forall2 (answers be host nBoxes) (polls n) letters →
  Post_boot new_bytes nBoxes n main = Ok s → receiving be host nBoxes letters (sys_of s).
Proof.
  intros Hnb Hst Hci Hn [Q1 Q2 Q3] Hl (_ & Hd & _)%Post_boot_shape. exists WIdle, 0. unfold sys_of. rewrite Hd. constructor.
  - exists main_thread, (IFork PostalDelivery :: flat (main ++ [IFinish])). cbn. rewrite fmap_insert, fmap_empty. split; [by rewrite lookup_insert_eq |]. split.
    + intros t c Ht. by rewrite lookup_insert_ne, lookup_empty by done.
    + left. split; [done |]. eexists. split; [done |]. apply civil_flat; apply Forall_app; split; by repeat constructor.
  - cbn. rewrite lookup_fmap. unfold post_semaphores. by rewrite lookup_insert_eq.
  - constructor; cbn; try done; [rewrite length_replicate; lia | by apply Hnb | by intros b m ?%elem_of_nil |].
    exists None, letters. split; [done |]. split; [done |]. intros b Hb. exists SList_new. by split; [apply boxed_nothing |].
  - intros cv q w Hq. cbn in Hq. unfold post_conditions in Hq. rewrite const_map in Hq. case_decide; [injection Hq as <-; by intros ?%elem_of_nil | done].
Qed.

(** C10: mail arrives, all of it, in order and intact.  Take a machine whose
    socket yields packets that the [Send] of post.cc made, on whatever machines,
    poll by poll and addressed to boxes that exist.  However its
    threads, its postal worker and the interrupts interleave: what every box was
    given are the first mails sent to it, with their headers and contents, in
    the order in which they arrived; what is still missing is in the socket but for
    at most two mails, one in the device and one in the worker's hands; and
    the worker, whenever it turns to the device, finds a packet there, and none of
    the assertions on its way to the mail box fails.  The n-th mail that is
    taken out of a box is the n-th that was sent to it. *)
Theorem mail_arrives_in_order be RandomNumber new_bytes host nBoxes letters n main s s'
    (Hnew : ∀ k, 0 <= k → Z.of_nat (length (new_bytes k)) = k) (Hst : Forall static main) (Hci : Forall (λ i, civil i = true) main)
    (Hn : 0 <= nBoxes) (Hq : quiet_net n host) (Hl : Forall2 (answers be host nBoxes) (polls n) letters)
    (Hboot : Post_boot new_bytes nBoxes n main = Ok s)
    (Hr : rtc (exec_step (CallBack be) (client be RandomNumber new_bytes) no_user) s s') :
  (∃ rest, Forall2 (answers be host nBoxes) (polls (enet (env_of s'))) rest ∧
     ∀ b, 0 <= b < nBoxes → ∃ l transit, boxes (env_of s') !! Z.to_nat b = Some l ∧ (length transit <= 2)%nat ∧
       boxed b (omap id letters) = (seen <$> items l) ++ transit ++ boxed b (omap id rest)) ∧
  (∀ b l dst, 0 <= b < nBoxes → boxes (env_of s') !! Z.to_nat b = Some l → list_IsEmpty l = false → ∃ m s2,
     NTake_step s' b dst = Ok ([IRelease (box_lock b); ICall (NGet dst m)], s2) ∧ boxed b (omap id letters) !! removed l = Some (seen m) ∧
     boxes (env_of s2) !! Z.to_nat b = Some (mkSList (items l) (S (removed l)))) ∧
  (∀ th c, threads (devices s') !! currentThread (devices s') = Some th → code th = ICall NDeliver :: c →
     pkt_length (inHdr (enet (env_of s'))) ≠ 0 ∧ ∃ r, PostalDelivery_step be new_bytes s' = Ok r).
Proof.
  destruct (Post_boot_booted new_bytes nBoxes n main Hst s Hboot) as [Hb Hm].
  pose proof (Post_boot_receiving be new_bytes host nBoxes letters n main s Hnew Hst Hci Hn Hq Hl Hboot) as H0.
  destruct (flows_run (CallBack be) (client be RandomNumber new_bytes) no_user s s' (booted_ksim s Hb) Hm Hr (sys_of s) (booted_shows s Hb)) as (a & Ha & Hsh).
  destruct (receiving_steps be RandomNumber new_bytes Hnew host nBoxes letters _ _ Ha H0) as (p & v & [R1 R2 R3 R4]).
  rewrite (sh_env s' a Hsh) in R3. change (env (devices s')) with (env_of s') in R3. split; [by eapply flow_arrived |].
  split; [intros b l dst; by eapply flow_taken |].
  intros th c Ht Hc. pose proof (booted_run (CallBack be) (client be RandomNumber new_bytes) no_user s s' Hb Hr) as (_ & (Hsi & _) & _).
  assert (scode a !! currentThread (devices s') = Some (ICall NDeliver :: flat c)) as Hco.
  { rewrite (sh_code s' a Hsh). unfold live. rewrite decide_False; [by rewrite Ht; cbn; rewrite Hc |]. intros Hd. by destruct (inv_destroyed _ Hsi _ Hd). }
  pose proof (his_delivery a p _ _ R1 Hco) as ->.
  destruct (flow_deliver be RandomNumber new_bytes Hnew host nBoxes letters s' v R3) as (b & m & s2 & _ & Hd & _ & Hz). split; [exact Hz |]. by eexists.
Qed.

(** ** A machine that runs Kernel::NetworkTest

    Machine 0, with a socket that yields the two mails of machine 1. *)

#[local] Abbreviation zeros := (λ n : Z, replicate (Z.to_nat n) 0).
#[local] Abbreviation seven := (λ _ : Z, 7).
#[local] Abbreviation net_client := (client false seven zeros).

Definition demo_datagram (m : MailHeader) (data : list Z) : list Z :=
  from_ok [] ('(hdr, buf) ← post_buffer false zeros 1 (mkPacketHeader 0 0 0) m data; wire_bytes false zeros hdr buf).
Definition demo_mail : MailHeader := mkMailHeader 0 1 13.
Definition demo_ack : MailHeader := mkMailHeader 1 1 8.
Definition demo_letters : list (option (Z * view)) :=
  [None; Some (0, (mkPacketHeader 0 1 25, demo_mail, hello)); None; Some (1, (mkPacketHeader 0 1 20, demo_ack, got_it))].
Definition demo_net : Net :=
  Net_new 0 (QArith_base.Qmake 1 1) [None; Some (demo_datagram demo_mail hello); None; Some (demo_datagram demo_ack got_it)]
    (replicate 2 MaxWireSize) (mkPacketHeader 0 0 0) (zeros MaxPacketSize).
Definition demo_office := from_ok (mkSim Interrupt_new Statistics_new Machine_new (first_threads zeros 10 demo_net []))
  (Post_boot zeros 10 demo_net [ICall NTest]).
Definition office_state (n : nat) := from_ok demo_office (run (CallBack false) net_client no_user n demo_office).

Lemma demo_office_eq : Post_boot zeros 10 demo_net [ICall NTest] = Ok demo_office.
Proof.
  assert (is_ok (Post_boot zeros 10 demo_net [ICall NTest]) = true) as Hs by (vm_compute; reflexivity). revert Hs. unfold demo_office.
  by destruct (Post_boot _ _ _ _).
Qed.

Lemma office_reached n : is_ok (run (CallBack false) net_client no_user n demo_office) = true →
  rtc (exec_step (CallBack false) net_client no_user) demo_office (office_state n).
Proof. intros Hn. apply (run_steps _ _ _ n). unfold office_state. by destruct (run _ _ _ n demo_office). Qed.

Lemma demo_posted (m : MailHeader) (data : list Z) h x : post_buffer false zeros 1 (mkPacketHeader 0 0 0) m data = Ok (h, x) →
  is_ok (wire_bytes false zeros h x) = true → is_s32 (mail_to m) → is_s32 (mail_from m) → 0 <= mail_length m →
  posted false (demo_datagram m data) (mail_to m, (h, m, take (Z.to_nat (mail_length m)) data)).
Proof.
  intros Hp Hw H1 H2 H3. exists zeros, 1, (mkPacketHeader 0 0 0), m, data, h, x. split; [intros n Hn; rewrite length_replicate; lia |].
  split; [exact Hp |]. unfold demo_datagram. rewrite Hp. cbn [rbind]. split; [by destruct (wire_bytes _ _ _ _) |].
  by split_and!; try done; cbn.
Qed.

Lemma demo_answers : Forall2 (answers false 0 10) (polls demo_net) demo_letters.
Proof.
  repeat constructor; try (cbn; lia).
  - refine (demo_posted demo_mail hello (mkPacketHeader 0 1 25) _ _ _ _ _ _); try done; vm_compute; reflexivity.
  - refine (demo_posted demo_ack got_it (mkPacketHeader 0 1 20) _ _ _ _ _ _); try done; vm_compute; reflexivity.
Qed.

(** Between these two packets the device has reported the first. *)
Definition about_to_send (n : nat) : option (PacketHeader * list Z) :=
  match threads (devices (office_state n)) !! currentThread (devices (office_state n)) with
  | Some th => match code th with ICall (NSend hdr buf) :: _ => Some (hdr, buf) | _ => None end
  | None => None
  end.

Lemma about_to_send_code n hdr buf : about_to_send n = Some (hdr, buf) → ∃ th c,
  threads (devices (office_state n)) !! currentThread (devices (office_state n)) = Some th ∧ code th = ICall (NSend hdr buf) :: c.
Proof.
  unfold about_to_send. destruct (threads _ !! _) as [th|] eqn:Ht; [| done]. destruct (code th) as [|i c] eqn:Hc; [done |].
  destruct i; try done. destruct x; try done. intros [= -> ->]. by eexists _, _.
Qed.

Lemma sends_one_at_a_time_witness : ∃ hdr buf, about_to_send 62 = Some (hdr, buf) ∧ pkt_length hdr = 20 ∧
  filter (λ p, callOnInterrupt p = NDOutput) (pending (interrupt (office_state 62))) = [] ∧
  length (filter (λ p, callOnInterrupt p = NDOutput) (pending (interrupt (office_state 64)))) = 1%nat.
Proof.
  eexists _, _. split; [vm_compute; reflexivity |]. split; [reflexivity |]. split; [| vm_compute; reflexivity].
  destruct (about_to_send_code 62 _ _ ltac:(vm_compute; reflexivity)) as (th & c & Ht & Hc).
  refine (proj1 (proj1 (sends_one_at_a_time false seven zeros 10 demo_net [ICall NTest] demo_office (office_state 62) _ _ eq_refl demo_office_eq _) th _ _ c Ht Hc)).
  - by repeat constructor.
  - done.
  - apply office_reached. vm_compute. reflexivity.
Defined.

(** Both mails are in their boxes, and have been received. *)
Lemma mail_arrives_in_order_witness : ∃ l transit, boxes (env_of (office_state 100)) !! 0%nat = Some l ∧
  [(mkPacketHeader 0 1 25, demo_mail, hello)] = (seen <$> items l) ++ transit ∧ length (items l) = 1%nat ∧
  received (env_of (office_state 100)) !! 0 = Some (mkPacketHeader 0 1 20, demo_ack, got_it).
Proof.
  destruct (mail_arrives_in_order false seven zeros 0 10 demo_letters demo_net [ICall NTest] demo_office (office_state 100)) as [(rest & Hr & Hb) _].
  - intros k Hk. rewrite length_replicate. lia.
  - by repeat constructor.
  - by repeat constructor.
  - lia.
  - by constructor.
  - exact demo_answers.
  - exact demo_office_eq.
  - apply office_reached. vm_compute. reflexivity.
  - destruct (Hb 0 ltac:(lia)) as (l & transit & Hl & _ & He). exists l, transit. split; [exact Hl |].
    assert (polls (enet (env_of (office_state 100))) = []) as Hp by (vm_compute; reflexivity). rewrite Hp in Hr.
    apply Forall2_nil_inv_l in Hr as ->. rewrite app_nil_r in He. split; [exact He |].
    split; [| vm_compute; reflexivity]. vm_compute in Hl. injection Hl as <-. reflexivity.
Defined.
